(* ===== verification/_CoqProject ===== *)
-Q . S2P
Prelude.v
GoStd.v
Json.v
StrictJson.v
Time.v
Text.v
Calendar.v
Host.v
Locator.v
Grant.v
GrantProps.v
SshWire.v
Crypto.v
Packet.v
Kex.v
Conn.v
Forward.v
Serve.v
Sample.v
WireWitness.v
Hoare.v
ConnInv.v
ChanInv.v
Auth.v
Nonce.v
Loop.v
Safety.v
Flow.v
Listen.v
ClientStore.v
ClientCodec.v
Server.v
ServerProps.v
Clients.v
ClientProps.v
Invite.v
Accept.v
InviteClient.v
AuthorizedKeys.v
GrantSession.v
SessionProps.v
Reconcile.v
Frame.v
Layout.v
ReconcileProps.v
ReconcileLoop.v
ReconcileKeys.v
InviteProps.v
InviteClientProps.v
Enroll.v
EnrollProps.v
HostWitness.v
ReconcileWitness.v
EnrollWitness.v
Config.v
ConfigProps.v
Resolve.v
Supervisor.v
SupervisorProps.v
Routes.v
RouteProps.v
RouteSafety.v
RouteCodec.v
Lifecycle.v
LifecycleProps.v
Tunnels.v
TunnelProps.v
TunnelSafety.v
ConfigCodec.v
Submit.v
ClientEnroll.v
SubmitProps.v
ClientEnrollProps.v
HostSigner.v
Provisioner.v
NetInspect.v
HostApply.v
HostApplyProps.v
HostCommand.v
CommandWitness.v
