(* ===== verification/Prelude.v ===== *)
(** * WarpTweet: a verification development

    WarpTweet gives one client access to one TCP service of a host through a
    post-quantum SSH tunnel.  The host runs a data plane (an SSH server that
    only forwards to two fixed destinations), keeps client records ("grants"
    with a lease), an authorized_keys file derived from them and records of the
    sessions that are being served, and issues single-use invites with which
    clients enroll.  A client keeps routes: per enrolled host a desired state, a
    receipt, generations of keys and trust, a claimed local port, and a tunnel
    process that a supervisor keeps running.  This library models both sides and
    the standard-library functions the code rests on, as executable definitions
    translated from the Go sources under [internal/], and proves what makes the
    parts correct, alone and together.

    ** The parts and how they interact

    - Data plane ([internal/dataplane]): [listen.go] admits connections;
      [conn.go] runs the handshake (hybrid ML-KEM/X25519 exchange, a composite
      ML-DSA/Ed25519 host signature), authenticates against authorized_keys and
      serves channel messages; [forward.go] moves data between channels and the
      backend; [packet.go] seals and opens packets; [session.go] keeps the table
      of sessions so that a control request can drop a key.  It signs through
      the host signer ([internal/hostsign], [internal/opensshkey]), the only
      process that holds the host key.
    - Grants ([internal/grant]): durations, the host's policy file, the
      high-water mark of the clock, the blocked marker and the expiry
      transaction that client records and the reconciler use.
    - Clients and invites ([internal/enrollment]): documents on disk, replaced
      atomically under file locks; acceptance turns an invite into a client
      record, calls back the host to install its key, and consumes the invite;
      [submit.go] and [tls.go] are the client's requests over a connection whose
      key the invite pins, and the TLS identity of the host.
    - Sessions ([internal/grantsession]): which process serves which grant, the
      termination of a grant's sessions, and the proof that they are gone.
    - Host ([internal/server], [internal/command/enroll_server.go],
      [server_admin.go]): the manifest, the authorized_keys format, and the
      reconcile loop that puts all of the above together.  The host command
      ([host.go], [host_apply.go]) puts a configuration in place: addresses
      ([host_network.go], [internal/inspectnet]), identity, manifest, services
      and an invite, with receipts of what is wanted and applied.
    - Client ([internal/command/lifecycle.go], [connect.go]): enroll, up, down,
      status, reconcile, rotate, revoke and the rest, over the route store
      ([internal/routestate]), the run-time states ([internal/lifecycle]), the
      tunnel manifest ([internal/config], [internal/knownhosts]), name resolution
      ([internal/locator/resolve.go]) and the supervisor ([internal/supervisor]).
      An operator without the rights of the superuser asks the provisioner
      ([internal/provisioner]), which runs the client's commands.

    ** How code is modelled

    A pure Go function is a Rocq function.  A fallible one returns
    [result A] (Prelude).  Code that keeps state is a program of a small state
    and error monad: [M] over the connection record with a trace of the effects
    it has (Conn), [HM] over the files of a machine (Host), in which every
    system call consults an oracle that may make it fail, and a failing write
    may leave any prefix behind.  Theorems quantify over that oracle, so
    "whatever fails" includes a crash in the middle of an operation.  Hoare
    triples for the two monads are in Hoare and Host; [moves] and [within]
    (Frame) say which files a program may change.  The supervisor is a program
    against an environment that answers each of its calls, with a trace.
    Fixed-width integers are [Z] with the wrap-around written out ([wrap32],
    [wrap64], ...); bytes are lists of [byte].

    What is not the program's own code is an argument: cryptographic primitives
    are the class [Crypto] (Crypto), whose laws are documented behaviour of the
    primitives, with the instance [Toy] (Sample) for the witnesses; other
    programs ([ssh-keygen], [systemctl]) are the argument [exec], which may change
    files; the process table, signals, the network, the encodings of keys and
    certificates (records [network], [pki], [pemCodec]) and the installed
    provisioner are arguments too.

    ** Files

    - Prelude, GoStd, Json, StrictJson, Time, Text, Calendar: shared notation,
      errors, tactics and hints; [encoding/binary], [strings], [strconv], [hex],
      [base64], [netip]; [encoding/json]; [internal/strictjson]; the calendar and
      RFC 3339.  StrictJson proves the token walk equivalent to a predicate on
      the parsed value.
    - Host, Locator: the file system with faults, its triples;
      [internal/locator] ([dialhost.go], [endpoint.go]).
    - Grant, GrantProps: [internal/grant]; atomic replacement, the clock mark,
      leases, the expiry transaction against any host operations.
    - SshWire, Crypto, Packet, Kex, Conn, Forward, Serve: [internal/sshwire],
      [internal/composite], [internal/profile] and [internal/dataplane].  Sample
      and WireWitness hold a small instance and concrete runs.
    - Hoare, ConnInv, ChanInv, Auth, Nonce, Loop, Safety, Flow: the invariants of
      a connection and the theorems on it.  [Safety.step] interleaves message
      handlers with forwarder steps; reachability is by rule induction.
    - Listen: admission, slots and the session table.
    - HostSigner: [internal/opensshkey], [internal/hostsign].
    - ClientStore, ClientCodec, Clients, ClientProps: the client record, its JSON
      round trip, [clients.go], and the status machine of a record.
    - Server, ServerProps: the manifest and the authorized_keys file; what its
      validator accepts and what the data plane reads from it.
    - Invite, Accept, InviteClient, InviteProps, InviteClientProps:
      [invite.go], [accept.go], [client.go], [invitefile.go].
    - AuthorizedKeys, GrantSession, SessionProps: the edits of the
      authorized_keys file; [internal/grantsession].
    - Reconcile, Enroll: the commands of [enroll_server.go] and
      [server_admin.go].  Frame and Layout show which files each program may
      change and that the installed paths are apart; ReconcileProps,
      ReconcileLoop, ReconcileKeys, EnrollProps compose the components.
    - Supervisor, SupervisorProps: [internal/supervisor] and the protocol of
      launching, readiness, stopping and waiting that its traces follow.
    - Routes, RouteProps, RouteSafety, RouteCodec: [internal/routestate], the
      exclusive claims of ports and the JSON form of its documents.
    - Lifecycle, LifecycleProps, Resolve: [internal/lifecycle] and
      [resolve.go].
    - Config, ConfigProps, ConfigCodec: [internal/config],
      [internal/knownhosts] and [BuildClientManifest].
    - Tunnels, TunnelProps, TunnelSafety: the commands on routes that exist.
    - Submit, SubmitProps, ClientEnroll, ClientEnrollProps: [submit.go],
      [tls.go]; the commands enroll, rotate and revoke.
    - Provisioner: [internal/provisioner] on Linux, and what it runs.
    - NetInspect: [internal/inspectnet], its datagrams and the chosen address.
    - HostApply, HostApplyProps, HostCommand: [host_network.go],
      [host_revision.go], [host_apply.go] and [host.go] of [internal/command]; the
      class [HostHelpers] states what the application of a configuration relies
      on, and the production helpers are an instance.
    - HostWitness, ReconcileWitness, EnrollWitness, CommandWitness (a module per
      component): the theorems applied to concrete machines.

    ** What the theorems show

    - Connection: only the policy's destinations are dialled; an authenticated
      connection has verified a signature over its own session; no (key, nonce)
      pair seals two packets; packets are accepted only with their tag; quota,
      receive window, send flow control; the key-exchange state machine; the
      serve loop terminates; admission limits hold and do not leak.  Exactly the
      canonical key files are host keys, and what the signer returns verifies
      under the key it shows.
    - Documents: replacement is all or nothing; policy, invites, client records,
      locators, routes and manifests survive their text form; the duplicate-name
      check decides what it says; the manifest validator accepts exactly the
      manifests it describes.
    - Grants: the record on disk follows the grant state machine under every
      sequence of operations and faults; revocation is final; an operation that
      reports success took effect everywhere (record, key, sessions); after a
      reconciliation exactly the usable grants can authenticate; a host whose
      clock went back fails closed.
    - Invites: the life cycle, single use, exclusive files, valid labels.
    - Host command: target and published endpoints change only when no grant or
      invite depends on them; a run without flags keeps the network; the address
      a host binds to is a usable one of an interface that is up; what is asked
      of the kernel and read from it.  Two interrupted changes that a later run
      does not repair are shown on a concrete host.
    - Client: two routes never hold one port; a route that was put down stays
      down; reconcile starts exactly the routes that are due; the supervisor
      follows its protocol and backs off exponentially; an enrollment is
      sent only to the key the invite pins, which the host does not change; a
      retried enrollment is the same one; a rotated token is never lost; the
      provisioner runs nothing but the commands of its protocol.

    ** Fuel and bounds

    The JSON parsers recurse with fuel [S (2 * length)], enough because each
    level consumes a byte (proved by the equivalence in StrictJson and by the
    round trips).  [serveLoop] gets one unit more than the input has bytes, and
    [Loop.serve_loop_terminates] proves that this is the run of the loop.
    [pollGone] makes 101 polls, the two seconds of the source at 20 ms each.
    [ParseDuration] recurses with the length of its text.  The supervisor runs
    until it is stopped: [loop] takes the number of rounds, and its theorems hold
    for every number.  Civil dates are those of the four-digit years RFC 3339
    can write.

    ** Limits of the model

    A message handler is atomic with respect to the forwarders (the connection's
    mutex is held where it matters; the one place it is not is a finding).
    Deadlines are events in the trace.  The file system is a map from paths; an
    empty directory that matters is an empty entry whose path ends in a slash;
    ownership and modes are not kept.  A lock makes the operations on one file
    sequential and shows as the system calls it makes; its retry loop is one
    call.  Error texts that quote values are abbreviated.  JSON round trips are
    for ASCII text.  On the host, [systemctl stop] is a call without effect.

    ** Not modelled, and why

    The engine and preflight ([engine]) inspect files, owners and processes of an
    operating system; starting and polling the services of the host command is
    an argument of it; accept loops, HTTP routing, flags and printing are plumbing
    around the modelled functions; code for other platforms than Linux; release
    tooling does not run on a host; ML-DSA is a copy of the Go standard library's
    and is a parameter.
*)

From Stdlib Require Export Strings.Byte Strings.String ZArith Lia.
From stdpp Require Export base gmap strings list numbers.
From Stdlib Require Import ZifyBool.

#[export] Set Warnings "-clear-no-such-hyp".
#[global] Open Scope Z_scope.

(** ** Bytes and Go strings

    A Go [[]byte] is a list of bytes; a Go [string] is a [String.string] (a
    sequence of 8-bit characters).  The conversions [string(b)] and
    [[]byte(s)] are the standard library's. *)

Declare Scope go_scope.
Delimit Scope go_scope with go.

Abbreviation bytes := (list byte).

#[global] Instance byte_eq_dec : EqDecision byte := Byte.byte_eq_dec.

#[global] Instance byte_countable : Countable byte :=
  inj_countable Byte.to_N Byte.of_N Byte.of_to_N.

Definition to_bytes (s : string) : bytes := list_byte_of_string s.
Definition to_string (b : bytes) : string := string_of_list_byte b.

(** [len(b)] as a Go [int]. *)
Definition blen (b : bytes) : Z := Z.of_nat (List.length b).
Definition slen (s : string) : Z := Z.of_nat (String.length s).

(** The value of a byte, and the truncating conversion [byte(x)]. *)
Definition zb (b : byte) : Z := Z.of_N (Byte.to_N b).
Definition bz (z : Z) : byte :=
  match Byte.of_N (Z.to_N (z mod 256)) with
  | Some b => b
  | None => "000"%byte
  end.

(** [payload[0]] of a slice the caller knows to be non-empty. *)
Definition byte0 (b : bytes) : Z := match b with [] => 0 | x :: _ => zb x end.

(** ** Errors

    Every Go [error] the modelled code builds: a message, or an error of the
    operating system whose class [os.IsNotExist] and [errors.Is] inspect.
    [EPanic] stands for a run-time panic (nil dereference, index out of
    range); the components prove that they do not reach it. *)
Inductive oserr := ENOENT | EEXIST | EPERM | ESRCH | EOF | EIO.

Inductive error :=
| EMsg (msg : string)
| EOS (class : oserr)
| EPanic (what : string).

#[global] Instance oserr_eq_dec : EqDecision oserr.
Proof. solve_decision. Defined.
#[global] Instance error_eq_dec : EqDecision error.
Proof. solve_decision. Defined.

(** [err.Error()]. *)
Definition errText (e : error) : string :=
  match e with
  | EMsg msg => msg
  | EOS ENOENT => "no such file or directory"
  | EOS EEXIST => "file exists"
  | EOS EPERM => "operation not permitted"
  | EOS ESRCH => "no such process"
  | EOS EOF => "EOF"
  | EOS EIO => "input/output error"
  | EPanic what => what
  end.

Inductive result (A : Type) :=
| Ok (a : A)
| Err (e : error).
Arguments Ok {A} a.
Arguments Err {A} e.

#[global] Instance result_ret : MRet result := @Ok.
#[global] Instance result_bind : MBind result := λ A B f m,
  match m with Ok a => f a | Err e => Err e end.
#[global] Instance result_fmap : FMap result := λ A B f m,
  match m with Ok a => Ok (f a) | Err e => Err e end.

Definition is_ok {A} (r : result A) : bool :=
  match r with Ok _ => true | Err _ => false end.

(** ** Machine integers *)

Definition wrap32 (z : Z) : Z := z mod 2 ^ 32.
Definition wrap64 (z : Z) : Z := z mod 2 ^ 64.
Definition max_u32 : Z := 2 ^ 32 - 1.
Definition max_i64 : Z := 2 ^ 63 - 1.

(** ** Automation *)

Create HintDb wt.

(** Case analysis on the scrutinee of a match in a hypothesis or the goal. *)
Ltac destr_match :=
  match goal with
  | H : context [ match ?x with _ => _ end ] |- _ =>
      lazymatch x with
      | context [ match _ with _ => _ end ] => fail
      | _ => destruct x eqn:?
      end
  | |- context [ match ?x with _ => _ end ] =>
      lazymatch x with
      | context [ match _ with _ => _ end ] => fail
      | _ => destruct x eqn:?
      end
  end.

Ltac crush :=
  repeat first
    [ progress simplify_eq/=
    | progress unfold mret, mbind, result_ret, result_bind in *
    | destr_match ];
  try done; eauto with wt.

(** Turn the boolean comparisons of the code into propositions for [lia]. *)
Ltac zbool :=
  repeat match goal with
  | H : (_ <? _) = true |- _ => apply Z.ltb_lt in H
  | H : (_ <? _) = false |- _ => apply Z.ltb_ge in H
  | H : (_ <=? _) = true |- _ => apply Z.leb_le in H
  | H : (_ <=? _) = false |- _ => apply Z.leb_gt in H
  | H : (_ =? _) = true |- _ => apply Z.eqb_eq in H
  | H : (_ =? _) = false |- _ => apply Z.eqb_neq in H
  | H : (_ && _)%bool = true |- _ => apply andb_true_iff in H as [? ?]
  | H : (_ || _)%bool = false |- _ => apply orb_false_iff in H as [? ?]
  | H : negb _ = true |- _ => apply negb_true_iff in H
  | H : negb _ = false |- _ => apply negb_false_iff in H
  end.

(** [lia] on goals with [div] and [mod]. *)
Ltac dlia := intros; Z.div_mod_to_equations; lia.

(** ** Shared lemmas *)

Lemma bind_Ok {A B} (m : result A) (f : A → result B) b :
  m ≫= f = Ok b ↔ ∃ a, m = Ok a ∧ f a = Ok b.
Proof.
  destruct m as [a|e]; unfold mbind, result_bind; split.
  - by exists a.
  - by intros (? & [= ->] & ?).
  - done.
  - by intros (? & ? & _).
Qed.

Lemma Ok_inj {A} (a b : A) : Ok a = Ok b → a = b.
Proof. congruence. Qed.

Lemma zb_range b : 0 ≤ zb b < 256.
Proof.
  unfold zb. pose proof (Byte.to_N_bounded b). lia.
Qed.

Lemma bz_zb b : bz (zb b) = b.
Proof.
  unfold bz. rewrite Z.mod_small by apply zb_range.
  unfold zb. by rewrite N2Z.id, Byte.of_to_N.
Qed.

Lemma zb_bz z : zb (bz z) = z mod 256.
Proof.
  unfold bz, zb. assert (0 ≤ z mod 256 < 256) by (apply Z.mod_pos_bound; lia).
  destruct (Byte.of_N (Z.to_N (z mod 256))) as [b|] eqn:E.
  - apply Byte.to_of_N in E. lia.
  - apply Byte.of_N_None_iff in E. lia.
Qed.

Lemma zb_inj b c : zb b = zb c → b = c.
Proof. intros H. rewrite <- (bz_zb b), <- (bz_zb c). by rewrite H. Qed.

Lemma to_string_bytes s : to_string (to_bytes s) = s.
Proof. apply string_of_list_byte_of_string. Qed.

Lemma to_bytes_string b : to_bytes (to_string b) = b.
Proof. apply list_byte_of_string_of_list_byte. Qed.

Lemma to_bytes_inj s t : to_bytes s = to_bytes t → s = t.
Proof. intros H. rewrite <- (to_string_bytes s), <- (to_string_bytes t). by rewrite H. Qed.

Lemma to_string_inj a b : to_string a = to_string b → a = b.
Proof. intros H. rewrite <- (to_bytes_string a), <- (to_bytes_string b). by rewrite H. Qed.

Lemma length_to_bytes s : length (to_bytes s) = String.length s.
Proof.
  unfold to_bytes, list_byte_of_string. rewrite length_map.
  induction s; simpl; congruence.
Qed.

Lemma blen_to_bytes s : blen (to_bytes s) = slen s.
Proof. unfold blen, slen. by rewrite length_to_bytes. Qed.

Lemma blen_nonneg b : 0 ≤ blen b.
Proof. unfold blen. lia. Qed.

Lemma blen_app a b : blen (a ++ b) = blen a + blen b.
Proof. unfold blen. rewrite length_app. lia. Qed.

Lemma blen_cons x b : blen (x :: b) = 1 + blen b.
Proof. unfold blen. simpl length. lia. Qed.

Lemma blen_nil : blen [] = 0.
Proof. done. Qed.

Lemma list_filter_all {A} (P : A → Prop) `{!∀ x, Decision (P x)} (l : list A) :
  Forall P l → filter P l = l.
Proof. induction 1; [done|]. rewrite filter_cons_True by done. by f_equal. Qed.

Create Rewrite HintDb blen.
#[export] Hint Rewrite blen_app blen_cons blen_nil blen_to_bytes : blen.
#[export] Hint Resolve blen_nonneg zb_range : wt.
