(* ===== verification/GoStd.v ===== *)
(** * The parts of Go's standard library the program uses

    [encoding/binary] (big endian), [strings], [unicode/utf8], [strconv],
    [encoding/hex], [encoding/base64] and [net/netip], written out as
    executable functions with the lemmas the components rely on. *)

From S2P Require Import Prelude.

(** ** encoding/binary: big-endian integers *)
Module BigEndian.

(** The [n] low bytes of [z], most significant byte first. *)
Fixpoint be (n : nat) (z : Z) : bytes :=
  match n with
  | O => []
  | S k => bz (z / 256 ^ Z.of_nat k) :: be k z
  end.

Fixpoint de_acc (acc : Z) (b : bytes) : Z :=
  match b with
  | [] => acc
  | x :: r => de_acc (256 * acc + zb x) r
  end.
Definition de (b : bytes) : Z := de_acc 0 b.

Definition put32 (z : Z) : bytes := be 4 z.
Definition put64 (z : Z) : bytes := be 8 z.
Definition u32 (b : bytes) : Z := de (take 4 b).

Lemma length_be n z : length (be n z) = n.
Proof. induction n; simpl; congruence. Qed.

Lemma blen_put32 z : blen (put32 z) = 4.
Proof. unfold blen, put32. by rewrite length_be. Qed.

Lemma de_acc_app a b acc : de_acc acc (a ++ b) = de_acc (de_acc acc a) b.
Proof. revert acc. induction a; intros; simpl; auto. Qed.

Lemma de_be_acc n z acc :
  de_acc acc (be n z) = 256 ^ Z.of_nat n * acc + z mod 256 ^ Z.of_nat n.
Proof.
  revert acc. induction n as [|n IH]; intros acc.
  { simpl. rewrite Z.mod_1_r. lia. }
  cbn [be de_acc]. rewrite IH, zb_bz.
  rewrite Nat2Z.inj_succ, Z.pow_succ_r by lia.
  rewrite (Z.mul_comm 256 (256 ^ _)).
  rewrite Z.rem_mul_r by lia. lia.
Qed.

Lemma de_be n z : de (be n z) = z mod 256 ^ Z.of_nat n.
Proof. unfold de. rewrite de_be_acc. lia. Qed.

Lemma u32_put32 z rest : 0 ≤ z < 2 ^ 32 → u32 (put32 z ++ rest) = z.
Proof.
  intros Hz. unfold u32, put32.
  rewrite take_app_length' by by rewrite length_be.
  rewrite de_be. apply Z.mod_small. done.
Qed.

Lemma de_acc_bound b acc :
  0 ≤ acc → 0 ≤ de_acc acc b < 256 ^ Z.of_nat (length b) * (acc + 1).
Proof.
  revert acc. induction b as [|x b IH]; intros acc Ha; cbn [de_acc length].
  { simpl. lia. }
  pose proof (zb_range x).
  destruct (IH (256 * acc + zb x)); [lia|].
  rewrite Nat2Z.inj_succ, Z.pow_succ_r by lia.
  split; [lia|].
  assert (0 < 256 ^ Z.of_nat (length b)) by (apply Z.pow_pos_nonneg; lia). nia.
Qed.

(** Four bytes are the encoding of their value. *)
Lemma put32_de h : length h = 4%nat → put32 (de h) = h.
Proof.
  intros Hh. destruct h as [|a [|b [|c [|d [|]]]]]; try done.
  pose proof (zb_range a); pose proof (zb_range b); pose proof (zb_range c); pose proof (zb_range d).
  unfold put32, be, de. cbn [de_acc]. unfold Z.of_nat. simpl Pos.of_succ_nat.
  repeat f_equal; (apply zb_inj; rewrite zb_bz; dlia).
Qed.
Lemma u32_range b : 0 ≤ u32 b < 2 ^ 32.
Proof.
  unfold u32, de. destruct (de_acc_bound (take 4 b) 0) as [H1 H2]; [lia|].
  split; [done|]. eapply Z.lt_le_trans; [exact H2|].
  rewrite Z.mul_1_r. change (2 ^ 32) with (256 ^ 4).
  apply Z.pow_le_mono_r; [lia|]. rewrite length_take. lia.
Qed.

Lemma be_inj n a b :
  0 ≤ a < 256 ^ Z.of_nat n → 0 ≤ b < 256 ^ Z.of_nat n → be n a = be n b → a = b.
Proof.
  intros Ha Hb H. apply (f_equal de) in H. rewrite !de_be in H.
  rewrite !Z.mod_small in H; auto.
Qed.

Lemma put32_inj a b : 0 ≤ a < 2 ^ 32 → 0 ≤ b < 2 ^ 32 → put32 a = put32 b → a = b.
Proof. intros ? ?. apply (be_inj 4); done. Qed.

End BigEndian.
Arguments BigEndian.be : simpl never.
Arguments BigEndian.put32 : simpl never.

(** ** unicode/utf8 and unicode: runes of a byte string *)
Module Utf8.

Definition rune_error : Z := 65533.

Definition is_cont (b : byte) : bool := (128 <=? zb b) && (zb b <=? 191).

(** [utf8.DecodeRune]: the first rune and its width.  Overlong encodings,
    surrogates and values above U+10FFFF are errors of width 1. *)
Definition decode_rune (b : bytes) : Z * nat :=
  match b with
  | [] => (rune_error, O)
  | b0 :: r =>
      let x := zb b0 in
      if x <? 128 then (x, 1%nat)
      else if (194 <=? x) && (x <=? 223) then
        match r with
        | b1 :: _ => if is_cont b1 then ((x - 192) * 64 + (zb b1 - 128), 2%nat)
                     else (rune_error, 1%nat)
        | _ => (rune_error, 1%nat)
        end
      else if (224 <=? x) && (x <=? 239) then
        match r with
        | b1 :: b2 :: _ =>
            let lo := if x =? 224 then 160 else 128 in
            let hi := if x =? 237 then 159 else 191 in
            if (lo <=? zb b1) && (zb b1 <=? hi) && is_cont b2
            then ((x - 224) * 4096 + (zb b1 - 128) * 64 + (zb b2 - 128), 3%nat)
            else (rune_error, 1%nat)
        | _ => (rune_error, 1%nat)
        end
      else if (240 <=? x) && (x <=? 244) then
        match r with
        | b1 :: b2 :: b3 :: _ =>
            let lo := if x =? 240 then 144 else 128 in
            let hi := if x =? 244 then 143 else 191 in
            if (lo <=? zb b1) && (zb b1 <=? hi) && is_cont b2 && is_cont b3
            then ((x - 240) * 262144 + (zb b1 - 128) * 4096
                  + (zb b2 - 128) * 64 + (zb b3 - 128), 4%nat)
            else (rune_error, 1%nat)
        | _ => (rune_error, 1%nat)
        end
      else (rune_error, 1%nat)
  end.

(** [for _, r := range s]: the runes of [s], each with its bytes. *)
Fixpoint runes_fuel (fuel : nat) (b : bytes) : list (Z * bytes) :=
  match fuel, b with
  | S f, _ :: _ =>
      let '(r, w) := decode_rune b in
      (r, take w b) :: runes_fuel f (drop w b)
  | _, _ => []
  end.
Definition runes (b : bytes) : list (Z * bytes) := runes_fuel (length b) b.

Definition range (s : string) : list Z := (runes (to_bytes s)).*1.

(** [unicode.IsSpace]. *)
Definition is_space (r : Z) : bool :=
  ((9 <=? r) && (r <=? 13)) || (r =? 32) || (r =? 133) || (r =? 160) || (r =? 5760)
  || ((8192 <=? r) && (r <=? 8202)) || (r =? 8232) || (r =? 8233) || (r =? 8239)
  || (r =? 8287) || (r =? 12288).

End Utf8.

(** ** strings and strconv *)
Module Strings.
Import Utf8.

Definition byte_in (c : byte) (s : string) : bool := bool_decide (c ∈ to_bytes s).

Definition eqb (a b : string) : bool := bool_decide (a = b).

(** [strings.Split(s, sep)] for a one-byte separator. *)
Fixpoint split_bytes (sep : byte) (b : bytes) : list bytes :=
  match b with
  | [] => [[]]
  | x :: r =>
      if bool_decide (x = sep) then [] :: split_bytes sep r
      else match split_bytes sep r with
           | [] => [[x]]
           | f :: fs => (x :: f) :: fs
           end
  end.
Definition split (sep : byte) (s : string) : list string :=
  to_string <$> split_bytes sep (to_bytes s).

(** [strings.Fields]: maximal runs of runes that are not white space. *)
Fixpoint fields_runes (cur : bytes) (rs : list (Z * bytes)) : list bytes :=
  match rs with
  | [] => match cur with [] => [] | _ => [cur] end
  | (r, enc) :: rest =>
      if is_space r
      then match cur with
           | [] => fields_runes [] rest
           | _ => cur :: fields_runes [] rest
           end
      else fields_runes (cur ++ enc) rest
  end.
Definition fields (s : string) : list string :=
  to_string <$> fields_runes [] (runes (to_bytes s)).

(** [strings.TrimSpace]. *)
Fixpoint drop_space (rs : list (Z * bytes)) : list (Z * bytes) :=
  match rs with
  | (r, enc) :: rest => if is_space r then drop_space rest else rs
  | [] => []
  end.
Definition trim_space (s : string) : string :=
  to_string (concat (reverse (drop_space (reverse (drop_space (runes (to_bytes s)))))).*2).

(** [strings.TrimRight(s, "\r\n")]. *)
Definition is_crlf (b : byte) : bool := (zb b =? 13) || (zb b =? 10).
Fixpoint drop_crlf (b : bytes) : bytes :=
  match b with
  | x :: r => if is_crlf x then drop_crlf r else b
  | [] => []
  end.
Definition trim_right_crlf (b : bytes) : bytes := reverse (drop_crlf (reverse b)).

Definition has_prefix (s p : string) : bool :=
  bool_decide (take (String.length p) (to_bytes s) = to_bytes p).
Definition has_suffix (s p : string) : bool :=
  (String.length p <=? String.length s)%nat
  && bool_decide (drop (String.length s - String.length p) (to_bytes s) = to_bytes p).

(** [strings.ContainsAny(s, chars)] for ASCII [chars]. *)
Definition contains_any (s chars : string) : bool :=
  existsb (λ c, byte_in c chars) (to_bytes s).

(** [strings.Contains(s, sub)]. *)
Fixpoint contains_bytes (b sub : bytes) : bool :=
  bool_decide (take (length sub) b = sub)
  || match b with [] => false | _ :: r => contains_bytes r sub end.
Definition contains (s sub : string) : bool := contains_bytes (to_bytes s) (to_bytes sub).

(** [strconv.Itoa]: decimal digits. *)
Fixpoint digits (fuel : nat) (n : Z) (acc : bytes) : bytes :=
  match fuel with
  | O => acc
  | S f => let acc' := bz (48 + n mod 10) :: acc in
           if n / 10 =? 0 then acc' else digits f (n / 10) acc'
  end.
Definition itoa (n : Z) : string :=
  to_string (if n <? 0 then bz 45 :: digits 64 (- n) [] else digits 64 n []).

(** [strconv.ParseUint(s, 10, bits)] on a string of decimal digits. *)
Definition is_digit (b : byte) : bool := (48 <=? zb b) && (zb b <=? 57).
Fixpoint dec_acc (acc : Z) (b : bytes) : Z :=
  match b with
  | [] => acc
  | x :: r => dec_acc (10 * acc + (zb x - 48)) r
  end.
Definition parse_uint (s : string) (bits : Z) : result Z :=
  let b := to_bytes s in
  if bool_decide (b = []) then Err (EMsg "invalid syntax")
  else if negb (forallb is_digit b) then Err (EMsg "invalid syntax")
  else let v := dec_acc 0 b in
       if v <? 2 ^ bits then Ok v else Err (EMsg "value out of range").

End Strings.

(** ** encoding/hex *)
Module Hex.

Definition digit (n : Z) : byte := if n <? 10 then bz (48 + n) else bz (87 + n).
Definition encode (b : bytes) : string :=
  to_string (concat ((λ x, [digit (zb x / 16); digit (zb x mod 16)]) <$> b)).

End Hex.

(** ** encoding/base64: StdEncoding, with [Strict()] decoding *)
Module Base64.

Definition enc6 (n : Z) : byte :=
  if n <? 26 then bz (65 + n) else if n <? 52 then bz (71 + n)
  else if n <? 62 then bz (n - 4) else if n =? 62 then bz 43 else bz 47.

Definition dec6 (c : byte) : option Z :=
  let x := zb c in
  if (65 <=? x) && (x <=? 90) then Some (x - 65)
  else if (97 <=? x) && (x <=? 122) then Some (x - 71)
  else if (48 <=? x) && (x <=? 57) then Some (x + 4)
  else if x =? 43 then Some 62 else if x =? 47 then Some 63 else None.

Definition pad : byte := bz 61.

Fixpoint encode (b : bytes) : bytes :=
  match b with
  | x :: y :: z :: r =>
      let v := zb x * 65536 + zb y * 256 + zb z in
      enc6 (v / 262144) :: enc6 (v / 4096 mod 64) :: enc6 (v / 64 mod 64)
        :: enc6 (v mod 64) :: encode r
  | [x; y] =>
      let v := zb x * 65536 + zb y * 256 in
      [enc6 (v / 262144); enc6 (v / 4096 mod 64); enc6 (v / 64 mod 64); pad]
  | [x] =>
      let v := zb x * 65536 in
      [enc6 (v / 262144); enc6 (v / 4096 mod 64); pad; pad]
  | [] => []
  end.

Definition corrupt {A} : result A := Err (EMsg "illegal base64 data").

(** [strict] is the decoder's [Strict()] flag: the unused bits of the last
    quantum must be zero. *)
Fixpoint decode_quanta (strict : bool) (s : bytes) : result bytes :=
  match s with
  | [] => Ok []
  | a :: b :: c :: d :: r =>
      match dec6 a, dec6 b with
      | Some va, Some vb =>
          if bool_decide (c = pad) then
            if bool_decide (d = pad) && bool_decide (r = [])
               && (negb strict || (vb mod 16 =? 0))
            then Ok [bz (va * 4 + vb / 16)] else corrupt
          else match dec6 c with
          | Some vc =>
              if bool_decide (d = pad) then
                if bool_decide (r = []) && (negb strict || (vc mod 4 =? 0))
                then Ok [bz (va * 4 + vb / 16); bz (vb mod 16 * 16 + vc / 4)]
                else corrupt
              else match dec6 d with
              | Some vd =>
                  rest ← decode_quanta strict r;
                  Ok (bz (va * 4 + vb / 16) :: bz (vb mod 16 * 16 + vc / 4)
                        :: bz (vc mod 4 * 64 + vd) :: rest)
              | None => corrupt
              end
          | None => corrupt
          end
      | _, _ => corrupt
      end
  | _ => corrupt
  end.

(** [DecodeString]: carriage returns and newlines are skipped. *)
Definition decode (strict : bool) (s : string) : result bytes :=
  decode_quanta strict (filter (λ c, Strings.is_crlf c = false) (to_bytes s)).
Definition encode_to_string (b : bytes) : string := to_string (encode b).
Definition encoded_len (n : Z) : Z := (n + 2) / 3 * 4.

Lemma dec6_enc6 n : 0 ≤ n < 64 → dec6 (enc6 n) = Some n.
Proof.
  intros Hn. unfold dec6, enc6.
  repeat case_match; zbool; rewrite ?zb_bz in *; rewrite ?Z.mod_small in * by lia;
    zbool; try lia; try (f_equal; lia).
Qed.

Lemma enc6_alphabet n : 0 ≤ n < 64 → enc6 n ≠ pad ∧ Strings.is_crlf (enc6 n) = false.
Proof.
  intros Hn. assert (∀ k, 43 ≤ k < 123 → k ≠ 61 →
    bz k ≠ pad ∧ Strings.is_crlf (bz k) = false) as H.
  { intros k Hk Hne. unfold Strings.is_crlf, pad.
    split; [intros E; apply (f_equal zb) in E|]; rewrite ?zb_bz in *;
      rewrite ?Z.mod_small in * by lia; [done|].
    apply orb_false_iff. split; apply Z.eqb_neq; lia. }
  unfold enc6. repeat case_match; zbool; apply H; lia.
Qed.

Lemma decode_cons (strict : bool) (va vb vc vd : Z) (r : bytes) :
  0 ≤ va < 64 → 0 ≤ vb < 64 → 0 ≤ vc < 64 → 0 ≤ vd < 64 →
  decode_quanta strict (enc6 va :: enc6 vb :: enc6 vc :: enc6 vd :: r) =
    (rest ← decode_quanta strict r;
     Ok (bz (va * 4 + vb / 16) :: bz (vb mod 16 * 16 + vc / 4)
           :: bz (vc mod 4 * 64 + vd) :: rest)).
Proof.
  intros Ha Hb Hc Hd. cbn [decode_quanta].
  rewrite !dec6_enc6 by done.
  rewrite (bool_decide_false (enc6 vc = pad)) by (apply enc6_alphabet; lia).
  rewrite (bool_decide_false (enc6 vd = pad)) by (apply enc6_alphabet; lia).
  done.
Qed.

Lemma three_ind (P : bytes → Prop) :
  P [] → (∀ x, P [x]) → (∀ x y, P [x; y]) →
  (∀ x y z r, P r → P (x :: y :: z :: r)) → ∀ b, P b.
Proof.
  intros H0 H1 H2 H3.
  assert (∀ n b, (length b < n)%nat → P b) as H; [|intros b; apply (H (S (length b))); lia].
  induction n as [|n IH]; intros [|x [|y [|z r]]] Hl; simpl in *; try lia; auto.
  apply H3, IH. lia.
Qed.

Ltac quantum :=
  repeat match goal with
  | |- context [zb ?x] => lazymatch goal with H : 0 ≤ zb x < 256 |- _ => fail
                          | _ => pose proof (zb_range x) end
  end.

Lemma bz_eq (k : Z) (x : byte) : k = zb x → bz k = x.
Proof. intros ->. apply bz_zb. Qed.

Lemma decode_encode_quanta (strict : bool) (b : bytes) :
  decode_quanta strict (encode b) = Ok b.
Proof.
  induction b as [|x|x y|x y z r IH] using three_ind; [done|..]; cbn [encode]; quantum.
  - cbn [decode_quanta]. rewrite !dec6_enc6 by dlia. simpl.
    rewrite (proj2 (Z.eqb_eq _ _)) by dlia. rewrite orb_true_r.
    do 2 f_equal. apply bz_eq. dlia.
  - cbn [decode_quanta]. rewrite !dec6_enc6 by dlia.
    rewrite bool_decide_false by (apply enc6_alphabet; dlia). simpl.
    rewrite (proj2 (Z.eqb_eq _ _)) by dlia. rewrite orb_true_r.
    do 2 f_equal; [|f_equal]; apply bz_eq; dlia.
  - rewrite decode_cons by dlia. rewrite IH. unfold mbind, result_bind.
    do 2 f_equal; [|f_equal; [|f_equal]]; apply bz_eq; dlia.
Qed.

Lemma encode_no_crlf b : Forall (λ c, Strings.is_crlf c = false) (encode b).
Proof.
  assert (Strings.is_crlf pad = false) by done.
  induction b as [|x|x y|x y z r IH] using three_ind; cbn [encode]; quantum;
    repeat constructor; auto; apply enc6_alphabet; dlia.
Qed.

(** Decoding an encoding gives the bytes back, strictly or not. *)
Lemma decode_encode (strict : bool) (b : bytes) :
  decode strict (encode_to_string b) = Ok b.
Proof.
  unfold decode, encode_to_string. rewrite to_bytes_string.
  rewrite list_filter_all by apply encode_no_crlf. apply decode_encode_quanta.
Qed.

Lemma length_encode b : blen (encode b) = encoded_len (blen b).
Proof.
  unfold encoded_len.
  induction b as [|x|x y|x y z r IH] using three_ind; [done..|].
  cbn [encode]. rewrite !blen_cons, IH. dlia.
Qed.

End Base64.

(** ** net/netip: addresses *)
Module Netip.

(** The zero [Addr], an IPv4 address, or an IPv6 address with its zone. *)
Inductive Addr :=
| AddrInvalid
| Addr4 (ip : Z)
| Addr6 (ip : Z) (zone : string).

#[global] Instance Addr_eq_dec : EqDecision Addr.
Proof. solve_decision. Defined.

Record AddrPort := AddrPortFrom { ap_addr : Addr; ap_port : Z }.

#[global] Instance AddrPort_eq_dec : EqDecision AddrPort.
Proof. solve_decision. Defined.

Definition Is4In6 (a : Addr) : bool :=
  match a with Addr6 ip _ => Z.shiftr ip 32 =? 65535 | _ => false end.
Definition Unmap (a : Addr) : Addr :=
  match a with
  | Addr6 ip _ => if Is4In6 a then Addr4 (ip mod 2 ^ 32) else a
  | _ => a
  end.
Definition IsValid (a : Addr) : bool :=
  match a with AddrInvalid => false | _ => true end.
Definition Is4 (a : Addr) : bool := match a with Addr4 _ => true | _ => false end.
Definition Zone (a : Addr) : string := match a with Addr6 _ z => z | _ => ""%string end.

Definition bad {A} : result A := Err (EMsg "ParseAddr").

(** [parseIPv4Fields]: four decimal octets without leading zeros. *)
Fixpoint v4_fields (s : bytes) (first : bool) (prev_dot : bool)
    (val : Z) (dig : nat) (pos : nat) (acc : Z) : result Z :=
  match s with
  | [] => if (pos <? 3)%nat then bad else Ok (acc * 256 + val)
  | c :: r =>
      if Strings.is_digit c then
        if ((dig =? 1)%nat && (val =? 0))%bool then bad
        else let v := val * 10 + (zb c - 48) in
             if 255 <? v then bad else v4_fields r false false v (S dig) pos acc
      else if zb c =? 46 then
        if first || bool_decide (r = []) || prev_dot then bad
        else if (pos =? 3)%nat then bad
        else v4_fields r false true 0 O (S pos) (acc * 256 + val)
      else bad
  end.
Definition parse_v4 (s : bytes) : result Z := v4_fields s true false 0 O O 0.

Definition hex_val (c : byte) : option Z :=
  let x := zb c in
  if (48 <=? x) && (x <=? 57) then Some (x - 48)
  else if (97 <=? x) && (x <=? 102) then Some (x - 87)
  else if (65 <=? x) && (x <=? 70) then Some (x - 55) else None.

(** The hexadecimal run at the head of [s]: its value, length and the rest. *)
Fixpoint hex_run (s : bytes) (off : nat) (acc : Z) : result (Z * nat * bytes) :=
  match s with
  | c :: r =>
      match hex_val c with
      | Some v => if (3 <? off)%nat then bad
                  else if 65535 <? acc * 16 + v then bad
                  else hex_run r (S off) (acc * 16 + v)
      | None => Ok (acc, off, s)
      end
  | [] => Ok (acc, off, [])
  end.

Definition starts (c : Z) (s : bytes) : bool :=
  match s with x :: _ => zb x =? c | [] => false end.

(** The group loop of [parseIPv6]: [groups] are the 16-bit groups read so
    far, [ell] the group index of the ellipsis. *)
Fixpoint v6_loop (fuel : nat) (s : bytes) (groups : list Z) (ell : option nat)
    : result (list Z * option nat * bytes) :=
  match fuel with
  | O => Ok (groups, ell, s)
  | S f =>
      '(acc, off, rest) ← hex_run s O 0;
      if (off =? 0)%nat then bad
      else if starts 46 rest then
        if bool_decide (ell = None) && negb (length groups =? 6)%nat then bad
        else if (6 <? length groups)%nat then bad
        else v ← parse_v4 s; Ok (groups ++ [v / 65536; v mod 65536], ell, [])
      else
        let groups := groups ++ [acc] in
        match rest with
        | [] => Ok (groups, ell, [])
        | c :: r =>
            if negb (zb c =? 58) then bad
            else match r with
            | [] => bad
            | c2 :: r2 =>
                if zb c2 =? 58 then
                  if bool_decide (ell ≠ None) then bad
                  else match r2 with
                       | [] => Ok (groups, Some (length groups), [])
                       | _ => v6_loop f r2 groups (Some (length groups))
                       end
                else v6_loop f r groups ell
            end
        end
  end.

Definition v6_value (groups : list Z) : Z := foldl (λ a g, a * 65536 + g) 0 groups.

Fixpoint cut_zone (s : bytes) : bytes * option bytes :=
  match s with
  | [] => ([], None)
  | c :: r => if zb c =? 37 then ([], Some r)
              else let '(a, z) := cut_zone r in (c :: a, z)
  end.

Definition parse_v6 (input : bytes) : result Addr :=
  let '(s, zone) := cut_zone input in
  if bool_decide (zone = Some []) then bad
  else
    let z := to_string (default [] zone) in
    let lead := starts 58 s && starts 58 (drop 1 s) in
    let s := if lead then drop 2 s else s in
    if lead && bool_decide (s = []) then Ok (Addr6 0 z)
    else
      '(groups, ell, rest) ← v6_loop 8 s [] (if lead then Some O else None);
      if negb (bool_decide (rest = [])) then bad
      else if (length groups <? 8)%nat then
        match ell with
        | None => bad
        | Some e => Ok (Addr6 (v6_value
            (take e groups ++ replicate (8 - length groups) 0 ++ drop e groups)) z)
        end
      else match ell with
           | Some _ => bad
           | None => Ok (Addr6 (v6_value groups) z)
           end.

(** [netip.ParseAddr]: the first of ['.'], [':'] and ['%'] decides. *)
Fixpoint parse_kind (s : bytes) : Z :=
  match s with
  | [] => 0
  | c :: r => if (zb c =? 46) || (zb c =? 58) || (zb c =? 37) then zb c else parse_kind r
  end.
Definition ParseAddr (s : string) : result Addr :=
  let b := to_bytes s in
  let k := parse_kind b in
  if k =? 46 then Addr4 <$> parse_v4 b
  else if k =? 58 then parse_v6 b else bad.

Example parse_loopback : ParseAddr "127.0.0.1" = Ok (Addr4 2130706433).
Proof. vm_compute. reflexivity. Qed.
Example parse_leading_zero : ParseAddr "127.0.0.01" = bad.
Proof. vm_compute. reflexivity. Qed.
Example parse_mapped : Unmap <$> ParseAddr "::ffff:127.0.0.1" = Ok (Addr4 2130706433).
Proof. vm_compute. reflexivity. Qed.
Example parse_zone : ParseAddr "fe80::1%eth0" = Ok (Addr6 (65152 * 2 ^ 112 + 1) "eth0").
Proof. vm_compute. reflexivity. Qed.
Example parse_triple_colon : ParseAddr "1:::2" = bad.
Proof. vm_compute. reflexivity. Qed.

(** *** Printing *)

Definition v4_string (ip : Z) : string :=
  Strings.itoa (ip / 2 ^ 24 mod 256) ++ "." ++ Strings.itoa (ip / 2 ^ 16 mod 256) ++ "."
    ++ Strings.itoa (ip / 2 ^ 8 mod 256) ++ "." ++ Strings.itoa (ip mod 256).

(** Lower-case hexadecimal without leading zeros. *)
Definition hex16 (g : Z) : string :=
  let d := [g / 4096 mod 16; g / 256 mod 16; g / 16 mod 16; g mod 16] in
  let d := if 4096 <=? g then d else if 256 <=? g then drop 1 d
           else if 16 <=? g then drop 2 d else drop 3 d in
  to_string (Hex.digit <$> d).

Definition v6_groups (ip : Z) : list Z :=
  (λ i, ip / 2 ^ (16 * (7 - Z.of_nat i)) mod 65536) <$> seq 0 8.

Fixpoint zero_run (l : list Z) : nat :=
  match l with x :: r => if x =? 0 then S (zero_run r) else O | [] => O end.

(** The first longest run of at least two zero groups: start and end. *)
Definition zero_span (g : list Z) : nat * nat :=
  foldl (λ '(s, e) i, let l := zero_run (drop i g) in
           if (2 <=? l)%nat && (e - s <? l)%nat then (i, (i + l)%nat) else (s, e))
        (255%nat, 255%nat) (seq 0 8).

Definition v6_string (ip : Z) : string :=
  let g := v6_groups ip in
  let '(s, e) := zero_span g in
  String.concat "" ((λ i,
    let x := default 0 (g !! i) in
    if (i =? s)%nat then "::"%string
    else if (s <? i)%nat && (i <? e)%nat then ""%string
    else if (i =? 0)%nat || (i =? e)%nat then hex16 x
    else (":" ++ hex16 x)%string) <$> seq 0 8).

Definition addr_string (a : Addr) : string :=
  match a with
  | AddrInvalid => "invalid IP"
  | Addr4 ip => v4_string ip
  | Addr6 ip zone =>
      (if Is4In6 a then "::ffff:" ++ v4_string (ip mod 2 ^ 32) else v6_string ip)
      ++ (if bool_decide (zone = ""%string) then "" else "%" ++ zone)
  end.

Definition addrport_string (p : AddrPort) : string :=
  match ap_addr p with
  | AddrInvalid => "invalid AddrPort"
  | Addr4 ip => v4_string ip ++ ":" ++ Strings.itoa (ap_port p)
  | a => "[" ++ addr_string a ++ "]:" ++ Strings.itoa (ap_port p)
  end.

Example print_v6 : addr_string <$> ParseAddr "2001:DB8:0:0:1:0:0:1" = Ok "2001:db8::1:0:0:1"%string.
Proof. vm_compute. reflexivity. Qed.
Example print_v6_any : addr_string (Addr6 0 "") = "::"%string.
Proof. vm_compute. reflexivity. Qed.
Example print_v6_tail : addr_string <$> ParseAddr "1::" = Ok "1::"%string.
Proof. vm_compute. reflexivity. Qed.
Example print_addrport : addrport_string (AddrPortFrom (Addr4 2130706433) 29723) = "127.0.0.1:29723"%string.
Proof. vm_compute. reflexivity. Qed.

Lemma Unmap_idemp a : Unmap (Unmap a) = Unmap a.
Proof.
  destruct a as [|ip|ip z]; [reflexivity..|]. unfold Unmap.
  destruct (Is4In6 (Addr6 ip z)) eqn:E; [reflexivity|]. by rewrite E.
Qed.

End Netip.
