(* ===== verification/Json.v ===== *)
(** * encoding/json

    The part of Go's [encoding/json] the host's documents use: the value
    grammar of its scanner, string unquoting, [json.Marshal]'s text and the
    decoding of an object into a struct, with case-insensitive field names. *)

From S2P Require Import Prelude GoStd.

Module Json.

#[warnings="-register-all"]
Inductive json :=
| JNull
| JBool (b : bool)
| JNum (literal : bytes)
| JStr (s : string)
| JArr (l : list json)
| JObj (m : list (string * json)).

Definition syntaxError {A} : result A := Err (EMsg "invalid JSON syntax").
Definition outOfFuel : error := EPanic "JSON fuel".

(** ** Lexing *)

Definition is_ws (b : byte) : bool :=
  (zb b =? 32) || (zb b =? 9) || (zb b =? 13) || (zb b =? 10).
Fixpoint skip_ws (b : bytes) : bytes :=
  match b with
  | x :: r => if is_ws x then skip_ws r else b
  | [] => []
  end.

(** *** Strings *)

Definition hex_val (b : byte) : option Z :=
  let x := zb b in
  if (48 <=? x) && (x <=? 57) then Some (x - 48)
  else if (97 <=? x) && (x <=? 102) then Some (x - 87)
  else if (65 <=? x) && (x <=? 70) then Some (x - 55)
  else None.

Definition hex4 (a b c d : byte) : option Z :=
  va ← hex_val a; vb ← hex_val b; vc ← hex_val c; vd ← hex_val d;
  Some (va * 4096 + vb * 256 + vc * 16 + vd).

(** [utf8.EncodeRune]. *)
Definition encode_rune (r : Z) : bytes :=
  let r := if (r <? 0) || (1114111 <? r) || ((55296 <=? r) && (r <=? 57343)) then 65533 else r in
  if r <? 128 then [bz r]
  else if r <? 2048 then [bz (192 + r / 64); bz (128 + r mod 64)]
  else if r <? 65536 then [bz (224 + r / 4096); bz (128 + r / 64 mod 64); bz (128 + r mod 64)]
  else [bz (240 + r / 262144); bz (128 + r / 4096 mod 64); bz (128 + r / 64 mod 64);
        bz (128 + r mod 64)].

(** The one-character escapes. *)
Definition simple_escape (c : byte) : option byte :=
  let x := zb c in
  if (x =? 34) || (x =? 92) || (x =? 47) then Some c
  else if x =? 98 then Some (bz 8)
  else if x =? 102 then Some (bz 12)
  else if x =? 110 then Some (bz 10)
  else if x =? 114 then Some (bz 13)
  else if x =? 116 then Some (bz 9)
  else None.

Definition is_surrogate (r : Z) : bool := (55296 <=? r) && (r <=? 57343).

(** [utf16.DecodeRune]. *)
Definition utf16_pair (r1 r2 : Z) : option Z :=
  if (55296 <=? r1) && (r1 <? 56320) && (56320 <=? r2) && (r2 <=? 57343)
  then Some ((r1 - 55296) * 1024 + (r2 - 56320) + 65536) else None.

(** The four digits of a [\u] escape at the head of the input. *)
Definition getu4 (b : bytes) : option Z :=
  match b with
  | c0 :: c1 :: x :: y :: z :: w :: _ =>
      if (zb c0 =? 92) && (zb c1 =? 117) then hex4 x y z w else None
  | _ => None
  end.

(** A string literal after its opening quote: its value and the input after
    the closing quote. *)
Fixpoint lex_string (fuel : nat) (b : bytes) : result (bytes * bytes) :=
  match fuel, b with
  | O, _ => Err outOfFuel
  | _, [] => Err (EOS EOF)
  | S f, c :: r =>
      if zb c =? 34 then Ok ([], r)
      else if zb c <? 32 then syntaxError
      else if zb c =? 92 then
        match r with
        | [] => Err (EOS EOF)
        | e :: r' =>
            match simple_escape e with
            | Some x => '(s, rest) ← lex_string f r'; Ok (x :: s, rest)
            | None =>
                if zb e =? 117 then
                  match getu4 b with
                  | None => syntaxError
                  | Some u =>
                      let b' := drop 6 b in
                      match (if is_surrogate u
                             then match getu4 b' with
                                  | Some u' => utf16_pair u u'
                                  | None => None
                                  end
                             else None) with
                      | Some combined =>
                          '(s, rest) ← lex_string f (drop 6 b'); Ok (encode_rune combined ++ s, rest)
                      | None => '(s, rest) ← lex_string f b'; Ok (encode_rune u ++ s, rest)
                      end
                  end
                else syntaxError
            end
        end
      else if zb c <? 128 then '(s, rest) ← lex_string f r; Ok (c :: s, rest)
      else
        let '(u, w) := Utf8.decode_rune b in
        '(s, rest) ← lex_string f (drop w b); Ok (encode_rune u ++ s, rest)
  end.

Definition parse_string (b : bytes) : result (string * bytes) :=
  '(s, rest) ← lex_string (S (length b)) b; Ok (to_string s, rest).

(** *** Numbers *)

(** The longest prefix of digits and the rest. *)
Fixpoint span_digits (b : bytes) : bytes * bytes :=
  match b with
  | x :: r => if Strings.is_digit x then let '(d, r') := span_digits r in (x :: d, r') else ([], b)
  | [] => ([], [])
  end.

Definition lex_int (b : bytes) : result (bytes * bytes) :=
  match b with
  | [] => Err (EOS EOF)
  | x :: r =>
      if zb x =? 48 then Ok ([x], r)
      else if Strings.is_digit x then let '(d, r') := span_digits r in Ok (x :: d, r')
      else syntaxError
  end.

Definition lex_frac (b : bytes) : result (bytes * bytes) :=
  match b with
  | x :: r =>
      if zb x =? 46 then
        match span_digits r with
        | ([], []) => Err (EOS EOF)
        | ([], _) => syntaxError
        | (d, r') => Ok (x :: d, r')
        end
      else Ok ([], b)
  | [] => Ok ([], [])
  end.

Definition lex_exp (b : bytes) : result (bytes * bytes) :=
  match b with
  | x :: r =>
      if (zb x =? 101) || (zb x =? 69) then
        let '(sign, r) := match r with
                          | y :: r' => if (zb y =? 43) || (zb y =? 45) then ([y], r') else ([], r)
                          | [] => ([], r)
                          end in
        match span_digits r with
        | ([], []) => Err (EOS EOF)
        | ([], _) => syntaxError
        | (d, r') => Ok (x :: sign ++ d, r')
        end
      else Ok ([], b)
  | [] => Ok ([], [])
  end.

Definition lex_number (b : bytes) : result (bytes * bytes) :=
  let '(sign, b) := match b with
                    | x :: r => if zb x =? 45 then ([x], r) else ([], b)
                    | [] => ([], b)
                    end in
  '(i, b) ← lex_int b; '(f, b) ← lex_frac b; '(e, b) ← lex_exp b;
  Ok (sign ++ i ++ f ++ e, b).

(** *** Scalars *)

Definition lex_literal (lit : string) (v : json) (b : bytes) : result (json * bytes) :=
  let l := to_bytes lit in
  if bool_decide (take (length l) b = l) then Ok (v, drop (length l) b) else syntaxError.

(** A string, number or literal that starts at [b]. *)
Definition parse_scalar (b : bytes) : result (json * bytes) :=
  match b with
  | [] => Err (EOS EOF)
  | c :: r =>
      if zb c =? 34 then '(s, rest) ← parse_string r; Ok (JStr s, rest)
      else if (zb c =? 45) || Strings.is_digit c
      then '(l, rest) ← lex_number b; Ok (JNum l, rest)
      else if zb c =? 116 then lex_literal "true" (JBool true) b
      else if zb c =? 102 then lex_literal "false" (JBool false) b
      else if zb c =? 110 then lex_literal "null" JNull b
      else syntaxError
  end.

(** ** Values *)

Definition maxNestingDepth : Z := 10000.

(** [parse_value fuel d b]: the first value of [b] inside [d] containers.
    [parse_elems] and [parse_members] go on after an opening bracket and at
    least one element is due. *)
Fixpoint parse_value (fuel : nat) (d : Z) (b : bytes) : result (json * bytes) :=
  match fuel with
  | O => Err outOfFuel
  | S f =>
      match skip_ws b with
      | [] => Err (EOS EOF)
      | c :: r =>
          if zb c =? 123 then
            if maxNestingDepth <=? d then Err (EMsg "exceeded max depth")
            else match skip_ws r with
                 | c' :: r' => if zb c' =? 125 then Ok (JObj [], r')
                               else '(m, rest) ← parse_members f (d + 1) r; Ok (JObj m, rest)
                 | [] => Err (EOS EOF)
                 end
          else if zb c =? 91 then
            if maxNestingDepth <=? d then Err (EMsg "exceeded max depth")
            else match skip_ws r with
                 | c' :: r' => if zb c' =? 93 then Ok (JArr [], r')
                               else '(l, rest) ← parse_elems f (d + 1) r; Ok (JArr l, rest)
                 | [] => Err (EOS EOF)
                 end
          else parse_scalar (c :: r)
      end
  end
with parse_elems (fuel : nat) (d : Z) (b : bytes) : result (list json * bytes) :=
  match fuel with
  | O => Err outOfFuel
  | S f =>
      '(v, rest) ← parse_value f d b;
      match skip_ws rest with
      | c :: r =>
          if zb c =? 44 then '(l, rest) ← parse_elems f d r; Ok (v :: l, rest)
          else if zb c =? 93 then Ok ([v], r)
          else syntaxError
      | [] => Err (EOS EOF)
      end
  end
with parse_members (fuel : nat) (d : Z) (b : bytes) : result (list (string * json) * bytes) :=
  match fuel with
  | O => Err outOfFuel
  | S f =>
      match skip_ws b with
      | [] => Err (EOS EOF)
      | q :: r =>
          if negb (zb q =? 34) then syntaxError
          else
            '(k, rest) ← parse_string r;
            match skip_ws rest with
            | [] => Err (EOS EOF)
            | c :: r =>
                if negb (zb c =? 58) then syntaxError
                else
                  '(v, rest) ← parse_value f d r;
                  match skip_ws rest with
                  | c :: r =>
                      if zb c =? 44 then '(m, rest) ← parse_members f d r; Ok ((k, v) :: m, rest)
                      else if zb c =? 125 then Ok ([(k, v)], r)
                      else syntaxError
                  | [] => Err (EOS EOF)
                  end
            end
      end
  end.

(** The first value of a document and what follows it.  A container takes two
    units of fuel and at least one byte, so twice the input is enough. *)
Definition parse (b : bytes) : result (json * bytes) := parse_value (S (2 * length b)) 0 b.

(** [json.Unmarshal] reads the whole input as one value. *)
Definition parse_all (b : bytes) : result json :=
  '(v, rest) ← parse b;
  match skip_ws rest with [] => Ok v | _ => syntaxError end.

(** [Decoder.More] at the top level, after a value. *)
Definition more (rest : bytes) : bool :=
  match skip_ws rest with
  | c :: _ => negb ((zb c =? 93) || (zb c =? 125))
  | [] => false
  end.

(** ** Printing: the text of [json.Marshal] *)

Definition hex_digit (n : Z) : byte := if n <? 10 then bz (48 + n) else bz (87 + n).
Definition u00 (x : Z) : bytes := [bz 92; bz 117; bz 48; bz 48; hex_digit (x / 16); hex_digit (x mod 16)].

(** An ASCII byte inside a string literal. *)
Definition quote_ascii (c : byte) : bytes :=
  let x := zb c in
  if (x =? 34) || (x =? 92) then [bz 92; c]
  else if x =? 8 then [bz 92; bz 98]
  else if x =? 12 then [bz 92; bz 102]
  else if x =? 10 then [bz 92; bz 110]
  else if x =? 13 then [bz 92; bz 114]
  else if x =? 9 then [bz 92; bz 116]
  else if (x <? 32) || (x =? 38) || (x =? 60) || (x =? 62) then u00 x
  else [c].

(** A rune inside a string literal: bytes that are not UTF-8, and the line
    separators, are escaped. *)
Definition quote_rune (r : Z * bytes) : bytes :=
  match r.2 with
  | [c] => if zb c <? 128 then quote_ascii c else to_bytes "\ufffd"
  | enc => if r.1 =? 8232 then to_bytes "\u2028"
           else if r.1 =? 8233 then to_bytes "\u2029" else enc
  end.

Definition print_string (s : string) : bytes :=
  [bz 34] ++ concat (quote_rune <$> Utf8.runes (to_bytes s)) ++ [bz 34].

Fixpoint commas (l : list bytes) : bytes :=
  match l with
  | [] => []
  | [x] => x
  | x :: r => x ++ [bz 44] ++ commas r
  end.

Fixpoint print (v : json) : bytes :=
  match v with
  | JNull => to_bytes "null"
  | JBool true => to_bytes "true"
  | JBool false => to_bytes "false"
  | JNum l => l
  | JStr s => print_string s
  | JArr l => [bz 91] ++ commas (List.map print l) ++ [bz 93]
  | JObj m => [bz 123] ++ commas (List.map (λ '(k, x), print_string k ++ [bz 58] ++ print x) m)
                ++ [bz 125]
  end.

(** An [int] as a number literal. *)
Definition JInt (n : Z) : json := JNum (to_bytes (Strings.itoa n)).

(** ** Decoding into a struct *)

(** [foldName], as far as it can make a name equal to an ASCII field name. *)
Definition fold_rune (r : Z) : Z :=
  if (97 <=? r) && (r <=? 122) then r - 32
  else if r =? 383 then 83 else if r =? 8490 then 75 else r.
Definition fold_name (s : string) : list Z := fold_rune <$> Utf8.range s.

(** A field of a struct: its name and how a value is stored in it. *)
Definition field (A : Type) : Type := string * (json → A → result A).

(** The field a member name selects: an exact match first, else one that is
    equal after folding. *)
Definition select {A} (fs : list (field A)) (name : string) : option (json → A → result A) :=
  match list_find (λ f : field A, f.1 = name) fs with
  | Some (_, f) => Some f.2
  | None => match list_find (λ f : field A, fold_name f.1 = fold_name name) fs with
            | Some (_, f) => Some f.2
            | None => None
            end
  end.

(** The members of an object, in order; [strict] is
    [DisallowUnknownFields]. *)
Fixpoint decode_members {A} (strict : bool) (fs : list (field A)) (m : list (string * json)) (a : A)
    : result A :=
  match m with
  | [] => Ok a
  | (k, v) :: rest =>
      match select fs k with
      | Some store => a ← store v a; decode_members strict fs rest a
      | None => if strict then Err (EMsg ("json: unknown field " ++ k))
                else decode_members strict fs rest a
      end
  end.

Definition typeError {A} : result A := Err (EMsg "json: cannot unmarshal value").

(** An object, or null, into a struct. *)
Definition decode {A} (strict : bool) (fs : list (field A)) (v : json) (a : A) : result A :=
  match v with
  | JObj m => decode_members strict fs m a
  | JNull => Ok a
  | _ => typeError
  end.

(** [strconv.ParseInt(s, 10, 64)] on a number literal. *)
Definition parse_int (l : bytes) : option Z :=
  let '(neg, d) := match l with
                   | x :: r => if zb x =? 45 then (true, r) else (false, l)
                   | [] => (false, [])
                   end in
  if bool_decide (d = []) || negb (forallb Strings.is_digit d) then None
  else let n := if neg : bool then - Strings.dec_acc 0 d else Strings.dec_acc 0 d in
       if (- 2 ^ 63 <=? n) && (n <? 2 ^ 63) then Some n else None.

Definition string_field {A} (set : string → A → A) (v : json) (a : A) : result A :=
  match v with JStr s => Ok (set s a) | JNull => Ok a | _ => typeError end.
Definition bool_field {A} (set : bool → A → A) (v : json) (a : A) : result A :=
  match v with JBool b => Ok (set b a) | JNull => Ok a | _ => typeError end.
Definition int_field {A} (set : Z → A → A) (v : json) (a : A) : result A :=
  match v with
  | JNum l => match parse_int l with Some n => Ok (set n a) | None => typeError end
  | JNull => Ok a
  | _ => typeError
  end.

(** [decoder.Decode(&a)] on the first value of a document, then the check that
    [decoder.More()] is false. *)
Definition decode_document {A} (fs : list (field A)) (zero : A) (b : bytes) : result A :=
  '(v, rest) ← parse b;
  a ← decode true fs v zero;
  if more rest then Err (EMsg "trailing JSON values") else Ok a.

(** [json.Unmarshal(b, &a)]. *)
Definition unmarshal {A} (fs : list (field A)) (zero : A) (b : bytes) : result A :=
  v ← parse_all b; decode false fs v zero.

(** A JSON text with backquotes for its double quotes. *)
Definition text (s : string) : bytes :=
  (λ c, if zb c =? 96 then bz 34 else c) <$> to_bytes s.

Example parse_example :
  parse (text "{ `a` : [1, -2.5e3, true], `\u0062\n` : {} } x")
  = Ok (JObj [("a", JArr [JNum (to_bytes "1"); JNum (to_bytes "-2.5e3"); JBool true]);
              (String (Ascii.ascii_of_nat 98) (String (Ascii.ascii_of_nat 10) ""), JObj [])],
        to_bytes " x").
Proof. vm_compute. reflexivity. Qed.

Example surrogate_example :
  parse (text "`\ud83d\ude00\ud83d`") = Ok (JStr (to_string (map bz [240; 159; 152; 128; 239; 191; 189])), []).
Proof. vm_compute. reflexivity. Qed.

Example print_example :
  print (JObj [("x", JArr [JInt (-12); JNull; JStr "a<b"])]) = text "{`x`:[-12,null,`a\u003cb`]}".
Proof. vm_compute. reflexivity. Qed.

(** ** Round trip *)

Definition ascii (s : string) : Prop := Forall (λ c, zb c < 128) (to_bytes s).

Lemma runes_ascii b : Forall (λ c, zb c < 128) b → Utf8.runes b = (λ c, (zb c, [c])) <$> b.
Proof.
  unfold Utf8.runes. induction 1 as [|c b Hc _ IH]; [done|]. cbn [length Utf8.runes_fuel].
  unfold Utf8.decode_rune. rewrite (proj2 (Z.ltb_lt _ _) Hc). cbn. by rewrite <- IH.
Qed.

(** The escapes [quote_ascii] writes are the ones [lex_string] reads. *)
Lemma hex_val_digit n : 0 ≤ n < 16 → hex_val (hex_digit n) = Some n.
Proof.
  intros Hn. unfold hex_digit, hex_val. cbv zeta.
  destruct (n <? 10) eqn:Hlt; zbool; rewrite zb_bz, Z.mod_small by lia;
    repeat (case_match; zbool; try lia); f_equal; lia.
Qed.

Lemma lex_simple e x f rest :
  simple_escape e = Some x →
  lex_string (S f) (bz 92 :: e :: rest) = ('(s, r) ← lex_string f rest; Ok (x :: s, r)).
Proof. intros He. cbn -[simple_escape]. by rewrite He. Qed.

Lemma lex_u00 x f rest :
  0 ≤ x < 128 →
  lex_string (S f) (u00 x ++ rest) = ('(s, r) ← lex_string f rest; Ok (bz x :: s, r)).
Proof.
  intros Hx. assert (getu4 (u00 x ++ rest) = Some x) as Hg.
  { cbn -[hex_digit]. unfold hex4. change (hex_val (bz 48)) with (Some 0).
    rewrite !hex_val_digit by dlia. cbn. f_equal. dlia. }
  change (u00 x ++ rest) with (bz 92 :: bz 117 :: drop 2 (u00 x ++ rest)) in *.
  cbn [lex_string]. change (zb (bz 92) =? 34) with false. change (zb (bz 92) <? 32) with false.
  change (zb (bz 92) =? 92) with true. change (simple_escape (bz 117)) with (@None byte).
  change (zb (bz 117) =? 117) with true. cbv iota. rewrite Hg. cbv zeta.
  unfold is_surrogate. rewrite (proj2 (Z.leb_gt 55296 x)) by lia. cbn [andb].
  unfold encode_rune. rewrite (proj2 (Z.ltb_ge x 0)), (proj2 (Z.ltb_ge 1114111 x)) by lia.
  rewrite (proj2 (Z.leb_gt 55296 x)) by lia. cbn [orb andb]. rewrite (proj2 (Z.ltb_lt x 128)) by lia.
  done.
Qed.

Lemma lex_plain c f rest :
  32 ≤ zb c < 128 → zb c ≠ 34 → zb c ≠ 92 →
  lex_string (S f) (c :: rest) = ('(s, r) ← lex_string f rest; Ok (c :: s, r)).
Proof.
  intros Hc H1 H2. cbn [lex_string].
  rewrite (proj2 (Z.eqb_neq _ _) H1), (proj2 (Z.ltb_ge (zb c) 32)), (proj2 (Z.eqb_neq _ _) H2),
    (proj2 (Z.ltb_lt (zb c) 128)) by lia. done.
Qed.

Lemma quote_ascii_lex c f rest :
  zb c < 128 →
  lex_string (S f) (quote_ascii c ++ rest) = ('(s, r) ← lex_string f rest; Ok (c :: s, r)).
Proof.
  intros Hc. pose proof (zb_range c). unfold quote_ascii. cbv zeta.
  assert (∀ k, zb c = k → c = bz k) as Hk by (intros k <-; by rewrite bz_zb).
  destruct ((zb c =? 34) || (zb c =? 92)) eqn:E1.
  { apply lex_simple. unfold simple_escape. by rewrite E1. }
  zbool. do 5 (case_match eqn:E2; zbool; [rewrite (Hk _ E2); by apply lex_simple|clear E2]).
  case_match eqn:E3; [|apply lex_plain; zbool; lia].
  pose proof (lex_u00 (zb c) f rest) as Hu. rewrite bz_zb in Hu. apply Hu. lia.
Qed.

Lemma quote_rune_ascii c : zb c < 128 → quote_rune (zb c, [c]) = quote_ascii c.
Proof. intros Hc. unfold quote_rune. cbn [snd]. by rewrite (proj2 (Z.ltb_lt _ _) Hc). Qed.

Lemma lex_print_string s f rest :
  ascii s → (String.length s < f)%nat →
  lex_string f (concat (quote_rune <$> Utf8.runes (to_bytes s)) ++ bz 34 :: rest) = Ok (to_bytes s, rest).
Proof.
  intros Hs. rewrite <- length_to_bytes. unfold ascii in Hs. rewrite runes_ascii by done.
  generalize (to_bytes s) Hs. clear s Hs. intros b Hb. revert f.
  induction Hb as [|c b Hc _ IH]; intros [|f] Hf; cbn [length] in Hf; try lia; [done|].
  rewrite !fmap_cons. cbn [concat].
  rewrite quote_rune_ascii, <- app_assoc, quote_ascii_lex by done.
  rewrite IH by lia. done.
Qed.

(** *** Integers *)

(** What may follow a number literal without being taken as part of it. *)
Definition num_stop (rest : bytes) : bool :=
  match rest with
  | [] => true
  | x :: _ => negb (Strings.is_digit x || (zb x =? 46) || (zb x =? 101) || (zb x =? 69))
  end.

Lemma digit_byte k : 0 ≤ k < 10 → Strings.is_digit (bz (48 + k)) = true ∧ zb (bz (48 + k)) = 48 + k.
Proof.
  intros Hk. unfold Strings.is_digit. rewrite zb_bz, Z.mod_small by lia. split; [|done].
  apply andb_true_iff. split; apply Z.leb_le; lia.
Qed.

(** The decimal digits of [n]: no leading zero, and they read back as [n]. *)
Lemma digits_spec f n acc :
  0 ≤ n < 10 ^ Z.of_nat f → (0 < f)%nat →
  ∃ x d, Strings.digits f n acc = (x :: d) ++ acc ∧ Forall (λ c, Strings.is_digit c = true) (x :: d) ∧
    (zb x = 48 → d = [] ∧ n = 0) ∧
    ∀ a, Strings.dec_acc a (x :: d) = a * 10 ^ Z.of_nat (S (length d)) + n.
Proof.
  revert n acc. induction f as [|f IH]; intros n acc Hn Hf; [lia|].
  cbn [Strings.digits]. destruct (digit_byte (n mod 10)) as [Hd Hz]; [dlia|].
  case_match eqn:Hq; zbool.
  - exists (bz (48 + n mod 10)), []. split_and!; [done|constructor; [exact Hd|constructor]|split; [done|dlia]|].
    intros a. cbn -[Z.mul Z.pow]. rewrite Hz. dlia.
  - assert (0 < n / 10 < 10 ^ Z.of_nat f) as Hn'.
    { split; [dlia|]. apply Z.div_lt_upper_bound; [lia|].
      rewrite Nat2Z.inj_succ, Z.pow_succ_r in Hn by lia. lia. }
    destruct (IH (n / 10) (bz (48 + n mod 10) :: acc)) as (x & d & He & Hall & H0 & Hv).
    { lia. } { destruct f; [cbn in Hn'; lia|lia]. }
    exists x, (d ++ [bz (48 + n mod 10)]). rewrite He. split_and!.
    + by rewrite app_comm_cons, <- app_assoc.
    + rewrite app_comm_cons. apply Forall_app. split; [done|constructor; [exact Hd|constructor]].
    + intros Hx. destruct (H0 Hx) as [_ ?]. lia.
    + intros a. rewrite app_comm_cons.
      assert (∀ b u c, Strings.dec_acc u (b ++ [c]) = 10 * Strings.dec_acc u b + (zb c - 48)) as Happ.
      { induction b as [|y b IHb]; intros u c; [done|]. cbn -[Z.mul]. apply IHb. }
      rewrite Happ, Hv, Hz, length_app. cbn [length]. rewrite Nat.add_1_r.
      rewrite (Nat2Z.inj_succ (S (length d))), (Z.pow_succ_r 10 (Z.of_nat (S (length d)))) by lia. dlia.
Qed.

Lemma span_digits_app d rest :
  Forall (λ c, Strings.is_digit c = true) d → num_stop rest = true → span_digits (d ++ rest) = (d, rest).
Proof.
  intros Hd Hr. induction Hd as [|c d Hc _ IH]; cbn.
  - destruct rest as [|x r]; [done|]. cbn in *. apply negb_true_iff in Hr. zbool.
    match goal with Hx : Strings.is_digit x = false |- _ => by rewrite Hx end.
  - by rewrite Hc, IH.
Qed.

Lemma lex_number_digits sign x d rest :
  (sign = [] ∨ sign = [bz 45]) → Forall (λ c, Strings.is_digit c = true) (x :: d) →
  (zb x = 48 → d = []) → num_stop rest = true →
  lex_number (sign ++ (x :: d) ++ rest) = Ok (sign ++ x :: d, rest).
Proof.
  intros Hs Hd H0 Hr. apply List.Forall_cons_iff in Hd as [Hx Hd].
  assert ((zb x =? 45) = false) as Hm.
  { unfold Strings.is_digit in Hx. zbool. apply Z.eqb_neq. lia. }
  assert (lex_int ((x :: d) ++ rest) = Ok (x :: d, rest)) as Hi.
  { cbn. case_match eqn:Hz; zbool; [by rewrite (H0 Hz)|]. by rewrite Hx, span_digits_app. }
  assert (lex_frac rest = Ok ([], rest) ∧ lex_exp rest = Ok ([], rest)) as [Hf He].
  { destruct rest as [|y r]; [done|]. cbn in Hr. apply negb_true_iff in Hr. zbool. cbn.
    by rewrite (proj2 (Z.eqb_neq _ _) H3), (proj2 (Z.eqb_neq _ _) H2), (proj2 (Z.eqb_neq _ _) H1). }
  unfold lex_number. change ((x :: d) ++ rest) with (x :: d ++ rest) in *.
  destruct Hs as [-> | ->]; cbn [app]; [rewrite Hm|change (zb (bz 45) =? 45) with true];
    cbv beta iota; rewrite Hi; cbn [mbind result_bind]; rewrite Hf; cbn [mbind result_bind];
    rewrite He; cbn; by rewrite app_nil_r.
Qed.

(** An integer literal, as [strconv] prints it. *)
Definition int_literal (l : bytes) : Prop :=
  ∃ sign x d, l = sign ++ x :: d ∧ (sign = [] ∨ sign = [bz 45]) ∧
    Forall (λ c, Strings.is_digit c = true) (x :: d) ∧ (zb x = 48 → d = []).

Lemma itoa_literal n :
  Z.abs n < 2 ^ 63 →
  int_literal (to_bytes (Strings.itoa n)) ∧ parse_int (to_bytes (Strings.itoa n)) = Some n.
Proof.
  intros Hn. unfold Strings.itoa. rewrite to_bytes_string.
  destruct (digits_spec 64 (Z.abs n) []) as (x & d & He & Hd & H0 & Hv); [|lia|].
  { split; [lia|]. eapply Z.lt_trans; [exact Hn|]. by vm_compute. }
  rewrite app_nil_r in He. specialize (Hv 0). pose proof Hd as [Hx _]%List.Forall_cons_iff.
  assert ((zb x =? 45) = false) as Hm.
  { unfold Strings.is_digit in Hx. zbool. apply Z.eqb_neq. lia. }
  assert (forallb Strings.is_digit (x :: d) = true) as Hall.
  { apply forallb_forall. by apply List.Forall_forall. }
  unfold parse_int, int_literal.
  destruct (n <? 0) eqn:Hneg; [apply Z.ltb_lt in Hneg|apply Z.ltb_ge in Hneg].
  - rewrite Z.abs_neq in * by lia. rewrite He. split.
    + exists [bz 45], x, d. split_and!; [done|by right|done|]. intros Hz. apply (H0 Hz).
    + change (zb (bz 45) =? 45) with true. cbv beta iota. rewrite Hall, Hv, bool_decide_eq_false_2 by done.
      cbn [orb negb]. rewrite (proj2 (Z.leb_le _ _)), (proj2 (Z.ltb_lt _ _)) by lia. cbn [andb]. f_equal. lia.
  - rewrite Z.abs_eq in * by lia. rewrite He. split.
    + exists [], x, d. split_and!; [done|by left|done|]. intros Hz. apply (H0 Hz).
    + rewrite Hm, Hall, Hv, bool_decide_eq_false_2 by done. cbn [orb negb].
      rewrite (proj2 (Z.leb_le _ _)), (proj2 (Z.ltb_lt _ _)) by lia. cbn [andb]. f_equal; lia.
Qed.

(** *** Values *)

(** Values [print] writes and [parse] reads back: ASCII strings, integers,
    and no more containers than the scanner allows. *)
Fixpoint wf (d : Z) (v : json) : Prop :=
  match v with
  | JNull | JBool _ => True
  | JNum l => int_literal l
  | JStr s => ascii s
  | JArr l => d < maxNestingDepth ∧ foldr (λ x P, wf (d + 1) x ∧ P) True l
  | JObj m => d < maxNestingDepth ∧ foldr (λ '(k, x) P, ascii k ∧ wf (d + 1) x ∧ P) True m
  end.

Section json_ind.
Variable P : json → Prop.
Hypotheses (Hnull : P JNull) (Hbool : ∀ b, P (JBool b)) (Hnum : ∀ l, P (JNum l))
  (Hstr : ∀ s, P (JStr s)) (Harr : ∀ l, Forall P l → P (JArr l))
  (Hobj : ∀ m, Forall (λ x, P x.2) m → P (JObj m)).
Fixpoint json_ind' (v : json) : P v :=
  match v with
  | JNull => Hnull
  | JBool b => Hbool b
  | JNum l => Hnum l
  | JStr s => Hstr s
  | JArr l => Harr l ((fix go l : Forall P l :=
      match l with [] => List.Forall_nil _ | x :: r => @List.Forall_cons _ _ x r (json_ind' x) (go r) end) l)
  | JObj m => Hobj m ((fix go m : Forall (λ x, P x.2) m :=
      match m with [] => List.Forall_nil _ | (k, x) :: r => @List.Forall_cons _ (λ x, P x.2) (k, x) r (json_ind' x) (go r) end) m)
  end.
End json_ind.

(** The first byte of a printed value starts a value: it is no white space and
    no closing bracket. *)
Lemma print_head d v rest :
  wf d v → ∃ c r, print v ++ rest = c :: r ∧ is_ws c = false ∧ zb c ≠ 93 ∧ zb c ≠ 125.
Proof.
  destruct v as [|[]|l|s|l|m]; cbn -[print_string]; intros Hw;
    try (eexists _, _; split; [reflexivity|]; by vm_compute).
  destruct Hw as (sign & x & d' & -> & Hs & Hd & _). apply List.Forall_cons_iff in Hd as [Hx _].
  unfold Strings.is_digit in Hx. zbool. destruct Hs as [-> | ->]; eexists _, _; (split; [reflexivity|]).
  - split_and!; [|lia..]. unfold is_ws. repeat (rewrite (proj2 (Z.eqb_neq _ _)) by lia). done.
  - by vm_compute.
Qed.

Lemma skip_ws_head c r : is_ws c = false → skip_ws (c :: r) = c :: r.
Proof. intros Hc. cbn. by rewrite Hc. Qed.

Lemma parse_print_string s rest :
  ascii s → parse_string (concat (quote_rune <$> Utf8.runes (to_bytes s)) ++ bz 34 :: rest) = Ok (s, rest).
Proof.
  intros Hs. unfold parse_string. rewrite lex_print_string; [|done|].
  - cbn. by rewrite to_string_bytes.
  - rewrite length_app, <- length_to_bytes. unfold ascii in Hs. rewrite runes_ascii by done.
    enough (length (to_bytes s) ≤ length (concat (quote_rune <$> ((λ c, (zb c, [c])) <$> to_bytes s))))%nat
      by (cbn; lia).
    induction (to_bytes s) as [|c b IH]; [done|]. rewrite !fmap_cons. cbn [concat length].
    apply List.Forall_cons_iff in Hs as [Hc Hb]. specialize (IH Hb).
    rewrite quote_rune_ascii, length_app by done.
    assert (1 ≤ length (quote_ascii c))%nat by (unfold quote_ascii, u00; repeat case_match; cbn; lia).
    lia.
Qed.

(** A value of [v] read back from its text, whatever follows it. *)
Definition reads (v : json) : Prop :=
  ∀ d f rest, wf d v → (length (print v) < f)%nat → num_stop rest = true →
    parse_value f d (print v ++ rest) = Ok (v, rest).

Definition print_member (x : string * json) : bytes := print_string x.1 ++ [bz 58] ++ print x.2.

Lemma print_obj m : print (JObj m) = [bz 123] ++ commas (List.map print_member m) ++ [bz 125].
Proof. cbn [print]. do 2 f_equal. f_equal. apply List.map_ext. by intros []. Qed.

Lemma commas_cons x l : l ≠ [] → commas (x :: l) = x ++ [bz 44] ++ commas l.
Proof. by destruct l. Qed.

Lemma parse_elems_print l : ∀ d f rest,
  l ≠ [] → Forall reads l → foldr (λ x P, wf d x ∧ P) True l →
  (length (commas (List.map print l)) + 1 < f)%nat →
  parse_elems f d (commas (List.map print l) ++ bz 93 :: rest) = Ok (l, rest).
Proof.
  induction l as [|v l IH]; intros d f rest Hne Hr Hw Hf; [done|].
  apply List.Forall_cons_iff in Hr as [Hv Hl]. destruct Hw as [Hwv Hwl].
  destruct f as [|f]; [lia|]. cbn [parse_elems]. destruct l as [|v' l'].
  - cbn [List.map commas] in *. rewrite (Hv d f) by (done || lia). done.
  - cbn [List.map] in *. rewrite commas_cons in * by done. rewrite !length_app in Hf. cbn [length] in Hf.
    rewrite <- app_assoc, (Hv d f) by (done || lia). cbn [mbind result_bind].
    change ((([bz 44] ++ ?x) ++ ?y)) with (bz 44 :: x ++ y).
    rewrite skip_ws_head by done. change (zb (bz 44) =? 44) with true. cbv iota.
    rewrite IH; [done..|]. cbn [List.map]. lia.
Qed.

Lemma parse_members_print m : ∀ d f rest,
  m ≠ [] → Forall (λ x, reads x.2) m → foldr (λ '(k, x) P, ascii k ∧ wf d x ∧ P) True m →
  (length (commas (List.map print_member m)) + 1 < f)%nat →
  parse_members f d (commas (List.map print_member m) ++ bz 125 :: rest) = Ok (m, rest).
Proof.
  induction m as [|[k v] m IH]; intros d f rest Hne Hr Hw Hf; [done|].
  apply List.Forall_cons_iff in Hr as [Hv Hl]. destruct Hw as (Hk & Hwv & Hwl). cbn [snd] in Hv.
  assert (∀ tl f', (length (print_member (k, v)) < f')%nat → num_stop tl = true →
    parse_members (S f') d (print_member (k, v) ++ tl) =
      match skip_ws tl with
      | c :: r => if zb c =? 44 then '(m, rest) ← parse_members f' d r; Ok ((k, v) :: m, rest)
                  else if zb c =? 125 then Ok ([(k, v)], r) else syntaxError
      | [] => Err (EOS EOF)
      end) as Hone.
  { intros tl f' Hf' Htl. unfold print_member, print_string in *. cbn [fst snd] in *.
    rewrite <- !app_assoc. cbn [app parse_members]. rewrite skip_ws_head by done.
    change (zb (bz 34) =? 34) with true. cbn [negb].
    rewrite parse_print_string by done. cbn [mbind result_bind].
    rewrite skip_ws_head by done. change (zb (bz 58) =? 58) with true. cbn [negb].
    rewrite !length_app in Hf'. rewrite (Hv d f') by (done || lia). done. }
  destruct f as [|f]; [lia|]. destruct m as [|x m'].
  - cbn [List.map commas] in *. rewrite Hone by (done || lia). done.
  - cbn [List.map] in *. rewrite commas_cons in * by done. rewrite !length_app in Hf. cbn [length] in Hf.
    rewrite <- app_assoc, Hone by (done || lia).
    change ((([bz 44] ++ ?x) ++ ?y)) with (bz 44 :: x ++ y).
    rewrite skip_ws_head by done. change (zb (bz 44) =? 44) with true. cbv iota.
    rewrite IH; [done..|]. cbn [List.map]. lia.
Qed.

(** The head of a printed, non-empty container body. *)
Lemma commas_head (l : list bytes) x rest :
  commas (x :: l) ++ rest = x ++ (match l with [] => [] | _ => [bz 44] ++ commas l end) ++ rest.
Proof. destruct l; cbn [commas]; [by rewrite app_nil_l|]. by rewrite <- !app_assoc. Qed.

Lemma reads_all v : reads v.
Proof.
  induction v as [|b|l|s|l IH|m IH] using json_ind'; intros d f rest Hw Hf Hr;
    (destruct f as [|f]; [lia|]).
  - reflexivity.
  - by destruct b.
  - destruct (print_head d (JNum l) rest Hw) as (c & r & Hc & Hws & _).
    cbn [print] in *. cbn [parse_value]. rewrite Hc, skip_ws_head by done. rewrite <- Hc.
    destruct Hw as (sign & x & d' & -> & Hs & Hd & H0). pose proof Hd as [Hx _]%List.Forall_cons_iff.
    assert (zb c = 45 ∨ Strings.is_digit c = true) as Hcc.
    { destruct Hs as [-> | ->]; cbn in Hc; injection Hc as <- _; [by right|by left]. }
    assert (48 ≤ zb c ≤ 57 ∨ zb c = 45) as Hrange.
    { destruct Hcc as [?|Hdc]; [lia|]. unfold Strings.is_digit in Hdc. zbool. lia. }
    rewrite Hc. do 2 (rewrite (proj2 (Z.eqb_neq (zb c) _)) by lia). unfold parse_scalar.
    rewrite (proj2 (Z.eqb_neq (zb c) _)) by lia.
    assert ((zb c =? 45) || Strings.is_digit c = true) as ->.
    { destruct Hcc as [-> | ->]; [done|apply orb_true_r]. }
    rewrite <- Hc, <- app_assoc, lex_number_digits by done. done.
  - cbn [print] in *. unfold print_string. rewrite <- !app_assoc. cbn [app parse_value].
    rewrite skip_ws_head by done. change (zb (bz 34) =? 123) with false. change (zb (bz 34) =? 91) with false.
    cbv iota. unfold parse_scalar. change (zb (bz 34) =? 34) with true. cbv iota.
    by rewrite parse_print_string.
  - destruct Hw as [Hd Hw]. cbn [print] in *. rewrite !length_app in Hf. cbn [length] in Hf.
    rewrite <- !app_assoc. cbn [app parse_value]. rewrite skip_ws_head by done.
    change (zb (bz 91) =? 123) with false. change (zb (bz 91) =? 91) with true. cbv iota.
    rewrite (proj2 (Z.leb_gt _ _)) by done. destruct l as [|v l]; [done|].
    destruct (print_head (d + 1) v ((match List.map print l with [] => [] | _ => [bz 44] ++ commas (List.map print l) end)
      ++ bz 93 :: rest)) as (c & r & Hc & Hws & Hc1 & _); [apply Hw|].
    rewrite <- commas_head in Hc. cbn [List.map] in *. rewrite Hc, skip_ws_head by done.
    rewrite (proj2 (Z.eqb_neq _ _) Hc1), <- Hc.
    change (print v :: List.map print l) with (List.map print (v :: l)).
    rewrite parse_elems_print; [done..|]. cbn [List.map]. lia.
  - destruct Hw as [Hd Hw]. rewrite print_obj in *. rewrite !length_app in Hf. cbn [length] in Hf.
    rewrite <- !app_assoc. cbn [app parse_value]. rewrite skip_ws_head by done.
    change (zb (bz 123) =? 123) with true. cbv iota.
    rewrite (proj2 (Z.leb_gt _ _)) by done. destruct m as [|[k v] m]; [done|].
    assert (∃ r, commas (List.map print_member ((k, v) :: m)) ++ bz 125 :: rest = bz 34 :: r) as [r Hc].
    { cbn [List.map]. rewrite commas_head. eexists. reflexivity. }
    rewrite Hc, skip_ws_head by done. change (zb (bz 34) =? 125) with false. cbv iota. rewrite <- Hc.
    rewrite parse_members_print; [done..|]. lia.
Qed.

(** The text of a value parses back to it and to what follows. *)
Lemma parse_print v rest :
  wf 0 v → num_stop rest = true → parse (print v ++ rest) = Ok (v, rest).
Proof. intros Hw Hr. apply reads_all; [done| |done]. rewrite length_app. lia. Qed.

(** ** Every value consumes input *)

Lemma skip_ws_length b : (length (skip_ws b) ≤ length b)%nat.
Proof. induction b as [|c b IH]; cbn; [done|]. case_match; cbn; lia. Qed.

Lemma bind_pair_Ok {A B C} (m : result (A * B)) (f : A → B → result C) c :
  (('(a, b) ← m; f a b) = Ok c) → ∃ a b, m = Ok (a, b) ∧ f a b = Ok c.
Proof. intros ([a b] & Hm & Hf)%bind_Ok. eauto. Qed.

Lemma decode_rune_width c r : (1 ≤ (Utf8.decode_rune (c :: r)).2)%nat.
Proof. unfold Utf8.decode_rune. repeat case_match; cbn; lia. Qed.

Lemma lex_string_consumes f : ∀ b s rest, lex_string f b = Ok (s, rest) → (length rest < length b)%nat.
Proof.
  induction f as [|f IH]; intros [|c r] s rest; cbn [lex_string]; try done.
  assert (∀ b' x, lex_string f b' ≫= (λ '(s, rest), Ok (x ++ s, rest)) = Ok (s, rest) →
    (length b' < length (c :: r))%nat → (length rest < length (c :: r))%nat) as Hstep.
  { intros b' x (s' & r' & Hl & [= _ <-])%bind_pair_Ok Hb. apply IH in Hl. lia. }
  assert (∀ n, (1 ≤ n)%nat → (length (drop n (c :: r)) < length (c :: r))%nat) as Hdrop.
  { intros n Hn. rewrite length_drop. cbn [length]. lia. }
  case_match; [intros [= _ <-]; cbn; lia|]. case_match; [done|]. case_match.
  - destruct r as [|e r']; [done|]. destruct (simple_escape e) as [x|].
    { intros Hl. eapply (Hstep r' [x]); [exact Hl|cbn; lia]. }
    case_match; [|done]. destruct (getu4 _) as [u|]; [|done]. cbv zeta.
    case_match; intros Hl; (eapply Hstep; [exact Hl|]); [rewrite drop_drop|]; apply Hdrop; lia.
  - case_match.
    + intros Hl. eapply (Hstep r [c]); [exact Hl|cbn; lia].
    + pose proof (decode_rune_width c r) as Hw. destruct (Utf8.decode_rune (c :: r)) as [u w].
      intros Hl. eapply Hstep; [exact Hl|]. by apply Hdrop.
Qed.

Lemma parse_string_consumes b s rest : parse_string b = Ok (s, rest) → (length rest < length b)%nat.
Proof.
  unfold parse_string. intros (s' & r' & Hl & [= _ <-])%bind_pair_Ok. by eapply lex_string_consumes.
Qed.

Lemma span_digits_split b d r : span_digits b = (d, r) → b = d ++ r.
Proof.
  revert d r. induction b as [|c b IH]; intros d r; cbn; [by intros [= <- <-]|].
  case_match; [|by intros [= <- <-]]. destruct (span_digits b) as [d' r'] eqn:Hs.
  intros [= <- <-]. by rewrite (IH d' r').
Qed.

Lemma lex_number_consumes b l rest : lex_number b = Ok (l, rest) → (length rest < length b)%nat.
Proof.
  unfold lex_number.
  match goal with |- (let '(_, _) := ?m in _) = _ → _ =>
    assert (length m.2 ≤ length b)%nat as Hsb by (repeat case_match; cbn; lia);
    destruct m as [sign b'] end.
  cbn in Hsb.
  intros (i & b1 & Hi & (fr & b2 & Hf & (e & b3 & He & [= _ <-])%bind_pair_Ok)%bind_pair_Ok)%bind_pair_Ok.
  assert (length b1 < length b')%nat.
  { destruct b' as [|x r]; cbn in Hi; [done|]. case_match; [by simplify_eq/=; lia|].
    case_match; [|done]. destruct (span_digits r) as [d r'] eqn:Hs. simplify_eq.
    apply span_digits_split in Hs as ->. cbn. rewrite length_app. lia. }
  assert (∀ x d r, span_digits x = (d, r) → length r ≤ length x)%nat as Hspan.
  { intros x d r Hx%span_digits_split. subst x. rewrite length_app. lia. }
  assert (length b2 ≤ length b1)%nat.
  { unfold lex_frac in Hf. destruct b1 as [|x r]; [by simplify_eq|]. case_match; [|by simplify_eq].
    destruct (span_digits r) as [[|y d] r'] eqn:Hs; [by destruct r'|]. simplify_eq.
    apply Hspan in Hs. cbn. lia. }
  assert (length b3 ≤ length b2)%nat; [|lia].
  unfold lex_exp in He. destruct b2 as [|x r]; [by simplify_eq|]. case_match; [|by simplify_eq].
  match type of He with (let '(_, _) := ?m in _) = _ =>
    assert (length m.2 ≤ length r)%nat as Hm
      by (clear; destruct r as [|y r']; [|destruct ((zb y =? 43) || (zb y =? 45))]; cbn; lia);
    destruct m as [sg r0] end.
  cbn in Hm |- *. destruct (span_digits r0) as [[|y d] r'] eqn:Hs; [by destruct r'|].
  simplify_eq. apply Hspan in Hs. lia.
Qed.

Lemma parse_scalar_consumes b v rest : parse_scalar b = Ok (v, rest) → (length rest < length b)%nat.
Proof.
  destruct b as [|c r]; [done|]. cbn [parse_scalar].
  assert (∀ lit x, (0 < length (to_bytes lit))%nat → lex_literal lit x (c :: r) = Ok (v, rest) →
    (length rest < length (c :: r))%nat) as Hlit.
  { intros lit x Hl. unfold lex_literal. case_match; [|done]. intros [= _ <-].
    rewrite length_drop. cbn [length]. lia. }
  case_match; [|repeat (case_match; [|])]; try done.
  - intros (s & r' & Hs%parse_string_consumes & [= _ <-])%bind_pair_Ok. cbn. lia.
  - intros (l & r' & Hs%lex_number_consumes & [= _ <-])%bind_pair_Ok. done.
  - apply Hlit. cbn. lia.
  - apply Hlit. cbn. lia.
  - apply Hlit. cbn. lia.
Qed.

Lemma parse_consumes f :
  (∀ d b v rest, parse_value f d b = Ok (v, rest) → (length rest < length b)%nat) ∧
  (∀ d b l rest, parse_elems f d b = Ok (l, rest) → (length rest < length b)%nat) ∧
  (∀ d b m rest, parse_members f d b = Ok (m, rest) → (length rest < length b)%nat).
Proof.
  induction f as [|f (IHv & IHe & IHm)]; [done|]. split_and!; intros d b x rest.
  - cbn [parse_value]. pose proof (skip_ws_length b). destruct (skip_ws b) as [|c r]; [done|].
    cbn [length] in *. pose proof (skip_ws_length r).
    case_match; [|case_match]; [case_match; [done|]..|].
    + destruct (skip_ws r) as [|c' r']; [done|]. case_match; [intros [= _ <-]; cbn in *; lia|].
      intros (m & r0 & Hm%IHm & [= _ <-])%bind_pair_Ok. lia.
    + destruct (skip_ws r) as [|c' r']; [done|]. case_match; [intros [= _ <-]; cbn in *; lia|].
      intros (m & r0 & Hm%IHe & [= _ <-])%bind_pair_Ok. lia.
    + intros Hs%parse_scalar_consumes. cbn in *. lia.
  - cbn [parse_elems]. intros (v & r1 & Hv%IHv & Hr)%bind_pair_Ok.
    pose proof (skip_ws_length r1). destruct (skip_ws r1) as [|c r]; [done|]. cbn [length] in *.
    revert Hr. case_match; [|case_match; [|done]].
    + intros (l & r2 & Hl%IHe & [= _ <-])%bind_pair_Ok. lia.
    + intros [= _ <-]. lia.
  - cbn [parse_members]. pose proof (skip_ws_length b). destruct (skip_ws b) as [|q r]; [done|].
    cbn [length] in *. case_match; [done|].
    intros (k & r1 & Hk%parse_string_consumes & Hr)%bind_pair_Ok.
    pose proof (skip_ws_length r1). destruct (skip_ws r1) as [|c r2]; [done|]. cbn [length] in *.
    revert Hr. case_match; [done|]. intros (v & r3 & Hv%IHv & Hr)%bind_pair_Ok.
    pose proof (skip_ws_length r3). destruct (skip_ws r3) as [|c3 r4]; [done|]. cbn [length] in *.
    revert Hr. case_match; [|case_match; [|done]].
    + intros (l & r5 & Hl%IHm & [= _ <-])%bind_pair_Ok. lia.
    + intros [= _ <-]. lia.
Qed.

End Json.
