(* ===== verification/StrictJson.v ===== *)
(** * internal/strictjson

    The preflight that runs before typed decoding: it walks the token stream of
    [json.Decoder] and rejects duplicate member names, deep nesting and, for
    manifests, names that are not canonical.  The walk is proved equivalent to
    a predicate on the parsed value. *)

From S2P Require Import Prelude GoStd Json.
Import Json.

Module StrictJson.

(** ** json.Decoder.Token *)

Inductive tokenState :=
| tokenTopValue | tokenArrayStart | tokenArrayValue | tokenArrayComma
| tokenObjectStart | tokenObjectKey | tokenObjectColon | tokenObjectValue | tokenObjectComma.

#[global] Instance tokenState_eq_dec : EqDecision tokenState.
Proof. solve_decision. Defined.

Record decoder := mkDecoder { buf : bytes; state : tokenState; stack : list tokenState }.

Inductive token :=
| Delim (c : Z)
| Scalar (v : json).

Definition tokenValueAllowed (s : tokenState) : bool :=
  match s with
  | tokenTopValue | tokenArrayStart | tokenArrayValue | tokenObjectValue => true
  | _ => false
  end.

Definition tokenValueEnd (s : tokenState) : tokenState :=
  match s with
  | tokenArrayStart | tokenArrayValue => tokenArrayComma
  | tokenObjectValue => tokenObjectComma
  | s => s
  end.

Definition tokenError {A} : result A := Err (EMsg "invalid character in JSON token").

Definition open_ (c : Z) (s : tokenState) (r : bytes) (d : decoder) : result (token * decoder) :=
  if tokenValueAllowed (state d) then Ok (Delim c, mkDecoder r s (state d :: stack d))
  else tokenError.

Definition close_ (c : Z) (start comma : tokenState) (r : bytes) (d : decoder)
    : result (token * decoder) :=
  if bool_decide (state d = start) || bool_decide (state d = comma)
  then match stack d with
       | s :: st => Ok (Delim c, mkDecoder r (tokenValueEnd s) st)
       | [] => Err (EPanic "token stack")
       end
  else tokenError.

(** [Token] skips separators: each takes a byte, so the input bounds the loop. *)
Fixpoint TokenLoop (fuel : nat) (d : decoder) : result (token * decoder) :=
  match fuel with
  | O => Err outOfFuel
  | S f =>
      match skip_ws (buf d) with
      | [] => Err (EOS EOF)
      | c :: r =>
          if zb c =? 91 then open_ 91 tokenArrayStart r d
          else if zb c =? 93 then close_ 93 tokenArrayStart tokenArrayComma r d
          else if zb c =? 123 then open_ 123 tokenObjectStart r d
          else if zb c =? 125 then close_ 125 tokenObjectStart tokenObjectComma r d
          else if zb c =? 58 then
            if bool_decide (state d = tokenObjectColon)
            then TokenLoop f (mkDecoder r tokenObjectValue (stack d)) else tokenError
          else if zb c =? 44 then
            match state d with
            | tokenArrayComma => TokenLoop f (mkDecoder r tokenArrayValue (stack d))
            | tokenObjectComma => TokenLoop f (mkDecoder r tokenObjectKey (stack d))
            | _ => tokenError
            end
          else if (zb c =? 34) && (bool_decide (state d = tokenObjectStart)
                                   || bool_decide (state d = tokenObjectKey)) then
            '(s, rest) ← parse_string r;
            Ok (Scalar (JStr s), mkDecoder rest tokenObjectColon (stack d))
          else if tokenValueAllowed (state d) then
            '(v, rest) ← parse_scalar (c :: r);
            Ok (Scalar v, mkDecoder rest (tokenValueEnd (state d)) (stack d))
          else tokenError
      end
  end.
Definition Token (d : decoder) : result (token * decoder) := TokenLoop (S (length (buf d))) d.

Definition More (d : decoder) : bool := more (buf d).

(** ** The walk *)

Definition maxJSONDepth : Z := 32.

Definition is_lower (x : Z) : bool := (97 <=? x) && (x <=? 122).
Definition isCanonicalManifestName (name : string) : bool :=
  match to_bytes name with
  | [] => false
  | c :: r => is_lower (zb c)
              && forallb (λ b, is_lower (zb b) || Strings.is_digit b || (zb b =? 95)) r
  end.

Section walk.
Context (requireCanonical : bool).

(** [walkObject]'s loop carries the names it has seen. *)
Fixpoint walkValue (fuel : nat) (depth : Z) (d : decoder) : result decoder :=
  match fuel with
  | O => Err outOfFuel
  | S f =>
      if maxJSONDepth <? depth then Err (EMsg "JSON nesting exceeds 32 levels")
      else
        '(t, d) ← Token d;
        match t with
        | Scalar _ => Ok d
        | Delim c =>
            if c =? 123 then walkObject f depth [] d
            else if c =? 91 then walkArray f depth d
            else Err (EMsg "unexpected opening delimiter")
        end
  end
with walkObject (fuel : nat) (depth : Z) (seen : list string) (d : decoder) : result decoder :=
  match fuel with
  | O => Err outOfFuel
  | S f =>
      if More d then
        '(t, d) ← Token d;
        match t with
        | Scalar (JStr name) =>
            if requireCanonical && negb (isCanonicalManifestName name)
            then Err (EMsg "non-canonical JSON object member name")
            else if bool_decide (name ∈ seen) then Err (EMsg "duplicate JSON object member name")
            else d ← walkValue f (depth + 1) d; walkObject f depth (name :: seen) d
        | _ => Err (EMsg "object member name is not a string")
        end
      else
        '(t, d) ← Token d;
        match t with
        | Delim c => if c =? 125 then Ok d else Err (EMsg "object ended with delimiter")
        | Scalar _ => Err (EMsg "object ended with delimiter")
        end
  end
with walkArray (fuel : nat) (depth : Z) (d : decoder) : result decoder :=
  match fuel with
  | O => Err outOfFuel
  | S f =>
      if More d then d ← walkValue f (depth + 1) d; walkArray f depth d
      else
        '(t, d) ← Token d;
        match t with
        | Delim c => if c =? 93 then Ok d else Err (EMsg "array ended with delimiter")
        | Scalar _ => Err (EMsg "array ended with delimiter")
        end
  end.

(** [inspectObjectNames].  One unit of fuel per container, member or element,
    and one for each closing bracket, is enough ([walk_specs]). *)
Definition inspectObjectNames (input : bytes) : result () :=
  if bool_decide (to_bytes (Strings.trim_space (to_string input)) = []) then Ok ()
  else match walkValue (S (S (2 * length input))) 1 (mkDecoder input tokenTopValue []) with
       | Ok _ => Ok ()
       | Err e => Err (EMsg ("inspect JSON object members: " ++ errText e))
       end.

End walk.

Definition RejectDuplicateObjectNames : bytes → result () := inspectObjectNames false.
Definition ValidateManifestObjectNames : bytes → result () := inspectObjectNames true.

(** ** What the walk accepts, on the parsed value *)

Section spec.
Context (canonical : bool).

Fixpoint names_ok (depth : Z) (v : json) : bool :=
  (depth <=? maxJSONDepth) &&
  match v with
  | JArr l => forallb (names_ok (depth + 1)) l
  | JObj m =>
      bool_decide (NoDup (m.*1))
      && forallb (λ '(k, x), (negb canonical || isCanonicalManifestName k) && names_ok (depth + 1) x) m
  | _ => true
  end.

End spec.

(** ** Equivalence *)

Definition fails {A} (r : result A) : Prop := ∃ e, r = Err e.

Lemma fails_bind {A B} (m : result A) (f : A → result B) : fails m → fails (m ≫= f).
Proof. intros [e ->]. by exists e. Qed.
Lemma fails_Err {A} e : fails (Err e : result A).
Proof. by exists e. Qed.
#[local] Hint Resolve fails_Err : core.

(** Where the next value starts: at once, or after the separator that the
    state asks for. *)
Inductive value_at : tokenState → bytes → tokenState → bytes → Prop :=
| at_value s b : tokenValueAllowed s = true → (s = tokenArrayStart → more b = true) → value_at s b s b
| at_comma b r c : skip_ws b = c :: r → zb c = 44 → value_at tokenArrayComma b tokenArrayValue r
| at_colon b r c : skip_ws b = c :: r → zb c = 58 → value_at tokenObjectColon b tokenObjectValue r.

(** [Token] at a value: an opening bracket, or a scalar. *)
Definition tokenValue (s : tokenState) (b : bytes) (st : list tokenState) : result (token * decoder) :=
  match skip_ws b with
  | [] => Err (EOS EOF)
  | c :: r =>
      if zb c =? 91 then Ok (Delim 91, mkDecoder r tokenArrayStart (s :: st))
      else if zb c =? 123 then Ok (Delim 123, mkDecoder r tokenObjectStart (s :: st))
      else '(v, rest) ← parse_scalar (c :: r); Ok (Scalar v, mkDecoder rest (tokenValueEnd s) st)
  end.

(** A byte that cannot start a scalar. *)
Lemma parse_scalar_punct c r :
  zb c = 93 ∨ zb c = 125 ∨ zb c = 58 ∨ zb c = 44 → fails (parse_scalar (c :: r)).
Proof.
  intros Hc. unfold parse_scalar, Strings.is_digit.
  destruct Hc as [-> |[-> |[-> | ->]]]; cbn; by eexists.
Qed.

(** Equal outcomes up to the error reported. *)
Definition agree {A} (x y : result A) : Prop := x = y ∨ (fails x ∧ fails y).

Lemma agree_refl {A} (x : result A) : agree x x.
Proof. by left. Qed.
Lemma agree_fails {A} (x y : result A) : fails x → fails y → agree x y.
Proof. by right. Qed.

Lemma TokenLoop_value s b st f :
  tokenValueAllowed s = true → (s = tokenArrayStart → more b = true) →
  agree (TokenLoop (S f) (mkDecoder b s st)) (tokenValue s b st).
Proof.
  intros Hs Hmore. cbn [TokenLoop buf state stack]. unfold tokenValue, open_, close_. cbn [state stack].
  unfold more in Hmore. destruct (skip_ws b) as [|c r]; [apply agree_refl|]. rewrite Hs.
  destruct (zb c =? 91) eqn:H1; [apply agree_refl|].
  assert (zb c = 93 ∨ zb c = 125 ∨ zb c = 58 ∨ zb c = 44 →
    fails (if zb c =? 123 then Ok (Delim 123, mkDecoder r tokenObjectStart (s :: st)) else
      '(v, rest) ← parse_scalar (c :: r); Ok (Scalar v, mkDecoder rest (tokenValueEnd s) st))) as Hp.
  { intros Hc. rewrite (proj2 (Z.eqb_neq (zb c) 123)) by lia. by apply fails_bind, parse_scalar_punct. }
  destruct (zb c =? 93) eqn:H2; zbool.
  { apply agree_fails; [|by apply Hp; auto]. rewrite H2 in Hmore.
    destruct s; try done; cbn; try by eexists. by specialize (Hmore eq_refl). }
  destruct (zb c =? 123) eqn:H3; [apply agree_refl|].
  destruct (zb c =? 125) eqn:H4; zbool.
  { apply agree_fails; [|by apply Hp; auto]. destruct s; try done; cbn; by eexists. }
  destruct (zb c =? 58) eqn:H5; zbool.
  { apply agree_fails; [|by apply Hp; auto]. destruct s; try done; cbn; by eexists. }
  destruct (zb c =? 44) eqn:H6; zbool.
  { apply agree_fails; [|by apply Hp; auto]. destruct s; try done; cbn; by eexists. }
  replace ((zb c =? 34) && _) with false; [apply agree_refl|].
  symmetry. apply andb_false_iff. right. by destruct s.
Qed.

Lemma TokenLoop_comma b c r f s s' st :
  skip_ws b = c :: r → zb c = 44 →
  (s = tokenArrayComma ∧ s' = tokenArrayValue ∨ s = tokenObjectComma ∧ s' = tokenObjectKey) →
  TokenLoop (S f) (mkDecoder b s st) = TokenLoop f (mkDecoder r s' st).
Proof.
  intros Hb Hc Hs. cbn [TokenLoop buf state stack]. rewrite Hb, Hc.
  by destruct Hs as [[-> ->]|[-> ->]].
Qed.

Lemma TokenLoop_colon b c r f st :
  skip_ws b = c :: r → zb c = 58 →
  TokenLoop (S f) (mkDecoder b tokenObjectColon st) = TokenLoop f (mkDecoder r tokenObjectValue st).
Proof. intros Hb Hc. cbn [TokenLoop buf state stack]. by rewrite Hb, Hc. Qed.

(** At a value, [Token] skips the separator and reads the value's first
    token. *)
Lemma Token_value s b s' b' st :
  value_at s b s' b' → agree (Token (mkDecoder b s st)) (tokenValue s' b' st).
Proof.
  unfold Token. intros [s0 b0 Hs Hm|b0 r c Hb Hc|b0 r c Hb Hc]; [by apply TokenLoop_value|..];
    pose proof (skip_ws_length b0) as Hl; rewrite Hb in Hl; (destruct b0 as [|x b0]; [done|]);
    [rewrite (TokenLoop_comma _ c r _ _ tokenArrayValue) by auto|rewrite (TokenLoop_colon _ c r) by done];
    by apply TokenLoop_value.
Qed.

(** [Token] at a member name. *)
Definition tokenName (b : bytes) (st : list tokenState) : result (token * decoder) :=
  match skip_ws b with
  | [] => Err (EOS EOF)
  | c :: r =>
      if zb c =? 34 then
        '(s, rest) ← parse_string r; Ok (Scalar (JStr s), mkDecoder rest tokenObjectColon st)
      else syntaxError
  end.

Lemma TokenLoop_name s b st f :
  s = tokenObjectStart ∧ more b = true ∨ s = tokenObjectKey →
  agree (TokenLoop (S f) (mkDecoder b s st)) (tokenName b st).
Proof.
  intros Hs. cbn [TokenLoop buf state stack]. unfold tokenName, open_, close_. cbn [state stack].
  unfold more in Hs. destruct (skip_ws b) as [|c r]; [apply agree_refl|].
  destruct (zb c =? 34) eqn:H0.
  { zbool. rewrite H0. cbn. replace (_ || _) with true by (by destruct Hs as [[-> _]| ->]). apply agree_refl. }
  apply agree_fails; [|by eexists].
  destruct Hs as [[-> Hm]| ->]; cbn in *; repeat (case_match; try done; try by eexists); zbool; try done; lia.
Qed.

Lemma Token_name s b b' st :
  s = tokenObjectStart ∧ more b = true ∧ b' = b ∨
  s = tokenObjectComma ∧ (∃ c, skip_ws b = c :: b' ∧ zb c = 44) →
  agree (Token (mkDecoder b s st)) (tokenName b' st).
Proof.
  unfold Token. intros [(-> & Hm & ->)|(-> & c & Hb & Hc)].
  - apply TokenLoop_name. by left.
  - pose proof (skip_ws_length b) as Hl. rewrite Hb in Hl. destruct b as [|x b]; [done|].
    rewrite (TokenLoop_comma _ c b' _ _ tokenObjectKey) by auto. apply TokenLoop_name. by right.
Qed.

(** [Token] at a closing bracket. *)
Lemma Token_close b c r s s0 st :
  skip_ws b = c :: r →
  (zb c = 93 ∧ (s = tokenArrayStart ∨ s = tokenArrayComma) ∨
   zb c = 125 ∧ (s = tokenObjectStart ∨ s = tokenObjectComma)) →
  Token (mkDecoder b s (s0 :: st)) = Ok (Delim (zb c), mkDecoder r (tokenValueEnd s0) st).
Proof.
  intros Hb Hs. unfold Token. cbn [TokenLoop buf state stack]. rewrite Hb.
  destruct Hs as [[-> [-> | ->]]|[-> [-> | ->]]]; reflexivity.
Qed.

(** [Token] after a value or a name, at a byte that is neither the separator
    nor the closing bracket the state allows. *)
Lemma Token_bad b c r s st :
  skip_ws b = c :: r →
  (s = tokenArrayComma ∧ zb c ≠ 44 ∧ zb c ≠ 93 ∨ s = tokenObjectComma ∧ zb c ≠ 44 ∧ zb c ≠ 125 ∨
   s = tokenObjectColon ∧ zb c ≠ 58 ∨ s = tokenArrayStart ∧ zb c = 125 ∨ s = tokenObjectStart ∧ zb c = 93) →
  fails (Token (mkDecoder b s st)).
Proof.
  intros Hb Hs. unfold Token. cbn [TokenLoop buf state stack]. unfold open_, close_. rewrite Hb.
  destruct Hs as [(-> & H1 & H2)|[(-> & H1 & H2)|[(-> & H1)|[(-> & H1)|(-> & H1)]]]];
    rewrite ?H1; cbn; try by eexists; repeat (case_match; zbool; try done; try by eexists).
  all: repeat (case_match; zbool; try done; try by eexists).
Qed.

Lemma Token_eof b s st : skip_ws b = [] → fails (Token (mkDecoder b s st)).
Proof. intros Hb. unfold Token. cbn [TokenLoop buf]. rewrite Hb. by eexists. Qed.

(** What a walk must do, given what the parser does: succeed, leaving the
    decoder after the value, exactly when the parse succeeds and the value
    passes the check. *)
Definition expect {A} (p : result (A * bytes)) (ok : A → bool) (w : result decoder)
    (after : bytes → decoder) : Prop :=
  match p with
  | Ok (v, rest) => if ok v then w = Ok (after rest) else fails w
  | Err _ => fails w
  end.

Lemma expect_fails {A} (p : result (A * bytes)) ok w after :
  fails w → (∀ v rest, p = Ok (v, rest) → ok v = false) → expect p ok w after.
Proof. intros Hw Hp. destruct p as [[v rest]|e]; cbn; [by rewrite (Hp v rest)|done]. Qed.

Lemma expect_Err {A} (p : result (A * bytes)) ok w after : fails w → fails p → expect p ok w after.
Proof. intros Hw [e ->]. done. Qed.

Section equiv.
Context (canonical : bool).

(** The members of an object, with the names seen before them. *)
Fixpoint members_ok (depth : Z) (seen : list string) (m : list (string * json)) : bool :=
  match m with
  | [] => true
  | (k, x) :: r =>
      (negb canonical || isCanonicalManifestName k) && negb (bool_decide (k ∈ seen))
      && names_ok canonical (depth + 1) x && members_ok depth (k :: seen) r
  end.

Lemma members_ok_iff depth m : ∀ seen,
  members_ok depth seen m = true ↔
  NoDup m.*1 ∧ (∀ k, k ∈ m.*1 → k ∉ seen) ∧
  forallb (λ '(k, x), (negb canonical || isCanonicalManifestName k) && names_ok canonical (depth + 1) x) m = true.
Proof.
  induction m as [|[k x] m IH]; intros seen; cbn [members_ok forallb].
  - split; [intros _; split_and!; [constructor|by intros k ?%elem_of_nil|done]|done].
  - rewrite !andb_true_iff, IH, negb_true_iff, bool_decide_eq_false, fmap_cons, list.NoDup_cons. cbn [fst].
    setoid_rewrite not_elem_of_cons. setoid_rewrite elem_of_cons. split.
    + intros (((H1 & H2) & H3) & H4 & H5 & H6). split_and!; try done.
      * intros Hk. by destruct (H5 k Hk) as [? _].
      * intros y [-> |Hy]; [done|by apply H5].
    + intros ((H1 & H2) & H3 & (H4 & H5) & H6). split_and!; try done; [by apply H3; left|].
      intros y Hy. split; [by intros ->|by apply H3; right].
Qed.

Lemma members_ok_nil depth m :
  members_ok depth [] m =
  bool_decide (NoDup m.*1)
  && forallb (λ '(k, x), (negb canonical || isCanonicalManifestName k) && names_ok canonical (depth + 1) x) m.
Proof.
  apply Bool.eq_iff_eq_true. rewrite members_ok_iff, andb_true_iff, bool_decide_eq_true.
  split; [naive_solver|]. intros [? ?]. split_and!; try done. by intros k _ ?%elem_of_nil.
Qed.

Lemma parse_scalar_names b v rest depth :
  parse_scalar b = Ok (v, rest) → names_ok canonical depth v = (depth <=? maxJSONDepth).
Proof.
  destruct b as [|c r]; [done|]. unfold parse_scalar, lex_literal.
  repeat case_match; try done;
    first [ intros (? & ? & _ & [= <- _])%bind_pair_Ok | intros [= <- _] ]; cbn; apply andb_true_r.
Qed.

(** Where the next element of an array, or member of an object, starts. *)
Definition elem_at (start comma : tokenState) (s : tokenState) (b b' : bytes) : Prop :=
  s = start ∧ more b = true ∧ b' = b ∨ s = comma ∧ ∃ c, skip_ws b = c :: b' ∧ zb c = 44.

Lemma elem_more start comma s b b' : elem_at start comma s b b' → more b = true.
Proof. intros [(_ & ? & _)|(_ & c & Hb & Hc)]; [done|]. unfold more. by rewrite Hb, Hc. Qed.

Definition value_spec (f : nat) : Prop := ∀ depth b s b' s' st,
  1 ≤ depth → value_at s b s' b' → (2 * length b' < f)%nat →
  expect (parse_value f (depth - 1) b') (names_ok canonical depth)
    (walkValue canonical (S f) depth (mkDecoder b s st)) (λ rest, mkDecoder rest (tokenValueEnd s') st).

Definition elems_spec (f : nat) : Prop := ∀ depth b b' s s0 st,
  1 ≤ depth → elem_at tokenArrayStart tokenArrayComma s b b' → (2 * length b' + 1 < f)%nat →
  expect (parse_elems f depth b') (forallb (names_ok canonical (depth + 1)))
    (walkArray canonical (S f) depth (mkDecoder b s (s0 :: st)))
    (λ rest, mkDecoder rest (tokenValueEnd s0) st).

Definition members_spec (f : nat) : Prop := ∀ depth seen b b' s s0 st,
  1 ≤ depth → elem_at tokenObjectStart tokenObjectComma s b b' → (2 * length b' + 1 < f)%nat →
  expect (parse_members f depth b') (members_ok depth seen)
    (walkObject canonical (S f) depth seen (mkDecoder b s (s0 :: st)))
    (λ rest, mkDecoder rest (tokenValueEnd s0) st).

(** A container that ends, or ends wrongly, before its first element. *)
Lemma walkArray_end f depth b s st :
  more b = false →
  walkArray canonical (S f) depth (mkDecoder b s st) =
    ('(t, d) ← Token (mkDecoder b s st);
     match t with
     | Delim c => if c =? 93 then Ok d else Err (EMsg "array ended with delimiter")
     | Scalar _ => Err (EMsg "array ended with delimiter")
     end).
Proof. intros Hm. cbn [walkArray]. unfold More. cbn [buf]. by rewrite Hm. Qed.

Lemma walkObject_end f depth seen b s st :
  more b = false →
  walkObject canonical (S f) depth seen (mkDecoder b s st) =
    ('(t, d) ← Token (mkDecoder b s st);
     match t with
     | Delim c => if c =? 125 then Ok d else Err (EMsg "object ended with delimiter")
     | Scalar _ => Err (EMsg "object ended with delimiter")
     end).
Proof. intros Hm. cbn [walkObject]. unfold More. cbn [buf]. by rewrite Hm. Qed.

(** After an element: a separator and the next one, the closing bracket, or an
    error. *)
Lemma elems_rest f depth v rest s0 st :
  elems_spec f → 1 ≤ depth → (2 * length rest ≤ f)%nat →
  names_ok canonical (depth + 1) v = true →
  expect (match skip_ws rest with
          | c :: r => if zb c =? 44 then '(l, rest) ← parse_elems f depth r; Ok (v :: l, rest)
                      else if zb c =? 93 then Ok ([v], r) else syntaxError
          | [] => Err (EOS EOF)
          end)
    (forallb (names_ok canonical (depth + 1)))
    (walkArray canonical (S f) depth (mkDecoder rest tokenArrayComma (s0 :: st)))
    (λ rest, mkDecoder rest (tokenValueEnd s0) st).
Proof.
  intros IH Hd Hl Hv. pose proof (skip_ws_length rest) as Hs.
  assert (more rest = false → fails (Token (mkDecoder rest tokenArrayComma (s0 :: st))) →
    fails (walkArray canonical (S f) depth (mkDecoder rest tokenArrayComma (s0 :: st)))) as Hfail.
  { intros Hm Ht. rewrite walkArray_end by done. by apply fails_bind. }
  destruct (skip_ws rest) as [|c r] eqn:Hr.
  { apply Hfail; [unfold more; by rewrite Hr|by apply Token_eof]. }
  destruct (zb c =? 44) eqn:H1; zbool.
  { specialize (IH depth rest r tokenArrayComma s0 st Hd). cbn [length] in Hs.
    destruct (parse_elems f depth r) as [[l rest']|e]; cbn in *; rewrite ?Hv; apply IH; try lia;
      right; eauto. }
  destruct (zb c =? 93) eqn:H2; zbool.
  { unfold expect. cbn [forallb]. rewrite Hv. cbn [andb].
    rewrite walkArray_end by (unfold more; by rewrite Hr, H2).
    rewrite (Token_close rest c r) by auto. rewrite H2. done. }
  destruct (more rest) eqn:Hm.
  - cbn [walkArray]. unfold More. cbn [buf]. rewrite Hm. apply fails_bind.
    destruct f; [by eexists|]. cbn [walkValue]. case_match; [by eexists|]. apply fails_bind.
    eapply Token_bad; [exact Hr|]. left. by split_and!.
  - apply Hfail; [done|]. eapply Token_bad; [exact Hr|]. left. by split_and!.
Qed.

Lemma members_rest f depth seen k v rest s0 st :
  members_spec f → 1 ≤ depth → (2 * length rest ≤ f)%nat →
  members_ok depth seen [(k, v)] = true →
  expect (match skip_ws rest with
          | c :: r => if zb c =? 44 then '(m, rest) ← parse_members f depth r; Ok ((k, v) :: m, rest)
                      else if zb c =? 125 then Ok ([(k, v)], r) else syntaxError
          | [] => Err (EOS EOF)
          end)
    (members_ok depth seen)
    (walkObject canonical (S f) depth (k :: seen) (mkDecoder rest tokenObjectComma (s0 :: st)))
    (λ rest, mkDecoder rest (tokenValueEnd s0) st).
Proof.
  intros IH Hd Hl Hv. pose proof (skip_ws_length rest) as Hs.
  assert (∀ m, members_ok depth seen ((k, v) :: m) = members_ok depth (k :: seen) m) as Hcons.
  { intros m. cbn [members_ok] in *. rewrite andb_true_r in Hv. by rewrite Hv. }
  assert (more rest = false → fails (Token (mkDecoder rest tokenObjectComma (s0 :: st))) →
    fails (walkObject canonical (S f) depth (k :: seen) (mkDecoder rest tokenObjectComma (s0 :: st)))) as Hfail.
  { intros Hm Ht. rewrite walkObject_end by done. by apply fails_bind. }
  destruct (skip_ws rest) as [|c r] eqn:Hr.
  { apply Hfail; [unfold more; by rewrite Hr|by apply Token_eof]. }
  destruct (zb c =? 44) eqn:H1; zbool.
  { specialize (IH depth (k :: seen) rest r tokenObjectComma s0 st Hd). cbn [length] in Hs.
    unfold expect in *. destruct (parse_members f depth r) as [[l rest']|e]; cbn [mbind result_bind];
      rewrite ?Hcons; apply IH; try lia; right; eauto. }
  destruct (zb c =? 125) eqn:H2; zbool.
  { unfold expect. rewrite Hv. rewrite walkObject_end by (unfold more; by rewrite Hr, H2).
    rewrite (Token_close rest c r) by auto. rewrite H2. done. }
  assert (fails (Token (mkDecoder rest tokenObjectComma (s0 :: st)))) as Ht.
  { eapply Token_bad; [exact Hr|]. right. left. by split_and!. }
  destruct (more rest) eqn:Hm; [|by apply Hfail].
  cbn [walkObject]. unfold More. cbn [buf]. rewrite Hm. by apply fails_bind.
Qed.

Lemma elems_step f : value_spec f → elems_spec f → elems_spec (S f).
Proof.
  intros IHv IHe depth b b' s s0 st Hd He Hl. cbn [parse_elems].
  pose proof (elem_more _ _ _ _ _ He) as Hm.
  assert (walkArray canonical (S (S f)) depth (mkDecoder b s (s0 :: st)) =
    (d ← walkValue canonical (S f) (depth + 1) (mkDecoder b s (s0 :: st)); walkArray canonical (S f) depth d))
    as ->.
  { cbn [walkArray]. unfold More. cbn [buf]. by rewrite Hm. }
  assert (∃ s', value_at s b s' b' ∧ tokenValueEnd s' = tokenArrayComma) as (s' & Hat & Hend).
  { destruct He as [(-> & _ & ->)|(-> & c & Hb & Hc)].
    - exists tokenArrayStart. split; [by apply at_value|done].
    - exists tokenArrayValue. split; [by eapply at_comma|done]. }
  specialize (IHv (depth + 1) b s b' s' (s0 :: st) ltac:(lia) Hat ltac:(lia)).
  rewrite Z.add_simpl_r in IHv. destruct (parse_value f depth b') as [[v rest]|e] eqn:Hp.
  - unfold expect in IHv. destruct (names_ok canonical (depth + 1) v) eqn:Hv.
    + rewrite IHv, Hend. cbn [mbind result_bind]. apply elems_rest; try done.
      apply (proj1 (parse_consumes f)) in Hp. lia.
    + apply expect_fails; [by apply fails_bind|]. intros l r Hok. cbn [mbind result_bind] in Hok.
      repeat case_match; try done; [apply bind_pair_Ok in Hok as (? & ? & _ & [= <- _])|injection Hok as <- _];
        cbn [forallb]; by rewrite Hv.
  - apply fails_bind. exact IHv.
Qed.

Lemma members_step f : value_spec f → members_spec f → members_spec (S f).
Proof.
  intros IHv IHm depth seen b b' s s0 st Hd He Hl. cbn [parse_members].
  pose proof (elem_more _ _ _ _ _ He) as Hm.
  assert (agree (Token (mkDecoder b s (s0 :: st))) (tokenName b' (s0 :: st))) as Hag.
  { apply Token_name. exact He. }
  unfold tokenName in Hag.
  remember (walkObject canonical (S (S f)) depth seen (mkDecoder b s (s0 :: st))) as w eqn:Hw.
  cbn [walkObject] in Hw. unfold More in Hw. cbn [buf] in Hw. rewrite Hm in Hw.
  assert (fails (Token (mkDecoder b s (s0 :: st))) → fails w) as Hfail
    by (intros; subst w; by apply fails_bind).
  pose proof (skip_ws_length b') as Hlb. destruct (skip_ws b') as [|q r].
  { apply Hfail. by destruct Hag as [->|[? _]]. }
  cbn [length] in Hlb. destruct (zb q =? 34); cbn [negb]; cycle 1.
  { apply Hfail. destruct Hag as [->|[? _]]; [by eexists|done]. }
  destruct (parse_string r) as [[k rest]|e] eqn:Hk; cycle 1.
  { apply Hfail. destruct Hag as [->|[? _]]; [by eexists|done]. }
  apply parse_string_consumes in Hk. cbn [mbind result_bind] in *.
  destruct Hag as [Htok|[_ [e [=]]]]. rewrite Htok in Hw. clear Htok Hfail. cbn [mbind result_bind] in Hw.
  match goal with |- expect ?pm _ _ _ => set (p := pm) end.
  assert (∀ m r', p = Ok (m, r') → ∃ v m', m = (k, v) :: m') as Hshape.
  { unfold p. clear Hw. intros m r' Hok. repeat case_match; try done. apply bind_pair_Ok in Hok as (v & r2 & _ & Hok).
    repeat case_match; try done; [apply bind_pair_Ok in Hok as (? & ? & _ & [= <- _])|injection Hok as <- _]; eauto. }
  destruct (canonical && negb (isCanonicalManifestName k)) eqn:Hc.
  { subst w. apply expect_fails; [by eexists|]. intros m r' (v & m' & ->)%Hshape. cbn [members_ok].
    destruct canonical; [|done]. cbn in *. by destruct (isCanonicalManifestName k). }
  destruct (bool_decide (k ∈ seen)) eqn:Hseen.
  { subst w. apply expect_fails; [by eexists|]. intros m r' (v & m' & ->)%Hshape. cbn [members_ok].
    rewrite Hseen. cbn. by rewrite andb_false_r. }
  assert (∀ v m, members_ok depth seen ((k, v) :: m) =
    names_ok canonical (depth + 1) v && members_ok depth (k :: seen) m) as Hcons.
  { intros v m. cbn [members_ok]. rewrite Hseen. destruct canonical; [|done]. cbn in *.
    by destruct (isCanonicalManifestName k). }
  unfold p in *. clear p. pose proof (skip_ws_length rest) as Hlr.
  assert (∀ c r2, skip_ws rest = c :: r2 → zb c = 58 → value_at tokenObjectColon rest tokenObjectValue r2)
    as Hat by (intros; by eapply at_colon).
  assert (fails (Token (mkDecoder rest tokenObjectColon (s0 :: st))) → fails w) as Hfail.
  { intros Ht. subst w. apply fails_bind. cbn [walkValue].
    destruct (maxJSONDepth <? depth + 1); [by eexists|]. by apply fails_bind. }
  destruct (skip_ws rest) as [|c r2] eqn:Hr; [by apply Hfail, Token_eof|]. cbn [length] in Hlr.
  destruct (zb c =? 58) eqn:Hcol; zbool; cbn [negb]; cycle 1.
  { apply Hfail. eapply Token_bad; [exact Hr|]. do 2 right. left. done. }
  specialize (IHv (depth + 1) rest tokenObjectColon r2 tokenObjectValue (s0 :: st) ltac:(lia)
    (Hat c r2 eq_refl Hcol) ltac:(lia)). rewrite Z.add_simpl_r in IHv.
  destruct (parse_value f depth r2) as [[v rest2]|e] eqn:Hp; cycle 1.
  { subst w. by apply fails_bind. }
  unfold expect in IHv. destruct (names_ok canonical (depth + 1) v) eqn:Hv; cycle 1.
  { subst w. apply expect_fails; [by apply fails_bind|]. intros m r' Hm'.
    pose proof (Hshape m r' Hm') as (v' & m' & ->). rewrite Hcons. cbn [mbind result_bind] in Hm'.
    clear IHv IHm Hfail. repeat case_match; try done;
      [apply bind_pair_Ok in Hm' as (? & ? & _ & [= <- _ _])|injection Hm' as <- _ _]; by rewrite Hv. }
  subst w. rewrite IHv. cbn [mbind result_bind]. apply members_rest; [done..| |].
  - apply (proj1 (parse_consumes f)) in Hp. lia.
  - by rewrite Hcons, Hv.
Qed.

(** The walk of a container whose opening bracket has been read. *)
Lemma walk_array f depth r s' st :
  elems_spec f → 1 ≤ depth ≤ maxJSONDepth → (2 * length r + 1 < f)%nat →
  expect (match skip_ws r with
          | c' :: r' => if zb c' =? 93 then Ok (JArr [], r')
                        else '(l, rest) ← parse_elems f depth r; Ok (JArr l, rest)
          | [] => Err (EOS EOF)
          end) (names_ok canonical depth)
    (walkArray canonical (S f) depth (mkDecoder r tokenArrayStart (s' :: st)))
    (λ rest, mkDecoder rest (tokenValueEnd s') st).
Proof.
  intros IH [Hd Hmax] Hl.
  assert (more r = false → fails (Token (mkDecoder r tokenArrayStart (s' :: st))) →
    fails (walkArray canonical (S f) depth (mkDecoder r tokenArrayStart (s' :: st)))) as Hfail.
  { intros Hm Ht. rewrite walkArray_end by done. by apply fails_bind. }
  destruct (skip_ws r) as [|c r'] eqn:Hr.
  { apply Hfail; [unfold more; by rewrite Hr|by apply Token_eof]. }
  destruct (zb c =? 93) eqn:H1; zbool.
  { unfold expect. cbn [names_ok forallb]. rewrite (proj2 (Z.leb_le _ _) Hmax). cbn [andb].
    rewrite walkArray_end by (unfold more; by rewrite Hr, H1).
    rewrite (Token_close r c r') by auto. by rewrite H1. }
  destruct (more r) eqn:Hm.
  - specialize (IH depth r r tokenArrayStart s' st Hd ltac:(by left) Hl). unfold expect in *.
    destruct (parse_elems f depth r) as [[l rest]|e]; [|exact IH]. cbn [mbind result_bind names_ok].
    by rewrite (proj2 (Z.leb_le _ _) Hmax).
  - assert (zb c = 125) as Hc.
    { unfold more in Hm. rewrite Hr in Hm. apply negb_false_iff, orb_true_iff in Hm as [Hm|Hm]; zbool; done. }
    apply expect_Err.
    + apply Hfail; [done|]. eapply Token_bad; [exact Hr|]. do 3 right. left. done.
    + apply fails_bind. destruct f as [|[|f]]; [by eexists..|]. cbn [parse_elems parse_value].
      apply fails_bind. rewrite Hr, Hc. cbn. apply parse_scalar_punct. auto.
Qed.

Lemma walk_object f depth r s' st :
  members_spec f → 1 ≤ depth ≤ maxJSONDepth → (2 * length r + 1 < f)%nat →
  expect (match skip_ws r with
          | c' :: r' => if zb c' =? 125 then Ok (JObj [], r')
                        else '(m, rest) ← parse_members f depth r; Ok (JObj m, rest)
          | [] => Err (EOS EOF)
          end) (names_ok canonical depth)
    (walkObject canonical (S f) depth [] (mkDecoder r tokenObjectStart (s' :: st)))
    (λ rest, mkDecoder rest (tokenValueEnd s') st).
Proof.
  intros IH [Hd Hmax] Hl.
  assert (more r = false → fails (Token (mkDecoder r tokenObjectStart (s' :: st))) →
    fails (walkObject canonical (S f) depth [] (mkDecoder r tokenObjectStart (s' :: st)))) as Hfail.
  { intros Hm Ht. rewrite walkObject_end by done. by apply fails_bind. }
  destruct (skip_ws r) as [|c r'] eqn:Hr.
  { apply Hfail; [unfold more; by rewrite Hr|by apply Token_eof]. }
  destruct (zb c =? 125) eqn:H1; zbool.
  { unfold expect. cbn [names_ok forallb]. rewrite (proj2 (Z.leb_le _ _) Hmax).
    rewrite walkObject_end by (unfold more; by rewrite Hr, H1).
    rewrite (Token_close r c r') by auto. by rewrite H1. }
  destruct (more r) eqn:Hm.
  - specialize (IH depth [] r r tokenObjectStart s' st Hd ltac:(by left) Hl). unfold expect in *.
    destruct (parse_members f depth r) as [[m rest]|e]; [|exact IH]. cbn [mbind result_bind names_ok].
    rewrite (proj2 (Z.leb_le _ _) Hmax). cbn [andb]. by rewrite <- members_ok_nil.
  - assert (zb c = 93) as Hc.
    { unfold more in Hm. rewrite Hr in Hm. apply negb_false_iff, orb_true_iff in Hm as [Hm|Hm]; zbool; done. }
    apply expect_Err.
    + apply Hfail; [done|]. eapply Token_bad; [exact Hr|]. do 4 right. done.
    + apply fails_bind. destruct f as [|f]; [by eexists|]. cbn [parse_members]. rewrite Hr, Hc. by eexists.
Qed.

Lemma value_step f : elems_spec f → members_spec f → value_spec (S f).
Proof.
  intros IHe IHm depth b s b' s' st Hd Hat Hl. cbn [parse_value walkValue].
  destruct (maxJSONDepth <? depth) eqn:Hmax.
  { apply expect_fails; [by eexists|]. intros v rest _. zbool.
    destruct v; cbn; by rewrite (proj2 (Z.leb_gt _ _)). }
  zbool. pose proof (Token_value s b s' b' st Hat) as Hag. unfold tokenValue in Hag.
  pose proof (skip_ws_length b') as Hlb.
  assert ((maxNestingDepth <=? depth - 1) = false) as Hnest.
  { unfold maxNestingDepth, maxJSONDepth in *. apply Z.leb_gt. lia. }
  rewrite Hnest, Z.sub_add. destruct (skip_ws b') as [|c r].
  { apply expect_Err; [|by eexists]. apply fails_bind. destruct Hag as [-> |[? _]]; [by eexists|done]. }
  cbn [length] in Hlb. destruct (zb c =? 91) eqn:H1; zbool.
  { destruct Hag as [-> |[_ [e [=]]]]. rewrite (proj2 (Z.eqb_neq (zb c) 123)) by lia.
    cbn -[walkArray walkObject parse_elems]. apply walk_array; [done|lia..]. }
  destruct (zb c =? 123) eqn:H2; zbool.
  { destruct Hag as [-> |[_ [e [=]]]].
    cbn -[walkArray walkObject parse_members]. apply walk_object; [done|lia..]. }
  destruct (parse_scalar (c :: r)) as [[v rest]|e] eqn:Hs.
  - destruct Hag as [-> |[_ [e [=]]]]. cbn -[names_ok]. rewrite (parse_scalar_names _ _ _ _ Hs).
    by rewrite (proj2 (Z.leb_le _ _) Hmax).
  - apply fails_bind. destruct Hag as [-> |[? _]]; [by eexists|done].
Qed.

Lemma walk_specs f : value_spec f ∧ elems_spec f ∧ members_spec f.
Proof.
  induction f as [|f (IHv & IHe & IHm)].
  - split_and!; unfold value_spec, elems_spec, members_spec; intros; lia.
  - split_and!; [by apply value_step|by apply elems_step|by apply members_step].
Qed.

Lemma inspect_iff input :
  inspectObjectNames canonical input = Ok () ↔
  to_bytes (Strings.trim_space (to_string input)) = [] ∨
  ∃ v rest, parse input = Ok (v, rest) ∧ names_ok canonical 1 v = true.
Proof.
  unfold inspectObjectNames. case_bool_decide as He; [by split; [left|]|].
  pose proof (proj1 (walk_specs (S (2 * length input))) 1 input tokenTopValue input tokenTopValue [] ltac:(lia)
    ltac:(by apply at_value) ltac:(lia)) as Hw. change (1 - 1) with 0 in Hw. fold (parse input) in Hw.
  unfold expect in Hw. destruct (parse input) as [[v rest]|e].
  - destruct (names_ok canonical 1 v) eqn:Hn.
    + rewrite Hw. split; [intros _; right; eauto|done].
    + destruct Hw as [e ->]. split; [done|]. intros [?|(v' & r' & [= <- <-] & Hn')]; [done|congruence].
  - destruct Hw as [e' ->]. split; [done|]. by intros [?|(v' & r' & [=] & _)].
Qed.

End equiv.

(** C16: the streaming preflight decides what it says.  Its token-by-token walk
    accepts an input exactly when the input is blank or starts with a JSON value
    no deeper than the limit in which no object repeats a name; the manifest
    variant also requires every name to be canonical.  The walk never runs out
    of fuel and never disagrees with the decoder about where the value ends. *)
Theorem preflight_exact input :
  (RejectDuplicateObjectNames input = Ok () ↔
   to_bytes (Strings.trim_space (to_string input)) = [] ∨
   ∃ v rest, parse input = Ok (v, rest) ∧ names_ok false 1 v = true) ∧
  (ValidateManifestObjectNames input = Ok () ↔
   to_bytes (Strings.trim_space (to_string input)) = [] ∨
   ∃ v rest, parse input = Ok (v, rest) ∧ names_ok true 1 v = true).
Proof. split; apply inspect_iff. Qed.

End StrictJson.
