(* ===== verification/Time.v ===== *)
(** * Go's time package

    UTC instants, the civil calendar, [Format(time.RFC3339Nano)] and
    [time.Parse] of RFC 3339, as the host's timestamps use them. *)

From S2P Require Import Prelude GoStd.

Module Time.

(** A [time.Time] in UTC: nanoseconds since 0001-01-01T00:00:00Z, the zero
    value.  A [time.Duration] is a number of nanoseconds. *)
Definition Time : Type := Z.
Definition Duration : Type := Z.

Definition Nanosecond : Duration := 1.
Definition Second : Duration := 1000000000.
Definition Minute : Duration := 60 * Second.
Definition Hour : Duration := 60 * Minute.

Definition IsZero (t : Time) : bool := t =? 0.
Definition Add (t : Time) (d : Duration) : Time := t + d.
Definition Before (t u : Time) : bool := t <? u.
Definition After (t u : Time) : bool := u <? t.

Definition secondsPerDay : Z := 86400.

(** ** The calendar *)

Definition isLeap (y : Z) : bool := (y mod 4 =? 0) && (negb (y mod 100 =? 0) || (y mod 400 =? 0)).
Definition daysIn (m y : Z) : Z :=
  if m =? 2 then if isLeap y then 29 else 28
  else if (m =? 4) || (m =? 6) || (m =? 9) || (m =? 11) then 30 else 31.

(** Days from 0000-03-01 to a date; the year starts in March, so the leap day
    is its last. *)
Definition days_of (y m d : Z) : Z :=
  let y' := if m <=? 2 then y - 1 else y in
  let mp := if m <=? 2 then m + 9 else m - 3 in
  let yoe := y' mod 400 in
  (y' / 400) * 146097 + (yoe * 365 + yoe / 4 - yoe / 100 + ((153 * mp + 2) / 5 + d - 1)).

(** The date a number of days after 0000-03-01. *)
Definition yoe_of (doe : Z) : Z := (doe - doe / 1460 + doe / 36524 - doe / 146096) / 365.
Definition date_of (n : Z) : Z * Z * Z :=
  let doe := n mod 146097 in
  let yoe := yoe_of doe in
  let doy := doe - (365 * yoe + yoe / 4 - yoe / 100) in
  let mp := (5 * doy + 2) / 153 in
  let d := doy - (153 * mp + 2) / 5 + 1 in
  let m := if mp <? 10 then mp + 3 else mp - 9 in
  let y := yoe + (n / 146097) * 400 in
  ((if m <=? 2 then y + 1 else y), m, d).

(** Days from 0000-03-01 to 0001-01-01. *)
Definition epochDays : Z := 306.

(** The fields of an instant. *)
Record fields := mkFields {
  year : Z; month : Z; day : Z; hour : Z; minute : Z; second : Z; nanosecond : Z }.

Definition fields_of (t : Time) : fields :=
  let sec := t / Second in
  let '(y, m, d) := date_of (sec / secondsPerDay + epochDays) in
  let s := sec mod secondsPerDay in
  mkFields y m d (s / 3600) (s / 60 mod 60) (s mod 60) (t mod Second).

Definition time_of (f : fields) : Time :=
  ((days_of (year f) (month f) (day f) - epochDays) * secondsPerDay
   + hour f * 3600 + minute f * 60 + second f) * Second + nanosecond f.

Definition Year (t : Time) : Z := year (fields_of t).

(** ** Formatting *)

Fixpoint fixed (n : nat) (v : Z) : bytes :=
  match n with
  | O => []
  | S k => fixed k (v / 10) ++ [bz (48 + v mod 10)]
  end.

(** A fraction of a second with its trailing zeros trimmed. *)
Fixpoint drop_zeros (b : bytes) : bytes :=
  match b with
  | x :: r => if zb x =? 48 then drop_zeros r else b
  | [] => []
  end.
Definition fraction (nsec : Z) : bytes :=
  match drop_zeros (reverse (fixed 9 nsec)) with
  | [] => []
  | d => bz 46 :: reverse d
  end.

(** [t.UTC().Format(time.RFC3339Nano)], for a year of four digits. *)
Definition format (t : Time) : bytes :=
  let f := fields_of t in
  fixed 4 (year f) ++ [bz 45] ++ fixed 2 (month f) ++ [bz 45] ++ fixed 2 (day f) ++ [bz 84]
    ++ fixed 2 (hour f) ++ [bz 58] ++ fixed 2 (minute f) ++ [bz 58] ++ fixed 2 (second f)
    ++ fraction (nanosecond f) ++ [bz 90].

(** ** Parsing *)

Definition expect (c : Z) (b : bytes) : option bytes :=
  match b with x :: r => if zb x =? c then Some r else None | [] => None end.

Fixpoint number (n : nat) (acc : Z) (b : bytes) : option (Z * bytes) :=
  match n, b with
  | O, _ => Some (acc, b)
  | S k, x :: r => if Strings.is_digit x then number k (10 * acc + (zb x - 48)) r else None
  | S _, [] => None
  end.

(** The hour of the layout takes one digit or two. *)
Definition number12 (b : bytes) : option (Z * bytes) :=
  match number 2 0 b with
  | Some r => Some r
  | None => number 1 0 b
  end.

Fixpoint span_digits (b : bytes) : bytes * bytes :=
  match b with
  | x :: r => if Strings.is_digit x then let '(d, r') := span_digits r in (x :: d, r') else ([], b)
  | [] => ([], [])
  end.

(** A fraction introduced by a period or a comma; digits after the ninth are
    dropped. *)
Definition parse_fraction (b : bytes) : Z * bytes :=
  match b with
  | x :: r =>
      if (zb x =? 46) || (zb x =? 44) then
        match span_digits r with
        | ([], _) => (0, b)
        | (d, rest) => (Strings.dec_acc 0 (take 9 (d ++ replicate 9 (bz 48))), rest)
        end
      else (0, b)
  | [] => (0, [])
  end.

(** [time.Parse] with the layouts [RFC3339Nano] and [RFC3339], of a value in
    UTC. *)
Definition parse (b : bytes) : option Time :=
  '(y, b) ← number 4 0 b; b ← expect 45 b;
  '(m, b) ← number 2 0 b; b ← expect 45 b;
  '(d, b) ← number 2 0 b; b ← expect 84 b;
  '(h, b) ← number12 b; b ← expect 58 b;
  '(mi, b) ← number 2 0 b; b ← expect 58 b;
  '(s, b) ← number 2 0 b;
  let '(ns, b) := parse_fraction b in
  b ← expect 90 b;
  if (1 <=? m) && (m <=? 12) && (1 <=? d) && (d <=? daysIn m y)
     && (h <=? 23) && (mi <=? 59) && (s <=? 59) && bool_decide (b = [])
  then Some (time_of (mkFields y m d h mi s ns)) else None.

Example format_example :
  to_string (format (time_of (mkFields 2026 2 28 23 5 9 120000000))) = "2026-02-28T23:05:09.12Z"%string.
Proof. vm_compute. reflexivity. Qed.
Example parse_instant_example :
  parse (to_bytes "2024-02-29T7:00:00,5Z") = Some (time_of (mkFields 2024 2 29 7 0 0 500000000)).
Proof. vm_compute. reflexivity. Qed.

(** ** The calendar round trip *)

Lemma yoe_bounds doe :
  0 ≤ doe < 146097 →
  0 ≤ yoe_of doe ≤ 399 ∧
  0 ≤ doe - (365 * yoe_of doe + yoe_of doe / 4 - yoe_of doe / 100) ≤ 365 ∧
  (doe - (365 * yoe_of doe + yoe_of doe / 4 - yoe_of doe / 100) = 365 →
   (yoe_of doe + 1) mod 4 = 0 ∧ ((yoe_of doe + 1) mod 100 ≠ 0 ∨ (yoe_of doe + 1) mod 400 = 0)).
Proof. intros Hd. unfold yoe_of. split_and!; dlia. Qed.

(** The month and day of a day of the year. *)
Lemma month_bounds doy :
  0 ≤ doy ≤ 365 →
  let mp := (5 * doy + 2) / 153 in
  let d := doy - (153 * mp + 2) / 5 + 1 in
  0 ≤ mp ≤ 11 ∧ 1 ≤ d ≤ 31 ∧ (mp = 1 ∨ mp = 3 ∨ mp = 6 ∨ mp = 8 → d ≤ 30) ∧
  (mp = 11 → d ≤ 29 ∧ (d = 29 → doy = 365)).
Proof. cbv zeta. intros Hd. split_and!; intros; dlia. Qed.

Lemma isLeap_cycle yoe era :
  yoe mod 4 = 0 → (yoe mod 100 ≠ 0 ∨ yoe mod 400 = 0) → isLeap (yoe + era * 400) = true.
Proof.
  intros H4 H100. unfold isLeap.
  replace ((yoe + era * 400) mod 4) with (yoe mod 4) by dlia.
  replace ((yoe + era * 400) mod 100) with (yoe mod 100) by dlia.
  rewrite Z.mod_add by lia. rewrite H4. cbn [andb Z.eqb].
  destruct H100 as [Hn| ->]; [|apply orb_true_r]. by rewrite (proj2 (Z.eqb_neq _ _) Hn).
Qed.

(** The date of a day is a valid date, and it determines the day. *)
Lemma days_of_date n y m d :
  date_of n = (y, m, d) →
  days_of y m d = n ∧ 1 ≤ m ≤ 12 ∧ 1 ≤ d ≤ daysIn m y.
Proof.
  unfold date_of. cbv zeta.
  destruct (yoe_bounds (n mod 146097)) as (Hy & Hdoy & Hleap); [dlia|].
  set (yoe := yoe_of (n mod 146097)) in *.
  set (doy := n mod 146097 - (365 * yoe + yoe / 4 - yoe / 100)) in *.
  destruct (month_bounds doy Hdoy) as (Hmp & Hd & H30 & H28).
  set (mp := (5 * doy + 2) / 153) in *. set (dd := doy - (153 * mp + 2) / 5 + 1) in *.
  set (era := n / 146097). assert (n = era * 146097 + n mod 146097) as Hn by (unfold era; dlia).
  assert (∀ y', y' = yoe + era * 400 → y' / 400 = era ∧ y' mod 400 = yoe) as Hera by (intros; split; dlia).
  assert (era * 146097 + (yoe * 365 + yoe / 4 - yoe / 100 + ((153 * mp + 2) / 5 + dd - 1)) = n) as Hback.
  { unfold dd, doy. lia. }
  intros Heq. destruct (mp <? 10) eqn:Hmp10; zbool.
  - destruct (mp + 3 <=? 2) eqn:Hm2; zbool; [lia|]. injection Heq as <- <- <-.
    destruct (Hera _ eq_refl) as [H1 H2]. unfold days_of. rewrite (proj2 (Z.leb_gt _ _)) by lia. cbv zeta.
    rewrite H1, H2. replace (mp + 3 - 3) with mp by lia. split_and!; [exact Hback|lia..|].
    unfold daysIn. rewrite (proj2 (Z.eqb_neq _ _)) by lia. case_match eqn:H4; [|lia].
    apply H30. rewrite !orb_true_iff, !Z.eqb_eq in H4. lia.
  - destruct (mp - 9 <=? 2) eqn:Hm2; zbool; [|lia]. injection Heq as <- <- <-.
    unfold days_of. rewrite (proj2 (Z.leb_le _ _)) by lia. cbv zeta.
    replace (yoe + era * 400 + 1 - 1) with (yoe + era * 400) by lia.
    destruct (Hera _ eq_refl) as [H1 H2]. rewrite H1, H2. replace (mp - 9 + 9) with mp by lia.
    split_and!; [exact Hback|lia..|]. unfold daysIn. case_match eqn:Hf; zbool.
    + destruct (H28 ltac:(lia)) as [H29 H365]. case_match eqn:Hl; [lia|].
      destruct (decide (dd = 29)) as [E29|]; [|lia]. destruct (Hleap (H365 E29)) as [HA HB].
      pose proof (isLeap_cycle (yoe + 1) era HA HB) as Hlp.
      replace (yoe + era * 400 + 1) with (yoe + 1 + era * 400) in Hl by lia. congruence.
    + case_match eqn:H4; [|lia]. rewrite !orb_true_iff, !Z.eqb_eq in H4. lia.
Qed.

(** An instant is determined by its fields, which are in range. *)
Lemma time_of_fields t :
  let f := fields_of t in
  time_of f = t ∧ 1 ≤ month f ≤ 12 ∧ 1 ≤ day f ≤ daysIn (month f) (year f) ∧
  0 ≤ hour f ≤ 23 ∧ 0 ≤ minute f ≤ 59 ∧ 0 ≤ second f ≤ 59 ∧ 0 ≤ nanosecond f < 1000000000.
Proof.
  unfold fields_of. cbv zeta. destruct (date_of _) as [[y m] d] eqn:Hdate.
  apply days_of_date in Hdate as (Hback & Hm & Hd). unfold time_of. cbn [year month day hour minute second nanosecond].
  rewrite Hback. unfold secondsPerDay, Second, epochDays in *. split_and!; try lia; dlia.
Qed.

(** ** The text round trip *)

Lemma length_fixed n : ∀ v, length (fixed n v) = n.
Proof. induction n as [|n IH]; intros v; cbn; [done|]. rewrite length_app, IH. cbn. lia. Qed.

Lemma digit_ok v : Strings.is_digit (bz (48 + v mod 10)) = true ∧ zb (bz (48 + v mod 10)) = 48 + v mod 10.
Proof.
  assert (0 ≤ v mod 10 < 10) by dlia. unfold Strings.is_digit. rewrite zb_bz, Z.mod_small by lia.
  split; [|done]. apply andb_true_iff. split; apply Z.leb_le; lia.
Qed.

Lemma number_split n m acc b :
  number (n + m) acc b = ('(v, r) ← number n acc b; number m v r).
Proof.
  revert acc b. induction n as [|n IH]; intros acc b; [done|]. destruct b as [|x r]; [done|]. cbn.
  case_match; [apply IH|done].
Qed.

Lemma number_fixed n : ∀ v acc rest,
  0 ≤ v < 10 ^ Z.of_nat n → number n acc (fixed n v ++ rest) = Some (acc * 10 ^ Z.of_nat n + v, rest).
Proof.
  induction n as [|n IH]; intros v acc rest Hv.
  - cbn in *. do 2 f_equal. lia.
  - cbn [fixed]. rewrite <- app_assoc, <- Nat.add_1_r, number_split.
    rewrite Nat2Z.inj_succ, Z.pow_succ_r in Hv by lia.
    rewrite IH by (split; [dlia|apply Z.div_lt_upper_bound; lia]). cbn -[Z.pow Z.mul].
    destruct (digit_ok v) as [-> ->]. do 2 f_equal.
    rewrite Nat2Z.inj_add, Z.pow_add_r by lia. change (10 ^ Z.of_nat 1) with 10. dlia.
Qed.

Lemma dec_acc_number b : ∀ acc, Forall (λ c, Strings.is_digit c = true) b →
  number (length b) acc b = Some (Strings.dec_acc acc b, []).
Proof.
  induction b as [|x b IH]; intros acc Hb; [done|]. apply List.Forall_cons_iff in Hb as [Hx Hb].
  cbn -[Z.mul]. rewrite Hx. by apply IH.
Qed.

Lemma fixed_digits n : ∀ v, Forall (λ c, Strings.is_digit c = true) (fixed n v).
Proof.
  induction n as [|n IH]; intros v; cbn; [constructor|]. apply Forall_app. split; [apply IH|].
  constructor; [apply digit_ok|constructor].
Qed.

Lemma dec_acc_fixed n v : 0 ≤ v < 10 ^ Z.of_nat n → Strings.dec_acc 0 (fixed n v) = v.
Proof.
  intros Hv. pose proof (dec_acc_number (fixed n v) 0 (fixed_digits n v)) as H1.
  pose proof (number_fixed n v 0 [] Hv) as H2. rewrite app_nil_r in H2. rewrite length_fixed in H1.
  rewrite H1 in H2. injection H2 as H2. lia.
Qed.

Lemma drop_zeros_split b : ∃ k, b = replicate k (bz 48) ++ drop_zeros b.
Proof.
  induction b as [|x b [k IH]]; [by exists O|]. cbn. case_match eqn:Hz; [|by exists O]. zbool.
  exists (S k). cbn. f_equal; [|exact IH]. apply zb_inj. by rewrite Hz.
Qed.

Lemma span_digits_all d rest :
  Forall (λ c, Strings.is_digit c = true) d →
  match rest with x :: _ => Strings.is_digit x = false | [] => True end →
  span_digits (d ++ rest) = (d, rest).
Proof.
  intros Hd Hr. induction Hd as [|c d Hc _ IH]; cbn.
  - destruct rest; [done|]. cbn. by rewrite Hr.
  - by rewrite Hc, IH.
Qed.

Lemma parse_fraction_format ns :
  0 ≤ ns < 1000000000 → parse_fraction (fraction ns ++ [bz 90]) = (ns, [bz 90]).
Proof.
  intros Hn. unfold fraction. destruct (drop_zeros_split (reverse (fixed 9 ns))) as [k Hk].
  apply (f_equal reverse) in Hk. rewrite reverse_involutive, reverse_app, reverse_replicate in Hk.
  pose proof (dec_acc_fixed 9 ns Hn) as Hv. pose proof (fixed_digits 9 ns) as Hd.
  pose proof (length_fixed 9 ns) as Hl. rewrite Hk in Hv, Hd, Hl.
  destruct (drop_zeros (reverse (fixed 9 ns))) as [|x r] eqn:Hz.
  - cbn in *. f_equal. rewrite <- Hv. clear. induction k as [|k IH]; [done|]. exact IH.
  - set (d := reverse (x :: r)) in *. apply Forall_app in Hd as [Hd _].
    rewrite length_app, length_replicate in Hl. unfold parse_fraction. cbn [app].
    change (zb (bz 46) =? 46) with true. cbn [orb]. rewrite span_digits_all by done.
    assert (d ≠ []) as Hne.
    { unfold d. intros He. apply (f_equal length) in He. by rewrite length_reverse in He. }
    destruct d as [|y d'] eqn:Hdd; [done|]. f_equal. rewrite <- Hv. f_equal.
    rewrite take_app. replace (9 - length (y :: d'))%nat with k by lia.
    rewrite take_ge by lia. f_equal. rewrite take_replicate. f_equal. lia.
Qed.

Lemma number_fixed0 n v rest :
  0 ≤ v < 10 ^ Z.of_nat n → number n 0 (fixed n v ++ rest) = Some (v, rest).
Proof. intros Hv. by rewrite number_fixed. Qed.

Lemma expect_lit c r : 0 ≤ c < 256 → expect c (bz c :: r) = Some r.
Proof. intros Hc. cbn. by rewrite zb_bz, Z.mod_small, Z.eqb_refl. Qed.

Lemma number12_fixed v rest : 0 ≤ v < 100 → number12 (fixed 2 v ++ rest) = Some (v, rest).
Proof. intros Hv. unfold number12. by rewrite number_fixed0. Qed.

(** The text of an instant of a four-digit year parses back to it. *)
Lemma parse_format t : 0 ≤ Year t ≤ 9999 → parse (format t) = Some t.
Proof.
  intros Hy. unfold Year in Hy. pose proof (time_of_fields t) as Hf. unfold format. cbv zeta in *.
  destruct (fields_of t) as [y mo d h mi s ns]. cbn [year month day hour minute second nanosecond] in *.
  destruct Hf as (Ht & Hmo & Hd & Hh & Hmi & Hs & Hns).
  assert (daysIn mo y ≤ 31) as H31 by (unfold daysIn; repeat case_match; lia).
  unfold parse.
  repeat first
    [ rewrite number_fixed0 by (cbn; lia)
    | rewrite number12_fixed by lia
    | rewrite expect_lit by lia
    | progress cbn [mbind option_bind app] ].
  rewrite parse_fraction_format by done. rewrite expect_lit by lia. cbn [mbind option_bind].
  repeat (rewrite (proj2 (Z.leb_le _ _)) by lia). cbn [andb].
  rewrite bool_decide_eq_true_2 by done. by rewrite Ht.
Qed.

End Time.
