(* ===== verification/Text.v ===== *)
(** * Words of visible text

    Lines made of words separated by one space, as authorized_keys files have
    them: how [strings.Fields], [strings.TrimSpace] and [strings.Split] read
    them back. *)

From S2P Require Import Prelude GoStd Json Time.

(** Visible ASCII: neither white space nor a control character. *)
Definition visible (c : byte) : Prop := 33 ≤ zb c ≤ 126.
Definition word (w : bytes) : Prop := w ≠ [] ∧ Forall visible w.

(** Words separated by single spaces. *)
Fixpoint spaced (ws : list bytes) : bytes :=
  match ws with
  | [] => []
  | [w] => w
  | w :: rest => w ++ [bz 32] ++ spaced rest
  end.

Create HintDb text.

Lemma visible_ascii w : Forall visible w → Forall (λ c, zb c < 128) w.
Proof. apply List.Forall_impl. unfold visible. lia. Qed.

Lemma visible_not_space c : visible c → Utf8.is_space (zb c) = false.
Proof. unfold visible, Utf8.is_space. intros Hc. repeat (apply orb_false_iff; split); try apply andb_false_iff; lia. Qed.

Lemma visible_forallb b : forallb (λ c, (33 <=? zb c) && (zb c <=? 126)) b = true → Forall visible b.
Proof.
  intros Hb. apply List.Forall_forall. intros c Hc. rewrite forallb_forall in Hb. specialize (Hb c Hc).
  apply andb_true_iff in Hb as [?%Z.leb_le ?%Z.leb_le]. by split.
Qed.

Lemma spaced_cons w ws : ws ≠ [] → spaced (w :: ws) = w ++ [bz 32] ++ spaced ws.
Proof. by destruct ws. Qed.

Lemma spaced_ascii ws : Forall word ws → Forall (λ c, zb c < 128) (spaced ws).
Proof.
  induction 1 as [|w ws [_ Hw] _ IH]; [constructor|]. destruct ws as [|w' ws]; [by apply visible_ascii|].
  cbn [spaced]. apply Forall_app. split; [by apply visible_ascii|]. constructor; [done|exact IH].
Qed.

(** ** Fields *)

Lemma fields_runes_word cur w rest :
  Forall visible w →
  Strings.fields_runes cur (((λ c, (zb c, [c])) <$> w) ++ rest) = Strings.fields_runes (cur ++ w) rest.
Proof.
  intros Hw. revert cur. induction Hw as [|c w Hc _ IH]; intros cur; [by rewrite app_nil_r|].
  cbn [fmap list_fmap app Strings.fields_runes]. rewrite (visible_not_space c Hc), IH.
  by rewrite <- app_assoc.
Qed.

Lemma fields_runes_spaced ws :
  Forall word ws → Strings.fields_runes [] ((λ c, (zb c, [c])) <$> spaced ws) = ws.
Proof.
  induction 1 as [|w ws [Hne Hw] _ IH]; [done|]. destruct ws as [|w' ws].
  - cbn [spaced]. rewrite <- (app_nil_r (_ <$> w)), fields_runes_word by done. cbn. by destruct w.
  - rewrite spaced_cons by done. rewrite fmap_app, fields_runes_word by done.
    cbn [app fmap list_fmap Strings.fields_runes]. change (Utf8.is_space (zb (bz 32))) with true.
    cbv iota. destruct w as [|c w]; [done|]. f_equal. exact IH.
Qed.

(** The fields of a line of words are its words. *)
Lemma fields_spaced ws : Forall word ws → Strings.fields (to_string (spaced ws)) = to_string <$> ws.
Proof.
  intros Hw. unfold Strings.fields. rewrite to_bytes_string, Json.runes_ascii by (by apply spaced_ascii).
  by rewrite fields_runes_spaced.
Qed.

(** ** TrimSpace *)

Lemma drop_space_visible c rs : visible c → Strings.drop_space ((zb c, [c]) :: rs) = (zb c, [c]) :: rs.
Proof. intros Hc. cbn. by rewrite visible_not_space. Qed.

(** A text that begins and ends with a visible byte is left as it is. *)
Lemma trim_visible b c d :
  Forall (λ c, zb c < 128) b → visible c → visible d → head b = Some c → list.last b = Some d →
  Strings.trim_space (to_string b) = to_string b.
Proof.
  intros Hb Hc Hd Hh Hl. unfold Strings.trim_space. rewrite to_bytes_string, Json.runes_ascii by done.
  destruct b as [|x b']; [done|]. injection Hh as ->. cbn [fmap list_fmap].
  rewrite drop_space_visible by done. change ((zb c, [c]) :: _) with ((λ c, (zb c, [c])) <$> c :: b').
  rewrite <- fmap_reverse. rewrite <- head_reverse in Hl.
  destruct (reverse (c :: b')) as [|y r] eqn:Hr; [done|]. injection Hl as ->. cbn [fmap list_fmap].
  rewrite drop_space_visible by done. change ((zb d, [d]) :: _) with ((λ c, (zb c, [c])) <$> d :: r).
  rewrite <- Hr, <- (fmap_reverse _ (reverse (c :: b'))), reverse_involutive. f_equal.
  rewrite <- list_fmap_compose. generalize (c :: b'). intros l. induction l as [|x l IH]; [done|]. cbn. by rewrite IH.
Qed.

Lemma head_spaced w ws : word w → head (spaced (w :: ws)) = head w.
Proof. intros [Hne _]. destruct w as [|c w]; [done|]. by destruct ws. Qed.

Lemma last_spaced ws w : word w → list.last (spaced (ws ++ [w])) = list.last w.
Proof.
  intros [Hne _]. induction ws as [|v ws IH]; [done|]. cbn [app].
  rewrite spaced_cons by (by destruct ws). rewrite !last_app, IH.
  destruct (list.last w) eqn:Hl; [done|]. by apply last_None in Hl.
Qed.

Lemma trim_spaced ws w w' :
  Forall word (w :: ws ++ [w']) →
  Strings.trim_space (to_string (spaced (w :: ws ++ [w']))) = to_string (spaced (w :: ws ++ [w'])).
Proof.
  intros Hw. pose proof (spaced_ascii _ Hw) as Ha. apply List.Forall_cons_iff in Hw as [Hw Hr].
  apply Forall_app in Hr as [_ [Hw' _]%List.Forall_cons_iff].
  pose proof Hw as [Hne Hv]. pose proof Hw' as [Hne' Hv'].
  destruct w as [|c w]; [done|]. destruct (list.last w') as [d|] eqn:Hl; [|by apply last_None in Hl].
  apply (trim_visible _ c d); [done| | | |].
  - by apply List.Forall_cons_iff in Hv as [? _].
  - rewrite List.Forall_forall in Hv'. apply Hv'. apply list_elem_of_In. apply last_Some in Hl as [? ->].
    set_solver.
  - by rewrite head_spaced.
  - change (spaced ((c :: w) :: ws ++ [w'])) with (spaced (((c :: w) :: ws) ++ [w'])). by rewrite last_spaced.
Qed.

(** ** Split *)

Lemma split_bytes_one sep b : sep ∉ b → Strings.split_bytes sep b = [b].
Proof.
  induction b as [|x b IH]; [done|]. intros [Hx Hb]%not_elem_of_cons. cbn.
  rewrite bool_decide_eq_false_2 by done. by rewrite IH.
Qed.

Lemma split_bytes_cut sep b rest :
  sep ∉ b → Strings.split_bytes sep (b ++ sep :: rest) = b :: Strings.split_bytes sep rest.
Proof.
  induction b as [|x b IH]; intros Hn; cbn.
  - by rewrite bool_decide_eq_true_2.
  - apply not_elem_of_cons in Hn as [Hx Hb]. rewrite bool_decide_eq_false_2 by done. by rewrite IH.
Qed.

(** ** Visible numbers and hexadecimal digits *)

Lemma digits_visible f : ∀ n acc, Forall visible acc → Forall visible (Strings.digits f n acc).
Proof.
  induction f as [|f IH]; intros n acc Ha; [done|]. cbn.
  assert (Forall visible (bz (48 + n mod 10) :: acc)) as Ha'.
  { constructor; [|done]. unfold visible. pose proof (Z.mod_pos_bound n 10 eq_refl).
    rewrite zb_bz, Z.mod_small by lia. lia. }
  case_match; [done|]. by apply IH.
Qed.

Lemma itoa_visible n : Forall visible (to_bytes (Strings.itoa n)).
Proof.
  unfold Strings.itoa. rewrite to_bytes_string. destruct (n <? 0); [constructor|];
    try (by apply digits_visible); by vm_compute.
Qed.

Lemma hex_digit_visible n : 0 ≤ n < 16 → visible (Hex.digit n).
Proof.
  intros Hn. unfold visible, Hex.digit. destruct (n <? 10) eqn:E; zbool; rewrite zb_bz, Z.mod_small; lia.
Qed.

Lemma fixed_visible n v : Forall visible (Time.fixed n v).
Proof.
  pose proof (Time.fixed_digits n v) as Hd. eapply List.Forall_impl; [|exact Hd]. intros c Hc.
  unfold Strings.is_digit in Hc. unfold visible. zbool. lia.
Qed.

Lemma enc6_visible n : 0 ≤ n < 64 → visible (Base64.enc6 n).
Proof.
  intros Hn. unfold visible, Base64.enc6. repeat case_match; zbool; rewrite zb_bz, Z.mod_small; lia.
Qed.

Lemma base64_visible b : Forall visible (Base64.encode b).
Proof.
  assert (visible Base64.pad) by (by vm_compute).
  induction b as [|x|x y|x y z r IH] using Base64.three_ind; cbn [Base64.encode]; Base64.quantum;
    repeat match goal with |- Forall _ _ => constructor end; auto; apply enc6_visible; dlia.
Qed.

(** ** Files of lines *)

Definition unlines (lines : list bytes) : bytes := concat ((λ l, l ++ [bz 10]) <$> lines).

Lemma unlines_split b : unlines (Strings.split_bytes (bz 10) b) = b ++ [bz 10].
Proof.
  unfold unlines. induction b as [|x b IH]; [done|]. cbn [Strings.split_bytes]. case_bool_decide as Hx.
  - subst x. cbn [fmap list_fmap concat app]. f_equal. exact IH.
  - destruct (Strings.split_bytes (bz 10) b) as [|f fs]; [by destruct b|]. cbn [fmap list_fmap concat app] in *.
    f_equal. exact IH.
Qed.

Fixpoint joined (lines : list bytes) : bytes :=
  match lines with
  | [] => []
  | [l] => l
  | l :: rest => l ++ bz 10 :: joined rest
  end.

Lemma joined_cons l rest : rest ≠ [] → joined (l :: rest) = l ++ bz 10 :: joined rest.
Proof. by destruct rest. Qed.

Lemma unlines_joined lines : lines ≠ [] → unlines lines = joined lines ++ [bz 10].
Proof.
  induction lines as [|l lines IH]; [done|]. intros _. destruct (decide (lines = [])) as [->|Hn].
  - unfold unlines. cbn. by rewrite app_nil_r.
  - rewrite joined_cons by done. unfold unlines in *. cbn [fmap list_fmap concat]. rewrite IH by done.
    by rewrite <- !app_assoc.
Qed.

Lemma split_joined lines :
  lines ≠ [] → Forall (λ l, bz 10 ∉ l) lines → Strings.split_bytes (bz 10) (joined lines) = lines.
Proof.
  intros Hne Hl. induction Hl as [|l lines Hl Hls IH]; [done|]. destruct (decide (lines = [])) as [->|Hn].
  - by apply split_bytes_one.
  - rewrite joined_cons by done. rewrite split_bytes_cut by done. f_equal. by apply IH.
Qed.

Lemma split_unlines lines body :
  lines ≠ [] → Forall (λ l, bz 10 ∉ l) lines → body ++ [bz 10] = unlines lines →
  Strings.split_bytes (bz 10) body = lines.
Proof.
  intros Hne Hl Hb. rewrite unlines_joined in Hb by done. apply app_inj_tail in Hb as [-> _].
  by apply split_joined.
Qed.
