(* ===== verification/Calendar.v ===== *)
(** * Dates determine days

    The other half of the calendar round trip: the fields of the instant of
    valid fields are those fields. *)

From S2P Require Import Prelude GoStd Time.
Import Time.

(** Day [doy] of year [yoe] of a 400-year cycle that starts in March; day 365
    exists when the following February is a leap one. *)
Definition day_exists (yoe doy : Z) : bool :=
  (doy <=? 364) || ((doy =? 365) && isLeap (yoe + 1)).

Definition cycle_day (yoe doy : Z) : Z := yoe * 365 + yoe / 4 - yoe / 100 + doy.

(** The year of a day of the cycle, checked for every day of it. *)
Lemma yoe_of_cycle_all :
  forallb (λ yoe, forallb (λ doy,
    negb (day_exists yoe doy) ||
    ((yoe_of (cycle_day yoe doy) =? yoe) && (cycle_day yoe doy <? 146097)))
    (seqZ 0 366)) (seqZ 0 400) = true.
Proof. vm_compute. reflexivity. Qed.

Lemma yoe_of_cycle yoe doy :
  0 ≤ yoe < 400 → 0 ≤ doy ≤ 365 → day_exists yoe doy = true →
  yoe_of (cycle_day yoe doy) = yoe ∧ 0 ≤ cycle_day yoe doy < 146097.
Proof.
  intros Hy Hd He. pose proof yoe_of_cycle_all as Hall. rewrite forallb_forall in Hall.
  specialize (Hall yoe ltac:(apply list_elem_of_In, elem_of_seqZ; lia)). cbv beta in Hall.
  rewrite forallb_forall in Hall. specialize (Hall doy ltac:(apply list_elem_of_In, elem_of_seqZ; lia)).
  cbv beta in Hall. rewrite He in Hall. cbn [negb orb] in Hall. apply andb_true_iff in Hall as [?%Z.eqb_eq ?%Z.ltb_lt].
  split; [done|]. split; [|done]. unfold cycle_day. dlia.
Qed.

Lemma isLeap_mod y : isLeap (y mod 400 + 1) = isLeap (y + 1).
Proof.
  unfold isLeap. replace ((y mod 400 + 1) mod 4) with ((y + 1) mod 4) by dlia.
  replace ((y mod 400 + 1) mod 100) with ((y + 1) mod 100) by dlia.
  by replace ((y mod 400 + 1) mod 400) with ((y + 1) mod 400) by dlia.
Qed.

(** The date of the day of a valid date is that date. *)
Lemma date_of_days y m d :
  1 ≤ m ≤ 12 → 1 ≤ d ≤ daysIn m y → date_of (days_of y m d) = (y, m, d).
Proof.
  intros Hm Hd. unfold days_of. cbv zeta.
  set (y' := if m <=? 2 then y - 1 else y). set (mp := if m <=? 2 then m + 9 else m - 3).
  set (doy := (153 * mp + 2) / 5 + d - 1).
  assert (0 ≤ mp ≤ 11 ∧ 1 ≤ d ≤ 31 ∧ (mp = 1 ∨ mp = 3 ∨ mp = 6 ∨ mp = 8 → d ≤ 30) ∧
    (mp = 11 → d ≤ 29 ∧ (d = 29 → isLeap (y' + 1) = true))) as (Hmp & Hd31 & H30 & H29).
  { unfold mp, y', daysIn in *. destruct (m <=? 2) eqn:E; zbool.
    - replace (y - 1 + 1) with y by lia. destruct (m =? 2) eqn:E2; zbool.
      + destruct (isLeap y) eqn:El; split_and!; try lia; intros; split_and!; try lia; done.
      + split_and!; try lia; repeat case_match; zbool; lia.
    - rewrite (proj2 (Z.eqb_neq _ _)) in Hd by lia.
      assert (d ≤ 31 ∧ (m = 4 ∨ m = 6 ∨ m = 9 ∨ m = 11 → d ≤ 30)) as [? ?].
      { destruct ((m =? 4) || (m =? 6) || (m =? 9) || (m =? 11)) eqn:E4; [lia|].
        rewrite !orb_false_iff, !Z.eqb_neq in E4. lia. }
      split_and!; try lia. }
  assert (0 ≤ doy ≤ 365 ∧ (5 * doy + 2) / 153 = mp ∧ (doy = 365 → mp = 11 ∧ d = 29)) as (Hdoy & Hmonth & H365).
  { unfold doy. split_and!; try dlia. }
  assert (day_exists (y' mod 400) doy = true) as Hex.
  { unfold day_exists. apply orb_true_iff. destruct (decide (doy ≤ 364)) as [?|?]; [left; by apply Z.leb_le|right].
    assert (doy = 365) as E by lia. destruct (H365 E) as [E1 E2]. rewrite isLeap_mod.
    rewrite (proj2 (H29 E1) E2), E. done. }
  destruct (yoe_of_cycle (y' mod 400) doy ltac:(dlia) Hdoy Hex) as [Hyoe Hrange].
  fold doy. fold (cycle_day (y' mod 400) doy).
  replace (y' mod 400 * 365 + y' mod 400 / 4 - y' mod 400 / 100 + doy) with (cycle_day (y' mod 400) doy) by done.
  unfold date_of. cbv zeta.
  replace ((y' / 400 * 146097 + cycle_day (y' mod 400) doy) mod 146097) with (cycle_day (y' mod 400) doy) by dlia.
  replace ((y' / 400 * 146097 + cycle_day (y' mod 400) doy) / 146097) with (y' / 400) by dlia.
  rewrite Hyoe. replace (cycle_day (y' mod 400) doy - (365 * (y' mod 400) + y' mod 400 / 4 - y' mod 400 / 100)) with doy
    by (unfold cycle_day; lia).
  rewrite Hmonth. replace (y' mod 400 + y' / 400 * 400) with y' by dlia.
  replace (doy - (153 * mp + 2) / 5 + 1) with d by (unfold doy; lia).
  unfold mp, y' in *. destruct (m <=? 2) eqn:E; zbool.
  - rewrite (proj2 (Z.ltb_ge (m + 9) 10)) by lia. replace (m + 9 - 9) with m by lia.
    rewrite (proj2 (Z.leb_le m 2)) by lia. do 2 f_equal. lia.
  - rewrite (proj2 (Z.ltb_lt (m - 3) 10)) by lia. replace (m - 3 + 3) with m by lia.
    by rewrite (proj2 (Z.leb_gt m 2)) by lia.
Qed.

Definition fields_ok (f : fields) : Prop :=
  1 ≤ month f ≤ 12 ∧ 1 ≤ day f ≤ daysIn (month f) (year f) ∧ 0 ≤ hour f ≤ 23 ∧ 0 ≤ minute f ≤ 59 ∧
  0 ≤ second f ≤ 59 ∧ 0 ≤ nanosecond f < Second.

(** The fields of the instant of valid fields. *)
Lemma fields_of_time f : fields_ok f → fields_of (time_of f) = f.
Proof.
  destruct f as [y m d h mi s ns]. unfold fields_ok, fields_of, time_of.
  cbn [year month day hour minute second nanosecond]. intros (Hm & Hd & Hh & Hmi & Hs & Hns).
  set (days := days_of y m d). unfold Second, secondsPerDay, epochDays in *.
  set (sec := (days - 306) * 86400 + h * 3600 + mi * 60 + s).
  replace ((sec * 1000000000 + ns) / 1000000000) with sec by dlia.
  replace (sec / 86400 + 306) with days by (unfold sec; dlia). unfold days. rewrite date_of_days by lia.
  f_equal; unfold sec; dlia.
Qed.

Lemma number_range n : ∀ acc b v r,
  number n acc b = Some (v, r) → acc * 10 ^ Z.of_nat n ≤ v < (acc + 1) * 10 ^ Z.of_nat n.
Proof.
  induction n as [|n IH]; intros acc b v r.
  - intros [= <- <-]. change (10 ^ Z.of_nat 0) with 1. lia.
  - destruct b as [|x b]; [done|]. cbn [number]. case_match eqn:Hd; [|done]. intros Hn%IH.
    unfold Strings.is_digit in Hd. zbool. rewrite Nat2Z.inj_succ, Z.pow_succ_r by lia.
    pose proof (Z.pow_pos_nonneg 10 (Z.of_nat n)). nia.
Qed.
