(* ===== verification/Host.v ===== *)
(** * The host: files, clock and their faults

    The components that keep state on disk run against a [world] of files.
    Every system call may fail: a [hostEnv] decides which calls do, what a
    failed write leaves behind, the time and the names of temporary files, so
    a theorem for every [hostEnv] covers every failure. *)

From stdpp Require Import sorting.
From S2P Require Import Prelude GoStd Time.
Import Time.

(** ** path/filepath *)
Module Filepath.

(** One element of a path being cleaned, onto the elements kept so far (last
    first). *)
Definition clean_step (rooted : bool) (out : list bytes) (seg : bytes) : list bytes :=
  if bool_decide (seg = []) || bool_decide (seg = to_bytes ".") then out
  else if bool_decide (seg = to_bytes "..") then
    match out with
    | [] => if rooted then [] else [seg]
    | x :: r => if bool_decide (x = to_bytes "..") then seg :: out else r
    end
  else seg :: out.

Fixpoint join_segs (segs : list bytes) : bytes :=
  match segs with
  | [] => []
  | [x] => x
  | x :: r => x ++ [bz 47] ++ join_segs r
  end.

Definition Clean (path : string) : string :=
  let rooted := Strings.has_prefix path "/" in
  let segs := reverse (foldl (clean_step rooted) [] (Strings.split_bytes (bz 47) (to_bytes path))) in
  let body := to_string (join_segs segs) in
  if rooted then ("/" ++ body)%string
  else if bool_decide (body = ""%string) then "."%string else body.

Definition Join (a b : string) : string :=
  if bool_decide (a = ""%string) && bool_decide (b = ""%string) then ""%string
  else if bool_decide (a = ""%string) then Clean b
  else Clean (a ++ "/" ++ b).

(** The path up to and including its last slash. *)
Fixpoint after_slash (b : bytes) : bytes :=
  match b with
  | x :: r => if zb x =? 47 then b else after_slash r
  | [] => []
  end.
Definition Dir (path : string) : string := Clean (to_string (reverse (after_slash (reverse (to_bytes path))))).

Example dir_example : Dir "/var/lib/warptweet/clock.json" = "/var/lib/warptweet"%string.
Proof. vm_compute. reflexivity. Qed.
Example join_example : Join "/run/grants/" "../x.json" = "/run/x.json"%string.
Proof. vm_compute. reflexivity. Qed.

End Filepath.

(** ** The world *)

Record world := mkWorld { files : gmap string bytes; calls : nat }.

Record hostEnv := mkHostEnv {
  (** the error of the [n]th system call, if it fails *)
  h_fault : nat → option error;
  (** how many bytes a failed write leaves in the file *)
  h_partial : nat → nat;
  h_now : nat → Time;
  (** the random part of a temporary file's name *)
  h_temp : nat → string;
}.

Definition HM (A : Type) : Type := world → result A * world.

#[global] Instance HM_ret : MRet HM := λ A a w, (Ok a, w).
#[global] Instance HM_bind : MBind HM := λ A B f m w,
  match m w with
  | (Ok a, w') => f a w'
  | (Err e, w') => (Err e, w')
  end.

Definition hfail {A} (e : error) : HM A := λ w, (Err e, w).
Definition hlift {A} (r : result A) : HM A := λ w, (r, w).
(** Run [m] and return its outcome as a value. *)
Definition htry {A} (m : HM A) : HM (result A) := λ w, let '(r, w') := m w in (Ok r, w').
(** [defer]: run [cleanup] whatever [m] does, and drop its error. *)
Definition deferred {A} (cleanup : HM ()) (m : HM A) : HM A :=
  λ w, let '(r, w') := m w in (r, (cleanup w').2).
Definition set_files (f : gmap string bytes → gmap string bytes) : HM () :=
  λ w, (Ok (), mkWorld (f (files w)) (calls w)).
Definition get_files : HM (gmap string bytes) := λ w, (Ok (files w), w).
Definition call : HM nat := λ w, (Ok (calls w), mkWorld (files w) (S (calls w))).

Section host.
Context (H : hostEnv).

(** A system call with no effect but its possible failure. *)
Definition sys : HM () :=
  n ← call; match h_fault H n with Some e => hfail e | None => mret () end.

Definition now : HM Time := n ← call; mret (h_now H n).

Definition ReadFile (path : string) : HM bytes :=
  sys;; fs ← get_files;
  match fs !! path with Some c => mret c | None => hfail (EOS ENOENT) end.

Definition Remove (path : string) : HM () :=
  sys;; fs ← get_files;
  match fs !! path with Some _ => set_files (delete path) | None => hfail (EOS ENOENT) end.

(** [os.CreateTemp(dir, prefix)]: a new empty file, never an existing one. *)
Definition CreateTemp (dir prefix : string) : HM string :=
  sys;; n ← call; fs ← get_files;
  let name := (dir ++ "/" ++ prefix ++ h_temp H n)%string in
  match fs !! name with
  | Some _ => hfail (EOS EEXIST)
  | None => set_files (<[name := []]>);; mret name
  end.

(** [temp.Write(contents)] into a new file: a failure leaves a prefix. *)
Definition Write (name : string) (contents : bytes) : HM () :=
  n ← call;
  match h_fault H n with
  | Some e => set_files (<[name := take (h_partial H n) contents]>);; hfail e
  | None => set_files (<[name := contents]>)
  end.

Definition Rename (old new : string) : HM () :=
  sys;; fs ← get_files;
  match fs !! old with
  | Some c => set_files (λ fs, <[new := c]> (delete old fs))
  | None => hfail (EOS ENOENT)
  end.

(** The replacement of [path] every component uses: write a temporary file
    next to it, rename it over [path], then run [syncDir]; the temporary file
    is removed on the way out.  With [skipEmpty] no write is made for empty
    contents. *)
Definition replaceFile (skipEmpty : bool) (path prefix : string) (contents : bytes) (syncDir : HM ())
    : HM () :=
  temp ← CreateTemp (Filepath.Dir path) prefix;
  deferred (Remove temp)
    ((if skipEmpty && bool_decide (contents = []) then mret () else Write temp contents);;
     sys;;                                       (* Chmod *)
     sys;;                                       (* Sync *)
     sys;;                                       (* Close *)
     Rename temp path;;
     syncDir).

(** [os.Lstat(path)]: whether it succeeds. *)
Definition Lstat (path : string) : HM () :=
  sys;; fs ← get_files;
  match fs !! path with Some _ => mret () | None => hfail (EOS ENOENT) end.

(** [os.OpenFile(path, O_CREATE|O_RDWR, _)]: the file exists afterwards. *)
Definition OpenCreate (path : string) : HM () :=
  sys;; set_files (λ fs, match fs !! path with Some _ => fs | None => <[path := []]> fs end).

(** [os.ReadDir(dir)]: the names of the regular files in [dir], sorted.  A
    directory that does not exist is one without files. *)
Definition childName (dir path : string) : option string :=
  let d := to_bytes (dir ++ "/") in
  if bool_decide (take (length d) (to_bytes path) = d) then
    let name := drop (length d) (to_bytes path) in
    if bool_decide (name = []) || bool_decide (bz 47 ∈ name) then None else Some (to_string name)
  else None.
Definition stringLe (a b : string) : Prop := Is_true (String.leb a b).
#[local] Instance stringLe_dec : RelDecision stringLe := λ a b, Is_true_dec (String.leb a b).
Definition listing (dir : string) (fs : gmap string bytes) : list string :=
  merge_sort stringLe (omap (λ x, childName dir x.1) (map_to_list fs)).
Definition ReadDir (dir : string) : HM (list string) :=
  sys;; fs ← get_files; mret (listing dir fs).

(** [rand.Read] of [n] bytes. *)
Definition RandRead (rnd : nat → nat → bytes) (n : nat) : HM bytes :=
  sys;; k ← call; mret (rnd k n).

End host.

Definition IsNotExist (e : error) : bool := bool_decide (e = EOS ENOENT).

(** ** Runs that succeed, step by step *)

Lemma run_bind {A B} (m : HM A) (f : A → HM B) w b w' :
  (m ≫= f) w = (Ok b, w') → ∃ a w1, m w = (Ok a, w1) ∧ f a w1 = (Ok b, w').
Proof. unfold mbind, HM_bind. destruct (m w) as [[a|e] w1]; [eauto|done]. Qed.
Lemma run_checked {A B} (r : result A) (f : A → HM B) w b w' :
  (hlift r ≫= f) w = (Ok b, w') → ∃ a, r = Ok a ∧ f a w = (Ok b, w').
Proof. destruct r as [a|e]; [by exists a|done]. Qed.
Lemma ret_then {A B} (a : A) (f : A → HM B) w : (mret a ≫= f) w = f a w.
Proof. reflexivity. Qed.
Lemma call_then {B} (f : nat → HM B) w : (call ≫= f) w = f (calls w) (mkWorld (files w) (S (calls w))).
Proof. reflexivity. Qed.
Lemma now_is H {B} (f : Time → HM B) w :
  (now H ≫= f) w = f (h_now H (calls w)) (mkWorld (files w) (S (calls w))).
Proof. reflexivity. Qed.

(** ** Reasoning about the files a program leaves

    Triples over the file system; a post-condition covers success and every
    failure. *)

Definition htriple {A} (P : gmap string bytes → Prop) (m : HM A)
    (Q : result A → gmap string bytes → Prop) : Prop :=
  ∀ w, P (files w) → Q (m w).1 (files (m w).2).

Section rules.
Context (H : hostEnv).
Implicit Types P : gmap string bytes → Prop.

Lemma htriple_bind {A B} P (m : HM A) (R : A → gmap string bytes → Prop) (f : A → HM B) Q :
  htriple P m (λ r fs, match r with Ok a => R a fs | Err e => Q (Err e) fs end) →
  (∀ a, htriple (R a) (f a) Q) →
  htriple P (m ≫= f) Q.
Proof.
  intros Hm Hf w Hw. specialize (Hm w Hw). unfold mbind, HM_bind.
  destruct (m w) as [[a|e] w']; [by apply Hf|done].
Qed.

Lemma htriple_weaken {A} P P' (m : HM A) Q Q' :
  htriple P' m Q' → (∀ fs, P fs → P' fs) → (∀ r fs, Q' r fs → Q r fs) → htriple P m Q.
Proof. intros Hm HP HQ w Hw. by apply HQ, Hm, HP. Qed.

Lemma htriple_ret {A} P (a : A) Q : (∀ fs, P fs → Q (Ok a) fs) → htriple P (mret a) Q.
Proof. intros HQ w Hw. by apply HQ. Qed.
Lemma htriple_fail {A} P e (Q : result A → gmap string bytes → Prop) :
  (∀ fs, P fs → Q (Err e) fs) → htriple P (hfail e) Q.
Proof. intros HQ w Hw. by apply HQ. Qed.
Lemma htriple_lift {A} P (r : result A) Q : (∀ fs, P fs → Q r fs) → htriple P (hlift r) Q.
Proof. intros HQ w Hw. by apply HQ. Qed.

Lemma htriple_try {A} P (m : HM A) Q :
  htriple P m (λ r fs, Q (Ok r) fs) → htriple P (htry m) Q.
Proof. intros Hm w Hw. specialize (Hm w Hw). unfold htry. by destruct (m w). Qed.

(** A call with no effect: the files stay, the call may fail. *)
Lemma htriple_sys P (Q : result () → gmap string bytes → Prop) :
  (∀ r fs, P fs → Q r fs) → htriple P (sys H) Q.
Proof.
  intros HQ w Hw. unfold sys, call, mbind, HM_bind. destruct (h_fault H (calls w)); by apply HQ.
Qed.

Lemma htriple_deferred {A} P (cleanup : HM ()) (m : HM A) R Q :
  htriple P m R → (∀ r, htriple (R r) cleanup (λ _, Q r)) → htriple P (deferred cleanup m) Q.
Proof.
  intros Hm Hc w Hw. specialize (Hm w Hw). unfold deferred. destruct (m w) as [r w']. by apply (Hc r w').
Qed.

Lemma htriple_Remove P path Q :
  (∀ e fs, P fs → Q (Err e) fs) → (∀ fs, P fs → Q (Ok ()) (delete path fs)) →
  htriple P (Remove H path) Q.
Proof.
  intros He Ho. unfold Remove. apply (htriple_bind _ _ (λ _, P)); [apply htriple_sys; intros []; auto|].
  intros _ w Hw. unfold get_files, mbind, HM_bind. destruct (files w !! path); [by apply Ho|by apply He].
Qed.

Lemma htriple_Write P name contents Q :
  (∀ e x fs, P fs → Q (Err e) (<[name := x]> fs)) → (∀ fs, P fs → Q (Ok ()) (<[name := contents]> fs)) →
  htriple P (Write H name contents) Q.
Proof.
  intros He Ho w Hw. unfold Write, call, mbind, HM_bind. destruct (h_fault H (calls w)); [by apply He|by apply Ho].
Qed.

Lemma htriple_Rename P old new Q :
  (∀ e fs, P fs → Q (Err e) fs) →
  (∀ c fs, P fs → fs !! old = Some c → Q (Ok ()) (<[new := c]> (delete old fs))) →
  htriple P (Rename H old new) Q.
Proof.
  intros He Ho. unfold Rename. apply (htriple_bind _ _ (λ _, P)); [apply htriple_sys; intros []; auto|].
  intros _ w Hw. unfold get_files, mbind, HM_bind. destruct (files w !! old) eqn:Hl; [by apply Ho|by apply He].
Qed.

Lemma htriple_CreateTemp P dir prefix Q :
  (∀ e fs, P fs → Q (Err e) fs) →
  (∀ n fs, let name := (dir ++ "/" ++ prefix ++ h_temp H n)%string in
     P fs → fs !! name = None → Q (Ok name) (<[name := []]> fs)) →
  htriple P (CreateTemp H dir prefix) Q.
Proof.
  intros He Ho. unfold CreateTemp. apply (htriple_bind _ _ (λ _, P)); [apply htriple_sys; intros []; auto|].
  intros _ w Hw. unfold call, get_files, mbind, HM_bind. cbn [files calls].
  case_match eqn:Hl; [by apply He|]. by apply (Ho (calls w)).
Qed.

Lemma htriple_ReadFile P path Q :
  (∀ e fs, P fs → Q (Err e) fs) → (∀ c fs, P fs → fs !! path = Some c → Q (Ok c) fs) →
  htriple P (ReadFile H path) Q.
Proof.
  intros He Ho. unfold ReadFile. apply (htriple_bind _ _ (λ _, P)); [apply htriple_sys; intros []; auto|].
  intros _ w Hw. unfold get_files, mbind, HM_bind. destruct (files w !! path) eqn:Hl; [by apply Ho|by apply He].
Qed.

End rules.

(** ** Atomic replacement *)

Definition tempName (H : hostEnv) (path prefix : string) (n : nat) : string :=
  (Filepath.Dir path ++ "/" ++ prefix ++ h_temp H n)%string.

(** The files after an attempt to replace [path]: the old document or the whole
    new one, and nothing else touched but a left-over temporary file. *)
Definition replaced (H : hostEnv) (path prefix : string) (contents : bytes)
    (before : gmap string bytes) (r : result ()) (after : gmap string bytes) : Prop :=
  (after !! path = before !! path ∨ after !! path = Some contents) ∧
  (r = Ok () → after !! path = Some contents) ∧
  (∀ q, q ≠ path → after !! q = before !! q ∨
                   (before !! q = None ∧ ∃ n, q = tempName H path prefix n)).

Section atomic.
Context (H : hostEnv) (path prefix : string) (contents : bytes) (fs0 : gmap string bytes).
Hypothesis Hpath : ∀ n, fs0 !! tempName H path prefix n = None → path ≠ tempName H path prefix n.

(** Inside the deferred part, with temporary file [temp]: it has some
    contents, or it has been renamed. *)
Definition midway (temp : string) (fs : gmap string bytes) : Prop :=
  (∃ x, fs = <[temp := x]> fs0) ∨ fs = <[path := contents]> (delete temp fs0).

Lemma midway_replaced temp n r fs :
  temp = tempName H path prefix n → fs0 !! temp = None →
  (∃ fs1, midway temp fs1 ∧ (r = Ok () → fs1 = <[path := contents]> (delete temp fs0)) ∧
          (fs = fs1 ∨ fs = delete temp fs1)) →
  replaced H path prefix contents fs0 r fs.
Proof using Hpath.
  intros Ht Hnone (fs1 & Hm & Hok & Hfs).
  assert (path ≠ temp) as Hne by (subst temp; by apply Hpath).
  assert (fs !! path = fs1 !! path) as Hp by (destruct Hfs as [-> | ->]; [done|by rewrite lookup_delete_ne]).
  assert (∀ q, q ≠ temp → fs !! q = fs1 !! q) as Hq
    by (intros q Hq; destruct Hfs as [-> | ->]; [done|by rewrite lookup_delete_ne]).
  split_and!.
  - rewrite Hp. destruct Hm as [[x ->]| ->]; [left; by rewrite lookup_insert_ne|right; by rewrite lookup_insert_eq].
  - intros Hr. rewrite Hp, (Hok Hr). by rewrite lookup_insert_eq.
  - intros q Hqp. destruct (decide (q = temp)) as [-> |Hqt]; [right; split; [done|by exists n]|].
    left. rewrite Hq by done. destruct Hm as [[x ->]| ->]; rewrite lookup_insert_ne by done; [done|].
    by rewrite lookup_delete_ne.
Qed.

Lemma replaceFile_replaced (skipEmpty : bool) (syncDir : HM ()) :
  (∀ fs, htriple (λ fs', fs' = fs) syncDir (λ _ fs', fs' = fs)) →
  htriple (λ fs, fs = fs0) (replaceFile H skipEmpty path prefix contents syncDir)
    (replaced H path prefix contents fs0).
Proof using Hpath.
  intros Hsync.
  assert (∀ e : error, replaced H path prefix contents fs0 (Err e) fs0) as Hsame
    by (intros e; split_and!; auto; done).
  unfold replaceFile.
  eapply (htriple_bind _ _ (λ temp fs, ∃ n, temp = tempName H path prefix n ∧ fs0 !! temp = None ∧
                                        fs = <[temp := []]> fs0)).
  { apply htriple_CreateTemp; [by intros e fs -> |]. intros n fs name -> Hn. by exists n. }
  intros temp w (n & Ht & Hnone & Hw).
  assert (path ≠ temp) as Hne by (subst temp; by apply Hpath).
  set (done_ := <[path := contents]> (delete temp fs0)).
  refine (htriple_deferred (λ fs, fs = <[temp := []]> fs0) _ _
    (λ r fs, midway temp fs ∧ (r = Ok () → fs = done_)) _ _ _ w Hw); cycle 1.
  { intros r. apply htriple_Remove.
    - intros _ fs [Hm Hok]. eapply midway_replaced; eauto.
    - intros fs [Hm Hok]. eapply midway_replaced; eauto 6. }
  eapply (htriple_bind _ _ (λ _ fs, fs = <[temp := contents]> fs0)).
  { destruct (skipEmpty && _) eqn:Hskip.
    - apply andb_true_iff in Hskip as [_ ->%bool_decide_eq_true]. by apply htriple_ret.
    - apply htriple_Write; intros; subst; rewrite insert_insert_eq; [split; [left; eauto|done]|done]. }
  intros _. do 3 (eapply (htriple_bind _ _ (λ _ fs, fs = <[temp := contents]> fs0));
    [apply htriple_sys; intros [] fs ->; [done|split; [left; eauto|done]]|intros _]).
  eapply (htriple_bind _ _ (λ _ fs, fs = done_)).
  { apply htriple_Rename; [intros e fs ->; split; [left; eauto|done]|].
    intros c fs -> Hc. rewrite lookup_insert_eq in Hc. injection Hc as <-.
    by rewrite delete_insert_eq. }
  intros _. eapply htriple_weaken; [apply (Hsync done_)|done|]. intros r fs ->. split; [by right|done].
Qed.

End atomic.

(** A program of calls without effect leaves the files as they are. *)
Lemma sys_keeps H fs : htriple (λ fs', fs' = fs) (sys H) (λ _ fs', fs' = fs).
Proof. apply htriple_sys. auto. Qed.
Lemma bind_keeps {A B} (m : HM A) (f : A → HM B) fs :
  htriple (λ fs', fs' = fs) m (λ _ fs', fs' = fs) →
  (∀ a, htriple (λ fs', fs' = fs) (f a) (λ _ fs', fs' = fs)) →
  htriple (λ fs', fs' = fs) (m ≫= f) (λ _ fs', fs' = fs).
Proof.
  intros Hm Hf. eapply (htriple_bind _ _ (λ _ fs', fs' = fs)); [|exact Hf].
  eapply htriple_weaken; [exact Hm|done|]. by intros [] fs'.
Qed.
Lemma deferred_keeps {A} cleanup (m : HM A) fs :
  htriple (λ fs', fs' = fs) m (λ _ fs', fs' = fs) →
  htriple (λ fs', fs' = fs) cleanup (λ _ fs', fs' = fs) →
  htriple (λ fs', fs' = fs) (deferred cleanup m) (λ _ fs', fs' = fs).
Proof. intros Hm Hc. eapply htriple_deferred; [exact Hm|]. by intros r. Qed.

(** The operating system reports [ENOENT] only for a file that is not there. *)
Definition honest (H : hostEnv) : Prop := ∀ n, h_fault H n ≠ Some (EOS ENOENT).

Lemma ReadFile_honest H path fs0 :
  honest H →
  htriple (λ fs, fs = fs0) (ReadFile H path)
    (λ r fs, fs = fs0 ∧ match r with Ok c => fs0 !! path = Some c
                                   | Err e => IsNotExist e = true → fs0 !! path = None end).
Proof.
  intros Hh w <-. unfold ReadFile, sys, call, get_files, mbind, HM_bind, IsNotExist. cbn [files calls].
  destruct (h_fault H (calls w)) as [e|] eqn:He; cbn.
  - split; [done|]. intros Hb%bool_decide_eq_true. subst e. by destruct (Hh (calls w)).
  - by destruct (files w !! path) eqn:Hl.
Qed.
