(* ===== verification/Locator.v ===== *)
(** * internal/locator: published dial hosts

    [DialHost] and its canonical form, DNS names and endpoint sets, with the
    properties that make canonical equality an equality of locators. *)

From S2P Require Import Prelude GoStd Json.
Import Netip.

Module Locator.

Definition maxDNSNameOctets : Z := 253.
Definition maxDNSLabelOctets : Z := 63.

Record DialHost := mkDialHost { IP : Addr; Name : string }.
#[global] Instance DialHost_eq_dec : EqDecision DialHost.
Proof. solve_decision. Defined.

Definition canonicalAddr (address : Addr) : Addr := Unmap address.
Definition IPDialHost (addr : Addr) : DialHost := mkDialHost (canonicalAddr addr) "".

(** [utf8.ValidString]. *)
Definition validString (s : string) : bool :=
  forallb (λ x : Z * bytes, negb ((x.1 =? Utf8.rune_error) && (length x.2 =? 1)%nat))
          (Utf8.runes (to_bytes s)).

(** [strings.ToLower] on ASCII. *)
Definition lower_byte (c : byte) : byte :=
  if (65 <=? zb c) && (zb c <=? 90) then bz (zb c + 32) else c.
Definition ToLower (s : string) : string := to_string (lower_byte <$> to_bytes s).

(** [strings.TrimSuffix(s, suffix)]. *)
Definition TrimSuffix (s suffix : string) : string :=
  if Strings.has_suffix s suffix
  then to_string (take (String.length s - String.length suffix) (to_bytes s)) else s.

Definition is_label_byte (c : byte) : bool :=
  ((97 <=? zb c) && (zb c <=? 122)) || ((48 <=? zb c) && (zb c <=? 57)) || (zb c =? 45).

(** The checks on one label of a lower-case name. *)
Definition checkLabel (label : bytes) : result () :=
  if bool_decide (label = []) then Err (EMsg "DNS name contains an empty label")
  else if maxDNSLabelOctets <? blen label then Err (EMsg "DNS label exceeds 63 octets")
  else if bool_decide (head label = Some (bz 45)) || bool_decide (List.last label (bz 0) = bz 45)
  then Err (EMsg "DNS label must not start or end with a hyphen")
  else if forallb is_label_byte label then Ok ()
  else Err (EMsg "DNS name contains a forbidden character").

Fixpoint checkLabels (labels : list bytes) : result () :=
  match labels with
  | [] => Ok ()
  | l :: rest => checkLabel l;; checkLabels rest
  end.

Definition forbiddenRune (r : Z) : bool :=
  (r <? 32) || (r =? 127) || (r =? 32)
  || bool_decide (r ∈ (zb <$> to_bytes "/?#@:[]*%")).

Fixpoint checkRunes (rs : list Z) : result () :=
  match rs with
  | [] => Ok ()
  | r :: rest =>
      if 127 <? r then Err (EMsg "DNS name must be ASCII A-labels")
      else if forbiddenRune r then Err (EMsg "DNS name contains a forbidden character")
      else checkRunes rest
  end.

Definition CanonicalDNSName (name : string) : result string :=
  if bool_decide (name = ""%string) then Err (EMsg "DNS name is empty")
  else if negb (validString name) then Err (EMsg "DNS name is not valid UTF-8")
  else match ParseAddr name with
  | Ok _ => Err (EMsg "DNS name must not be an IP literal")
  | Err _ =>
      let dotted := Strings.has_suffix name "." in
      let name := if dotted then TrimSuffix name "." else name in
      if dotted && bool_decide (name = ""%string) then Err (EMsg "DNS name is empty")
      else if Strings.contains name ".." then Err (EMsg "DNS name contains an empty label")
      else
        checkRunes (Utf8.range name);;
        let lower := ToLower name in
        if maxDNSNameOctets <? Z.of_nat (String.length lower)
        then Err (EMsg "DNS name exceeds 253 octets")
        else checkLabels (Strings.split_bytes (bz 46) (to_bytes lower));; Ok lower
  end.

Definition ParseDialHost (value : string) : result DialHost :=
  if bool_decide (value = ""%string) then Err (EMsg "dial host is empty")
  else match ParseAddr value with
  | Ok addr =>
      if negb (bool_decide (Zone addr = ""%string)) then Err (EMsg "IPv6 zones are not permitted")
      else Ok (IPDialHost addr)
  | Err _ => name ← CanonicalDNSName value; Ok (mkDialHost AddrInvalid name)
  end.

Definition Canonical (host : DialHost) : result string :=
  let hasIP := IsValid (IP host) in
  let hasName := negb (bool_decide (Name host = ""%string)) in
  if hasIP && hasName then Err (EMsg "dial host must not set both IP and Name")
  else if hasIP then
    if negb (bool_decide (Zone (IP host) = ""%string)) then Err (EMsg "IPv6 zones are not permitted")
    else Ok (addr_string (canonicalAddr (IP host)))
  else if hasName then CanonicalDNSName (Name host)
  else Err (EMsg "dial host is empty").

Definition Equal (host other : DialHost) : bool :=
  match Canonical host, Canonical other with
  | Ok l, Ok r => bool_decide (l = r)
  | _, _ => false
  end.

(** ** endpoint.go *)

Record DialEndpoint := mkEndpoint { Host : DialHost; Port : Z }.
#[global] Instance DialEndpoint_eq_dec : EqDecision DialEndpoint.
Proof. solve_decision. Defined.

Definition EndpointEqual (endpoint other : DialEndpoint) : bool :=
  (Port endpoint =? Port other) && Equal (Host endpoint) (Host other).

Record PublishedEndpointSet := mkEndpointSet {
  ps_Generation : Z;
  Data : DialEndpoint;
  Enrollment : DialEndpoint;
}.
#[global] Instance PublishedEndpointSet_eq_dec : EqDecision PublishedEndpointSet.
Proof. solve_decision. Defined.

Definition SamePublishedLocators (l r : PublishedEndpointSet) : bool :=
  EndpointEqual (Data l) (Data r) && EndpointEqual (Enrollment l) (Enrollment r).

Definition wrapHost {A} (label : string) (r : result A) : result A :=
  match r with Ok a => Ok a | Err e => Err (EMsg (label ++ ": " ++ errText e)) end.

Definition CanonicalSet (set : PublishedEndpointSet) : result PublishedEndpointSet :=
  if ps_Generation set =? 0 then Err (EMsg "published_endpoint_generation must be at least 1")
  else if (Port (Data set) =? 0) || (Port (Enrollment set) =? 0)
  then Err (EMsg "published ports must be nonzero")
  else
    dataHost ← wrapHost "data host" (Canonical (Host (Data set)));
    enrollHost ← wrapHost "enrollment host" (Canonical (Host (Enrollment set)));
    data ← wrapHost "data host" (ParseDialHost dataHost);
    enroll ← wrapHost "enrollment host" (ParseDialHost enrollHost);
    let canonical := mkEndpointSet (ps_Generation set) (mkEndpoint data (Port (Data set)))
                                   (mkEndpoint enroll (Port (Enrollment set))) in
    if EndpointEqual (Data canonical) (Enrollment canonical)
    then Err (EMsg "data and enrollment locators must not share the same canonical host:port")
    else Ok canonical.

Definition EqualSet (set other : PublishedEndpointSet) : bool :=
  match CanonicalSet set, CanonicalSet other with
  | Ok l, Ok r => (ps_Generation l =? ps_Generation r) && SamePublishedLocators l r
  | _, _ => false
  end.

Example dns_case : CanonicalDNSName "Tunnel.EXAMPLE.com." = Ok "tunnel.example.com"%string.
Proof. vm_compute. reflexivity. Qed.
Example dns_hyphen : ∃ e, CanonicalDNSName "a.-b" = Err e.
Proof. eexists. vm_compute. reflexivity. Qed.

(** ** What a canonical name is *)

Definition name_bytes (b : bytes) : Prop := Forall (λ c, is_label_byte c = true ∨ c = bz 46) b.

(** The names [CanonicalDNSName] returns. *)
Definition dns_ok (b : bytes) : Prop :=
  b ≠ [] ∧ blen b ≤ maxDNSNameOctets ∧ checkLabels (Strings.split_bytes (bz 46) b) = Ok ().

Lemma checkLabel_Ok l : checkLabel l = Ok () → l ≠ [] ∧ Forall (λ c, is_label_byte c = true) l.
Proof.
  unfold checkLabel. intros H. repeat case_match; try done. split; [by eapply bool_decide_eq_false_1|].
  apply List.Forall_forall. by apply forallb_forall.
Qed.

Lemma split_bytes_cons x b :
  ∃ f fs, Strings.split_bytes (bz 46) b = f :: fs ∧
    Strings.split_bytes (bz 46) (x :: b) = if decide (x = bz 46) then [] :: f :: fs else (x :: f) :: fs.
Proof.
  assert (Strings.split_bytes (bz 46) b ≠ []) as Hne.
  { destruct b as [|y b]; cbn; [done|]. repeat case_match; done. }
  destruct (Strings.split_bytes (bz 46) b) as [|f fs] eqn:Hs; [done|]. exists f, fs. split; [done|].
  cbn. rewrite Hs. case_bool_decide; by case_decide.
Qed.

Lemma checkLabels_cons l ls : checkLabels (l :: ls) = Ok () ↔ checkLabel l = Ok () ∧ checkLabels ls = Ok ().
Proof. cbn. unfold mbind, result_bind. destruct (checkLabel l) as [[]|]; naive_solver. Qed.

Lemma dns_bytes b : checkLabels (Strings.split_bytes (bz 46) b) = Ok () → name_bytes b.
Proof.
  enough (∀ f fs, Strings.split_bytes (bz 46) b = f :: fs →
    Forall (λ c, is_label_byte c = true) f → checkLabels fs = Ok () → name_bytes b) as H.
  { intros Hc. destruct (Strings.split_bytes (bz 46) b) as [|f fs] eqn:Hs.
    - destruct b as [|x b]; [by constructor|]. destruct (split_bytes_cons x b) as (? & ? & _ & He).
      rewrite Hs in He. by case_decide.
    - apply checkLabels_cons in Hc as [Hf Hfs]. apply (H f fs); auto. by apply checkLabel_Ok. }
  induction b as [|x b IH]; intros f fs Hs Hf Hfs; [constructor|].
  destruct (split_bytes_cons x b) as (g & gs & Hb & He). rewrite He in Hs. case_decide as Hx.
  - injection Hs as <- <-. apply checkLabels_cons in Hfs as [Hg Hgs].
    constructor; [by right|]. apply (IH g gs); auto. by apply checkLabel_Ok.
  - injection Hs as <- <-. apply List.Forall_cons_iff in Hf as [Hx1 Hf].
    constructor; [by left|]. by apply (IH g gs).
Qed.

(** Two dots in a row, or a dot at the end, leave an empty label. *)
Lemma split_empty_label b1 b2 :
  b2 = [] ∨ head b2 = Some (bz 46) →
  [] ∈ tail (Strings.split_bytes (bz 46) (b1 ++ bz 46 :: b2)).
Proof.
  intros H2. induction b1 as [|x b1 IH]; cbn [app].
  - destruct (split_bytes_cons (bz 46) b2) as (f & fs & Hb & ->). rewrite decide_True by done. cbn.
    enough (f = []) as -> by left. destruct H2 as [-> |H2]; [by injection Hb as <- <-|].
    destruct b2 as [|y b2]; [done|]. injection H2 as ->.
    destruct (split_bytes_cons (bz 46) b2) as (g & gs & _ & He). rewrite decide_True in He by done.
    rewrite He in Hb. by injection Hb as <- <-.
  - destruct (split_bytes_cons x (b1 ++ bz 46 :: b2)) as (f & fs & Hb & ->). rewrite Hb in IH. cbn in IH.
    case_decide; cbn; [by right|done].
Qed.

Lemma checkLabels_nonempty ls : checkLabels ls = Ok () → [] ∉ ls.
Proof.
  induction ls as [|l ls IH]; [intros _; apply not_elem_of_nil|].
  intros [Hl Hls]%checkLabels_cons. apply not_elem_of_cons. split; [|auto].
  apply checkLabel_Ok in Hl as [Hl _]. congruence.
Qed.

Lemma checkLabels_no_empty b1 b2 :
  b2 = [] ∨ head b2 = Some (bz 46) →
  checkLabels (Strings.split_bytes (bz 46) (b1 ++ bz 46 :: b2)) ≠ Ok ().
Proof.
  intros H2 Hc%checkLabels_nonempty. apply Hc. pose proof (split_empty_label b1 b2 H2) as Hin.
  destruct (Strings.split_bytes (bz 46) (b1 ++ bz 46 :: b2)) as [|l ls]; [done|]. by right.
Qed.

Lemma label_byte_range c : is_label_byte c = true ∨ c = bz 46 →
  45 ≤ zb c < 123 ∧ lower_byte c = c ∧ forbiddenRune (zb c) = false.
Proof.
  intros Hc. assert (zb c = 45 ∨ zb c = 46 ∨ 48 ≤ zb c ≤ 57 ∨ 97 ≤ zb c ≤ 122) as H.
  { destruct Hc as [Hc| ->]; [unfold is_label_byte in Hc; zbool; lia|by right; left]. }
  split; [lia|]. split; [unfold lower_byte; destruct (_ && _) eqn:E; [zbool; lia|done]|].
  unfold forbiddenRune. rewrite bool_decide_eq_false_2.
  - repeat (apply orb_false_iff; split); try (apply Z.ltb_ge || apply Z.eqb_neq); lia || done.
  - change (zb <$> to_bytes "/?#@:[]*%") with [47; 63; 35; 64; 58; 91; 93; 42; 37].
    intros Hin%list_elem_of_In. cbn in Hin. lia.
Qed.

Lemma checkRunes_ascii rs : Forall (λ r, r ≤ 127 ∧ forbiddenRune r = false) rs → checkRunes rs = Ok ().
Proof.
  induction 1 as [|r rs [Hr Hf] _ IH]; [done|]. cbn. rewrite (proj2 (Z.ltb_ge _ _)), Hf by lia. done.
Qed.

Lemma contains_bytes_iff b sub :
  Strings.contains_bytes b sub = true → ∃ b1 b2, b = b1 ++ sub ++ b2.
Proof.
  induction b as [|x b IH]; cbn.
  - rewrite orb_false_r. intros H%bool_decide_eq_true. exists [], []. rewrite take_nil in H. by subst.
  - intros [H%bool_decide_eq_true|H]%orb_true_iff.
    + exists [], (drop (length sub) (x :: b)). cbn [app]. rewrite <- H at 1. symmetry. apply take_drop.
    + destruct (IH H) as (b1 & b2 & ->). by exists (x :: b1), b2.
Qed.

Lemma has_suffix_split s p : Strings.has_suffix s p = true → ∃ b, to_bytes s = b ++ to_bytes p.
Proof.
  unfold Strings.has_suffix. intros [_ H%bool_decide_eq_true]%andb_true_iff.
  exists (take (String.length s - String.length p) (to_bytes s)). rewrite <- H at 1. symmetry. apply take_drop.
Qed.

(** A valid name that is not an IP literal is its own canonical form. *)
Lemma canonical_fixed b :
  dns_ok b → (∃ e, ParseAddr (to_string b) = Err e) → CanonicalDNSName (to_string b) = Ok (to_string b).
Proof.
  intros (Hne & Hlen & Hl) [e He]. pose proof (dns_bytes _ Hl) as Hb.
  assert (Forall (λ c, zb c < 128) b) as Ha.
  { eapply List.Forall_impl; [|exact Hb]. intros c Hc%label_byte_range. lia. }
  unfold CanonicalDNSName. rewrite bool_decide_eq_false_2.
  2:{ intros H%(f_equal to_bytes). by rewrite to_bytes_string in H. }
  unfold validString. rewrite to_bytes_string, Json.runes_ascii by done.
  rewrite (proj2 (forallb_forall _ _)).
  2:{ intros x Hx. apply in_map_iff in Hx as (c & <- & Hc). rewrite List.Forall_forall in Ha.
      specialize (Ha c Hc). cbn. unfold Utf8.rune_error. rewrite (proj2 (Z.eqb_neq _ _)) by lia. done. }
  cbn [negb]. rewrite He. destruct (Strings.has_suffix (to_string b) ".") eqn:Hd.
  { apply has_suffix_split in Hd as [b1 Hb1]. rewrite to_bytes_string in Hb1. subst b.
    exfalso. apply (checkLabels_no_empty b1 []); [by left|]. exact Hl. }
  cbn [andb]. destruct (Strings.contains (to_string b) "..") eqn:Hdd.
  { unfold Strings.contains in Hdd. rewrite to_bytes_string in Hdd.
    apply contains_bytes_iff in Hdd as (b1 & b2 & ->).
    exfalso. apply (checkLabels_no_empty b1 (bz 46 :: b2)); [by right|]. exact Hl. }
  unfold Utf8.range. rewrite to_bytes_string, Json.runes_ascii, <- list_fmap_compose by done.
  rewrite checkRunes_ascii.
  2:{ apply Forall_fmap. eapply List.Forall_impl; [|exact Hb]. intros c (H1 & _ & H3)%label_byte_range.
      cbn. split; [lia|done]. }
  cbn [mbind result_bind]. unfold ToLower. rewrite to_bytes_string.
  assert (lower_byte <$> b = b) as Hlow.
  { rewrite <- (list_fmap_id b) at 2. apply list_fmap_ext. intros i c Hc.
    eapply Forall_lookup_1 in Hb; [|exact Hc]. by apply label_byte_range. }
  rewrite Hlow, <- length_to_bytes, to_bytes_string. unfold blen in Hlen.
  rewrite (proj2 (Z.ltb_ge _ _)) by lia. rewrite Hl. done.
Qed.

Lemma canonical_ok name lower : CanonicalDNSName name = Ok lower → dns_ok (to_bytes lower).
Proof.
  unfold CanonicalDNSName. case_match; [done|]. case_match; [done|]. case_match; [done|].
  cbv zeta. destruct (_ && _) eqn:He; [done|]. destruct (Strings.contains _ _); [done|].
  intros (u & _ & Hr)%bind_Ok. case_match eqn:Hl; [done|]. apply bind_Ok in Hr as ([] & Hc & [= <-]).
  apply Z.ltb_ge in Hl. rewrite <- length_to_bytes in Hl. split_and!; [|done|done].
  intros Hn. rewrite Hn in Hc. done.
Qed.

(** ** IP literals *)

Lemma v4_fields_bytes s : ∀ first dot val dig pos acc v,
  v4_fields s first dot val dig pos acc = Ok v → Forall (λ c, Strings.is_digit c = true ∨ c = bz 46) s.
Proof.
  induction s as [|c s IH]; intros first dot val dig pos acc v Hv; [constructor|]. cbn [v4_fields] in Hv.
  destruct (Strings.is_digit c) eqn:Hc.
  - constructor; [by left|]. destruct (_ && _); [done|]. destruct (255 <? _); [done|]. by eapply IH.
  - destruct (zb c =? 46) eqn:Hd; [|done]. constructor.
    + right. apply Z.eqb_eq in Hd. rewrite <- (bz_zb c). by rewrite Hd.
    + destruct (_ || _); [done|]. destruct (pos =? 3)%nat; [done|]. by eapply IH.
Qed.

Lemma parse_kind_bytes b : parse_kind b = 58 → Exists (λ c, zb c = 58) b.
Proof.
  induction b as [|c b IH]; [done|]. cbn. destruct (_ || _) eqn:Hc; intros H; [by left|right; auto].
Qed.

Lemma lower_digits b :
  Forall (λ c, Strings.is_digit c = true ∨ c = bz 46) (lower_byte <$> b) → lower_byte <$> b = b.
Proof.
  rewrite Forall_fmap. induction 1 as [|c b Hc _ IH]; [done|]. cbn. f_equal; [|exact IH].
  cbn in Hc. unfold lower_byte in *. destruct (_ && _) eqn:E; [|done]. zbool.
  assert (zb (bz (zb c + 32)) = zb c + 32) as Hz by (rewrite zb_bz, Z.mod_small; lia).
  destruct Hc as [Hc|Hc]; [unfold Strings.is_digit in Hc; zbool|apply (f_equal zb) in Hc; change (zb (bz 46)) with 46 in Hc]; lia.
Qed.

(** The decimal digits of an octet. *)
Lemma octet_digits o : 0 ≤ o < 256 →
  Strings.digits 64 o [] =
    if o <? 10 then [bz (48 + o)]
    else if o <? 100 then [bz (48 + o / 10); bz (48 + o mod 10)]
    else [bz (48 + o / 100); bz (48 + o / 10 mod 10); bz (48 + o mod 10)].
Proof.
  intros Ho. cbn [Strings.digits]. destruct (o <? 10) eqn:H1; zbool.
  { rewrite (proj2 (Z.eqb_eq (o / 10) 0)) by dlia. by rewrite Z.mod_small by lia. }
  rewrite (proj2 (Z.eqb_neq (o / 10) 0)) by dlia. destruct (o <? 100) eqn:H2; zbool.
  { rewrite (proj2 (Z.eqb_eq (o / 10 / 10) 0)) by dlia. by rewrite (Z.mod_small (o / 10)) by dlia. }
  rewrite (proj2 (Z.eqb_neq (o / 10 / 10) 0)) by dlia.
  rewrite (proj2 (Z.eqb_eq (o / 10 / 10 / 10) 0)) by dlia.
  by rewrite Z.div_div, (Z.mod_small (o / (10 * 10))) by dlia.
Qed.

Lemma v4_digit k r first dot val dig pos acc :
  0 ≤ k < 10 → (dig = 1%nat → val ≠ 0) → val * 10 + k ≤ 255 →
  v4_fields (bz (48 + k) :: r) first dot val dig pos acc =
  v4_fields r false false (val * 10 + k) (S dig) pos acc.
Proof.
  intros Hk Hd Hv. cbn [v4_fields]. unfold Strings.is_digit. rewrite zb_bz, Z.mod_small by lia.
  rewrite (proj2 (Z.leb_le 48 _)), (proj2 (Z.leb_le _ 57)) by lia. cbn [andb].
  rewrite (proj2 (andb_false_iff _ _)).
  2:{ destruct (Nat.eqb_spec dig 1); [right; by apply Z.eqb_neq; auto|by left]. }
  replace (48 + k - 48) with k by lia. by rewrite (proj2 (Z.ltb_ge _ _)) by lia.
Qed.

Lemma v4_octet o r first dot pos acc :
  0 ≤ o < 256 →
  ∃ dig, v4_fields (Strings.digits 64 o [] ++ r) first dot 0 O pos acc = v4_fields r false false o dig pos acc.
Proof.
  intros Ho. rewrite octet_digits by done.
  destruct (o <? 10) eqn:H1; [|destruct (o <? 100) eqn:H2]; zbool; cbn [app].
  - exists 1%nat. rewrite v4_digit by (done || lia). do 2 f_equal.
  - exists 2%nat. rewrite v4_digit, v4_digit by (done || dlia). f_equal. dlia.
  - exists 3%nat. rewrite v4_digit, v4_digit, v4_digit by (done || dlia). f_equal. dlia.
Qed.

Lemma v4_dot r o dig pos acc :
  r ≠ [] → (pos < 3)%nat →
  v4_fields (bz 46 :: r) false false o dig pos acc = v4_fields r false true 0 O (S pos) (acc * 256 + o).
Proof.
  intros Hr Hp. cbn [v4_fields]. change (Strings.is_digit (bz 46)) with false.
  change (zb (bz 46) =? 46) with true. cbv iota. rewrite bool_decide_eq_false_2 by done. cbn [orb].
  by rewrite (proj2 (Nat.eqb_neq pos 3)) by lia.
Qed.

Lemma to_bytes_append a b : to_bytes (a ++ b) = to_bytes a ++ to_bytes b.
Proof.
  unfold to_bytes, list_byte_of_string. rewrite <- map_app. f_equal.
  induction a as [|c a IH]; [done|]. change (c :: list_ascii_of_string (a ++ b) = c :: (list_ascii_of_string a ++ list_ascii_of_string b)). by f_equal.
Qed.

Lemma to_bytes_itoa n : 0 ≤ n → to_bytes (Strings.itoa n) = Strings.digits 64 n [].
Proof. intros Hn. unfold Strings.itoa. by rewrite to_bytes_string, (proj2 (Z.ltb_ge _ _)) by lia. Qed.

Lemma digits_nonempty f n acc : f ≠ O → Strings.digits f n acc ≠ [].
Proof.
  destruct f as [|f]; [done|]. intros _. cbn. generalize (bz (48 + n mod 10)) (n / 10). revert acc.
  induction f as [|f IH]; intros acc x m; case_match; try done. cbn. apply IH.
Qed.

Lemma parse_v4_string ip : 0 ≤ ip < 2 ^ 32 → parse_v4 (to_bytes (v4_string ip)) = Ok ip.
Proof.
  intros Hip. unfold v4_string, parse_v4. rewrite !to_bytes_append, !to_bytes_itoa by dlia.
  change (to_bytes ".") with [bz 46]. cbn [app].
  assert (∀ n r, Strings.digits 64 n [] ++ r ≠ []) as Hne.
  { intros n r [Hn _]%app_eq_nil. by apply (digits_nonempty 64 n []) in Hn. }
  destruct (v4_octet (ip / 2 ^ 24 mod 256)
    (bz 46 :: Strings.digits 64 (ip / 2 ^ 16 mod 256) [] ++ bz 46 :: Strings.digits 64 (ip / 2 ^ 8 mod 256) [] ++
     bz 46 :: Strings.digits 64 (ip mod 256) []) true false 0 0 ltac:(dlia)) as [d1 ->].
  rewrite v4_dot by (apply Hne || lia).
  destruct (v4_octet (ip / 2 ^ 16 mod 256) (bz 46 :: Strings.digits 64 (ip / 2 ^ 8 mod 256) [] ++
     bz 46 :: Strings.digits 64 (ip mod 256) []) false true 1 (0 * 256 + ip / 2 ^ 24 mod 256) ltac:(dlia)) as [d2 ->].
  rewrite v4_dot by (apply Hne || lia).
  destruct (v4_octet (ip / 2 ^ 8 mod 256) (bz 46 :: Strings.digits 64 (ip mod 256) []) false true 2
    ((0 * 256 + ip / 2 ^ 24 mod 256) * 256 + ip / 2 ^ 16 mod 256) ltac:(dlia)) as [d3 ->].
  rewrite v4_dot by (by apply digits_nonempty || lia).
  rewrite <- (app_nil_r (Strings.digits 64 (ip mod 256) [])).
  edestruct (v4_octet (ip mod 256) [] false true 3) as [d4 ->]; [dlia|]. cbn [v4_fields Nat.ltb Nat.leb].
  f_equal. dlia.
Qed.

Lemma parse_kind_digits n r : parse_kind (Strings.digits 64 n [] ++ bz 46 :: r) = 46.
Proof.
  assert (∀ f n acc, parse_kind (acc ++ bz 46 :: r) = 46 →
            parse_kind (Strings.digits f n acc ++ bz 46 :: r) = 46) as H; [|by apply H].
  induction f as [|f IH]; intros m acc Ha; [done|]. cbn [Strings.digits].
  assert (parse_kind ((bz (48 + m mod 10) :: acc) ++ bz 46 :: r) = 46) as Hx.
  { cbn [app parse_kind]. rewrite zb_bz, Z.mod_small by dlia.
    rewrite (proj2 (Z.eqb_neq _ 46)), (proj2 (Z.eqb_neq _ 37)) by dlia.
    destruct (_ =? 58) eqn:E; [zbool; dlia|]. done. }
  case_match; [done|]. by apply IH.
Qed.

Lemma ParseAddr_v4 ip : 0 ≤ ip < 2 ^ 32 → ParseAddr (v4_string ip) = Ok (Addr4 ip).
Proof.
  intros Hip. pose proof (parse_v4_string ip Hip) as Hp. unfold ParseAddr.
  enough (parse_kind (to_bytes (v4_string ip)) = 46) as -> by (cbn; by rewrite Hp).
  unfold v4_string. rewrite to_bytes_append, to_bytes_itoa by dlia. apply parse_kind_digits.
Qed.

(** Canonical names are stable.  The lower-case name [CanonicalDNSName]
    returns is its own canonical form, and parses as the DNS locator it names;
    the only exception is a name written with a trailing dot whose rest is an
    IPv4 literal. *)
Theorem canonical_name_stable name lower :
  CanonicalDNSName name = Ok lower →
  (CanonicalDNSName lower = Ok lower ∧ ParseDialHost lower = Ok (mkDialHost AddrInvalid lower)) ∨
  (Strings.has_suffix name "." = true ∧ ∃ ip, ParseAddr lower = Ok (Addr4 ip)).
Proof.
  intros Hc. pose proof (canonical_ok _ _ Hc) as Hok.
  destruct (ParseAddr lower) as [a|e] eqn:Ha.
  - right. unfold ParseAddr in Ha. destruct (parse_kind (to_bytes lower) =? 46) eqn:Hk.
    + destruct (parse_v4 (to_bytes lower)) as [v|] eqn:Hv; [|done]. injection Ha as <-. split; [|by eexists].
      unfold CanonicalDNSName in Hc. case_match; [done|]. case_match; [done|].
      destruct (ParseAddr name) as [a|] eqn:Hn; [done|]. cbv zeta in Hc.
      destruct (Strings.has_suffix name ".") eqn:Hd; [done|]. exfalso. cbn [andb] in Hc.
      case_match; [done|]. apply bind_Ok in Hc as (u & _ & Hr). case_match; [done|].
      apply bind_Ok in Hr as ([] & _ & [= <-]). unfold ToLower in *. rewrite to_bytes_string in Hv, Hk.
      pose proof (v4_fields_bytes _ _ _ _ _ _ _ _ Hv) as Hb. apply lower_digits in Hb. rewrite Hb in Hv, Hk.
      unfold ParseAddr in Hn. by rewrite Hk, Hv in Hn.
    + destruct (parse_kind (to_bytes lower) =? 58) eqn:Hk'; [|done]. exfalso. apply Z.eqb_eq in Hk'.
      apply parse_kind_bytes, List.Exists_exists in Hk' as (c & Hin & Hz).
      pose proof (dns_bytes _ (proj2 (proj2 Hok))) as Hb. unfold name_bytes in Hb.
      rewrite List.Forall_forall in Hb. specialize (Hb c Hin).
      destruct Hb as [Hb| ->]; [unfold is_label_byte in Hb; zbool; lia|done].
  - left. pose proof (canonical_fixed (to_bytes lower) Hok) as Hf. rewrite to_string_bytes in Hf.
    specialize (Hf ltac:(by exists e)). split; [done|]. unfold ParseDialHost.
    rewrite bool_decide_eq_false_2 by (intros ->; by destruct Hok). by rewrite Ha, Hf.
Qed.

Lemma canonical_name_stable_witness :
  CanonicalDNSName "Tunnel.Example.COM." = Ok "tunnel.example.com"%string ∧
  CanonicalDNSName "tunnel.example.com" = Ok "tunnel.example.com"%string.
Proof.
  split; [vm_compute; reflexivity|].
  destruct (canonical_name_stable "Tunnel.Example.COM." "tunnel.example.com" ltac:(vm_compute; reflexivity))
    as [[H _]|[_ [ip H]]]; [exact H|]. vm_compute in H. discriminate.
Defined.

(** The exception: a dotted IPv4 literal becomes a DNS name that no longer has
    a canonical form. *)
Lemma dotted_ip_literal :
  ParseDialHost "127.0.0.1." = Ok (mkDialHost AddrInvalid "127.0.0.1") ∧
  ∃ e, Canonical (mkDialHost AddrInvalid "127.0.0.1") = Err e.
Proof. split; [|eexists]; vm_compute; reflexivity. Qed.

(** A host survives its JSON form: its canonical string parses back to it. *)
Definition canonical_host (h : DialHost) : Prop :=
  ∃ s, Canonical h = Ok s ∧ ParseDialHost s = Ok h.

(** IPv4 and DNS locators round-trip through their string form: whatever
    spelling a host was parsed from, printing it and parsing again gives the
    same host. *)
Theorem dial_host_roundtrip value h s :
  ParseDialHost value = Ok h → Canonical h = Ok s →
  (∃ ip, IP h = Addr4 ip ∧ 0 ≤ ip < 2 ^ 32) ∨ IP h = AddrInvalid →
  ParseDialHost s = Ok h.
Proof.
  intros Hp Hc Hip. unfold ParseDialHost in Hp. case_match; [done|].
  destruct (ParseAddr value) as [a|] eqn:Ha.
  - case_match; [done|]. injection Hp as <-. unfold Canonical, IPDialHost in *. cbn [IP Name] in *.
    destruct Hip as [(ip & Hip & Hr)|Hip]; rewrite Hip in Hc; [|by cbn in Hc].
    cbn [IsValid] in Hc. rewrite bool_decide_eq_true_2 in Hc by done. cbn in Hc. injection Hc as <-.
    unfold ParseDialHost. pose proof (ParseAddr_v4 ip Hr) as Hv. rewrite bool_decide_eq_false_2.
    + rewrite Hv. cbn. by rewrite Hip.
    + intros He. by rewrite He in Hv.
  - apply bind_Ok in Hp as (name & Hn & [= <-]). unfold Canonical in Hc. cbn [IP Name IsValid andb] in Hc.
    destruct (bool_decide (name = ""%string)) eqn:He; [done|]. cbn [negb] in Hc.
    pose proof (canonical_ok _ _ Hn) as Hok. destruct (ParseAddr name) as [a|e0] eqn:Hna.
    { exfalso. unfold CanonicalDNSName in Hc. rewrite He, Hna in Hc. by destruct (validString name). }
    pose proof (canonical_fixed (to_bytes name) Hok) as Hf. rewrite to_string_bytes in Hf.
    specialize (Hf ltac:(by exists e0)). rewrite Hf in Hc. injection Hc as <-.
    unfold ParseDialHost. by rewrite He, Hna, Hf.
Qed.

Lemma dial_host_roundtrip_witness :
  ParseDialHost "::ffff:192.0.2.7" = Ok (mkDialHost (Addr4 3221225991) "") ∧
  ParseDialHost "192.0.2.7" = Ok (mkDialHost (Addr4 3221225991) "").
Proof.
  split; [vm_compute; reflexivity|].
  apply (dial_host_roundtrip "::ffff:192.0.2.7"); [vm_compute; reflexivity|vm_compute; reflexivity|].
  left. exists 3221225991. split; [reflexivity|lia].
Defined.

End Locator.
