(* ===== verification/Grant.v ===== *)
(** * internal/grant

    Host-authoritative authorization leases: the status machine of a grant,
    durations and timestamps, the host's duration policy, the persisted clock
    high-water mark, the blocked-clock document and the expiry transaction. *)

From S2P Require Import Prelude GoStd Json StrictJson Time Host.
Import Time Json.

(** [fmt.Errorf("%w: text", sentinel)]. *)
Definition wrapErr (sentinel text : string) : error := EMsg (sentinel ++ ": " ++ text).

Module Grant.

(** ** state.go *)

Definition StatusEnrollmentPending : string := "enrollment_pending".
Definition StatusActive : string := "active".
Definition StatusExpirationPending : string := "expiration_pending".
Definition StatusExpired : string := "expired".
Definition StatusRotationPending : string := "rotation_pending".
Definition StatusRevocationPending : string := "revocation_pending".
Definition StatusRevoked : string := "revoked".

Definition knownStatuses : list string :=
  [StatusEnrollmentPending; StatusActive; StatusExpirationPending; StatusExpired;
   StatusRotationPending; StatusRevocationPending; StatusRevoked].

Definition eqs (a b : string) : bool := bool_decide (a = b).

Definition Known (status : string) : bool := existsb (eqs status) knownStatuses.
Definition Terminal (status : string) : bool := eqs status StatusExpired || eqs status StatusRevoked.

Definition CanTransition (from to : string) : bool :=
  if eqs from to then Known from
  else if eqs from StatusEnrollmentPending then eqs to StatusActive
  else if eqs from StatusActive then
    eqs to StatusExpirationPending || eqs to StatusRotationPending || eqs to StatusRevocationPending
  else if eqs from StatusExpirationPending then
    eqs to StatusExpired || eqs to StatusRevocationPending
  else if eqs from StatusRotationPending then
    eqs to StatusActive || eqs to StatusRevocationPending || eqs to StatusExpirationPending
  else if eqs from StatusRevocationPending then eqs to StatusRevoked
  else false.

Definition AuthorizeTransition (from to : string) : result () :=
  if negb (CanTransition from to)
  then Err (EMsg ("grant status " ++ from ++ " cannot transition to " ++ to)) else Ok ().

(** ** duration.go *)

Definition day_ : Duration := 24 * Hour.
Definition DefaultAuthorizationDuration : Duration := 30 * day_.
Definition DefaultMaximumAuthorizationDuration : Duration := 365 * day_.
Definition ImplementationMaximumAuthorizationDuration : Duration := 100 * 365 * day_.

Definition ErrInvalidDuration : string := "invalid authorization duration".
Definition badDuration {A} (text : string) : result A := Err (wrapErr ErrInvalidDuration text).

Definition ParseAccessDuration (value : string) : result Duration :=
  let trimmed := Strings.trim_space value in
  let b := to_bytes trimmed in
  if bool_decide (trimmed = ""%string) then badDuration "duration is empty"
  else if Strings.contains_any trimmed ".eE+/"
  then badDuration "fractional or scientific durations are forbidden"
  else if blen b <? 2 then badDuration "duration must be an integer followed by d, h, m, or s"
  else
    let unit := List.last b (bz 0) in
    let number := take (length b - 1) b in
    if bool_decide (number = []) || (byte0 number =? 45)
    then badDuration "duration must be a positive integer with a unit"
    else if existsb (λ c, (c <? 48) || (57 <? c)) (Utf8.range (to_string number))
    then badDuration "duration must be a positive integer with a unit"
    else match Strings.parse_uint (to_string number) 63 with
    | Err _ => badDuration "duration overflows the implementation limit"
    | Ok quantity =>
        if quantity =? 0 then badDuration "duration must be positive"
        else
          let unitDuration :=
            if zb unit =? 100 then Some day_
            else if zb unit =? 104 then Some Hour
            else if zb unit =? 109 then Some Minute
            else if zb unit =? 115 then Some Second
            else None in
          match unitDuration with
          | None => badDuration "duration unit must be d, h, m, or s"
          | Some u =>
              if ImplementationMaximumAuthorizationDuration / u <? quantity
              then badDuration "duration overflows the implementation limit"
              else
                let parsed := quantity * u in
                if negb (parsed mod Second =? 0)
                then badDuration "duration must be a whole number of seconds"
                else Ok parsed
          end
    end.

Definition Seconds (duration : Duration) : result Z :=
  if duration <=? 0 then badDuration "duration must be positive"
  else if negb (duration mod Second =? 0) then badDuration "duration must be a whole number of seconds"
  else if ImplementationMaximumAuthorizationDuration <? duration
  then badDuration "duration overflows the implementation limit"
  else Ok (duration / Second).

Definition DurationFromSeconds (seconds : Z) : result Duration :=
  if seconds <=? 0 then badDuration "duration seconds must be positive"
  else if ImplementationMaximumAuthorizationDuration / Second <? seconds
  then badDuration "duration overflows the implementation limit"
  else Ok (seconds * Second).

Definition FormatUTC (value : Time) : result string :=
  if IsZero value then badDuration "timestamp is zero" else Ok (to_string (Time.format value)).

Definition ParseUTC (value : string) : result Time :=
  if bool_decide (Strings.trim_space value = ""%string) then badDuration "timestamp is empty"
  else if negb (Strings.has_suffix value "Z")
  then badDuration "timestamp must be RFC 3339 UTC ending with Z"
  else match Time.parse (to_bytes value) with
       | Some t => Ok t
       | None => badDuration "timestamp must be RFC 3339 UTC"
       end.

Definition AuthorizationNotAfter (acceptedAt : Time) (durationSeconds : Z) : result (Time * string) :=
  duration ← DurationFromSeconds durationSeconds;
  if IsZero acceptedAt then badDuration "accepted_at is zero"
  else
    let notAfter := Add acceptedAt duration in
    if negb (After notAfter acceptedAt) then badDuration "authorization_not_after overflowed"
    else encoded ← FormatUTC notAfter; Ok (notAfter, encoded).

(** The layout 20060102150405, then Z. *)
Definition OpenSSHExpiryTime (notAfter : Time) : result string :=
  if IsZero notAfter then badDuration "expiry-time is zero"
  else
    let f := fields_of notAfter in
    Ok (to_string (fixed 4 (year f) ++ fixed 2 (month f) ++ fixed 2 (day f) ++ fixed 2 (hour f)
                     ++ fixed 2 (minute f) ++ fixed 2 (second f) ++ [bz 90])).

(** ** policy.go *)

Definition PolicyKind : string := "warptweet.host-authorization-policy".
Definition PolicySchemaVersion : Z := 1.
Definition maxPolicyBytes : Z := Z.shiftl 8 10.
Definition ErrInvalidPolicy : string := "invalid host authorization policy".

Record Policy := mkPolicy {
  p_Kind : string;
  p_SchemaVersion : Z;
  DefaultAuthorizationDurationSeconds : Z;
  MaximumAuthorizationDurationSeconds : Z;
}.

Definition zeroPolicy : Policy := mkPolicy "" 0 0 0.

Definition policyFields : list (field Policy) :=
  [("kind", string_field (λ v p, mkPolicy v (p_SchemaVersion p)
      (DefaultAuthorizationDurationSeconds p) (MaximumAuthorizationDurationSeconds p)));
   ("schema_version", int_field (λ v p, mkPolicy (p_Kind p) v
      (DefaultAuthorizationDurationSeconds p) (MaximumAuthorizationDurationSeconds p)));
   ("default_authorization_duration_seconds", int_field (λ v p, mkPolicy (p_Kind p)
      (p_SchemaVersion p) v (MaximumAuthorizationDurationSeconds p)));
   ("maximum_authorization_duration_seconds", int_field (λ v p, mkPolicy (p_Kind p)
      (p_SchemaVersion p) (DefaultAuthorizationDurationSeconds p) v))]%string.

Definition policyJSON (p : Policy) : json :=
  JObj [("kind", JStr (p_Kind p)); ("schema_version", JInt (p_SchemaVersion p));
        ("default_authorization_duration_seconds", JInt (DefaultAuthorizationDurationSeconds p));
        ("maximum_authorization_duration_seconds", JInt (MaximumAuthorizationDurationSeconds p))]%string.

Definition InstalledDefault : Policy :=
  mkPolicy PolicyKind PolicySchemaVersion (DefaultAuthorizationDuration / Second)
    (DefaultMaximumAuthorizationDuration / Second).

Definition badPolicy {A} (text : string) : result A := Err (wrapErr ErrInvalidPolicy text).

Definition Validate (policy : Policy) : result () :=
  if negb (eqs (p_Kind policy) PolicyKind) || negb (p_SchemaVersion policy =? PolicySchemaVersion)
  then badPolicy "unsupported kind or schema"
  else match DurationFromSeconds (DefaultAuthorizationDurationSeconds policy) with
  | Err e => badPolicy ("default_authorization_duration_seconds: " ++ errText e)
  | Ok _ =>
    match DurationFromSeconds (MaximumAuthorizationDurationSeconds policy) with
    | Err e => badPolicy ("maximum_authorization_duration_seconds: " ++ errText e)
    | Ok _ =>
      if MaximumAuthorizationDurationSeconds policy <? DefaultAuthorizationDurationSeconds policy
      then badPolicy "maximum must be at least the default" else Ok ()
    end
  end.

Definition ResolveDuration (policy : Policy) (requestedSeconds : Z) : result Z :=
  _ ← Validate policy;
  let seconds := if requestedSeconds =? 0 then DefaultAuthorizationDurationSeconds policy
                 else requestedSeconds in
  if seconds <=? 0 then badDuration "duration must be positive"
  else if MaximumAuthorizationDurationSeconds policy <? seconds
  then badDuration ("duration exceeds host maximum of "
         ++ Strings.itoa (MaximumAuthorizationDurationSeconds policy) ++ " seconds")
  else _ ← DurationFromSeconds seconds; Ok seconds.

(** The strict decoding every host document goes through. *)
Definition decodeStrict {A} (sentinel : string) (fs : list (field A)) (zero : A) (contents : bytes)
    : result A :=
  match StrictJson.RejectDuplicateObjectNames contents with
  | Err e => Err (wrapErr sentinel (errText e))
  | Ok _ =>
      match decode_document fs zero contents with
      | Err e => Err (wrapErr sentinel (errText e))
      | Ok a => Ok a
      end
  end.

(** ** expire.go *)

Record ExpirePlan := mkExpirePlan {
  ClientID : string;
  Generation : string;
  PublicKey : string;
  PublicKeySHA256 : string;
  Status : string;
  NotAfter : Time;
  Now : Time;
}.

Definition ReadyToExpire (notAfter now : Time) : bool :=
  if IsZero notAfter || IsZero now then false else negb (Before now notAfter).

Definition ValidateExpirePlan (plan : ExpirePlan) : result () :=
  if eqs (ClientID plan) "" || eqs (Generation plan) "" || eqs (PublicKey plan) ""
     || eqs (PublicKeySHA256 plan) ""
  then Err (EMsg "expiry requires client_id, generation, public_key, and public_key_sha256")
  else if IsZero (Now plan) || IsZero (NotAfter plan)
  then Err (EMsg "expiry requires accepted host timestamps")
  else if negb (ReadyToExpire (NotAfter plan) (Now plan))
          && negb (eqs (Status plan) StatusExpirationPending)
  then Err (EMsg ("grant " ++ ClientID plan ++ " is not due to expire"))
  else if eqs (Status plan) StatusActive || eqs (Status plan) StatusExpirationPending
          || eqs (Status plan) StatusRotationPending
  then Ok ()
  else Err (EMsg ("grant status " ++ Status plan ++ " cannot expire")).

(** The host side effects, over the state [S] they act on; a nil operation is
    [None]. *)
Record ExpireOps (S : Type) := mkExpireOps {
  RemoveAuthorization : option (string → S → result () * S);
  VerifyAuthorizationGone : option (string → S → result () * S);
  TerminateSession : option (string → string → string → S → result () * S);
  VerifySessionGone : option (string → string → string → S → result () * S);
  BurnManagementToken : option (S → result string * S);
}.
Arguments mkExpireOps {S}.
Arguments RemoveAuthorization {S}.
Arguments VerifyAuthorizationGone {S}.
Arguments TerminateSession {S}.
Arguments VerifySessionGone {S}.
Arguments BurnManagementToken {S}.

Definition wrapStep (label : string) (e : error) : error :=
  match e with EPanic w => EPanic w | _ => EMsg (label ++ ": " ++ errText e) end.

(** Run one operation; stop with its wrapped error. *)
Definition runStep {S A} (label : string) (op : S → result A * S) (k : S → result () * S) (s : S)
    : result () * S :=
  match op s with
  | (Err e, s') => (Err (wrapStep label e), s')
  | (Ok _, s') => k s'
  end.

Definition ExecuteExpire {S} (plan : ExpirePlan) (ops : ExpireOps S) (s : S) : result () * S :=
  match ValidateExpirePlan plan with
  | Err e => (Err e, s)
  | Ok _ =>
    match AuthorizeTransition (Status plan) StatusExpirationPending with
    | Err e => (Err e, s)
    | Ok _ =>
      match RemoveAuthorization ops, VerifyAuthorizationGone ops, TerminateSession ops,
            VerifySessionGone ops, BurnManagementToken ops with
      | Some remove, Some verifyAuth, Some terminate, Some verifySession, Some burn =>
          runStep "remove effective authorization" (remove (PublicKey plan))
            (runStep "terminate matching session" (terminate (ClientID plan) "" "")
              (runStep "authorization still effective" (verifyAuth (PublicKey plan))
                (runStep "matching session still effective" (verifySession (ClientID plan) "" "")
                  (runStep "burn management capability" burn (λ s, (Ok (), s)))))) s
      | _, _, _, _, _ => (Err (EMsg "expiry operations are incomplete"), s)
      end
    end
  end.

(** ** atomic.go *)

Section files.
Context (H : hostEnv).

Definition writeAtomic (path : string) (contents : bytes) (prefix : string) : HM () :=
  sys H;;                                        (* MkdirAll *)
  replaceFile H false path prefix contents
    (sys H;;                                     (* open the directory *)
     sys H;;                                     (* sync it *)
     sys H).                                     (* close it *)

Definition LoadPolicy (path : string) : HM Policy :=
  r ← htry (ReadFile H path);
  match r with
  | Err e => if IsNotExist e then mret InstalledDefault else hfail e
  | Ok contents =>
      if (blen contents =? 0) || (maxPolicyBytes <? blen contents)
      then hlift (badPolicy "policy file is empty or oversized")
      else
        policy ← hlift (decodeStrict ErrInvalidPolicy policyFields zeroPolicy contents);
        hlift (Validate policy);;
        mret policy
  end.

Definition WritePolicy (path : string) (policy : Policy) : HM () :=
  hlift (Validate policy);;
  writeAtomic path (print (policyJSON policy) ++ [bz 10]) ".wt-host-policy-".

(** ** clock.go *)

Definition ClockKind : string := "warptweet.host-clock-observation".
Definition ClockSchemaVersion : Z := 1.
Definition MaterialRollback : Duration := Second.
Definition maxClockBytes : Z := Z.shiftl 4 10.
Definition ErrInvalidClock : string := "host clock is invalid".

Record ClockObservation := mkClock {
  c_Kind : string;
  c_SchemaVersion : Z;
  LastObservedUTC : string;
}.
Definition zeroClock : ClockObservation := mkClock "" 0 "".

Definition clockFields : list (field ClockObservation) :=
  [("kind", string_field (λ v c, mkClock v (c_SchemaVersion c) (LastObservedUTC c)));
   ("schema_version", int_field (λ v c, mkClock (c_Kind c) v (LastObservedUTC c)));
   ("last_observed_utc", string_field (λ v c, mkClock (c_Kind c) (c_SchemaVersion c) v))]%string.
Definition clockJSON (c : ClockObservation) : json :=
  JObj [("kind", JStr (c_Kind c)); ("schema_version", JInt (c_SchemaVersion c));
        ("last_observed_utc", JStr (LastObservedUTC c))]%string.

Definition badClock {A} (text : string) : result A := Err (wrapErr ErrInvalidClock text).

Definition LoadClockObservation (path : string) : HM ClockObservation :=
  contents ← ReadFile H path;
  if (blen contents =? 0) || (maxClockBytes <? blen contents)
  then hlift (badClock "clock observation is empty or oversized")
  else
    observation ← hlift (decodeStrict ErrInvalidClock clockFields zeroClock contents);
    if negb (eqs (c_Kind observation) ClockKind)
       || negb (c_SchemaVersion observation =? ClockSchemaVersion)
    then hlift (badClock "unsupported clock observation schema")
    else mret observation.

Definition writeClockObservation (path : string) (observation : ClockObservation) : HM () :=
  writeAtomic path (print (clockJSON observation) ++ [bz 10]) ".wt-clock-".

(** The end of [ObserveClock]: [now] becomes the mark. *)
Definition recordClock (path : string) (now : Time) : HM ClockObservation :=
  encoded ← hlift (FormatUTC now);
  let observation := mkClock ClockKind ClockSchemaVersion encoded in
  writeClockObservation path observation;;
  mret observation.

Definition ObserveClock (path : string) (now : Time) : HM ClockObservation :=
  if IsZero now then hlift (badClock "current time is zero")
  else if (Year now <? 2020) || (2200 <? Year now) then hlift (badClock "current time is implausible")
  else
    r ← htry (LoadClockObservation path);
    match r with
    | Err e => if IsNotExist e then recordClock path now else hfail e
    | Ok existing =>
        match ParseUTC (LastObservedUTC existing) with
        | Err e => hlift (badClock ("stored observation: " ++ errText e))
        | Ok previous =>
            if Before (Add now MaterialRollback) previous
            then hlift (badClock "wall clock rolled back")
            else if Before now previous then mret existing
            else recordClock path now
        end
    end.

(** ** blocked.go *)

Definition BlockedClockKind : string := "warptweet.host-blocked-clock".
Definition BlockedClockSchemaVersion : Z := 1.

Record BlockedClock := mkBlocked {
  b_Kind : string;
  b_SchemaVersion : Z;
  Reason : string;
  BlockedAt : string;
}.
Definition zeroBlocked : BlockedClock := mkBlocked "" 0 "" "".
Definition blockedFields : list (field BlockedClock) :=
  [("kind", string_field (λ v c, mkBlocked v (b_SchemaVersion c) (Reason c) (BlockedAt c)));
   ("schema_version", int_field (λ v c, mkBlocked (b_Kind c) v (Reason c) (BlockedAt c)));
   ("reason", string_field (λ v c, mkBlocked (b_Kind c) (b_SchemaVersion c) v (BlockedAt c)));
   ("blocked_at", string_field (λ v c, mkBlocked (b_Kind c) (b_SchemaVersion c) (Reason c) v))]%string.
Definition blockedJSON (c : BlockedClock) : json :=
  JObj [("kind", JStr (b_Kind c)); ("schema_version", JInt (b_SchemaVersion c));
        ("reason", JStr (Reason c)); ("blocked_at", JStr (BlockedAt c))]%string.

Definition LoadBlockedClock (path : string) : HM BlockedClock :=
  contents ← ReadFile H path;
  match unmarshal blockedFields zeroBlocked contents with
  | Err e => hlift (badClock ("blocked clock: " ++ errText e))
  | Ok blocked =>
      if negb (eqs (b_Kind blocked) BlockedClockKind)
         || negb (b_SchemaVersion blocked =? BlockedClockSchemaVersion)
      then hlift (badClock "unsupported blocked-clock schema")
      else mret blocked
  end.

Definition WriteBlockedClock (path reason : string) (now : Time) : HM () :=
  let encoded := match FormatUTC now with
                 | Ok s => s
                 | Err _ => to_string (Time.format now)
                 end in
  writeAtomic path
    (print (blockedJSON (mkBlocked BlockedClockKind BlockedClockSchemaVersion reason encoded)) ++ [bz 10])
    ".wt-blocked-".

Definition ClearBlockedClock (path : string) : HM () :=
  r ← htry (Remove H path);
  match r with
  | Err e => if IsNotExist e then mret () else hfail e
  | Ok _ => mret ()
  end.

Definition ClockIsBlocked (path : string) : HM bool :=
  r ← htry (LoadBlockedClock path);
  match r with
  | Ok _ => mret true
  | Err e => mret (negb (IsNotExist e))
  end.

End files.
End Grant.
