(* ===== verification/GrantProps.v ===== *)
(** * Leases: what they guarantee

    Status transitions, durations, the policy document, atomic replacement of
    documents under faults, the clock high-water mark and the expiry
    transaction. *)

From S2P Require Import Prelude GoStd Json StrictJson Time Host Grant.
Import Time Json Grant.

(** ** Statuses *)

Definition transition (a b : string) : Prop := CanTransition a b = true.

(** A grant that is ending: it can only move towards expired or revoked. *)
Definition Closing (s : string) : bool :=
  eqs s StatusExpirationPending || eqs s StatusExpired || eqs s StatusRevocationPending
  || eqs s StatusRevoked.

Ltac status_cases :=
  unfold CanTransition, Known, Terminal, Closing, eqs, knownStatuses in *; cbn [existsb] in *;
  repeat match goal with
  | |- context [bool_decide (?x = ?y)] => destruct (bool_decide_reflect (x = y)); subst; try done
  | Hx : context [bool_decide (?x = ?y)] |- _ => destruct (bool_decide_reflect (x = y)); subst; try done
  end.

Lemma closing_step a b : Closing a = true → transition a b → Closing b = true.
Proof. unfold transition. intros Ha Hb. status_cases. Qed.

(** A lease that has started to expire or to be revoked never becomes
    usable again: whatever transitions follow, it is never active, pending
    rotation or pending enrollment, and once expired or revoked it does not
    move. *)
Theorem closing_is_final a b :
  Closing a = true → rtc transition a b →
  Closing b = true ∧ b ≠ StatusActive ∧ b ≠ StatusRotationPending ∧ b ≠ StatusEnrollmentPending ∧
  (Terminal a = true → b = a).
Proof.
  intros Ha Hr. assert (Closing b = true ∧ (Terminal a = true → b = a)) as [Hb Ht].
  { induction Hr as [x|x y z Hxy _ IH]; [done|]. destruct (IH (closing_step x y Ha Hxy)) as [Hz Hterm].
    split; [done|]. intros Hx. assert (y = x) as ->.
    { unfold transition in Hxy. clear -Hx Hxy. status_cases. }
    by apply Hterm. }
  split_and!; try done; intros ->; by vm_compute in Hb.
Qed.

Lemma closing_is_final_witness :
  Closing StatusRevoked = true ∧ StatusRevoked ≠ StatusActive ∧ StatusRevoked ≠ StatusRotationPending ∧
  StatusRevoked ≠ StatusEnrollmentPending ∧ (Terminal StatusExpirationPending = true → StatusRevoked = StatusExpirationPending).
Proof.
  apply (closing_is_final StatusExpirationPending StatusRevoked); [vm_compute; reflexivity|].
  eapply (rtc_l _ _ StatusRevocationPending); [vm_compute; reflexivity|].
  eapply rtc_l; [|apply rtc_refl]. vm_compute. reflexivity.
Defined.

(** ** Durations *)

Lemma units_divide u :
  u = day_ ∨ u = Hour ∨ u = Minute ∨ u = Second →
  0 < u ∧ u mod Second = 0 ∧ ImplementationMaximumAuthorizationDuration / u * u ≤ ImplementationMaximumAuthorizationDuration.
Proof. intros [-> |[-> |[-> | ->]]]; vm_compute; by split_and!. Qed.

Lemma dec_acc_nonneg b : ∀ acc, 0 ≤ acc → forallb Strings.is_digit b = true → 0 ≤ Strings.dec_acc acc b.
Proof.
  induction b as [|x b IH]; intros acc Ha Hb; [done|]. cbn [forallb] in Hb.
  apply andb_true_iff in Hb as [Hx Hb]. cbn [Strings.dec_acc]. apply IH; [|done].
  unfold Strings.is_digit in Hx. zbool. lia.
Qed.

Lemma parse_uint_nonneg s bits v : Strings.parse_uint s bits = Ok v → 0 ≤ v.
Proof.
  unfold Strings.parse_uint. cbv zeta. case_bool_decide; [done|].
  destruct (forallb Strings.is_digit (to_bytes s)) eqn:Hd; cbn [negb]; [|done].
  case_match; [|done]. intros [= <-]. by apply dec_acc_nonneg.
Qed.

(** What the two conversions accept. *)
Lemma Seconds_Ok d s :
  Seconds d = Ok s ↔ s = d / Second ∧ 0 < d ≤ ImplementationMaximumAuthorizationDuration ∧ d mod Second = 0.
Proof. unfold Seconds. repeat (case_match; zbool; [split; [done|lia]|]). split; [intros [= <-]; lia|by intros [-> _]]. Qed.

Lemma DurationFromSeconds_Ok s d :
  DurationFromSeconds s = Ok d ↔
  d = s * Second ∧ 0 < s ≤ ImplementationMaximumAuthorizationDuration / Second.
Proof.
  unfold DurationFromSeconds. repeat (case_match; zbool; [split; [done|lia]|]).
  split; [intros [= <-]; lia|by intros [-> _]].
Qed.

(** A duration the command line accepts is a whole, positive number of
    seconds within the implementation limit, so it never overflows 64-bit
    nanoseconds, and converting it to seconds and back is the identity. *)
Theorem access_duration_bounds value d :
  ParseAccessDuration value = Ok d →
  0 < d ≤ ImplementationMaximumAuthorizationDuration ∧ d < 2 ^ 63 ∧ d mod Second = 0 ∧
  ∃ s, Seconds d = Ok s ∧ DurationFromSeconds s = Ok d.
Proof.
  unfold ParseAccessDuration. cbv zeta. intros Hp. do 5 (case_match; [done|]).
  destruct (Strings.parse_uint _ _) as [q|e] eqn:Hq; [|done]. apply parse_uint_nonneg in Hq.
  destruct (q =? 0) eqn:Hq0; [done|].
  destruct (if zb _ =? 100 then _ else _) as [u|] eqn:Hu; [|done].
  assert (u = day_ ∨ u = Hour ∨ u = Minute ∨ u = Second) as Hunit
    by (repeat case_match; simplify_eq; auto). clear Hu.
  destruct (units_divide u Hunit) as (Hpos & Hmod & Hmax).
  destruct (_ <? q) eqn:Hlt; [done|]. destruct (q * u mod Second =? 0) eqn:Hs; [|done].
  injection Hp as <-. zbool.
  assert (0 < q * u ≤ ImplementationMaximumAuthorizationDuration) as Hb by nia.
  assert (ImplementationMaximumAuthorizationDuration < 2 ^ 63) by done.
  split_and!; [lia..|done|]. exists (q * u / Second). split; [by apply Seconds_Ok|].
  apply DurationFromSeconds_Ok.
  assert (q * u = q * u / Second * Second) as Heq by (unfold Second in *; dlia).
  split; [done|]. split; [unfold Second in *; dlia|]. apply Z.div_le_mono; [done|lia].
Qed.

Lemma access_duration_bounds_witness :
  ParseAccessDuration " 30d " = Ok DefaultAuthorizationDuration ∧
  ∃ s, Seconds DefaultAuthorizationDuration = Ok s ∧ DurationFromSeconds s = Ok DefaultAuthorizationDuration.
Proof.
  assert (ParseAccessDuration " 30d " = Ok DefaultAuthorizationDuration) as Hp by (vm_compute; reflexivity).
  split; [exact Hp|]. apply (access_duration_bounds " 30d " _ Hp).
Defined.

(** The lease length granted: a request of zero takes the host's default,
    any other is taken as it is, and it is refused, never clamped, unless it
    is positive and at most the host's maximum. *)
Theorem resolve_duration_exact policy requested s :
  ResolveDuration policy requested = Ok s ↔
  Validate policy = Ok () ∧
  s = (if requested =? 0 then DefaultAuthorizationDurationSeconds policy else requested) ∧
  0 < s ≤ MaximumAuthorizationDurationSeconds policy.
Proof.
  unfold ResolveDuration. destruct (Validate policy) as [[]|e] eqn:Hv; cbn; [|naive_solver].
  set (x := if requested =? 0 then _ else _). case_match eqn:H1; zbool; [naive_solver lia|].
  case_match eqn:H2; zbool; [naive_solver lia|].
  assert (MaximumAuthorizationDurationSeconds policy ≤ ImplementationMaximumAuthorizationDuration / Second) as Hm.
  { unfold Validate in Hv. case_match; [done|]. case_match; [|done].
    destruct (DurationFromSeconds (MaximumAuthorizationDurationSeconds policy)) as [m|] eqn:Hd; [|done].
    apply DurationFromSeconds_Ok in Hd. lia. }
  rewrite (proj2 (DurationFromSeconds_Ok x (x * Second))) by (split; [done|lia]). cbn.
  split; [intros [= <-]; split_and!; [done|done|lia..]|]. by intros (_ & -> & _).
Qed.

(** ** Timestamps *)

Lemma has_suffix_app b p : Strings.has_suffix (to_string (b ++ to_bytes p)) p = true.
Proof.
  unfold Strings.has_suffix. rewrite to_bytes_string, <- !length_to_bytes, to_bytes_string, length_app.
  apply andb_true_iff. split; [apply Nat.leb_le; lia|]. apply bool_decide_eq_true.
  rewrite drop_app_length'; [done|lia].
Qed.

Lemma drop_space_last l x :
  Utf8.is_space x.1 = false → ∃ l', Strings.drop_space (l ++ [x]) = l' ++ [x].
Proof.
  intros Hx. induction l as [|[r e] l IH].
  - exists []. destruct x as [r e]. cbn in *. by rewrite Hx.
  - cbn. case_match; [exact IH|]. by exists ((r, e) :: l).
Qed.

(** A string that starts with a visible ASCII character is not blank. *)
Lemma trim_space_visible c r :
  zb c < 128 → Utf8.is_space (zb c) = false → Strings.trim_space (to_string (c :: r)) ≠ ""%string.
Proof.
  intros Hc Hs. unfold Strings.trim_space. rewrite to_bytes_string. unfold Utf8.runes.
  cbn [length Utf8.runes_fuel]. unfold Utf8.decode_rune. rewrite (proj2 (Z.ltb_lt _ _) Hc). cbv beta iota.
  change (take 1 (c :: r)) with [c]. cbn [Strings.drop_space]. rewrite Hs, reverse_cons.
  match goal with |- context [Strings.drop_space (?l ++ [?x])] =>
    destruct (drop_space_last l x Hs) as [l' ->] end.
  rewrite reverse_snoc, fmap_cons. cbn [concat snd app]. intros He.
  apply (f_equal to_bytes) in He. by rewrite to_bytes_string in He.
Qed.

Lemma fixed_head n v : ∃ k r, 0 ≤ k < 10 ∧ fixed (S n) v = bz (48 + k) :: r.
Proof.
  revert v. induction n as [|n IH]; intros v.
  - exists (v mod 10), []. split; [dlia|done].
  - destruct (IH (v / 10)) as (k & r & Hk & Hf). exists k, (r ++ [bz (48 + v mod 10)]).
    split; [done|]. change (fixed (S (S n)) v) with (fixed (S n) (v / 10) ++ [bz (48 + v mod 10)]).
    by rewrite Hf.
Qed.

Lemma ParseUTC_format t : 0 ≤ Year t ≤ 9999 → ParseUTC (to_string (Time.format t)) = Ok t.
Proof.
  intros Hy. unfold ParseUTC. rewrite bool_decide_eq_false_2.
  - unfold Time.format at 1. rewrite !app_assoc.
    change [bz 90] with (to_bytes "Z"). rewrite has_suffix_app. cbn [negb].
    by rewrite to_bytes_string, parse_format.
  - unfold Time.format. destruct (fixed_head 3 (year (fields_of t))) as (k & r & Hk & ->). cbn [app].
    apply trim_space_visible; rewrite zb_bz, Z.mod_small by lia; [lia|].
    unfold Utf8.is_space. lia.
Qed.

(** The end of a lease: accepted_at plus its duration, exactly, and the
    timestamp written for it reads back as that instant. *)
Theorem not_after_exact acceptedAt seconds notAfter encoded :
  AuthorizationNotAfter acceptedAt seconds = Ok (notAfter, encoded) →
  notAfter = acceptedAt + seconds * Second ∧ acceptedAt < notAfter ∧
  (0 ≤ Year notAfter ≤ 9999 → ParseUTC encoded = Ok notAfter).
Proof.
  unfold AuthorizationNotAfter. intros (d & Hd & Hr)%bind_Ok. apply DurationFromSeconds_Ok in Hd as [-> Hs].
  case_match; [done|]. case_match eqn:Ha; [done|]. apply bind_Ok in Hr as (e & He & [= <- <-]).
  unfold After, Add in *. apply negb_false_iff, Z.ltb_lt in Ha. split_and!; [done|done|].
  intros Hy. unfold FormatUTC in He. case_match; [done|]. injection He as <-. by apply ParseUTC_format.
Qed.

Definition sampleAccepted : Time := time_of (mkFields 2026 1 31 12 0 0 5).
Lemma not_after_exact_witness :
  ∃ notAfter encoded, AuthorizationNotAfter sampleAccepted 2592000 = Ok (notAfter, encoded) ∧
    encoded = "2026-03-02T12:00:00.000000005Z"%string ∧ ParseUTC encoded = Ok notAfter.
Proof.
  eexists _, _. split; [vm_compute; reflexivity|]. split; [vm_compute; reflexivity|].
  refine (proj2 (proj2 (not_after_exact sampleAccepted 2592000 _ _ _)) _); [vm_compute; reflexivity|].
  split; vm_compute; congruence.
Defined.

(** ** Atomic replacement *)

Lemma writeAtomic_replaced H path prefix contents fs0 :
  (∀ n, fs0 !! tempName H path prefix n = None → path ≠ tempName H path prefix n) →
  htriple (λ fs, fs = fs0) (writeAtomic H path contents prefix) (replaced H path prefix contents fs0).
Proof.
  intros Hpath. unfold writeAtomic. eapply (htriple_bind _ _ (λ _ fs, fs = fs0)).
  { apply htriple_sys. intros [] fs ->; [done|]. split_and!; auto; done. }
  intros _. apply replaceFile_replaced; [exact Hpath|]. intros fs.
  repeat (apply bind_keeps; [|intros _]); apply sys_keeps.
Qed.

(** Replacing a document on disk is all or nothing.  Whatever system calls
    fail, and however much a failed write leaves behind, the document holds
    its old contents or the whole new ones; on success the new ones; no other
    existing file changes. *)
Theorem write_atomic_all_or_nothing H path contents prefix w :
  (∀ n, path ≠ tempName H path prefix n) →
  let out := writeAtomic H path contents prefix w in
  (files out.2 !! path = files w !! path ∨ files out.2 !! path = Some contents) ∧
  (out.1 = Ok () → files out.2 !! path = Some contents) ∧
  (∀ q, q ≠ path → is_Some (files w !! q) → files out.2 !! q = files w !! q).
Proof.
  intros Hpath out. destruct (writeAtomic_replaced H path prefix contents (files w) (λ n _, Hpath n) w eq_refl) as (H1 & H2 & H3).
  split_and!; [done..|]. intros q Hq [x Hx]. destruct (H3 q Hq) as [?|[Hn _]]; [done|congruence].
Qed.

(** A host whose write fails half way. *)
Definition tornHost : hostEnv :=
  mkHostEnv (λ n, if decide (n = 3%nat) then Some (EOS EIO) else None) (λ _, 2%nat) (λ _, 1) (λ _, "123"%string).
Definition sampleWorld : world := mkWorld (<["/var/lib/wt/clock.json"%string := to_bytes "old"]> ∅) 0.

Lemma write_atomic_all_or_nothing_witness :
  let out := writeAtomic tornHost "/var/lib/wt/clock.json" (to_bytes "new!") ".wt-clock-" sampleWorld in
  out.1 = Err (EOS EIO) ∧
  (files out.2 !! "/var/lib/wt/clock.json"%string = files sampleWorld !! "/var/lib/wt/clock.json"%string ∨
   files out.2 !! "/var/lib/wt/clock.json"%string = Some (to_bytes "new!")).
Proof.
  intros out. split; [vm_compute; reflexivity|].
  apply (write_atomic_all_or_nothing tornHost "/var/lib/wt/clock.json" (to_bytes "new!") ".wt-clock-" sampleWorld).
  intros n. vm_compute. discriminate.
Defined.

(** ** Documents *)

(** A document written with [json.Marshal] passes the strict decoding. *)
Lemma decodeStrict_print {A} sentinel (fs : list (field A)) zero v a :
  wf 0 v → StrictJson.names_ok false 1 v = true → decode true fs v zero = Ok a →
  decodeStrict sentinel fs zero (print v ++ [bz 10]) = Ok a.
Proof.
  intros Hw Hn Hd. pose proof (parse_print v [bz 10] Hw eq_refl) as Hp.
  unfold decodeStrict, StrictJson.RejectDuplicateObjectNames.
  rewrite (proj2 (StrictJson.inspect_iff false (print v ++ [bz 10]))) by eauto 6.
  unfold decode_document. rewrite Hp. cbn [mbind result_bind]. rewrite Hd. done.
Qed.

Lemma wf_JInt d n : Z.abs n < 2 ^ 63 → wf d (JInt n).
Proof. intros Hn. by apply itoa_literal. Qed.

Lemma int_field_JInt {A} (set : Z → A → A) n a :
  Z.abs n < 2 ^ 63 → int_field set (JInt n) a = Ok (set n a).
Proof. intros Hn. unfold int_field, JInt. by rewrite (proj2 (itoa_literal n Hn)). Qed.

(** Run the decoding of a printed record, field by field. *)
Ltac decode_step :=
  cbn [decode_members];
  match goal with |- context [select ?fs ?name] =>
    let s := eval cbv -[int_field string_field bool_field] in (select fs name) in
    change (select fs name) with s end;
  cbv iota beta;
  first [rewrite int_field_JInt by (assumption || lia) | progress cbn [string_field bool_field]];
  cbn [mbind result_bind].

Lemma decode_policy p :
  Z.abs (p_SchemaVersion p) < 2 ^ 63 → Z.abs (DefaultAuthorizationDurationSeconds p) < 2 ^ 63 →
  Z.abs (MaximumAuthorizationDurationSeconds p) < 2 ^ 63 →
  decode true policyFields (policyJSON p) zeroPolicy = Ok p.
Proof.
  intros H1 H2 H3. unfold policyJSON, decode. repeat decode_step. cbn [decode_members]. by destruct p.
Qed.

Lemma decode_clock c :
  Z.abs (c_SchemaVersion c) < 2 ^ 63 → decode true clockFields (clockJSON c) zeroClock = Ok c.
Proof. intros H1. unfold clockJSON, decode. repeat decode_step. cbn [decode_members]. by destruct c. Qed.

Lemma length_print_string s : ascii s → (length (print_string s) ≤ 2 + 6 * String.length s)%nat.
Proof.
  intros Hs. unfold print_string. rewrite !length_app, <- length_to_bytes. unfold ascii in Hs.
  rewrite runes_ascii by done. cbn [length].
  enough (length (concat (quote_rune <$> ((λ c, (zb c, [c])) <$> to_bytes s))) ≤ 6 * length (to_bytes s))%nat by lia.
  induction Hs as [|c b Hc _ IH]; [cbn; lia|]. rewrite !fmap_cons. cbn [concat length].
  rewrite quote_rune_ascii, length_app by done.
  assert (length (quote_ascii c) ≤ 6)%nat by (unfold quote_ascii, u00; repeat case_match; cbn; lia). lia.
Qed.

(** Bounds on the text of a document. *)
Lemma length_digits f : ∀ n acc, (length (Strings.digits f n acc) ≤ f + length acc)%nat.
Proof.
  induction f as [|f IH]; intros n acc; cbn [Strings.digits]; [lia|]. case_match; [cbn; lia|].
  specialize (IH (n / 10) (bz (48 + n mod 10) :: acc)). cbn [length] in IH. lia.
Qed.
Lemma length_JInt n : (length (print (JInt n)) ≤ 65)%nat.
Proof.
  cbn [print JInt]. unfold Strings.itoa. rewrite to_bytes_string.
  pose proof (length_digits 64 (- n) []). pose proof (length_digits 64 n []).
  case_match; cbn [length] in *; lia.
Qed.
Lemma length_print_obj m :
  (length (print (JObj m)) ≤ 2 + foldr (λ x n, 2 + length (print_string x.1) + length (print x.2) + n) 0 m)%nat.
Proof.
  rewrite print_obj, !length_app. cbn [length].
  enough (length (commas (List.map print_member m)) ≤
    foldr (λ x n, 2 + length (print_string x.1) + length (print x.2) + n) 0 m)%nat by lia.
  induction m as [|x m IH]; [done|]. cbn [List.map foldr].
  assert (length (print_member x) = S (length (print_string x.1) + length (print x.2))) as Hx.
  { unfold print_member. rewrite !length_app. cbn [length]. lia. }
  destruct m as [|y m]; [cbn [List.map commas foldr]; lia|]. cbn [List.map] in *.
  rewrite commas_cons, !length_app by done. cbn [length]. lia.
Qed.

Lemma ascii_forallb s : forallb (λ c, zb c <? 128) (to_bytes s) = true → ascii s.
Proof.
  intros Hs. apply List.Forall_forall. intros c Hc. rewrite forallb_forall in Hs. apply Z.ltb_lt. auto.
Qed.

(** What a valid policy is. *)
Lemma Validate_Ok p :
  Validate p = Ok () ↔
  p_Kind p = PolicyKind ∧ p_SchemaVersion p = 1 ∧
  0 < DefaultAuthorizationDurationSeconds p ≤ MaximumAuthorizationDurationSeconds p ∧
  MaximumAuthorizationDurationSeconds p ≤ 3153600000.
Proof.
  assert (ImplementationMaximumAuthorizationDuration / Second = 3153600000) as Hmax by done.
  unfold Validate, eqs. destruct (bool_decide_reflect (p_Kind p = PolicyKind)) as [Hk|Hk]; cbn; [|naive_solver].
  unfold PolicySchemaVersion. destruct (p_SchemaVersion p =? 1) eqn:Hv; zbool; cbn; [|naive_solver].
  destruct (DurationFromSeconds (DefaultAuthorizationDurationSeconds p)) as [d|] eqn:Hd;
    [apply DurationFromSeconds_Ok in Hd|].
  2:{ split; [done|]. intros (_ & _ & H1 & H2).
      rewrite (proj2 (DurationFromSeconds_Ok _ _)) in Hd by (split; [done|lia]). done. }
  destruct (DurationFromSeconds (MaximumAuthorizationDurationSeconds p)) as [m|] eqn:Hm;
    [apply DurationFromSeconds_Ok in Hm|].
  2:{ split; [done|]. intros (_ & _ & H1 & H2).
      rewrite (proj2 (DurationFromSeconds_Ok _ _)) in Hm by (split; [done|lia]). done. }
  case_match eqn:Hlt; zbool; [split; [done|lia]|]. split; [|done]. intros _. split_and!; try done; lia.
Qed.

Definition policyText (p : Policy) : bytes := print (policyJSON p) ++ [bz 10].

Lemma policyText_decodes p :
  Validate p = Ok () →
  1 ≤ blen (policyText p) ≤ maxPolicyBytes ∧
  decodeStrict ErrInvalidPolicy policyFields zeroPolicy (policyText p) = Ok p.
Proof.
  intros (Hk & Hv & Hd & Hm)%Validate_Ok. split.
  - unfold policyText, blen. rewrite length_app. cbn [length].
    pose proof (length_print_obj [("kind"%string, JStr (p_Kind p)); ("schema_version"%string, JInt (p_SchemaVersion p));
      ("default_authorization_duration_seconds"%string, JInt (DefaultAuthorizationDurationSeconds p));
      ("maximum_authorization_duration_seconds"%string, JInt (MaximumAuthorizationDurationSeconds p))]) as Hl.
    rewrite Hk in Hl. cbn [foldr fst snd] in Hl. unfold policyJSON. rewrite Hk.
    pose proof (length_JInt (p_SchemaVersion p)). pose proof (length_JInt (DefaultAuthorizationDurationSeconds p)).
    pose proof (length_JInt (MaximumAuthorizationDurationSeconds p)).
    change (length (print_string "kind")) with 6%nat in Hl.
    change (length (print_string "schema_version")) with 16%nat in Hl.
    change (length (print_string "default_authorization_duration_seconds")) with 40%nat in Hl.
    change (length (print_string "maximum_authorization_duration_seconds")) with 40%nat in Hl.
    change (length (print (JStr PolicyKind))) with 37%nat in Hl. unfold maxPolicyBytes.
    change (Z.shiftl 8 10) with 8192. lia.
  - apply decodeStrict_print.
    + split; [done|]. repeat (split; [by apply ascii_forallb|split]); try done;
        try (apply wf_JInt; lia). cbn [wf]. rewrite Hk. by apply ascii_forallb.
    + reflexivity.
    + apply decode_policy; lia.
Qed.

(** The policy file round-trips: whatever system calls fail, a policy that
    [WritePolicy] reports written is the one the next [LoadPolicy] returns,
    unless its read fails. *)
Theorem policy_roundtrip H path p w w' :
  (∀ n, path ≠ tempName H path ".wt-host-policy-" n) →
  WritePolicy H path p w = (Ok (), w') →
  (LoadPolicy H path w').1 = Ok p ∨ ∃ e, h_fault H (calls w') = Some e.
Proof.
  intros Hpath. unfold WritePolicy, mbind, HM_bind, hlift.
  destruct (Validate p) as [[]|e] eqn:Hval; [|done]. intros Hw.
  destruct (writeAtomic_replaced H path ".wt-host-policy-" (policyText p) (files w) (λ n _, Hpath n) w eq_refl)
    as (_ & Hok & _). unfold policyText in Hok. rewrite Hw in Hok. specialize (Hok eq_refl). cbn [fst snd] in Hok.
  destruct (policyText_decodes p Hval) as [Hlen Hdec].
  unfold LoadPolicy, ReadFile, sys, call, get_files, htry, mbind, HM_bind. cbn [files calls].
  destruct (h_fault H (calls w')) as [e|]; [right; by exists e|left].
  cbn [mret HM_ret fst snd files]. rewrite Hok. fold (policyText p). cbn [mret HM_ret].
  rewrite (proj2 (Z.eqb_neq _ _)), (proj2 (Z.ltb_ge _ _)) by lia. cbn [orb].
  unfold hlift. rewrite Hdec, Hval. done.
Qed.

Definition calmHost : hostEnv := mkHostEnv (λ _, None) (λ _, O) (λ _, 1) (λ _, "123"%string).

Lemma policy_roundtrip_witness :
  ∃ w', WritePolicy calmHost "/etc/wt/policy.json" InstalledDefault sampleWorld = (Ok (), w') ∧
    ((LoadPolicy calmHost "/etc/wt/policy.json" w').1 = Ok InstalledDefault ∨
     ∃ e, h_fault calmHost (calls w') = Some e).
Proof.
  eexists. split; [vm_compute; reflexivity|].
  refine (policy_roundtrip calmHost "/etc/wt/policy.json" InstalledDefault sampleWorld _ _ _);
    [intros n; vm_compute; discriminate|vm_compute; reflexivity].
Defined.

(** ** The clock high-water mark *)

(** The observation a clock file holds, and the instant it records. *)
Definition loaded (path : string) (fs : gmap string bytes) : option ClockObservation :=
  contents ← fs !! path;
  if (blen contents =? 0) || (maxClockBytes <? blen contents) then None
  else match decodeStrict ErrInvalidClock clockFields zeroClock contents with
       | Ok o => if negb (eqs (c_Kind o) ClockKind) || negb (c_SchemaVersion o =? ClockSchemaVersion)
                 then None else Some o
       | Err _ => None
       end.
Definition mark (path : string) (fs : gmap string bytes) : option Time :=
  o ← loaded path fs;
  match ParseUTC (LastObservedUTC o) with Ok t => Some t | Err _ => None end.

(** The printed form of an instant is ASCII and short. *)
Lemma fixed_ascii n v : Forall (λ c, zb c < 128) (fixed n v).
Proof.
  eapply List.Forall_impl; [|apply fixed_digits]. intros c Hc. unfold Strings.is_digit in Hc. zbool. lia.
Qed.
Lemma length_drop_zeros b : (length (drop_zeros b) ≤ length b)%nat.
Proof. induction b as [|x b IH]; cbn; [done|]. case_match; cbn; lia. Qed.
Lemma drop_zeros_ascii b : Forall (λ c, zb c < 128) b → Forall (λ c, zb c < 128) (drop_zeros b).
Proof. induction 1 as [|x b Hx Hb IH]; cbn; [constructor|]. case_match; [done|by constructor]. Qed.

Lemma format_ascii t : ascii (to_string (Time.format t)) ∧ (length (Time.format t) ≤ 40)%nat.
Proof.
  assert (∀ n, Forall (λ c, zb c < 128) (fraction n) ∧ (length (fraction n) ≤ 10)%nat) as Hfr.
  { intros n. unfold fraction.
    pose proof (length_drop_zeros (reverse (fixed 9 n))) as Hl. rewrite length_reverse, length_fixed in Hl.
    assert (Forall (λ c, zb c < 128) (drop_zeros (reverse (fixed 9 n)))) as Ha
      by (apply drop_zeros_ascii, Forall_reverse, fixed_ascii).
    destruct (drop_zeros (reverse (fixed 9 n))) as [|x r]; [split; [constructor|cbn; lia]|].
    split; [constructor; [done|by apply Forall_reverse]|]. cbn [length]. rewrite length_reverse. lia. }
  unfold ascii. rewrite to_bytes_string. unfold Time.format.
  destruct (Hfr (nanosecond (fields_of t))) as [Hf1 Hf2]. split.
  - repeat (apply Forall_app; split; [first [apply fixed_ascii|done|by constructor]|]). by constructor.
  - rewrite !length_app, !length_fixed. cbn [length]. lia.
Qed.

Definition clockText (t : Time) : bytes :=
  print (clockJSON (mkClock ClockKind ClockSchemaVersion (to_string (Time.format t)))) ++ [bz 10].

Lemma clockText_mark path fs t :
  0 ≤ Year t ≤ 9999 → fs !! path = Some (clockText t) →
  loaded path fs = Some (mkClock ClockKind ClockSchemaVersion (to_string (Time.format t))) ∧
  mark path fs = Some t.
Proof.
  intros Hy Hfs. destruct (format_ascii t) as [Ha Hl].
  assert (loaded path fs = Some (mkClock ClockKind ClockSchemaVersion (to_string (Time.format t)))) as Hload.
  { unfold loaded. rewrite Hfs. cbn [mbind option_bind].
    assert (1 ≤ blen (clockText t) ≤ maxClockBytes) as Hlen.
    { unfold clockText, blen. rewrite length_app. cbn [length].
      pose proof (length_print_obj [("kind"%string, JStr ClockKind); ("schema_version"%string, JInt 1);
        ("last_observed_utc"%string, JStr (to_string (Time.format t)))]) as Hp.
      cbn [foldr fst snd] in Hp. pose proof (length_print_string _ Ha) as Hs.
      rewrite <- length_to_bytes, to_bytes_string in Hs.
      change (print (JStr (to_string (Time.format t)))) with (print_string (to_string (Time.format t))) in Hp.
      change (length (print_string "kind")) with 6%nat in Hp.
      change (length (print_string "schema_version")) with 16%nat in Hp.
      change (length (print_string "last_observed_utc")) with 19%nat in Hp.
      change (length (print (JStr ClockKind))) with 34%nat in Hp. change (length (print (JInt 1))) with 1%nat in Hp.
      unfold clockJSON. cbn [c_Kind c_SchemaVersion LastObservedUTC]. unfold ClockSchemaVersion, maxClockBytes.
      change (Z.shiftl 4 10) with 4096. lia. }
    rewrite (proj2 (Z.eqb_neq _ _)), (proj2 (Z.ltb_ge _ _)) by lia. cbn [orb].
    unfold clockText. rewrite (decodeStrict_print _ _ _ _ (mkClock ClockKind ClockSchemaVersion (to_string (Time.format t)))).
    - done.
    - split; [done|]. repeat (split; [by apply ascii_forallb|split]); try done;
        [by apply ascii_forallb|by apply wf_JInt].
    - reflexivity.
    - by apply decode_clock. }
  split; [exact Hload|]. unfold mark. rewrite Hload. cbn [mbind option_bind LastObservedUTC].
  by rewrite ParseUTC_format.
Qed.

Lemma mark_same path fs fs' : fs !! path = fs' !! path → mark path fs = mark path fs'.
Proof. intros He. unfold mark, loaded. by rewrite He. Qed.

(** What [ObserveClock] may leave behind, given the mark it found. *)
Definition observed (path : string) (fs0 : gmap string bytes) (now prev : Time)
    (r : result ClockObservation) (fs : gmap string bytes) : Prop :=
  (∃ m, mark path fs = Some m ∧ prev ≤ m ∧ (m = prev ∨ m = now)) ∧
  (∀ o, r = Ok o → ∃ m, mark path fs = Some m ∧ ParseUTC (LastObservedUTC o) = Ok m ∧ now ≤ m) ∧
  (now + Second < prev → (∃ e, r = Err e) ∧ fs !! path = fs0 !! path).

Lemma decodeStrict_exists {A} sentinel fs (zero : A) contents e :
  decodeStrict sentinel fs zero contents = Err e → IsNotExist e = false.
Proof.
  unfold decodeStrict, IsNotExist. intros He. apply bool_decide_eq_false. intros ->.
  revert He. unfold wrapErr. repeat case_match; congruence.
Qed.

Lemma LoadClock_loaded H path fs0 :
  honest H →
  htriple (λ fs, fs = fs0) (LoadClockObservation H path)
    (λ r fs, fs = fs0 ∧ match r with Ok o => loaded path fs0 = Some o
                                   | Err e => IsNotExist e = true → fs0 !! path = None end).
Proof.
  intros Hh. unfold LoadClockObservation.
  eapply (htriple_bind _ _ (λ c fs, fs = fs0 ∧ fs0 !! path = Some c)).
  { eapply htriple_weaken; [apply (ReadFile_honest H path fs0 Hh)|done|]. by intros [c|e] fs. }
  intros c. destruct (_ || _) eqn:Hb; [apply htriple_lift; by intros fs [-> _]|].
  eapply (htriple_bind _ _ (λ o fs, fs = fs0 ∧ fs0 !! path = Some c ∧
    decodeStrict ErrInvalidClock clockFields zeroClock c = Ok o)).
  { apply htriple_lift. intros fs [-> Hc].
    destruct (decodeStrict _ _ _ _) as [o|e] eqn:Hd; [done|]. apply decodeStrict_exists in Hd.
    split; [done|]. by rewrite Hd. }
  intros o. destruct (negb (eqs _ _) || _) eqn:Hk; [apply htriple_lift; by intros fs (-> & _)|].
  apply htriple_ret. intros fs (-> & Hc & Hd). split; [done|].
  unfold loaded. rewrite Hc. cbn [mbind option_bind]. by rewrite Hb, Hd, Hk.
Qed.

Lemma recordClock_files H path now fs0 :
  is_Some (fs0 !! path) → IsZero now = false →
  htriple (λ fs, fs = fs0) (recordClock H path now)
    (λ r fs, (fs !! path = fs0 !! path ∨ fs !! path = Some (clockText now)) ∧
             ∀ o, r = Ok o → LastObservedUTC o = to_string (Time.format now) ∧
                             fs !! path = Some (clockText now)).
Proof.
  intros [old Hold] Hz. unfold recordClock, FormatUTC. rewrite Hz.
  eapply (htriple_bind _ _ (λ enc fs, fs = fs0 ∧ enc = to_string (Time.format now))).
  { by apply htriple_lift. }
  intros enc w [Hw ->]. cbv zeta. unfold writeClockObservation. fold (clockText now).
  refine (htriple_bind (λ fs, fs = fs0) _ (λ _ fs, fs !! path = Some (clockText now)) _
    (λ r fs, (fs !! path = fs0 !! path ∨ fs !! path = Some (clockText now)) ∧
             ∀ o, r = Ok o → LastObservedUTC o = to_string (Time.format now) ∧
                             fs !! path = Some (clockText now)) _ _ w Hw).
  - eapply htriple_weaken; [apply (writeAtomic_replaced H path ".wt-clock-" (clockText now) fs0)|done|].
    + intros n Hn Heq. rewrite <- Heq in Hn. congruence.
    + intros [[]|e] fs (H1 & H2 & _); [by apply H2|split; [done|by intros o]].
  - intros _. apply htriple_ret. intros fs Hfs. split; [by right|]. by intros o [= <-].
Qed.

Lemma ObserveClock_observed H path now prev fs0 :
  honest H → mark path fs0 = Some prev →
  htriple (λ fs, fs = fs0) (ObserveClock H path now) (observed path fs0 now prev).
Proof.
  intros Hh Hm.
  assert (∀ e : error, observed path fs0 now prev (Err e) fs0) as Herr.
  { intros e. split_and!; [exists prev; split_and!; [done|lia|by left]|done|]. intros _. split; [by exists e|done]. }
  assert (∃ c, fs0 !! path = Some c) as [c Hc].
  { unfold mark, loaded in Hm. destruct (fs0 !! path) as [c|]; [by exists c|done]. }
  unfold ObserveClock. case_match eqn:Hz; [apply htriple_lift; intros fs ->; apply Herr|].
  case_match eqn:Hyear; [apply htriple_lift; intros fs ->; apply Herr|].
  apply orb_false_iff in Hyear as [Hy1 Hy2]. apply Z.ltb_ge in Hy1, Hy2.
  assert (htriple (λ fs, fs = fs0 ∧ prev ≤ now) (recordClock H path now) (observed path fs0 now prev)) as Hrec.
  { intros w [Hw Hle]. destruct (recordClock_files H path now fs0 ltac:(by rewrite Hc) Hz w Hw) as [H1 H2].
    assert (∀ fs, fs !! path = Some (clockText now) → mark path fs = Some now) as Hmark
      by (intros fs Hfs; apply clockText_mark; [lia|done]).
    split_and!.
    - destruct H1 as [H1|H1]; [exists prev; rewrite (mark_same _ _ fs0 H1); split_and!; [done|lia|by left]|].
      exists now. rewrite (Hmark _ H1). split_and!; [done|lia|by right].
    - intros o Ho. destruct (H2 o Ho) as [-> Hfs]. exists now. rewrite (Hmark _ Hfs).
      split_and!; [done| |lia]. apply ParseUTC_format. lia.
    - unfold Second. lia. }
  eapply (htriple_bind _ _ (λ r fs, fs = fs0 ∧
    match r with Ok o => loaded path fs0 = Some o
               | Err e => IsNotExist e = true → fs0 !! path = None end)).
  { apply htriple_try. by apply LoadClock_loaded. }
  intros [o|e].
  - intros w [Hw Ho]. pose proof Hm as Hm'. unfold mark in Hm. rewrite Ho in Hm. cbn in Hm.
    destruct (ParseUTC (LastObservedUTC o)) as [p|] eqn:Hp; [|done]. injection Hm as ->.
    unfold Before, Add, MaterialRollback.
    destruct (_ + _ <? _) eqn:Hb1; [cbn; rewrite Hw; apply Herr|].
    destruct (now <? prev) eqn:Hb2; zbool; [|apply Hrec; split; [done|lia]].
    cbn. rewrite Hw. split_and!; [exists prev; split_and!; [done|lia|by left]| |lia].
    intros o' [= <-]. exists prev. split_and!; [done|done|lia].
  - intros w [Hw He]. destruct (IsNotExist e) eqn:Hn; [rewrite He in Hc; done|cbn; rewrite Hw; apply Herr].
Qed.

(** C14: the clock mark only moves forward. On a host that already holds a
    valid observation, whatever system calls fail, [ObserveClock] leaves the
    old mark or [now], never an earlier one; an observation it returns is the
    one on disk and is at least [now]; and a clock more than a second behind
    the mark is refused with the file untouched. *)
Theorem clock_never_goes_back H path now prev w :
  honest H → mark path (files w) = Some prev →
  let '(r, w') := ObserveClock H path now w in
  (∃ m, mark path (files w') = Some m ∧ prev ≤ m ∧ (m = prev ∨ m = now)) ∧
  (∀ o, r = Ok o → ∃ m, mark path (files w') = Some m ∧ ParseUTC (LastObservedUTC o) = Ok m ∧ now ≤ m) ∧
  (now + MaterialRollback < prev → (∃ e, r = Err e) ∧ files w' !! path = files w !! path).
Proof.
  intros Hh Hm. pose proof (ObserveClock_observed H path now prev (files w) Hh Hm w eq_refl) as Ho.
  by destruct (ObserveClock H path now w).
Qed.

Definition clockWorld : world :=
  (ObserveClock calmHost "/var/lib/wt/clock.json" (time_of (mkFields 2026 1 2 3 4 5 0)) (mkWorld ∅ 0)).2.

Lemma clock_never_goes_back_witness :
  let '(r, w') := ObserveClock calmHost "/var/lib/wt/clock.json" (time_of (mkFields 2026 1 2 3 4 5 0) - 3 * Second) clockWorld in
  (∃ e, r = Err e) ∧ mark "/var/lib/wt/clock.json" (files w') = Some (time_of (mkFields 2026 1 2 3 4 5 0)).
Proof.
  pose proof (clock_never_goes_back calmHost "/var/lib/wt/clock.json" (time_of (mkFields 2026 1 2 3 4 5 0) - 3 * Second)
    (time_of (mkFields 2026 1 2 3 4 5 0)) clockWorld ltac:(by intros n) ltac:(by vm_compute)) as Hc.
  destruct (ObserveClock _ _ _ clockWorld) as [r w'] eqn:Hr. split; [by apply Hc|].
  rewrite <- (mark_same _ (files clockWorld)); [by vm_compute|]. symmetry. by apply Hc.
Defined.

(** ** The expiry transaction *)

(** What the expiry transaction relies on: when a check reports that a key is no
    longer authorized ([gone]) or that a client has no session ([ended]), that
    is so, and the steps that follow do not undo it. *)
Class ExpireHost {S} (ops : ExpireOps S) (gone : string → S → Prop) (ended : string → S → Prop) := {
  verifyAuth_sound f k s :
    VerifyAuthorizationGone ops = Some f → (f k s).1 = Ok () → gone k (f k s).2;
  verifySession_sound f c s :
    VerifySessionGone ops = Some f → (f c ""%string ""%string s).1 = Ok () → ended c (f c ""%string ""%string s).2;
  verifySession_keeps f c k s :
    VerifySessionGone ops = Some f → gone k s → gone k (f c ""%string ""%string s).2;
  burn_keeps f c k s :
    BurnManagementToken ops = Some f → (gone k s → gone k (f s).2) ∧ (ended c s → ended c (f s).2);
}.

Lemma runStep_Ok {S A} label (op : S → result A * S) k s s' :
  runStep label op k s = (Ok (), s') → ∃ a s1, op s = (Ok a, s1) ∧ k s1 = (Ok (), s').
Proof. unfold runStep. destruct (op s) as [[a|e] s1]; [eauto|done]. Qed.

Lemma ExecuteExpire_effect {S} (ops : ExpireOps S) gone ended `{!ExpireHost ops gone ended}
    (plan : ExpirePlan) (s s' : S) :
  ExecuteExpire plan ops s = (Ok (), s') →
  (gone (PublicKey plan) s' ∧ ended (ClientID plan) s') ∧
  (Status plan = StatusExpirationPending ∨ NotAfter plan ≤ Now plan) ∧
  ∃ burn s1 hash, BurnManagementToken ops = Some burn ∧ burn s1 = (Ok hash, s') ∧
    gone (PublicKey plan) s1 ∧ ended (ClientID plan) s1.
Proof.
  unfold ExecuteExpire. destruct (ValidateExpirePlan plan) as [[]|] eqn:Hplan; [|done].
  destruct (AuthorizeTransition _ _) as [[]|]; [|done].
  destruct (RemoveAuthorization ops) as [f1|] eqn:E1; [|done].
  destruct (VerifyAuthorizationGone ops) as [f2|] eqn:E2; [|done].
  destruct (TerminateSession ops) as [f3|] eqn:E3; [|done].
  destruct (VerifySessionGone ops) as [f4|] eqn:E4; [|done].
  destruct (BurnManagementToken ops) as [f5|] eqn:E5; [|done].
  intros (? & s1 & _ & Hr)%runStep_Ok. apply runStep_Ok in Hr as (? & s2 & _ & Hr).
  apply runStep_Ok in Hr as ([] & s3 & H3 & Hr). apply runStep_Ok in Hr as ([] & s4 & H4 & Hr).
  apply runStep_Ok in Hr as (hash & s5 & H5 & [= <-]).
  pose proof (verifyAuth_sound f2 (PublicKey plan) s2 E2) as Ha. rewrite H3 in Ha. specialize (Ha eq_refl).
  pose proof (verifySession_sound f4 (ClientID plan) s3 E4) as Hl. rewrite H4 in Hl. specialize (Hl eq_refl).
  pose proof (verifySession_keeps f4 (ClientID plan) (PublicKey plan) s3 E4 Ha) as Ha'. rewrite H4 in Ha'.
  destruct (burn_keeps f5 (ClientID plan) (PublicKey plan) s4 E5) as [Hb1 Hb2]. rewrite H5 in Hb1, Hb2.
  split_and!; [by apply Hb1|by apply Hb2| |by exists f5, s4, hash].
  unfold ValidateExpirePlan, ReadyToExpire, Before, eqs in Hplan. repeat (case_match; [done|]).
  destruct (bool_decide_reflect (Status plan = StatusExpirationPending)) as [?|?]; [by left|right].
  match goal with Hn : negb _ && negb _ = false |- _ => rename Hn into Hdue end.
  apply andb_false_iff in Hdue as [Hdue|?]; [|done]. apply negb_false_iff in Hdue.
  destruct (IsZero (NotAfter plan) || IsZero (Now plan)); [done|].
  apply negb_true_iff, Z.ltb_ge in Hdue. exact Hdue.
Qed.

(** An expiry that reports success has taken effect.  Against any host
    operations that keep their promises, when [ExecuteExpire] returns without
    error the plan was due or already pending, the key is no longer authorized
    and the client has no session; it does so in the order the code
    prescribes, the capability being burned last. *)
Theorem expire_takes_effect {S} (ops : ExpireOps S) gone ended `{!ExpireHost ops gone ended}
    (plan : ExpirePlan) (s s' : S) :
  ExecuteExpire plan ops s = (Ok (), s') →
  (gone (PublicKey plan) s' ∧ ended (ClientID plan) s') ∧
  (Status plan = StatusExpirationPending ∨ NotAfter plan ≤ Now plan) ∧
  ∃ burn s1 hash, BurnManagementToken ops = Some burn ∧ burn s1 = (Ok hash, s') ∧
    gone (PublicKey plan) s1 ∧ ended (ClientID plan) s1.
Proof. by apply (ExecuteExpire_effect ops). Qed.
