(* ===== verification/SshWire.v ===== *)
(** * SSH wire encodings

    [internal/sshwire/public_key.go] and [internal/dataplane/wire.go]: SSH
    strings, integers and booleans, and the validation of public-key blobs
    that cross the enrollment boundary. *)

From S2P Require Import Prelude GoStd.
Import BigEndian.

(** ** internal/sshwire *)
Module SshWire.

(** [AppendString]. *)
Definition AppendString (dst value : bytes) : bytes :=
  dst ++ put32 (wrap32 (blen value)) ++ value.

(** [ConsumeString]: the remainder, then the value. *)
Definition ConsumeString (input : bytes) : result (bytes * bytes) :=
  if blen input <? 4 then Err (EMsg "truncated SSH string length")
  else
    let length := u32 input in
    if blen input - 4 <? length then Err (EMsg "truncated SSH string value")
    else
      let end_ := Z.to_nat (4 + length) in
      Ok (drop end_ input, take (end_ - 4) (drop 4 input)).

(** [ValidatePublicKeyBlob]. *)
Definition ValidatePublicKeyBlob (encoded algorithm : string) (rawKeyBytes : Z) : result () :=
  if rawKeyBytes <=? 0 then Err (EMsg "expected raw public-key size must be positive")
  else
    let expectedBlobBytes := 4 + slen algorithm + 4 + rawKeyBytes in
    let expectedEncodedBytes := Base64.encoded_len expectedBlobBytes in
    if negb (slen encoded =? expectedEncodedBytes)
    then Err (EMsg "public-key encoding has the wrong length")
    else
      blob ← Base64.decode true encoded;
      if negb (bool_decide (Base64.encode_to_string blob = encoded))
      then Err (EMsg "public key is not canonical base64")
      else
        '(remaining, name) ← ConsumeString blob;
        if negb (bool_decide (to_string name = algorithm))
        then Err (EMsg "public-key blob type does not match")
        else
          '(remaining, rawKey) ← ConsumeString remaining;
          if negb (blen rawKey =? rawKeyBytes)
          then Err (EMsg "raw public key has the wrong length")
          else if negb (blen remaining =? 0)
          then Err (EMsg "public-key blob contains trailing bytes")
          else Ok ().

(** *** Encoding then decoding an SSH string. *)

Lemma ConsumeString_AppendString (value rest : bytes) :
  blen value < 2 ^ 32 →
  ConsumeString (AppendString [] value ++ rest) = Ok (rest, value).
Proof.
  intros Hv. pose proof (blen_nonneg value). pose proof (blen_nonneg rest).
  unfold ConsumeString, AppendString. rewrite app_nil_l, <- app_assoc.
  unfold wrap32. rewrite Z.mod_small by lia.
  rewrite !blen_app, blen_put32, u32_put32 by lia.
  rewrite (proj2 (Z.ltb_ge _ _)) by lia.
  rewrite (proj2 (Z.ltb_ge _ _)) by lia.
  assert (length (put32 (blen value)) = 4%nat) as H4 by apply length_be.
  do 2 f_equal.
  - rewrite app_assoc. apply drop_app_length'.
    rewrite length_app, H4. unfold blen. lia.
  - rewrite (drop_app_length' _ _ 4) by done.
    apply take_app_length'. unfold blen. lia.
Qed.

(** What [ConsumeString] accepts: exactly a length prefix, that many bytes,
    and the remainder. *)
Lemma ConsumeString_Ok input rest value :
  ConsumeString input = Ok (rest, value) →
  input = AppendString [] value ++ rest ∧ blen value < 2 ^ 32.
Proof.
  unfold ConsumeString. intros H.
  destruct (blen input <? 4) eqn:E1; [done|]. cbv zeta in H.
  destruct (blen input - 4 <? u32 input) eqn:E2; [done|]. zbool.
  pose proof (u32_range input) as Hr.
  injection H as <- <-.
  assert (blen (take (Z.to_nat (4 + u32 input) - 4) (drop 4 input)) = u32 input) as Hl.
  { unfold blen in *. rewrite length_take, length_drop. lia. }
  split; [|lia].
  unfold AppendString. rewrite app_nil_l, Hl. unfold wrap32. rewrite Z.mod_small by lia.
  transitivity (take 4 input ++ drop 4 input); [by rewrite take_drop|].
  rewrite <- app_assoc. f_equal.
  - symmetry. apply put32_de. rewrite length_take. unfold blen in *. lia.
  - rewrite <- (take_drop (Z.to_nat (4 + u32 input) - 4) (drop 4 input)) at 1.
    rewrite drop_drop. do 2 f_equal. lia.
Qed.

Lemma AppendString_length value : length (AppendString [] value) = (4 + length value)%nat.
Proof. unfold AppendString. rewrite app_nil_l, length_app. done. Qed.

(** The blob of a public key: its algorithm name and its raw key. *)
Definition key_blob (algorithm : string) (raw : bytes) : bytes :=
  AppendString (AppendString [] (to_bytes algorithm)) raw.

Lemma AppendString_app dst value : AppendString dst value = dst ++ AppendString [] value.
Proof. unfold AppendString. by rewrite app_nil_l. Qed.

Lemma blen_key_blob algorithm raw :
  blen (key_blob algorithm raw) = 4 + slen algorithm + 4 + blen raw.
Proof.
  unfold key_blob. rewrite AppendString_app, blen_app. unfold blen.
  rewrite !AppendString_length. rewrite length_to_bytes. unfold slen. lia.
Qed.

(** Exactly the canonical encodings are accepted: [ValidatePublicKeyBlob]
    accepts a base64 text if and only if it is the encoding of the SSH blob of
    the algorithm with a raw key of the expected size. *)
Lemma ValidatePublicKeyBlob_exact encoded algorithm n :
  slen algorithm < 2 ^ 32 → n < 2 ^ 32 →
  ValidatePublicKeyBlob encoded algorithm n = Ok () ↔
  0 < n ∧ ∃ raw, blen raw = n ∧
    encoded = Base64.encode_to_string (key_blob algorithm raw).
Proof.
  intros Ha Hn. split.
  - unfold ValidatePublicKeyBlob. intros H.
    destruct (n <=? 0) eqn:E; [done|]. zbool. split; [lia|].
    destruct (negb _); [done|].
    apply bind_Ok in H as (blob & Hblob & H).
    destruct (bool_decide (Base64.encode_to_string blob = encoded)) eqn:Hcanon; [|done].
    apply bool_decide_eq_true in Hcanon. simpl in H.
    apply bind_Ok in H as ([rem name] & H1 & H).
    destruct (bool_decide (to_string name = algorithm)) eqn:Hn'; [|done].
    apply bool_decide_eq_true in Hn'. simpl in H.
    apply bind_Ok in H as ([rem' raw] & H2 & H).
    destruct (blen raw =? n) eqn:Hraw; [|done]. simpl in H.
    destruct (blen rem' =? 0) eqn:Hrem; [|done]. zbool.
    exists raw. split; [done|]. rewrite <- Hcanon. f_equal.
    apply ConsumeString_Ok in H1 as [-> _]. apply ConsumeString_Ok in H2 as [-> _].
    assert (rem' = []) as ->.
    { destruct rem'; [done|]. rewrite blen_cons in Hrem. pose proof (blen_nonneg rem'). lia. }
    unfold key_blob. rewrite (AppendString_app (AppendString _ _)).
    rewrite app_nil_r. do 2 f_equal. rewrite <- Hn'. by rewrite to_bytes_string.
  - intros (Hpos & raw & Hraw & ->). unfold ValidatePublicKeyBlob.
    rewrite (proj2 (Z.leb_gt _ _)) by lia. cbv zeta.
    rewrite (proj2 (Z.eqb_eq _ _)).
    2:{ rewrite <- blen_to_bytes. unfold Base64.encode_to_string.
        rewrite to_bytes_string, Base64.length_encode, blen_key_blob. by rewrite Hraw. }
    simpl negb. cbv iota. rewrite Base64.decode_encode. cbn [mbind result_bind].
    rewrite bool_decide_true by done. simpl negb. cbv iota.
    unfold key_blob at 1. rewrite AppendString_app.
    rewrite ConsumeString_AppendString by (rewrite blen_to_bytes; lia).
    cbn [mbind result_bind]. rewrite to_string_bytes, bool_decide_true by done.
    simpl negb. cbv iota. rewrite <- (app_nil_r (AppendString [] raw)).
    rewrite ConsumeString_AppendString by lia. cbn [mbind result_bind].
    by rewrite Hraw, Z.eqb_refl.
Qed.

End SshWire.

(** ** internal/dataplane/wire.go *)
Module Wire.
Import SshWire.

Definition errTruncated : error := EMsg "truncated SSH field".

Definition sshString (value : bytes) : bytes := AppendString [] value.

Definition consumeSSHString (input : bytes) : result (bytes * bytes) :=
  match ConsumeString input with
  | Ok (rest, value) => Ok (value, rest)
  | Err _ => Err errTruncated
  end.

Definition consumeUint32 (input : bytes) : result (Z * bytes) :=
  if blen input <? 4 then Err errTruncated else Ok (u32 input, drop 4 input).

Definition consumeBool (input : bytes) : result (bool * bytes) :=
  match input with
  | [] => Err errTruncated
  | x :: rest => Ok (negb (zb x =? 0), rest)
  end.

Definition Algorithm : string := "ssh-mldsa44-ed25519@openssh.com".

Definition hostKeyBlob (rawPub : bytes) : bytes :=
  sshString (to_bytes Algorithm) ++ sshString rawPub.

Definition signatureBlob (rawSig : bytes) : bytes :=
  sshString (to_bytes Algorithm) ++ sshString rawSig.

Lemma consumeSSHString_sshString value rest :
  blen value < 2 ^ 32 → consumeSSHString (sshString value ++ rest) = Ok (value, rest).
Proof. intros H. unfold consumeSSHString, sshString. by rewrite ConsumeString_AppendString. Qed.

Lemma consumeSSHString_Ok input value rest :
  consumeSSHString input = Ok (value, rest) →
  input = sshString value ++ rest ∧ blen value < 2 ^ 32.
Proof.
  unfold consumeSSHString. destruct (ConsumeString input) as [[r v]|] eqn:E; [|done].
  intros [= <- <-]. by apply ConsumeString_Ok.
Qed.

Lemma consumeUint32_put32 z rest :
  0 ≤ z < 2 ^ 32 → consumeUint32 (put32 z ++ rest) = Ok (z, rest).
Proof.
  intros Hz. unfold consumeUint32. rewrite blen_app, blen_put32.
  pose proof (blen_nonneg rest).
  rewrite (proj2 (Z.ltb_ge _ _)) by lia. by rewrite u32_put32.
Qed.

Lemma consumeUint32_Ok input z rest :
  consumeUint32 input = Ok (z, rest) → 0 ≤ z < 2 ^ 32.
Proof. unfold consumeUint32. case_match; [done|]. intros [= <- _]. apply u32_range. Qed.

(** Two concatenations that start with SSH strings agree only when the
    strings and the tails agree. *)
Lemma sshString_app_inj a b x y :
  blen a < 2 ^ 32 → blen b < 2 ^ 32 →
  sshString a ++ x = sshString b ++ y → a = b ∧ x = y.
Proof.
  intros Ha Hb H. apply (f_equal consumeSSHString) in H.
  rewrite !consumeSSHString_sshString in H by done. by simplify_eq.
Qed.

End Wire.
