(* ===== verification/Crypto.v ===== *)
(** * The cryptographic interface and the composite signature

    The primitives of Go's [crypto] tree, of [golang.org/x/crypto] and of the
    vendored ML-DSA package are an interface, [Crypto]: every definition that
    uses one takes it as an argument, and what a theorem needs of one is a
    law of [CryptoLaws].  [internal/composite/composite.go] is modelled over
    that interface. *)

From S2P Require Import Prelude GoStd SshWire.

Class Crypto := {
  sha256 : bytes → bytes;
  sha512 : bytes → bytes;
  (** [chacha20.NewUnauthenticatedCipher(key, nonce)]: [n] bytes of its key
      stream from block [counter] on. *)
  chacha20 : bytes → bytes → Z → nat → bytes;
  (** [poly1305.Sum]: key, then message. *)
  poly1305 : bytes → bytes → bytes;
  ed25519_public : bytes → bytes;
  ed25519_sign : bytes → bytes → bytes;
  ed25519_verify : bytes → bytes → bytes → bool;
  mldsa_private : Type;
  mldsa_public : Type;
  mldsa_NewPrivateKey44 : bytes → result mldsa_private;
  mldsa_NewPublicKey44 : bytes → result mldsa_public;
  mldsa_PublicBytes : mldsa_private → bytes;
  (** [mldsa.Sign(key, msg, context)], with its randomness. *)
  mldsa_Sign : mldsa_private → bytes → string → bytes → result bytes;
  mldsa_Verify : mldsa_public → bytes → bytes → string → result ();
  (** ML-KEM-768: encapsulation to a public key with its randomness gives the
      shared key and the ciphertext. *)
  mlkem_encapsulation_key : Type;
  mlkem_NewEncapsulationKey768 : bytes → result mlkem_encapsulation_key;
  mlkem_Encapsulate : mlkem_encapsulation_key → bytes → bytes * bytes;
  mlkem_Decapsulate : bytes → bytes → result bytes;
  (** X25519: the public key of a scalar, the shared secret. *)
  x25519_public : bytes → bytes;
  x25519_ecdh : bytes → bytes → result bytes;
}.

(** Documented output sizes, and that signatures made with a key verify under
    its public key. *)
Class CryptoLaws `{Crypto} := {
  sha256_len m : length (sha256 m) = 32%nat;
  sha512_len m : length (sha512 m) = 64%nat;
  chacha20_len k n c l : length (chacha20 k n c l) = l;
  poly1305_len k m : length (poly1305 k m) = 16%nat;
  ed25519_public_len s : length (ed25519_public s) = 32%nat;
  ed25519_sign_len s m : length (ed25519_sign s m) = 64%nat;
  ed25519_correct s m : ed25519_verify (ed25519_public s) m (ed25519_sign s m) = true;
  mldsa_PublicBytes_len k : length (mldsa_PublicBytes k) = 1312%nat;
  mldsa_correct k m c r s : mldsa_Sign k m c r = Ok s →
    ∃ pk, mldsa_NewPublicKey44 (mldsa_PublicBytes k) = Ok pk ∧
          mldsa_Verify pk m s c = Ok ();
}.

(** ** Byte-wise exclusive or with a key stream *)

Definition bxor (a b : byte) : byte := bz (Z.lxor (zb a) (zb b)).
Definition XORKeyStream (src stream : bytes) : bytes := zip_with bxor src stream.

Lemma lxor_byte_range a b : 0 ≤ a < 256 → 0 ≤ b < 256 → 0 ≤ Z.lxor a b < 256.
Proof.
  intros Ha Hb. assert (0 ≤ Z.lxor a b) by (apply Z.lxor_nonneg; lia).
  split; [done|]. destruct (decide (Z.lxor a b = 0)) as [->|]; [lia|].
  apply Z.log2_lt_pow2 with (b := 8); [lia|].
  eapply Z.le_lt_trans; [apply Z.log2_lxor; lia|].
  apply Z.max_lub_lt.
  - destruct (decide (a = 0)) as [->|]; [done|]. apply Z.log2_lt_pow2; lia.
  - destruct (decide (b = 0)) as [->|]; [done|]. apply Z.log2_lt_pow2; lia.
Qed.

Lemma bxor_cancel a b : bxor (bxor a b) b = a.
Proof.
  unfold bxor. rewrite zb_bz.
  rewrite Z.mod_small by (apply lxor_byte_range; apply zb_range).
  rewrite Z.lxor_assoc, Z.lxor_nilpotent, Z.lxor_0_r. apply bz_zb.
Qed.

Lemma XORKeyStream_cancel src stream :
  length stream = length src → XORKeyStream (XORKeyStream src stream) stream = src.
Proof.
  unfold XORKeyStream. revert stream.
  induction src as [|x src IH]; intros [|y stream] H; simpl in *; try done.
  rewrite bxor_cancel, IH by lia. done.
Qed.

Lemma length_XORKeyStream src stream :
  length stream = length src → length (XORKeyStream src stream) = length src.
Proof. intros H. unfold XORKeyStream. rewrite length_zip_with. lia. Qed.

(** ** internal/composite *)
Module Composite.
Section composite.
Context `{Crypto}.

Definition prefix : string := "CompositeAlgorithmSignatures2025".
Definition label : string := "COMPSIG-MLDSA44-Ed25519-SHA512".

Definition MLDSAPublicLen : Z := 1312.
Definition SignatureSize44 : Z := 2420.
Definition PublicKeySize : Z := MLDSAPublicLen + 32.
Definition SecretKeySize : Z := 32 + 32.
Definition SignatureSize : Z := SignatureSize44 + 64.

Record PrivateKey := mkPrivateKey { mldsaSeed : bytes; ed25519Seed : bytes }.

Definition NewPrivateKey (sk : bytes) : result PrivateKey :=
  if negb (blen sk =? SecretKeySize) then Err (EMsg "composite secret key has the wrong size")
  else Ok (mkPrivateKey (take 32 sk) (drop 32 sk)).

Definition Secret (key : PrivateKey) : bytes := mldsaSeed key ++ ed25519Seed key.

Definition Public (key : PrivateKey) : result bytes :=
  mldsaKey ← mldsa_NewPrivateKey44 (mldsaSeed key);
  Ok (mldsa_PublicBytes mldsaKey ++ ed25519_public (ed25519Seed key)).

Definition constructMPrime (msg : bytes) : bytes :=
  to_bytes prefix ++ to_bytes label ++ [bz 0] ++ sha512 msg.

Definition Sign (key : PrivateKey) (msg rnd : bytes) : result bytes :=
  let mPrime := constructMPrime msg in
  mldsaKey ← mldsa_NewPrivateKey44 (mldsaSeed key);
  mldsaSig ← mldsa_Sign mldsaKey mPrime label rnd;
  if negb (blen mldsaSig =? SignatureSize44)
  then Err (EMsg "unexpected ML-DSA-44 signature size")
  else Ok (mldsaSig ++ ed25519_sign (ed25519Seed key) mPrime).

Definition Verify (pk msg sig : bytes) : result () :=
  if negb (blen pk =? PublicKeySize) then Err (EMsg "composite public key has the wrong size")
  else if negb (blen sig =? SignatureSize)
  then Err (EMsg "composite signature has the wrong size")
  else
    mldsaPub ← mldsa_NewPublicKey44 (take (Z.to_nat MLDSAPublicLen) pk);
    let mPrime := constructMPrime msg in
    _ ← mldsa_Verify mldsaPub mPrime (take (Z.to_nat SignatureSize44) sig) label;
    let edPub := drop (Z.to_nat MLDSAPublicLen) pk in
    if negb (ed25519_verify edPub mPrime (drop (Z.to_nat SignatureSize44) sig))
    then Err (EMsg "Ed25519 verify failed")
    else Ok ().

(** A composite signature is accepted exactly when both halves verify, each
    under its own half of the public key and over the same M'. *)
Lemma Verify_Ok pk msg sig :
  Verify pk msg sig = Ok () ↔
  blen pk = PublicKeySize ∧ blen sig = SignatureSize ∧
  (∃ mpk, mldsa_NewPublicKey44 (take 1312 pk) = Ok mpk ∧
          mldsa_Verify mpk (constructMPrime msg) (take 2420 sig) label = Ok ()) ∧
  ed25519_verify (drop 1312 pk) (constructMPrime msg) (drop 2420 sig) = true.
Proof.
  unfold Verify, MLDSAPublicLen, SignatureSize44.
  change (Z.to_nat 1312) with 1312%nat. change (Z.to_nat 2420) with 2420%nat.
  generalize (take 1312 pk) (take 2420 sig) (drop 1312 pk) (drop 2420 sig).
  intros mpub msig epub esig.
  destruct (blen pk =? PublicKeySize) eqn:E1; simpl; zbool; [|by split; [|intros [? _]]].
  destruct (blen sig =? SignatureSize) eqn:E2; simpl; zbool; [|by split; [|intros (_ & ? & _)]].
  destruct (mldsa_NewPublicKey44 mpub) as [mpk|] eqn:E3; simpl;
    [|by split; [|intros (_ & _ & (? & ? & _) & _)]].
  destruct (mldsa_Verify mpk _ _ _) as [[]|] eqn:E4; simpl;
    [|by split; [|intros (_ & _ & (? & [= <-] & ?) & _); congruence]].
  destruct (ed25519_verify _ _ _) eqn:E5; simpl; [|by split; [|intros (_ & _ & _ & ?)]].
  split; [|done]. intros _. repeat split; eauto.
Qed.

(** Composite signatures verify: what [Sign] returns for a key is accepted by
    [Verify] under the key's public half. *)
Theorem Verify_Sign `{!CryptoLaws} key msg rnd sig pk :
  Sign key msg rnd = Ok sig → Public key = Ok pk → Verify pk msg sig = Ok ().
Proof.
  unfold Sign, Public. intros Hs Hp.
  apply bind_Ok in Hs as (mk & Hmk & Hs). rewrite Hmk in Hp. simpl in Hp.
  apply bind_Ok in Hs as (msig & Hms & Hs).
  destruct (blen msig =? SignatureSize44) eqn:E; [|done]. zbool.
  simpl in Hs. simplify_eq. apply Verify_Ok.
  assert (length msig = 2420%nat) as Hml by (unfold blen, SignatureSize44 in E; lia).
  pose proof (mldsa_PublicBytes_len mk) as Hpl.
  rewrite (take_app_length' (mldsa_PublicBytes mk)), (drop_app_length' (mldsa_PublicBytes mk)) by done.
  rewrite (take_app_length' msig), (drop_app_length' msig) by done.
  repeat split.
  - rewrite blen_app. unfold blen. by rewrite Hpl, ed25519_public_len.
  - rewrite blen_app. unfold blen. by rewrite Hml, ed25519_sign_len.
  - eapply mldsa_correct; eauto.
  - apply ed25519_correct.
Qed.

(** Private keys round-trip through their stored form. *)
Lemma NewPrivateKey_Secret key :
  length (mldsaSeed key) = 32%nat → length (ed25519Seed key) = 32%nat →
  NewPrivateKey (Secret key) = Ok key.
Proof.
  destruct key as [a b]. simpl. intros Ha Hb.
  unfold NewPrivateKey, Secret. simpl. rewrite blen_app. unfold blen. rewrite Ha, Hb.
  rewrite (take_app_length' a), (drop_app_length' a) by done. done.
Qed.

End composite.
End Composite.
