(* ===== verification/Packet.v ===== *)
(** * SSH binary packets

    [internal/dataplane/packet.go] and the clear-text framing of
    [internal/dataplane/listen.go]: padding, the chacha20-poly1305@openssh.com
    packet codec and clear packets, with their round trips. *)

From S2P Require Import Prelude GoStd SshWire Crypto.
Import BigEndian.

(** [rand.Read] into a buffer of [n] bytes: an error, or a source of bytes. *)
Definition randSource := result (nat → byte).
Definition randRead (src : randSource) (n : nat) : result bytes :=
  f ← src; Ok (f <$> seq 0 n).

(** [io.ReadFull]: [n] bytes and what is left, or an error when the input
    ends first. *)
Definition readFull (n : nat) (input : bytes) : result bytes * bytes :=
  if (length input <? n)%nat then (Err (EOS EOF), []) else (Ok (take n input), drop n input).

Lemma readFull_app n a b : length a = n → readFull n (a ++ b) = (Ok a, b).
Proof.
  intros <-. unfold readFull. rewrite length_app.
  rewrite (proj2 (Nat.ltb_ge _ _)) by lia.
  by rewrite take_app_length, drop_app_length.
Qed.

Lemma readFull_Ok n input b rest :
  readFull n input = (Ok b, rest) → input = b ++ rest ∧ length b = n.
Proof.
  unfold readFull. case_match eqn:E; [done|]. intros [= <- <-].
  apply Nat.ltb_ge in E. rewrite take_drop, length_take. split; [done|lia].
Qed.

Lemma length_randRead src n b : randRead src n = Ok b → length b = n.
Proof. unfold randRead. destruct src; [|done]. intros [= <-]. by rewrite length_fmap, length_seq. Qed.

Module Packet.

Definition maxPacket : Z := Z.shiftl 256 10.
Definition chachaKeySize : Z := 32.
Definition chachaKeyTotal : Z := 64.
Definition chachaNonceSize : Z := 12.
Definition poly1305TagSize : Z := 16.
Definition chachaBlock : Z := 8.

Record chachaDirection := mkDirection { payloadKey : bytes; lengthKey : bytes }.

#[global] Instance chachaDirection_eq_dec : EqDecision chachaDirection.
Proof. solve_decision. Defined.

Definition newChaChaDirection (key : bytes) : result chachaDirection :=
  if blen key <? chachaKeyTotal then Err (EMsg "chacha20-poly1305 key is too short")
  else Ok (mkDirection (take 32 key) (take 32 (drop 32 key))).

(** Four zero bytes, then the sequence number. *)
Definition seqNonce (seq : Z) : bytes := replicate 4 (bz 0) ++ put64 seq.

(** *** Padding *)

Definition paddingFor (used block : Z) : Z :=
  let padding := block - used mod block in
  if padding <? 4 then padding + block else padding.

Definition padPayload (payload : bytes) (block : Z) (rnd : randSource) : result bytes :=
  let padding := paddingFor (1 + blen payload) block in
  fill ← randRead rnd (Z.to_nat padding);
  Ok (bz padding :: payload ++ fill).

Definition unpadPayload (body : bytes) : result bytes :=
  if blen body <? 5 then Err (EMsg "short packet body")
  else
    let pad := byte0 body in
    if (pad <? 4) || (blen body <=? 1 + pad) then Err (EMsg "invalid padding")
    else Ok (take (Z.to_nat (blen body - pad - 1)) (drop 1 body)).

Section codec.
Context `{Crypto}.

Definition poly1305Tag (payloadKey nonce encLen encBody : bytes) : bytes :=
  let polyKey := XORKeyStream (replicate 32 (bz 0)) (chacha20 payloadKey nonce 0 32) in
  poly1305 polyKey (encLen ++ encBody).

Definition seal (d : chachaDirection) (seq : Z) (payload : bytes) (rnd : randSource)
    : result bytes :=
  if blen payload =? 0 then Err (EMsg "empty SSH payload")
  else
    body ← padPayload payload chachaBlock rnd;
    let nonce := seqNonce seq in
    let encLen := XORKeyStream (put32 (wrap32 (blen body))) (chacha20 (lengthKey d) nonce 0 4) in
    let encBody := XORKeyStream body (chacha20 (payloadKey d) nonce 1 (length body)) in
    let tag := poly1305Tag (payloadKey d) nonce encLen encBody in
    Ok (encLen ++ encBody ++ tag).

(** [open] reads one frame from the connection: the payload or an error, and
    the input left over. *)
Definition open (d : chachaDirection) (seq : Z) (input : bytes) : result bytes * bytes :=
  match readFull 4 input with
  | (Err e, input) => (Err e, input)
  | (Ok encLen, input) =>
      let nonce := seqNonce seq in
      let plainLen := XORKeyStream encLen (chacha20 (lengthKey d) nonce 0 4) in
      let n := u32 plainLen in
      if (n <? 5) || (maxPacket <? n) then (Err (EMsg "invalid packet length"), input)
      else match readFull (Z.to_nat n + 16) input with
      | (Err e, input) => (Err e, input)
      | (Ok rest, input) =>
          let encBody := take (Z.to_nat n) rest in
          let got := drop (Z.to_nat n) rest in
          let want := poly1305Tag (payloadKey d) nonce encLen encBody in
          if negb (bool_decide (got = want))
          then (Err (EMsg "chacha20-poly1305 tag mismatch"), input)
          else
            let body := XORKeyStream encBody
                          (chacha20 (payloadKey d) nonce 1 (length encBody)) in
            (unpadPayload body, input)
      end
  end.

End codec.

(** *** Clear packets *)

(** [readClearPacket]. *)
Definition readClearPacket (input : bytes) : result bytes * bytes :=
  match readFull 5 input with
  | (Err e, input) => (Err e, input)
  | (Ok header, input) =>
      let n := u32 header in
      if (n <? 12) || (maxPacket <? n) then (Err (EMsg "invalid clear packet length"), input)
      else match readFull (Z.to_nat (n - 1)) input with
      | (Err e, input) => (Err e, input)
      | (Ok rest, input) =>
          let pad := byte0 (drop 4 header) in
          if (pad <? 4) || (blen rest <? pad)
          then (Err (EMsg "invalid clear padding"), input)
          else (Ok (take (Z.to_nat (blen rest - pad)) rest), input)
      end
  end.

(** The frame [writePacket] sends. *)
Definition clearFrame (payload : bytes) (rnd : randSource) : result bytes :=
  let padding := paddingFor (1 + blen payload + 4) 8 in
  let packetLen := 1 + blen payload + padding in
  fill ← randRead rnd (Z.to_nat padding);
  Ok (put32 (wrap32 packetLen) ++ bz padding :: payload ++ fill).

(** *** Padding lemmas *)

Lemma paddingFor_spec used : 0 ≤ used →
  4 ≤ paddingFor used 8 < 12 ∧ (used + paddingFor used 8) mod 8 = 0.
Proof. intros Hu. unfold paddingFor. case_match; zbool; dlia. Qed.

Lemma byte0_bz z r : 0 ≤ z < 256 → byte0 (bz z :: r) = z.
Proof. intros Hz. simpl. rewrite zb_bz. apply Z.mod_small. lia. Qed.

Lemma unpad_pad payload fill padding :
  1 ≤ blen payload → 4 ≤ padding < 256 → blen fill = padding →
  unpadPayload (bz padding :: payload ++ fill) = Ok payload.
Proof.
  intros Hp Hpad Hf. unfold unpadPayload. rewrite blen_cons, blen_app, Hf.
  rewrite (proj2 (Z.ltb_ge _ _)) by lia.
  rewrite byte0_bz by lia. cbv zeta.
  rewrite (proj2 (Z.ltb_ge padding 4)) by lia.
  rewrite (proj2 (Z.leb_gt _ _)) by lia. cbn [orb].
  f_equal. change (drop 1 (bz padding :: payload ++ fill)) with (payload ++ fill).
  apply take_app_length'. unfold blen. lia.
Qed.

Lemma padPayload_Ok payload rnd body :
  padPayload payload 8 rnd = Ok body →
  ∃ padding fill, body = bz padding :: payload ++ fill ∧ 4 ≤ padding < 12 ∧
    blen fill = padding ∧ blen body mod 8 = 0.
Proof.
  unfold padPayload. intros Hb. apply bind_Ok in Hb as (fill & Hf & Hok). apply Ok_inj in Hok as <-.
  pose proof (blen_nonneg payload).
  destruct (paddingFor_spec (1 + blen payload)) as [Hr Hm]; [lia|].
  apply length_randRead in Hf.
  assert (blen fill = paddingFor (1 + blen payload) 8) as Hl by (unfold blen at 1; lia).
  eexists _, fill. split_and!; [done|lia..|].
  rewrite blen_cons, blen_app, Hl. rewrite <- Hm. f_equal. lia.
Qed.

Lemma unpadPayload_nonempty body payload :
  unpadPayload body = Ok payload → 1 ≤ blen payload.
Proof.
  unfold unpadPayload. case_match eqn:E1; [done|]. cbv zeta.
  case_match eqn:E2; [done|]. intros [= <-]. zbool.
  unfold blen in *. rewrite length_take, length_drop. lia.
Qed.

Section codec_proofs.
Context `{CryptoLaws}.

Lemma length_poly1305Tag k n a b : length (poly1305Tag k n a b) = 16%nat.
Proof. apply poly1305_len. Qed.


(** C9: a packet is accepted only with its tag: whatever bytes arrive, [open]
    returns a payload only when the Poly1305 tag under the direction's key and
    the sequence number covers the encrypted length and body, and the body is
    within bounds. *)
Theorem open_Ok d seq input payload rest :
  open d seq input = (Ok payload, rest) →
  1 ≤ blen payload ∧
  ∃ encLen encBody, length encLen = 4%nat ∧ 5 ≤ blen encBody ≤ maxPacket ∧
    input = encLen ++ encBody ++ poly1305Tag (payloadKey d) (seqNonce seq) encLen encBody ++ rest.
Proof.
  unfold open. destruct (readFull 4 input) as [[encLen|] input1] eqn:E1; [|done].
  cbv zeta. case_match eqn:E2; [done|].
  set (n := u32 _) in *.
  destruct (readFull (Z.to_nat n + 16) input1) as [[fr|] input2] eqn:E3; [|done].
  case_match eqn:E4; [done|]. intros [= Hu <-].
  apply readFull_Ok in E1 as [-> Hl1]. apply readFull_Ok in E3 as [-> Hl2]. zbool.
  apply bool_decide_eq_true in E4.
  split; [by eapply unpadPayload_nonempty|].
  exists encLen, (take (Z.to_nat n) fr). split_and!; [done|..].
  - unfold blen. rewrite length_take. lia.
  - unfold blen. rewrite length_take. lia.
  - rewrite <- E4. rewrite (app_assoc (take _ fr)), take_drop. done.
Qed.

(** The sealed body is padded to the cipher block: its size is a multiple of
    eight and at most 32 bytes more than the payload. *)
Lemma seal_frame_size d seq payload rnd frame :
  seal d seq payload rnd = Ok frame →
  (blen frame - 20) mod 8 = 0 ∧ blen payload + 25 ≤ blen frame ≤ blen payload + 32.
Proof.
  unfold seal. case_match; [done|]. intros Hs.
  apply bind_Ok in Hs as (body & Hbody & Hok). apply Ok_inj in Hok as <-.
  apply padPayload_Ok in Hbody as (padding & fill & -> & Hpad & Hfill & Hm).
  rewrite !blen_app. unfold XORKeyStream, blen in *.
  rewrite !length_zip_with, !chacha20_len, length_poly1305Tag in *.
  assert (length (put32 (wrap32 (Z.of_nat (length (bz padding :: payload ++ fill))))) = 4%nat)
    as -> by apply length_be.
  cbn [length] in *. rewrite length_app in *. split; [|lia].
  rewrite <- Hm. f_equal. lia.
Qed.

End codec_proofs.

(** Clear packets round-trip: reading a frame the server wrote before the keys
    are set gives its payload. *)
Theorem readClear_clearFrame payload rnd frame rest :
  blen payload + 12 ≤ maxPacket →
  clearFrame payload rnd = Ok frame →
  readClearPacket (frame ++ rest) = (Ok payload, rest).
Proof.
  intros Hmax Hf. unfold clearFrame in Hf.
  apply bind_Ok in Hf as (fill & Hfill & Hok). apply Ok_inj in Hok as <-.
  pose proof (blen_nonneg payload) as Hpos.
  destruct (paddingFor_spec (1 + blen payload + 4)) as [Hr Hm]; [lia|].
  set (padding := paddingFor (1 + blen payload + 4) 8) in *.
  apply length_randRead in Hfill.
  assert (blen fill = padding) as Hbf by (unfold blen; lia).
  assert (maxPacket = 262144) as Hmp by done.
  set (packetLen := 1 + blen payload + padding).
  assert (12 ≤ packetLen ≤ maxPacket) by (unfold packetLen; split; dlia).
  unfold wrap32. rewrite Z.mod_small by lia.
  unfold readClearPacket.
  replace ((put32 packetLen ++ bz padding :: payload ++ fill) ++ rest)
    with ((put32 packetLen ++ [bz padding]) ++ (payload ++ fill) ++ rest)
    by (rewrite <- !app_assoc; simpl; by rewrite <- !app_assoc).
  rewrite readFull_app by (rewrite length_app; unfold put32; rewrite length_be; done).
  cbv zeta. rewrite u32_put32 by lia.
  rewrite (proj2 (Z.ltb_ge packetLen 12)) by lia.
  rewrite (proj2 (Z.ltb_ge maxPacket packetLen)) by lia. cbn [orb].
  rewrite readFull_app.
  2:{ rewrite length_app. unfold packetLen. unfold blen in *. lia. }
  rewrite (drop_app_length' (put32 packetLen) _ 4) by done.
  rewrite byte0_bz by lia. rewrite (proj2 (Z.ltb_ge padding 4)) by lia.
  rewrite blen_app, Hbf. rewrite (proj2 (Z.ltb_ge _ _)) by lia. cbn [orb].
  do 2 f_equal. apply take_app_length'. unfold blen in *. lia.
Qed.

End Packet.
