(* ===== verification/Kex.v ===== *)
(** * Profile, data-plane policy and key exchange

    [internal/profile/profile.go], [internal/dataplane/policy.go],
    [kexinit.go], [kex_hybrid.go] and the pure key-exchange functions of
    [conn.go]: KEXINIT messages, the hybrid ML-KEM-768/X25519 secret, the
    exchange hash, key derivation and the algorithms a client must offer. *)

From S2P Require Import Prelude GoStd SshWire Crypto Packet.
Import BigEndian Wire Netip.

(** ** internal/profile *)
Module Profile.

Definition CurrentID : string :=
  "warptweet-tcp1-openssh10.4p1-openssl3.5.7-mlkem768x25519-mldsa44-ed25519-chacha20".

(** The wire-relevant fields of a profile. *)
Record Profile := mkProfile {
  ID : string;
  KeyExchangeAlgorithm : string;
  AuthenticationKeyType : string;
  RawPublicKeyBytes : Z;
  RawSignatureBytes : Z;
  Ciphers : list string;
}.

Definition current : Profile := {|
  ID := CurrentID;
  KeyExchangeAlgorithm := "mlkem768x25519-sha256";
  AuthenticationKeyType := "ssh-mldsa44-ed25519@openssh.com";
  RawPublicKeyBytes := 1344;
  RawSignatureBytes := 2484;
  Ciphers := ["chacha20-poly1305@openssh.com"%string];
|}.

Definition Lookup (id : string) : result Profile :=
  if negb (bool_decide (id = CurrentID)) then Err (EMsg "unsupported cryptographic profile")
  else Ok current.

(** [Ciphers[0]]. *)
Definition cipher0 (p : Profile) : result string :=
  match Ciphers p with c :: _ => Ok c | [] => Err (EPanic "index out of range") end.

End Profile.

(** ** internal/dataplane/policy.go *)
Module Policy.

Definition identPrefix : string := "SSH-2.0-WarpTweet_".
Definition channelDirectTCPIP : string := "direct-tcpip".
Definition globalKeepalive : string := "keepalive@openssh.com".
Definition globalNoMoreSess : string := "no-more-sessions@openssh.com".
Definition defaultMaxConnsPerSource : Z := 4.

Record Policy := mkPolicy {
  profile : Profile.Profile;
  Listen : AddrPort;
  Target : AddrPort;
  Management : AddrPort;
  HostKeyPath : string;
  AuthorizedKeysPath : string;
  HostSignSocket : string;
  (** whether a grant-session authority is attached *)
  Grant : bool;
  ControlSocket : string;
  RekeyAfter : Z;
  MaxChannels : Z;
  MaxConnsPerSource : Z;
}.

Definition identification : string := identPrefix ++ "tcp1".

Section policy.
Context (quote : string → string) (policy : Policy).

Definition allowChannelType (channelType : string) : result () :=
  if bool_decide (channelType = channelDirectTCPIP) then Ok ()
  else Err (EMsg ("WarpTweet allows only direct-tcpip channels, not " ++ quote channelType)).

Definition allowGlobalRequest (requestType : string) : result () :=
  if bool_decide (requestType = globalKeepalive) || bool_decide (requestType = globalNoMoreSess)
  then Ok ()
  else Err (EMsg ("WarpTweet refused SSH global request " ++ quote requestType)).

Definition allowDirectTCPIP (destination : AddrPort) : result () :=
  let dest := AddrPortFrom (Unmap (ap_addr destination)) (ap_port destination) in
  if bool_decide (dest = Target policy) || bool_decide (dest = Management policy) then Ok ()
  else Err (EMsg ("direct-tcpip destination " ++ addrport_string dest ++ " is not permitted")).

Definition maxConnsPerSource : Z :=
  if MaxConnsPerSource policy <? 0 then MaxConnsPerSource policy
  else if MaxConnsPerSource policy =? 0 then defaultMaxConnsPerSource
  else MaxConnsPerSource policy.

End policy.
End Policy.

(** ** Key exchange *)
Module Kex.
Import Policy.

Definition sshMsgKexInit : Z := 20.
Definition sshMsgDisconnect : Z := 1.
Definition disconnectProtocolError : Z := 2.
Definition strictKEXServer : string := "kex-strict-s-v00@openssh.com".
Definition strictKEXClient : string := "kex-strict-c-v00@openssh.com".

Definition appendNameList (dst : bytes) (names : string) : bytes :=
  dst ++ put32 (wrap32 (slen names)) ++ to_bytes names.

Definition marshalKexInitList (policy : Policy) (kexNames : string) (rnd : randSource)
    : result bytes :=
  cookie ← randRead rnd 16;
  let payload := bz sshMsgKexInit :: cookie in
  let payload := appendNameList payload kexNames in
  let payload := appendNameList payload (Profile.AuthenticationKeyType (profile policy)) in
  cipher ← Profile.cipher0 (profile policy);
  let payload := appendNameList payload cipher in
  let payload := appendNameList payload cipher in
  let payload := appendNameList payload "none" in
  let payload := appendNameList payload "none" in
  let payload := appendNameList payload "none" in
  let payload := appendNameList payload "none" in
  let payload := appendNameList payload "" in
  let payload := appendNameList payload "" in
  Ok (payload ++ [bz 0] ++ put32 0).

Definition marshalKexInit (policy : Policy) : randSource → result bytes :=
  marshalKexInitList policy
    (Profile.KeyExchangeAlgorithm (profile policy) ++ "," ++ strictKEXServer).

Definition marshalKexInitClient (policy : Policy) : randSource → result bytes :=
  marshalKexInitList policy
    (Profile.KeyExchangeAlgorithm (profile policy) ++ "," ++ strictKEXClient).

Definition marshalDisconnect (description : string) : bytes :=
  [bz sshMsgDisconnect] ++ put32 disconnectProtocolError
    ++ put32 (wrap32 (slen description)) ++ to_bytes description ++ put32 0.

(** *** What a client offers *)

Definition nameListContains (list want : string) : bool :=
  existsb (λ name, bool_decide (name = want)) (Strings.split (bz 44) list).

(** The body of a KEXINIT without its message byte. *)
Definition kexBody (kex : bytes) : bytes :=
  match kex with
  | x :: rest => if zb x =? sshMsgKexInit then rest else kex
  | [] => []
  end.

Definition clientOffersStrictKEX (kex : bytes) : bool :=
  let body := kexBody kex in
  if blen body <? 16 then false
  else match consumeSSHString (drop 16 body) with
       | Err _ => false
       | Ok (kexList, _) => nameListContains (to_string kexList) strictKEXClient
       end.

Definition clientOffersPinnedAlgorithms (kex : bytes) (policy : Policy) : result () :=
  let body := kexBody kex in
  if blen body <? 16 then Err (EMsg "truncated client KEXINIT")
  else
    let body := drop 16 body in
    '(kexList, body) ← consumeSSHString body;
    '(hostList, body) ← consumeSSHString body;
    '(c2s, body) ← consumeSSHString body;
    '(s2c, _) ← consumeSSHString body;
    let kexAlg := Profile.KeyExchangeAlgorithm (profile policy) in
    let keyType := Profile.AuthenticationKeyType (profile policy) in
    if negb (nameListContains (to_string kexList) kexAlg)
    then Err (EMsg ("client KEXINIT missing " ++ kexAlg))
    else if negb (nameListContains (to_string hostList) keyType)
    then Err (EMsg ("client KEXINIT missing " ++ keyType))
    else
      cipherName ← Profile.cipher0 (profile policy);
      if negb (nameListContains (to_string c2s) cipherName)
         || negb (nameListContains (to_string s2c) cipherName)
      then Err (EMsg ("client KEXINIT missing " ++ cipherName))
      else Ok ().

(** *** authorized_keys *)

Definition decodePublicBlob (blob : string) : result bytes :=
  decoded ← Base64.decode true blob;
  '(alg, rest) ← consumeSSHString decoded;
  if negb (bool_decide (to_string alg = Algorithm))
  then Err (EMsg "authorized key algorithm")
  else match consumeSSHString rest with
       | Ok (raw, rest) =>
           if negb (blen rest =? 0) then Err (EMsg "authorized key blob") else Ok raw
       | Err _ => Err (EMsg "authorized key blob")
       end.

(** The field that follows the first field equal to the algorithm name. *)
Fixpoint keyField (fields : list string) : option string :=
  match fields with
  | [] => None
  | f :: rest => if bool_decide (f = Algorithm) then head rest else keyField rest
  end.

Fixpoint authorizedLines (lines : list string) : result (list bytes) :=
  match lines with
  | [] => Ok []
  | line :: rest =>
      let line := Strings.trim_space line in
      if bool_decide (line = ""%string) then authorizedLines rest
      else match keyField (Strings.fields line) with
           | None => authorizedLines rest
           | Some blob =>
               raw ← decodePublicBlob blob;
               keys ← authorizedLines rest;
               Ok (raw :: keys)
           end
  end.

Definition authorizedRawKeys (contents : bytes) : result (list bytes) :=
  authorizedLines (Strings.split (bz 10) (to_string contents)).

(** *** Hybrid secret *)

Definition mlkemPublicKeyBytes : Z := 1184.
Definition mlkemCiphertextBytes : Z := 1088.
Definition x25519Size : Z := 32.
Definition mlkemSharedBytes : Z := 32.

Definition isZero (b : bytes) : bool := foldl (λ acc v, Z.lor acc (zb v)) 0 b =? 0.

Section kex.
Context `{Crypto}.

(** [rnd] is the KEM's randomness, [rndX] the source of the ephemeral X25519
    key. *)
Definition serverHybridEncapsulate (clientBlob rnd : bytes) (rndX : randSource)
    : result (bytes * bytes) :=
  let need := mlkemPublicKeyBytes + x25519Size in
  if negb (blen clientBlob =? need) then Err (EMsg "client KEX blob has the wrong size")
  else
    ek ← mlkem_NewEncapsulationKey768 (take (Z.to_nat mlkemPublicKeyBytes) clientBlob);
    let '(kemSecret, ciphertext) := mlkem_Encapsulate ek rnd in
    if negb (blen ciphertext =? mlkemCiphertextBytes) || negb (blen kemSecret =? mlkemSharedBytes)
    then Err (EMsg "unexpected ML-KEM-768 encapsulate sizes")
    else
      serverX ← randRead rndX 32;
      ecdhSecret ← x25519_ecdh serverX (drop (Z.to_nat mlkemPublicKeyBytes) clientBlob);
      if isZero ecdhSecret then Err (EMsg "X25519 shared secret is all zeros")
      else Ok (ciphertext ++ x25519_public serverX, sha256 (kemSecret ++ ecdhSecret)).

Definition clientHybridDecapsulate (clientMLKEM clientX serverBlob : bytes) : result bytes :=
  let need := mlkemCiphertextBytes + x25519Size in
  if negb (blen serverBlob =? need) then Err (EMsg "server KEX blob has the wrong size")
  else
    kemSecret ← mlkem_Decapsulate clientMLKEM (take (Z.to_nat mlkemCiphertextBytes) serverBlob);
    ecdhSecret ← x25519_ecdh clientX (drop (Z.to_nat mlkemCiphertextBytes) serverBlob);
    if isZero ecdhSecret then Err (EMsg "X25519 shared secret is all zeros")
    else Ok (sha256 (kemSecret ++ ecdhSecret)).

(** *** Exchange hash and key derivation *)

Definition appendKexInitHash (dst kex : bytes) : bytes :=
  let body := kexBody kex in
  dst ++ put32 (wrap32 (blen body + 1)) ++ [bz sshMsgKexInit] ++ body.

(** The bytes the exchange hash covers. *)
Definition exchangeBytes (clientID serverID : string)
    (clientKex serverKex hostBlob clientPub serverPub secret : bytes) : bytes :=
  let b := sshString (to_bytes clientID) in
  let b := b ++ sshString (to_bytes serverID) in
  let b := appendKexInitHash b clientKex in
  let b := appendKexInitHash b serverKex in
  let b := b ++ sshString hostBlob in
  let b := b ++ sshString clientPub in
  let b := b ++ sshString serverPub in
  b ++ secret.

Definition exchangeHash (clientID serverID : string)
    (clientKex serverKex hostBlob clientPub serverPub secret : bytes) : bytes :=
  sha256 (exchangeBytes clientID serverID clientKex serverKex hostBlob clientPub serverPub secret).

(** The extension loop of [deriveOne]; [need] rounds are enough because each
    adds a whole digest. *)
Fixpoint extendDigest (fuel : nat) (secret hash : bytes) (need : Z) (digest : bytes) : bytes :=
  if blen digest <? need then
    match fuel with
    | O => digest
    | S f => extendDigest f secret hash need (digest ++ sha256 (secret ++ hash ++ digest))
    end
  else digest.

Definition deriveOne (secret hash sessionID : bytes) (id : Z) (need : Z) : bytes :=
  let digest := sha256 (secret ++ hash ++ [bz id] ++ sessionID) in
  take (Z.to_nat need) (extendDigest (Z.to_nat need) secret hash need digest).

Definition deriveKeys (secret hash sessionID : bytes) : bytes * bytes :=
  (deriveOne secret hash sessionID 67 Packet.chachaKeyTotal,
   deriveOne secret hash sessionID 68 Packet.chachaKeyTotal).

End kex.

(** *** Lemmas *)

(** Every KEXINIT the server sends starts with its message byte, so writing
    one never starts another re-key. *)
Lemma marshalKexInitList_head policy names rnd p :
  marshalKexInitList policy names rnd = Ok p → byte0 p = sshMsgKexInit.
Proof.
  unfold marshalKexInitList. intros Hm.
  apply bind_Ok in Hm as (cookie & _ & Hm). cbv zeta in Hm.
  apply bind_Ok in Hm as (cipher & _ & Hm). apply Ok_inj in Hm as <-.
  unfold appendNameList. done.
Qed.

Lemma marshalKexInit_head policy rnd p :
  marshalKexInit policy rnd = Ok p → byte0 p = sshMsgKexInit.
Proof. intros Hm. exact (marshalKexInitList_head _ _ _ _ Hm). Qed.

Section kex_lemmas.
Context `{CryptoLaws}.

Lemma blen_sha256 m : blen (sha256 m) = 32.
Proof. unfold blen. by rewrite sha256_len. Qed.

Lemma extendDigest_enough fuel secret hash need digest :
  need ≤ blen digest + Z.of_nat fuel →
  need ≤ blen (extendDigest fuel secret hash need digest).
Proof.
  revert digest. induction fuel as [|f IH]; intros digest Hf; simpl; case_match; zbool;
    try lia.
  apply IH. rewrite blen_app, blen_sha256. lia.
Qed.

(** Key derivation is total: [deriveOne] returns exactly the number of bytes
    asked for, so its extension loop has fuel enough. *)
Theorem deriveOne_length secret hash sessionID id need :
  0 ≤ need → blen (deriveOne secret hash sessionID id need) = need.
Proof.
  intros Hn. unfold deriveOne. set (d := sha256 _).
  pose proof (extendDigest_enough (Z.to_nat need) secret hash need d) as He.
  pose proof (blen_nonneg d). unfold blen in *. rewrite length_take. lia.
Qed.

Lemma appendKexInitHash_sshString dst body :
  blen body + 1 < 2 ^ 32 →
  appendKexInitHash dst (bz sshMsgKexInit :: body) = dst ++ sshString (bz sshMsgKexInit :: body).
Proof.
  intros Hb. unfold appendKexInitHash. cbn [kexBody].
  rewrite zb_bz. change (sshMsgKexInit mod 256 =? sshMsgKexInit) with true. cbv iota zeta.
  unfold sshString, SshWire.AppendString. rewrite app_nil_l, blen_cons.
  rewrite (Z.add_comm 1). done.
Qed.

(** The exchange hash binds the handshake: two handshakes with the same hash
    input agree on every identification, KEXINIT, host key, public share and
    secret. *)
Theorem exchangeBytes_inj ci si ck sk hb cp sp s ci' si' ck' sk' hb' cp' sp' s' :
  Forall (λ b : bytes, blen b + 1 < 2 ^ 32)
    [to_bytes ci; to_bytes si; ck; sk; hb; cp; sp; to_bytes ci'; to_bytes si'; ck'; sk'; hb'; cp'; sp'] →
  exchangeBytes ci si (bz sshMsgKexInit :: ck) (bz sshMsgKexInit :: sk) hb cp sp s =
  exchangeBytes ci' si' (bz sshMsgKexInit :: ck') (bz sshMsgKexInit :: sk') hb' cp' sp' s' →
  ci = ci' ∧ si = si' ∧ ck = ck' ∧ sk = sk' ∧ hb = hb' ∧ cp = cp' ∧ sp = sp' ∧ s = s'.
Proof.
  intros HF. rewrite !List.Forall_cons_iff in HF. destruct_and!.
  unfold exchangeBytes. cbv zeta.
  rewrite !appendKexInitHash_sshString by done. rewrite <- !app_assoc.
  intros Heq.
  repeat match type of Heq with
  | sshString ?a ++ ?x = sshString ?b ++ ?y =>
      apply sshString_app_inj in Heq as [? Heq];
      [|rewrite ?blen_cons; lia..]
  end.
  repeat match goal with Hc : to_bytes _ = to_bytes _ |- _ => apply to_bytes_inj in Hc end.
  repeat match goal with Hc : _ :: _ = _ :: _ |- _ => injection Hc as Hc end.
  repeat split; congruence.
Qed.

(** *** Hybrid agreement *)
Section hybrid.
Variables (dk ekb clientX : bytes).
Hypothesis mlkem_correct : ∀ ek r ss ct,
  mlkem_NewEncapsulationKey768 ekb = Ok ek → mlkem_Encapsulate ek r = (ss, ct) →
  mlkem_Decapsulate dk ct = Ok ss.
Hypothesis x25519_commutes : ∀ y,
  x25519_ecdh clientX (x25519_public y) = x25519_ecdh y (x25519_public clientX).
Hypothesis x25519_public_size : ∀ y, length (x25519_public y) = 32%nat.
Hypothesis ekb_size : length ekb = 1184%nat.

(** The hybrid key exchange agrees: when ML-KEM decapsulates what it
    encapsulated and X25519 commutes, the client derives from the server's blob
    the secret the server derived. *)
Theorem hybrid_agreement rnd rndX serverBlob secret :
  serverHybridEncapsulate (ekb ++ x25519_public clientX) rnd rndX = Ok (serverBlob, secret) →
  clientHybridDecapsulate dk clientX serverBlob = Ok secret.
Proof using All.
  unfold serverHybridEncapsulate. intros Hs. case_match; [done|].
  change (Z.to_nat mlkemPublicKeyBytes) with 1184%nat in Hs.
  rewrite (take_app_length' ekb), (drop_app_length' ekb) in Hs by done.
  apply bind_Ok in Hs as (ek & Hek & Hs).
  destruct (mlkem_Encapsulate ek rnd) as [ss ct] eqn:Henc. case_match eqn:Hsz; [done|]. zbool.
  apply bind_Ok in Hs as (sx & Hsx & Hs). apply bind_Ok in Hs as (dh & Hdh & Hs).
  case_match eqn:Hz; [done|]. apply Ok_inj in Hs. injection Hs as <- <-.
  assert (length ct = 1088%nat) as Hct by (unfold blen, mlkemCiphertextBytes in *; lia).
  unfold clientHybridDecapsulate. rewrite blen_app. unfold blen.
  rewrite Hct, x25519_public_size. cbn -[take drop Z.to_nat].
  change (Z.to_nat mlkemCiphertextBytes) with 1088%nat.
  rewrite (take_app_length' ct), (drop_app_length' ct) by done.
  rewrite (mlkem_correct _ _ _ _ Hek Henc). cbn [mbind result_bind].
  rewrite x25519_commutes, Hdh. cbn [mbind result_bind]. by rewrite Hz.
Qed.
End hybrid.

End kex_lemmas.
End Kex.
