(* ===== verification/Conn.v ===== *)
(** * The connection: state, effects and the serve loop

    [internal/dataplane/conn.go]: the state of one SSH connection, its packet
    reads and writes, the key-exchange state machine, user authentication and
    the message dispatch; [forward.go]'s channels live in the same state.

    A handler is a state-passing function that may fail: [M A].  The world a
    connection talks to is an argument, [Env]: random bytes, the outcome of
    each write, dial and backend write, the authorized_keys file, the host
    signer and the grant-session authority.  Each call takes the next answer
    of its oracle, so a theorem for every [Env] covers every behaviour of the
    world.  What the connection does to the world is its [trace]. *)

From S2P Require Import Prelude GoStd SshWire Crypto Packet Kex.
Import BigEndian Wire Netip Packet Policy Kex.

(** ** State *)

Inductive kexPhase := kexAwaitInit | kexAwaitECDH | kexAwaitNewKeys | kexReady.

#[global] Instance kexPhase_eq_dec : EqDecision kexPhase.
Proof. solve_decision. Defined.

(** A channel of the connection.  Channels are shared by the serve loop and
    their forwarding goroutine, so the state holds them in a [heap] and
    [channels] maps a local identifier to the heap cell. *)
Module Channel.
Record sshChannel := mkChannel {
  localID : Z;
  remoteID : Z;
  window : Z;
  maxPkt : Z;
  recvWindow : Z;
  maxRecv : Z;
  consumed : Z;
  closed : bool;
  backend : option nat;
}.

Definition set_window (v : Z) (ch : sshChannel) : sshChannel :=
  {| localID := localID ch; remoteID := remoteID ch; window := v; maxPkt := maxPkt ch; recvWindow := recvWindow ch;
     maxRecv := maxRecv ch; consumed := consumed ch; closed := closed ch; backend := backend ch |}.
Definition set_recvWindow (v : Z) (ch : sshChannel) : sshChannel :=
  {| localID := localID ch; remoteID := remoteID ch; window := window ch; maxPkt := maxPkt ch; recvWindow := v;
     maxRecv := maxRecv ch; consumed := consumed ch; closed := closed ch; backend := backend ch |}.
Definition set_consumed (v : Z) (ch : sshChannel) : sshChannel :=
  {| localID := localID ch; remoteID := remoteID ch; window := window ch; maxPkt := maxPkt ch; recvWindow := recvWindow ch;
     maxRecv := maxRecv ch; consumed := v; closed := closed ch; backend := backend ch |}.
Definition set_closed (v : bool) (ch : sshChannel) : sshChannel :=
  {| localID := localID ch; remoteID := remoteID ch; window := window ch; maxPkt := maxPkt ch; recvWindow := recvWindow ch;
     maxRecv := maxRecv ch; consumed := consumed ch; closed := v; backend := backend ch |}.
End Channel.
Import (hints) Channel.
Abbreviation sshChannel := Channel.sshChannel.

(** Where a [forwardBackend] goroutine is: about to read from its backend;
    inside [sendChannelData] with bytes left to send (and the error the read
    returned); holding a chunk it has taken from the window but not yet
    written; about to send EOF. *)
Inductive fwdState :=
| FwdRead
| FwdSend (data : bytes) (readErr : option error)
| FwdWrite (pkt rest : bytes) (readErr : option error)
| FwdEOF.

(** The effects of a connection on the world.  [EvPacket] records a packet
    with the codec and sequence number that sealed it ([None] in clear). *)
Inductive event :=
| EvPacket (payload : bytes) (sealedBy : option (chachaDirection * Z)) (frame : bytes)
| EvLine (line : string)
| EvDeadline
| EvDial (dest : AddrPort)
| EvBackendWrite (b : nat) (data : bytes)
| EvBackendCloseWrite (b : nat)
| EvBackendClose (b : nat)
| EvRegister (digest connID : string)
| EvUnregister (connID : string)
| EvTrack (connID : string)
| EvUntrack (connID : string)
| EvClose.

Record connection := mkConnection {
  clearIn : bool;
  clearOut : bool;
  in_ : option chachaDirection;
  out_ : option chachaDirection;
  pendingIn : option chachaDirection;
  phase : kexPhase;
  inSeq : Z;
  outSeq : Z;
  bytesOut : Z;
  rekeyAfter : Z;
  clientID : string;
  serverID : string;
  clientKex : option bytes;
  serverKex : bytes;
  sessionID : bytes;
  strictKEX : bool;
  initialKEX : bool;
  authed : bool;
  heap : gmap nat sshChannel;
  channels : gmap Z nat;
  nextLocal : Z;
  connectionID : string;
  keyDigest : string;
  maxChannels : Z;
  forwarders : gmap nat fwdState;
  input : bytes;
  trace : list event;
  ticks : nat;
}.

Definition set_clearIn (v : bool) (c : connection) : connection :=
  {| clearIn := v; clearOut := clearOut c; in_ := in_ c; out_ := out_ c;
     pendingIn := pendingIn c; phase := phase c; inSeq := inSeq c; outSeq := outSeq c;
     bytesOut := bytesOut c; rekeyAfter := rekeyAfter c; clientID := clientID c; serverID := serverID c;
     clientKex := clientKex c; serverKex := serverKex c; sessionID := sessionID c; strictKEX := strictKEX c;
     initialKEX := initialKEX c; authed := authed c; heap := heap c; channels := channels c;
     nextLocal := nextLocal c; connectionID := connectionID c; keyDigest := keyDigest c; maxChannels := maxChannels c;
     forwarders := forwarders c; input := input c; trace := trace c; ticks := ticks c |}.
Definition set_clearOut (v : bool) (c : connection) : connection :=
  {| clearIn := clearIn c; clearOut := v; in_ := in_ c; out_ := out_ c;
     pendingIn := pendingIn c; phase := phase c; inSeq := inSeq c; outSeq := outSeq c;
     bytesOut := bytesOut c; rekeyAfter := rekeyAfter c; clientID := clientID c; serverID := serverID c;
     clientKex := clientKex c; serverKex := serverKex c; sessionID := sessionID c; strictKEX := strictKEX c;
     initialKEX := initialKEX c; authed := authed c; heap := heap c; channels := channels c;
     nextLocal := nextLocal c; connectionID := connectionID c; keyDigest := keyDigest c; maxChannels := maxChannels c;
     forwarders := forwarders c; input := input c; trace := trace c; ticks := ticks c |}.
Definition set_in_ (v : option chachaDirection) (c : connection) : connection :=
  {| clearIn := clearIn c; clearOut := clearOut c; in_ := v; out_ := out_ c;
     pendingIn := pendingIn c; phase := phase c; inSeq := inSeq c; outSeq := outSeq c;
     bytesOut := bytesOut c; rekeyAfter := rekeyAfter c; clientID := clientID c; serverID := serverID c;
     clientKex := clientKex c; serverKex := serverKex c; sessionID := sessionID c; strictKEX := strictKEX c;
     initialKEX := initialKEX c; authed := authed c; heap := heap c; channels := channels c;
     nextLocal := nextLocal c; connectionID := connectionID c; keyDigest := keyDigest c; maxChannels := maxChannels c;
     forwarders := forwarders c; input := input c; trace := trace c; ticks := ticks c |}.
Definition set_out_ (v : option chachaDirection) (c : connection) : connection :=
  {| clearIn := clearIn c; clearOut := clearOut c; in_ := in_ c; out_ := v;
     pendingIn := pendingIn c; phase := phase c; inSeq := inSeq c; outSeq := outSeq c;
     bytesOut := bytesOut c; rekeyAfter := rekeyAfter c; clientID := clientID c; serverID := serverID c;
     clientKex := clientKex c; serverKex := serverKex c; sessionID := sessionID c; strictKEX := strictKEX c;
     initialKEX := initialKEX c; authed := authed c; heap := heap c; channels := channels c;
     nextLocal := nextLocal c; connectionID := connectionID c; keyDigest := keyDigest c; maxChannels := maxChannels c;
     forwarders := forwarders c; input := input c; trace := trace c; ticks := ticks c |}.
Definition set_pendingIn (v : option chachaDirection) (c : connection) : connection :=
  {| clearIn := clearIn c; clearOut := clearOut c; in_ := in_ c; out_ := out_ c;
     pendingIn := v; phase := phase c; inSeq := inSeq c; outSeq := outSeq c;
     bytesOut := bytesOut c; rekeyAfter := rekeyAfter c; clientID := clientID c; serverID := serverID c;
     clientKex := clientKex c; serverKex := serverKex c; sessionID := sessionID c; strictKEX := strictKEX c;
     initialKEX := initialKEX c; authed := authed c; heap := heap c; channels := channels c;
     nextLocal := nextLocal c; connectionID := connectionID c; keyDigest := keyDigest c; maxChannels := maxChannels c;
     forwarders := forwarders c; input := input c; trace := trace c; ticks := ticks c |}.
Definition set_phase (v : kexPhase) (c : connection) : connection :=
  {| clearIn := clearIn c; clearOut := clearOut c; in_ := in_ c; out_ := out_ c;
     pendingIn := pendingIn c; phase := v; inSeq := inSeq c; outSeq := outSeq c;
     bytesOut := bytesOut c; rekeyAfter := rekeyAfter c; clientID := clientID c; serverID := serverID c;
     clientKex := clientKex c; serverKex := serverKex c; sessionID := sessionID c; strictKEX := strictKEX c;
     initialKEX := initialKEX c; authed := authed c; heap := heap c; channels := channels c;
     nextLocal := nextLocal c; connectionID := connectionID c; keyDigest := keyDigest c; maxChannels := maxChannels c;
     forwarders := forwarders c; input := input c; trace := trace c; ticks := ticks c |}.
Definition set_inSeq (v : Z) (c : connection) : connection :=
  {| clearIn := clearIn c; clearOut := clearOut c; in_ := in_ c; out_ := out_ c;
     pendingIn := pendingIn c; phase := phase c; inSeq := v; outSeq := outSeq c;
     bytesOut := bytesOut c; rekeyAfter := rekeyAfter c; clientID := clientID c; serverID := serverID c;
     clientKex := clientKex c; serverKex := serverKex c; sessionID := sessionID c; strictKEX := strictKEX c;
     initialKEX := initialKEX c; authed := authed c; heap := heap c; channels := channels c;
     nextLocal := nextLocal c; connectionID := connectionID c; keyDigest := keyDigest c; maxChannels := maxChannels c;
     forwarders := forwarders c; input := input c; trace := trace c; ticks := ticks c |}.
Definition set_outSeq (v : Z) (c : connection) : connection :=
  {| clearIn := clearIn c; clearOut := clearOut c; in_ := in_ c; out_ := out_ c;
     pendingIn := pendingIn c; phase := phase c; inSeq := inSeq c; outSeq := v;
     bytesOut := bytesOut c; rekeyAfter := rekeyAfter c; clientID := clientID c; serverID := serverID c;
     clientKex := clientKex c; serverKex := serverKex c; sessionID := sessionID c; strictKEX := strictKEX c;
     initialKEX := initialKEX c; authed := authed c; heap := heap c; channels := channels c;
     nextLocal := nextLocal c; connectionID := connectionID c; keyDigest := keyDigest c; maxChannels := maxChannels c;
     forwarders := forwarders c; input := input c; trace := trace c; ticks := ticks c |}.
Definition set_bytesOut (v : Z) (c : connection) : connection :=
  {| clearIn := clearIn c; clearOut := clearOut c; in_ := in_ c; out_ := out_ c;
     pendingIn := pendingIn c; phase := phase c; inSeq := inSeq c; outSeq := outSeq c;
     bytesOut := v; rekeyAfter := rekeyAfter c; clientID := clientID c; serverID := serverID c;
     clientKex := clientKex c; serverKex := serverKex c; sessionID := sessionID c; strictKEX := strictKEX c;
     initialKEX := initialKEX c; authed := authed c; heap := heap c; channels := channels c;
     nextLocal := nextLocal c; connectionID := connectionID c; keyDigest := keyDigest c; maxChannels := maxChannels c;
     forwarders := forwarders c; input := input c; trace := trace c; ticks := ticks c |}.
Definition set_clientID (v : string) (c : connection) : connection :=
  {| clearIn := clearIn c; clearOut := clearOut c; in_ := in_ c; out_ := out_ c;
     pendingIn := pendingIn c; phase := phase c; inSeq := inSeq c; outSeq := outSeq c;
     bytesOut := bytesOut c; rekeyAfter := rekeyAfter c; clientID := v; serverID := serverID c;
     clientKex := clientKex c; serverKex := serverKex c; sessionID := sessionID c; strictKEX := strictKEX c;
     initialKEX := initialKEX c; authed := authed c; heap := heap c; channels := channels c;
     nextLocal := nextLocal c; connectionID := connectionID c; keyDigest := keyDigest c; maxChannels := maxChannels c;
     forwarders := forwarders c; input := input c; trace := trace c; ticks := ticks c |}.
Definition set_serverID (v : string) (c : connection) : connection :=
  {| clearIn := clearIn c; clearOut := clearOut c; in_ := in_ c; out_ := out_ c;
     pendingIn := pendingIn c; phase := phase c; inSeq := inSeq c; outSeq := outSeq c;
     bytesOut := bytesOut c; rekeyAfter := rekeyAfter c; clientID := clientID c; serverID := v;
     clientKex := clientKex c; serverKex := serverKex c; sessionID := sessionID c; strictKEX := strictKEX c;
     initialKEX := initialKEX c; authed := authed c; heap := heap c; channels := channels c;
     nextLocal := nextLocal c; connectionID := connectionID c; keyDigest := keyDigest c; maxChannels := maxChannels c;
     forwarders := forwarders c; input := input c; trace := trace c; ticks := ticks c |}.
Definition set_clientKex (v : option bytes) (c : connection) : connection :=
  {| clearIn := clearIn c; clearOut := clearOut c; in_ := in_ c; out_ := out_ c;
     pendingIn := pendingIn c; phase := phase c; inSeq := inSeq c; outSeq := outSeq c;
     bytesOut := bytesOut c; rekeyAfter := rekeyAfter c; clientID := clientID c; serverID := serverID c;
     clientKex := v; serverKex := serverKex c; sessionID := sessionID c; strictKEX := strictKEX c;
     initialKEX := initialKEX c; authed := authed c; heap := heap c; channels := channels c;
     nextLocal := nextLocal c; connectionID := connectionID c; keyDigest := keyDigest c; maxChannels := maxChannels c;
     forwarders := forwarders c; input := input c; trace := trace c; ticks := ticks c |}.
Definition set_serverKex (v : bytes) (c : connection) : connection :=
  {| clearIn := clearIn c; clearOut := clearOut c; in_ := in_ c; out_ := out_ c;
     pendingIn := pendingIn c; phase := phase c; inSeq := inSeq c; outSeq := outSeq c;
     bytesOut := bytesOut c; rekeyAfter := rekeyAfter c; clientID := clientID c; serverID := serverID c;
     clientKex := clientKex c; serverKex := v; sessionID := sessionID c; strictKEX := strictKEX c;
     initialKEX := initialKEX c; authed := authed c; heap := heap c; channels := channels c;
     nextLocal := nextLocal c; connectionID := connectionID c; keyDigest := keyDigest c; maxChannels := maxChannels c;
     forwarders := forwarders c; input := input c; trace := trace c; ticks := ticks c |}.
Definition set_sessionID (v : bytes) (c : connection) : connection :=
  {| clearIn := clearIn c; clearOut := clearOut c; in_ := in_ c; out_ := out_ c;
     pendingIn := pendingIn c; phase := phase c; inSeq := inSeq c; outSeq := outSeq c;
     bytesOut := bytesOut c; rekeyAfter := rekeyAfter c; clientID := clientID c; serverID := serverID c;
     clientKex := clientKex c; serverKex := serverKex c; sessionID := v; strictKEX := strictKEX c;
     initialKEX := initialKEX c; authed := authed c; heap := heap c; channels := channels c;
     nextLocal := nextLocal c; connectionID := connectionID c; keyDigest := keyDigest c; maxChannels := maxChannels c;
     forwarders := forwarders c; input := input c; trace := trace c; ticks := ticks c |}.
Definition set_strictKEX (v : bool) (c : connection) : connection :=
  {| clearIn := clearIn c; clearOut := clearOut c; in_ := in_ c; out_ := out_ c;
     pendingIn := pendingIn c; phase := phase c; inSeq := inSeq c; outSeq := outSeq c;
     bytesOut := bytesOut c; rekeyAfter := rekeyAfter c; clientID := clientID c; serverID := serverID c;
     clientKex := clientKex c; serverKex := serverKex c; sessionID := sessionID c; strictKEX := v;
     initialKEX := initialKEX c; authed := authed c; heap := heap c; channels := channels c;
     nextLocal := nextLocal c; connectionID := connectionID c; keyDigest := keyDigest c; maxChannels := maxChannels c;
     forwarders := forwarders c; input := input c; trace := trace c; ticks := ticks c |}.
Definition set_initialKEX (v : bool) (c : connection) : connection :=
  {| clearIn := clearIn c; clearOut := clearOut c; in_ := in_ c; out_ := out_ c;
     pendingIn := pendingIn c; phase := phase c; inSeq := inSeq c; outSeq := outSeq c;
     bytesOut := bytesOut c; rekeyAfter := rekeyAfter c; clientID := clientID c; serverID := serverID c;
     clientKex := clientKex c; serverKex := serverKex c; sessionID := sessionID c; strictKEX := strictKEX c;
     initialKEX := v; authed := authed c; heap := heap c; channels := channels c;
     nextLocal := nextLocal c; connectionID := connectionID c; keyDigest := keyDigest c; maxChannels := maxChannels c;
     forwarders := forwarders c; input := input c; trace := trace c; ticks := ticks c |}.
Definition set_authed (v : bool) (c : connection) : connection :=
  {| clearIn := clearIn c; clearOut := clearOut c; in_ := in_ c; out_ := out_ c;
     pendingIn := pendingIn c; phase := phase c; inSeq := inSeq c; outSeq := outSeq c;
     bytesOut := bytesOut c; rekeyAfter := rekeyAfter c; clientID := clientID c; serverID := serverID c;
     clientKex := clientKex c; serverKex := serverKex c; sessionID := sessionID c; strictKEX := strictKEX c;
     initialKEX := initialKEX c; authed := v; heap := heap c; channels := channels c;
     nextLocal := nextLocal c; connectionID := connectionID c; keyDigest := keyDigest c; maxChannels := maxChannels c;
     forwarders := forwarders c; input := input c; trace := trace c; ticks := ticks c |}.
Definition set_heap (v : gmap nat sshChannel) (c : connection) : connection :=
  {| clearIn := clearIn c; clearOut := clearOut c; in_ := in_ c; out_ := out_ c;
     pendingIn := pendingIn c; phase := phase c; inSeq := inSeq c; outSeq := outSeq c;
     bytesOut := bytesOut c; rekeyAfter := rekeyAfter c; clientID := clientID c; serverID := serverID c;
     clientKex := clientKex c; serverKex := serverKex c; sessionID := sessionID c; strictKEX := strictKEX c;
     initialKEX := initialKEX c; authed := authed c; heap := v; channels := channels c;
     nextLocal := nextLocal c; connectionID := connectionID c; keyDigest := keyDigest c; maxChannels := maxChannels c;
     forwarders := forwarders c; input := input c; trace := trace c; ticks := ticks c |}.
Definition set_channels (v : gmap Z nat) (c : connection) : connection :=
  {| clearIn := clearIn c; clearOut := clearOut c; in_ := in_ c; out_ := out_ c;
     pendingIn := pendingIn c; phase := phase c; inSeq := inSeq c; outSeq := outSeq c;
     bytesOut := bytesOut c; rekeyAfter := rekeyAfter c; clientID := clientID c; serverID := serverID c;
     clientKex := clientKex c; serverKex := serverKex c; sessionID := sessionID c; strictKEX := strictKEX c;
     initialKEX := initialKEX c; authed := authed c; heap := heap c; channels := v;
     nextLocal := nextLocal c; connectionID := connectionID c; keyDigest := keyDigest c; maxChannels := maxChannels c;
     forwarders := forwarders c; input := input c; trace := trace c; ticks := ticks c |}.
Definition set_nextLocal (v : Z) (c : connection) : connection :=
  {| clearIn := clearIn c; clearOut := clearOut c; in_ := in_ c; out_ := out_ c;
     pendingIn := pendingIn c; phase := phase c; inSeq := inSeq c; outSeq := outSeq c;
     bytesOut := bytesOut c; rekeyAfter := rekeyAfter c; clientID := clientID c; serverID := serverID c;
     clientKex := clientKex c; serverKex := serverKex c; sessionID := sessionID c; strictKEX := strictKEX c;
     initialKEX := initialKEX c; authed := authed c; heap := heap c; channels := channels c;
     nextLocal := v; connectionID := connectionID c; keyDigest := keyDigest c; maxChannels := maxChannels c;
     forwarders := forwarders c; input := input c; trace := trace c; ticks := ticks c |}.
Definition set_connectionID (v : string) (c : connection) : connection :=
  {| clearIn := clearIn c; clearOut := clearOut c; in_ := in_ c; out_ := out_ c;
     pendingIn := pendingIn c; phase := phase c; inSeq := inSeq c; outSeq := outSeq c;
     bytesOut := bytesOut c; rekeyAfter := rekeyAfter c; clientID := clientID c; serverID := serverID c;
     clientKex := clientKex c; serverKex := serverKex c; sessionID := sessionID c; strictKEX := strictKEX c;
     initialKEX := initialKEX c; authed := authed c; heap := heap c; channels := channels c;
     nextLocal := nextLocal c; connectionID := v; keyDigest := keyDigest c; maxChannels := maxChannels c;
     forwarders := forwarders c; input := input c; trace := trace c; ticks := ticks c |}.
Definition set_keyDigest (v : string) (c : connection) : connection :=
  {| clearIn := clearIn c; clearOut := clearOut c; in_ := in_ c; out_ := out_ c;
     pendingIn := pendingIn c; phase := phase c; inSeq := inSeq c; outSeq := outSeq c;
     bytesOut := bytesOut c; rekeyAfter := rekeyAfter c; clientID := clientID c; serverID := serverID c;
     clientKex := clientKex c; serverKex := serverKex c; sessionID := sessionID c; strictKEX := strictKEX c;
     initialKEX := initialKEX c; authed := authed c; heap := heap c; channels := channels c;
     nextLocal := nextLocal c; connectionID := connectionID c; keyDigest := v; maxChannels := maxChannels c;
     forwarders := forwarders c; input := input c; trace := trace c; ticks := ticks c |}.
Definition set_forwarders (v : gmap nat fwdState) (c : connection) : connection :=
  {| clearIn := clearIn c; clearOut := clearOut c; in_ := in_ c; out_ := out_ c;
     pendingIn := pendingIn c; phase := phase c; inSeq := inSeq c; outSeq := outSeq c;
     bytesOut := bytesOut c; rekeyAfter := rekeyAfter c; clientID := clientID c; serverID := serverID c;
     clientKex := clientKex c; serverKex := serverKex c; sessionID := sessionID c; strictKEX := strictKEX c;
     initialKEX := initialKEX c; authed := authed c; heap := heap c; channels := channels c;
     nextLocal := nextLocal c; connectionID := connectionID c; keyDigest := keyDigest c; maxChannels := maxChannels c;
     forwarders := v; input := input c; trace := trace c; ticks := ticks c |}.
Definition set_input (v : bytes) (c : connection) : connection :=
  {| clearIn := clearIn c; clearOut := clearOut c; in_ := in_ c; out_ := out_ c;
     pendingIn := pendingIn c; phase := phase c; inSeq := inSeq c; outSeq := outSeq c;
     bytesOut := bytesOut c; rekeyAfter := rekeyAfter c; clientID := clientID c; serverID := serverID c;
     clientKex := clientKex c; serverKex := serverKex c; sessionID := sessionID c; strictKEX := strictKEX c;
     initialKEX := initialKEX c; authed := authed c; heap := heap c; channels := channels c;
     nextLocal := nextLocal c; connectionID := connectionID c; keyDigest := keyDigest c; maxChannels := maxChannels c;
     forwarders := forwarders c; input := v; trace := trace c; ticks := ticks c |}.
Definition set_trace (v : list event) (c : connection) : connection :=
  {| clearIn := clearIn c; clearOut := clearOut c; in_ := in_ c; out_ := out_ c;
     pendingIn := pendingIn c; phase := phase c; inSeq := inSeq c; outSeq := outSeq c;
     bytesOut := bytesOut c; rekeyAfter := rekeyAfter c; clientID := clientID c; serverID := serverID c;
     clientKex := clientKex c; serverKex := serverKex c; sessionID := sessionID c; strictKEX := strictKEX c;
     initialKEX := initialKEX c; authed := authed c; heap := heap c; channels := channels c;
     nextLocal := nextLocal c; connectionID := connectionID c; keyDigest := keyDigest c; maxChannels := maxChannels c;
     forwarders := forwarders c; input := input c; trace := v; ticks := ticks c |}.
Definition set_ticks (v : nat) (c : connection) : connection :=
  {| clearIn := clearIn c; clearOut := clearOut c; in_ := in_ c; out_ := out_ c;
     pendingIn := pendingIn c; phase := phase c; inSeq := inSeq c; outSeq := outSeq c;
     bytesOut := bytesOut c; rekeyAfter := rekeyAfter c; clientID := clientID c; serverID := serverID c;
     clientKex := clientKex c; serverKex := serverKex c; sessionID := sessionID c; strictKEX := strictKEX c;
     initialKEX := initialKEX c; authed := authed c; heap := heap c; channels := channels c;
     nextLocal := nextLocal c; connectionID := connectionID c; keyDigest := keyDigest c; maxChannels := maxChannels c;
     forwarders := forwarders c; input := input c; trace := trace c; ticks := v |}.

(** ** The world *)

Record Env := mkEnv {
  policy : Policy;
  (** [rand.Read] and the randomness of the crypto primitives *)
  e_rand : nat → randSource;
  e_kemRand : nat → bytes;
  (** [conn.Write(frame)] *)
  e_write : nat → bytes → option error;
  (** [dialer.DialContext] to a numeric destination *)
  e_dial : nat → AddrPort → result nat;
  (** [backend.Write(data)]: bytes written and error *)
  e_backendWrite : nat → nat → bytes → Z * option error;
  (** whether a backend connection is a [*net.TCPConn] *)
  e_isTCP : nat → bool;
  (** [os.ReadFile(policy.AuthorizedKeysPath)] *)
  e_authorizedKeys : nat → result bytes;
  e_hostPublic : nat → result bytes;
  e_hostSign : nat → bytes → result bytes;
  (** [grant.Register(pid, digest, connectionID)] *)
  e_register : nat → string → string → option error;
  (** whether the listener passed a session table *)
  e_sessions : bool;
  (** [strconv.Quote], the [%q] verb *)
  e_quote : string → string;
}.

(** ** Handlers as state-passing functions *)

Definition M (A : Type) : Type := connection → result A * connection.

#[global] Instance M_ret : MRet M := λ A a s, (Ok a, s).
#[global] Instance M_bind : MBind M := λ A B f m s,
  match m s with
  | (Ok a, s') => f a s'
  | (Err e, s') => (Err e, s')
  end.

Definition get : M connection := λ s, (Ok s, s).
Definition modify (f : connection → connection) : M () := λ s, (Ok (), f s).
Definition fail {A} (e : error) : M A := λ s, (Err e, s).
Definition lift {A} (r : result A) : M A := λ s, (r, s).
(** [_ = m()]: run [m] and drop its error. *)
Definition ignore {A} (m : M A) : M () := λ s, (Ok (), (m s).2).
(** Run [m] and return its outcome as a value. *)
Definition attempt {A} (m : M A) : M (result A) := λ s, let '(r, s') := m s in (Ok r, s').
Definition emit (ev : event) : M () := modify (λ s, set_trace (trace s ++ [ev]) s).
(** The index of the next oracle answer. *)
Definition tick : M nat := λ s, (Ok (ticks s), set_ticks (S (ticks s)) s).
Definition when (b : bool) (m : M ()) : M () := if b then m else mret ().

(** The channel a local identifier maps to. *)
Definition lookupChannel (id : Z) (c : connection) : option (nat * sshChannel) :=
  p ← channels c !! id; ch ← heap c !! p; Some (p, ch).
Definition updateChannel (p : nat) (f : sshChannel → sshChannel) : M () :=
  modify (λ s, set_heap (alter f p (heap s)) s).

(** ** Message numbers and limits *)

Definition sshMsgIgnore : Z := 2.
Definition sshMsgUnimplemented : Z := 3.
Definition sshMsgDebug : Z := 4.
Definition sshMsgServiceRequest : Z := 5.
Definition sshMsgServiceAccept : Z := 6.
Definition sshMsgExtInfo : Z := 7.
Definition sshMsgNewKeys : Z := 21.
Definition sshMsgKexECDHInit : Z := 30.
Definition sshMsgKexECDHReply : Z := 31.
Definition sshMsgUserauthRequest : Z := 50.
Definition sshMsgUserauthFailure : Z := 51.
Definition sshMsgUserauthSuccess : Z := 52.
Definition sshMsgUserauthPKOK : Z := 60.
Definition sshMsgGlobalRequest : Z := 80.
Definition sshMsgRequestSuccess : Z := 81.
Definition sshMsgRequestFailure : Z := 82.
Definition sshMsgChannelOpen : Z := 90.
Definition sshMsgChannelOpenConfirm : Z := 91.
Definition sshMsgChannelOpenFailure : Z := 92.
Definition sshMsgChannelWindowAdjust : Z := 93.
Definition sshMsgChannelData : Z := 94.
Definition sshMsgChannelEOF : Z := 96.
Definition sshMsgChannelClose : Z := 97.
Definition sshMsgChannelRequest : Z := 98.
Definition sshMsgChannelFailure : Z := 100.
Definition channelOpenAdminProhibited : Z := 1.
Definition windowAdjustThreshold : Z := Z.shiftl 1 20.
Definition initialRecvWindow : Z := Z.shiftl 2 20.
Definition initialMaxRecv : Z := Z.shiftl 32 10.
Definition maxSSHSeq : Z := max_u32.
Definition defaultRekeyAfter : Z := Z.shiftl 512 20.
Definition defaultMaxChannels : Z := 4.
Definition maxIdentificationBytes : Z := 255.
Definition DefaultDedicatedUser : string := "warptweet".

Definition checkSSHSeq (seq : Z) : result () :=
  if maxSSHSeq <? seq then Err (EMsg "SSH packet sequence exhausted") else Ok ().

Definition userauthFailure : bytes :=
  [bz sshMsgUserauthFailure] ++ sshString (to_bytes "publickey") ++ [bz 0].

(** The bytes a client signs to authenticate ([signed] in [handleUserauth]). *)
Definition userauthSigned (sessionID user service pubBlob : bytes) : bytes :=
  sshString sessionID ++ [bz sshMsgUserauthRequest] ++ sshString user ++ sshString service
    ++ sshString (to_bytes "publickey") ++ [bz 1]
    ++ sshString (to_bytes Algorithm) ++ sshString pubBlob.

Section conn.
Context `{Crypto} (E : Env).

(** ** Writing and reading packets *)

Definition randRead (n : nat) : M bytes :=
  t ← tick; lift (Packet.randRead (e_rand E t) n).
Definition randSource_ : M randSource := t ← tick; mret (e_rand E t).

(** [conn.Write]. *)
Definition connWrite (frame : bytes) (ev : event) : M () :=
  t ← tick;
  match e_write E t frame with
  | Some e => fail e
  | None => emit ev
  end.

(** The part of [write] under the connection's lock; it says whether a re-key
    is due. *)
Definition writeLocked (payload : bytes) : M bool :=
  c ← get;
  when (authed c) (emit EvDeadline);;
  lift (checkSSHSeq (outSeq c));;
  n ← (if clearOut c then
         rnd ← randSource_;
         frame ← lift (clearFrame payload rnd);
         connWrite frame (EvPacket payload None frame);;
         mret (blen payload)
       else
         match out_ c with
         | None => fail (EPanic "nil codec")
         | Some d =>
             rnd ← randSource_;
             frame ← lift (seal d (outSeq c) payload rnd);
             connWrite frame (EvPacket payload (Some (d, outSeq c)) frame);;
             mret (blen frame)
         end);
  modify (λ s, set_outSeq (wrap64 (outSeq s + 1)) s);;
  modify (λ s, set_bytesOut (wrap64 (bytesOut s + n)) s);;
  c ← get;
  mret (authed c && bool_decide (phase c = kexReady) && (0 <? rekeyAfter c)
        && (rekeyAfter c <=? bytesOut c) && negb (byte0 payload =? sshMsgKexInit)).

Definition marshalServerKex : M bytes :=
  rnd ← randSource_; lift (marshalKexInit (policy E) rnd).

(** [startRekey], over the [write] it ends with. *)
Definition startRekeyWith (write : bytes → M ()) : M () :=
  serverKex ← marshalServerKex;
  c ← get;
  if negb (bool_decide (phase c = kexReady)) then mret ()
  else
    modify (set_serverKex serverKex);;
    modify (set_clientKex None);;
    modify (set_phase kexAwaitInit);;
    write serverKex.

(** [write] and [startRekey] call each other; the KEXINIT that [startRekey]
    writes cannot start another re-key, so depth two is enough
    ([write_depth]). *)
Fixpoint writeDepth (depth : nat) (payload : bytes) : M () :=
  match depth with
  | O => fail (EPanic "write recursion")
  | S k =>
      needRekey ← writeLocked payload;
      if (needRekey : bool) then startRekeyWith (writeDepth k) else mret ()
  end.
Definition write : bytes → M () := writeDepth 2.
Definition startRekey : M () := startRekeyWith write.

Definition disconnect {A} (reason : string) : M A :=
  ignore (write (marshalDisconnect reason));; fail (EMsg reason).

(** [read]. *)
Definition read : M bytes :=
  c ← get;
  when (authed c) (emit EvDeadline);;
  lift (checkSSHSeq (inSeq c));;
  payload ←
    (if clearIn c then
       λ s, let '(r, rest) := readClearPacket (input s) in (r, set_input rest s)
     else match in_ c with
          | None => fail (EPanic "nil codec")
          | Some d => λ s, let '(r, rest) := open d (inSeq c) (input s) in (r, set_input rest s)
          end);
  modify (λ s, set_inSeq (wrap64 (inSeq s + 1)) s);;
  mret payload.

(** The line up to and including the first newline, and what follows it. *)
Fixpoint cutLine (b : bytes) : option (bytes * bytes) :=
  match b with
  | [] => None
  | x :: r => if zb x =? 10 then Some ([x], r)
              else match cutLine r with
                   | Some (l, rest) => Some (x :: l, rest)
                   | None => None
                   end
  end.

Definition readIdentification : M string :=
  c ← get;
  match cutLine (input c) with
  | None => modify (set_input []);; fail (EOS EOF)
  | Some (raw, rest) =>
      modify (set_input rest);;
      let line := to_string (Strings.trim_right_crlf raw) in
      if negb (Strings.has_prefix line "SSH-2.0-") || (maxIdentificationBytes <? slen line)
      then fail (EMsg ("unsupported identification " ++ e_quote E line))
      else mret line
  end.

(** ** Key exchange *)

Definition handleKexInit (payload : bytes) : M () :=
  c ← get;
  match phase c with
  | kexReady =>
      serverKex ← marshalServerKex;
      modify (set_serverKex serverKex);;
      modify (set_clientKex (Some payload));;
      modify (set_phase kexAwaitECDH);;
      write serverKex
  | kexAwaitInit =>
      modify (set_clientKex (Some payload));;
      when (initialKEX c && clientOffersStrictKEX payload) (modify (set_strictKEX true));;
      modify (set_phase kexAwaitECDH)
  | _ => disconnect "unexpected KEXINIT"
  end.

Definition handleNewKeys : M () :=
  c ← get;
  match phase c, pendingIn c with
  | kexAwaitNewKeys, Some p =>
      modify (set_in_ (Some p));;
      modify (set_pendingIn None);;
      modify (set_clearIn false);;
      when (strictKEX c) (modify (set_inSeq 0));;
      modify (set_initialKEX false);;
      modify (set_phase kexReady);;
      modify (set_bytesOut 0)
  | _, _ => fail (EMsg "NEWKEYS before key derivation")
  end.

(** The critical section at the end of [handleKEX]: the outgoing codec is in
    force, the incoming one waits for the client's NEWKEYS. *)
Definition installKeys (pendingOut pending : chachaDirection) : M () :=
  c ← get;
  modify (set_out_ (Some pendingOut));;
  modify (set_pendingIn (Some pending));;
  modify (set_clearOut false);;
  modify (set_phase kexAwaitNewKeys);;
  when (strictKEX c) (modify (set_outSeq 0)).

Definition handleKEX (payload : bytes) : M () :=
  c ← get;
  match phase c, clientKex c with
  | kexAwaitECDH, Some clientKex_ =>
      let serverKex_ := serverKex c in
      '(clientPub, rest) ← lift (consumeSSHString (drop 1 payload));
      if negb (blen rest =? 0) then fail (EMsg "trailing KEX_ECDH_INIT bytes")
      else
        t ← tick;
        rndX ← randSource_;
        '(serverPub, shared) ← lift (serverHybridEncapsulate clientPub (e_kemRand E t) rndX);
        match clientOffersPinnedAlgorithms clientKex_ (policy E) with
        | Err e => disconnect (errText e)
        | Ok _ =>
            t ← tick;
            hostPub ← lift (e_hostPublic E t);
            let hostBlob := hostKeyBlob hostPub in
            let secret := sshString shared in
            let hash := exchangeHash (clientID c) (serverID c) clientKex_ serverKex_
                          hostBlob clientPub serverPub secret in
            when (blen (sessionID c) =? 0) (modify (set_sessionID hash));;
            c ← get;
            let sessionID_ := sessionID c in
            t ← tick;
            sigRaw ← lift (e_hostSign E t hash);
            let reply := [bz sshMsgKexECDHReply] ++ sshString hostBlob ++ sshString serverPub
                           ++ sshString (signatureBlob sigRaw) in
            write reply;;
            let '(keyC, keyD) := deriveKeys secret hash sessionID_ in
            pendingOut ← lift (newChaChaDirection keyD);
            pending ← lift (newChaChaDirection keyC);
            write [bz sshMsgNewKeys];;
            installKeys pendingOut pending
        end
  | _, _ => fail (EMsg "KEX_ECDH_INIT before KEXINIT")
  end.

(** ** Services and user authentication *)

Definition handleService (payload : bytes) : M () :=
  '(name, rest) ← lift (consumeSSHString (drop 1 payload));
  if negb (blen rest =? 0) || negb (bool_decide (to_string name = "ssh-userauth"%string))
  then disconnect "WarpTweet only accepts ssh-userauth"
  else write ([bz sshMsgServiceAccept] ++ sshString (to_bytes "ssh-userauth")).

Definition knownClient (rawPub : bytes) : M bool :=
  t ← tick;
  match e_authorizedKeys E t with
  | Err _ => mret false
  | Ok raw =>
      match authorizedRawKeys raw with
      | Err _ => mret false
      | Ok clients => mret (existsb (λ known, bool_decide (known = rawPub)) clients)
      end
  end.

Definition newConnectionID : M string := raw ← randRead 16; mret (Hex.encode raw).

(** The end of [handleUserauth], once the signature has been verified. *)
Definition userauthAccept (rawPub : bytes) : M () :=
  modify (set_authed true);;
  modify (set_bytesOut 0);;
  modify (set_keyDigest (Hex.encode (sha256 (hostKeyBlob rawPub))));;
  connID ← newConnectionID;
  modify (set_connectionID connID);;
  (if Grant (policy E) then
     c ← get;
     t ← tick;
     match e_register E t (keyDigest c) (connectionID c) with
     | Some _ => disconnect "grant session registration failed"
     | None =>
         emit (EvRegister (keyDigest c) (connectionID c));;
         when (e_sessions E) (emit (EvTrack (connectionID c)))
     end
   else mret ());;
  emit EvDeadline;;
  write [bz sshMsgUserauthSuccess].

Definition handleUserauth (payload : bytes) : M () :=
  '(user, rest) ← lift (consumeSSHString (drop 1 payload));
  '(service, rest) ← lift (consumeSSHString rest);
  '(method, rest) ← lift (consumeSSHString rest);
  if negb (bool_decide (to_string user = DefaultDedicatedUser))
     || negb (bool_decide (to_string service = "ssh-connection"%string))
     || negb (bool_decide (to_string method = "publickey"%string))
  then write userauthFailure
  else
    '(hasSig, rest) ← lift (consumeBool rest);
    '(alg, rest) ← lift (consumeSSHString rest);
    '(pubBlob, rest) ← lift (consumeSSHString rest);
    if negb (bool_decide (to_string alg = Algorithm)) then write userauthFailure
    else match consumeSSHString pubBlob with
    | Err _ => write userauthFailure
    | Ok (alg2, restBlob) =>
      if negb (bool_decide (to_string alg2 = Algorithm)) then write userauthFailure
      else match consumeSSHString restBlob with
      | Err _ => write userauthFailure
      | Ok (rawPub, restBlob) =>
        if negb (blen restBlob =? 0) then write userauthFailure
        else
          known ← knownClient rawPub;
          if negb known then write userauthFailure
          else if negb hasSig then
            if negb (blen rest =? 0) then write userauthFailure
            else write ([bz sshMsgUserauthPKOK] ++ sshString (to_bytes Algorithm)
                          ++ sshString pubBlob)
          else match consumeSSHString rest with
          | Err _ => write userauthFailure
          | Ok (sigWire, rest) =>
            if negb (blen rest =? 0) then write userauthFailure
            else match consumeSSHString sigWire with
            | Err _ => write userauthFailure
            | Ok (alg3, sigRest) =>
              if negb (bool_decide (to_string alg3 = Algorithm)) then write userauthFailure
              else match consumeSSHString sigRest with
              | Err _ => write userauthFailure
              | Ok (rawSig, sigRest) =>
                if negb (blen sigRest =? 0) then write userauthFailure
                else
                  c ← get;
                  let signed := userauthSigned (sessionID c) user service pubBlob in
                  match Composite.Verify rawPub signed rawSig with
                  | Err _ => write userauthFailure
                  | Ok _ => userauthAccept rawPub
                  end
              end
            end
          end
      end
    end.

Definition handleGlobal (payload : bytes) : M () :=
  '(name, rest) ← lift (consumeSSHString (drop 1 payload));
  '(wantReply, rest) ← lift (consumeBool rest);
  if negb (blen rest =? 0) then disconnect "trailing global-request payload"
  else match allowGlobalRequest (e_quote E) (to_string name) with
       | Err _ => if (wantReply : bool) then write [bz sshMsgRequestFailure] else mret ()
       | Ok _ => if (wantReply : bool) then write [bz sshMsgRequestSuccess] else mret ()
       end.

End conn.
