(* ===== verification/Forward.v ===== *)
(** * Channels and forwarding

    [internal/dataplane/forward.go]: opening a direct-tcpip channel, channel
    data in both directions with its flow control, and closing.  The
    [forwardBackend] goroutine of a channel is a small-step machine
    ([fwdStep]): one step per blocking point, so its steps interleave with the
    serve loop's. *)

From S2P Require Import Prelude GoStd SshWire Crypto Packet Kex Conn.
Import BigEndian Wire Netip Packet Policy Kex.

Section forward.
Context `{Crypto} (E : Env).

Definition channelOpenFailure (sender : Z) (reason : string) : M () :=
  write E ([bz sshMsgChannelOpenFailure] ++ put32 sender ++ put32 channelOpenAdminProhibited
             ++ sshString (to_bytes reason) ++ sshString []).

Definition closeChannel (localID : Z) : M () :=
  c ← get;
  match lookupChannel localID c with
  | None => mret ()
  | Some (p, ch) =>
      updateChannel p (Channel.set_closed true);;
      modify (λ s, set_channels (delete localID (channels s)) s);;
      match Channel.backend ch with
      | Some b => emit (EvBackendClose b)
      | None => mret ()
      end;;
      ignore (write E ([bz sshMsgChannelClose] ++ put32 (Channel.remoteID ch)))
  end.

(** The check [len(c.channels) >= c.maxChannels]. *)
Definition quotaExceeded (c : connection) : bool :=
  maxChannels c <=? Z.of_nat (size (channels c)).

(** Heap cells are numbered in order of allocation. *)
Definition freshCell (c : connection) : nat := fresh (dom (heap c)).

(** The second critical section of [handleChannelOpen]: the channel enters the
    table.  Returns its cell and local identifier. *)
Definition addChannel (sender window maxPkt : Z) (backend : nat) : M (nat * Z) :=
  c ← get;
  let localID := nextLocal c in
  let p := freshCell c in
  let ch := {| Channel.localID := localID; Channel.remoteID := sender;
               Channel.window := window; Channel.maxPkt := maxPkt;
               Channel.recvWindow := initialRecvWindow;
               Channel.maxRecv := initialMaxRecv; Channel.consumed := 0;
               Channel.closed := false; Channel.backend := Some backend |} in
  modify (λ s, set_nextLocal (wrap32 (nextLocal s + 1)) s);;
  modify (λ s, set_heap (<[p := ch]> (heap s)) s);;
  modify (λ s, set_channels (<[localID := p]> (channels s)) s);;
  mret (p, localID).

(** The end of [handleChannelOpen], once the destination is permitted. *)
Definition openBackend (sender window maxPkt : Z) (dest : AddrPort) : M () :=
  c ← get;
  if quotaExceeded c then channelOpenFailure sender "channel quota exceeded"
  else
    t ← tick;
    emit (EvDial dest);;
    match e_dial E t dest with
    | Err e => channelOpenFailure sender (errText e)
    | Ok backend =>
        c ← get;
        if quotaExceeded c then
          emit (EvBackendClose backend);;
          channelOpenFailure sender "channel quota exceeded"
        else
          '(p, localID) ← addChannel sender window maxPkt backend;
          let confirm := [bz sshMsgChannelOpenConfirm] ++ put32 sender ++ put32 localID
                           ++ put32 initialRecvWindow ++ put32 initialMaxRecv in
          r ← attempt (write E confirm);
          match r with
          | Err e => closeChannel localID;; fail e
          | Ok _ => modify (λ s, set_forwarders (<[p := FwdRead]> (forwarders s)) s)
          end
    end.

Definition handleChannelOpen (payload : bytes) : M () :=
  c ← get;
  if negb (authed c) then disconnect E "channel open before authentication"
  else
    '(name, rest) ← lift (consumeSSHString (drop 1 payload));
    '(sender, rest) ← lift (consumeUint32 rest);
    '(window, rest) ← lift (consumeUint32 rest);
    '(maxPkt, rest) ← lift (consumeUint32 rest);
    if maxPkt =? 0 then channelOpenFailure sender "max packet size is zero"
    else match allowChannelType (e_quote E) (to_string name) with
    | Err e => channelOpenFailure sender (errText e)
    | Ok _ =>
      '(host, rest) ← lift (consumeSSHString rest);
      '(port, rest) ← lift (consumeUint32 rest);
      if 65535 <? port then channelOpenFailure sender "destination port out of range"
      else
        '(_, rest) ← lift (consumeSSHString rest);
        '(origPort, rest) ← lift (consumeUint32 rest);
        if negb (blen rest =? 0) then disconnect E "trailing channel-open payload"
        else if 65535 <? origPort then channelOpenFailure sender "originator port out of range"
        else match ParseAddr (to_string host) with
        | Err _ => channelOpenFailure sender "destination is not a numeric address"
        | Ok addr =>
          let dest := AddrPortFrom (Unmap addr) port in
          match allowDirectTCPIP (policy E) dest with
          | Err e => channelOpenFailure sender (errText e)
          | Ok _ => openBackend sender window maxPkt dest
          end
        end
    end.

(** ** Data from the client *)

Definition handleChannelData (payload : bytes) : M () :=
  '(localID, rest) ← lift (consumeUint32 (drop 1 payload));
  '(data, _) ← lift (consumeSSHString rest);
  c ← get;
  match lookupChannel localID c with
  | None => mret ()
  | Some (p, ch) =>
      match Channel.backend ch with
      | None => mret ()
      | Some backend =>
          let size := wrap32 (blen data) in
          if (Channel.maxRecv ch <? size) || (Channel.recvWindow ch <? size)
          then disconnect E "channel data exceeds window"
          else
            updateChannel p (λ ch, Channel.set_recvWindow
                                     (wrap32 (Channel.recvWindow ch - size)) ch);;
            t ← tick;
            emit (EvBackendWrite backend data);;
            let '(n, err) := e_backendWrite E t backend data in
            match err with
            | Some _ =>
                c ← get;
                if default false (Channel.closed <$> heap c !! p) then mret ()
                else closeChannel localID
            | None =>
                updateChannel p (λ ch, Channel.set_consumed
                                         (wrap32 (Channel.consumed ch + wrap32 n)) ch);;
                c ← get;
                let adjust := default 0 (Channel.consumed <$> heap c !! p) in
                if adjust <? windowAdjustThreshold then mret ()
                else
                  updateChannel p (Channel.set_consumed 0);;
                  updateChannel p (λ ch, Channel.set_recvWindow
                                           (wrap32 (Channel.recvWindow ch + adjust)) ch);;
                  write E ([bz sshMsgChannelWindowAdjust] ++ put32 (Channel.remoteID ch)
                             ++ put32 adjust)
            end
      end
  end.

Definition handleWindowAdjust (payload : bytes) : M () :=
  '(localID, rest) ← lift (consumeUint32 (drop 1 payload));
  '(add, _) ← lift (consumeUint32 rest);
  c ← get;
  match lookupChannel localID c with
  | None => mret ()
  | Some (p, ch) =>
      if max_u32 - Channel.window ch <? add then disconnect E "channel window overflow"
      else updateChannel p (λ ch, Channel.set_window (wrap32 (Channel.window ch + add)) ch)
  end.

Definition handleChannelEOF (payload : bytes) : M () :=
  '(localID, _) ← lift (consumeUint32 (drop 1 payload));
  c ← get;
  match lookupChannel localID c with
  | None => mret ()
  | Some (p, ch) =>
      match Channel.backend ch with
      | Some b => when (e_isTCP E b) (emit (EvBackendCloseWrite b))
      | None => mret ()
      end
  end.

Definition handleChannelClose (payload : bytes) : M () :=
  '(localID, _) ← lift (consumeUint32 (drop 1 payload));
  closeChannel localID.

Definition handleChannelRequest (payload : bytes) : M () :=
  '(localID, rest) ← lift (consumeUint32 (drop 1 payload));
  '(_, rest) ← lift (consumeSSHString rest);
  '(wantReply, _) ← lift (consumeBool rest);
  if negb wantReply then mret ()
  else
    c ← get;
    match lookupChannel localID c with
    | None => mret ()
    | Some (p, ch) => write E ([bz sshMsgChannelFailure] ++ put32 (Channel.remoteID ch))
    end.

(** ** Data from the backend *)

(** The chunk [sendChannelData] takes: at most the data, the peer's packet
    limit and its window. *)
Definition chunkSize (data : bytes) (ch : sshChannel) : Z :=
  let chunk := wrap32 (blen data) in
  let chunk := if Channel.maxPkt ch <? chunk then Channel.maxPkt ch else chunk in
  if Channel.window ch <? chunk then Channel.window ch else chunk.

Definition dataPacket (ch : sshChannel) (data : bytes) : bytes :=
  [bz sshMsgChannelData] ++ put32 (Channel.remoteID ch) ++ sshString data.

(** What a forwarder does next once a chunk is out: send the rest, else act
    on the error its read returned, else read again. *)
Definition afterSend (rest : bytes) (readErr : option error) : fwdState :=
  match rest with
  | _ :: _ => FwdSend rest readErr
  | [] => match readErr with Some _ => FwdEOF | None => FwdRead end
  end.

(** One step of the forwarder of heap cell [p].  [fromBackend] is what
    [backend.Read] returned; it is used in [FwdRead] only.  [None]: the
    forwarder waits on the window or on the key exchange. *)
Definition fwdStep (p : nat) (fromBackend : bytes * option error) (c : connection)
    : option connection :=
  match forwarders c !! p, heap c !! p with
  | Some FwdRead, Some _ =>
      let '(data, err) := fromBackend in
      Some (set_forwarders (<[p := afterSend data err]> (forwarders c)) c)
  | Some (FwdSend data err), Some ch =>
      if Channel.closed ch then
        (* net.ErrClosed: closeChannel, then the goroutine ends *)
        let c := (closeChannel (Channel.localID ch) c).2 in
        Some (set_forwarders (delete p (forwarders c)) c)
      else if (Channel.window ch =? 0) || negb (bool_decide (phase c = kexReady)) then None
      else
        let chunk := chunkSize data ch in
        let n := Z.to_nat chunk in
        let c := set_heap (alter (λ ch, Channel.set_window
                   (wrap32 (Channel.window ch - chunk)) ch) p (heap c)) c in
        Some (set_forwarders
                (<[p := FwdWrite (dataPacket ch (take n data)) (drop n data) err]> (forwarders c)) c)
  | Some (FwdWrite pkt rest err), Some ch =>
      match write E pkt c with
      | (Err _, c) =>
          let c := (closeChannel (Channel.localID ch) c).2 in
          Some (set_forwarders (delete p (forwarders c)) c)
      | (Ok _, c) => Some (set_forwarders (<[p := afterSend rest err]> (forwarders c)) c)
      end
  | Some FwdEOF, Some ch =>
      let c := (write E ([bz sshMsgChannelEOF] ++ put32 (Channel.remoteID ch)) c).2 in
      let c := (closeChannel (Channel.localID ch) c).2 in
      Some (set_forwarders (delete p (forwarders c)) c)
  | _, _ => None
  end.

End forward.
