(* ===== verification/Serve.v ===== *)
(** * The serve loop

    [conn.go]: dispatch of post-KEX messages, the serve loop of a connection
    and its teardown. *)

From S2P Require Import Prelude GoStd SshWire Crypto Packet Kex Conn Forward.
Import BigEndian Wire Netip Packet Policy Kex.

Section serve.
Context `{Crypto} (E : Env).

Definition unexpected {A} (payload : bytes) : M A :=
  disconnect E ("unexpected SSH message " ++ Strings.itoa (byte0 payload)).

Definition allowedDuringKex (t : Z) : bool :=
  (t =? sshMsgChannelData) || (t =? sshMsgChannelWindowAdjust) || (t =? sshMsgChannelEOF)
  || (t =? sshMsgChannelClose) || (t =? sshMsgGlobalRequest).

Definition dispatchSecure (payload : bytes) : M () :=
  c ← get;
  let t := byte0 payload in
  if clearIn c then disconnect E "post-KEX message before NEWKEYS"
  else if negb (bool_decide (phase c = kexReady)) && negb (allowedDuringKex t)
  then disconnect E "application message during key exchange"
  else if t =? sshMsgServiceRequest then handleService E payload
  else if t =? sshMsgUserauthRequest then handleUserauth E payload
  else if t =? sshMsgGlobalRequest then handleGlobal E payload
  else if t =? sshMsgChannelOpen then handleChannelOpen E payload
  else if t =? sshMsgChannelData then handleChannelData E payload
  else if t =? sshMsgChannelWindowAdjust then handleWindowAdjust E payload
  else if t =? sshMsgChannelEOF then handleChannelEOF E payload
  else if t =? sshMsgChannelClose then handleChannelClose E payload
  else if t =? sshMsgChannelRequest then handleChannelRequest E payload
  else unexpected payload.

(** One message: [true] to go on, [false] when the loop returns nil. *)
Definition handlePayload (payload : bytes) : M bool :=
  let t := byte0 payload in
  if t =? sshMsgKexInit then handleKexInit E payload;; mret true
  else if t =? sshMsgKexECDHInit then handleKEX E payload;; mret true
  else if t =? sshMsgNewKeys then handleNewKeys;; mret true
  else if (t =? sshMsgIgnore) || (t =? sshMsgUnimplemented) || (t =? sshMsgDebug)
          || (t =? sshMsgExtInfo) then
    c ← get;
    if initialKEX c then disconnect E "unexpected message during initial KEX" else mret true
  else if t =? sshMsgDisconnect then mret false
  else if (t =? sshMsgServiceRequest) || (t =? sshMsgUserauthRequest)
          || (t =? sshMsgGlobalRequest) || (t =? sshMsgChannelOpen)
          || (t =? sshMsgChannelData) || (t =? sshMsgChannelWindowAdjust)
          || (t =? sshMsgChannelEOF) || (t =? sshMsgChannelClose)
          || (t =? sshMsgChannelRequest) then
    dispatchSecure payload;; mret true
  else unexpected payload.

(** One turn of the loop in [serve]. *)
Definition serveOne : M bool :=
  payload ← read;
  if blen payload =? 0 then mret true else handlePayload payload.

(** Each turn consumes input ([serveLoop_terminates]), so the length of the
    input bounds the number of turns. *)
Fixpoint serveLoop (fuel : nat) : M () :=
  match fuel with
  | O => fail (EPanic "fuel")
  | S f =>
      continue ← serveOne;
      if (continue : bool) then serveLoop f else mret ()
  end.

(** What [serve] does before its loop. *)
Definition servePrologue : M () :=
  modify (set_serverID identification);;
  connWrite E (to_bytes (identification ++ String (Ascii.ascii_of_nat 13)
                 (String (Ascii.ascii_of_nat 10) ""))) (EvLine identification);;
  clientID ← readIdentification E;
  modify (set_clientID clientID);;
  serverKex ← marshalServerKex E;
  modify (set_serverKex serverKex);;
  write E serverKex.

Definition serve : M () :=
  servePrologue;;
  c ← get;
  serveLoop (S (length (input c))).

(** ** Setup and teardown *)

Definition teardownChannels : M () :=
  c ← get;
  let live := map_to_list (channels c) in
  modify (λ s, foldr (λ '(_, p) s, set_heap (alter (Channel.set_closed true) p (heap s)) s) s live);;
  modify (set_channels ∅);;
  foldr (λ '(_, p) k,
           match heap c !! p ≫= Channel.backend with
           | Some b => emit (EvBackendClose b);; k
           | None => k
           end) (mret ()) live.

Definition releaseGrant : M () :=
  c ← get;
  when (e_sessions E) (emit (EvUntrack (connectionID c)));;
  when (Grant (policy E) && negb (bool_decide (connectionID c = ""%string)))
    (emit (EvUnregister (connectionID c))).

Definition newConnection (raw : bytes) : connection :=
  let rekey := RekeyAfter (policy E) in
  let maxch := MaxChannels (policy E) in
  {| clearIn := true; clearOut := true; in_ := None; out_ := None; pendingIn := None;
     phase := kexAwaitInit; inSeq := 0; outSeq := 0; bytesOut := 0;
     rekeyAfter := if rekey =? 0 then defaultRekeyAfter else rekey;
     clientID := ""; serverID := ""; clientKex := None; serverKex := [];
     sessionID := []; strictKEX := false; initialKEX := true; authed := false;
     heap := ∅; channels := ∅; nextLocal := 0; connectionID := ""; keyDigest := "";
     maxChannels := if maxch <=? 0 then defaultMaxChannels else maxch;
     forwarders := ∅; input := raw; trace := []; ticks := O |}.

(** The deferred calls of [serveConnection], innermost first. *)
Definition cleanup : M () :=
  teardownChannels;; releaseGrant;; emit EvClose.

Definition serveConnection (raw : bytes) : result () * connection :=
  let '(r, c) := serve (newConnection raw) in
  (r, (cleanup c).2).

End serve.
