(* ===== verification/Sample.v ===== *)
(** * A concrete session

    A toy instance of the cryptographic interface that satisfies its laws, an
    environment, and a client that identifies itself, exchanges keys,
    authenticates and opens a channel.  The witnesses of the theorems about
    connections evaluate the model on it. *)

From S2P Require Import Prelude GoStd SshWire Crypto Packet Kex Conn Forward Serve.
Import BigEndian Wire Netip Packet Policy Kex.

Module Toy.

Definition checksum (b : bytes) : byte := bz (foldl (λ acc x, acc + zb x) 0 b).
(** [b] cut or padded to [n] bytes. *)
Definition fit (n : nat) (b : bytes) : bytes := take n (b ++ replicate n (bz 0)).
Definition tag (n : nat) (key msg : bytes) : bytes := replicate n (checksum (key ++ msg)).

Lemma length_fit n b : length (fit n b) = n.
Proof. unfold fit. rewrite length_take, length_app, length_replicate. lia. Qed.

#[export] Instance crypto : Crypto := {|
  sha256 m := replicate 32 (checksum m);
  sha512 m := replicate 64 (checksum m);
  chacha20 k n c l := replicate l (checksum (k ++ n));
  poly1305 := tag 16;
  ed25519_public := fit 32;
  ed25519_sign s := tag 64 (fit 32 s);
  ed25519_verify pk m sig := bool_decide (sig = tag 64 pk m);
  mldsa_private := bytes;
  mldsa_public := bytes;
  mldsa_NewPrivateKey44 := Ok;
  mldsa_NewPublicKey44 := Ok;
  mldsa_PublicBytes := fit 1312;
  mldsa_Sign k m c r := Ok (tag 2420 (fit 1312 k) m);
  mldsa_Verify pk m sig c :=
    if bool_decide (sig = tag 2420 pk m) then Ok () else Err (EMsg "invalid signature");
  mlkem_encapsulation_key := bytes;
  mlkem_NewEncapsulationKey768 := Ok;
  mlkem_Encapsulate ek rnd := (fit 32 ek, fit 1088 rnd);
  mlkem_Decapsulate k ct := Ok (fit 32 k);
  x25519_public := fit 32;
  x25519_ecdh a b := Ok (replicate 32 (bz 9));
|}.

#[export] Instance crypto_laws : CryptoLaws.
Proof.
  constructor; intros; try apply length_fit; try apply length_replicate.
  - by apply bool_decide_eq_true.
  - injection H as <-. exists (fit 1312 k). split; [done|]. cbn -[fit tag].
    by rewrite bool_decide_eq_true_2.
Qed.

End Toy.
Import Toy.

(** ** The environment *)

Definition samplePolicy : Policy := {|
  profile := Profile.current;
  Listen := AddrPortFrom (Addr4 3405803783) 443;
  Target := AddrPortFrom (Addr4 2130706433) 22;
  Management := AddrPortFrom (Addr4 2130706433) 2222;
  HostKeyPath := "/etc/warptweet/host"; AuthorizedKeysPath := "/etc/warptweet/authorized_keys";
  HostSignSocket := ""; Grant := true; ControlSocket := "";
  RekeyAfter := 0; MaxChannels := 0; MaxConnsPerSource := 0;
|}.

Definition sampleSeed : Composite.PrivateKey :=
  Composite.mkPrivateKey (replicate 32 (bz 1)) (replicate 32 (bz 2)).
Definition samplePublic : bytes := default [] (match Composite.Public sampleSeed with Ok k => Some k | Err _ => None end).
Definition sampleAuthorizedKeys : bytes :=
  to_bytes ("restrict " ++ Algorithm ++ " ")%string
    ++ Base64.encode (hostKeyBlob samplePublic) ++ to_bytes " grant" ++ [bz 10].

Definition sampleEnv : Env := {|
  policy := samplePolicy;
  e_rand t := Ok (λ i, bz (Z.of_nat (t + i)));
  e_kemRand t := replicate 32 (bz (Z.of_nat t));
  e_write t frame := None;
  e_dial t dest := Ok t;
  e_backendWrite t b data := (blen data, None);
  e_isTCP b := true;
  e_authorizedKeys t := Ok sampleAuthorizedKeys;
  e_hostPublic t := Ok samplePublic;
  e_hostSign t h := Composite.Sign sampleSeed h [];
  e_register t digest id := None;
  e_sessions := true;
  e_quote s := s;
|}.

(** ** The client *)

Definition get_ok {A} (d : A) (r : result A) : A := match r with Ok a => a | Err _ => d end.
Definition clientRand : randSource := Ok (λ i, bz (Z.of_nat i)).
Definition clear (payload : bytes) : bytes := get_ok [] (clearFrame payload clientRand).

Definition clientVersion : bytes := to_bytes "SSH-2.0-OpenSSH_10.4" ++ [bz 13; bz 10].
Definition clientKexInit : bytes := get_ok [] (marshalKexInitClient samplePolicy clientRand).
Definition clientPub : bytes := replicate 1184 (bz 3) ++ replicate 32 (bz 4).

(** The state once the client's key exchange has been served. *)
Definition kexInput : bytes :=
  clientVersion ++ clear clientKexInit ++ clear ([bz sshMsgKexECDHInit] ++ sshString clientPub)
    ++ clear [bz sshMsgNewKeys].

Definition run (n : nat) (c : connection) : connection :=
  Nat.iter n (λ c, (serveOne sampleEnv c).2) c.
Definition started : connection := (servePrologue sampleEnv (newConnection sampleEnv kexInput)).2.
Definition afterKex : connection := run 3 started.

Definition clientCodec : chachaDirection := default (mkDirection [] []) (in_ afterKex).
Definition sealed (seq : Z) (payload : bytes) : bytes :=
  get_ok [] (seal clientCodec seq payload clientRand).

Definition serviceRequest : bytes := [bz sshMsgServiceRequest] ++ sshString (to_bytes "ssh-userauth").
Definition clientSignature : bytes :=
  get_ok [] (Composite.Sign sampleSeed
    (userauthSigned (sessionID afterKex) (to_bytes DefaultDedicatedUser) (to_bytes "ssh-connection")
       (hostKeyBlob samplePublic)) []).
Definition authRequest : bytes :=
  [bz sshMsgUserauthRequest] ++ sshString (to_bytes DefaultDedicatedUser)
    ++ sshString (to_bytes "ssh-connection") ++ sshString (to_bytes "publickey") ++ [bz 1]
    ++ sshString (to_bytes Algorithm) ++ sshString (hostKeyBlob samplePublic)
    ++ sshString (signatureBlob clientSignature).
Definition channelOpen (host : string) (port : Z) : bytes :=
  [bz sshMsgChannelOpen] ++ sshString (to_bytes channelDirectTCPIP) ++ put32 7 ++ put32 100
    ++ put32 40 ++ sshString (to_bytes host) ++ put32 port
    ++ sshString (to_bytes "198.51.100.1") ++ put32 50000.
Definition channelData : bytes :=
  [bz sshMsgChannelData] ++ put32 0 ++ sshString (to_bytes "hello").

Definition secureInput : bytes :=
  sealed 0 serviceRequest ++ sealed 1 authRequest ++ sealed 2 (channelOpen "127.0.0.1" 22)
    ++ sealed 3 channelData ++ sealed 4 (channelOpen "192.0.2.9" 22).
Definition authenticating : connection := set_input (input afterKex ++ secureInput) afterKex.
(** Authenticated, with one channel open and data received on it. *)
Definition afterAuth : connection := run 2 authenticating.
Definition afterData : connection := run 5 authenticating.


(** The forwarder of the open channel has read 150 bytes from its backend. *)
Definition backendData : bytes := replicate 150 (bz 65).
Definition forwarding : connection :=
  default afterData (fwdStep sampleEnv 0 (backendData, None) afterData).
