(* ===== verification/WireWitness.v ===== *)
(** * The wire-level theorems on concrete inputs

    Packets, signatures, key blobs and key exchanges of the toy cryptographic
    instance, on which the theorems of [SshWire], [Crypto], [Packet] and [Kex]
    are evaluated. *)

From S2P Require Import Prelude GoStd SshWire Crypto Packet Kex Sample.
Import BigEndian Wire SshWire Packet Kex Toy.

Definition toyDirection : chachaDirection := mkDirection (replicate 32 (bz 5)) (replicate 32 (bz 6)).
Definition greeting : bytes := to_bytes "hello".
Definition sealedGreeting : bytes := get_ok [] (seal toyDirection 3 greeting clientRand).


Lemma open_Ok_witness :
  ∃ encLen encBody, length encLen = 4%nat ∧ 5 ≤ blen encBody ≤ maxPacket ∧
    sealedGreeting = encLen ++ encBody ++ poly1305Tag (payloadKey toyDirection) (seqNonce 3) encLen encBody ++ [].
Proof.
  apply (open_Ok toyDirection 3 sealedGreeting greeting []). vm_compute. reflexivity.
Defined.

Lemma readClear_clearFrame_witness :
  readClearPacket (clear greeting ++ [bz 9]) = (Ok greeting, [bz 9]).
Proof.
  apply (readClear_clearFrame greeting clientRand (clear greeting) [bz 9]); [vm_compute; discriminate|].
  vm_compute. reflexivity.
Defined.

Lemma deriveOne_length_witness : blen (deriveOne (replicate 32 (bz 1)) (replicate 32 (bz 2)) [] 67 64) = 64.
Proof. apply deriveOne_length. lia. Defined.

Lemma exchangeBytes_inj_witness :
  blen (exchangeBytes "c" "s" (bz sshMsgKexInit :: [bz 1]) [bz sshMsgKexInit] greeting [] [] []) = 38 ∧
  [bz 1] = [bz 1].
Proof.
  split; [vm_compute; reflexivity|].
  refine (proj1 (proj2 (proj2 (exchangeBytes_inj "c" "s" [bz 1] [] greeting [] [] []
    "c" "s" [bz 1] [] greeting [] [] [] _ eq_refl)))).
  repeat constructor.
Defined.

Definition toyShare : bytes := replicate 1184 (bz 3).
Definition toyScalar : bytes := replicate 32 (bz 4).
Definition toyHybrid : bytes * bytes :=
  get_ok ([], []) (serverHybridEncapsulate (toyShare ++ x25519_public toyScalar) (replicate 32 (bz 8)) clientRand).

Lemma hybrid_agreement_witness : clientHybridDecapsulate toyShare toyScalar toyHybrid.1 = Ok toyHybrid.2.
Proof.
  apply (hybrid_agreement toyShare toyShare toyScalar) with (rnd := replicate 32 (bz 8)) (rndX := clientRand).
  - intros ek r ss ct [= <-] [= <- _]. reflexivity.
  - intros y. reflexivity.
  - intros y. apply length_fit.
  - vm_compute. reflexivity.
  - vm_compute. reflexivity.
Defined.

Lemma Verify_Sign_witness :
  Composite.Verify samplePublic greeting (get_ok [] (Composite.Sign sampleSeed greeting [])) = Ok ().
Proof.
  apply (Composite.Verify_Sign sampleSeed greeting []); vm_compute; reflexivity.
Defined.

Definition rawKey : bytes := replicate 1344 (bz 7).
Lemma ValidatePublicKeyBlob_exact_witness :
  ValidatePublicKeyBlob (Base64.encode_to_string (key_blob Algorithm rawKey)) Algorithm 1344 = Ok ().
Proof.
  apply ValidatePublicKeyBlob_exact; [vm_compute; reflexivity|lia|].
  split; [lia|]. exists rawKey. split; [vm_compute; reflexivity|reflexivity].
Defined.
