(* ===== verification/Hoare.v ===== *)
(** * Reasoning about handlers

    Triples for the handler monad [M], the rules the component proofs use,
    and the interface [WriteInv]: what an invariant promises so that every
    packet write, disconnect and re-key keeps it. *)

From S2P Require Import Prelude GoStd SshWire Crypto Packet Kex Conn.
Import Packet Policy Kex.

(** From a state in [P], [m] ends with an outcome and state in [Q]. *)
Definition triple {A} (P : connection → Prop) (m : M A)
    (Q : result A → connection → Prop) : Prop :=
  ∀ s, P s → Q (m s).1 (m s).2.

(** [m] keeps [I], whether it succeeds or fails. *)
Definition pres {A} (I : connection → Prop) (m : M A) : Prop := triple I m (λ _, I).

Create HintDb pres.

Section rules.
Context {A B : Type}.
Implicit Types I P : connection → Prop.

Lemma triple_bind P (m : M A) (R : A → connection → Prop) (f : A → M B) Q :
  triple P m (λ r s, match r with Ok a => R a s | Err e => Q (Err e) s end) →
  (∀ a, triple (R a) (f a) Q) →
  triple P (m ≫= f) Q.
Proof.
  intros Hm Hf s Hs. specialize (Hm s Hs).
  unfold mbind, M_bind. destruct (m s) as [[a|e] s']; [by apply Hf|done].
Qed.

Lemma triple_weaken P P' (m : M A) Q Q' :
  triple P' m Q' → (∀ s, P s → P' s) → (∀ r s, Q' r s → Q r s) → triple P m Q.
Proof. intros Hm HP HQ s Hs. by apply HQ, Hm, HP. Qed.

Lemma pres_bind I (m : M A) (f : A → M B) :
  pres I m → (∀ a, pres I (f a)) → pres I (m ≫= f).
Proof. intros Hm Hf. eapply (triple_bind _ _ (λ _, I)); [|apply Hf].
  intros s Hs. specialize (Hm s Hs). by destruct (m s) as [[] ?].
Qed.

Lemma pres_get I (k : connection → M A) :
  (∀ s, I s → I (k s s).2) → pres I (get ≫= k).
Proof. intros H s Hs. exact (H s Hs). Qed.

(** Forget what [get] returned, except that it satisfied [I]. *)
Lemma pres_get_forget I (k : connection → M A) :
  (∀ c, I c → pres I (k c)) → pres I (get ≫= k).
Proof. intros H. apply pres_get. intros s Hs. exact (H s Hs s Hs). Qed.

Lemma pres_lift I (r : result A) : pres I (lift r).
Proof. by intros s. Qed.
Lemma pres_ret I (a : A) : pres I (mret a).
Proof. by intros s. Qed.
Lemma pres_fail I e : pres I (fail e : M A).
Proof. by intros s. Qed.
Lemma pres_ignore I (m : M A) : pres I m → pres I (ignore m).
Proof. intros H s Hs. exact (H s Hs). Qed.
Lemma pres_attempt I (m : M A) : pres I m → pres I (attempt m).
Proof. intros H s Hs. unfold attempt. specialize (H s Hs). by destruct (m s). Qed.
Lemma pres_modify I f : (∀ s, I s → I (f s)) → pres I (modify f).
Proof. intros H s Hs. exact (H s Hs). Qed.
Lemma pres_when I b (m : M ()) : (b = true → pres I m) → pres I (when b m).
Proof. intros H. destruct b; [by apply H|]. by intros s. Qed.
Lemma pres_state I (m : M A) s : pres I m → I s → I (m s).2.
Proof. intros H. apply H. Qed.

End rules.

#[export] Hint Resolve pres_lift pres_ret pres_fail : pres.

(** One rule of the calculus, driven by the shape of the handler. *)
Ltac pres_step :=
  lazymatch goal with
  | |- pres _ (get ≫= _) => apply pres_get_forget; intros ? ?
  | |- pres _ (_ ≫= _) => apply pres_bind; [|intros ?]
  | |- pres _ (ignore _) => apply pres_ignore
  | |- pres _ (attempt _) => apply pres_attempt
  | |- pres _ (when _ _) => apply pres_when; intros ?
  | |- pres _ (lift _) => apply pres_lift
  | |- pres _ (mret _) => apply pres_ret
  | |- pres _ (fail _) => apply pres_fail
  | |- pres _ (let '(_, _) := ?x in _) => destruct x
  | |- pres _ (match ?x with _ => _ end) => destruct x eqn:?
  | |- pres _ (if ?x then _ else _) => destruct x eqn:?
  end.

(** Run the calculus, closing calls with the lemmas of the [pres] database and
    updates of fields the invariant does not read by conversion. *)
Ltac pres_frame := apply pres_modify; intros ? Hframe; exact Hframe.
Ltac pres_auto :=
  repeat first
    [ solve [auto 3 with pres typeclass_instances]
    | pres_frame
    | pres_step ].

(** Execute the primitives of a handler on a symbolic state. *)
Ltac mrun :=
  unfold when, updateChannel, emit, tick in *;
  repeat match goal with
  | |- context [match ?b with _ => _ end ≫= _] => destruct b eqn:?
  end;
  unfold mbind, M_bind, mret, M_ret, modify, get, lift, fail in *;
  cbn [fst snd];
  repeat match goal with
  | |- context [(if ?b then _ else _) _] => destruct b eqn:?; cbn [fst snd]
  end.

(** ** The write interface *)

(** What an invariant promises about the effects of [write]. *)
Class WriteInv `{Crypto} (E : Env) (I : connection → Prop) := {
  wi_ticks n s : I s → I (set_ticks n s);
  wi_locked p : pres I (writeLocked E p);
  wi_rekey s k : I s → phase s = kexReady →
    I (set_phase kexAwaitInit (set_clientKex None (set_serverKex k s)));
}.

Section write.
Context `{Crypto} (E : Env) (I : connection → Prop) `{!WriteInv E I}.

Lemma pres_tick : pres I tick.
Proof. intros s Hs. by apply wi_ticks. Qed.

Lemma pres_randSource : pres I (randSource_ E).
Proof. unfold randSource_. apply pres_bind; [apply pres_tick|intros]. apply pres_ret. Qed.

Lemma pres_randRead n : pres I (randRead E n).
Proof. unfold randRead. apply pres_bind; [apply pres_tick|intros]. apply pres_lift. Qed.

Lemma pres_marshalServerKex : pres I (marshalServerKex E).
Proof. unfold marshalServerKex. apply pres_bind; [apply pres_randSource|intros]. apply pres_lift. Qed.

Lemma pres_startRekeyWith w : (∀ p, pres I (w p)) → pres I (startRekeyWith E w).
Proof.
  intros Hw. unfold startRekeyWith.
  apply pres_bind; [apply pres_marshalServerKex|intros k].
  apply pres_get. intros s Hs. destruct (bool_decide (phase s = kexReady)) eqn:Hp; [|done].
  apply bool_decide_eq_true in Hp. apply Hw. by apply wi_rekey.
Qed.

Lemma pres_writeDepth n p : pres I (writeDepth E n p).
Proof.
  revert p. induction n as [|n IH]; intros p; [apply pres_fail|]. simpl.
  apply pres_bind; [apply wi_locked|intros []]; [|apply pres_ret].
  by apply pres_startRekeyWith.
Qed.

Lemma pres_write p : pres I (write E p).
Proof. apply pres_writeDepth. Qed.

Lemma pres_disconnect {A} reason : pres I (disconnect E reason : M A).
Proof.
  unfold disconnect. apply pres_bind; [apply pres_ignore, pres_write|intros].
  apply pres_fail.
Qed.

End write.

#[export] Hint Resolve pres_tick pres_randSource pres_randRead pres_marshalServerKex
  pres_write pres_disconnect : pres.

(** The events a packet write emits. *)
Definition writeEvent (ev : event) : Prop :=
  match ev with EvPacket _ _ _ | EvDeadline => True | _ => False end.

(** An invariant that the counters, the events of a write and a re-key do not
    break is kept by [write]. *)
Class FrameInv (I : connection → Prop) := {
  fi_ticks n s : I s → I (set_ticks n s);
  fi_trace ev s : writeEvent ev → I s → I (set_trace (trace s ++ [ev]) s);
  fi_outSeq z s : I s → I (set_outSeq z s);
  fi_bytesOut z s : I s → I (set_bytesOut z s);
  fi_phase s k : I s → phase s = kexReady → I (set_phase kexAwaitInit (set_clientKex None (set_serverKex k s)));
}.

Lemma frame_and I J : FrameInv I → FrameInv J → FrameInv (λ c, I c ∧ J c).
Proof.
  constructor; intros;
    repeat match goal with Hc : _ ∧ _ |- _ => destruct Hc end; split;
    first [by apply fi_ticks|by apply fi_trace|by apply fi_outSeq|by apply fi_bytesOut|by apply fi_phase].
Qed.

(** Conjunctions, and predicates on fields that a write does not touch. *)
Ltac solve_frame :=
  lazymatch goal with
  | |- FrameInv ?I =>
      first [ apply _
            | constructor; intros; assumption
            | apply frame_and; solve_frame ]
  end.

Lemma pres_emit I ev : (∀ s, I s → I (set_trace (trace s ++ [ev]) s)) → pres I (emit ev).
Proof. intros H. by apply pres_modify. Qed.

#[export] Instance frame_write `{Crypto} E I `{!FrameInv I} : WriteInv E I.
Proof.
  assert (pres I tick) as Htick by (intros s Hs; by apply fi_ticks).
  assert (∀ ev, writeEvent ev → pres I (emit ev)) as Hemit
    by (intros; apply pres_emit; intros; by apply fi_trace).
  constructor.
  - apply fi_ticks.
  - intros p. unfold writeLocked, connWrite, randSource_. pose proof fi_outSeq. pose proof fi_bytesOut.
    repeat first [apply Htick | by apply Hemit | pres_step | apply pres_modify; eauto].
  - intros. by apply fi_phase.
Qed.

(** ** The depth bound on [write]

    [startRekey]'s own write carries a KEXINIT, so it never asks for another
    re-key: two levels are all the recursion there is. *)

Lemma writeLocked_kexinit `{Crypto} E p s b s' :
  byte0 p = sshMsgKexInit → writeLocked E p s = (Ok b, s') → b = false.
Proof.
  intros Hp. unfold writeLocked, mbind, M_bind, get, lift, mret, M_ret.
  rewrite Hp. repeat (case_match; try done);
    intros [= <- _]; rewrite ?Z.eqb_refl; apply andb_false_r.
Qed.

Lemma startRekey_depth `{Crypto} E n s :
  startRekeyWith E (writeDepth E (S n)) s = startRekeyWith E (writeDepth E 1) s.
Proof.
  unfold startRekeyWith, mbind, M_bind.
  destruct (marshalServerKex E s) as [[k|e] s1] eqn:Ek; [|done].
  assert (byte0 k = sshMsgKexInit) as Hk.
  { unfold marshalServerKex, mbind, M_bind, lift in Ek.
    destruct (randSource_ E s) as [[rnd|] s2]; [|done].
    injection Ek as Ek _. exact (marshalKexInit_head _ _ _ Ek). }
  unfold get. case_match; [done|]. unfold modify.
  cbn [writeDepth]. unfold mbind, M_bind.
  match goal with |- context [writeLocked E k ?s0] =>
    destruct (writeLocked E k s0) as [[b|e] s'] eqn:Ew; [|done] end.
  by rewrite (writeLocked_kexinit _ _ _ _ _ Hk Ew).
Qed.

Lemma writeDepth_S `{Crypto} E n p :
  writeDepth E (S n) p =
    (needRekey ← writeLocked E p;
     if needRekey : bool then startRekeyWith E (writeDepth E n) else mret ()).
Proof. done. Qed.

Lemma write_depth `{Crypto} E n p s : writeDepth E (S (S n)) p s = write E p s.
Proof.
  unfold write. rewrite (writeDepth_S E (S n)), (writeDepth_S E 1).
  unfold mbind, M_bind. destruct (writeLocked E p s) as [[[]|] s']; try done.
  apply startRekey_depth.
Qed.
