(* ===== verification/ConnInv.v ===== *)
(** * Invariants of a connection

    What holds in every state a connection can reach, whatever the client,
    the backends and the oracles do: the key-exchange state machine, the
    channel table with its flow control, and the destinations dialled. *)

From S2P Require Import Prelude GoStd SshWire Crypto Packet Kex Conn Forward Serve Hoare.
Import BigEndian Wire Netip Packet Policy Kex.

(** ** The key-exchange state machine *)

(** Encryption is on in a direction only with a codec installed; once the
    client's NEWKEYS has been taken both directions are encrypted; nothing is
    authenticated, and the connection is not ready, before that. *)
Definition kex_inv (c : connection) : Prop :=
  (clearOut c = false → is_Some (out_ c)) ∧
  (clearIn c = false → is_Some (in_ c) ∧ clearOut c = false) ∧
  (authed c = true → clearIn c = false) ∧
  (phase c = kexReady → clearIn c = false) ∧
  (phase c = kexAwaitNewKeys → is_Some (pendingIn c) ∧ clearOut c = false) ∧
  (phase c = kexAwaitECDH → is_Some (clientKex c)) ∧
  initialKEX c = clearIn c.

Ltac use_implications :=
  repeat match goal with
  | H : ?P → _, H' : ?P |- _ =>
      lazymatch type of P with Prop => specialize (H H') end
  | H : _ ∧ _ |- _ => destruct H
  end.

Ltac solve_kex :=
  unfold kex_inv in *; cbn in *; destruct_and?; split_and?; intros;
  simplify_eq; use_implications; eauto; congruence.

#[export] Instance kex_frame : FrameInv kex_inv.
Proof. constructor; intros; solve_kex. Qed.

(** The same, once the client's NEWKEYS has been taken. *)
Definition secured (c : connection) : Prop := kex_inv c ∧ clearIn c = false.

#[export] Instance secured_frame : FrameInv secured.
Proof. unfold secured. solve_frame. Qed.

Section kex.
Context `{Crypto} (E : Env).

Lemma kex_handleKexInit p : pres kex_inv (handleKexInit E p).
Proof.
  unfold handleKexInit. pres_step. destruct (phase c) eqn:Hp; [| |apply pres_disconnect; apply _|].
  - intros s Hs. mrun; solve_kex.
  - apply pres_disconnect; apply _.
  - apply pres_bind; [apply pres_marshalServerKex; apply _|intros k].
    intros s Hs. mrun. apply (pres_write E kex_inv). solve_kex.
Qed.

Lemma kex_handleNewKeys : pres kex_inv handleNewKeys.
Proof.
  unfold handleNewKeys. apply pres_get. intros s Hs.
  destruct (phase s) eqn:Hp; try done. destruct (pendingIn s) as [d|] eqn:Hd; [|done].
  mrun; solve_kex.
Qed.

Lemma kex_installKeys o i : pres kex_inv (installKeys o i).
Proof. unfold installKeys. apply pres_get. intros s Hs. mrun; solve_kex. Qed.

Lemma kex_handleKEX p : pres kex_inv (handleKEX E p).
Proof.
  unfold handleKEX. pose proof kex_installKeys.
  pres_auto.
Qed.

(** Handlers of post-KEX messages only run once the connection is secured. *)
Lemma secured_userauthAccept k : pres secured (userauthAccept E k).
Proof.
  unfold userauthAccept, newConnectionID.
  apply pres_bind.
  { intros s [Hs Hc]. split; [|done]. cbn. solve_kex. }
  intros _. pres_auto.
Qed.

Lemma secured_handleUserauth p : pres secured (handleUserauth E p).
Proof.
  unfold handleUserauth, knownClient. pose proof secured_userauthAccept.
  pres_auto.
Qed.

Lemma kex_closeChannel id : pres kex_inv (closeChannel E id).
Proof. unfold closeChannel. pres_auto. Qed.
#[local] Hint Resolve kex_closeChannel : pres.

Lemma kex_dispatchSecure p : pres kex_inv (dispatchSecure E p).
Proof.
  unfold dispatchSecure. apply pres_get. intros s Hs. cbv zeta.
  destruct (clearIn s) eqn:Hc; [by apply (pres_disconnect E kex_inv)|].
  case_match; [by apply (pres_disconnect E kex_inv)|].
  case_match. { apply pres_state; [|done]. unfold handleService. pres_auto. }
  case_match. { apply (secured_handleUserauth p s). by split. }
  apply pres_state; [|done].
  unfold handleGlobal, handleChannelOpen, openBackend, channelOpenFailure, handleChannelData,
    handleWindowAdjust, handleChannelEOF, handleChannelClose, handleChannelRequest, unexpected.
  pres_auto.
Qed.

Lemma kex_handlePayload p : pres kex_inv (handlePayload E p).
Proof.
  unfold handlePayload, unexpected.
  pose proof kex_handleKexInit; pose proof kex_handleKEX; pose proof kex_handleNewKeys.
  pose proof kex_dispatchSecure. pres_auto.
Qed.

Lemma pres_read (I : connection → Prop) :
  (∀ s ev, I s → I (set_trace (trace s ++ [ev]) s)) →
  (∀ s b, I s → I (set_input b s)) → (∀ s z, I s → I (set_inSeq z s)) →
  pres I read.
Proof.
  intros Ht Hi Hq. unfold read.
  repeat first [pres_step | apply pres_emit; by auto | apply pres_modify; by auto
    | intros s Hs; cbn; case_match; by apply Hi].
Qed.

Lemma kex_serveOne : pres kex_inv (serveOne E).
Proof.
  unfold serveOne. apply pres_bind.
  - apply pres_read; intros; assumption.
  - intros p. pose proof kex_handlePayload. pres_auto.
Qed.

(** A forwarder only writes, closes its channel and moves its own state. *)
Lemma pres_fwdStep (I : connection → Prop) `{!WriteInv E I} p fb c c' :
  (∀ id, pres I (closeChannel E id)) →
  (∀ s f, I s → I (set_forwarders f s)) → (∀ s h, I s → I (set_heap h s)) →
  fwdStep E p fb c = Some c' → I c → I c'.
Proof.
  intros Hcl Hfw Hh Hf Hc. unfold fwdStep in Hf.
  destruct (forwarders c !! p) as [[|data err|pkt rest err|]|]; [..|done];
    destruct (heap c !! p) as [ch|]; try done.
  - destruct fb. simplify_eq. by apply Hfw.
  - destruct (Channel.closed ch); [|case_match; [done|]]; simplify_eq; apply Hfw.
    + by apply (Hcl _ c).
    + by apply Hh.
  - pose proof (pres_write E I pkt c Hc) as Hw.
    destruct (write E pkt c) as [[u|e] c1]; simplify_eq; apply Hfw; [done|].
    by apply (Hcl _ c1).
  - simplify_eq. apply Hfw. apply (Hcl _ _). by apply (pres_write E I).
Qed.

Lemma kex_fwdStep p fb c c' : fwdStep E p fb c = Some c' → kex_inv c → kex_inv c'.
Proof. apply pres_fwdStep; [apply _|apply kex_closeChannel|auto..]. Qed.

End kex.
