(* ===== verification/ChanInv.v ===== *)
(** * Channel table and flow control

    The channel invariant: quota, the cells of the heap, and the accounting of
    both flow-control windows; and the destinations a connection dials. *)

From S2P Require Import Prelude GoStd SshWire Crypto Packet Kex Conn Forward Serve Hoare ConnInv.
Import BigEndian Wire Netip Packet Policy Kex.

(** What the environment promises: a successful [Write] of a backend wrote all
    its bytes (the contract of [io.Writer]). *)
Class EnvLaws (E : Env) := {
  backendWrite_all t b data n : e_backendWrite E t b data = (n, None) → n = blen data;
}.

(** ** The channel invariant *)

(** A channel cell: windows are 32-bit, the peer's packet limit is positive,
    and what the client may still send plus what has been delivered but not
    yet re-credited is the initial window, exactly so while it is open. *)
Definition cell_wf (ch : sshChannel) : Prop :=
  0 ≤ Channel.window ch < 2 ^ 32 ∧
  0 < Channel.maxPkt ch < 2 ^ 32 ∧
  Channel.maxRecv ch = initialMaxRecv ∧
  0 ≤ Channel.consumed ch < windowAdjustThreshold ∧
  0 ≤ Channel.recvWindow ch ∧
  Channel.recvWindow ch + Channel.consumed ch ≤ initialRecvWindow ∧
  (Channel.closed ch = false →
     Channel.recvWindow ch + Channel.consumed ch = initialRecvWindow) ∧
  is_Some (Channel.backend ch).

Definition table_wf (hp : gmap nat sshChannel) (chs : gmap Z nat) : Prop :=
  ∀ id p, chs !! id = Some p →
    ∃ ch, hp !! p = Some ch ∧ Channel.localID ch = id ∧ Channel.closed ch = false.

Definition chan_inv (c : connection) : Prop :=
  (∀ p ch, heap c !! p = Some ch → cell_wf ch) ∧
  table_wf (heap c) (channels c) ∧
  Z.of_nat (size (channels c)) ≤ maxChannels c ∧
  1 ≤ maxChannels c ∧
  (∀ p, is_Some (forwarders c !! p) → is_Some (heap c !! p)) ∧
  (heap c ≠ ∅ → authed c = true).

#[export] Instance chan_frame : FrameInv chan_inv.
Proof. constructor; intros; assumption. Qed.

Lemma lookupChannel_Some id c p ch :
  lookupChannel id c = Some (p, ch) ↔ channels c !! id = Some p ∧ heap c !! p = Some ch.
Proof.
  unfold lookupChannel. destruct (channels c !! id) as [q|] eqn:E1; simpl; [|naive_solver].
  destruct (heap c !! q) as [ch'|] eqn:E2; simpl; naive_solver.
Qed.

(** The invariant reads five fields only. *)
Lemma chan_fields c c' :
  heap c' = heap c → channels c' = channels c → maxChannels c' = maxChannels c →
  forwarders c' = forwarders c → authed c' = authed c → chan_inv c → chan_inv c'.
Proof. unfold chan_inv. by intros -> -> -> -> ->. Qed.

(** Updating a live cell in place, keeping its identity. *)
Lemma table_wf_alter hp chs p f :
  (∀ ch, hp !! p = Some ch → Channel.closed ch = false →
     Channel.localID (f ch) = Channel.localID ch ∧ Channel.closed (f ch) = false) →
  table_wf hp chs → table_wf (alter f p hp) chs.
Proof.
  intros Hf Ht id q Hq. destruct (Ht id q Hq) as (ch & Hch & Hid & Hcl).
  destruct (decide (p = q)) as [<-|Hne].
  - exists (f ch). rewrite lookup_alter_eq, Hch.
    destruct (Hf ch Hch Hcl) as [? ?]. split_and!; [done|congruence|done].
  - exists ch. by rewrite lookup_alter_ne.
Qed.

Lemma cells_alter (hp : gmap nat sshChannel) p f :
  (∀ ch, hp !! p = Some ch → cell_wf ch → cell_wf (f ch)) →
  (∀ q ch, hp !! q = Some ch → cell_wf ch) →
  ∀ q ch, alter f p hp !! q = Some ch → cell_wf ch.
Proof.
  intros Hf Hw q ch. rewrite lookup_alter. case_decide as Hpq; [|apply Hw].
  subst. destruct (hp !! q) as [ch0|] eqn:E0; [|done].
  simpl. intros [= <-]. eauto.
Qed.

Lemma alter_ne_empty {A} (hp : gmap nat A) p f : alter f p hp ≠ ∅ → hp ≠ ∅.
Proof. intros Hne ->. apply Hne. apply alter_empty. Qed.

(** The state updates of the channel handlers, one lemma each. *)

Lemma chan_alter f p c :
  (∀ ch, heap c !! p = Some ch → cell_wf ch → cell_wf (f ch)) →
  (∀ ch, Channel.localID (f ch) = Channel.localID ch) →
  (∀ ch, Channel.closed (f ch) = Channel.closed ch) →
  chan_inv c → chan_inv (set_heap (alter f p (heap c)) c).
Proof.
  intros Hf Hid Hcl (Hw & Ht & Hq & Hm & Hfw & Ha).
  unfold chan_inv. cbn. split_and!; try done.
  - by apply cells_alter.
  - apply table_wf_alter; [|done]. intros ch _ ?. by rewrite Hid, Hcl.
  - intros q Hq'. rewrite lookup_alter_is_Some. auto.
  - intros Hne. apply Ha. by eapply alter_ne_empty.
Qed.

Lemma chan_close_with f id p ch c :
  (∀ ch, heap c !! p = Some ch → cell_wf ch → cell_wf (f ch)) →
  lookupChannel id c = Some (p, ch) → chan_inv c →
  chan_inv (set_channels (delete id (channels c)) (set_heap (alter f p (heap c)) c)).
Proof.
  intros Hf Hl (Hw & Ht & Hq & Hm & Hfw & Ha). apply lookupChannel_Some in Hl as [Hid Hp].
  unfold chan_inv. cbn. split_and!; try done.
  - by apply cells_alter.
  - intros id' q Hd. apply lookup_delete_Some in Hd as [Hne Hq'].
    destruct (Ht id' q Hq') as (ch' & Hch' & Hid' & Hcl').
    exists ch'. rewrite lookup_alter_ne; [done|]. intros <-.
    destruct (Ht id p Hid) as (? & ? & ? & _). congruence.
  - rewrite map_size_delete_Some by eauto. lia.
  - intros q Hq'. rewrite lookup_alter_is_Some. auto.
  - intros Hne. apply Ha. by eapply alter_ne_empty.
Qed.

(** What a cell keeps when it is closed, whatever was in flight. *)
Lemma cell_wf_closed ch f :
  cell_wf ch →
  Channel.window (f ch) = Channel.window ch → Channel.maxPkt (f ch) = Channel.maxPkt ch →
  Channel.maxRecv (f ch) = Channel.maxRecv ch → Channel.consumed (f ch) = Channel.consumed ch →
  0 ≤ Channel.recvWindow (f ch) ≤ Channel.recvWindow ch →
  Channel.closed (f ch) = true → Channel.backend (f ch) = Channel.backend ch →
  cell_wf (f ch).
Proof.
  unfold cell_wf. intros Hw -> -> -> -> ? -> ->. destruct_and!. split_and!; try done; lia.
Qed.

Lemma chan_close id p ch c :
  lookupChannel id c = Some (p, ch) → chan_inv c →
  chan_inv (set_channels (delete id (channels c))
              (set_heap (alter (Channel.set_closed true) p (heap c)) c)).
Proof.
  intros Hl Hc. eapply chan_close_with; [|done..].
  intros ch' _ Hwf. apply (cell_wf_closed ch' (Channel.set_closed true)); try done.
  cbn. unfold cell_wf in Hwf. lia.
Qed.

Lemma chan_forwarders p st c :
  is_Some (heap c !! p) → chan_inv c → chan_inv (set_forwarders (<[p := st]> (forwarders c)) c).
Proof.
  intros Hp (Hw & Ht & Hq & Hm & Hfw & Ha). unfold chan_inv. cbn. split_and!; try done.
  intros q Hq'. destruct (decide (p = q)) as [<-|]; [done|].
  rewrite lookup_insert_ne in Hq' by done. auto.
Qed.

Lemma chan_unforward p c : chan_inv c → chan_inv (set_forwarders (delete p (forwarders c)) c).
Proof.
  intros (Hw & Ht & Hq & Hm & Hfw & Ha). unfold chan_inv. cbn. split_and!; try done.
  intros q Hq'. apply Hfw. destruct Hq' as [x Hx]. apply lookup_delete_Some in Hx as [_ Hx]. eauto.
Qed.

Lemma chan_open id p ch n c :
  heap c !! p = None → cell_wf ch → Channel.localID ch = id → Channel.closed ch = false →
  authed c = true → quotaExceeded c = false → chan_inv c →
  chan_inv (set_channels (<[id := p]> (channels c))
              (set_heap (<[p := ch]> (heap c)) (set_nextLocal n c))).
Proof.
  intros Hp Hwf Hid Hcl Hau Hquota (Hw & Ht & Hq & Hm & Hfw & Ha).
  unfold quotaExceeded in Hquota. zbool.
  unfold chan_inv. cbn. split_and!; try done.
  - intros q ch'. rewrite lookup_insert. case_decide; [by intros [= <-]|apply Hw].
  - intros id' q Hq'. rewrite lookup_insert in Hq'. case_decide as Hd.
    + simplify_eq. exists ch. by rewrite lookup_insert_eq.
    + destruct (Ht id' q Hq') as (ch' & Hch' & ? & ?).
      exists ch'. rewrite lookup_insert_ne; [done|congruence].
  - rewrite map_size_insert. case_match; simpl; lia.
  - intros q Hq'. rewrite lookup_insert_is_Some. destruct (decide (p = q)); auto.
Qed.

(** ** The handlers keep the channel invariant *)

(** The invariant with an authenticated client. *)
Definition chan_authed (c : connection) : Prop := chan_inv c ∧ authed c = true.

#[export] Instance chan_authed_frame : FrameInv chan_authed.
Proof. constructor; intros; assumption. Qed.

(** The invariant with an authenticated client and an allocated cell. *)
Definition chan_cell (p : nat) (c : connection) : Prop :=
  chan_authed c ∧ is_Some (heap c !! p).

#[export] Instance chan_cell_frame p : FrameInv (chan_cell p).
Proof. constructor; intros; assumption. Qed.

Section handlers.
Context `{Crypto} (E : Env) `{!EnvLaws E}.

(** [closeChannel] of a live channel: the state after its critical section
    decides, for an invariant the later events and writes do not break. *)
Lemma closeChannel_state (I : connection → Prop) `{!WriteInv E I} id s p ch :
  (∀ b c, I c → I (set_trace (trace c ++ [EvBackendClose b]) c)) →
  lookupChannel id s = Some (p, ch) →
  I (set_channels (delete id (channels s))
       (set_heap (alter (Channel.set_closed true) p (heap s)) s)) →
  I (closeChannel E id s).2.
Proof.
  intros Hemit Hl HI. unfold closeChannel. unfold mbind at 1. unfold M_bind, get at 1.
  rewrite Hl. unfold mbind, M_bind, updateChannel, modify.
  destruct (Channel.backend ch).
  - unfold emit, modify. apply (pres_ignore I); [apply pres_write; apply _|].
    by apply Hemit.
  - apply (pres_ignore I); [apply pres_write; apply _|]. done.
Qed.

Lemma closeChannel_absent id s : lookupChannel id s = None → (closeChannel E id s).2 = s.
Proof. intros Hl. unfold closeChannel, mbind, M_bind, get. by rewrite Hl. Qed.

Lemma chan_closeChannel id : pres chan_inv (closeChannel E id).
Proof.
  intros s Hs. destruct (lookupChannel id s) as [[p ch]|] eqn:Hl.
  - eapply closeChannel_state; [apply _|by intros|done|]. by eapply chan_close.
  - by rewrite closeChannel_absent.
Qed.

Lemma authed_closeChannel id : pres chan_authed (closeChannel E id).
Proof.
  intros s [Hs Ha]. destruct (lookupChannel id s) as [[p ch]|] eqn:Hl.
  - eapply closeChannel_state; [apply _|by intros|done|].
    split; [by eapply chan_close|done].
  - by rewrite closeChannel_absent.
Qed.
#[local] Hint Resolve chan_closeChannel authed_closeChannel : pres.

Lemma freshCell_None c : heap c !! freshCell c = None.
Proof. apply not_elem_of_dom. unfold freshCell. apply is_fresh. Qed.

Lemma new_cell_wf sender id window maxPkt backend :
  0 ≤ window < 2 ^ 32 → 0 < maxPkt < 2 ^ 32 →
  cell_wf {| Channel.localID := id; Channel.remoteID := sender;
             Channel.window := window; Channel.maxPkt := maxPkt;
             Channel.recvWindow := initialRecvWindow;
             Channel.maxRecv := initialMaxRecv; Channel.consumed := 0;
             Channel.closed := false; Channel.backend := Some backend |}.
Proof. intros Hw Hm. unfold cell_wf. cbn. split_and!; try done; lia. Qed.

Lemma cell_closeChannel q id : pres (chan_cell q) (closeChannel E id).
Proof.
  intros s [[Hs Ha] Hq]. destruct (lookupChannel id s) as [[p ch]|] eqn:Hl.
  - eapply closeChannel_state; [apply _|by intros|done|].
    split; [split; [by eapply chan_close|done]|]. cbn. by rewrite lookup_alter_is_Some.
  - by rewrite closeChannel_absent.
Qed.

Lemma cell_addChannel sender window maxPkt backend :
  0 ≤ window < 2 ^ 32 → 0 < maxPkt < 2 ^ 32 →
  triple (λ s, chan_authed s ∧ quotaExceeded s = false)
    (addChannel sender window maxPkt backend)
    (λ r s, match r with Ok (p, _) => chan_cell p s | Err _ => chan_authed s end).
Proof.
  intros Hwin Hmax s [[Hs Ha] Hq]. unfold addChannel. mrun. split; [split; [|done]|].
  - apply (chan_open _ _ _ (wrap32 (nextLocal s + 1)) s);
      [apply freshCell_None|by apply new_cell_wf|done..].
  - cbn. by rewrite lookup_insert_eq.
Qed.

Lemma chan_openBackend sender window maxPkt dest :
  0 ≤ window < 2 ^ 32 → 0 < maxPkt < 2 ^ 32 →
  pres chan_authed (openBackend E sender window maxPkt dest).
Proof.
  intros Hwin Hmax. unfold openBackend, channelOpenFailure.
  pres_step. case_match; [pres_auto|].
  pres_step; [pres_auto|]. pres_step; [pres_frame|].
  case_match; [|pres_auto].
  apply pres_get. intros s Hs.
  destruct (quotaExceeded s) eqn:Hq; [by apply pres_state; [pres_auto|]|].
  refine (triple_bind (λ s, chan_authed s ∧ quotaExceeded s = false) _
    (λ pl, chan_cell pl.1) _ (λ _, chan_authed) _ _ s (conj Hs Hq)).
  { eapply triple_weaken; [by apply cell_addChannel|by intros|]. by intros [[]|]. }
  intros [p id]. cbv zeta. cbn [fst].
  eapply (triple_bind _ _ (λ _, chan_cell p)).
  { eapply triple_weaken; [apply (pres_attempt (chan_cell p)), pres_write; apply _|done|].
    intros [] s' Hs'; [done|apply Hs']. }
  intros [u|e].
  - intros s' [[? ?] ?]. split; [by apply chan_forwarders|done].
  - apply (triple_weaken _ chan_authed _ _ (λ _, chan_authed)); [|by intros s' [? _]|done].
    change (pres chan_authed (closeChannel E id;; fail e : M ())). pres_auto.
Qed.

Lemma consumeUint32_bind {A} (I : connection → Prop) b (f : Z * bytes → M A) :
  (∀ z r, 0 ≤ z < 2 ^ 32 → pres I (f (z, r))) → pres I (lift (consumeUint32 b) ≫= f).
Proof.
  intros Hf s Hs. unfold mbind, M_bind, lift.
  destruct (consumeUint32 b) as [[z r]|e] eqn:Hc; [|done].
  apply Hf; [|done]. by eapply consumeUint32_Ok.
Qed.

Lemma chan_handleChannelOpen p : pres chan_inv (handleChannelOpen E p).
Proof.
  unfold handleChannelOpen. apply pres_get. intros s Hs.
  destruct (authed s) eqn:Ha; cbn [negb]; [|by apply (pres_disconnect E chan_inv)].
  enough (∀ m : M (), pres chan_authed m → chan_inv (m s).2) as Hm.
  2:{ intros m Hm. by apply (Hm s (conj Hs Ha)). }
  apply Hm. clear Hm. unfold channelOpenFailure.
  apply pres_bind; [apply pres_lift|intros [name rest]].
  apply consumeUint32_bind. intros sender rest1 _.
  apply consumeUint32_bind. intros window rest2 Hwin.
  apply consumeUint32_bind. intros maxPkt rest3 Hmax.
  case_match eqn:Hz; [pres_auto|]. zbool.
  assert (∀ d, pres chan_authed (openBackend E sender window maxPkt d))
    by (intros; apply chan_openBackend; lia).
  pres_auto.
Qed.

(** Taking [size] bytes of data from the client. *)
Definition take_recv (size : Z) (ch : sshChannel) : sshChannel :=
  Channel.set_recvWindow (wrap32 (Channel.recvWindow ch - size)) ch.
(** Having delivered [n] of them. *)
Definition add_consumed (n : Z) (ch : sshChannel) : sshChannel :=
  Channel.set_consumed (wrap32 (Channel.consumed ch + n)) ch.
(** Crediting [adjust] bytes back to the client. *)
Definition credit (adjust : Z) (ch : sshChannel) : sshChannel :=
  Channel.set_recvWindow (wrap32 (Channel.recvWindow ch + adjust)) (Channel.set_consumed 0 ch).

Lemma constants :
  initialRecvWindow = 2097152 ∧ windowAdjustThreshold = 1048576 ∧ initialMaxRecv = 32768.
Proof. done. Qed.

Lemma take_recv_val size ch :
  cell_wf ch → 0 ≤ size ≤ Channel.recvWindow ch →
  Channel.recvWindow (take_recv size ch) = Channel.recvWindow ch - size.
Proof.
  destruct constants as (? & ? & ?). unfold cell_wf. intros. cbn. unfold wrap32.
  apply Z.mod_small. lia.
Qed.

(** Delivered data below the threshold keeps the cell well formed. *)
Lemma cell_wf_data size ch :
  cell_wf ch → 0 ≤ size ≤ Channel.recvWindow ch →
  Channel.consumed ch + size < windowAdjustThreshold →
  cell_wf (add_consumed size (take_recv size ch)).
Proof.
  destruct constants as (? & ? & ?). intros Hw Hs Ht.
  pose proof (take_recv_val size ch Hw Hs) as Hr. unfold cell_wf in *. destruct_and!.
  cbn in *. rewrite Hr. unfold wrap32. rewrite (Z.mod_small (_ + size)) by lia.
  split_and!; try done; lia.
Qed.

(** Data past the threshold is credited back in full. *)
Lemma cell_wf_credit size ch :
  cell_wf ch → 0 ≤ size ≤ Channel.recvWindow ch →
  cell_wf (credit (Channel.consumed ch + size) (add_consumed size (take_recv size ch))).
Proof.
  destruct constants as (? & ? & ?). intros Hw Hs.
  pose proof (take_recv_val size ch Hw Hs) as Hr. unfold cell_wf in *. destruct_and!.
  cbn in *. rewrite Hr. unfold wrap32. rewrite Z.mod_small by lia.
  split_and!; try done; lia.
Qed.

Lemma chan_handleChannelData p : pres chan_inv (handleChannelData E p).
Proof.
  unfold handleChannelData. apply pres_bind; [apply pres_lift|intros [localID rest]].
  apply pres_bind; [apply pres_lift|intros [data tail]].
  apply pres_get. intros s Hs.
  destruct (lookupChannel localID s) as [[q ch]|] eqn:Hl; [|done].
  destruct (Channel.backend ch) as [b|] eqn:Hb; [|done]. cbv zeta.
  destruct (_ || _) eqn:Hsz; [by apply (pres_disconnect E chan_inv)|]. zbool.
  pose proof Hl as [Hid Hq]%lookupChannel_Some.
  assert (cell_wf ch) as Hwf by (by eapply Hs).
  assert (Channel.closed ch = false) as Hcl
    by (destruct (proj1 (proj2 Hs) _ _ Hid) as (? & ? & _ & ?); congruence).
  destruct constants as (Hc1 & Hc2 & Hc3).
  set (size := wrap32 (blen data)) in *.
  assert (0 ≤ size) as Hpos by (apply Z.mod_pos_bound; lia).
  unfold updateChannel, tick, emit, mbind, M_bind, modify, get, mret, M_ret.
  change (λ ch0 : sshChannel, Channel.set_recvWindow
            (wrap32 (Channel.recvWindow ch0 - size)) ch0) with (take_recv size).
  destruct (e_backendWrite E _ b data) as [n [e|]] eqn:Hw.
  - match goal with |- chan_inv (_ ?s0).2 => set (s1 := s0) end.
    assert (heap s1 = alter (take_recv size) q (heap s)) as Hh by done.
    rewrite Hh, lookup_alter_eq, Hq. cbn [fmap option_fmap option_map default].
    change (Channel.closed (take_recv size ch)) with (Channel.closed ch). rewrite Hcl.
    apply (closeChannel_state chan_inv localID s1 q (take_recv size ch)); [by intros|..].
    { apply lookupChannel_Some. split; [done|]. by rewrite Hh, lookup_alter_eq, Hq. }
    apply (chan_fields (set_channels (delete localID (channels s))
      (set_heap (alter (Channel.set_closed true ∘ take_recv size) q (heap s)) s)));
      [cbn; apply alter_alter_eq|done..|].
    eapply chan_close_with; [|done..]. intros ch' Hch' Hwf'. simplify_eq.
    apply (cell_wf_closed ch (Channel.set_closed true ∘ take_recv size)); try done.
    unfold compose. cbn -[take_recv]. rewrite take_recv_val by (done || lia). lia.
  - apply backendWrite_all in Hw as ->. fold size.
    change (λ ch0 : sshChannel, Channel.set_consumed
              (wrap32 (Channel.consumed ch0 + size)) ch0) with (add_consumed size).
    match goal with |- context [heap ?s0 !! q] => set (s2 := s0) end.
    assert (heap s2 = alter (add_consumed size) q (alter (take_recv size) q (heap s))) as Hh by done.
    rewrite Hh, !lookup_alter_eq, Hq. cbn [fmap option_fmap option_map default].
    assert (Channel.consumed (add_consumed size (take_recv size ch)) = Channel.consumed ch + size)
      as Hadj.
    { cbn. unfold wrap32. apply Z.mod_small. unfold cell_wf in Hwf. lia. }
    unfold id. rewrite Hadj. case_match eqn:Hthr; zbool.
    + apply (chan_fields (set_heap (alter (add_consumed size ∘ take_recv size) q (heap s)) s));
        [cbn; apply alter_alter_eq|done..|].
      apply chan_alter; [|done..]. intros ch' Hch' _. simplify_eq.
      apply cell_wf_data; [done|lia..].
    + apply (pres_write E chan_inv).
      apply (chan_fields (set_heap (alter (credit (Channel.consumed ch + size) ∘
                add_consumed size ∘ take_recv size) q (heap s)) s)); [|done..|].
      { cbn. by rewrite !alter_alter_eq. }
      apply chan_alter; [|done..]. intros ch' Hch' _. simplify_eq.
      apply cell_wf_credit; [done|lia].
Qed.

Lemma cell_wf_window ch w : cell_wf ch → 0 ≤ w < 2 ^ 32 → cell_wf (Channel.set_window w ch).
Proof. unfold cell_wf. cbn. intros. destruct_and!. by split_and!. Qed.

Lemma chan_handleWindowAdjust p : pres chan_inv (handleWindowAdjust E p).
Proof.
  unfold handleWindowAdjust. apply pres_bind; [apply pres_lift|intros [localID rest]].
  apply consumeUint32_bind. intros add tail Hadd. apply pres_get. intros s Hs.
  destruct (lookupChannel localID s) as [[q ch]|] eqn:Hl; [|done].
  case_match eqn:Hov; [by apply (pres_disconnect E chan_inv)|]. zbool.
  apply lookupChannel_Some in Hl as [_ Hq]. unfold updateChannel, modify. cbn [snd].
  apply (chan_alter (λ ch, Channel.set_window (wrap32 (Channel.window ch + add)) ch));
    [|done..].
  intros ch' Hch' Hwf. apply cell_wf_window; [done|]. apply Z.mod_pos_bound. lia.
Qed.

Lemma chan_userauthAccept k : pres chan_inv (userauthAccept E k).
Proof.
  unfold userauthAccept, newConnectionID. apply pres_bind.
  - apply pres_modify. intros s (? & ? & ? & ? & ? & ?). unfold chan_inv. by split_and!.
  - intros _. pres_auto.
Qed.

#[local] Hint Resolve chan_handleChannelOpen chan_handleChannelData chan_handleWindowAdjust
  chan_userauthAccept : pres.

Lemma chan_dispatchSecure p : pres chan_inv (dispatchSecure E p).
Proof.
  unfold dispatchSecure, handleService, handleUserauth, knownClient, handleGlobal,
    handleChannelEOF, handleChannelClose, handleChannelRequest, unexpected.
  pres_auto.
Qed.

Lemma chan_serveOne : pres chan_inv (serveOne E).
Proof.
  unfold serveOne. apply pres_bind; [by apply pres_read|intros p].
  pose proof chan_dispatchSecure.
  unfold handlePayload, handleKexInit, handleKEX, handleNewKeys, installKeys, unexpected.
  pres_auto.
Qed.

(** The chunk a forwarder takes never exceeds the client's window, its packet
    limit or the data at hand, and is positive when the window is open. *)
Lemma chunkSize_bounds data ch :
  cell_wf ch → blen data < 2 ^ 32 →
  chunkSize data ch ≤ Channel.window ch ∧ chunkSize data ch ≤ Channel.maxPkt ch ∧
  chunkSize data ch ≤ blen data ∧
  (1 ≤ blen data → Channel.window ch ≠ 0 → 1 ≤ chunkSize data ch) ∧
  (1 ≤ blen data → 0 ≤ chunkSize data ch).
Proof.
  intros Hwf Hd. unfold cell_wf in Hwf. unfold chunkSize, wrap32.
  pose proof (blen_nonneg data). rewrite Z.mod_small by lia.
  repeat case_match; zbool; lia.
Qed.

Lemma chan_fwdStep p fb c c' : fwdStep E p fb c = Some c' → chan_inv c → chan_inv c'.
Proof.
  unfold fwdStep. intros Hf Hc.
  destruct (forwarders c !! p) as [f|] eqn:Hfp; [|done].
  destruct (heap c !! p) as [ch|] eqn:Hp; [|destruct f; done].
  assert (chan_authed c) as Hca.
  { split; [done|]. destruct Hc as (_ & _ & _ & _ & _ & Ha). apply Ha. intros Hh.
    by rewrite Hh in Hp. }
  assert (chan_cell p c) as Hcell by (split; [done|by rewrite Hp]).
  destruct f as [|data err|pkt rest err|].
  - destruct fb as [data err]. simplify_eq. apply chan_forwarders; [by rewrite Hp|done].
  - destruct (Channel.closed ch) eqn:Hcl; simplify_eq.
    { apply chan_unforward. by apply (chan_closeChannel _ c). }
    case_match; [done|]. cbv zeta in Hf. simplify_eq.
    apply (chan_forwarders p _ (set_heap _ c)).
    + cbn. rewrite lookup_alter_is_Some. by rewrite Hp.
    + apply (chan_alter (λ ch0, Channel.set_window
               (wrap32 (Channel.window ch0 - chunkSize data ch)) ch0)); [|done..].
      intros ch' Hch' Hwf. apply cell_wf_window; [done|]. apply Z.mod_pos_bound. lia.
  - pose proof (pres_write E (chan_cell p) pkt c Hcell) as Hw.
    destruct (write E pkt c) as [[u|e] c1]; simplify_eq; destruct Hw as [[? ?] ?].
    + by apply chan_forwarders.
    + apply chan_unforward. by apply (chan_closeChannel _ c1).
  - simplify_eq. apply chan_unforward. apply (chan_closeChannel _ _).
    by apply (pres_write E chan_inv).
Qed.

End handlers.
