(* ===== verification/Auth.v ===== *)
(** * Authentication

    A connection is authenticated only by a signature, over its own session
    identifier, that a key of the authorized_keys file verifies; the session
    identifier never changes once keys are in force. *)

From S2P Require Import Prelude GoStd SshWire Crypto Packet Kex Conn Forward Serve Hoare ConnInv.
Import BigEndian Wire Netip Packet Policy Kex.

Section auth.
Context `{Crypto} `{!CryptoLaws} (E : Env).

(** A key of the authorized_keys file at some reading of it. *)
Definition authorized (rawPub : bytes) : Prop :=
  ∃ t file clients, e_authorizedKeys E t = Ok file ∧ authorizedRawKeys file = Ok clients ∧
    rawPub ∈ clients.

(** An authorized key verified a signature over session [sid], and [digest] is
    the digest of that key. *)
Definition client_verified (sid : bytes) (digest : string) : Prop :=
  ∃ rawPub rawSig, authorized rawPub ∧
    Composite.Verify rawPub
      (userauthSigned sid (to_bytes DefaultDedicatedUser) (to_bytes "ssh-connection")
         (hostKeyBlob rawPub)) rawSig = Ok () ∧
    digest = Hex.encode (sha256 (hostKeyBlob rawPub)).

Definition auth_inv (c : connection) : Prop :=
  kex_inv c ∧ (clearOut c = false → 0 < blen (sessionID c)) ∧
  (authed c = true → client_verified (sessionID c) (keyDigest c)).

#[export] Instance auth_frame : FrameInv auth_inv.
Proof. unfold auth_inv. solve_frame. Qed.

Lemma auth_emit ev : pres auth_inv (emit ev).
Proof. apply pres_emit. intros s Hs. exact Hs. Qed.

(** ** The session identifier *)

(** In [handleKEX], before the identifier is set: it is still the one read. *)
Definition auth_at (sid : bytes) (c : connection) : Prop := auth_inv c ∧ sessionID c = sid.
Definition auth_set (c : connection) : Prop := auth_inv c ∧ 0 < blen (sessionID c).

#[export] Instance auth_at_frame sid : FrameInv (auth_at sid).
Proof. unfold auth_at. solve_frame. Qed.
#[export] Instance auth_set_frame : FrameInv auth_set.
Proof. unfold auth_set. solve_frame. Qed.

Lemma auth_set_sessionID s hash :
  0 < blen hash → auth_inv s → auth_set ((when (blen (sessionID s) =? 0) (modify (set_sessionID hash)) s).2).
Proof.
  intros Hh (Hk & Hc & Ha). destruct (blen (sessionID s) =? 0) eqn:Hz; zbool.
  - assert (clearOut s = true) as Hco by (destruct (clearOut s); [done|specialize (Hc eq_refl); lia]).
    assert (authed s = false) as Hau.
    { destruct (authed s) eqn:?; [|done]. unfold kex_inv in Hk. destruct_and!.
      use_implications. congruence. }
    cbn. split; [|exact Hh]. split_and!; [exact Hk|done|]. cbn. by rewrite Hau.
  - cbn. pose proof (blen_nonneg (sessionID s)). split; [by split_and!|lia].
Qed.

Lemma auth_installKeys o i : pres auth_set (installKeys o i).
Proof.
  intros s [(Hk & Hc & Ha) Hl]. pose proof (kex_installKeys o i s Hk) as Hk'. revert Hk'.
  unfold installKeys. mrun; intros Hk'; (split; [|exact Hl]); (split; [exact Hk'|split; [intros _; exact Hl|exact Ha]]).
Qed.

Lemma auth_handleKEX p : pres auth_inv (handleKEX E p).
Proof.
  unfold handleKEX. apply pres_get. intros s Hs.
  destruct (phase s) eqn:Hp; try done. destruct (clientKex s) as [k|]; [|done]. cbv zeta.
  enough (∀ m : M (), triple (auth_at (sessionID s)) m (λ _, auth_inv) → auth_inv (m s).2) as Hm.
  2:{ intros m Hm. apply (Hm s). by split. }
  apply Hm. clear Hm.
  assert (∀ A (m : M A), pres (auth_at (sessionID s)) m →
    triple (auth_at (sessionID s)) m (λ r s', match r with Ok _ => auth_at (sessionID s) s'
                                           | Err _ => auth_inv s' end)) as Hstep.
  { intros A m Hm s' Hs'. specialize (Hm s' Hs'). destruct (m s').1; [done|apply Hm]. }
  assert (∀ (m : M ()), pres (auth_at (sessionID s)) m →
    triple (auth_at (sessionID s)) m (λ _, auth_inv)) as Hlast.
  { intros m Hm s' Hs'. apply (Hm s' Hs'). }
  eapply triple_bind; [apply Hstep; pres_auto|intros [clientPub rest]].
  case_match; [apply Hlast; pres_auto|].
  eapply triple_bind; [apply Hstep; pres_auto|intros t].
  eapply triple_bind; [apply Hstep; pres_auto|intros rndX].
  eapply triple_bind; [apply Hstep; pres_auto|intros [serverPub shared]].
  case_match; [|apply Hlast; pres_auto].
  eapply triple_bind; [apply Hstep; pres_auto|intros t2].
  eapply triple_bind; [apply Hstep; pres_auto|intros hostPub].
  eapply (triple_bind _ _ (λ _, auth_set)).
  - intros s' [Hs' <-]. 
    match goal with |- context [set_sessionID ?h] =>
      pose proof (auth_set_sessionID s' h) as Hset end.
    unfold when in *. case_match; apply Hset; try done; unfold exchangeHash; by rewrite blen_sha256.
  - intros _. apply (triple_weaken _ auth_set _ _ (λ _, auth_set)); [|done|by intros ? ? [? _]].
    match goal with |- triple auth_set ?m _ => change (pres auth_set m) end.
    pose proof auth_installKeys. pres_auto.
Qed.

(** ** User authentication *)

Lemma pres_lift_bind {A B} (I : connection → Prop) (r : result A) (f : A → M B) :
  (∀ a, r = Ok a → pres I (f a)) → pres I (lift r ≫= f).
Proof.
  intros Hf s Hs. unfold mbind, M_bind, lift. destruct r as [a|e]; [by apply Hf|done].
Qed.

Lemma knownClient_bind {B} (I : connection → Prop) `{!WriteInv E I} rawPub (f : bool → M B) :
  (∀ known, (known = true → authorized rawPub) → pres I (f known)) →
  pres I (knownClient E rawPub ≫= f).
Proof.
  intros Hf s Hs. unfold knownClient, tick, mbind, M_bind.
  pose proof (wi_ticks (E := E) (S (ticks s)) s Hs) as Hs'.
  destruct (e_authorizedKeys E (ticks s)) as [file|] eqn:Hfile; [|by apply Hf].
  destruct (authorizedRawKeys file) as [clients|] eqn:Hcl; [|by apply Hf].
  apply Hf; [|exact Hs']. intros (k & Hin & ->%bool_decide_eq_true)%existsb_exists.
  exists (ticks s), file, clients. split_and!; [done..|]. by apply list_elem_of_In.
Qed.

(** What the public-key blob of a request must be for its key to be parsed out
    of it with nothing left over. *)
Lemma keyBlob_parse pubBlob alg2 restBlob rawPub tail :
  consumeSSHString pubBlob = Ok (alg2, restBlob) → to_string alg2 = Algorithm →
  consumeSSHString restBlob = Ok (rawPub, tail) → blen tail = 0 → pubBlob = hostKeyBlob rawPub.
Proof.
  intros [-> _]%consumeSSHString_Ok Ha [-> _]%consumeSSHString_Ok Ht.
  destruct tail; [|rewrite blen_cons in Ht; pose proof (blen_nonneg tail); lia].
  unfold hostKeyBlob. rewrite app_nil_r. do 2 f_equal.
  by rewrite <- (to_bytes_string alg2), Ha.
Qed.

(** The invariant once the client's NEWKEYS has been taken. *)
Definition auth_secured (c : connection) : Prop := auth_inv c ∧ clearIn c = false.

#[export] Instance auth_secured_frame : FrameInv auth_secured.
Proof. unfold auth_secured. solve_frame. Qed.

Lemma auth_userauthAccept rawPub rawSig s :
  authorized rawPub →
  Composite.Verify rawPub
    (userauthSigned (sessionID s) (to_bytes DefaultDedicatedUser) (to_bytes "ssh-connection")
       (hostKeyBlob rawPub)) rawSig = Ok () →
  auth_secured s → auth_secured (userauthAccept E rawPub s).2.
Proof.
  intros Hk Hv [(Hkex & Hc & Ha) Hin]. unfold userauthAccept.
  unfold mbind at 1 2 3. unfold M_bind at 1 2 3, modify at 1 2 3.
  apply (pres_state auth_secured).
  - unfold newConnectionID. pres_auto.
  - split; [|done]. split_and!; [solve_kex..|done|].
    intros _. exists rawPub, rawSig. split_and!; [done|exact Hv|done].
Qed.

Ltac string_eq :=
  match goal with Hx : bool_decide (to_string ?b = _) = true |- _ =>
    apply bool_decide_eq_true in Hx; apply (f_equal to_bytes) in Hx; rewrite to_bytes_string in Hx
  end.

Lemma auth_handleUserauth p : pres auth_secured (handleUserauth E p).
Proof.
  unfold handleUserauth.
  apply pres_bind; [apply pres_lift|intros [user r1]].
  apply pres_bind; [apply pres_lift|intros [service r2]].
  apply pres_bind; [apply pres_lift|intros [method r3]].
  destruct (_ || _) eqn:Hor; [pres_auto|]. zbool. repeat string_eq. subst user service method.
  apply pres_bind; [apply pres_lift|intros [hasSig r4]].
  apply pres_bind; [apply pres_lift|intros [alg r5]].
  apply pres_bind; [apply pres_lift|intros [pubBlob r6]].
  case_match; [pres_auto|].
  destruct (consumeSSHString pubBlob) as [[alg2 restBlob]|] eqn:Hb1; [|pres_auto].
  case_match eqn:Halg; [pres_auto|].
  destruct (consumeSSHString restBlob) as [[rawPub tail]|] eqn:Hb2; [|pres_auto].
  case_match eqn:Htail; [pres_auto|]. zbool. apply bool_decide_eq_true in Halg.
  pose proof (keyBlob_parse _ _ _ _ _ Hb1 Halg Hb2 Htail) as ->.
  apply knownClient_bind; [apply _|]. intros [] Hknown; cbn [negb]; [|pres_auto].
  specialize (Hknown eq_refl).
  destruct hasSig; cbn [negb]; [|pres_auto].
  destruct (consumeSSHString r6) as [[sigWire r7]|]; [|pres_auto].
  case_match; [pres_auto|].
  destruct (consumeSSHString sigWire) as [[alg3 sigRest]|]; [|pres_auto].
  case_match; [pres_auto|].
  destruct (consumeSSHString sigRest) as [[rawSig sigTail]|]; [|pres_auto].
  case_match; [pres_auto|].
  apply pres_get. intros s Hs. cbv zeta.
  match goal with |- context [match ?v with _ => _ end] => destruct v as [[]|] eqn:Hv end.
  - by eapply auth_userauthAccept.
  - by apply (pres_write E auth_secured).
Qed.

(** ** The other handlers *)

Lemma auth_frame_handler {A} (m : M A) :
  pres kex_inv m →
  (∀ s, clearOut (m s).2 = clearOut s) → (∀ s, sessionID (m s).2 = sessionID s) →
  (∀ s, authed (m s).2 = authed s) → (∀ s, keyDigest (m s).2 = keyDigest s) →
  pres auth_inv m.
Proof.
  intros Hk Hc Hs Ha Hd s (H1 & H2 & H3).
  unfold auth_inv. rewrite Hc, Hs, Ha, Hd. split; [by apply Hk|done].
Qed.

Lemma auth_handleNewKeys : pres auth_inv handleNewKeys.
Proof.
  apply auth_frame_handler; [apply kex_handleNewKeys|..];
    intros s; unfold handleNewKeys, mbind, M_bind, get, modify, when, mret, M_ret, fail;
    destruct (phase s); try done; destruct (pendingIn s); try done; by destruct (strictKEX s).
Qed.

Lemma auth_closeChannel id : pres auth_inv (closeChannel E id).
Proof. unfold closeChannel. pres_auto. Qed.
#[local] Hint Resolve auth_closeChannel auth_emit auth_handleNewKeys auth_handleKEX : pres.

Lemma auth_handleKexInit p : pres auth_inv (handleKexInit E p).
Proof.
  unfold handleKexInit. pres_step. destruct (phase c) eqn:Hp; try (apply pres_disconnect; apply _).
  - intros s (Hk & Hs). mrun; (split; [solve_kex|exact Hs]).
  - apply pres_bind; [apply pres_marshalServerKex; apply _|intros k].
    intros s (Hk & Hs). mrun. apply (pres_write E auth_inv). split; [solve_kex|exact Hs].
Qed.
#[local] Hint Resolve auth_handleKexInit : pres.

Lemma auth_dispatchSecure p : pres auth_inv (dispatchSecure E p).
Proof.
  unfold dispatchSecure. apply pres_get. intros s Hs. cbv zeta.
  destruct (clearIn s) eqn:Hc; [by apply (pres_disconnect E auth_inv)|].
  case_match; [by apply (pres_disconnect E auth_inv)|].
  case_match. { apply pres_state; [|done]. unfold handleService. pres_auto. }
  case_match. { apply (auth_handleUserauth p s). by split. }
  apply pres_state; [|done].
  unfold handleGlobal, handleChannelOpen, openBackend, channelOpenFailure, handleChannelData,
    handleWindowAdjust, handleChannelEOF, handleChannelClose, handleChannelRequest, unexpected.
  pres_auto.
Qed.
#[local] Hint Resolve auth_dispatchSecure : pres.

Lemma auth_serveOne : pres auth_inv (serveOne E).
Proof.
  unfold serveOne, handlePayload, unexpected.
  apply pres_bind; [apply pres_read; intros; assumption|intros p]. pres_auto.
Qed.

Lemma auth_fwdStep p fb c c' : fwdStep E p fb c = Some c' → auth_inv c → auth_inv c'.
Proof. apply pres_fwdStep; [apply _|apply auth_closeChannel|auto..]. Qed.

End auth.
