(* ===== verification/Nonce.v ===== *)
(** * Nonces

    chacha20-poly1305 takes the packet sequence number as its nonce, so no
    number may be used twice under one key.  A key epoch ends with the NEWKEYS
    packet; within an epoch every sealed packet uses the same codec and a
    larger sequence number than all before it. *)

From S2P Require Import Prelude GoStd SshWire Crypto Packet Kex Conn Forward Serve Hoare ConnInv ChanInv.
Import BigEndian Wire Netip Packet Policy Kex.

(** The codec and number of every packet sealed in the epoch still open at
    the end of a trace. *)
Definition epoch_step (acc : list (chachaDirection * Z)) (ev : event) : list (chachaDirection * Z) :=
  match ev with
  | EvPacket payload sealedBy _ =>
      if byte0 payload =? sshMsgNewKeys then []
      else match sealedBy with Some x => acc ++ [x] | None => acc end
  | _ => acc
  end.
Definition open_epoch (tr : list event) : list (chachaDirection * Z) := foldl epoch_step [] tr.

(** Each sealed packet comes after smaller numbers of the same codec. *)
Definition nonces_increase (tr : list event) : Prop :=
  ∀ before payload d n frame after,
    tr = before ++ EvPacket payload (Some (d, n)) frame :: after →
    Forall (λ x, x.1 = d ∧ x.2 < n) (open_epoch before).

Definition nonce_inv (c : connection) : Prop :=
  nonces_increase (trace c) ∧ 0 ≤ outSeq c ∧
  Forall (λ x, clearOut c = false ∧ out_ c = Some x.1 ∧ x.2 < outSeq c) (open_epoch (trace c)).

Lemma open_epoch_snoc tr ev : open_epoch (tr ++ [ev]) = epoch_step (open_epoch tr) ev.
Proof. unfold open_epoch. by rewrite foldl_app. Qed.

Lemma snoc_split {A} (l before after : list A) (x y : A) :
  l ++ [x] = before ++ y :: after →
  (after = [] ∧ x = y ∧ l = before) ∨ ∃ after', after = after' ++ [x] ∧ l = before ++ y :: after'.
Proof.
  intros Heq. induction after as [|z after _] using rev_ind.
  - apply app_inj_tail in Heq as [-> ->]. auto.
  - right. exists after.
    rewrite app_comm_cons, app_assoc in Heq. by apply app_inj_tail in Heq as [-> ->].
Qed.

Lemma nonces_snoc tr ev :
  nonces_increase tr →
  (∀ payload d n frame, ev = EvPacket payload (Some (d, n)) frame →
     Forall (λ x, x.1 = d ∧ x.2 < n) (open_epoch tr)) →
  nonces_increase (tr ++ [ev]).
Proof.
  intros Htr Hev before payload d n frame after Heq.
  apply snoc_split in Heq as [(-> & -> & <-)|(after' & -> & ->)]; [by eapply Hev|].
  by eapply Htr.
Qed.

Definition notPacket (ev : event) : bool := match ev with EvPacket _ _ _ => false | _ => true end.

Lemma nonce_snoc ev c :
  notPacket ev = true → nonce_inv c → nonce_inv (set_trace (trace c ++ [ev]) c).
Proof.
  intros Hev (Hn & H0 & Ho). unfold nonce_inv. cbn. rewrite open_epoch_snoc.
  split_and!; [|done|by destruct ev].
  apply nonces_snoc; [done|]. by intros ? ? ? ? ->.
Qed.

(** Writing one packet under the lock: the packet is sealed with the next
    number of the current codec. *)
Lemma nonce_packet payload sealedBy frame c :
  nonce_inv c → outSeq c ≤ maxSSHSeq →
  (clearOut c = true ∧ sealedBy = None ∨
   ∃ d, clearOut c = false ∧ out_ c = Some d ∧ sealedBy = Some (d, outSeq c)) →
  nonce_inv (set_outSeq (wrap64 (outSeq c + 1))
               (set_trace (trace c ++ [EvPacket payload sealedBy frame]) c)).
Proof.
  intros (Hn & H0 & Ho) Hmax Hs. unfold nonce_inv. cbn -[epoch_step open_epoch].
  assert (wrap64 (outSeq c + 1) = outSeq c + 1) as ->.
  { apply Z.mod_small. unfold maxSSHSeq, max_u32 in Hmax. lia. }
  rewrite open_epoch_snoc. split_and!; [|lia|].
  - apply nonces_snoc; [done|]. intros ? d n ? [= -> -> ->].
    destruct Hs as [[_ ?]|(d' & _ & Hd & [= -> ->])]; [done|].
    eapply Forall_impl; [|exact Ho]. cbn. intros x (_ & Hx & Hlt). split; [congruence|done].
  - unfold epoch_step. case_match; [constructor|].
    assert (Forall (λ x, clearOut c = false ∧ out_ c = Some x.1 ∧ x.2 < outSeq c + 1)
      (open_epoch (trace c))) as Ho'.
    { eapply Forall_impl; [|exact Ho]. cbn. intros x (? & ? & ?). split_and!; try done; lia. }
    destruct Hs as [[_ ->]|(d' & Hc & Hd & ->)]; [done|].
    apply Forall_app. split; [done|]. constructor; [|constructor]. cbn. split_and!; try done; lia.
Qed.

Lemma nonce_fields c c' :
  trace c' = trace c → outSeq c' = outSeq c → clearOut c' = clearOut c → out_ c' = out_ c →
  nonce_inv c → nonce_inv c'.
Proof. unfold nonce_inv. by intros -> -> -> ->. Qed.

Section nonce.
Context `{Crypto} (E : Env).

(** The trace once the write deadline has been set. *)
Definition deadlined (s : connection) : list event :=
  if authed s then trace s ++ [EvDeadline] else trace s.

(** [writeLocked] either leaves the sequence number alone and seals nothing,
    or seals one packet with it. *)
Lemma writeLocked_effect p s r s' :
  writeLocked E p s = (r, s') →
  (∃ e, r = Err e ∧ trace s' = deadlined s ∧
     outSeq s' = outSeq s ∧ clearOut s' = clearOut s ∧ out_ s' = out_ s ∧ phase s' = phase s) ∨
  (∃ b sealedBy frame, r = Ok b ∧ outSeq s ≤ maxSSHSeq ∧
     (clearOut s = true ∧ sealedBy = None ∨
      ∃ d, clearOut s = false ∧ out_ s = Some d ∧ sealedBy = Some (d, outSeq s)) ∧
     trace s' = deadlined s ++ [EvPacket p sealedBy frame] ∧
     outSeq s' = wrap64 (outSeq s + 1) ∧ clearOut s' = clearOut s ∧ out_ s' = out_ s ∧
     phase s' = phase s ∧ (b = true → phase s = kexReady)).
Proof.
  unfold writeLocked, checkSSHSeq, connWrite, randSource_, when, emit, tick, mbind, M_bind, get,
    modify, lift, mret, M_ret, fail, deadlined.
  intros Hw.
  assert (∀ (c : connection) (b1 b2 b3 b4 : bool),
        b1 && bool_decide (phase c = kexReady) && b2 && b3 && b4 = true →
        phase c = kexReady) as Hready.
  { intros c b1 b2 b3 b4 Hb. zbool. by match goal with Hd : bool_decide _ = true |- _ =>
      apply bool_decide_eq_true in Hd end. }
  repeat (case_match; simplify_eq; cbn in *); zbool;
    first [ left; eexists; split_and!; [reflexivity|done..]; fail
          | right; eexists _, _, _; split_and!;
            [reflexivity | done | by eauto 6 | reflexivity | done.. | apply Hready] ].
Qed.

#[export] Instance nonce_write : WriteInv E nonce_inv.
Proof.
  constructor.
  - intros n s Hs. exact Hs.
  - intros p s Hs. destruct (writeLocked E p s) as [r s'] eqn:Hw. cbn [snd fst].
    assert (nonce_inv (set_trace (deadlined s) s)) as Hs1
      by (unfold deadlined; case_match; [by apply nonce_snoc|exact Hs]).
    apply writeLocked_effect in Hw as [(e & -> & Htr & Hq & Hc & Ho & _)|
      (b & sb & fr & -> & Hmax & Hs0 & Ht & Hq & Hc & Ho & _)].
    + by apply (nonce_fields (set_trace (deadlined s) s)).
    + apply (nonce_fields (set_outSeq (wrap64 (outSeq s + 1))
        (set_trace (deadlined s ++ [EvPacket p sb fr]) (set_trace (deadlined s) s)))); try done.
      by apply (nonce_packet p sb fr (set_trace (deadlined s) s)).
  - intros s k Hs _. exact Hs.
Qed.

(** During a key exchange no packet starts another. *)
Definition nonce_kex (c : connection) : Prop := nonce_inv c ∧ phase c ≠ kexReady.

#[export] Instance nonce_kex_write : WriteInv E nonce_kex.
Proof.
  constructor.
  - intros n s Hs. exact Hs.
  - intros p s [Hs Hp]. split; [by apply (wi_locked (E := E) (I := nonce_inv))|].
    destruct (writeLocked E p s) as [r s'] eqn:Hw. apply writeLocked_effect in Hw.
    cbn. naive_solver congruence.
  - by intros s k [_ Hp] Hr.
Qed.

(** The NEWKEYS packet closes the epoch, so a new codec may be installed and
    the numbers may start again. *)
Lemma nonce_newkeys o i : pres nonce_kex (write E [bz sshMsgNewKeys];; installKeys o i).
Proof.
  eapply (triple_bind _ _ (λ _ s, nonce_kex s ∧ open_epoch (trace s) = [])).
  - intros s Hs. pose proof (pres_write E nonce_kex [bz sshMsgNewKeys] s Hs) as Hi.
    revert Hi. unfold write. rewrite writeDepth_S. unfold mbind, M_bind.
    destruct (writeLocked E [bz sshMsgNewKeys] s) as [r s'] eqn:Hw.
    apply writeLocked_effect in Hw as [(e & -> & _)|
      (b & sb & fr & -> & _ & _ & Ht & _ & _ & _ & _ & Hb)]; [done|].
    destruct b; [by destruct Hs as [_ []]; apply Hb|].
    cbn [fst snd mret M_ret]. intros Hi. split; [exact Hi|]. rewrite Ht. by rewrite open_epoch_snoc.
  - intros _ s [[(Hn & H0 & Ho) Hp] He]. unfold installKeys. mrun;
      (split; [|done]); unfold nonce_inv; cbn -[open_epoch]; rewrite He; split_and!; try done; constructor.
Qed.

Lemma nonce_handleKEX p : pres nonce_inv (handleKEX E p).
Proof.
  unfold handleKEX. apply pres_get. intros s Hs.
  destruct (phase s) eqn:Hp; try done. destruct (clientKex s) as [k|]; [|done].
  enough (∀ m : M (), pres nonce_kex m → nonce_inv (m s).2) as Hm.
  2:{ intros m Hm. apply (Hm s). split; [done|]. by rewrite Hp. }
  apply Hm. clear Hm Hp Hs. pose proof nonce_newkeys. pres_auto.
Qed.

Lemma nonce_handleNewKeys : pres nonce_inv handleNewKeys.
Proof. unfold handleNewKeys. pres_auto. Qed.

Lemma nonce_emit ev : notPacket ev = true → pres nonce_inv (emit ev).
Proof. intros Hev. apply pres_emit. intros s. by apply nonce_snoc. Qed.
#[local] Hint Resolve nonce_emit nonce_handleKEX nonce_handleNewKeys : pres.
#[local] Hint Extern 1 (notPacket _ = true) => reflexivity : pres.

Lemma nonce_closeChannel id : pres nonce_inv (closeChannel E id).
Proof. unfold closeChannel. pres_auto. Qed.
#[local] Hint Resolve nonce_closeChannel : pres.

Lemma nonce_dispatchSecure p : pres nonce_inv (dispatchSecure E p).
Proof.
  unfold dispatchSecure, handleService, handleUserauth, knownClient, userauthAccept,
    newConnectionID, handleGlobal, handleChannelOpen, openBackend, channelOpenFailure,
    addChannel, handleChannelData, handleWindowAdjust, handleChannelEOF, handleChannelClose,
    handleChannelRequest, unexpected.
  pres_auto.
Qed.

Lemma nonce_serveOne : pres nonce_inv (serveOne E).
Proof.
  pose proof nonce_dispatchSecure.
  unfold serveOne, read, handlePayload, handleKexInit, unexpected.
  repeat first [solve [auto 3 with pres typeclass_instances] | pres_frame | pres_step
    | intros s Hs; case_match; exact Hs].
Qed.

Lemma nonce_fwdStep p fb c c' : fwdStep E p fb c = Some c' → nonce_inv c → nonce_inv c'.
Proof. apply pres_fwdStep; [apply _|apply nonce_closeChannel|auto..]. Qed.

End nonce.
