(* ===== verification/Loop.v ===== *)
(** * The serve loop terminates

    Every turn of the loop reads at least one packet header from the input, so
    on a finite input the loop returns: [serveLoop] with the fuel [serve]
    gives it computes the run of the loop. *)

From S2P Require Import Prelude GoStd SshWire Crypto Packet Kex Conn Forward Serve Hoare.
Import BigEndian Wire Netip Packet Policy Kex.

(** The loop of [serve] as the code runs it, without fuel. *)
Inductive loop_runs `{Crypto} (E : Env) : connection → result () → connection → Prop :=
| loop_error s e s' : serveOne E s = (Err e, s') → loop_runs E s (Err e) s'
| loop_return s s' : serveOne E s = (Ok false, s') → loop_runs E s (Ok ()) s'
| loop_turn s s1 r s' : serveOne E s = (Ok true, s1) → loop_runs E s1 r s' → loop_runs E s r s'.

Section loop.
Context `{Crypto} (E : Env).

(** Only [read] takes from the input. *)
Definition input_is (i : bytes) (c : connection) : Prop := input c = i.

#[export] Instance input_frame i : FrameInv (input_is i).
Proof. constructor; intros; assumption. Qed.

Lemma input_closeChannel i id : pres (input_is i) (closeChannel E id).
Proof. unfold closeChannel. pres_auto. Qed.
#[local] Hint Resolve input_closeChannel : pres.

Lemma input_dispatchSecure i p : pres (input_is i) (dispatchSecure E p).
Proof.
  unfold dispatchSecure, handleService, handleUserauth, knownClient, userauthAccept,
    newConnectionID, handleGlobal, handleChannelOpen, openBackend, channelOpenFailure,
    addChannel, handleChannelData, handleWindowAdjust, handleChannelEOF, handleChannelClose,
    handleChannelRequest, unexpected.
  pres_auto.
Qed.

Lemma input_handlePayload i p : pres (input_is i) (handlePayload E p).
Proof.
  pose proof input_dispatchSecure.
  unfold handlePayload, handleKexInit, handleKEX, handleNewKeys, installKeys, unexpected.
  pres_auto.
Qed.

Lemma readFull_consumes n b r rest :
  readFull n b = (r, rest) → (length rest ≤ length b)%nat ∧ (is_ok r = true → length b = n + length rest)%nat.
Proof.
  unfold readFull. case_match eqn:Hl; intros [= <- <-]; cbn; [split; [lia|done]|].
  apply Nat.ltb_ge in Hl. rewrite length_drop. split; [|intros _]; lia.
Qed.

Lemma readClearPacket_consumes b p rest :
  readClearPacket b = (Ok p, rest) → (length rest < length b)%nat.
Proof.
  unfold readClearPacket. destruct (readFull 5 b) as [[h|] b1] eqn:H1; [|done].
  apply readFull_consumes in H1 as [_ H1]. specialize (H1 eq_refl). cbv zeta.
  case_match; [done|]. destruct (readFull _ b1) as [[r|] b2] eqn:H2; [|done].
  apply readFull_consumes in H2 as [H2 _]. case_match; intros [= _ <-]; lia.
Qed.

Lemma open_consumes d q b p rest : open d q b = (Ok p, rest) → (length rest < length b)%nat.
Proof.
  unfold open. destruct (readFull 4 b) as [[h|] b1] eqn:H1; [|done].
  apply readFull_consumes in H1 as [_ H1]. specialize (H1 eq_refl). cbv zeta.
  case_match; [done|]. destruct (readFull _ b1) as [[r|] b2] eqn:H2; [|done].
  apply readFull_consumes in H2 as [H2 _]. case_match; intros [= _ <-]; lia.
Qed.

Lemma read_consumes s p s' : read s = (Ok p, s') → (length (input s') < length (input s))%nat.
Proof.
  unfold read, checkSSHSeq, mbind, M_bind, get, when, emit, modify, lift, fail, mret, M_ret.
  intros Hr.
  repeat (case_match; simplify_eq; cbn in *; try done);
    first [by eapply readClearPacket_consumes|by eapply open_consumes].
Qed.

Lemma serveOne_consumes s b s' :
  serveOne E s = (Ok b, s') → (length (input s') < length (input s))%nat.
Proof.
  unfold serveOne, mbind, M_bind. destruct (read s) as [[p|e] s1] eqn:Hr; [|done].
  apply read_consumes in Hr. case_match; [by intros [= <- <-]|].
  intros Hh. pose proof (input_handlePayload (input s1) p s1 eq_refl) as Hi.
  rewrite Hh in Hi. unfold input_is in Hi. cbn in Hi. by rewrite Hi.
Qed.

Lemma serveLoop_runs n s :
  (length (input s) < n)%nat → loop_runs E s (serveLoop E n s).1 (serveLoop E n s).2.
Proof.
  revert s. induction n as [|n IH]; intros s Hn; [lia|]. cbn [serveLoop].
  unfold mbind, M_bind. destruct (serveOne E s) as [[[]|e] s1] eqn:Hone.
  - eapply loop_turn; [done|]. apply IH. apply serveOne_consumes in Hone. lia.
  - by apply loop_return.
  - by apply loop_error.
Qed.

Lemma loop_runs_det s r1 s1 r2 s2 :
  loop_runs E s r1 s1 → loop_runs E s r2 s2 → r1 = r2 ∧ s1 = s2.
Proof.
  intros H1. revert r2 s2.
  induction H1 as [s e s' Ho|s s' Ho|s s1' r s' Ho _ IH]; intros r2 s2 H2;
    destruct H2 as [? ? ? Ho2|? ? Ho2|? ? ? ? Ho2 Hrest]; rewrite Ho in Ho2; simplify_eq; auto.
Qed.

(** C8: the serve loop of a connection terminates on every finite input: the
    run of the loop exists, is unique, and is what [serveLoop] computes with
    one unit of fuel more than the input has bytes. *)
Theorem serve_loop_terminates s :
  ∃ r s', serveLoop E (S (length (input s))) s = (r, s') ∧ loop_runs E s r s' ∧
    ∀ r2 s2, loop_runs E s r2 s2 → r2 = r ∧ s2 = s'.
Proof.
  destruct (serveLoop E (S (length (input s))) s) as [r s'] eqn:Hl. exists r, s'.
  pose proof (serveLoop_runs (S (length (input s))) s (Nat.lt_succ_diag_r _)) as Hr.
  rewrite Hl in Hr. split_and!; [done..|]. intros r2 s2 H2.
  by apply (loop_runs_det s r2 s2 r s').
Qed.

End loop.
