(* ===== verification/Safety.v ===== *)
(** * Safety of a connection

    The destinations dialled, the use of nonces, the interleaved runs of the
    serve loop and the forwarders, and what holds in every reachable state. *)

From S2P Require Import Prelude GoStd SshWire Crypto Packet Kex Conn Forward Serve Hoare ConnInv ChanInv Auth.
From S2P Require Import Nonce Sample.
Import BigEndian Wire Netip Packet Policy Kex.

(** ** Destinations *)

Definition permitted (E : Env) (d : AddrPort) : Prop :=
  d = Target (policy E) ∨ d = Management (policy E).

(** Every destination dialled was permitted, and none was dialled before the
    client authenticated. *)
Definition dial_inv (E : Env) (c : connection) : Prop :=
  ∀ d, EvDial d ∈ trace c → permitted E d ∧ authed c = true.

Definition dial_authed (E : Env) (c : connection) : Prop := dial_inv E c ∧ authed c = true.

Definition isDial (ev : event) : bool := match ev with EvDial _ => true | _ => false end.

Lemma dial_snoc E ev c :
  isDial ev = false → dial_inv E c → dial_inv E (set_trace (trace c ++ [ev]) c).
Proof.
  intros Hev Hc d Hd. cbn in *. apply elem_of_app in Hd as [Hd|Hd]; [by apply Hc|].
  apply list_elem_of_singleton in Hd as <-. done.
Qed.

#[export] Instance dial_frame E : FrameInv (dial_inv E).
Proof. constructor; try (intros; assumption). intros [] s Hev; try done; by apply dial_snoc. Qed.
#[export] Instance dial_authed_frame E : FrameInv (dial_authed E).
Proof. unfold dial_authed. solve_frame. Qed.

Section dial.
Context `{Crypto} (E : Env).

Lemma dial_emit ev : isDial ev = false → pres (dial_inv E) (emit ev).
Proof. intros Hev. apply pres_emit. intros s. by apply dial_snoc. Qed.
Lemma dial_authed_emit ev : isDial ev = false → pres (dial_authed E) (emit ev).
Proof. intros Hev. apply pres_emit. intros s [? ?]. split; [by apply dial_snoc|done]. Qed.
#[local] Hint Resolve dial_emit dial_authed_emit : pres.
#[local] Hint Extern 1 (isDial _ = false) => reflexivity : pres.

Lemma dial_closeChannel id : pres (dial_inv E) (closeChannel E id).
Proof. unfold closeChannel. pres_auto. Qed.
Lemma dial_authed_closeChannel id : pres (dial_authed E) (closeChannel E id).
Proof. unfold closeChannel. pres_auto. Qed.
#[local] Hint Resolve dial_closeChannel dial_authed_closeChannel : pres.

(** The policy check of [handleChannelOpen] is on the very address dialled. *)
Lemma allowDirectTCPIP_Ok addr port :
  allowDirectTCPIP (policy E) (AddrPortFrom (Unmap addr) port) = Ok () →
  permitted E (AddrPortFrom (Unmap addr) port).
Proof.
  unfold allowDirectTCPIP, permitted. cbn [ap_addr ap_port]. rewrite Unmap_idemp.
  case_match eqn:Ho; [|done]. intros _. apply orb_true_iff in Ho as [Ho|Ho];
    apply bool_decide_eq_true in Ho; auto.
Qed.

Lemma dial_openBackend sender window maxPkt dest :
  permitted E dest → pres (dial_authed E) (openBackend E sender window maxPkt dest).
Proof.
  intros Hd. assert (pres (dial_authed E) (emit (EvDial dest))) as Hemit.
  { apply pres_emit. intros s [Hs Ha]. split; [|done]. intros d Hin. cbn in Hin.
    apply elem_of_app in Hin as [?|Hin]; [by apply Hs|].
    apply list_elem_of_singleton in Hin as [= ->]. done. }
  unfold openBackend, channelOpenFailure, addChannel. pres_auto.
Qed.

Lemma dial_handleChannelOpen p : pres (dial_inv E) (handleChannelOpen E p).
Proof.
  unfold handleChannelOpen. apply pres_get. intros s Hs.
  destruct (authed s) eqn:Ha; cbn [negb]; [|by apply (pres_disconnect E (dial_inv E))].
  enough (∀ m : M (), pres (dial_authed E) m → dial_inv E (m s).2) as Hm.
  2:{ intros m Hm. by apply (Hm s (conj Hs Ha)). }
  apply Hm. clear Hm. unfold channelOpenFailure.
  repeat first [solve [auto 3 with pres typeclass_instances] | pres_step].
  all: apply dial_openBackend.
  all: match goal with Ho : allowDirectTCPIP _ _ = Ok ?u |- _ => destruct u end.
  all: by apply allowDirectTCPIP_Ok.
Qed.

Lemma dial_userauthAccept k : pres (dial_inv E) (userauthAccept E k).
Proof.
  unfold userauthAccept, newConnectionID. apply pres_bind.
  - apply pres_modify. intros s Hs d Hd. cbn in *. split; [by apply Hs|done].
  - intros _. pres_auto.
Qed.

#[local] Hint Resolve dial_handleChannelOpen dial_userauthAccept : pres.

Lemma dial_dispatchSecure p : pres (dial_inv E) (dispatchSecure E p).
Proof.
  unfold dispatchSecure, handleService, handleUserauth, knownClient, handleGlobal,
    handleChannelData, handleWindowAdjust, handleChannelEOF, handleChannelClose,
    handleChannelRequest, unexpected.
  pres_auto.
Qed.

Lemma dial_serveOne : pres (dial_inv E) (serveOne E).
Proof.
  pose proof dial_dispatchSecure.
  unfold serveOne, read, handlePayload, handleKexInit, handleKEX, handleNewKeys, installKeys,
    unexpected.
  repeat first [solve [auto 3 with pres typeclass_instances] | pres_frame | pres_step
    | intros s Hs; case_match; exact Hs].
Qed.

Lemma dial_fwdStep p fb c c' : fwdStep E p fb c = Some c' → dial_inv E c → dial_inv E c'.
Proof. apply pres_fwdStep; [apply _|apply dial_closeChannel|auto..]. Qed.

End dial.

(** ** Runs of a connection *)

(** The size of the buffer [forwardBackend] reads into. *)
Definition forwardBuffer : Z := Z.shiftl 16 10.

(** A connection runs its serve loop until the loop returns; then the deferred
    calls run.  Forwarders step at any time, and so does the client, whose
    bytes arrive at the end of the input. *)
Inductive step `{Crypto} (E : Env) : bool * connection → bool * connection → Prop :=
| step_input live c b :
    step E (live, c) (live, set_input (input c ++ b) c)
| step_serve c r c' :
    serveOne E c = (r, c') →
    step E (true, c) (match r with Ok continue => continue | Err _ => false end, c')
| step_forward live c p data err c' :
    blen data ≤ forwardBuffer →
    fwdStep E p (data, err) c = Some c' →
    step E (live, c) (live, c')
| step_cleanup c :
    step E (false, c) (false, (cleanup E c).2).

Definition reachable `{Crypto} (E : Env) (x : bool * connection) : Prop :=
  ∃ raw r c, servePrologue E (newConnection E raw) = (r, c) ∧ rtc (step E) (is_ok r, c) x.

(** An invariant of every run. *)
Record RunInv `{Crypto} (E : Env) (I : connection → Prop) : Prop := {
  run_new raw : I (newConnection E raw);
  run_prologue : pres I (servePrologue E);
  run_input s b : I s → I (set_input b s);
  run_serve : pres I (serveOne E);
  run_forward p data err c c' :
    blen data ≤ forwardBuffer → fwdStep E p (data, err) c = Some c' → I c → I c';
  run_cleanup : pres I (cleanup E);
}.

Lemma reachable_inv `{Crypto} E I x : RunInv E I → reachable E x → I x.2.
Proof.
  intros [Hn Hp Hi Hs Hf Hc] (raw & r & c & Hpro & Hsteps).
  specialize (Hp _ (Hn raw)). rewrite Hpro in Hp. cbn in Hp.
  change c with (is_ok r, c).2 in Hp. revert Hp.
  induction Hsteps as [|x y z Hxy _ IH]; [done|]. intros Hx. apply IH. clear IH.
  destruct Hxy as [live c0 b|c0 r0 c0' Hone|live c0 p data err c0' Hbuf Hfw|c0]; cbn in *.
  - by apply Hi.
  - specialize (Hs _ Hx). by rewrite Hone in Hs.
  - by eapply Hf.
  - by apply Hc.
Qed.

Section runs.
Context `{Crypto} `{!CryptoLaws} (E : Env) `{!EnvLaws E}.

Ltac run_pres :=
  unfold servePrologue, connWrite, readIdentification, cleanup, teardownChannels, releaseGrant;
  pres_auto.

(** The deferred calls emit one close per live channel. *)
Lemma pres_closeAll (I : connection → Prop) (hp : gmap nat sshChannel) l :
  (∀ b, pres I (emit (EvBackendClose b))) →
  pres I (foldr (λ '(_, p) k, match hp !! p ≫= Channel.backend with
                             | Some b => emit (EvBackendClose b);; k
                             | None => k
                             end) (mret ()) (l : list (Z * nat))).
Proof.
  intros He. induction l as [|[id p] l IH]; cbn; [apply pres_ret|].
  case_match; [|done]. by apply pres_bind.
Qed.

(** An invariant that does not read the channels, and that no event but a
    packet, a dial or a registration can break, survives the deferred calls. *)
Lemma pres_cleanup (I : connection → Prop) :
  (∀ ev, notPacket ev = true → isDial ev = false → pres I (emit ev)) →
  (∀ s h, I s → I (set_heap h s)) → (∀ s h, I s → I (set_channels h s)) →
  pres I (cleanup E).
Proof.
  intros He Hh Hch. unfold cleanup, teardownChannels, releaseGrant.
  repeat first
    [ by apply He
    | apply pres_closeAll; intros; by apply He
    | pres_step
    | apply pres_modify; intros; by apply Hch
    | apply pres_modify ].
  intros s Hs. induction (map_to_list (channels c)) as [|[id p] l IH]; [done|]. cbn. by apply Hh.
Qed.

Lemma kex_run : RunInv E (auth_inv E).
Proof.
  constructor.
  - intros raw. split; [solve_kex|done].
  - pose proof (auth_emit E). run_pres.
  - intros s b Hs. exact Hs.
  - by apply auth_serveOne.
  - intros. by eapply auth_fwdStep.
  - apply pres_cleanup; intros; [apply auth_emit|assumption..].
Qed.

Lemma dial_run : RunInv E (dial_inv E).
Proof.
  pose proof (dial_emit E) as He. assert (isDial (EvLine identification) = false) by done.
  constructor.
  - intros raw d Hd. by apply elem_of_nil in Hd.
  - run_pres.
  - intros s b Hs. exact Hs.
  - apply dial_serveOne.
  - intros. by eapply dial_fwdStep.
  - apply pres_cleanup; intros; [by apply He|assumption..].
Qed.

Lemma nonce_run : RunInv E nonce_inv.
Proof.
  pose proof nonce_emit as He. assert (notPacket (EvLine identification) = true) by done.
  constructor.
  - intros raw. unfold nonce_inv. cbn. split_and!; [|lia|constructor].
    intros before payload d n frame after Heq. by destruct before.
  - run_pres.
  - intros s b Hs. exact Hs.
  - apply nonce_serveOne.
  - intros. by eapply nonce_fwdStep.
  - apply pres_cleanup; intros; [by apply He|assumption..].
Qed.

(** The channel invariant but for the table itself. *)
Definition cells_inv (c : connection) : Prop :=
  (∀ p ch, heap c !! p = Some ch → cell_wf ch) ∧ 1 ≤ maxChannels c ∧
  (∀ p, is_Some (forwarders c !! p) → is_Some (heap c !! p)) ∧ (heap c ≠ ∅ → authed c = true).

Lemma cells_chan c : chan_inv c → cells_inv c.
Proof. unfold chan_inv, cells_inv. naive_solver. Qed.

Lemma cells_close p c :
  cells_inv c → cells_inv (set_heap (alter (Channel.set_closed true) p (heap c)) c).
Proof.
  intros (Hw & Hm & Hf & Ha). unfold cells_inv. cbn. split_and!; [|done|..].
  - apply cells_alter; [|done]. intros ch _ Hwf.
    apply (cell_wf_closed ch (Channel.set_closed true)); try done. cbn. unfold cell_wf in Hwf. lia.
  - intros q Hq. rewrite lookup_alter_is_Some. auto.
  - intros Hne. apply Ha. by eapply alter_ne_empty.
Qed.

Lemma cells_empty c : cells_inv c → chan_inv (set_channels ∅ c).
Proof.
  intros (Hw & Hm & Hf & Ha). unfold chan_inv. cbn. split_and!; try done. rewrite map_size_empty. lia.
Qed.

Lemma chan_teardown : pres chan_inv teardownChannels.
Proof.
  unfold teardownChannels. apply pres_get. intros s Hs. cbv zeta.
  unfold mbind at 1 2. unfold M_bind at 1 2, modify at 1 2.
  apply (pres_closeAll chan_inv); [intros; pres_frame|]. apply cells_empty.
  apply cells_chan in Hs. induction (map_to_list (channels s)) as [|[id p] l IH]; [done|].
  cbn. by apply cells_close.
Qed.

Lemma chan_run : RunInv E chan_inv.
Proof.
  constructor.
  - intros raw. unfold chan_inv. cbn. rewrite map_size_empty.
    assert (1 ≤ (if MaxChannels (policy E) <=? 0 then defaultMaxChannels else MaxChannels (policy E)))
      by (unfold defaultMaxChannels; case_match; zbool; lia).
    split_and!; try done; try lia. all: by intros ? [].

  - run_pres.
  - intros s b Hs. exact Hs.
  - by apply chan_serveOne.
  - intros. by eapply chan_fwdStep.
  - unfold cleanup. pose proof chan_teardown. unfold releaseGrant. pres_auto.
Qed.

(** The channel quota is the policy's, the code's default when it has none. *)
Definition channelLimit : Z :=
  if MaxChannels (policy E) <=? 0 then defaultMaxChannels else MaxChannels (policy E).
Definition limit_inv (c : connection) : Prop := maxChannels c = channelLimit.

#[export] Instance limit_frame : FrameInv limit_inv.
Proof. constructor; intros; assumption. Qed.

Lemma limit_closeChannel id : pres limit_inv (closeChannel E id).
Proof. unfold closeChannel. pres_auto. Qed.

Lemma limit_serveOne : pres limit_inv (serveOne E).
Proof.
  pose proof limit_closeChannel.
  unfold serveOne, handlePayload, dispatchSecure, handleKexInit, handleKEX, handleNewKeys,
    installKeys, handleService, handleUserauth, knownClient, userauthAccept,
    newConnectionID, handleGlobal, handleChannelOpen, openBackend, channelOpenFailure,
    addChannel, handleChannelData, handleWindowAdjust, handleChannelEOF, handleChannelClose,
    handleChannelRequest, unexpected.
  apply pres_bind; [apply pres_read; intros; assumption|intros p]. pres_auto.
Qed.

Lemma limit_run : RunInv E limit_inv.
Proof.
  constructor; [done|run_pres|by intros|apply limit_serveOne| |apply pres_cleanup; intros; [pres_frame|assumption..]].
  intros p data err c c' _. apply pres_fwdStep; [apply _|apply limit_closeChannel|auto..].
Qed.

End runs.

(** ** What every run guarantees *)

(** The packet that ends an epoch. *)
Definition isNewKeys (ev : event) : bool :=
  match ev with EvPacket p _ _ => byte0 p =? sshMsgNewKeys | _ => false end.

(** What is in the open epoch stays there until a NEWKEYS packet. *)
Lemma open_epoch_mono x tr l :
  Forall (λ ev, isNewKeys ev = false) l → x ∈ open_epoch tr → x ∈ open_epoch (tr ++ l).
Proof.
  intros Hl. revert tr. induction Hl as [|ev l Hev _ IH]; intros tr Hx; [by rewrite app_nil_r|].
  rewrite cons_middle, app_assoc. apply IH. rewrite open_epoch_snoc.
  destruct ev; cbn in *; try done. rewrite Hev. case_match; [|done]. by apply elem_of_app; left.
Qed.

Section guarantees.
Context `{Crypto} `{!CryptoLaws} (E : Env) `{!EnvLaws E}.

Lemma reachable_kex x : reachable E x → kex_inv x.2.
Proof. intros Hr. apply (reachable_inv E (auth_inv E)) in Hr as [Hk _]; [done|by apply kex_run]. Qed.

(** C1: whatever the client sends and however the forwarders interleave, every
    backend connection the host opens goes to one of the two destinations of
    its policy, and only once the client is authenticated and both directions
    are encrypted. *)
Theorem dial_safety live c d :
  reachable E (live, c) → EvDial d ∈ trace c →
  (d = Target (policy E) ∨ d = Management (policy E)) ∧
  authed c = true ∧ clearIn c = false ∧ clearOut c = false.
Proof.
  intros Hr Hd. pose proof (reachable_kex _ Hr) as Hk.
  apply (reachable_inv E (dial_inv E)) in Hr; [|apply dial_run].
  destruct (Hr d Hd) as [Hp Ha]. cbn in *. unfold kex_inv in Hk. destruct_and!.
  use_implications. by split_and!.
Qed.

(** C2: an authenticated connection has verified a signature over its own
    session identifier, user "warptweet" and service "ssh-connection", under a
    key read from authorized_keys; the digest registered for it is that key's,
    and both directions are encrypted. *)
Theorem authentication_sound live c :
  reachable E (live, c) → authed c = true →
  (∃ rawPub rawSig, authorized E rawPub ∧
     Composite.Verify rawPub
       (userauthSigned (sessionID c) (to_bytes "warptweet") (to_bytes "ssh-connection")
          (hostKeyBlob rawPub)) rawSig = Ok () ∧
     keyDigest c = Hex.encode (sha256 (hostKeyBlob rawPub))) ∧
  clearIn c = false ∧ clearOut c = false.
Proof.
  intros Hr Ha. apply (reachable_inv E (auth_inv E)) in Hr as (Hk & _ & Hv); [|by apply kex_run].
  cbn in *. split; [by apply Hv|]. unfold kex_inv in Hk. destruct_and!. by use_implications.
Qed.


(** C5: a connection never holds more channels than its policy's quota (four
    when the policy sets none). *)
Theorem channel_quota live c :
  reachable E (live, c) →
  Z.of_nat (size (channels c)) ≤ channelLimit E.
Proof.
  intros Hr. pose proof (reachable_inv E (limit_inv E) _ (limit_run E) Hr) as Hl.
  apply (reachable_inv E chan_inv) in Hr as (_ & _ & Hq & _); [|by apply chan_run].
  unfold limit_inv in Hl. cbn in *. lia.
Qed.

(** C6: receive flow control.  For every open channel, what the client may
    still send plus what was delivered but not yet re-credited is exactly the
    initial two MiB; less than one MiB is uncredited, so the client always has
    more than one MiB of window. *)
Theorem receive_window live c id p :
  reachable E (live, c) → channels c !! id = Some p →
  ∃ ch, heap c !! p = Some ch ∧ Channel.localID ch = id ∧ Channel.closed ch = false ∧
    Channel.recvWindow ch + Channel.consumed ch = 2097152 ∧
    0 ≤ Channel.consumed ch < 1048576 ∧ 1048576 < Channel.recvWindow ch ≤ 2097152.
Proof.
  intros Hr Hid. apply (reachable_inv E chan_inv) in Hr as (Hw & Ht & _); [|by apply chan_run].
  destruct (Ht id p Hid) as (ch & Hp & Hi & Hc). exists ch. specialize (Hw p ch Hp).
  destruct constants as (H1 & H2 & _). unfold cell_wf in Hw. destruct_and!. use_implications.
  split_and!; try done; lia.
Qed.

(** C7: the key-exchange state machine.  A direction is encrypted only with a
    codec installed, the client's direction only after the host's; the state
    is ready only with both encrypted; while the client's NEWKEYS is awaited
    its codec is pending; and the initial exchange is over exactly when the
    client's direction is encrypted. *)
Theorem kex_state_machine live c :
  reachable E (live, c) →
  (clearOut c = false → is_Some (out_ c)) ∧
  (clearIn c = false → is_Some (in_ c) ∧ clearOut c = false) ∧
  (phase c = kexReady → clearIn c = false) ∧
  (phase c = kexAwaitNewKeys → is_Some (pendingIn c) ∧ clearOut c = false) ∧
  (phase c = kexAwaitECDH → is_Some (clientKex c)) ∧
  (initialKEX c = true ↔ clearIn c = true).
Proof.
  intros Hr. apply reachable_kex in Hr. unfold kex_inv in Hr. cbn in Hr. destruct_and!.
  split_and!; try done; by match goal with Hi : initialKEX c = _ |- _ => rewrite Hi end.
Qed.

End guarantees.

(** ** Witnesses: the sample session *)

Import Toy.

#[export] Instance sampleEnv_laws : EnvLaws sampleEnv.
Proof. constructor. by intros t b data n [= <-]. Qed.

Lemma run_reachable n c :
  reachable sampleEnv (true, c) →
  (∀ m, (m < n)%nat → (serveOne sampleEnv (run m c)).1 = Ok true) →
  reachable sampleEnv (true, run n c).
Proof.
  intros Hr Hn. induction n as [|n IH]; [done|]. specialize (Hn n (Nat.lt_succ_diag_r n)) as Hone.
  destruct IH as (raw & r & c0 & Hp & Hs); [intros m Hm; apply Hn; lia|].
  exists raw, r, c0. split; [done|]. eapply rtc_r; [exact Hs|].
  change (run (S n) c) with (serveOne sampleEnv (run n c)).2.
  pose proof (step_serve sampleEnv (run n c) _ _ (surjective_pairing _)) as Hstep.
  by rewrite Hone in Hstep.
Qed.

Ltac run_turns := intros m Hm; do 5 (destruct m as [|m]; [first [lia | vm_compute; reflexivity]|]); lia.

Lemma prologue_reachable `{Crypto} E raw :
  (servePrologue E (newConnection E raw)).1 = Ok () →
  reachable E (true, (servePrologue E (newConnection E raw)).2).
Proof.
  destruct (servePrologue E (newConnection E raw)) as [r c] eqn:Hp. cbn. intros ->.
  exists raw, (Ok ()), c. split; [exact Hp|apply rtc_refl].
Qed.

Lemma afterKex_reachable : reachable sampleEnv (true, afterKex).
Proof.
  apply run_reachable; [|run_turns].
  unfold started. apply prologue_reachable. vm_compute. reflexivity.
Qed.

Lemma authenticating_reachable : reachable sampleEnv (true, authenticating).
Proof.
  destruct afterKex_reachable as (raw & r & c0 & Hp & Hs).
  exists raw, r, c0. split; [done|]. eapply rtc_r; [exact Hs|].
  apply step_input.
Qed.

Lemma afterData_reachable : reachable sampleEnv (true, afterData).
Proof. apply run_reachable; [apply authenticating_reachable|run_turns]. Qed.

Lemma dial_safety_witness :
  EvDial (Target samplePolicy) ∈ trace afterData ∧
  (Target samplePolicy = Target (policy sampleEnv) ∨
   Target samplePolicy = Management (policy sampleEnv)) ∧
  authed afterData = true ∧ clearIn afterData = false ∧ clearOut afterData = false.
Proof.
  assert (EvDial (Target samplePolicy) ∈ trace afterData) as Hd.
  { apply list_elem_of_In. vm_compute. tauto. }
  split; [exact Hd|]. exact (dial_safety sampleEnv true afterData _ afterData_reachable Hd).
Defined.

Lemma authentication_sound_witness :
  authed afterData = true ∧
  ∃ rawPub rawSig, authorized sampleEnv rawPub ∧
    Composite.Verify rawPub
      (userauthSigned (sessionID afterData) (to_bytes "warptweet") (to_bytes "ssh-connection")
         (hostKeyBlob rawPub)) rawSig = Ok () ∧
    keyDigest afterData = Hex.encode (sha256 (hostKeyBlob rawPub)).
Proof.
  assert (authed afterData = true) as Ha by (vm_compute; reflexivity).
  split; [exact Ha|]. exact (proj1 (authentication_sound sampleEnv true afterData afterData_reachable Ha)).
Defined.


Lemma channel_quota_witness : Z.of_nat (size (channels afterData)) = 1 ∧ 1 ≤ channelLimit sampleEnv.
Proof.
  assert (Z.of_nat (size (channels afterData)) = 1) as Hs by (vm_compute; reflexivity).
  split; [exact Hs|]. rewrite <- Hs. exact (channel_quota sampleEnv true afterData afterData_reachable).
Defined.

Lemma receive_window_witness :
  ∃ ch, heap afterData !! 0%nat = Some ch ∧ Channel.localID ch = 0 ∧ Channel.closed ch = false ∧
    Channel.recvWindow ch + Channel.consumed ch = 2097152 ∧
    0 ≤ Channel.consumed ch < 1048576 ∧ 1048576 < Channel.recvWindow ch ≤ 2097152.
Proof.
  apply (receive_window sampleEnv true afterData 0 0 afterData_reachable). vm_compute. reflexivity.
Defined.

Lemma kex_state_machine_witness : phase afterData = kexReady ∧ clearIn afterData = false.
Proof.
  assert (phase afterData = kexReady) as Hp by (vm_compute; reflexivity). split; [exact Hp|].
  exact (proj1 (proj2 (proj2 (kex_state_machine sampleEnv true afterData afterData_reachable))) Hp).
Defined.
