(* ===== verification/Flow.v ===== *)
(** * Flow control and delivery

    What one message or one forwarder step does to a channel, on each branch:
    data from the client reaches the backend once and unchanged or closes the
    connection; data from the backend is cut into packets that respect the
    client's window and packet limit. *)

From S2P Require Import Prelude GoStd SshWire Crypto Packet Kex Conn Forward Serve Hoare ConnInv ChanInv Safety.
From S2P Require Import Sample.
Import BigEndian Wire Netip Packet Policy Kex.

(** A channel-data message with the given recipient and data. *)
Definition dataMessage (id : Z) (data tail : bytes) : bytes :=
  [bz sshMsgChannelData] ++ put32 id ++ sshString data ++ tail.

(** The trace grew by packet writes only. *)
Definition only_writes (before after : list event) : Prop :=
  ∃ evs, after = before ++ evs ∧ Forall writeEvent evs.

#[export] Instance only_writes_frame tr : FrameInv (λ c, only_writes tr (trace c)).
Proof.
  constructor; try (intros; assumption).
  intros ev s Hev (evs & Ht & Hw). exists (evs ++ [ev]). cbn. rewrite Ht, app_assoc.
  split; [done|]. apply Forall_app. by split; [|constructor].
Qed.

Lemma only_writes_refl tr : only_writes tr tr.
Proof. exists []. by rewrite app_nil_r. Qed.

Section flow.
Context `{Crypto} `{!CryptoLaws} (E : Env) `{!EnvLaws E}.

Lemma disconnect_writes reason s :
  only_writes (trace s) (trace (disconnect E reason s : result () * connection).2) ∧
  (disconnect E reason s : result () * connection).1 = Err (EMsg reason).
Proof.
  split; [|done].
  apply (pres_disconnect E (λ c, only_writes (trace s) (trace c)) reason s), only_writes_refl.
Qed.

Lemma drop1 (x : byte) (r : bytes) : drop 1 ([x] ++ r) = r.
Proof. done. Qed.

(** Data beyond what the client was allowed to send, a packet over 32 KiB
    or over the open window, closes the connection: nothing is written to the
    backend. *)
Theorem channel_data_overrun live c id data tail p ch :
  reachable E (live, c) → 0 ≤ id < 2 ^ 32 → blen data < 2 ^ 32 →
  lookupChannel id c = Some (p, ch) →
  32768 < blen data ∨ Channel.recvWindow ch < blen data →
  let out := handleChannelData E (dataMessage id data tail) c in
  out.1 = Err (EMsg "channel data exceeds window") ∧ only_writes (trace c) (trace out.2).
Proof.
  intros Hr Hid Hd Hl Hbig. apply (reachable_inv E chan_inv) in Hr as (Hw & _); [|by apply chan_run].
  pose proof Hl as [_ Hp]%lookupChannel_Some. specialize (Hw p ch Hp).
  destruct constants as (_ & _ & Hc). unfold cell_wf in Hw. destruct_and!.
  cbv zeta. unfold handleChannelData, dataMessage, mbind, M_bind, lift, get.
  rewrite drop1, consumeUint32_put32 by done. rewrite consumeSSHString_sshString by done.
  rewrite Hl. match goal with Hb : is_Some _ |- _ => destruct Hb as [b Hb]; rewrite Hb end.
  unfold wrap32. pose proof (blen_nonneg data). rewrite (Z.mod_small (blen data)) by lia.
  match goal with |- context [?x || ?y] => assert (x || y = true) as Hor end.
  { apply orb_true_iff. destruct Hbig; [left|right]; apply Z.ltb_lt; lia. }
  rewrite Hor. destruct (disconnect_writes "channel data exceeds window" c) as [? ?]. by split.
Qed.

(** Data within the window reaches the channel's backend once and
    unchanged; below the adjustment threshold nothing else happens but the
    accounting of the window. *)
Theorem channel_data_delivered live c id data tail p ch :
  reachable E (live, c) → 0 ≤ id < 2 ^ 32 →
  lookupChannel id c = Some (p, ch) →
  blen data ≤ 32768 → blen data ≤ Channel.recvWindow ch →
  Channel.consumed ch + blen data < 1048576 →
  (∀ b, (e_backendWrite E (ticks c) b data).2 = None) →
  ∃ b c', Channel.backend ch = Some b ∧
    handleChannelData E (dataMessage id data tail) c = (Ok (), c') ∧
    trace c' = trace c ++ [EvBackendWrite b data] ∧
    (∃ ch', lookupChannel id c' = Some (p, ch') ∧
       Channel.recvWindow ch' = Channel.recvWindow ch - blen data ∧
       Channel.consumed ch' = Channel.consumed ch + blen data).
Proof.
  intros Hr Hid Hl H1 H2 H3 Hbw.
  apply (reachable_inv E chan_inv) in Hr as (Hw & _); [|by apply chan_run].
  pose proof Hl as [Hid' Hp]%lookupChannel_Some. specialize (Hw p ch Hp). pose proof Hw as Hwf.
  destruct constants as (Hk1 & Hk2 & Hk3). unfold cell_wf in Hw. destruct_and!.
  assert (is_Some (Channel.backend ch)) as [b Hb] by done.
  pose proof (blen_nonneg data).
  assert (wrap32 (blen data) = blen data) as Hsz by (apply Z.mod_small; lia).
  exists b. eexists. split; [exact Hb|]. split.
  { unfold handleChannelData, dataMessage, mbind, M_bind, lift, get.
    rewrite drop1, consumeUint32_put32 by done. rewrite consumeSSHString_sshString by lia.
    rewrite Hl, Hb. cbv zeta. rewrite Hsz.
    rewrite (proj2 (Z.ltb_ge (Channel.maxRecv ch) _)), (proj2 (Z.ltb_ge (Channel.recvWindow ch) _)) by lia.
    cbn [orb]. unfold updateChannel, modify, tick, emit, modify.
    specialize (Hbw b). destruct (e_backendWrite E (ticks c) b data) as [n err] eqn:He.
    cbn in Hbw. subst err. pose proof (backendWrite_all _ _ _ _ He) as ->.
    cbn [ticks set_heap set_ticks set_trace]. rewrite He, Hsz. cbn [heap set_heap set_ticks set_trace].
    rewrite !lookup_alter_eq, Hp.
    cbn -[wrap32 windowAdjustThreshold].
    rewrite (proj2 (Z.ltb_lt _ _)); [reflexivity|]. unfold wrap32. rewrite Z.mod_small; lia. }
  split; [reflexivity|]. eexists. split.
  { apply lookupChannel_Some. cbn. split; [done|]. by rewrite !lookup_alter_eq, Hp. }
  cbn. unfold wrap32. split; rewrite Z.mod_small; lia.
Qed.

(** ** Data from the backend *)

(** What a forwarder holds fits the buffer it reads into, and it never sends
    an empty chunk. *)
Definition fwd_ok (f : fwdState) : Prop :=
  match f with
  | FwdSend data _ => 1 ≤ blen data ≤ forwardBuffer
  | FwdWrite _ rest _ => blen rest ≤ forwardBuffer
  | _ => True
  end.
Definition send_inv (c : connection) : Prop := ∀ p f, forwarders c !! p = Some f → fwd_ok f.

#[export] Instance send_frame : FrameInv send_inv.
Proof. constructor; intros; assumption. Qed.

Lemma send_insert p f c : fwd_ok f → send_inv c → send_inv (set_forwarders (<[p := f]> (forwarders c)) c).
Proof.
  intros Hf Hc q g. cbn. rewrite lookup_insert. case_decide; [by intros [= <-]|apply Hc].
Qed.
Lemma send_delete p c : send_inv c → send_inv (set_forwarders (delete p (forwarders c)) c).
Proof. intros Hc q g. cbn. intros [_ Hq]%lookup_delete_Some. by eapply Hc. Qed.

Lemma afterSend_ok rest err : blen rest ≤ forwardBuffer → fwd_ok (afterSend rest err).
Proof.
  destruct rest as [|x rest]; [by destruct err|]. cbn. rewrite blen_cons.
  pose proof (blen_nonneg rest). lia.
Qed.

Lemma send_closeChannel id : pres send_inv (closeChannel E id).
Proof. unfold closeChannel. pres_auto. Qed.

Lemma send_serveOne : pres send_inv (serveOne E).
Proof.
  pose proof send_closeChannel.
  assert (∀ p, pres send_inv (modify (λ s, set_forwarders (<[p := FwdRead]> (forwarders s)) s)))
    by (intros p; apply pres_modify; intros; by apply send_insert).
  unfold serveOne, handlePayload, dispatchSecure, handleKexInit, handleKEX, handleNewKeys,
    installKeys, handleService, handleUserauth, knownClient, userauthAccept,
    newConnectionID, handleGlobal, handleChannelOpen, openBackend, channelOpenFailure,
    addChannel, handleChannelData, handleWindowAdjust, handleChannelEOF, handleChannelClose,
    handleChannelRequest, unexpected.
  apply pres_bind; [apply pres_read; intros; assumption|intros p]. pres_auto.
Qed.

Lemma send_fwdStep p data err c c' :
  blen data ≤ forwardBuffer → fwdStep E p (data, err) c = Some c' → send_inv c → send_inv c'.
Proof.
  intros Hd Hf Hc. unfold fwdStep in Hf. destruct (forwarders c !! p) as [f|] eqn:Hfp; [|done].
  pose proof (Hc p f Hfp) as Hok.
  destruct f as [|d e|pkt rest e|]; destruct (heap c !! p) as [ch|]; try done.
  - simplify_eq. apply send_insert; [by apply afterSend_ok|done].
  - destruct (Channel.closed ch); [|case_match; [done|]]; simplify_eq.
    + apply send_delete. by apply (send_closeChannel _ c).
    + apply (send_insert p _ (set_heap _ c)); [|done]. cbn in *.
      unfold blen in *. rewrite length_drop. lia.
  - pose proof (pres_write E send_inv pkt c Hc) as Hw.
    destruct (write E pkt c) as [[u|e'] c1]; simplify_eq.
    + apply send_insert; [by apply afterSend_ok|done].
    + apply send_delete. by apply (send_closeChannel _ c1).
  - simplify_eq. apply send_delete. apply (send_closeChannel _ _). by apply (pres_write E send_inv).
Qed.

Lemma send_run : RunInv E send_inv.
Proof.
  constructor; [by intros raw p f| |by intros|apply send_serveOne|by intros; eapply send_fwdStep
    |apply pres_cleanup; intros; [pres_frame|assumption..]].
  unfold servePrologue, connWrite, readIdentification. pres_auto.
Qed.

(** Send flow control.  When a channel's window is open and no key
    exchange runs, its forwarder takes at least one byte of what it read, no
    more than the window or the client's packet limit, takes exactly that from
    the window, and keeps the rest, in order, for the next packet. *)
Theorem forward_chunk live c p data err ch fromBackend :
  reachable E (live, c) →
  forwarders c !! p = Some (FwdSend data err) → heap c !! p = Some ch →
  Channel.closed ch = false → Channel.window ch ≠ 0 → phase c = kexReady →
  ∃ n c', 1 ≤ n ≤ Channel.window ch ∧ n ≤ Channel.maxPkt ch ∧ n ≤ blen data ∧
    fwdStep E p fromBackend c = Some c' ∧
    forwarders c' !! p = Some (FwdWrite (dataPacket ch (take (Z.to_nat n) data))
                                        (drop (Z.to_nat n) data) err) ∧
    heap c' !! p = Some (Channel.set_window (Channel.window ch - n) ch) ∧
    trace c' = trace c.
Proof.
  intros Hr Hf Hp Hcl Hwin Hph.
  pose proof (reachable_inv E send_inv _ send_run Hr p _ Hf) as Hok. cbn in Hok.
  apply (reachable_inv E chan_inv) in Hr as (Hw & _); [|by apply chan_run].
  specialize (Hw p ch Hp). unfold forwardBuffer in Hok. change (Z.shiftl 16 10) with 16384 in Hok.
  destruct (chunkSize_bounds data ch Hw ltac:(lia)) as (H1 & H2 & H3 & H4 & _).
  specialize (H4 (proj1 Hok) Hwin). unfold cell_wf in Hw.
  exists (chunkSize data ch). eexists. do 3 (split; [lia|]). split_and!.
  - unfold fwdStep. rewrite Hf, Hp, Hcl, (proj2 (Z.eqb_neq _ _) Hwin).
    rewrite bool_decide_eq_true_2 by done. cbn [orb negb]. reflexivity.
  - cbn. by rewrite lookup_insert_eq.
  - cbn. rewrite lookup_alter_eq, Hp. cbn. do 2 f_equal. unfold wrap32. apply Z.mod_small. lia.
  - reflexivity.
Qed.

End flow.

(** ** Witnesses *)

Import Toy.

Lemma forwarding_reachable : reachable sampleEnv (true, forwarding).
Proof.
  destruct afterData_reachable as (raw & r & c0 & Hp & Hs).
  exists raw, r, c0. split; [done|]. eapply rtc_r; [exact Hs|].
  apply (step_forward sampleEnv true afterData 0 backendData None); [vm_compute; congruence|].
  unfold forwarding. destruct (fwdStep sampleEnv 0 (backendData, None) afterData) as [c'|] eqn:Hf; [done|].
  exfalso. revert Hf. vm_compute. congruence.
Qed.

Definition sampleCell : sshChannel := default (Channel.mkChannel 0 0 0 0 0 0 0 true None) (heap afterData !! 0%nat).

Lemma channel_data_overrun_witness :
  let out := handleChannelData sampleEnv (dataMessage 0 (replicate (Pos.to_nat 32769) (bz 1)) []) afterData in
  out.1 = Err (EMsg "channel data exceeds window") ∧ only_writes (trace afterData) (trace out.2).
Proof.
  apply (channel_data_overrun sampleEnv true afterData 0 _ [] 0 sampleCell afterData_reachable).
  - lia.
  - vm_compute. reflexivity.
  - vm_compute. reflexivity.
  - left. vm_compute. reflexivity.
Defined.

Lemma channel_data_delivered_witness :
  ∃ b c', Channel.backend sampleCell = Some b ∧
    handleChannelData sampleEnv (dataMessage 0 (to_bytes "world") []) afterData = (Ok (), c') ∧
    trace c' = trace afterData ++ [EvBackendWrite b (to_bytes "world")] ∧
    (∃ ch', lookupChannel 0 c' = Some (0%nat, ch') ∧
       Channel.recvWindow ch' = Channel.recvWindow sampleCell - blen (to_bytes "world") ∧
       Channel.consumed ch' = Channel.consumed sampleCell + blen (to_bytes "world")).
Proof.
  apply (channel_data_delivered sampleEnv true afterData 0 (to_bytes "world") [] 0 sampleCell
    afterData_reachable); [lia|vm_compute; reflexivity|vm_compute; congruence..|].
  intros b. reflexivity.
Defined.

Lemma forward_chunk_witness :
  ∃ n c', 1 ≤ n ≤ Channel.window sampleCell ∧ n ≤ Channel.maxPkt sampleCell ∧ n ≤ blen backendData ∧
    fwdStep sampleEnv 0 ([], None) forwarding = Some c' ∧
    forwarders c' !! 0%nat = Some (FwdWrite (dataPacket sampleCell (take (Z.to_nat n) backendData))
                                        (drop (Z.to_nat n) backendData) None) ∧
    heap c' !! 0%nat = Some (Channel.set_window (Channel.window sampleCell - n) sampleCell) ∧
    trace c' = trace forwarding.
Proof.
  apply (forward_chunk sampleEnv true forwarding 0 backendData None sampleCell ([], None)
    forwarding_reachable); vm_compute; congruence.
Defined.
