(* ===== verification/Listen.v ===== *)
(** * The listener

    [internal/dataplane/listen.go] and [session.go]: admission of connections
    (a quota per source address and 64 slots in all), the table of live
    authenticated sessions and the control request that drops a key's
    sessions. *)

From S2P Require Import Prelude GoStd Kex.
Import Netip Policy.

(** ** Admission *)

(** [sourceLimiter]: [n] is nil until the first connection is counted. *)
Record sourceLimiter := mkLimiter { n_ : option (gmap string Z); limit : Z }.

(** [s.n[source]]: a missing key reads as zero. *)
Definition countOf (m : gmap string Z) (source : string) : Z := default 0 (m !! source).

Definition acquire (source : string) (s : sourceLimiter) : bool * sourceLimiter :=
  if limit s <=? 0 then (true, s)
  else
    let m := default ∅ (n_ s) in
    if limit s <=? countOf m source then (false, mkLimiter (Some m) (limit s))
    else (true, mkLimiter (Some (<[source := countOf m source + 1]> m)) (limit s)).

Definition release (source : string) (s : sourceLimiter) : sourceLimiter :=
  match n_ s with
  | None => s
  | Some m =>
      let m := <[source := countOf m source - 1]> m in
      mkLimiter (Some (if countOf m source <=? 0 then delete source m else m)) (limit s)
  end.

(** [connSource]: the source address a connection is counted under.  The IP of
    a [net.TCPAddr] is a slice of 4 or 16 bytes. *)
Definition AddrFromSlice (ip : bytes) : Addr :=
  if bool_decide (length ip = 4%nat) then Addr4 (BigEndian.de ip)
  else if bool_decide (length ip = 16%nat) then Addr6 (BigEndian.de ip) ""
  else AddrInvalid.

Inductive remoteAddr :=
| TCPAddr (ip : bytes)
| OtherAddr (text : string).

Definition connSource (a : remoteAddr) : string :=
  match a with
  | TCPAddr ip => addr_string (Unmap (AddrFromSlice ip))
  | OtherAddr text => text
  end.

Definition slotCapacity : nat := 64.

(** The state of [serveListener]'s loop: [conns] holds the accepted
    connections that are being served, with their source; [slots] is the
    number of tokens in the channel. *)
Record listener := mkListener {
  sources : sourceLimiter;
  slots : nat;
  conns : gmap nat string;
  cancelled : bool;
  returned : bool;
}.

Definition newListener (policy : Policy) : listener :=
  mkListener (mkLimiter None (maxConnsPerSource policy)) O ∅ false false.

Inductive outcome := Serving | RejectedSource | RejectedSlots | ShuttingDown.

(** One accepted connection.  A Go [select] with several ready cases takes any
    of them: [preferSlot] is its choice when a slot is free and the context is
    cancelled. *)
Definition acceptConn (id : nat) (addr : remoteAddr) (preferSlot : bool) (l : listener)
    : outcome * listener :=
  let source := connSource addr in
  let '(ok, srcs) := acquire source (sources l) in
  if negb ok then (RejectedSource, mkListener srcs (slots l) (conns l) (cancelled l) (returned l))
  else
    let free := (slots l <? slotCapacity)%nat in
    let giveUp o ret :=
      (o, mkListener (release source srcs) (slots l) (conns l) (cancelled l) ret) in
    if free && (preferSlot || negb (cancelled l)) then
      if cancelled l then
        (* the token is in the channel, the loop returns *)
        (ShuttingDown, mkListener (release source srcs) (S (slots l)) (conns l) true true)
      else (Serving, mkListener srcs (S (slots l)) (<[id := source]> (conns l)) false (returned l))
    else if cancelled l then giveUp ShuttingDown true
    else giveUp RejectedSlots (returned l).

(** A connection's goroutine returns. *)
Definition finishConn (id : nat) (l : listener) : listener :=
  match conns l !! id with
  | None => l
  | Some source =>
      mkListener (release source (sources l)) (pred (slots l)) (delete id (conns l))
        (cancelled l) (returned l)
  end.

Definition cancel (l : listener) : listener :=
  mkListener (sources l) (slots l) (conns l) true (returned l).

Inductive lstep : listener → listener → Prop :=
| l_accept id addr preferSlot l o l' :
    returned l = false → conns l !! id = None →
    acceptConn id addr preferSlot l = (o, l') → lstep l l'
| l_finish id l : lstep l (finishConn id l)
| l_cancel l : lstep l (cancel l).

(** *** The admission invariant *)

(** The live connections of a source. *)
Definition liveOf (source : string) (m : gmap nat string) : gmap nat string :=
  filter (λ x, x.2 = source) m.

(** The limiter counts exactly the live connections of every source, unless
    there is no quota, when it counts nothing. *)
Definition tracks (s : sourceLimiter) (m : gmap nat string) : Prop :=
  (limit s ≤ 0 ∧ n_ s = None) ∨
  (0 < limit s ∧ ∀ source,
     countOf (default ∅ (n_ s)) source = Z.of_nat (size (liveOf source m)) ∧
     Z.of_nat (size (liveOf source m)) ≤ limit s).

(** Every live connection holds a slot; a loop that returned on cancellation
    may have left one more token. *)
Definition admission_inv (p : Policy) (l : listener) : Prop :=
  limit (sources l) = maxConnsPerSource p ∧
  tracks (sources l) (conns l) ∧
  (size (conns l) ≤ slots l ≤ slotCapacity)%nat ∧
  (returned l = false → slots l = size (conns l)).

Lemma liveOf_insert s id source m :
  m !! id = None →
  size (liveOf s (<[id := source]> m)) = (size (liveOf s m) + if decide (source = s) then 1 else 0)%nat.
Proof.
  intros Hid. unfold liveOf. rewrite map_filter_insert. cbn. case_decide.
  - rewrite map_size_insert_None; [lia|]. apply map_lookup_filter_None. by left.
  - rewrite delete_id by done. lia.
Qed.

Lemma liveOf_delete s id source m :
  m !! id = Some source →
  size (liveOf s m) = (size (liveOf s (delete id m)) + if decide (source = s) then 1 else 0)%nat.
Proof.
  intros Hid. rewrite <- (insert_delete_id m id source Hid) at 1.
  by rewrite liveOf_insert by apply lookup_delete_eq.
Qed.

Lemma countOf_insert m s s' v :
  countOf (<[s := v]> m) s' = if decide (s = s') then v else countOf m s'.
Proof. unfold countOf. rewrite lookup_insert. by case_decide. Qed.

(** Releasing a counted source takes one from its count, and forgets it at
    zero. *)
Lemma release_count s m l source :
  1 ≤ countOf m source →
  n_ (release source (mkLimiter (Some m) l)) ≠ None ∧
  countOf (default ∅ (n_ (release source (mkLimiter (Some m) l)))) s =
    countOf m s - if decide (source = s) then 1 else 0.
Proof.
  intros Hc. unfold release. cbn. split; [done|]. rewrite countOf_insert, decide_True by done.
  case_match eqn:Hz; zbool.
  - unfold countOf at 1. destruct (decide (source = s)) as [<-|Hne].
    + rewrite lookup_delete_eq. cbn. lia.
    + rewrite lookup_delete_ne, lookup_insert_ne by done. unfold countOf. lia.
  - rewrite countOf_insert. case_decide; subst; lia.
Qed.

Lemma release_limit source s : limit (release source s) = limit s.
Proof. unfold release. by destruct (n_ s). Qed.

(** What [acquire] does: nothing without a quota, a refusal at the quota, else
    one more. *)
Lemma acquire_cases source s ok s' :
  acquire source s = (ok, s') →
  limit s' = limit s ∧
  ((limit s ≤ 0 ∧ ok = true ∧ s' = s) ∨
   (0 < limit s ∧ limit s ≤ countOf (default ∅ (n_ s)) source ∧ ok = false ∧
      default ∅ (n_ s') = default ∅ (n_ s)) ∨
   (0 < limit s ∧ countOf (default ∅ (n_ s)) source < limit s ∧ ok = true ∧
      n_ s' = Some (<[source := countOf (default ∅ (n_ s)) source + 1]> (default ∅ (n_ s))))).
Proof.
  unfold acquire. case_match eqn:H1; [intros [= <- <-]|case_match eqn:H2; intros [= <- <-]];
    zbool; (split; [done|]); [left|right; left|right; right]; by split_and!.
Qed.


Section tracking.
Context (srcs : sourceLimiter) (m : gmap nat string) (source : string).
Hypothesis Htr : tracks srcs m.

Lemma tracks_refuse srcs' : acquire source srcs = (false, srcs') → tracks srcs' m.
Proof using All.
  intros [Hl [(_ & [=] & _)|[(H0 & _ & _ & Hd)|(_ & _ & [=] & _)]]]%acquire_cases.
  destruct Htr as [[? _]|[_ Hc]]; [lia|]. right. split; [lia|]. by rewrite Hd, Hl.
Qed.

Lemma tracks_admit srcs' k :
  acquire source srcs = (true, srcs') → m !! k = None → tracks srcs' (<[k := source]> m).
Proof using All.
  intros [Hl [(H0 & _ & ->)|[(_ & _ & [=] & _)|(H0 & Hlt & _ & Hn)]]]%acquire_cases Hid.
  - destruct Htr as [[? ?]|[? _]]; [by left|lia].
  - destruct Htr as [[? _]|[_ Hc]]; [lia|]. right. split; [lia|]. intros s.
    rewrite Hn, Hl.
    match goal with |- context [default ∅ (Some ?y)] => change (default ∅ (Some y)) with y end.
    rewrite countOf_insert, liveOf_insert by done.
    destruct (Hc source) as [Hs _]. specialize (Hc s). case_decide; subst; lia.
Qed.

(** Releasing what was just acquired restores the count. *)
Lemma tracks_undo srcs' : acquire source srcs = (true, srcs') → tracks (release source srcs') m.
Proof using All.
  intros [Hl [(H0 & _ & ->)|[(_ & _ & [=] & _)|(H0 & Hlt & _ & Hn)]]]%acquire_cases.
  - destruct Htr as [[H1 H2]|[? _]]; [|lia]. left. unfold release. by rewrite H2.
  - destruct Htr as [[? _]|[_ Hc]]; [lia|]. destruct srcs' as [n' l']. cbn [n_ limit] in Hn, Hl. subst.
    right. rewrite release_limit. split; [done|]. intros s.
    destruct (Hc source) as [Hs _]. specialize (Hc s).
    match goal with |- context [mkLimiter (Some ?mm) _] => assert (1 ≤ countOf mm source) as H1 end.
    { rewrite countOf_insert, decide_True by done. lia. }
    rewrite (proj2 (release_count s _ _ source H1)).
    rewrite countOf_insert. cbn [limit]. case_decide; subst; lia.
Qed.

Lemma tracks_release id : m !! id = Some source → tracks (release source srcs) (delete id m).
Proof using All.
  intros Hid. destruct Htr as [[H1 H2]|[H0 Hc]].
  - left. unfold release. by rewrite H2.
  - assert (∀ s, size (liveOf s m) = (size (liveOf s (delete id m)) + if decide (source = s) then 1 else 0)%nat)
      as Hsz by (intros s; by apply liveOf_delete).
    assert (1 ≤ countOf (default ∅ (n_ srcs)) source) as H1.
    { destruct (Hc source) as [Hs _]. specialize (Hsz source). rewrite decide_True in Hsz by done. lia. }
    destruct srcs as [[mm|] l]; cbn [n_ limit] in *;
      [|by unfold countOf in H1; cbn in H1; rewrite lookup_empty in H1].
    right. rewrite release_limit. split; [done|]. intros s.
    rewrite (proj2 (release_count s mm l source H1)). specialize (Hc s). specialize (Hsz s).
    change (default ∅ (Some mm)) with mm in Hc. cbn [limit]. case_decide; lia.
Qed.

End tracking.

Lemma admission_step p l l' : admission_inv p l → lstep l l' → admission_inv p l'.
Proof.
  intros Hinv Hstep. destruct Hstep as [id addr pref l1 o l1' Hr Hid Ha|id l1|l1];
    destruct Hinv as (Hlim & Htr & Hsz & Hret); cbn in *.
  - unfold acceptConn in Ha. destruct (acquire (connSource addr) (sources l1)) as [ok srcs] eqn:Hacq.
    pose proof (proj1 (acquire_cases _ _ _ _ Hacq)) as Hl.
    specialize (Hret Hr). destruct ok; cbn [negb] in Ha; cycle 1.
    { simplify_eq. split_and!; cbn; [congruence|by eapply tracks_refuse|lia..|done]. }
    destruct (slots l1 <? slotCapacity)%nat eqn:Hf; cbn [andb] in Ha;
      [apply Nat.ltb_lt in Hf|]; destruct (cancelled l1) eqn:Hc; destruct pref; cbn in Ha;
      simplify_eq; unfold admission_inv; cbn; rewrite ?release_limit;
      (split; [congruence|]);
      (split; [first [by eapply tracks_undo|by eapply tracks_admit]|]);
      try rewrite map_size_insert_None by done; (split; [lia|]); first [done|lia].
  - unfold finishConn. destruct (conns l1 !! id) as [source|] eqn:Hid; [|done].
    pose proof (map_size_delete_Some id (conns l1) (mk_is_Some _ _ Hid)) as Hd.
    assert (size (conns l1) ≠ 0%nat) as Hne.
    { intros He. apply map_size_empty_iff in He. by rewrite He in Hid. }
    unfold admission_inv. cbn. rewrite release_limit, Hd. split_and!; [done|by apply tracks_release|lia..|].
    intros Hr. specialize (Hret Hr). lia.
  - done.
Qed.

Definition admitted (p : Policy) (l : listener) : Prop := rtc lstep (newListener p) l.

Lemma admission_reachable p l : admitted p l → admission_inv p l.
Proof.
  unfold admitted. intros Hr. assert (admission_inv p (newListener p)) as H0.
  { unfold admission_inv, newListener, slotCapacity. cbn. rewrite map_size_empty.
    split_and!; [done| |lia..|done].
    destruct (decide (maxConnsPerSource p ≤ 0)); [by left|right]. cbn. split; [lia|].
    intros s. unfold countOf, liveOf. rewrite lookup_empty, map_filter_empty, map_size_empty.
    cbn. lia. }
  revert H0. induction Hr as [|x y z Hxy _ IH]; [done|]. intros Hx. apply IH.
  by eapply admission_step.
Qed.

(** C15: admission control.  However connections arrive, finish and are
    refused, at most 64 are served at once, and with a positive quota no
    source address has more live connections than it; a policy that sets no
    quota has one of four. *)
Theorem admission_limits p l :
  admitted p l →
  (size (conns l) ≤ 64)%nat ∧
  (0 < maxConnsPerSource p → ∀ source,
     Z.of_nat (size (liveOf source (conns l))) ≤ maxConnsPerSource p) ∧
  (MaxConnsPerSource p = 0 → maxConnsPerSource p = 4).
Proof.
  intros (Hl & Ht & Hs & _)%admission_reachable. unfold slotCapacity in Hs. split; [lia|]. split.
  - intros H0 source. destruct Ht as [[? _]|[_ Hc]]; [lia|]. specialize (Hc source). lia.
  - intros H0. unfold maxConnsPerSource. by rewrite H0.
Qed.

(** The limiter does not leak.  Once every connection has finished, a
    source that was at its quota is admitted again: all counts are zero. *)
Theorem admission_no_leak p l source :
  admitted p l → conns l = ∅ → returned l = false →
  (acquire source (sources l)).1 = true ∧ slots l = O.
Proof.
  intros (Hl & Ht & Hs & Hr)%admission_reachable He Hret. rewrite He, map_size_empty in *.
  split; [|auto]. destruct (acquire source (sources l)) as [ok s'] eqn:Ha. cbn.
  apply acquire_cases in Ha as [_ [(_ & -> & _)|[(H0 & Hge & _)|(_ & _ & -> & _)]]]; try done.
  exfalso. destruct Ht as [[? _]|[_ Hc]]; [lia|]. destruct (Hc source) as [Hc' _].
  unfold liveOf in Hc'. rewrite map_filter_empty, map_size_empty in Hc'. lia.
Qed.

(** ** Sessions *)

(** A live authenticated connection, as the table sees it. *)
Record session := mkSession { s_conn : nat; s_connectionID : string; s_keyDigest : string }.

(** [sessionTable]: [None] is the nil map. *)
Definition sessionTable : Type := option (gmap string session).

Definition track (c : session) (table : sessionTable) : sessionTable :=
  if bool_decide (s_connectionID c = ""%string) then table
  else Some (<[s_connectionID c := c]> (default ∅ table)).

Definition untrack (id : string) (table : sessionTable) : sessionTable :=
  if bool_decide (id = ""%string) then table else delete id <$> table.

(** The connections [dropKey] closes. *)
Definition dropKey (digest : string) (table : sessionTable) : list nat :=
  if bool_decide (digest = ""%string) then []
  else (λ x, s_conn x.2) <$> filter (λ x : string * session, s_keyDigest x.2 = digest)
                               (map_to_list (default ∅ table)).

(** Dropping a key closes exactly the tracked connections that
    authenticated with it. *)
Theorem dropKey_exact digest table conn :
  digest ≠ ""%string →
  conn ∈ dropKey digest table ↔
  ∃ id c, default ∅ table !! id = Some c ∧ s_keyDigest c = digest ∧ s_conn c = conn.
Proof.
  intros Hd. unfold dropKey. rewrite bool_decide_eq_false_2 by done.
  rewrite list_elem_of_fmap. split.
  - intros ([id c] & -> & [Hk Hin]%list_elem_of_filter). apply elem_of_map_to_list in Hin. eauto.
  - intros (id & c & Hin & Hk & <-). exists (id, c). split; [done|].
    apply list_elem_of_filter. split; [done|]. by apply elem_of_map_to_list.
Qed.

(** *** Witnesses *)

Definition samplePol (quota : Z) : Policy := {|
  profile := Profile.current; Listen := AddrPortFrom (Addr4 0) 443;
  Target := AddrPortFrom (Addr4 0) 22; Management := AddrPortFrom (Addr4 0) 22;
  HostKeyPath := ""; AuthorizedKeysPath := ""; HostSignSocket := ""; Grant := false;
  ControlSocket := ""; RekeyAfter := 0; MaxChannels := 0; MaxConnsPerSource := quota |}.
Definition peer : remoteAddr := TCPAddr [bz 198; bz 51; bz 100; bz 7].
Definition twoAccepted : listener :=
  (acceptConn 2 peer true (acceptConn 1 peer true (newListener (samplePol 2))).2).2.
Definition drained : listener := finishConn 1 (finishConn 2 twoAccepted).

Lemma twoAccepted_admitted : admitted (samplePol 2) twoAccepted.
Proof.
  eapply rtc_l; [eapply (l_accept 1 peer true); [done|vm_compute; reflexivity|apply surjective_pairing]|].
  eapply rtc_l; [eapply (l_accept 2 peer true); [vm_compute; reflexivity..|apply surjective_pairing]|].
  apply rtc_refl.
Qed.

(** The quota of two is reached and a third connection is refused. *)
Lemma admission_limits_witness :
  Z.of_nat (size (liveOf "198.51.100.7" (conns twoAccepted))) = 2 ∧
  (acceptConn 3 peer true twoAccepted).1 = RejectedSource ∧
  Z.of_nat (size (liveOf "198.51.100.7" (conns twoAccepted))) ≤ 2.
Proof.
  split; [vm_compute; reflexivity|]. split; [vm_compute; reflexivity|].
  apply (proj1 (proj2 (admission_limits (samplePol 2) twoAccepted twoAccepted_admitted))).
  vm_compute. reflexivity.
Defined.

Lemma drained_admitted : admitted (samplePol 2) drained.
Proof.
  unfold admitted. etrans; [apply twoAccepted_admitted|].
  eapply rtc_l; [apply l_finish|]. eapply rtc_l; [apply l_finish|]. apply rtc_refl.
Qed.

Lemma admission_no_leak_witness :
  (acquire "198.51.100.7" (sources drained)).1 = true ∧ slots drained = O.
Proof.
  apply (admission_no_leak (samplePol 2) drained "198.51.100.7" drained_admitted);
    vm_compute; reflexivity.
Defined.

Lemma dropKey_exact_witness :
  7%nat ∈ dropKey "aa" (track (mkSession 7 "c1" "aa") None).
Proof.
  apply (dropKey_exact "aa"); [discriminate|].
  exists "c1"%string, (mkSession 7 "c1" "aa"). vm_compute. repeat split.
Defined.
