(* ===== verification/ClientStore.v ===== *)
(** * The client records of internal/enrollment

    [ClientRecord], the durable server-side state of one enrolled client, and
    its JSON form: what [json.Marshal] writes and what [decodeStrictJSON] reads
    back. *)

From S2P Require Import Prelude GoStd Json StrictJson Time Host Locator Grant.
Import Json Locator.

Module ClientStore.

(** ** JSON of published endpoints *)

(** An unsigned integer field of [bits] bits. *)
Definition uint_field {A} (bits : Z) (set : Z → A → A) (v : json) (a : A) : result A :=
  match v with
  | JNum l => match Strings.parse_uint (to_string l) bits with Ok n => Ok (set n a) | Err _ => typeError end
  | JNull => Ok a
  | _ => typeError
  end.

(** [DialHost.UnmarshalJSON]; [null] leaves the empty string. *)
Definition UnmarshalHost (v : json) : result DialHost :=
  match v with
  | JStr s => ParseDialHost s
  | JNull => ParseDialHost ""
  | _ => Err (EMsg "dial host must be a string")
  end.
(** [DialHost.MarshalJSON]. *)
Definition MarshalHost (h : DialHost) : result json := s ← Canonical h; Ok (JStr s).

Definition endpointFields : list (field DialEndpoint) :=
  [("host", λ v e, h ← UnmarshalHost v; Ok (mkEndpoint h (Port e)));
   ("port", uint_field 16 (λ p e, mkEndpoint (Host e) p))]%string.
Definition endpointJSON (e : DialEndpoint) : result json :=
  host ← MarshalHost (Host e); Ok (JObj [("host", host); ("port", JInt (Port e))]%string).

Definition zeroEndpoint : DialEndpoint := mkEndpoint (mkDialHost Netip.AddrInvalid "") 0.
Definition zeroPublished : PublishedEndpointSet := mkEndpointSet 0 zeroEndpoint zeroEndpoint.

(** ** ClientRecord *)

Record ClientRecord := mkClient {
  ClientID : string;
  GrantID : string;
  TunnelID : string;
  RouteID : string;
  InviteID : string;
  PublicKey : string;
  PublicKeySHA256 : string;
  ManagementTokenSHA256 : string;
  Principal : string;
  ProfileID : string;
  ArtifactProfileID : string;
  Published : PublishedEndpointSet;
  TargetAddress : string;
  TargetPort : Z;
  Status : string;
  AcceptedAt : string;
  AuthorizationNotAfter : string;
  AuthorizationDurationSeconds : Z;
  RevokedAt : string;
  ExpiredAt : string;
  Generation : string;
  PreviousPublicKey : string;
  PreviousManagementTokenSHA256 : string;
  PendingPublicKey : string;
  PendingManagementTokenSHA256 : string;
  OperationStartedAt : string;
}.
Definition zeroClient : ClientRecord :=
  mkClient "" "" "" "" "" "" "" "" "" "" "" zeroPublished "" 0 "" "" "" 0 "" "" "" "" "" "" "" "".

(** Assignment to a field. *)
Definition set_ClientID (v : string) (r : ClientRecord) : ClientRecord :=
  mkClient v (GrantID r) (TunnelID r) (RouteID r) (InviteID r) (PublicKey r) (PublicKeySHA256 r)
    (ManagementTokenSHA256 r) (Principal r) (ProfileID r) (ArtifactProfileID r) (Published r)
    (TargetAddress r) (TargetPort r) (Status r) (AcceptedAt r) (AuthorizationNotAfter r)
    (AuthorizationDurationSeconds r) (RevokedAt r) (ExpiredAt r) (Generation r)
    (PreviousPublicKey r) (PreviousManagementTokenSHA256 r) (PendingPublicKey r)
    (PendingManagementTokenSHA256 r) (OperationStartedAt r).
Definition set_GrantID (v : string) (r : ClientRecord) : ClientRecord :=
  mkClient (ClientID r) v (TunnelID r) (RouteID r) (InviteID r) (PublicKey r)
    (PublicKeySHA256 r) (ManagementTokenSHA256 r) (Principal r) (ProfileID r)
    (ArtifactProfileID r) (Published r) (TargetAddress r) (TargetPort r) (Status r)
    (AcceptedAt r) (AuthorizationNotAfter r) (AuthorizationDurationSeconds r) (RevokedAt r)
    (ExpiredAt r) (Generation r) (PreviousPublicKey r) (PreviousManagementTokenSHA256 r)
    (PendingPublicKey r) (PendingManagementTokenSHA256 r) (OperationStartedAt r).
Definition set_TunnelID (v : string) (r : ClientRecord) : ClientRecord :=
  mkClient (ClientID r) (GrantID r) v (RouteID r) (InviteID r) (PublicKey r) (PublicKeySHA256 r)
    (ManagementTokenSHA256 r) (Principal r) (ProfileID r) (ArtifactProfileID r) (Published r)
    (TargetAddress r) (TargetPort r) (Status r) (AcceptedAt r) (AuthorizationNotAfter r)
    (AuthorizationDurationSeconds r) (RevokedAt r) (ExpiredAt r) (Generation r)
    (PreviousPublicKey r) (PreviousManagementTokenSHA256 r) (PendingPublicKey r)
    (PendingManagementTokenSHA256 r) (OperationStartedAt r).
Definition set_RouteID (v : string) (r : ClientRecord) : ClientRecord :=
  mkClient (ClientID r) (GrantID r) (TunnelID r) v (InviteID r) (PublicKey r)
    (PublicKeySHA256 r) (ManagementTokenSHA256 r) (Principal r) (ProfileID r)
    (ArtifactProfileID r) (Published r) (TargetAddress r) (TargetPort r) (Status r)
    (AcceptedAt r) (AuthorizationNotAfter r) (AuthorizationDurationSeconds r) (RevokedAt r)
    (ExpiredAt r) (Generation r) (PreviousPublicKey r) (PreviousManagementTokenSHA256 r)
    (PendingPublicKey r) (PendingManagementTokenSHA256 r) (OperationStartedAt r).
Definition set_InviteID (v : string) (r : ClientRecord) : ClientRecord :=
  mkClient (ClientID r) (GrantID r) (TunnelID r) (RouteID r) v (PublicKey r) (PublicKeySHA256 r)
    (ManagementTokenSHA256 r) (Principal r) (ProfileID r) (ArtifactProfileID r) (Published r)
    (TargetAddress r) (TargetPort r) (Status r) (AcceptedAt r) (AuthorizationNotAfter r)
    (AuthorizationDurationSeconds r) (RevokedAt r) (ExpiredAt r) (Generation r)
    (PreviousPublicKey r) (PreviousManagementTokenSHA256 r) (PendingPublicKey r)
    (PendingManagementTokenSHA256 r) (OperationStartedAt r).
Definition set_PublicKey (v : string) (r : ClientRecord) : ClientRecord :=
  mkClient (ClientID r) (GrantID r) (TunnelID r) (RouteID r) (InviteID r) v (PublicKeySHA256 r)
    (ManagementTokenSHA256 r) (Principal r) (ProfileID r) (ArtifactProfileID r) (Published r)
    (TargetAddress r) (TargetPort r) (Status r) (AcceptedAt r) (AuthorizationNotAfter r)
    (AuthorizationDurationSeconds r) (RevokedAt r) (ExpiredAt r) (Generation r)
    (PreviousPublicKey r) (PreviousManagementTokenSHA256 r) (PendingPublicKey r)
    (PendingManagementTokenSHA256 r) (OperationStartedAt r).
Definition set_PublicKeySHA256 (v : string) (r : ClientRecord) : ClientRecord :=
  mkClient (ClientID r) (GrantID r) (TunnelID r) (RouteID r) (InviteID r) (PublicKey r) v
    (ManagementTokenSHA256 r) (Principal r) (ProfileID r) (ArtifactProfileID r) (Published r)
    (TargetAddress r) (TargetPort r) (Status r) (AcceptedAt r) (AuthorizationNotAfter r)
    (AuthorizationDurationSeconds r) (RevokedAt r) (ExpiredAt r) (Generation r)
    (PreviousPublicKey r) (PreviousManagementTokenSHA256 r) (PendingPublicKey r)
    (PendingManagementTokenSHA256 r) (OperationStartedAt r).
Definition set_ManagementTokenSHA256 (v : string) (r : ClientRecord) : ClientRecord :=
  mkClient (ClientID r) (GrantID r) (TunnelID r) (RouteID r) (InviteID r) (PublicKey r)
    (PublicKeySHA256 r) v (Principal r) (ProfileID r) (ArtifactProfileID r) (Published r)
    (TargetAddress r) (TargetPort r) (Status r) (AcceptedAt r) (AuthorizationNotAfter r)
    (AuthorizationDurationSeconds r) (RevokedAt r) (ExpiredAt r) (Generation r)
    (PreviousPublicKey r) (PreviousManagementTokenSHA256 r) (PendingPublicKey r)
    (PendingManagementTokenSHA256 r) (OperationStartedAt r).
Definition set_Principal (v : string) (r : ClientRecord) : ClientRecord :=
  mkClient (ClientID r) (GrantID r) (TunnelID r) (RouteID r) (InviteID r) (PublicKey r)
    (PublicKeySHA256 r) (ManagementTokenSHA256 r) v (ProfileID r) (ArtifactProfileID r)
    (Published r) (TargetAddress r) (TargetPort r) (Status r) (AcceptedAt r)
    (AuthorizationNotAfter r) (AuthorizationDurationSeconds r) (RevokedAt r) (ExpiredAt r)
    (Generation r) (PreviousPublicKey r) (PreviousManagementTokenSHA256 r) (PendingPublicKey r)
    (PendingManagementTokenSHA256 r) (OperationStartedAt r).
Definition set_ProfileID (v : string) (r : ClientRecord) : ClientRecord :=
  mkClient (ClientID r) (GrantID r) (TunnelID r) (RouteID r) (InviteID r) (PublicKey r)
    (PublicKeySHA256 r) (ManagementTokenSHA256 r) (Principal r) v (ArtifactProfileID r)
    (Published r) (TargetAddress r) (TargetPort r) (Status r) (AcceptedAt r)
    (AuthorizationNotAfter r) (AuthorizationDurationSeconds r) (RevokedAt r) (ExpiredAt r)
    (Generation r) (PreviousPublicKey r) (PreviousManagementTokenSHA256 r) (PendingPublicKey r)
    (PendingManagementTokenSHA256 r) (OperationStartedAt r).
Definition set_ArtifactProfileID (v : string) (r : ClientRecord) : ClientRecord :=
  mkClient (ClientID r) (GrantID r) (TunnelID r) (RouteID r) (InviteID r) (PublicKey r)
    (PublicKeySHA256 r) (ManagementTokenSHA256 r) (Principal r) (ProfileID r) v (Published r)
    (TargetAddress r) (TargetPort r) (Status r) (AcceptedAt r) (AuthorizationNotAfter r)
    (AuthorizationDurationSeconds r) (RevokedAt r) (ExpiredAt r) (Generation r)
    (PreviousPublicKey r) (PreviousManagementTokenSHA256 r) (PendingPublicKey r)
    (PendingManagementTokenSHA256 r) (OperationStartedAt r).
Definition set_Published (v : PublishedEndpointSet) (r : ClientRecord) : ClientRecord :=
  mkClient (ClientID r) (GrantID r) (TunnelID r) (RouteID r) (InviteID r) (PublicKey r)
    (PublicKeySHA256 r) (ManagementTokenSHA256 r) (Principal r) (ProfileID r)
    (ArtifactProfileID r) v (TargetAddress r) (TargetPort r) (Status r) (AcceptedAt r)
    (AuthorizationNotAfter r) (AuthorizationDurationSeconds r) (RevokedAt r) (ExpiredAt r)
    (Generation r) (PreviousPublicKey r) (PreviousManagementTokenSHA256 r) (PendingPublicKey r)
    (PendingManagementTokenSHA256 r) (OperationStartedAt r).
Definition set_TargetAddress (v : string) (r : ClientRecord) : ClientRecord :=
  mkClient (ClientID r) (GrantID r) (TunnelID r) (RouteID r) (InviteID r) (PublicKey r)
    (PublicKeySHA256 r) (ManagementTokenSHA256 r) (Principal r) (ProfileID r)
    (ArtifactProfileID r) (Published r) v (TargetPort r) (Status r) (AcceptedAt r)
    (AuthorizationNotAfter r) (AuthorizationDurationSeconds r) (RevokedAt r) (ExpiredAt r)
    (Generation r) (PreviousPublicKey r) (PreviousManagementTokenSHA256 r) (PendingPublicKey r)
    (PendingManagementTokenSHA256 r) (OperationStartedAt r).
Definition set_TargetPort (v : Z) (r : ClientRecord) : ClientRecord :=
  mkClient (ClientID r) (GrantID r) (TunnelID r) (RouteID r) (InviteID r) (PublicKey r)
    (PublicKeySHA256 r) (ManagementTokenSHA256 r) (Principal r) (ProfileID r)
    (ArtifactProfileID r) (Published r) (TargetAddress r) v (Status r) (AcceptedAt r)
    (AuthorizationNotAfter r) (AuthorizationDurationSeconds r) (RevokedAt r) (ExpiredAt r)
    (Generation r) (PreviousPublicKey r) (PreviousManagementTokenSHA256 r) (PendingPublicKey r)
    (PendingManagementTokenSHA256 r) (OperationStartedAt r).
Definition set_Status (v : string) (r : ClientRecord) : ClientRecord :=
  mkClient (ClientID r) (GrantID r) (TunnelID r) (RouteID r) (InviteID r) (PublicKey r)
    (PublicKeySHA256 r) (ManagementTokenSHA256 r) (Principal r) (ProfileID r)
    (ArtifactProfileID r) (Published r) (TargetAddress r) (TargetPort r) v (AcceptedAt r)
    (AuthorizationNotAfter r) (AuthorizationDurationSeconds r) (RevokedAt r) (ExpiredAt r)
    (Generation r) (PreviousPublicKey r) (PreviousManagementTokenSHA256 r) (PendingPublicKey r)
    (PendingManagementTokenSHA256 r) (OperationStartedAt r).
Definition set_AcceptedAt (v : string) (r : ClientRecord) : ClientRecord :=
  mkClient (ClientID r) (GrantID r) (TunnelID r) (RouteID r) (InviteID r) (PublicKey r)
    (PublicKeySHA256 r) (ManagementTokenSHA256 r) (Principal r) (ProfileID r)
    (ArtifactProfileID r) (Published r) (TargetAddress r) (TargetPort r) (Status r) v
    (AuthorizationNotAfter r) (AuthorizationDurationSeconds r) (RevokedAt r) (ExpiredAt r)
    (Generation r) (PreviousPublicKey r) (PreviousManagementTokenSHA256 r) (PendingPublicKey r)
    (PendingManagementTokenSHA256 r) (OperationStartedAt r).
Definition set_AuthorizationNotAfter (v : string) (r : ClientRecord) : ClientRecord :=
  mkClient (ClientID r) (GrantID r) (TunnelID r) (RouteID r) (InviteID r) (PublicKey r)
    (PublicKeySHA256 r) (ManagementTokenSHA256 r) (Principal r) (ProfileID r)
    (ArtifactProfileID r) (Published r) (TargetAddress r) (TargetPort r) (Status r)
    (AcceptedAt r) v (AuthorizationDurationSeconds r) (RevokedAt r) (ExpiredAt r) (Generation r)
    (PreviousPublicKey r) (PreviousManagementTokenSHA256 r) (PendingPublicKey r)
    (PendingManagementTokenSHA256 r) (OperationStartedAt r).
Definition set_AuthorizationDurationSeconds (v : Z) (r : ClientRecord) : ClientRecord :=
  mkClient (ClientID r) (GrantID r) (TunnelID r) (RouteID r) (InviteID r) (PublicKey r)
    (PublicKeySHA256 r) (ManagementTokenSHA256 r) (Principal r) (ProfileID r)
    (ArtifactProfileID r) (Published r) (TargetAddress r) (TargetPort r) (Status r)
    (AcceptedAt r) (AuthorizationNotAfter r) v (RevokedAt r) (ExpiredAt r) (Generation r)
    (PreviousPublicKey r) (PreviousManagementTokenSHA256 r) (PendingPublicKey r)
    (PendingManagementTokenSHA256 r) (OperationStartedAt r).
Definition set_RevokedAt (v : string) (r : ClientRecord) : ClientRecord :=
  mkClient (ClientID r) (GrantID r) (TunnelID r) (RouteID r) (InviteID r) (PublicKey r)
    (PublicKeySHA256 r) (ManagementTokenSHA256 r) (Principal r) (ProfileID r)
    (ArtifactProfileID r) (Published r) (TargetAddress r) (TargetPort r) (Status r)
    (AcceptedAt r) (AuthorizationNotAfter r) (AuthorizationDurationSeconds r) v (ExpiredAt r)
    (Generation r) (PreviousPublicKey r) (PreviousManagementTokenSHA256 r) (PendingPublicKey r)
    (PendingManagementTokenSHA256 r) (OperationStartedAt r).
Definition set_ExpiredAt (v : string) (r : ClientRecord) : ClientRecord :=
  mkClient (ClientID r) (GrantID r) (TunnelID r) (RouteID r) (InviteID r) (PublicKey r)
    (PublicKeySHA256 r) (ManagementTokenSHA256 r) (Principal r) (ProfileID r)
    (ArtifactProfileID r) (Published r) (TargetAddress r) (TargetPort r) (Status r)
    (AcceptedAt r) (AuthorizationNotAfter r) (AuthorizationDurationSeconds r) (RevokedAt r) v
    (Generation r) (PreviousPublicKey r) (PreviousManagementTokenSHA256 r) (PendingPublicKey r)
    (PendingManagementTokenSHA256 r) (OperationStartedAt r).
Definition set_Generation (v : string) (r : ClientRecord) : ClientRecord :=
  mkClient (ClientID r) (GrantID r) (TunnelID r) (RouteID r) (InviteID r) (PublicKey r)
    (PublicKeySHA256 r) (ManagementTokenSHA256 r) (Principal r) (ProfileID r)
    (ArtifactProfileID r) (Published r) (TargetAddress r) (TargetPort r) (Status r)
    (AcceptedAt r) (AuthorizationNotAfter r) (AuthorizationDurationSeconds r) (RevokedAt r)
    (ExpiredAt r) v (PreviousPublicKey r) (PreviousManagementTokenSHA256 r) (PendingPublicKey r)
    (PendingManagementTokenSHA256 r) (OperationStartedAt r).
Definition set_PreviousPublicKey (v : string) (r : ClientRecord) : ClientRecord :=
  mkClient (ClientID r) (GrantID r) (TunnelID r) (RouteID r) (InviteID r) (PublicKey r)
    (PublicKeySHA256 r) (ManagementTokenSHA256 r) (Principal r) (ProfileID r)
    (ArtifactProfileID r) (Published r) (TargetAddress r) (TargetPort r) (Status r)
    (AcceptedAt r) (AuthorizationNotAfter r) (AuthorizationDurationSeconds r) (RevokedAt r)
    (ExpiredAt r) (Generation r) v (PreviousManagementTokenSHA256 r) (PendingPublicKey r)
    (PendingManagementTokenSHA256 r) (OperationStartedAt r).
Definition set_PreviousManagementTokenSHA256 (v : string) (r : ClientRecord) : ClientRecord :=
  mkClient (ClientID r) (GrantID r) (TunnelID r) (RouteID r) (InviteID r) (PublicKey r)
    (PublicKeySHA256 r) (ManagementTokenSHA256 r) (Principal r) (ProfileID r)
    (ArtifactProfileID r) (Published r) (TargetAddress r) (TargetPort r) (Status r)
    (AcceptedAt r) (AuthorizationNotAfter r) (AuthorizationDurationSeconds r) (RevokedAt r)
    (ExpiredAt r) (Generation r) (PreviousPublicKey r) v (PendingPublicKey r)
    (PendingManagementTokenSHA256 r) (OperationStartedAt r).
Definition set_PendingPublicKey (v : string) (r : ClientRecord) : ClientRecord :=
  mkClient (ClientID r) (GrantID r) (TunnelID r) (RouteID r) (InviteID r) (PublicKey r)
    (PublicKeySHA256 r) (ManagementTokenSHA256 r) (Principal r) (ProfileID r)
    (ArtifactProfileID r) (Published r) (TargetAddress r) (TargetPort r) (Status r)
    (AcceptedAt r) (AuthorizationNotAfter r) (AuthorizationDurationSeconds r) (RevokedAt r)
    (ExpiredAt r) (Generation r) (PreviousPublicKey r) (PreviousManagementTokenSHA256 r) v
    (PendingManagementTokenSHA256 r) (OperationStartedAt r).
Definition set_PendingManagementTokenSHA256 (v : string) (r : ClientRecord) : ClientRecord :=
  mkClient (ClientID r) (GrantID r) (TunnelID r) (RouteID r) (InviteID r) (PublicKey r)
    (PublicKeySHA256 r) (ManagementTokenSHA256 r) (Principal r) (ProfileID r)
    (ArtifactProfileID r) (Published r) (TargetAddress r) (TargetPort r) (Status r)
    (AcceptedAt r) (AuthorizationNotAfter r) (AuthorizationDurationSeconds r) (RevokedAt r)
    (ExpiredAt r) (Generation r) (PreviousPublicKey r) (PreviousManagementTokenSHA256 r)
    (PendingPublicKey r) v (OperationStartedAt r).
Definition set_OperationStartedAt (v : string) (r : ClientRecord) : ClientRecord :=
  mkClient (ClientID r) (GrantID r) (TunnelID r) (RouteID r) (InviteID r) (PublicKey r)
    (PublicKeySHA256 r) (ManagementTokenSHA256 r) (Principal r) (ProfileID r)
    (ArtifactProfileID r) (Published r) (TargetAddress r) (TargetPort r) (Status r)
    (AcceptedAt r) (AuthorizationNotAfter r) (AuthorizationDurationSeconds r) (RevokedAt r)
    (ExpiredAt r) (Generation r) (PreviousPublicKey r) (PreviousManagementTokenSHA256 r)
    (PendingPublicKey r) (PendingManagementTokenSHA256 r) v.

(** The fields of the embedded [PublishedEndpointSet]. *)
Definition data_field (v : json) (r : ClientRecord) : result ClientRecord :=
  d ← decode true endpointFields v (Data (Published r));
  Ok (set_Published (mkEndpointSet (ps_Generation (Published r)) d (Enrollment (Published r))) r).
Definition enrollment_field (v : json) (r : ClientRecord) : result ClientRecord :=
  d ← decode true endpointFields v (Enrollment (Published r));
  Ok (set_Published (mkEndpointSet (ps_Generation (Published r)) (Data (Published r)) d) r).

Definition clientFields : list (field ClientRecord) :=
  [("client_id", string_field set_ClientID);
   ("grant_id", string_field set_GrantID);
   ("tunnel_id", string_field set_TunnelID);
   ("route_id", string_field set_RouteID);
   ("invite_id", string_field set_InviteID);
   ("public_key", string_field set_PublicKey);
   ("public_key_sha256", string_field set_PublicKeySHA256);
   ("management_token_sha256", string_field set_ManagementTokenSHA256);
   ("principal", string_field set_Principal);
   ("profile_id", string_field set_ProfileID);
   ("artifact_profile_id", string_field set_ArtifactProfileID);
   ("published_endpoint_generation", uint_field 64 (λ g r,
      set_Published (mkEndpointSet g (Data (Published r)) (Enrollment (Published r))) r));
   ("data", data_field);
   ("enrollment", enrollment_field);
   ("target_address", string_field set_TargetAddress);
   ("target_port", uint_field 16 set_TargetPort);
   ("status", string_field set_Status);
   ("accepted_at", string_field set_AcceptedAt);
   ("authorization_not_after", string_field set_AuthorizationNotAfter);
   ("authorization_duration_seconds", int_field set_AuthorizationDurationSeconds);
   ("revoked_at", string_field set_RevokedAt);
   ("expired_at", string_field set_ExpiredAt);
   ("generation", string_field set_Generation);
   ("previous_public_key", string_field set_PreviousPublicKey);
   ("previous_management_token_sha256", string_field set_PreviousManagementTokenSHA256);
   ("pending_public_key", string_field set_PendingPublicKey);
   ("pending_management_token_sha256", string_field set_PendingManagementTokenSHA256);
   ("operation_started_at", string_field set_OperationStartedAt)]%string.

(** [json.Marshal(record)]; [json:",omitempty"] leaves an empty string out. *)
Definition omitempty (name value : string) : list (string * json) :=
  if bool_decide (value = ""%string) then [] else [(name, JStr value)].
Definition clientJSON (r : ClientRecord) : result json :=
  data ← endpointJSON (Data (Published r));
  enrollment ← endpointJSON (Enrollment (Published r));
  Ok (JObj (
    [("client_id", JStr (ClientID r));
     ("grant_id", JStr (GrantID r));
     ("tunnel_id", JStr (TunnelID r));
     ("route_id", JStr (RouteID r));
     ("invite_id", JStr (InviteID r));
     ("public_key", JStr (PublicKey r));
     ("public_key_sha256", JStr (PublicKeySHA256 r));
     ("management_token_sha256", JStr (ManagementTokenSHA256 r));
     ("principal", JStr (Principal r));
     ("profile_id", JStr (ProfileID r));
     ("artifact_profile_id", JStr (ArtifactProfileID r));
     ("published_endpoint_generation", JInt (ps_Generation (Published r)));
     ("data", data);
     ("enrollment", enrollment);
     ("target_address", JStr (TargetAddress r));
     ("target_port", JInt (TargetPort r));
     ("status", JStr (Status r));
     ("accepted_at", JStr (AcceptedAt r));
     ("authorization_not_after", JStr (AuthorizationNotAfter r));
     ("authorization_duration_seconds", JInt (AuthorizationDurationSeconds r))]%string
    ++ omitempty "revoked_at" (RevokedAt r)
    ++ omitempty "expired_at" (ExpiredAt r)
    ++ omitempty "generation" (Generation r)
    ++ omitempty "previous_public_key" (PreviousPublicKey r)
    ++ omitempty "previous_management_token_sha256" (PreviousManagementTokenSHA256 r)
    ++ omitempty "pending_public_key" (PendingPublicKey r)
    ++ omitempty "pending_management_token_sha256" (PendingManagementTokenSHA256 r)
    ++ omitempty "operation_started_at" (OperationStartedAt r))).


(** [decodeStrictJSON(raw, &record)]. *)
Definition decodeStrictJSON {A} (fs : list (field A)) (zero : A) (raw : bytes) : result A :=
  StrictJson.RejectDuplicateObjectNames raw;; decode_document fs zero raw.

Definition clientText (r : ClientRecord) : result bytes :=
  v ← clientJSON r; Ok (print v ++ [bz 10]).
Definition readClient (raw : bytes) : result ClientRecord := decodeStrictJSON clientFields zeroClient raw.

End ClientStore.
