(* ===== verification/ClientCodec.v ===== *)
(** * Client records survive their JSON form

    What [writeClientAtomic] writes is what [LoadClient] reads: the encoding of
    a record with plain ASCII text and canonical endpoints passes the
    duplicate-name check and decodes to the record. *)

From S2P Require Import Prelude GoStd Json StrictJson Time Host Locator Grant GrantProps ClientStore.
Import Json Locator ClientStore.

(** ** Members of an object *)

Definition wf_members (d : Z) (m : list (string * json)) : Prop :=
  Forall (λ x, ascii x.1 ∧ wf d x.2) m.

Lemma wf_obj d m : d < maxNestingDepth → wf_members (d + 1) m → wf d (JObj m).
Proof.
  intros Hd Hm. split; [done|]. induction Hm as [|[k v] m [Hk Hv] _ IH]; [done|]. cbn. auto.
Qed.

Lemma decode_members_app {A} (fs : list (field A)) m1 m2 : ∀ a,
  decode_members true fs (m1 ++ m2) a = decode_members true fs m1 a ≫= decode_members true fs m2.
Proof.
  induction m1 as [|[k v] m1 IH]; intros a; [done|]. cbn [app decode_members].
  destruct (select fs k) as [store|]; [|done]. destruct (store v a) as [a'|e]; [apply IH|done].
Qed.

(** A left-out field is empty in the record that is decoded into. *)
Lemma decode_omit {A} (fs : list (field A)) name v set a :
  select fs name = Some (string_field set) → set ""%string a = a →
  decode_members true fs (omitempty name v) a = Ok (set v a).
Proof.
  intros Hs H0. unfold omitempty. case_bool_decide as Hv; [subst v; by rewrite H0|].
  cbn [decode_members]. by rewrite Hs.
Qed.

Lemma wf_omit d name v : ascii name → ascii v → wf_members d (omitempty name v).
Proof. intros Hn Hv. unfold omitempty. case_bool_decide; repeat constructor; done. Qed.

Lemma uint_field_JInt {A} bits (set : Z → A → A) n a :
  0 ≤ n < 2 ^ bits → n < 2 ^ 63 → uint_field bits set (JInt n) a = Ok (set n a).
Proof.
  intros Hn Hb. unfold uint_field, JInt, Strings.parse_uint. rewrite to_string_bytes.
  unfold Strings.itoa. rewrite (proj2 (Z.ltb_ge _ _)), to_bytes_string by lia.
  destruct (digits_spec 64 n []) as (x & d & He & Hd & _ & Hv); [|lia|].
  { split; [lia|]. eapply Z.lt_trans; [exact Hb|]. by vm_compute. }
  rewrite app_nil_r in He. specialize (Hv 0). rewrite He, bool_decide_eq_false_2 by done.
  rewrite (proj2 (forallb_forall _ _)) by (by apply List.Forall_forall). cbn [negb].
  rewrite Hv. replace (_ + n) with n by lia. by rewrite (proj2 (Z.ltb_lt _ _)) by lia.
Qed.

(** ** Endpoints *)

Definition wf_endpoint (e : DialEndpoint) : Prop :=
  0 ≤ Port e < 2 ^ 16 ∧ ∃ s, Canonical (Host e) = Ok s ∧ ascii s ∧ ParseDialHost s = Ok (Host e).

Lemma endpoint_codec e :
  wf_endpoint e → ∃ v, endpointJSON e = Ok v ∧
    (∀ d, d < maxNestingDepth → wf d v) ∧ (∀ d, d + 1 ≤ StrictJson.maxJSONDepth → StrictJson.names_ok false d v = true) ∧
    ∀ e0, decode true endpointFields v e0 = Ok e.
Proof.
  intros (Hp & s & Hc & Ha & Hs). unfold endpointJSON, MarshalHost. rewrite Hc. cbn [mbind result_bind].
  eexists. split_and!; [done|..].
  - intros d Hd. apply wf_obj; [done|]. repeat constructor; try done; try (by apply ascii_forallb).
    by apply wf_JInt; lia.
  - intros d Hd. cbn. rewrite !(proj2 (Z.leb_le _ _)) by lia. done.
  - intros e0. cbn [decode]. unfold endpointFields. cbn [decode_members].
    match goal with |- context [select ?fs "host"] =>
      let s := eval cbv -[UnmarshalHost uint_field mbind] in (select fs "host") in change (select fs "host") with s end.
    cbv iota beta. cbn [UnmarshalHost]. rewrite Hs. cbn [mbind result_bind decode_members].
    match goal with |- context [select ?fs "port"] =>
      let s := eval cbv -[UnmarshalHost uint_field mbind] in (select fs "port") in change (select fs "port") with s end.
    cbv iota beta. rewrite uint_field_JInt by lia. cbn. by destruct e.
Qed.

(** ** Records *)

Definition texts (r : ClientRecord) : list string :=
  [ClientID r; GrantID r; TunnelID r; RouteID r; InviteID r; PublicKey r; PublicKeySHA256 r;
   ManagementTokenSHA256 r; Principal r; ProfileID r; ArtifactProfileID r; TargetAddress r; Status r;
   AcceptedAt r; AuthorizationNotAfter r; RevokedAt r; ExpiredAt r; Generation r; PreviousPublicKey r;
   PreviousManagementTokenSHA256 r; PendingPublicKey r; PendingManagementTokenSHA256 r; OperationStartedAt r].

(** ASCII text, canonical endpoints, numbers in range. *)
Definition wf_client (r : ClientRecord) : Prop :=
  Forall ascii (texts r) ∧ wf_endpoint (Data (Published r)) ∧ wf_endpoint (Enrollment (Published r)) ∧
  0 ≤ ps_Generation (Published r) < 2 ^ 63 ∧ 0 ≤ TargetPort r < 2 ^ 16 ∧
  Z.abs (AuthorizationDurationSeconds r) < 2 ^ 63.

Lemma decode_member {A} (fs : list (field A)) store k v rest a a' :
  select fs k = Some store → store v a = Ok a' →
  decode_members true fs ((k, v) :: rest) a = decode_members true fs rest a'.
Proof. intros Hs Hv. cbn [decode_members]. by rewrite Hs, Hv. Qed.

(** One member of the record's object, with the field it selects. *)
Ltac str_member set :=
  erewrite (decode_member clientFields (string_field set)); [|reflexivity|reflexivity].

Lemma decode_fixed r data enrollment :
  wf_client r →
  (∀ e0, decode true endpointFields data e0 = Ok (Data (Published r))) →
  (∀ e0, decode true endpointFields enrollment e0 = Ok (Enrollment (Published r))) →
  decode_members true clientFields
    [("client_id", JStr (ClientID r)); ("grant_id", JStr (GrantID r)); ("tunnel_id", JStr (TunnelID r));
     ("route_id", JStr (RouteID r)); ("invite_id", JStr (InviteID r)); ("public_key", JStr (PublicKey r));
     ("public_key_sha256", JStr (PublicKeySHA256 r));
     ("management_token_sha256", JStr (ManagementTokenSHA256 r)); ("principal", JStr (Principal r));
     ("profile_id", JStr (ProfileID r)); ("artifact_profile_id", JStr (ArtifactProfileID r));
     ("published_endpoint_generation", JInt (ps_Generation (Published r)));
     ("data", data); ("enrollment", enrollment);
     ("target_address", JStr (TargetAddress r)); ("target_port", JInt (TargetPort r));
     ("status", JStr (Status r)); ("accepted_at", JStr (AcceptedAt r));
     ("authorization_not_after", JStr (AuthorizationNotAfter r));
     ("authorization_duration_seconds", JInt (AuthorizationDurationSeconds r))]%string zeroClient =
  Ok (mkClient (ClientID r) (GrantID r) (TunnelID r) (RouteID r) (InviteID r) (PublicKey r) (PublicKeySHA256 r)
        (ManagementTokenSHA256 r) (Principal r) (ProfileID r) (ArtifactProfileID r) (Published r)
        (TargetAddress r) (TargetPort r) (Status r) (AcceptedAt r) (AuthorizationNotAfter r)
        (AuthorizationDurationSeconds r) "" "" "" "" "" "" "" "").
Proof.
  intros (_ & _ & _ & Hg & Ht & Hs) Hd He.
  str_member set_ClientID. str_member set_GrantID. str_member set_TunnelID. str_member set_RouteID.
  str_member set_InviteID. str_member set_PublicKey. str_member set_PublicKeySHA256.
  str_member set_ManagementTokenSHA256. str_member set_Principal. str_member set_ProfileID.
  str_member set_ArtifactProfileID.
  erewrite (decode_member clientFields (uint_field 64 _)); [|reflexivity|apply uint_field_JInt; lia].
  erewrite (decode_member clientFields data_field); [|reflexivity|unfold data_field; rewrite Hd; reflexivity].
  erewrite (decode_member clientFields enrollment_field); [|reflexivity|unfold enrollment_field; rewrite He; reflexivity].
  str_member set_TargetAddress.
  erewrite (decode_member clientFields (uint_field 16 _)); [|reflexivity|apply uint_field_JInt; lia].
  str_member set_Status. str_member set_AcceptedAt. str_member set_AuthorizationNotAfter.
  erewrite (decode_member clientFields (int_field _)); [|reflexivity|by apply int_field_JInt].
  cbn [decode_members]. f_equal. destruct r as [? ? ? ? ? ? ? ? ? ? ? [] ? ? ? ? ? ?]. reflexivity.
Qed.

Lemma omit_names name v : (omitempty name v).*1 = [] ∨ (omitempty name v).*1 = [name].
Proof. unfold omitempty. case_bool_decide; [by left|by right]. Qed.

Lemma names_omit d name v : d ≤ StrictJson.maxJSONDepth →
  forallb (λ '(k, x), (negb false || StrictJson.isCanonicalManifestName k) && StrictJson.names_ok false d x)
    (omitempty name v) = true.
Proof.
  intros Hd. unfold omitempty. case_bool_decide; [done|]. cbn. by rewrite (proj2 (Z.leb_le _ _)).
Qed.

(** The names of a list of optional members are a sublist of all of them. *)
Lemma omit_sublist (l : list (string * string)) :
  (concat ((λ x, omitempty x.1 x.2) <$> l)).*1 `sublist_of` l.*1.
Proof.
  induction l as [|[n v] l IH]; [done|]. cbn [fmap list_fmap concat fst snd]. rewrite fmap_app.
  destruct (omit_names n v) as [-> | ->]; [by apply sublist_cons|by apply sublist_skip].
Qed.

Definition optionals (r : ClientRecord) : list (string * string) :=
  [("revoked_at", RevokedAt r); ("expired_at", ExpiredAt r); ("generation", Generation r);
   ("previous_public_key", PreviousPublicKey r);
   ("previous_management_token_sha256", PreviousManagementTokenSHA256 r);
   ("pending_public_key", PendingPublicKey r);
   ("pending_management_token_sha256", PendingManagementTokenSHA256 r);
   ("operation_started_at", OperationStartedAt r)]%string.

(** One optional member, with the field it selects. *)
Ltac opt_member set :=
  rewrite decode_members_app, (decode_omit clientFields _ _ set) by reflexivity; cbn [mbind result_bind];
  match goal with |- context [set ?v ?a] => let a' := eval hnf in (set v a) in
    let a'' := eval cbn in a' in change (set v a) with a'' end.

Lemma decode_optionals r r0 :
  r0 = mkClient (ClientID r) (GrantID r) (TunnelID r) (RouteID r) (InviteID r) (PublicKey r) (PublicKeySHA256 r)
        (ManagementTokenSHA256 r) (Principal r) (ProfileID r) (ArtifactProfileID r) (Published r)
        (TargetAddress r) (TargetPort r) (Status r) (AcceptedAt r) (AuthorizationNotAfter r)
        (AuthorizationDurationSeconds r) "" "" "" "" "" "" "" "" →
  decode_members true clientFields (concat ((λ x, omitempty x.1 x.2) <$> optionals r)) r0 = Ok r.
Proof.
  intros ->. destruct r as [x1 x2 x3 x4 x5 x6 x7 x8 x9 x10 x11 x12 x13 x14 x15 x16 x17 x18 x19 x20 x21 x22 x23 x24 x25 x26].
  unfold optionals. cbn [fmap list_fmap concat fst snd ClientID GrantID TunnelID RouteID InviteID PublicKey
    PublicKeySHA256 ManagementTokenSHA256 Principal ProfileID ArtifactProfileID Published TargetAddress TargetPort
    Status AcceptedAt AuthorizationNotAfter AuthorizationDurationSeconds RevokedAt ExpiredAt Generation
    PreviousPublicKey PreviousManagementTokenSHA256 PendingPublicKey PendingManagementTokenSHA256 OperationStartedAt].
  opt_member set_RevokedAt. opt_member set_ExpiredAt. opt_member set_Generation.
  opt_member set_PreviousPublicKey. opt_member set_PreviousManagementTokenSHA256.
  opt_member set_PendingPublicKey. opt_member set_PendingManagementTokenSHA256.
  opt_member set_OperationStartedAt. reflexivity.
Qed.

(** A record that can be stored: its JSON text is read back as the record. *)
Lemma client_codec r :
  wf_client r → ∃ raw, clientText r = Ok raw ∧ readClient raw = Ok r.
Proof.
  intros Hwf. pose proof Hwf as (Ht & Hd & He & Hg & Hp & Hs).
  destruct (endpoint_codec _ Hd) as (data & Hdj & Hdw & Hdn & Hdd).
  destruct (endpoint_codec _ He) as (enr & Hej & Hew & Hen & Hed).
  unfold clientText, clientJSON. rewrite Hdj. cbn [mbind result_bind]. rewrite Hej. cbn [mbind result_bind].
  eexists. split; [reflexivity|]. unfold readClient, decodeStrictJSON.
  match goal with |- context [JObj (?fixed ++ ?opt)] => set (F := fixed);
    change opt with (omitempty "revoked_at" (RevokedAt r) ++ omitempty "expired_at" (ExpiredAt r)
    ++ omitempty "generation" (Generation r) ++ omitempty "previous_public_key" (PreviousPublicKey r)
    ++ omitempty "previous_management_token_sha256" (PreviousManagementTokenSHA256 r)
    ++ omitempty "pending_public_key" (PendingPublicKey r)
    ++ omitempty "pending_management_token_sha256" (PendingManagementTokenSHA256 r)
    ++ omitempty "operation_started_at" (OperationStartedAt r)) end.
  replace (omitempty "revoked_at" (RevokedAt r) ++ _)
    with (concat ((λ x, omitempty x.1 x.2) <$> optionals r))
    by (unfold optionals; cbn [fmap list_fmap concat fst snd]; by rewrite app_nil_r).
  assert (wf 0 (JObj (F ++ concat ((λ x, omitempty x.1 x.2) <$> optionals r)))) as Hw.
  { unfold texts in Ht. repeat apply List.Forall_cons_iff in Ht as [? Ht]. apply wf_obj; [done|].
    apply Forall_app. split.
    - unfold F. repeat constructor; try (by apply ascii_forallb); try done;
        try (apply wf_JInt; lia); [by apply Hdw|by apply Hew].
    - unfold optionals. cbn [fmap list_fmap concat fst snd].
      repeat (apply Forall_app; split; [apply wf_omit; [by apply ascii_forallb|done]|]). constructor. }
  assert (StrictJson.names_ok false 1 (JObj (F ++ concat ((λ x, omitempty x.1 x.2) <$> optionals r))) = true) as Hn.
  { cbn [StrictJson.names_ok]. rewrite !andb_true_iff. split_and!; [done| |].
    - apply bool_decide_eq_true. rewrite fmap_app.
      eapply sublist_NoDup; [|apply sublist_app; [reflexivity|apply omit_sublist]].
      apply (bool_decide_eq_true_1 _). vm_compute. reflexivity.
    - rewrite forallb_app. apply andb_true_iff. split.
      + unfold F. cbn [forallb]. rewrite Hdn, Hen by done. reflexivity.
      + unfold optionals. cbn [fmap list_fmap concat fst snd]. rewrite !forallb_app, !names_omit by done. done. }
  pose proof (parse_print _ [bz 10] Hw eq_refl) as Hparse.
  unfold StrictJson.RejectDuplicateObjectNames.
  rewrite (proj2 (StrictJson.inspect_iff false _)) by eauto 6.
  cbn [mbind result_bind]. unfold decode_document. rewrite Hparse. cbn [mbind result_bind decode].
  rewrite decode_members_app. unfold F. rewrite (decode_fixed r data enr Hwf Hdd Hed).
  cbn [mbind result_bind]. rewrite decode_optionals by done. done.
Qed.
