(* ===== verification/Server.v ===== *)
(** * internal/server: the host manifest and the authorized-keys format

    [server.go], [network.go], [manifest.go] and [authorized.go]: the gateway
    configuration and its validation, the published network, the strict
    manifest decoder, and the lines of the managed authorized_keys file, which
    are rendered here and re-read byte for byte by [ValidateAuthorizedKeys]. *)

From S2P Require Import Prelude GoStd Json StrictJson Time Host Locator Grant SshWire Kex.
From S2P Require Import ClientStore.
Import Time Json Netip Locator.

Module Server.
Import ClientStore.

Definition DefaultDedicatedUser : string := "warptweet".
Definition runtimePIDFile : string := "/run/warptweet/sshd/warptweet-sshd.pid".
Definition maxUserLength : Z := 32.
Definition sha256HexBytes : Z := 64.
Definition ErrInvalidConfig : string := "invalid WarpTweet server configuration".
Definition ServerHostKeyPath : string := "/var/lib/warptweet/ssh/ssh_host_mldsa44_ed25519_key".
Definition AuthorizedKeysDirectory : string := "/var/lib/warptweet/authorized_keys".
Definition ManifestKind : string := "warptweet.server-gateway".
Definition CurrentSchemaVersion : Z := 2.
Definition MaxManifestBytes : Z := Z.shiftl 1 20.

Definition eqs (a b : string) : bool := bool_decide (a = b).
Definition invalidField {A} (field what : string) : result A :=
  Err (EMsg (ErrInvalidConfig ++ ": " ++ field ++ ": " ++ what)).

(** ** Data *)

Record Endpoint := mkEndpoint_ { e_Address : Addr; e_Port : Z }.
Record BindEndpoint := mkBind { b_Address : Addr; b_Port : Z }.
Record ServiceEndpoints := mkService { Listen : BindEndpoint; Dial : DialEndpoint }.
Record Network := mkNetwork {
  PublishedEndpointGeneration : Z;
  n_Data : ServiceEndpoints;
  n_Enrollment : ServiceEndpoints;
}.
Record Config := mkConfig {
  Kind : string;
  SchemaVersion : Z;
  ProfileID : string;
  SSHDBinarySHA256 : string;
  OpenSSHBundleManifestSHA256 : string;
  Net : Network;
  Target : Endpoint;
  DedicatedUser : string;
  HostKeyPath : string;
  AuthorizedKeysPath : string;
}.

(** ** Addresses (net/netip) *)

Definition IsUnspecified (a : Addr) : bool := bool_decide (a = Addr4 0) || bool_decide (a = Addr6 0 "").
Definition IsMulticast (a : Addr) : bool :=
  match a with
  | Addr4 ip => Z.shiftr ip 28 =? 14
  | Addr6 ip _ => Z.shiftr ip 120 =? 255
  | AddrInvalid => false
  end.
Definition IsLoopback (a : Addr) : bool :=
  match a with
  | Addr4 ip => Z.shiftr ip 24 =? 127
  | Addr6 ip _ => ip =? 1
  | AddrInvalid => false
  end.
Definition IsLinkLocalUnicast (a : Addr) : bool :=
  match a with
  | Addr4 ip => Z.shiftr ip 16 =? 43518
  | Addr6 ip _ => Z.shiftr ip 118 =? 1018
  | AddrInvalid => false
  end.
Definition broadcast : Addr := Addr4 4294967295.

Definition canonicalAddress (address : Addr) : Addr := Unmap address.

(** ** Validation *)

Definition validateEndpoint (field : string) (endpoint : Endpoint) : result () :=
  let addrField := (field ++ ".Address")%string in
  if negb (IsValid (e_Address endpoint)) then invalidField addrField "must be a numeric IP address"
  else if negb (eqs (Zone (e_Address endpoint)) "") then invalidField addrField "IPv6 zones are not permitted"
  else
    let address := canonicalAddress (e_Address endpoint) in
    if IsUnspecified address then invalidField addrField "wildcard addresses are not permitted"
    else if IsMulticast address then invalidField addrField "multicast addresses are not permitted"
    else if Is4 address && bool_decide (address = broadcast)
    then invalidField addrField "the IPv4 broadcast address is not permitted"
    else if (e_Port endpoint <? 1) || (65535 <? e_Port endpoint)
    then invalidField (field ++ ".Port") "must be between 1 and 65535"
    else Ok ().

Definition isUserInitial (v : byte) : bool := (zb v =? 95) || ((97 <=? zb v) && (zb v <=? 122)).
Definition isUserContinuation (v : byte) : bool :=
  isUserInitial v || ((48 <=? zb v) && (zb v <=? 57)) || (zb v =? 45).

Definition validateDedicatedUser (user : string) : result () :=
  match to_bytes user with
  | [] => invalidField "DedicatedUser" "must not be empty"
  | first :: rest =>
      if maxUserLength <? slen user then invalidField "DedicatedUser" "must be at most 32 ASCII characters"
      else if negb (isUserInitial first)
      then invalidField "DedicatedUser" "must start with a lowercase ASCII letter or underscore"
      else if negb (forallb isUserContinuation rest)
      then invalidField "DedicatedUser" "contains an unsafe character"
      else if bool_decide (user ∈ ["root"; "daemon"; "nobody"; "sshd"; "_sshd"]%string)
      then invalidField "DedicatedUser" "is not a dedicated tunnel account"
      else Ok ()
  end.

Definition validateSHA256 (field value : string) : result () :=
  if negb (slen value =? sha256HexBytes)
     || negb (forallb (λ c, ((48 <=? zb c) && (zb c <=? 57)) || ((97 <=? zb c) && (zb c <=? 102))) (to_bytes value))
  then invalidField field "must contain exactly 64 lowercase hexadecimal characters" else Ok ().

Definition managedAuthorizedKeysPath (user : string) : string := AuthorizedKeysDirectory ++ "/" ++ user.

(** *** network.go *)

Definition NUL : string := to_string [bz 0].
Definition bindLocatorKey (endpoint : BindEndpoint) : string :=
  addr_string (canonicalAddress (b_Address endpoint)) ++ NUL ++ Strings.itoa (b_Port endpoint).
Definition dialLocatorKey (endpoint : DialEndpoint) : result string :=
  host ← Canonical (Host endpoint); Ok (host ++ NUL ++ Strings.itoa (Port endpoint))%string.

Definition AddrPort_ (endpoint : BindEndpoint) : AddrPort :=
  AddrPortFrom (canonicalAddress (b_Address endpoint)) (b_Port endpoint).

Definition PublishedSet (network : Network) : PublishedEndpointSet :=
  mkEndpointSet (PublishedEndpointGeneration network) (Dial (n_Data network)) (Dial (n_Enrollment network)).

Definition DialFromBind (listen : BindEndpoint) : DialEndpoint :=
  mkEndpoint (IPDialHost (b_Address listen)) (b_Port listen).

Definition PublicationNetwork (dataAddr : Addr) (dataPort enrollPort : Z) : Network :=
  let dataListen := mkBind dataAddr dataPort in
  let enrollListen := mkBind dataAddr enrollPort in
  mkNetwork 1 (mkService dataListen (DialFromBind dataListen)) (mkService enrollListen (DialFromBind enrollListen)).

Definition max_u64 : Z := 2 ^ 64 - 1.
Definition nextPublishedEndpointGeneration (current : Z) : result Z :=
  if current =? 0 then invalidField "Network.PublishedEndpointGeneration" "must be at least 1"
  else if current =? max_u64
  then invalidField "Network.PublishedEndpointGeneration" "cannot increment past uint64 maximum"
  else Ok (current + 1).

(** Returns the network and whether its locators changed. *)
Definition ProposeNetwork (dataListen enrollListen : BindEndpoint) (dataDial enrollDial : DialEndpoint)
    (stored : option Network) : result (Network * bool) :=
  let proposed generation := mkNetwork generation (mkService dataListen dataDial) (mkService enrollListen enrollDial) in
  match stored with
  | None => Ok (proposed 1, false)
  | Some stored =>
      let generation := PublishedEndpointGeneration stored in
      if generation =? 0 then invalidField "Network.PublishedEndpointGeneration" "must be at least 1"
      else if SamePublishedLocators (PublishedSet stored) (PublishedSet (proposed generation))
      then Ok (proposed generation, false)
      else next ← nextPublishedEndpointGeneration generation; Ok (proposed next, true)
  end.

Definition validateBind (field : string) (endpoint : BindEndpoint) : result () :=
  validateEndpoint field (mkEndpoint_ (b_Address endpoint) (b_Port endpoint)).

Definition validateDial (field : string) (bind : BindEndpoint) (dial : DialEndpoint) : result () :=
  let hostField := (field ++ ".Host")%string in
  if Port dial <? 1 then invalidField (field ++ ".Port") "must be between 1 and 65535"
  else
    let hasIP := IsValid (IP (Host dial)) in
    let hasName := negb (eqs (Name (Host dial)) "") in
    if Bool.eqb hasIP hasName then invalidField hostField "must be an IP literal or a DNS name"
    else
      let bindAddr := canonicalAddress (b_Address bind) in
      if hasName then
        match CanonicalDNSName (Name (Host dial)) with
        | Err e => invalidField hostField (errText e)
        | Ok _ => if IsLoopback bindAddr
                  then invalidField hostField "loopback bind cannot publish a non-loopback dial" else Ok ()
        end
      else if negb (eqs (Zone (IP (Host dial))) "") then invalidField hostField "IPv6 zones are not permitted"
      else
        let addr := canonicalAddress (IP (Host dial)) in
        if IsUnspecified addr then invalidField hostField "unspecified addresses are not permitted"
        else if IsMulticast addr then invalidField hostField "multicast addresses are not permitted"
        else if Is4 addr && bool_decide (addr = broadcast)
        then invalidField hostField "the IPv4 broadcast address is not permitted"
        else if IsLinkLocalUnicast addr then invalidField hostField "link-local dial locators are not permitted"
        else if IsLoopback addr && negb (IsLoopback bindAddr)
        then invalidField hostField "loopback dial requires a loopback bind"
        else if IsLoopback bindAddr && negb (IsLoopback addr)
        then invalidField hostField "loopback bind cannot publish a non-loopback dial"
        else Ok ().

Definition locatorKey (field : string) (dial : DialEndpoint) : result string :=
  match dialLocatorKey dial with Ok k => Ok k | Err e => invalidField field (errText e) end.

Definition validateNetwork (network : Network) : result () :=
  if PublishedEndpointGeneration network =? 0
  then invalidField "Network.PublishedEndpointGeneration" "must be at least 1"
  else
    validateBind "Network.Data.Listen" (Listen (n_Data network));;
    validateBind "Network.Enrollment.Listen" (Listen (n_Enrollment network));;
    if eqs (bindLocatorKey (Listen (n_Data network))) (bindLocatorKey (Listen (n_Enrollment network)))
    then invalidField "Network" "data listen and enrollment listen must not share the same canonical address:port"
    else
      validateDial "Network.Data.Dial" (Listen (n_Data network)) (Dial (n_Data network));;
      validateDial "Network.Enrollment.Dial" (Listen (n_Enrollment network)) (Dial (n_Enrollment network));;
      dataKey ← locatorKey "Network.Data.Dial" (Dial (n_Data network));
      enrollKey ← locatorKey "Network.Enrollment.Dial" (Dial (n_Enrollment network));
      if eqs dataKey enrollKey
      then invalidField "Network" "data dial and enrollment dial must not share the same canonical host:port"
      else Ok ().

(** *** server.go *)

Definition validate (config : Config) : result Profile.Profile :=
  if negb (eqs (Kind config) ManifestKind) then invalidField "Kind" "must be warptweet.server-gateway"
  else if negb (SchemaVersion config =? CurrentSchemaVersion) then invalidField "SchemaVersion" "must be 2"
  else match Profile.Lookup (ProfileID config) with
  | Err e => invalidField "ProfileID" (errText e)
  | Ok selectedProfile =>
      if bool_decide (Profile.Ciphers selectedProfile = []) then invalidField "ProfileID" "profile has no ciphers"
      else
        validateSHA256 "SSHDBinarySHA256" (SSHDBinarySHA256 config);;
        validateSHA256 "OpenSSHBundleManifestSHA256" (OpenSSHBundleManifestSHA256 config);;
        validateNetwork (Net config);;
        validateEndpoint "Target" (Target config);;
        validateDedicatedUser (DedicatedUser config);;
        if negb (eqs (HostKeyPath config) ServerHostKeyPath)
        then invalidField "HostKeyPath" "must be the fixed install path"
        else if negb (eqs (AuthorizedKeysPath config) (managedAuthorizedKeysPath (DedicatedUser config)))
        then invalidField "AuthorizedKeysPath" "must be the fixed install path for the dedicated user"
        else Ok selectedProfile
  end.

Definition Validate (config : Config) : result () := validate config;; Ok ().

(** The forwarding target of the policy. *)
Definition targetOf (config : Config) : AddrPort :=
  AddrPortFrom (canonicalAddress (e_Address (Target config))) (e_Port (Target config) mod 2 ^ 16).

Definition lines_text (lines : list string) : string :=
  String.concat (to_string [bz 10]) lines ++ to_string [bz 10].

Definition Render (config : Config) : result bytes :=
  selectedProfile ← validate config;
  let listen := Listen (n_Data (Net config)) in
  let listenAddress := canonicalAddress (b_Address listen) in
  let target := addrport_string (targetOf config) in
  let addressFamily := if Is4 listenAddress then "inet"%string else "inet6"%string in
  Ok (to_bytes (lines_text
    ["# Generated by WarpTweet. Do not edit.";
     "AddressFamily " ++ addressFamily;
     "Port " ++ Strings.itoa (b_Port listen);
     "ListenAddress " ++ addr_string listenAddress;
     "PidFile " ++ runtimePIDFile;
     "HostKey " ++ HostKeyPath config;
     "HostKeyAlgorithms " ++ Profile.AuthenticationKeyType selectedProfile;
     "KexAlgorithms " ++ Profile.KeyExchangeAlgorithm selectedProfile;
     "PubkeyAcceptedAlgorithms " ++ Profile.AuthenticationKeyType selectedProfile;
     "Ciphers " ++ String.concat "," (Profile.Ciphers selectedProfile);
     "RekeyLimit 512M 1h"; "Compression no"; "AuthenticationMethods publickey"; "PubkeyAuthentication yes";
     "PasswordAuthentication no"; "KbdInteractiveAuthentication no"; "HostbasedAuthentication no";
     "PermitEmptyPasswords no"; "PermitRootLogin no"; "StrictModes yes";
     "AllowUsers " ++ DedicatedUser config;
     "AuthorizedKeysFile " ++ AuthorizedKeysPath config;
     "MaxAuthTries 3"; "LoginGraceTime 30"; "MaxStartups 10:30:60"; "MaxSessions 0"; "AllowTcpForwarding local";
     "PermitOpen " ++ target ++ " 127.0.0.1:29723";
     "PermitListen none"; "AllowStreamLocalForwarding no"; "AllowAgentForwarding no"; "X11Forwarding no";
     "PermitTTY no"; "PermitTunnel no"; "GatewayPorts no"; "PermitUserRC no"; "PermitUserEnvironment no";
     "ExposeAuthInfo no"; "PrintLastLog no"; "PrintMotd no"; "UseDNS no"; "TCPKeepAlive no";
     "ClientAliveInterval 30"; "ClientAliveCountMax 3"; "VersionAddendum none"; "LogLevel VERBOSE"]%string)).

(** ** manifest.go *)

(** [netip.Addr.UnmarshalText]: the empty text is the zero address. *)
Definition address_field {A} (set : Addr → A → A) (v : json) (a : A) : result A :=
  match v with
  | JStr s => if eqs s "" then Ok (set AddrInvalid a) else addr ← ParseAddr s; Ok (set addr a)
  | JNull => Ok a
  | _ => typeError
  end.

Definition endpoint_Fields : list (field Endpoint) :=
  [("address", address_field (λ a e, mkEndpoint_ a (e_Port e)));
   ("port", int_field (λ p e, mkEndpoint_ (e_Address e) p))]%string.
Definition bindFields : list (field BindEndpoint) :=
  [("address", address_field (λ a e, mkBind a (b_Port e)));
   ("port", uint_field 16 (λ p e, mkBind (b_Address e) p))]%string.
Definition serviceFields : list (field ServiceEndpoints) :=
  [("listen", λ v e, l ← decode true bindFields v (Listen e); Ok (mkService l (Dial e)));
   ("dial", λ v e, d ← decode true endpointFields v (Dial e); Ok (mkService (Listen e) d))]%string.
Definition networkFields : list (field Network) :=
  [("published_endpoint_generation", uint_field 64 (λ g n, mkNetwork g (n_Data n) (n_Enrollment n)));
   ("data", λ v n, d ← decode true serviceFields v (n_Data n);
                   Ok (mkNetwork (PublishedEndpointGeneration n) d (n_Enrollment n)));
   ("enrollment", λ v n, d ← decode true serviceFields v (n_Enrollment n);
                         Ok (mkNetwork (PublishedEndpointGeneration n) (n_Data n) d))]%string.

Definition zeroService : ServiceEndpoints := mkService (mkBind AddrInvalid 0) zeroEndpoint.
Definition zeroConfig : Config :=
  mkConfig "" 0 "" "" "" (mkNetwork 0 zeroService zeroService) (mkEndpoint_ AddrInvalid 0) "" "" "".

Definition configFields : list (field Config) :=
  [("kind", string_field (λ v c, mkConfig v (SchemaVersion c) (ProfileID c) (SSHDBinarySHA256 c)
      (OpenSSHBundleManifestSHA256 c) (Net c) (Target c) (DedicatedUser c) (HostKeyPath c) (AuthorizedKeysPath c)));
   ("schema_version", int_field (λ v c, mkConfig (Kind c) v (ProfileID c) (SSHDBinarySHA256 c)
      (OpenSSHBundleManifestSHA256 c) (Net c) (Target c) (DedicatedUser c) (HostKeyPath c) (AuthorizedKeysPath c)));
   ("profile_id", string_field (λ v c, mkConfig (Kind c) (SchemaVersion c) v (SSHDBinarySHA256 c)
      (OpenSSHBundleManifestSHA256 c) (Net c) (Target c) (DedicatedUser c) (HostKeyPath c) (AuthorizedKeysPath c)));
   ("sshd_binary_sha256", string_field (λ v c, mkConfig (Kind c) (SchemaVersion c) (ProfileID c) v
      (OpenSSHBundleManifestSHA256 c) (Net c) (Target c) (DedicatedUser c) (HostKeyPath c) (AuthorizedKeysPath c)));
   ("openssh_bundle_manifest_sha256", string_field (λ v c, mkConfig (Kind c) (SchemaVersion c) (ProfileID c)
      (SSHDBinarySHA256 c) v (Net c) (Target c) (DedicatedUser c) (HostKeyPath c) (AuthorizedKeysPath c)));
   ("network", λ v c, n ← decode true networkFields v (Net c);
      Ok (mkConfig (Kind c) (SchemaVersion c) (ProfileID c) (SSHDBinarySHA256 c)
        (OpenSSHBundleManifestSHA256 c) n (Target c) (DedicatedUser c) (HostKeyPath c) (AuthorizedKeysPath c)));
   ("target", λ v c, t ← decode true endpoint_Fields v (Target c);
      Ok (mkConfig (Kind c) (SchemaVersion c) (ProfileID c) (SSHDBinarySHA256 c)
        (OpenSSHBundleManifestSHA256 c) (Net c) t (DedicatedUser c) (HostKeyPath c) (AuthorizedKeysPath c)));
   ("dedicated_user", string_field (λ v c, mkConfig (Kind c) (SchemaVersion c) (ProfileID c) (SSHDBinarySHA256 c)
      (OpenSSHBundleManifestSHA256 c) (Net c) (Target c) v (HostKeyPath c) (AuthorizedKeysPath c)));
   ("host_key_path", string_field (λ v c, mkConfig (Kind c) (SchemaVersion c) (ProfileID c) (SSHDBinarySHA256 c)
      (OpenSSHBundleManifestSHA256 c) (Net c) (Target c) (DedicatedUser c) v (AuthorizedKeysPath c)));
   ("authorized_keys_path", string_field (λ v c, mkConfig (Kind c) (SchemaVersion c) (ProfileID c)
      (SSHDBinarySHA256 c) (OpenSSHBundleManifestSHA256 c) (Net c) (Target c) (DedicatedUser c) (HostKeyPath c) v))]%string.

(** The document must be the only value: what follows it is white space. *)
Definition Decode (data : bytes) : result Config :=
  if MaxManifestBytes <? blen data then Err (EMsg "read server manifest: exceeds byte limit")
  else if negb (validString (to_string data)) then Err (EMsg "decode server manifest: JSON is not valid UTF-8")
  else match StrictJson.ValidateManifestObjectNames data with
  | Err e => Err (EMsg ("decode server manifest: " ++ errText e))
  | Ok _ =>
      '(v, rest) ← parse data;
      config ← decode true configFields v zeroConfig;
      if negb (bool_decide (skip_ws rest = [])) then Err (EMsg "decode server manifest: trailing data")
      else Validate config;; Ok config
  end.

Definition Load (H : hostEnv) (path : string) : HM Config :=
  if negb (Strings.has_suffix path ".wt") then hfail (EMsg "load server manifest: path must end in .wt")
  else data ← ReadFile H path; hlift (Decode data).

(** ** authorized.go *)

Definition MaxAuthorizedKeyInputBytes : Z := Z.shiftl 8 10.
Definition MaxAuthorizedKeysBytes : Z := Z.shiftl 1 20.
Definition ManagedClientMarker : string := "warptweet-managed-client".
Definition ErrInvalidAuthorizedKey : string := "invalid WarpTweet authorized key".
Definition invalidAuthorizedKey {A} (what : string) : result A :=
  Err (EMsg (ErrInvalidAuthorizedKey ++ ": " ++ what)).

(** [bytes.HasSuffix(line, c)] for one byte, and the line without it. *)
Definition dropLast (c : Z) (line : bytes) : option bytes :=
  match reverse line with
  | x :: r => if zb x =? c then Some (reverse r) else None
  | [] => None
  end.

Definition blankByte (c : byte) : bool := (zb c =? 32) || (zb c =? 9).

Definition onePublicKeyLine (input : bytes) : result bytes :=
  let line := match dropLast 10 input with
              | Some line => default line (dropLast 13 line)
              | None => input
              end in
  match line with
  | [] => invalidAuthorizedKey "public-key line is empty"
  | first :: _ =>
      if blankByte first || blankByte (List.last line first)
      then invalidAuthorizedKey "leading or trailing whitespace is not accepted"
      else if existsb (λ v, (zb v =? 13) || (zb v =? 10) || ((zb v <? 32) && negb (zb v =? 9)) || (zb v =? 127)) line
      then invalidAuthorizedKey "input must contain exactly one public-key line without control characters"
      else Ok line
  end.

Definition QUOTE : string := to_string [bz 34].

Definition managedAuthorizedKeyPrefixForTarget (algorithm : string) (target : AddrPort) (notAfter : Time)
    : result string :=
  if IsZero notAfter then invalidAuthorizedKey "authorization expiry is required"
  else match Grant.OpenSSHExpiryTime notAfter with
  | Err e => invalidAuthorizedKey ("authorization expiry: " ++ errText e)
  | Ok expiry =>
      Ok ("restrict,port-forwarding,permitopen=" ++ QUOTE ++ addrport_string target ++ QUOTE
          ++ ",permitopen=" ++ QUOTE ++ "127.0.0.1:29723" ++ QUOTE
          ++ ",expiry-time=" ++ QUOTE ++ expiry ++ QUOTE ++ " " ++ algorithm ++ " ")%string
  end.

Definition renderManagedAuthorizedKeyForTarget (algorithm blob : string) (target : AddrPort) (notAfter : Time)
    : result bytes :=
  prefix ← managedAuthorizedKeyPrefixForTarget algorithm target notAfter;
  Ok (to_bytes (prefix ++ blob ++ " " ++ ManagedClientMarker) ++ [bz 10]).

Definition renderManagedAuthorizedKey (config : Config) (algorithm blob : string) (notAfter : Time)
    : result bytes :=
  renderManagedAuthorizedKeyForTarget algorithm blob (targetOf config) notAfter.

(** The key field of one plain public-key line of the configured type. *)
Definition plainKeyBlob (config : Config) (publicKey : bytes) : result (string * string) :=
  if bool_decide (publicKey = []) then invalidAuthorizedKey "input is empty"
  else if MaxAuthorizedKeyInputBytes <? blen publicKey then invalidAuthorizedKey "input exceeds the limit"
  else match validate config with
  | Err e => Err (EMsg ("render authorized key: " ++ errText e))
  | Ok selectedProfile =>
      let algorithm := Profile.AuthenticationKeyType selectedProfile in
      line ← onePublicKeyLine publicKey;
      match Strings.fields (to_string line) with
      | kind :: blob :: _ =>
          if negb (eqs kind algorithm)
          then invalidAuthorizedKey "key type does not match; options are not accepted"
          else match SshWire.ValidatePublicKeyBlob blob algorithm (Profile.RawPublicKeyBytes selectedProfile) with
          | Err e => invalidAuthorizedKey ("validate public-key blob: " ++ errText e)
          | Ok _ => Ok (algorithm, blob)
          end
      | _ => invalidAuthorizedKey "plain public-key line must contain a key type and blob"
      end
  end.

Definition RenderAuthorizedKeyForTarget (config : Config) (publicKey : bytes) (target : AddrPort)
    (notAfter : Time) : result bytes :=
  '(algorithm, blob) ← plainKeyBlob config publicKey;
  renderManagedAuthorizedKeyForTarget algorithm blob target notAfter.

Definition RenderAuthorizedKey (config : Config) (publicKey : bytes) (notAfter : Time) : result bytes :=
  plainKeyBlob config publicKey;;
  RenderAuthorizedKeyForTarget config publicKey (targetOf config) notAfter.

(** *** Reading the file back *)

(** [strings.Index(s, sep)]: the text before and after the first [sep]. *)
Fixpoint cut (sep s : bytes) : option (bytes * bytes) :=
  if bool_decide (take (length sep) s = sep) then Some ([], drop (length sep) s)
  else match s with
       | [] => None
       | x :: r => match cut sep r with Some (a, b) => Some (x :: a, b) | None => None end
       end.

(** [time.Parse("20060102150405Z", s)]. *)
Definition parseExpiry (s : bytes) : option Time :=
  '(y, b) ← number 4 0 s;
  '(mo, b) ← number 2 0 b;
  '(d, b) ← number 2 0 b;
  '(h, b) ← number 2 0 b;
  '(mi, b) ← number 2 0 b;
  '(sec, b) ← number 2 0 b;
  b ← expect 90 b;
  if (1 <=? mo) && (mo <=? 12) && (1 <=? d) && (d <=? daysIn mo y)
     && (h <=? 23) && (mi <=? 59) && (sec <=? 59) && bool_decide (b = [])
  then Some (time_of (mkFields y mo d h mi sec 0)) else None.

Definition permitOpen : string := QUOTE ++ ",permitopen=" ++ QUOTE.
Definition expiryTime : string := QUOTE ++ ",expiry-time=" ++ QUOTE.
Definition notManaged {A} : result A := Err (EMsg "does not match the canonical managed format").

(** The expiry of the options field. *)
Definition parseOptions (config : Config) (options : string) : result Time :=
  let lead := to_bytes ("restrict,port-forwarding,permitopen=" ++ QUOTE) in
  if negb (bool_decide (take (length lead) (to_bytes options) = lead)) then notManaged
  else match cut (to_bytes permitOpen) (drop (length lead) (to_bytes options)) with
  | None => Err (EMsg "management permitopen is required")
  | Some (target, remainder) =>
      if negb (bool_decide (target = to_bytes (addrport_string (targetOf config))))
      then Err (EMsg "permitopen target does not match the server policy")
      else match cut (to_bytes expiryTime) remainder with
      | None => Err (EMsg "authorization expiry-time is required")
      | Some (management, expiryAndRest) =>
          if negb (bool_decide (management = to_bytes "127.0.0.1:29723"))
          then Err (EMsg "permitopen management target does not match the server policy")
          else match dropLast 34 expiryAndRest with
          | None => Err (EMsg "expiry-time is not quoted")
          | Some expiry =>
              if negb (bool_decide (is_Some (dropLast 90 expiry))) || negb (blen expiry =? 15)
              then Err (EMsg "expiry-time must be YYYYMMDDHHMMSSZ")
              else match parseExpiry expiry with
              | None => Err (EMsg "expiry-time is not a UTC timestamp")
              | Some notAfter => Ok notAfter
              end
          end
      end
  end.

Definition parseManagedAuthorizedKey (config : Config) (algorithm text : string) : result (Time * string) :=
  match Strings.fields text with
  | options :: kind :: blob :: comment =>
      if negb (eqs kind algorithm) then Err (EMsg "does not match the required key type")
      else if negb (Strings.has_prefix options ("restrict,port-forwarding,permitopen=" ++ QUOTE)) then notManaged
      else if negb (bool_decide (comment = [])) && negb (eqs (String.concat " " comment) ManagedClientMarker)
      then notManaged
      else notAfter ← parseOptions config options; Ok (notAfter, blob)
  | _ => notManaged
  end.

(** The checks on one line, with the blobs seen before. *)
Definition checkLine (config : Config) (selected : Profile.Profile) (seen : list string) (line : bytes)
    : result string :=
  let algorithm := Profile.AuthenticationKeyType selected in
  let text := to_string line in
  if bool_decide (line = []) || (MaxAuthorizedKeyInputBytes <? blen line) || bool_decide (bz 13 ∈ line)
  then invalidAuthorizedKey "line has invalid length or terminator"
  else if existsb (λ v, (zb v <? 32) || (zb v =? 127)) line
  then invalidAuthorizedKey "line contains a control character"
  else if negb (Strings.has_suffix text (" " ++ ManagedClientMarker))
  then invalidAuthorizedKey "line does not match the canonical managed format"
  else match parseManagedAuthorizedKey config algorithm text with
  | Err e => invalidAuthorizedKey ("line " ++ errText e)
  | Ok (notAfter, blob) =>
      if eqs blob "" || existsb blankByte (to_bytes blob)
      then invalidAuthorizedKey "line contains an invalid public-key blob field"
      else if bool_decide (blob ∈ seen) then invalidAuthorizedKey "line duplicates an earlier client key"
      else match SshWire.ValidatePublicKeyBlob blob algorithm (Profile.RawPublicKeyBytes selected) with
      | Err e => invalidAuthorizedKey ("validate public-key blob: " ++ errText e)
      | Ok _ =>
          match renderManagedAuthorizedKey config algorithm blob notAfter with
          | Err e => invalidAuthorizedKey (errText e)
          | Ok canonical =>
              if bool_decide (dropLast 10 canonical = Some line) then Ok blob
              else invalidAuthorizedKey "line is not byte-for-byte canonical"
          end
      end
  end.

Fixpoint checkLines (config : Config) (selected : Profile.Profile) (seen : list string) (lines : list bytes)
    : result () :=
  match lines with
  | [] => Ok ()
  | line :: rest =>
      blob ← checkLine config selected seen line;
      checkLines config selected (blob :: seen) rest
  end.

(** Returns the number of keys. *)
Definition ValidateAuthorizedKeys (config : Config) (contents : bytes) : result Z :=
  match validate config with
  | Err e => Err (EMsg ("validate authorized keys: " ++ errText e))
  | Ok selected =>
      if bool_decide (contents = []) then Ok 0
      else if MaxAuthorizedKeysBytes <? blen contents
      then invalidAuthorizedKey "authorized_keys input exceeds the limit"
      else match dropLast 10 contents with
      | None => invalidAuthorizedKey "authorized_keys entry must end with exactly one LF"
      | Some body =>
          let lines := Strings.split_bytes (bz 10) body in
          checkLines config selected [] lines;; Ok (Z.of_nat (length lines))
      end
  end.

End Server.
