(* ===== verification/ServerProps.v ===== *)
(** * What the authorized_keys file says

    The file [ValidateAuthorizedKeys] accepts is exactly a rendering of
    distinct client keys with their expiries, and the keys the data plane reads
    from it are exactly theirs. *)

From S2P Require Import Prelude GoStd Json Time Text Calendar Host Locator Grant SshWire Kex ClientStore Server.
Import Time Netip Locator Server Wire Kex.

(** ** Rendering *)

(** An entry: the key field and the expiry. *)
Definition entry : Type := string * Time.

Definition optionsField (target : AddrPort) (notAfter : Time) : bytes :=
  to_bytes ("restrict,port-forwarding,permitopen=" ++ QUOTE) ++ to_bytes (addrport_string target)
  ++ to_bytes permitOpen ++ to_bytes "127.0.0.1:29723" ++ to_bytes expiryTime
  ++ to_bytes match Grant.OpenSSHExpiryTime notAfter with Ok e => e | Err _ => "" end ++ [bz 34].

Definition managedLine (target : AddrPort) (e : entry) : bytes :=
  spaced [optionsField target e.2; to_bytes Algorithm; to_bytes e.1; to_bytes ManagedClientMarker].

(** The file with the given entries. *)
Definition managedFile (target : AddrPort) (entries : list entry) : bytes :=
  unlines (managedLine target <$> entries).

Lemma render_line target blob notAfter :
  IsZero notAfter = false →
  renderManagedAuthorizedKeyForTarget Algorithm blob target notAfter = Ok (managedLine target (blob, notAfter) ++ [bz 10]).
Proof.
  intros Hz. unfold renderManagedAuthorizedKeyForTarget, managedAuthorizedKeyPrefixForTarget, managedLine, optionsField.
  unfold Grant.OpenSSHExpiryTime. rewrite Hz. cbn [mbind result_bind fst snd].
  generalize (to_string (fixed 4 (year (fields_of notAfter)) ++ fixed 2 (month (fields_of notAfter))
    ++ fixed 2 (day (fields_of notAfter)) ++ fixed 2 (hour (fields_of notAfter))
    ++ fixed 2 (minute (fields_of notAfter)) ++ fixed 2 (second (fields_of notAfter)) ++ [bz 90])). intros expiry.
  unfold permitOpen, expiryTime. cbn [spaced]. rewrite !to_bytes_append, <- !app_assoc.
  change (to_bytes " ") with [bz 32]. change (to_bytes QUOTE) with [bz 34]. by rewrite Hz.
Qed.

(** ** Characters *)

(** Visible text without a double quote. *)
Definition plain (b : bytes) : Prop := Forall visible b ∧ bz 34 ∉ b.

Lemma plain_app a b : plain a → plain b → plain (a ++ b).
Proof. intros [Ha Hq] [Hb Hr]. split; [by apply Forall_app|]. by apply not_elem_of_app. Qed.

Lemma plain_text s :
  forallb (λ c, (33 <=? zb c) && (zb c <=? 126) && negb (zb c =? 34)) (to_bytes s) = true → plain (to_bytes s).
Proof.
  intros Hs. rewrite forallb_forall in Hs. split.
  - apply List.Forall_forall. intros c Hc. specialize (Hs c Hc). unfold visible. zbool. lia.
  - intros Hin%list_elem_of_In. specialize (Hs _ Hin). by vm_compute in Hs.
Qed.

Lemma digits_plain f : ∀ n acc, plain acc → plain (Strings.digits f n acc).
Proof.
  induction f as [|f IH]; intros n acc Ha; [done|]. cbn.
  assert (plain (bz (48 + n mod 10) :: acc)) as Ha'.
  { pose proof (Z.mod_pos_bound n 10 eq_refl). assert (zb (bz (48 + n mod 10)) = 48 + n mod 10) as Hz
      by (rewrite zb_bz, Z.mod_small; lia).
    destruct Ha as [Hv Hq]. split.
    - constructor; [unfold visible; lia|done].
    - apply not_elem_of_cons. split; [|done]. intros He. rewrite <- He in Hz.
      change (zb (bz 34)) with 34 in Hz. lia. }
  case_match; [done|]. by apply IH.
Qed.

Lemma itoa_plain n : plain (to_bytes (Strings.itoa n)).
Proof.
  unfold Strings.itoa. rewrite to_bytes_string.
  assert (plain []) as Hn by (split; [constructor|apply not_elem_of_nil]).
  destruct (n <? 0); [apply (plain_app [bz 45]); [by apply (plain_text "-")|]|]; by apply digits_plain.
Qed.

Lemma hex16_plain g : 0 ≤ g < 65536 → plain (to_bytes (hex16 g)).
Proof.
  intros Hg. unfold hex16. rewrite to_bytes_string.
  assert (∀ l, Forall (λ n, 0 ≤ n < 16) l → plain (Hex.digit <$> l)) as Hd.
  { intros l Hl. split.
    - apply Forall_fmap. eapply List.Forall_impl; [|exact Hl]. intros n. apply hex_digit_visible.
    - intros (n & He & Hn)%list_elem_of_fmap. rewrite List.Forall_forall in Hl.
      apply list_elem_of_In, Hl in Hn. unfold Hex.digit in He. destruct (n <? 10) eqn:E; zbool;
        apply (f_equal zb) in He; rewrite (zb_bz (_ + n)), Z.mod_small in He by lia;
        change (zb (bz 34)) with 34 in He; lia. }
  apply Hd. repeat case_match; cbn [drop]; repeat constructor; dlia.
Qed.

Lemma v4_plain ip : plain (to_bytes (v4_string ip)).
Proof.
  unfold v4_string. rewrite !to_bytes_append. repeat apply plain_app; try apply itoa_plain; by apply plain_text.
Qed.

Lemma concat_plain l : Forall (λ s, plain (to_bytes s)) l → plain (to_bytes (String.concat "" l)).
Proof.
  assert (plain (to_bytes "")) as Hn by (by apply plain_text).
  induction 1 as [|s l Hs _ IH]; [done|]. destruct l as [|s' l]; [done|].
  change (String.concat "" (s :: s' :: l)) with (s ++ "" ++ String.concat "" (s' :: l))%string.
  rewrite !to_bytes_append. by repeat apply plain_app.
Qed.

Lemma v6_plain ip : plain (to_bytes (v6_string ip)).
Proof.
  unfold v6_string. destruct (zero_span _) as [s e]. apply concat_plain, Forall_fmap, List.Forall_forall.
  intros i _. unfold compose. cbv beta.
  assert (∀ i, plain (to_bytes (hex16 (default 0 (v6_groups ip !! i))))) as Hg.
  { intros j. apply hex16_plain. unfold v6_groups. rewrite list_lookup_fmap.
    destruct (seq 0 8 !! j); cbn; [dlia|lia]. }
  repeat case_match; try (by apply plain_text); try apply Hg.
  rewrite to_bytes_append. apply plain_app; [by apply plain_text|apply Hg].
Qed.

Lemma addrport_plain p :
  IsValid (ap_addr p) = true → Zone (ap_addr p) = ""%string → plain (to_bytes (addrport_string p)).
Proof.
  destruct p as [a port]. cbn [ap_addr]. intros Hv Hz. unfold addrport_string. cbn [ap_addr ap_port].
  destruct a as [|ip|ip zone]; [done| |].
  - rewrite !to_bytes_append. repeat apply plain_app; [apply v4_plain|by apply plain_text|apply itoa_plain].
  - cbn in Hz. subst zone. unfold addr_string. rewrite bool_decide_eq_true_2 by done.
    rewrite !to_bytes_append. repeat apply plain_app; try apply itoa_plain; try (by apply plain_text).
    destruct (Is4In6 _); [rewrite to_bytes_append; apply plain_app; [by apply plain_text|apply v4_plain]|apply v6_plain].
Qed.

(** ** Parsing what was rendered *)

Lemma dropLast_snoc c b : 0 ≤ c < 256 → dropLast c (b ++ [bz c]) = Some b.
Proof.
  intros Hc. unfold dropLast. rewrite reverse_snoc, zb_bz, Z.mod_small, Z.eqb_refl by lia.
  by rewrite reverse_involutive.
Qed.

Lemma dropLast_Some c b r : dropLast c b = Some r → b = r ++ [bz c].
Proof.
  unfold dropLast. destruct (reverse b) as [|x l] eqn:Hr; [done|]. case_match eqn:Hz; [|done]. zbool.
  intros [= <-]. apply (f_equal reverse) in Hr. rewrite reverse_involutive in Hr. subst b.
  rewrite reverse_cons. do 2 f_equal. by rewrite <- Hz, bz_zb.
Qed.

(** The first separator, when it starts with a byte the text before it lacks. *)
Lemma cut_first x sep a rest : x ∉ a → cut (x :: sep) (a ++ (x :: sep) ++ rest) = Some (a, rest).
Proof.
  intros Ha. induction a as [|y a IH].
  - change ([] ++ (x :: sep) ++ rest) with ((x :: sep) ++ rest).
    assert (∀ s r, cut s (s ++ r) = Some ([], r)) as Hc; [|apply Hc]. intros s r.
    unfold cut. destruct (s ++ r) as [|y l] eqn:Hs; rewrite <- Hs, bool_decide_eq_true_2, drop_app_length;
      try done; apply take_app_length.
  - apply not_elem_of_cons in Ha as [Hy Ha]. specialize (IH Ha).
    change ((y :: a) ++ (x :: sep) ++ rest) with (y :: (a ++ (x :: sep) ++ rest)).
    set (tl := a ++ (x :: sep) ++ rest) in *. cbn [cut length take].
    rewrite bool_decide_eq_false_2 by congruence. by rewrite IH.
Qed.

(** Expiries the file can carry. *)
Definition expiry_ok (t : Time) : Prop := IsZero t = false ∧ 0 ≤ Year t ≤ 9999 ∧ nanosecond (fields_of t) = 0.

Definition expiryText (t : Time) : bytes :=
  let f := fields_of t in
  fixed 4 (year f) ++ fixed 2 (month f) ++ fixed 2 (day f) ++ fixed 2 (hour f)
    ++ fixed 2 (minute f) ++ fixed 2 (second f) ++ [bz 90].

Lemma parseExpiry_text t : expiry_ok t → parseExpiry (expiryText t) = Some t.
Proof.
  intros (_ & Hy & Hns). unfold Year in Hy. pose proof (time_of_fields t) as Hf. unfold expiryText. cbv zeta in *.
  destruct (fields_of t) as [y mo d h mi s ns]. cbn [year month day hour minute second nanosecond] in *. subst ns.
  destruct Hf as (Ht & Hmo & Hd & Hh & Hmi & Hs & _).
  assert (daysIn mo y ≤ 31) as H31 by (unfold daysIn; repeat case_match; lia).
  unfold parseExpiry.
  repeat first [rewrite number_fixed0 by (cbn; lia) | rewrite expect_lit by lia | progress cbn [mbind option_bind app]].
  repeat (rewrite (proj2 (Z.leb_le _ _)) by lia). cbn [andb].
  rewrite bool_decide_eq_true_2 by done. by rewrite Ht.
Qed.

Lemma parseExpiry_range b t : parseExpiry b = Some t → 0 ≤ Year t ≤ 9999 ∧ nanosecond (fields_of t) = 0.
Proof.
  unfold parseExpiry. intros H.
  repeat match type of H with
  | (mbind _ (number ?n 0 ?b)) = _ =>
      let v := fresh "v" in let r := fresh "r" in let E := fresh "E" in
      destruct (number n 0 b) as [[v r]|] eqn:E; cbn [mbind option_bind] in H; [apply number_range in E|done]
  | (mbind _ (expect ?n ?b)) = _ => destruct (expect n b); cbn [mbind option_bind] in H; [|done]
  end.
  destruct (_ && _) eqn:Hc; [|done]. injection H as <-.
  rewrite !andb_true_iff, !Z.leb_le in Hc. destruct_and!. unfold Year.
  rewrite fields_of_time; cbn [year nanosecond]; [lia|]. unfold fields_ok, Second. cbn. lia.
Qed.

Lemma expiryText_fixed t : ∃ d, expiryText t = d ++ [bz 90] ∧ length d = 14%nat ∧ Forall visible d.
Proof.
  unfold expiryText. cbv zeta. set (f := fields_of t).
  exists (fixed 4 (year f) ++ fixed 2 (month f) ++ fixed 2 (day f) ++ fixed 2 (hour f)
            ++ fixed 2 (minute f) ++ fixed 2 (second f)).
  split_and!; [by rewrite <- !app_assoc|by rewrite !length_app, !length_fixed|].
  rewrite !Forall_app. split_and!; apply fixed_visible.
Qed.

Lemma options_expiry target t :
  IsZero t = false →
  optionsField target t =
    to_bytes ("restrict,port-forwarding,permitopen=" ++ QUOTE) ++ to_bytes (addrport_string target)
    ++ to_bytes permitOpen ++ to_bytes "127.0.0.1:29723" ++ to_bytes expiryTime ++ expiryText t ++ [bz 34].
Proof.
  intros Hz. unfold optionsField, Grant.OpenSSHExpiryTime. rewrite Hz. cbn [to_string]. by rewrite to_bytes_string.
Qed.

Lemma plain_no_quote s : plain (to_bytes s) → bz 34 ∉ to_bytes s.
Proof. by intros [_ Hq]. Qed.

Lemma options_word target t :
  IsValid (ap_addr target) = true → Zone (ap_addr target) = ""%string → IsZero t = false →
  word (optionsField target t).
Proof.
  intros Hv Hz Ht. split; [done|]. rewrite options_expiry by done.
  destruct (addrport_plain target Hv Hz) as [Hp _]. destruct (expiryText_fixed t) as (d & -> & _ & Hd).
  rewrite !Forall_app. split_and!; try done; by apply visible_forallb.
Qed.

Lemma marker_word : word (to_bytes ManagedClientMarker).
Proof. split; [done|]. by apply visible_forallb. Qed.
Lemma algorithm_word : word (to_bytes Algorithm).
Proof. split; [done|]. by apply visible_forallb. Qed.

Lemma to_bytes_string_suffix target e :
  Strings.has_suffix (to_string (managedLine target e)) (" " ++ ManagedClientMarker) = true.
Proof.
  unfold Strings.has_suffix, managedLine. cbn [spaced]. set (m := to_bytes ManagedClientMarker).
  rewrite !app_assoc, <- (app_assoc _ [bz 32] m), to_bytes_string. set (p := _ ++ to_bytes e.1).
  assert (String.length (to_string (p ++ [bz 32] ++ m)) = (length p + 25)%nat) as ->
    by (rewrite <- length_to_bytes, to_bytes_string, length_app; done).
  change (String.length (" " ++ ManagedClientMarker)) with 25%nat.
  rewrite (proj2 (Nat.leb_le _ _)) by lia. replace (length p + 25 - 25)%nat with (length p) by lia.
  rewrite drop_app_length. by apply bool_decide_eq_true_2.
Qed.

(** *** Lines for a numeric target *)

(** Entries the policy allows: a canonical blob of the one key type, and an
    expiry to the second. *)
Definition entry_ok (e : entry) : Prop :=
  (∃ raw, blen raw = Profile.RawPublicKeyBytes Profile.current ∧
          e.1 = Base64.encode_to_string (SshWire.key_blob Algorithm raw)) ∧ expiry_ok e.2.

(** What reading the keys needs of an entry. *)
Definition entry_key (e : entry) : Prop :=
  (∃ raw, blen raw = Profile.RawPublicKeyBytes Profile.current ∧
          e.1 = Base64.encode_to_string (SshWire.key_blob Algorithm raw)) ∧ IsZero e.2 = false.

Lemma entry_ok_key e : entry_ok e → entry_key e.
Proof. by intros [Hb [Hz _]]. Qed.

Lemma blob_valid blob :
  SshWire.ValidatePublicKeyBlob blob Algorithm (Profile.RawPublicKeyBytes Profile.current) = Ok () ↔
  ∃ raw, blen raw = Profile.RawPublicKeyBytes Profile.current ∧
         blob = Base64.encode_to_string (SshWire.key_blob Algorithm raw).
Proof.
  rewrite SshWire.ValidatePublicKeyBlob_exact by (by vm_compute). split; [by intros [_ ?]|by intros ?].
Qed.

Lemma blob_word raw : word (to_bytes (Base64.encode_to_string (SshWire.key_blob Algorithm raw))).
Proof.
  unfold Base64.encode_to_string. rewrite to_bytes_string. split; [|apply base64_visible].
  intros He. apply (f_equal blen) in He. rewrite Base64.length_encode, SshWire.blen_key_blob in He.
  unfold Base64.encoded_len in He. pose proof (blen_nonneg raw) as Hn. change (slen Algorithm) with 31 in He.
  change (blen []) with 0 in He. dlia.
Qed.

Section lines.
Context (target : AddrPort).
Hypothesis Htarget : IsValid (ap_addr target) = true ∧ Zone (ap_addr target) = ""%string.

Lemma line_words e : entry_key e →
  Forall word [optionsField target e.2; to_bytes Algorithm; to_bytes e.1; to_bytes ManagedClientMarker].
Proof using Htarget.
  intros [(raw & _ & Hb) Hz]. destruct Htarget as [Hv Hzone].
  constructor; [by apply options_word|]. constructor; [apply algorithm_word|].
  constructor; [rewrite Hb; apply blob_word|]. constructor; [apply marker_word|constructor].
Qed.

Lemma line_bytes e : entry_key e →
  Forall (λ c, zb c = 32 ∨ visible c) (managedLine target e) ∧ managedLine target e ≠ [].
Proof using Htarget.
  intros He. pose proof (line_words e He) as Hw. unfold managedLine. split.
  - generalize dependent [optionsField target e.2; to_bytes Algorithm; to_bytes e.1; to_bytes ManagedClientMarker].
    induction 1 as [|w ws [_ Hv] _ IH]; [constructor|].
    assert (Forall (λ c, zb c = 32 ∨ visible c) w) by (eapply List.Forall_impl; [|exact Hv]; auto).
    destruct ws; [done|]. rewrite spaced_cons by done. apply Forall_app. split; [done|]. constructor; [by left|done].
  - apply List.Forall_cons_iff in Hw as [[Hne _] _]. cbn [spaced]. intros [? _]%app_eq_nil. done.
Qed.

Lemma line_no_newline e : entry_key e → bz 10 ∉ managedLine target e.
Proof using Htarget.
  intros He Hin. destruct (line_bytes e He) as [Hc _]. rewrite List.Forall_forall in Hc.
  apply list_elem_of_In, Hc in Hin. unfold visible in Hin. change (zb (bz 10)) with 10 in Hin. lia.
Qed.

Lemma lines_no_newline entries :
  Forall entry_key entries → Forall (λ l, bz 10 ∉ l) (managedLine target <$> entries).
Proof using Htarget.
  intros Hok. apply Forall_fmap. eapply List.Forall_impl; [|exact Hok]. intros e. apply line_no_newline.
Qed.

(** *** What the data plane reads *)

Lemma decode_blob raw :
  blen raw < 2 ^ 32 → decodePublicBlob (Base64.encode_to_string (SshWire.key_blob Algorithm raw)) = Ok raw.
Proof.
  intros Hr. unfold decodePublicBlob. rewrite Base64.decode_encode. cbn [mbind result_bind].
  unfold SshWire.key_blob. rewrite SshWire.AppendString_app.
  change (SshWire.AppendString [] ?x) with (sshString x).
  rewrite consumeSSHString_sshString by done. cbn [mbind result_bind]. rewrite to_string_bytes, bool_decide_eq_true_2 by done.
  cbn [negb]. rewrite <- (app_nil_r (sshString raw)), consumeSSHString_sshString by done. done.
Qed.

Definition entry_raw (e : entry) (raw : bytes) : Prop :=
  e.1 = Base64.encode_to_string (SshWire.key_blob Algorithm raw).

Lemma keys_of_lines entries rest :
  Forall entry_key entries →
  ∃ raws, Forall2 entry_raw entries raws ∧
    authorizedLines ((to_string <$> (managedLine target <$> entries)) ++ rest) =
      (keys ← authorizedLines rest; Ok (raws ++ keys)).
Proof using Htarget.
  induction 1 as [|e entries He _ (raws & Hraws & IH)].
  - exists []. split; [constructor|]. cbn. by destruct (authorizedLines rest).
  - pose proof He as [(raw & Hsize & Hb) _]. exists (raw :: raws). split; [by constructor|].
    cbn [fmap list_fmap app authorizedLines]. pose proof (line_words e He) as Hw.
    assert (Strings.trim_space (to_string (managedLine target e)) = to_string (managedLine target e)) as ->.
    { unfold managedLine. change [?a; ?b; ?c; ?d] with (a :: [b; c] ++ [d]). by apply trim_spaced. }
    rewrite bool_decide_eq_false_2.
    2:{ intros E. apply (f_equal to_bytes) in E. rewrite to_bytes_string in E. by apply line_bytes in He as [_ []]. }
    unfold managedLine at 1. rewrite fields_spaced by done. cbn [fmap list_fmap]. rewrite !to_string_bytes.
    cbn [keyField]. rewrite (bool_decide_eq_false_2 (to_string (optionsField target e.2) = Algorithm)).
    2:{ intros E. apply (f_equal to_bytes) in E. rewrite to_bytes_string in E. apply (f_equal head) in E.
        by vm_compute in E. }
    rewrite bool_decide_eq_true_2 by done. cbn [head hd_error]. rewrite Hb, decode_blob by (rewrite Hsize; done).
    cbn [mbind result_bind]. rewrite IH. by destruct (authorizedLines rest).
Qed.

(** The keys the data plane reads from a managed file. *)
Lemma rawKeys_managed entries :
  Forall entry_key entries →
  ∃ raws, Forall2 entry_raw entries raws ∧ authorizedRawKeys (managedFile target entries) = Ok raws.
Proof using Htarget.
  intros Hok. destruct (keys_of_lines entries [""%string] Hok) as (raws & Hraws & Hk). exists raws. split; [done|].
  unfold authorizedRawKeys, Strings.split, managedFile. rewrite to_bytes_string.
  assert (Strings.split_bytes (bz 10) (unlines (managedLine target <$> entries)) = (managedLine target <$> entries) ++ [[]]) as ->.
  { pose proof (lines_no_newline entries Hok) as Hn. clear Hk Hraws. revert Hn.
    generalize (managedLine target <$> entries). induction 1 as [|l ls Hl _ IH]; [done|].
    unfold unlines in *. cbn [fmap list_fmap concat app]. rewrite <- app_assoc. cbn [app].
    rewrite split_bytes_cut by done. by rewrite IH. }
  rewrite fmap_app. change (to_string <$> [[]]) with [""%string]. rewrite Hk. change (authorizedLines [""%string]) with (Ok (@nil bytes)). cbn. by rewrite app_nil_r.
Qed.

End lines.

Section config.
Context (config : Config) (selected : Profile.Profile).
Hypothesis Hvalid : validate config = Ok selected.

Let target : AddrPort := targetOf config.

Lemma validate_Ok :
  selected = Profile.current ∧ validateNetwork (Net config) = Ok () ∧
  validateEndpoint "Target" (Target config) = Ok () ∧ validateDedicatedUser (DedicatedUser config) = Ok () ∧
  AuthorizedKeysPath config = managedAuthorizedKeysPath (DedicatedUser config).
Proof using Hvalid.
  pose proof Hvalid as Hv. unfold validate in Hv. do 2 (case_match; [done|]). 
  destruct (Profile.Lookup _) as [p|] eqn:Hl; [|done]. unfold Profile.Lookup in Hl.
  destruct (negb (bool_decide (ProfileID config = Profile.CurrentID))); [done|]. apply Ok_inj in Hl as <-.
  case_match; [done|].
  apply bind_Ok in Hv as ([] & _ & Hv). apply bind_Ok in Hv as ([] & _ & Hv).
  apply bind_Ok in Hv as ([] & Hn & Hv). apply bind_Ok in Hv as ([] & Ht & Hv).
  apply bind_Ok in Hv as ([] & Hu & Hv). case_match; [done|]. case_match eqn:Hp; [done|]. injection Hv as <-.
  split_and!; try done. by apply negb_false_iff, bool_decide_eq_true in Hp.
Qed.

Lemma selected_current : selected = Profile.current.
Proof using Hvalid. apply validate_Ok. Qed.

Lemma target_numeric : IsValid (ap_addr target) = true ∧ Zone (ap_addr target) = ""%string.
Proof using Hvalid.
  destruct validate_Ok as (_ & _ & Ht & _).
  clear Hvalid. revert Ht. unfold validateEndpoint, target, targetOf, canonicalAddress, eqs. cbn [ap_addr].
  destruct (e_Address (Target config)) as [|ip|ip z]; cbn [IsValid Zone Unmap negb]; [done|done|].
  case_match eqn:Hz; [done|]. intros _.
  apply negb_false_iff, bool_decide_eq_true in Hz. subst z. by destruct (Is4In6 (Addr6 ip "")).
Qed.

Lemma parseOptions_line t : expiry_ok t → parseOptions config (to_string (optionsField target t)) = Ok t.
Proof using Hvalid.
  intros Ht. pose proof Ht as [Hz _]. unfold parseOptions. rewrite to_bytes_string, options_expiry by done.
  destruct target_numeric as [Hv Hzone]. destruct (addrport_plain target Hv Hzone) as [_ Hq].
  set (lead := to_bytes ("restrict,port-forwarding,permitopen=" ++ QUOTE)).
  rewrite take_app_length, bool_decide_eq_true_2, drop_app_length by done. cbn [negb].
  change (to_bytes permitOpen) with (bz 34 :: to_bytes (",permitopen=" ++ QUOTE)).
  rewrite cut_first by done. rewrite bool_decide_eq_true_2 by done. cbn [negb].
  change (to_bytes expiryTime) with (bz 34 :: to_bytes (",expiry-time=" ++ QUOTE)).
  rewrite cut_first by (by apply plain_no_quote, plain_text). rewrite bool_decide_eq_true_2 by done. cbn [negb].
  rewrite dropLast_snoc by lia. rewrite parseExpiry_text by done.
  destruct (expiryText_fixed t) as (d & -> & Hl & _). rewrite bool_decide_eq_true_2.
  - by rewrite blen_app; unfold blen; rewrite Hl.
  - rewrite dropLast_snoc by lia. by eexists.
Qed.

Lemma parse_line e :
  entry_ok e → parseManagedAuthorizedKey config Algorithm (to_string (managedLine target e)) = Ok (e.2, e.1).
Proof using Hvalid.
  intros He. unfold parseManagedAuthorizedKey, managedLine. rewrite fields_spaced by (by apply line_words, entry_ok_key; [apply target_numeric|]).
  cbn [fmap list_fmap]. rewrite !to_string_bytes. unfold eqs. rewrite bool_decide_eq_true_2 by done. cbn [negb].
  pose proof He as [_ Ht]. pose proof Ht as [Hz _].
  assert (Strings.has_prefix (to_string (optionsField target e.2))
    ("restrict,port-forwarding,permitopen=" ++ QUOTE) = true) as ->.
  { unfold Strings.has_prefix. rewrite to_bytes_string, options_expiry by done. by apply bool_decide_eq_true_2. }
  change (String.concat " " [ManagedClientMarker]) with ManagedClientMarker.
  rewrite (bool_decide_eq_true_2 (ManagedClientMarker = ManagedClientMarker)) by done. cbn [negb andb].
  rewrite andb_false_r, parseOptions_line by done. cbn [mbind result_bind]. by destruct e.
Qed.

(** *** One line *)

(** An expiry that was read is one the format can carry. *)
Lemma parse_range line t blob :
  parseManagedAuthorizedKey config Algorithm (to_string line) = Ok (t, blob) →
  0 ≤ Year t ≤ 9999 ∧ nanosecond (fields_of t) = 0.
Proof.
  intros Hp. enough (∃ b, parseExpiry b = Some t) as [b Hb] by (by eapply parseExpiry_range).
  unfold parseManagedAuthorizedKey in Hp. repeat (case_match; try done).
  apply bind_Ok in Hp as (t' & Ho & [= <- <-]). unfold parseOptions in Ho. repeat (case_match; try done).
  injection Ho as <-. eauto.
Qed.

Lemma checkLine_exact seen line blob :
  checkLine config selected seen line = Ok blob ↔
  (blob ∉ seen) ∧ blen line ≤ MaxAuthorizedKeyInputBytes ∧
  ∃ t, entry_ok (blob, t) ∧ line = managedLine target (blob, t).
Proof using Hvalid.
  unfold checkLine. rewrite selected_current.
  change (Profile.AuthenticationKeyType Profile.current) with Algorithm. split.
  - destruct (bool_decide (line = []) || _ || _) eqn:E1; [done|]. destruct (existsb _ line); [done|].
    destruct (negb (Strings.has_suffix _ _)); [done|].
    destruct (parseManagedAuthorizedKey _ _ _) as [[t b]|] eqn:Hp; [|done].
    destruct (eqs b "" || _); [done|]. destruct (bool_decide (b ∈ seen)) eqn:Hs; [done|].
    destruct (SshWire.ValidatePublicKeyBlob _ _ _) as [[]|] eqn:Hb; [|done].
    destruct (renderManagedAuthorizedKey _ _ _ _) as [canonical|] eqn:Hr; [|done].
    destruct (bool_decide (dropLast 10 canonical = Some line)) eqn:Hl; [|done]. intros [= <-].
    apply bool_decide_eq_false in Hs. apply bool_decide_eq_true in Hl.
    apply orb_false_iff in E1 as [[_ E1]%orb_false_iff _]. apply Z.ltb_ge in E1. split_and!; [done|done|].
    assert (IsZero t = false) as Hz.
    { destruct (IsZero t) eqn:Hz; [|done]. unfold renderManagedAuthorizedKey, renderManagedAuthorizedKeyForTarget,
        managedAuthorizedKeyPrefixForTarget in Hr. by rewrite Hz in Hr. }
    unfold renderManagedAuthorizedKey in Hr. rewrite render_line in Hr by done. apply Ok_inj in Hr as <-.
    rewrite dropLast_snoc in Hl by lia. exists t. split; [|by injection Hl as <-].
    split; [by apply blob_valid|]. split; [done|]. apply (parse_range line t b). by rewrite Hp.
  - intros (Hs & Hlen & t & He & ->). destruct (line_bytes _ target_numeric _ (entry_ok_key _ He)) as [Hc Hne].
    rewrite bool_decide_eq_false_2 by done. rewrite (proj2 (Z.ltb_ge _ _)) by done.
    rewrite List.Forall_forall in Hc. rewrite (bool_decide_eq_false_2 (bz 13 ∈ _)).
    2:{ intros Hin%list_elem_of_In%Hc. unfold visible in Hin. change (zb (bz 13)) with 13 in Hin. lia. }
    cbn [orb]. destruct (existsb _ (managedLine target (blob, t))) eqn:Hx.
    { apply existsb_exists in Hx as (c & Hin%Hc & Hx). unfold visible in Hin. zbool; lia. }
    rewrite to_bytes_string_suffix. cbn [negb]. rewrite parse_line by done. cbn [fst snd].
    destruct He as [Hblob Ht]. cbn [fst snd] in Hblob, Ht. rewrite (proj2 (blob_valid _) Hblob).
    destruct Hblob as (raw & _ & Hraw). pose proof (blob_word raw) as [Hbn Hbv]. rewrite <- Hraw in Hbn, Hbv.
    unfold eqs. rewrite bool_decide_eq_false_2 by (intros ->; done). cbn [orb].
    destruct (existsb blankByte _) eqn:Hx2.
    { apply existsb_exists in Hx2 as (c & Hin & Hx2). rewrite List.Forall_forall in Hbv. apply Hbv in Hin.
      unfold visible, blankByte in *. zbool; lia. }
    rewrite bool_decide_eq_false_2 by done. unfold renderManagedAuthorizedKey.
    destruct Ht as [Hz _]. rewrite render_line by done. rewrite dropLast_snoc by lia.
    by rewrite bool_decide_eq_true_2.
Qed.

Definition line_short (e : entry) : Prop := blen (managedLine target e) ≤ MaxAuthorizedKeyInputBytes.

Lemma checkLines_exact lines : ∀ seen,
  checkLines config selected seen lines = Ok () ↔
  ∃ entries, lines = managedLine target <$> entries ∧ Forall entry_ok entries ∧ Forall line_short entries ∧
    NoDup entries.*1 ∧ Forall (λ e, e.1 ∉ seen) entries.
Proof using Hvalid.
  induction lines as [|line lines IH]; intros seen.
  - split; [|done]. intros _. exists []. split_and!; constructor.
  - cbn [checkLines]. split.
    + intros (blob & Hc & Hr)%bind_Ok. apply checkLine_exact in Hc as (Hs & Hl & t & He & ->).
      apply IH in Hr as (entries & -> & Hok & Hshort & Hnd & Hseen). exists ((blob, t) :: entries).
      split_and!; [done|by constructor|by constructor| |].
      * constructor; [|done]. intros ([b' t'] & E & Hin)%list_elem_of_fmap. cbn in E. subst b'.
        rewrite List.Forall_forall in Hseen. apply list_elem_of_In, Hseen in Hin. apply Hin. by left.
      * constructor; [done|]. eapply List.Forall_impl; [|exact Hseen]. intros e Hn Hin. apply Hn. by right.
    + intros (entries & E & Hok & Hshort & Hnd & Hseen). destruct entries as [|[blob t] entries]; [done|].
      injection E as -> ->. apply List.Forall_cons_iff in Hok as [He Hok].
      apply List.Forall_cons_iff in Hshort as [Hl Hshort]. apply List.Forall_cons_iff in Hseen as [Hs Hseen].
      cbn [fmap list_fmap fst] in Hnd. apply list.NoDup_cons in Hnd as [Hn Hnd].
      rewrite (proj2 (checkLine_exact seen (managedLine target (blob, t)) blob)) by eauto. cbn [mbind result_bind].
      apply IH. exists entries. split_and!; try done. apply List.Forall_forall. intros e Hin.
      rewrite List.Forall_forall in Hseen. apply not_elem_of_cons. split; [|by apply Hseen].
      intros E. apply Hn. rewrite <- E. apply list_elem_of_fmap. exists e. split; [done|by apply list_elem_of_In].
Qed.

End config.

(** C13: the validator accepts exactly the rendered files.
    [ValidateAuthorizedKeys] reports [n] keys if and only if the configuration
    is valid and the file is, byte for byte, the rendering of [n] entries with
    distinct canonical keys of the one key type, each bound to the configured
    target and an expiry to the second, within the size limits. *)
Theorem authorized_file_exact config contents n :
  ValidateAuthorizedKeys config contents = Ok n ↔
  ∃ selected entries, validate config = Ok selected ∧
    contents = managedFile (targetOf config) entries ∧ n = Z.of_nat (length entries) ∧
    Forall entry_ok entries ∧ NoDup entries.*1 ∧ Forall (line_short config) entries ∧
    blen contents ≤ MaxAuthorizedKeysBytes.
Proof.
  unfold ValidateAuthorizedKeys. destruct (validate config) as [selected|] eqn:Hv.
  2:{ split; [done|]. by intros (? & ? & ? & _). }
  case_bool_decide as Hc.
  { subst contents. split.
    - intros [= <-]. exists selected, []. split_and!; try constructor; done.
    - intros (? & entries & _ & Hf & -> & _). destruct entries as [|e entries]; [done|].
      unfold managedFile, unlines in Hf. cbn in Hf. symmetry in Hf. apply app_eq_nil in Hf as [Hf _].
      by apply app_eq_nil in Hf as [_ ?]. }
  destruct (MaxAuthorizedKeysBytes <? blen contents) eqn:Hmax; zbool.
  { split; [done|]. intros (? & ? & _ & _ & _ & _ & _ & _ & ?). lia. }
  split.
  - destruct (dropLast 10 contents) as [body|] eqn:Hd; [|done]. apply dropLast_Some in Hd.
    intros ([] & Hl & [= <-])%bind_Ok. apply (checkLines_exact config selected Hv) in Hl as (entries & Hs & Hok & Hsh & Hnd & _).
    exists selected, entries. split_and!; try done.
    + unfold managedFile. rewrite <- Hs, unlines_split. done.
    + rewrite Hs. by rewrite length_fmap.
  - intros (? & entries & [= <-] & Hf & -> & Hok & Hnd & Hsh & _).
    assert (entries ≠ []) as Hne by (intros ->; done).
    assert ((managedLine (targetOf config) <$> entries) ≠ []) as Hne' by (by destruct entries).
    unfold managedFile in Hf. pose proof Hf as Hf'. rewrite unlines_joined in Hf' by done. rewrite Hf'.
    rewrite dropLast_snoc by lia. rewrite split_joined; [|done|].
    2:{ apply lines_no_newline; [by eapply target_numeric|]. eapply List.Forall_impl; [|exact Hok]. apply entry_ok_key. }
    rewrite (proj2 (checkLines_exact config selected Hv _ [])).
    + cbn [mbind result_bind]. by rewrite length_fmap.
    + exists entries. split_and!; try done. apply List.Forall_forall. intros ? _. apply not_elem_of_nil.
Qed.
