(* ===== verification/Clients.v ===== *)
(** * internal/enrollment/clients.go: the life of an enrolled client

    The store of client records under one directory and the operations of the
    management API: authentication by bearer token, revocation by the client
    or by the host, key rotation, expiry, and the reconciliation of what a
    crash interrupted.  Every operation is a program over the host's files
    ([HM]); the callbacks it is given (the authorized-keys file, the session
    authority) are programs over the same host.

    Instants are UTC, as the callers pass them.  The per-client file lock makes
    the operations on one client sequential; it appears here as the system
    calls it makes and the lock file it creates. *)

From S2P Require Import Prelude GoStd Json StrictJson Time Host Locator Grant SshWire Crypto Packet Kex ClientStore.
Import Time Locator ClientStore.

Module Clients.

Definition ClientStatusEnrollmentPending : string := "enrollment_pending".
Definition ClientStatusActive : string := "active".
Definition ClientStatusExpirationPending : string := "expiration_pending".
Definition ClientStatusExpired : string := "expired".
Definition ClientStatusRotationPending : string := "rotation_pending".
Definition ClientStatusRevocationPending : string := "revocation_pending".
Definition ClientStatusRevoked : string := "revoked".
Definition ManagementTokenBytes : nat := 32.
Definition ErrInvalidInvite : string := "invalid WarpTweet invite".
Definition MaxEnrollmentRequestBytes : Z := Z.shiftl 16 10.

Definition invalid {A} (text : string) : HM A := hfail (wrapErr ErrInvalidInvite text).
Definition eqs (a b : string) : bool := bool_decide (a = b).

Record ManagementRequest := mkManagementRequest {
  q_ClientID : string;
  ManagementToken : string;
  q_TunnelID : string;
  NewPublicKey : string;
  NextManagementToken : string;
}.

(** The optional hooks of a revocation; [None] is a nil function. *)
Record SessionEnforcement := mkEnforcement {
  e_TerminateSession : option (string → string → string → HM ());
  e_VerifySessionGone : option (string → string → string → HM ());
}.

(** ** Checks *)

Definition in_range (lo hi r : Z) : bool := (lo <=? r) && (r <=? hi).

Definition isHexID (value : string) : bool :=
  negb (eqs value "" || (64 <? String.length value)%nat)
  && forallb (λ r, in_range 48 57 r || in_range 97 102 r || in_range 65 70 r) (Utf8.range value).

Definition isLowerHexDigest (value : string) : bool :=
  (String.length value =? 64)%nat
  && forallb (λ r, in_range 48 57 r || in_range 97 102 r) (Utf8.range value).

Definition isManagementToken (token : string) : bool :=
  (String.length token =? ManagementTokenBytes * 2)%nat && isLowerHexDigest token.

Definition ValidateManagementToken (token : string) : result () :=
  if negb (isManagementToken token)
  then Err (wrapErr ErrInvalidInvite "management token must be 64 lowercase hex characters") else Ok ().

Definition validateManagementRequestShape (request : ManagementRequest) : result () :=
  if eqs (q_ClientID request) "" || eqs (ManagementToken request) "" || eqs (q_TunnelID request) ""
  then Err (wrapErr ErrInvalidInvite "client_id, management_token, and tunnel_id are required")
  else if negb (isHexID (q_ClientID request)) then Err (wrapErr ErrInvalidInvite "client_id is invalid")
  else if negb (isManagementToken (ManagementToken request))
  then Err (wrapErr ErrInvalidInvite "management_token must be 64 lowercase hex characters")
  else Ok ().

(** [strings.ToLower] as far as ASCII results go: besides the ASCII letters,
    U+0130 and U+212A are the runes whose lower case is ASCII. *)
Definition lower_rune (x : Z * bytes) : bytes :=
  let '(r, enc) := x in
  if in_range 65 90 r then [bz (r + 32)]
  else if r =? 304 then [bz 105] else if r =? 8490 then [bz 107] else enc.
Definition lowerText (s : string) : string := to_string (concat (lower_rune <$> Utf8.runes (to_bytes s))).

Definition forbiddenWords : list string :=
  ["private"; "begin openssh"; "begin rsa"; "begin ec"; "seed"]%string.

Definition validatePublicKeyLine (publicKey : string) : result () :=
  let publicKey := Strings.trim_space publicKey in
  if eqs publicKey "" || existsb (λ c, bool_decide (c ∈ [bz 13; bz 10; bz 0])) (to_bytes publicKey)
  then Err (wrapErr ErrInvalidInvite "public_key must be one line")
  else if MaxEnrollmentRequestBytes <? Z.of_nat (String.length publicKey)
  then Err (wrapErr ErrInvalidInvite "public_key is too large")
  else match Strings.fields publicKey with
  | kind :: _ :: comment =>
      match Profile.Lookup Profile.CurrentID with
      | Err e => Err (wrapErr ErrInvalidInvite (errText e))
      | Ok selected =>
          if negb (eqs kind (Profile.AuthenticationKeyType selected))
          then Err (wrapErr ErrInvalidInvite "public_key type is not the required composite algorithm")
          else
            let haystack := (lowerText kind ++ match comment with
              | [] => "" | _ => " " ++ lowerText (String.concat " " comment) end)%string in
            if existsb (Strings.contains haystack) forbiddenWords
            then Err (wrapErr ErrInvalidInvite "public_key must not contain private-key material")
            else Ok ()
      end
  | _ => Err (wrapErr ErrInvalidInvite "public_key must contain type and blob")
  end.

Definition clientPath (directory clientID : string) : string :=
  Filepath.Join directory (clientID ++ ".json").

Section clients.
Context {CR : Crypto}.
Context (H : hostEnv) (rnd : nat → nat → bytes).

Definition HashManagementToken (token : string) : string :=
  Hex.encode (sha256 (to_bytes (Strings.trim_space token))).
Definition PublicKeyDigest (publicKey : string) : string :=
  Hex.encode (sha256 (to_bytes (Strings.trim_space publicKey))).

Definition GenerateManagementToken : HM string :=
  raw ← RandRead H rnd ManagementTokenBytes; mret (Hex.encode raw).

(** [subtle.ConstantTimeCompare(left, right) == 1]. *)
Definition constantTimeDigestEqual (a b : string) : bool := bool_decide (to_bytes a = to_bytes b).

Definition managementTokenMatches (wantHash token : string) : bool :=
  if eqs wantHash "" || negb (isManagementToken token) then false
  else constantTimeDigestEqual wantHash (HashManagementToken token).

Definition authorizationStillValid (record : ClientRecord) (now : Time) : result () :=
  if eqs (AuthorizationNotAfter record) ""
  then Err (wrapErr ErrInvalidInvite "grant has no host authorization expiry")
  else match Grant.ParseUTC (AuthorizationNotAfter record) with
  | Err e => Err (wrapErr ErrInvalidInvite ("authorization_not_after: " ++ errText e))
  | Ok notAfter => if Grant.ReadyToExpire notAfter now
                   then Err (wrapErr ErrInvalidInvite "authorization expired") else Ok ()
  end.

Definition authenticateClientRecord (record : ClientRecord) (request : ManagementRequest) : result () :=
  if negb (eqs (Status record) ClientStatusActive)
  then Err (wrapErr ErrInvalidInvite ("client status is " ++ Status record))
  else if negb (eqs (TunnelID record) (q_TunnelID request))
  then Err (wrapErr ErrInvalidInvite "tunnel_id mismatch")
  else if negb (managementTokenMatches (ManagementTokenSHA256 record) (ManagementToken request))
  then Err (wrapErr ErrInvalidInvite "management token mismatch")
  else Ok ().

(** ** The store *)

(** invite.go: [writeFileAtomic], [writeJSONAtomic]. *)
Definition writeFileAtomic (path : string) (contents : bytes) : HM () :=
  replaceFile H false path ".wt-invite-" contents
    (sys H;;                                     (* open the directory *)
     deferred (sys H) (sys H)).                  (* sync it; deferred close *)

Definition writeClientAtomic (directory : string) (record : ClientRecord) : HM () :=
  contents ← hlift (clientText record);
  writeFileAtomic (clientPath directory (ClientID record)) contents.

(** lock_unix.go: [lockPathExclusive], with the body run under the lock. *)
Definition withLock {A} (directory name label : string) (body : HM A) : HM A :=
  sys H;;                                        (* MkdirAll *)
  OpenCreate H (Filepath.Join directory name);;
  r ← htry (sys H);                              (* flock *)
  match r with
  | Err e => htry (sys H);; hfail (EMsg ("lock " ++ label ++ ": " ++ errText e))
  | Ok _ => deferred (htry (sys H);; sys H) body (* unlock and close *)
  end.

Definition lockClient {A} (directory clientID : string) (body : HM A) : HM A :=
  if negb (isHexID clientID) then invalid "client_id is invalid"
  else withLock directory ("." ++ clientID ++ ".lock") "client" body.

Definition ensureClientsDirectory : HM () :=
  r ← htry (sys H);                              (* Stat *)
  match r with
  | Ok _ => mret ()
  | Err e => if negb (IsNotExist e) then hfail e
             else sys H;; sys H                  (* MkdirAll, Chmod *)
  end.

Definition StoreClient (directory : string) (record : ClientRecord) : HM () :=
  ensureClientsDirectory;;
  if eqs (ClientID record) "" || negb (isHexID (ClientID record)) then invalid "client_id is invalid"
  else
    r ← htry (Lstat H (clientPath directory (ClientID record)));
    match r with
    | Ok _ => hfail (EMsg ("client " ++ ClientID record ++ " already exists"))
    | Err _ => writeClientAtomic directory record
    end.

Definition LoadClient (directory clientID : string) : HM ClientRecord :=
  if negb (isHexID clientID) then invalid "client_id is invalid"
  else
    contents ← ReadFile H (clientPath directory clientID);
    hlift (readClient contents).

(** [LoadClient] whose error is reported as an unknown client. *)
Definition loadKnown (directory clientID : string) : HM ClientRecord :=
  r ← htry (LoadClient directory clientID);
  match r with
  | Ok record => mret record
  | Err _ => invalid "unknown client"
  end.

Definition UpdateClient (directory : string) (record : ClientRecord) : HM () :=
  if negb (isHexID (ClientID record)) then invalid "client_id is invalid"
  else lockClient directory (ClientID record)
    (LoadClient directory (ClientID record);; writeClientAtomic directory record).

Fixpoint loadAll (directory : string) (names : list string) : HM (list ClientRecord) :=
  match names with
  | [] => mret []
  | name :: rest =>
      if negb (Strings.has_suffix name ".json") then loadAll directory rest
      else
        let clientID := TrimSuffix name ".json" in
        if negb (isHexID clientID) then loadAll directory rest
        else
          record ← LoadClient directory clientID;
          records ← loadAll directory rest;
          mret (record :: records)
  end.

Definition ListClients (directory : string) : HM (list ClientRecord) :=
  r ← htry (ReadDir H directory);
  match r with
  | Err e => if IsNotExist e then mret [] else hfail e
  | Ok names => loadAll directory names
  end.

(** [now.IsZero()] is replaced by the clock. *)
Definition orNow (now : Time) : HM Time := if IsZero now then Host.now H else mret now.

Definition AuthenticateManagement (directory : string) (request : ManagementRequest) : HM ClientRecord :=
  hlift (validateManagementRequestShape request);;
  lockClient directory (q_ClientID request)
    (record ← loadKnown directory (q_ClientID request);
     hlift (authenticateClientRecord record request);;
     mret record).

(** ** Revocation *)

(** A callback that must be there. *)
Definition required {A} (what : string) (f : option A) (k : A → HM ClientRecord) : HM ClientRecord :=
  match f with
  | Some f => k f
  | None => hfail (EMsg (what ++ " callback is required"))
  end.

(** [TerminateSession] then [VerifySessionGone], each if it is set. *)
Definition runHook (hook : option (string → string → string → HM ())) (clientID generation digest : string)
    : HM () :=
  match hook with Some f => f clientID generation digest | None => mret () end.
Definition enforce (enforcement : SessionEnforcement) (clientID generation digest : string) : HM () :=
  runHook (e_TerminateSession enforcement) clientID generation digest;;
  runHook (e_VerifySessionGone enforcement) clientID generation digest.

(** A random capability nobody holds: its hash. *)
Definition burnedHash : HM string :=
  r ← htry (RandRead H rnd ManagementTokenBytes);
  match r with
  | Ok burned => mret (HashManagementToken (Hex.encode burned))
  | Err e => hfail (EMsg ("generate burned management token: " ++ errText e))
  end.

Definition formatTime (now : Time) : string := to_string (Time.format now).

(** The pending status of an operation, written before its side effects. *)
Definition markPending (directory status : string) (now : Time) (record : ClientRecord) : HM ClientRecord :=
  let record := set_OperationStartedAt (formatTime now) (set_Status status record) in
  writeClientAtomic directory record;; mret record.

(** The end of a revocation: the capability is burned and [revoked] written. *)
Definition finishRevocation (directory : string) (now : Time) (record : ClientRecord) : HM ClientRecord :=
  burned ← burnedHash;
  let record := set_PreviousManagementTokenSHA256 (ManagementTokenSHA256 record) record in
  let record := set_ManagementTokenSHA256 burned record in
  let record := set_OperationStartedAt "" (set_RevokedAt (formatTime now)
                  (set_Status ClientStatusRevoked record)) in
  writeClientAtomic directory record;; mret record.

Definition RevokeClient (directory : string) (request : ManagementRequest) (now : Time)
    (removeAuthorization : option (string → HM ())) (enforcement : SessionEnforcement) : HM ClientRecord :=
  now ← orNow now;
  hlift (validateManagementRequestShape request);;
  lockClient directory (q_ClientID request)
    (record ← loadKnown directory (q_ClientID request);
     if negb (eqs (TunnelID record) (q_TunnelID request)) then invalid "tunnel_id mismatch"
     else if eqs (Status record) ClientStatusRevoked then
       if negb (managementTokenMatches (PreviousManagementTokenSHA256 record) (ManagementToken request))
       then invalid "management token mismatch"
       else required "remove authorization" removeAuthorization (λ remove,
         remove (PublicKey record);; mret record)
     else if negb (eqs (Status record) ClientStatusActive)
             && negb (eqs (Status record) ClientStatusRevocationPending)
             && negb (eqs (Status record) ClientStatusExpirationPending)
     then invalid ("client status is " ++ Status record)
     else if negb (managementTokenMatches (ManagementTokenSHA256 record) (ManagementToken request))
     then invalid "management token mismatch"
     else
       record ← (if eqs (Status record) ClientStatusActive
                 then markPending directory ClientStatusRevocationPending now record else mret record);
       required "remove authorization" removeAuthorization (λ remove,
         remove (PublicKey record);;
         enforce enforcement (ClientID record) "" "";;
         finishRevocation directory now record)).

Definition RevokeClientAsHost (directory clientID : string) (now : Time)
    (removeAuthorization : option (string → HM ())) (enforcement : SessionEnforcement) : HM ClientRecord :=
  now ← orNow now;
  if negb (isHexID clientID) then invalid "client_id must be a hexadecimal identifier"
  else lockClient directory clientID
    (record ← loadKnown directory clientID;
     if eqs (Status record) ClientStatusRevoked then
       match removeAuthorization with Some remove => remove (PublicKey record) | None => mret () end;;
       enforce enforcement (ClientID record) "" "";;
       mret record
     else if negb (eqs (Status record) ClientStatusActive)
             && negb (eqs (Status record) ClientStatusRevocationPending)
             && negb (eqs (Status record) ClientStatusExpirationPending)
             && negb (eqs (Status record) ClientStatusRotationPending)
     then invalid ("client status is " ++ Status record)
     else required "remove authorization" removeAuthorization (λ remove,
       record ← (if eqs (Status record) ClientStatusActive || eqs (Status record) ClientStatusRotationPending
                 then markPending directory ClientStatusRevocationPending now record else mret record);
       remove (PublicKey record);;
       (if negb (eqs (PendingPublicKey record) "") && negb (eqs (PendingPublicKey record) (PublicKey record))
        then remove (PendingPublicKey record) else mret ());;
       enforce enforcement (ClientID record) "" "";;
       burned ← burnedHash;
       let record := set_PreviousManagementTokenSHA256 (ManagementTokenSHA256 record) record in
       let record := set_ManagementTokenSHA256 burned record in
       let record := set_PendingManagementTokenSHA256 "" (set_PendingPublicKey "" record) in
       let record := set_OperationStartedAt "" (set_RevokedAt (formatTime now)
                       (set_Status ClientStatusRevoked record)) in
       writeClientAtomic directory record;; mret record)).

(** ** Rotation *)

(** [now.Format("20060102T150405Z")]. *)
Definition generationStamp (now : Time) : string :=
  let f := fields_of now in
  to_string (fixed 4 (year f) ++ fixed 2 (month f) ++ fixed 2 (day f) ++ to_bytes "T"
             ++ fixed 2 (hour f) ++ fixed 2 (minute f) ++ fixed 2 (second f) ++ to_bytes "Z").

Definition RotateClientPublicKey (directory : string) (request : ManagementRequest) (newPublicKey : string)
    (now : Time) (replaceAuthorization : option (string → string → HM ())) : HM ClientRecord :=
  now ← orNow now;
  hlift (validateManagementRequestShape request);;
  let newPublicKey := Strings.trim_space newPublicKey in
  hlift (validatePublicKeyLine newPublicKey);;
  if negb (isManagementToken (NextManagementToken request))
  then invalid "next_management_token must be 64 lowercase hex characters"
  else lockClient directory (q_ClientID request)
    (record ← loadKnown directory (q_ClientID request);
     if negb (eqs (TunnelID record) (q_TunnelID request)) then invalid "tunnel_id mismatch"
     else
     let nextHash := HashManagementToken (NextManagementToken request) in
     let currentHash := HashManagementToken (ManagementToken request) in
     if eqs (Status record) ClientStatusActive && eqs (PublicKey record) newPublicKey
        && constantTimeDigestEqual (ManagementTokenSHA256 record) nextHash
        && constantTimeDigestEqual (PreviousManagementTokenSHA256 record) currentHash
     then required "replace authorization" replaceAuthorization (λ replace,
       replace (PreviousPublicKey record) newPublicKey;; mret record)
     else
       hlift (authorizationStillValid record now);;
       if eqs (Status record) ClientStatusExpired || eqs (Status record) ClientStatusExpirationPending
       then invalid ("client status is " ++ Status record)
       else if negb (eqs (Status record) ClientStatusActive)
               && negb (eqs (Status record) ClientStatusRotationPending)
       then invalid ("client status is " ++ Status record)
       else if negb (managementTokenMatches (ManagementTokenSHA256 record) (ManagementToken request))
       then invalid "management token mismatch"
       else
         record ←
           (if eqs (Status record) ClientStatusActive then
              let record := set_PendingManagementTokenSHA256 nextHash
                              (set_PendingPublicKey newPublicKey record) in
              markPending directory ClientStatusRotationPending now record
            else if negb (eqs (PendingPublicKey record) newPublicKey)
                    || negb (constantTimeDigestEqual (PendingManagementTokenSHA256 record) nextHash)
            then invalid "rotation retry does not match pending state"
            else mret record);
         required "replace authorization" replaceAuthorization (λ replace,
           let oldPublicKey := PublicKey record in
           replace oldPublicKey newPublicKey;;
           let record := set_PreviousManagementTokenSHA256 (ManagementTokenSHA256 record)
                           (set_PreviousPublicKey oldPublicKey record) in
           let record := set_PublicKeySHA256 (PublicKeyDigest newPublicKey)
                           (set_PublicKey newPublicKey record) in
           let record := set_ManagementTokenSHA256 nextHash record in
           let record := set_OperationStartedAt ""
                           (set_PendingManagementTokenSHA256 "" (set_PendingPublicKey "" record)) in
           let record := set_Generation (generationStamp now) (set_Status ClientStatusActive record) in
           writeClientAtomic directory record;; mret record)).

Definition EvictPreviousKeySessions (record : ClientRecord) (enforcement : SessionEnforcement) : HM () :=
  if eqs (PreviousPublicKey record) "" then mret ()
  else enforce enforcement (ClientID record) "" (PublicKeyDigest (PreviousPublicKey record)).

(** ** Expiry *)

(** The operations of [ops] on a world paired with the captured [burnedHash]. *)
Definition onWorld {A} (m : HM A) (s : world * string) : result A * (world * string) :=
  let '(r, w) := m (fst s) in (r, (w, snd s)).
Definition wrapOps (ops : Grant.ExpireOps world) : Grant.ExpireOps (world * string) :=
  Grant.mkExpireOps
    ((λ f k, onWorld (f k)) <$> Grant.RemoveAuthorization ops)
    ((λ f k, onWorld (f k)) <$> Grant.VerifyAuthorizationGone ops)
    ((λ f a b c, onWorld (f a b c)) <$> Grant.TerminateSession ops)
    ((λ f a b c, onWorld (f a b c)) <$> Grant.VerifySessionGone ops)
    (Some (λ s, match Grant.BurnManagementToken ops with
                | Some burn => let '(r, w) := burn (fst s) in
                    (r, (w, match r with Ok hash => hash | Err _ => ""%string end))
                | None => (Err (EPanic "nil function"), s)
                end)).

(** [ExecuteExpire] with the wrapped operations; returns the captured hash. *)
Definition runExpire (plan : Grant.ExpirePlan) (ops : Grant.ExpireOps world) : HM string :=
  λ w, let '(r, (w', hash)) := Grant.ExecuteExpire plan (wrapOps ops) (w, ""%string) in
       (match r with Ok _ => Ok hash | Err e => Err e end, w').

Definition ExpireClient (directory clientID : string) (now : Time) (ops : Grant.ExpireOps world)
    : HM ClientRecord :=
  now ← orNow now;
  if negb (isHexID clientID) then invalid "client_id is invalid"
  else lockClient directory clientID
    (record ← loadKnown directory clientID;
     if eqs (Status record) ClientStatusExpired then mret record
     else match Grant.ParseUTC (AuthorizationNotAfter record) with
     | Err e => invalid ("authorization_not_after: " ++ errText e)
     | Ok notAfter =>
         let planFor status := Grant.mkExpirePlan (ClientID record) (Generation record) (PublicKey record)
                                 (PublicKeySHA256 record) status notAfter now in
         hlift (Grant.ValidateExpirePlan (planFor (Status record)));;
         record ←
           (if eqs (Status record) ClientStatusActive || eqs (Status record) ClientStatusRotationPending then
              hlift (Grant.AuthorizeTransition (Status record) ClientStatusExpirationPending);;
              markPending directory ClientStatusExpirationPending now record
            else mret record);
         burned ← runExpire (planFor (Status record)) ops;
         let record := if eqs burned "" then record
                       else set_ManagementTokenSHA256 burned
                              (set_PreviousManagementTokenSHA256 (ManagementTokenSHA256 record) record) in
         let record := set_OperationStartedAt "" (set_ExpiredAt (formatTime now)
                         (set_Status ClientStatusExpired record)) in
         writeClientAtomic directory record;; mret record
     end).

(** ** Reconciliation *)

(** [errors.Join(errs...)]. *)
Definition joinErrors (errs : list error) : result () :=
  match errs with
  | [] => Ok ()
  | _ => Err (EMsg (String.concat (to_string [bz 10]) (errText <$> errs)))
  end.

Definition completePendingRevocation (directory : string) (record : ClientRecord) (now : Time)
    (removeAuthorization : option (string → HM ())) (enforcement : SessionEnforcement) : HM ClientRecord :=
  lockClient directory (ClientID record)
    (current ← LoadClient directory (ClientID record);
     if eqs (Status current) ClientStatusRevoked then mret current
     else if negb (eqs (Status current) ClientStatusRevocationPending)
     then hfail (EMsg ("client status is " ++ Status current))
     else required "remove authorization" removeAuthorization (λ remove,
       remove (PublicKey current);;
       enforce enforcement (ClientID current) "" "";;
       finishRevocation directory now current)).

(** Run [f] on each record and collect the errors. *)
Fixpoint forEach (f : ClientRecord → HM ()) (records : list ClientRecord) : HM (list error) :=
  match records with
  | [] => mret []
  | record :: rest =>
      r ← htry (f record);
      errs ← forEach f rest;
      mret (match r with
            | Ok _ => errs
            | Err e => EMsg ("client " ++ ClientID record ++ ": " ++ errText e) :: errs
            end)
  end.

Definition ReconcilePendingRevocations (directory : string) (now : Time)
    (removeAuthorization : option (string → HM ())) (enforcement : SessionEnforcement) : HM () :=
  records ← ListClients directory;
  errs ← forEach (λ record,
    if negb (eqs (Status record) ClientStatusRevocationPending) then mret ()
    else completePendingRevocation directory record now removeAuthorization enforcement;; mret ()) records;
  hlift (joinErrors errs).

(** The loop of [ReconcileExpiredClients]: a record whose expiry does not parse
    stops it. *)
Fixpoint expireDue (directory : string) (now : Time) (opsFor : ClientRecord → Grant.ExpireOps world)
    (records : list ClientRecord) : HM (list error) :=
  match records with
  | [] => mret []
  | record :: rest =>
      if negb (eqs (Status record) ClientStatusActive) && negb (eqs (Status record) ClientStatusExpirationPending)
         && negb (eqs (Status record) ClientStatusRotationPending)
      then expireDue directory now opsFor rest
      else if eqs (AuthorizationNotAfter record) "" then expireDue directory now opsFor rest
      else match Grant.ParseUTC (AuthorizationNotAfter record) with
      | Err e => hfail (EMsg ("client " ++ ClientID record ++ ": " ++ errText e))
      | Ok notAfter =>
          if negb (eqs (Status record) ClientStatusExpirationPending) && negb (Grant.ReadyToExpire notAfter now)
          then expireDue directory now opsFor rest
          else
            r ← htry (ExpireClient directory (ClientID record) now (opsFor record));
            errs ← expireDue directory now opsFor rest;
            mret (match r with
                  | Ok _ => errs
                  | Err e => EMsg ("client " ++ ClientID record ++ ": " ++ errText e) :: errs
                  end)
      end
  end.

Definition ReconcileExpiredClients (directory : string) (now : Time)
    (opsFor : ClientRecord → Grant.ExpireOps world) : HM () :=
  records ← ListClients directory;
  errs ← expireDue directory now opsFor records;
  hlift (joinErrors errs).

End clients.
End Clients.

(** ** Under a lock

    Taking a lock only adds an empty lock file. *)
Lemma withLock_rule_at (H : hostEnv) {A} (P : gmap string bytes → Prop) directory name label (body : HM A)
    (Q : result A → gmap string bytes → Prop) :
  (∀ fs, P fs → fs !! Filepath.Join directory name = None → P (<[Filepath.Join directory name := []]> fs)) →
  htriple P body Q → (∀ e fs, P fs → Q (Err e) fs) →
  htriple P (Clients.withLock H directory name label body) Q.
Proof.
  intros Hadd Hb He. unfold Clients.withLock.
  eapply (htriple_bind _ _ (λ _, P)); [apply htriple_sys; intros []; auto|]. intros _.
  eapply (htriple_bind _ _ (λ _, P)).
  { unfold OpenCreate. eapply (htriple_bind _ _ (λ _, P)); [apply htriple_sys; intros []; auto|].
    intros _ w Hw. cbn. destruct (files w !! Filepath.Join _ _) eqn:Hl; [done|auto]. }
  intros _. eapply (htriple_bind _ _ (λ _, P)); [apply htriple_try, htriple_sys; auto|].
  intros [?|e].
  - eapply (htriple_deferred _ _ _ Q); [exact Hb|]. intros res.
    eapply (htriple_bind _ _ (λ _, Q res)); [apply htriple_try, htriple_sys; auto|]. intros _. apply htriple_sys. auto.
  - eapply (htriple_bind _ _ (λ _, P)); [apply htriple_try, htriple_sys; auto|].
    intros _. apply htriple_fail. auto.
Qed.

Lemma withLock_rule (H : hostEnv) {A} (P : gmap string bytes → Prop) directory name label (body : HM A)
    (Q : result A → gmap string bytes → Prop) :
  (∀ fs p, P fs → fs !! p = None → P (<[p := []]> fs)) →
  htriple P body Q → (∀ e fs, P fs → Q (Err e) fs) →
  htriple P (Clients.withLock H directory name label body) Q.
Proof. intros Hadd. apply withLock_rule_at. auto. Qed.
