(* ===== verification/ClientProps.v ===== *)
(** * Properties of the client store

    Whatever fails on the way, the record on disk is the old one or a whole new
    one whose status the grant state machine allows; an operation that reports
    success has done all of its work. *)

From S2P Require Import Prelude GoStd Json StrictJson Time Host Locator Grant GrantProps SshWire Crypto Packet.
From S2P Require Import Kex ClientStore ClientCodec Clients.
Import Time Json Locator ClientStore Clients.

(** ** Well-formed updates *)

Lemma Hex_ascii b : ascii (Hex.encode b).
Proof.
  unfold ascii, Hex.encode. rewrite to_bytes_string.
  assert (∀ n, 0 ≤ n < 16 → zb (Hex.digit n) < 128) as Hd.
  { intros n Hn. unfold Hex.digit. destruct (n <? 10) eqn:E; zbool; rewrite zb_bz, Z.mod_small; lia. }
  induction b as [|x b IH]; [constructor|]. rewrite fmap_cons. cbn [concat app].
  pose proof (zb_range x). repeat constructor; [apply Hd; dlia|apply Hd; dlia|exact IH].
Qed.
Lemma ascii_empty : ascii "".
Proof. constructor. Qed.
Lemma formatTime_ascii t : ascii (formatTime t).
Proof. apply format_ascii. Qed.
Lemma fixed_text_ascii n v : Forall (λ c, zb c < 128) (fixed n v).
Proof. apply fixed_ascii. Qed.
Lemma generationStamp_ascii t : ascii (generationStamp t).
Proof.
  unfold ascii, generationStamp. rewrite to_bytes_string.
  repeat (apply Forall_app; split; [first [apply fixed_ascii|by repeat constructor]|]). by repeat constructor.
Qed.
Create HintDb ascii.
#[export] Hint Resolve Hex_ascii ascii_empty formatTime_ascii generationStamp_ascii : ascii.
#[export] Hint Extern 1 (ascii _) => (by apply ascii_forallb) : ascii.

#[local] Arguments formatTime : simpl never.
#[local] Arguments generationStamp : simpl never.
#[local] Arguments HashManagementToken {_} _ : simpl never.
#[local] Arguments PublicKeyDigest {_} _ : simpl never.

(** [wf_client] after assignments of ASCII text. *)
Ltac wf_update :=
  lazymatch goal with Hwf : wf_client ?r |- wf_client ?r' =>
    let Ht := fresh in let Hrest := fresh in
    destruct Hwf as [Ht Hrest]; unfold texts in Ht;
    repeat apply List.Forall_cons_iff in Ht as [?Ha Ht];
    split; [unfold texts; cbn; repeat (constructor; [solve [assumption|auto with ascii]|]); constructor|exact Hrest]
  end.

(** ** Moves of the state machine *)

Definition moved (a b : string) : Prop := rtc (λ x y, Grant.CanTransition x y = true) a b.

#[global] Instance moved_preorder : PreOrder moved.
Proof. split; [intros a; apply rtc_refl|]. intros a b c Hab Hbc. unfold moved in *. by etrans. Qed.

Lemma moved_once a b : Grant.CanTransition a b = true → moved a b.
Proof. intros Hc. by apply rtc_once. Qed.
Lemma moved_twice a b c :
  Grant.CanTransition a b = true → Grant.CanTransition b c = true → moved a c.
Proof. intros Hab Hbc. eapply rtc_l; [exact Hab|by apply rtc_once]. Qed.

Section store.
Context {CR : Crypto} (H : hostEnv) (rnd : nat → nat → bytes) (directory clientID : string).
Implicit Types (r : ClientRecord) (fs : gmap string bytes).

(** The record a client has on disk. *)
Definition stored fs r : Prop :=
  ∃ raw, fs !! clientPath directory clientID = Some raw ∧ readClient raw = Ok r ∧
         wf_client r ∧ ClientStore.ClientID r = clientID.

(** A program that leaves the client's file alone. *)
Definition quiet {A} (m : HM A) : Prop :=
  ∀ w, files (m w).2 !! clientPath directory clientID = files w !! clientPath directory clientID.

Lemma stored_same fs fs' r :
  fs !! clientPath directory clientID = fs' !! clientPath directory clientID → stored fs r → stored fs' r.
Proof. intros He (raw & Hr & ?). exists raw. by rewrite <- He. Qed.

Lemma quiet_stored {A} (m : HM A) r : quiet m → htriple (λ fs, stored fs r) m (λ _ fs, stored fs r).
Proof. intros Hq w Hw. eapply stored_same; [|exact Hw]. symmetry. apply Hq. Qed.

Lemma stored_unique fs r r' : stored fs r → stored fs r' → r = r'.
Proof. intros (raw & H1 & H2 & _) (raw' & H3 & H4 & _). congruence. Qed.

Lemma writeClient_stored r r' :
  wf_client r' → ClientStore.ClientID r' = clientID →
  htriple (λ fs, stored fs r) (writeClientAtomic H directory r')
    (λ res fs, (stored fs r ∨ stored fs r') ∧ (res = Ok () → stored fs r')).
Proof.
  intros Hwf Hid. destruct (client_codec r' Hwf) as (raw & Ht & Hr). intros w Hw.
  assert (writeClientAtomic H directory r' w = writeFileAtomic H (clientPath directory clientID) raw w) as ->.
  { unfold writeClientAtomic, mbind, HM_bind, hlift. by rewrite Ht, Hid. }
  destruct Hw as (raw0 & H0 & Hw0).
  destruct (replaceFile_replaced H (clientPath directory clientID) ".wt-invite-" raw (files w)
    ltac:(intros n Hn Heq; rewrite <- Heq in Hn; congruence)
    false (sys H;; deferred (sys H) (sys H))
    ltac:(intros fs; apply bind_keeps; [apply sys_keeps|intros _; apply deferred_keeps; apply sys_keeps])
    w eq_refl) as (H1 & H2 & _).
  unfold writeFileAtomic. set (out := replaceFile H _ _ _ _ _ w) in *.
  assert (∀ fs, fs !! clientPath directory clientID = Some raw → stored fs r') as Hnew
    by (intros fs Hfs; exists raw; done).
  split; [|auto]. destruct H1 as [H1|H1]; [left|right; auto].
  exists raw0. by rewrite H1.
Qed.

Lemma loadKnown_stored r :
  htriple (λ fs, stored fs r) (loadKnown H directory clientID)
    (λ res fs, stored fs r ∧ ∀ r', res = Ok r' → r' = r).
Proof.
  intros w Hw. unfold loadKnown, htry, LoadClient, mbind, HM_bind.
  destruct (isHexID clientID); [|done]. cbn [negb].
  pose proof (htriple_ReadFile H (λ fs, fs = files w) (clientPath directory clientID)
    (λ res fs, fs = files w ∧ ∀ c, res = Ok c → files w !! clientPath directory clientID = Some c)) as Hread.
  specialize (Hread ltac:(done) ltac:(by intros c fs -> Hc; split; [|intros c' [= <-]]) w eq_refl) as [Hfs Hc].
  destruct (ReadFile H (clientPath directory clientID) w) as [[c|e] w'] eqn:Hr; cbn in Hfs, Hc |- *.
  - specialize (Hc c eq_refl). destruct Hw as (raw & H1 & H2 & H3). replace raw with c in * by congruence.
    rewrite H2. cbn. rewrite Hfs. split; [by exists c|congruence].
  - rewrite Hfs. split; [done|by intros r' [=]].
Qed.

(** Under the client's lock. *)
Lemma lockClient_stored {A} r (body : HM A) (Q : result A → gmap string bytes → Prop) :
  htriple (λ fs, stored fs r) body Q → (∀ e fs, stored fs r → Q (Err e) fs) →
  htriple (λ fs, stored fs r) (lockClient H directory clientID body) Q.
Proof.
  intros Hb He. unfold lockClient. destruct (negb _); [apply htriple_fail; auto|].
  apply withLock_rule; [|done|done]. intros fs p (raw & Hraw & Hr) Hp. exists raw. split; [|done].
  rewrite lookup_insert_ne; [done|]. congruence.
Qed.

(** What an operation that started from [r0] leaves behind. *)
Definition settled (r0 : ClientRecord) (res : result ClientRecord) fs : Prop :=
  ∃ r, stored fs r ∧ moved (Status r0) (Status r) ∧ ∀ r', res = Ok r' → r' = r.

Section rules.
Context (r0 r : ClientRecord) (Hmoved : moved (Status r0) (Status r)).

Lemma settled_err e fs : stored fs r → settled r0 (Err e) fs.
Proof using Hmoved. intros Hs. exists r. split_and!; [done|done|by intros r' [=]]. Qed.
Lemma fail_settled e : htriple (λ fs, stored fs r) (hfail e) (settled r0).
Proof using Hmoved. apply htriple_fail. apply settled_err. Qed.
Lemma ret_settled : htriple (λ fs, stored fs r) (mret r) (settled r0).
Proof using Hmoved. apply htriple_ret. intros fs Hs. exists r. split_and!; [done|done|by intros r' [= <-]]. Qed.

Lemma quiet_settled {A} (m : HM A) (k : A → HM ClientRecord) :
  quiet m → (∀ a, htriple (λ fs, stored fs r) (k a) (settled r0)) →
  htriple (λ fs, stored fs r) (m ≫= k) (settled r0).
Proof using Hmoved.
  intros Hq Hk. eapply (htriple_bind _ _ (λ _ fs, stored fs r)); [|exact Hk].
  eapply htriple_weaken; [apply (quiet_stored m r Hq)|done|]. intros [a|e] fs; [done|apply settled_err].
Qed.

Lemma write_settled r' :
  wf_client r' → ClientStore.ClientID r' = clientID → moved (Status r) (Status r') →
  htriple (λ fs, stored fs r) (writeClientAtomic H directory r';; mret r') (settled r0).
Proof using Hmoved.
  intros Hwf Hid Hm. eapply (htriple_bind _ _ (λ _ fs, stored fs r')).
  - eapply htriple_weaken; [apply (writeClient_stored r r' Hwf Hid)|done|]. intros [[]|e] fs [Hor Hok]; [auto|].
    destruct Hor as [Hs|Hs]; [by apply settled_err|].
    exists r'. split_and!; [done|by etrans|by intros ? [=]].
  - intros _. apply htriple_ret. intros fs Hs. exists r'. split_and!; [done|by etrans|by intros ? [= <-]].
Qed.

(** The pending status is on disk before the operation goes on. *)
Lemma mark_settled status now r1 (k : ClientRecord → HM ClientRecord) :
  wf_client r1 → ClientStore.ClientID r1 = clientID → ascii status →
  Grant.CanTransition (Status r) status = true →
  (∀ r', r' = set_OperationStartedAt (formatTime now) (set_Status status r1) →
         htriple (λ fs, stored fs r') (k r') (settled r0)) →
  htriple (λ fs, stored fs r) (markPending H directory status now r1 ≫= k) (settled r0).
Proof using Hmoved.
  intros Hwf Hid Ha Hc Hk. set (r' := set_OperationStartedAt (formatTime now) (set_Status status r1)).
  assert (wf_client r') as Hwf' by (unfold r'; wf_update).
  assert (moved (Status r0) (Status r')) as Hm by (etrans; [exact Hmoved|]; by apply moved_once).
  eapply (htriple_bind _ _ (λ x fs, x = r' ∧ stored fs r')).
  - unfold markPending. fold r'. eapply (htriple_bind _ _ (λ _ fs, stored fs r')).
    + eapply htriple_weaken; [apply (writeClient_stored r r' Hwf' Hid)|done|]. intros [[]|e] fs [Hor Hok]; [auto|].
      destruct Hor as [Hs|Hs]; [by apply settled_err|]. exists r'. split_and!; [done|done|by intros ? [=]].
    + intros _. apply htriple_ret. auto.
  - intros x w [-> Hw]. by apply (Hk r').
Qed.

End rules.

Lemma quiet_sys : quiet (sys H).
Proof. intros w. unfold sys, call, mbind, HM_bind. by destruct (h_fault H (calls w)). Qed.
Lemma quiet_ret {A} (a : A) : quiet (mret a).
Proof. done. Qed.
Lemma quiet_bind {A B} (m : HM A) (f : A → HM B) : quiet m → (∀ a, quiet (f a)) → quiet (m ≫= f).
Proof.
  intros Hm Hf w. unfold mbind, HM_bind. specialize (Hm w). destruct (m w) as [[a|e] w']; [|done].
  rewrite (Hf a w'). exact Hm.
Qed.
Lemma quiet_lift {A} (x : result A) : quiet (hlift x).
Proof. done. Qed.
Lemma quiet_burned : quiet (burnedHash H rnd).
Proof.
  unfold burnedHash, RandRead. intros w. unfold htry, sys, call, mbind, HM_bind. by destruct (h_fault H (calls w)).
Qed.
Lemma quiet_orNow now : quiet (orNow H now).
Proof. intros w. unfold orNow. by destruct (IsZero now). Qed.

Lemma burned_settled r0 r (k : string → HM ClientRecord) :
  moved (Status r0) (Status r) →
  (∀ b, ascii b → htriple (λ fs, stored fs r) (k b) (settled r0)) →
  htriple (λ fs, stored fs r) (burnedHash H rnd ≫= k) (settled r0).
Proof.
  intros Hm Hk. eapply (htriple_bind _ _ (λ b fs, stored fs r ∧ ascii b)).
  - intros w Hw. unfold burnedHash, RandRead, htry, sys, call, mbind, HM_bind. cbn [files calls].
    destruct (h_fault H (calls w)); cbn; [by apply (settled_err r0 r Hm)|]. split; [done|apply Hex_ascii].
  - intros b w [Hw Hb]. by apply Hk.
Qed.

Lemma finishRevocation_settled r0 r now :
  wf_client r → ClientStore.ClientID r = clientID → moved (Status r0) (Status r) →
  moved (Status r) ClientStatusRevoked →
  htriple (λ fs, stored fs r) (finishRevocation H rnd directory now r) (settled r0).
Proof.
  intros Hwf Hid Hm Hr. unfold finishRevocation. apply burned_settled; [done|]. intros burned Hb.
  apply write_settled; [done| |by destruct r|by destruct r]. wf_update.
Qed.

(** The callbacks leave the client's file alone. *)
Definition quiet_hook (hook : option (string → string → string → HM ())) : Prop :=
  ∀ f a b c, hook = Some f → quiet (f a b c).
Definition quiet_enforcement (e : SessionEnforcement) : Prop :=
  quiet_hook (e_TerminateSession e) ∧ quiet_hook (e_VerifySessionGone e).

Lemma quiet_enforce e a b c : quiet_enforcement e → quiet (enforce e a b c).
Proof.
  intros [H1 H2]. assert (∀ hook, quiet_hook hook → quiet (runHook hook a b c)) as Hr.
  { intros [f|] Hf; [by apply (Hf f)|apply quiet_ret]. }
  unfold enforce. apply quiet_bind; [by apply Hr|]. intros _. by apply Hr.
Qed.

Lemma load_settled r0 (k : ClientRecord → HM ClientRecord) :
  htriple (λ fs, stored fs r0) (k r0) (settled r0) →
  htriple (λ fs, stored fs r0) (loadKnown H directory clientID ≫= k) (settled r0).
Proof.
  intros Hk. eapply (htriple_bind _ _ (λ x fs, x = r0 ∧ stored fs r0)).
  - eapply htriple_weaken; [apply (loadKnown_stored r0)|done|]. intros [x|e] fs [Hs Hx]; [auto|].
    by apply (settled_err r0 r0).
  - intros x w [-> Hw]. by apply Hk.
Qed.

Lemma load_exact_settled r0 (k : ClientRecord → HM ClientRecord) :
  htriple (λ fs, stored fs r0) (k r0) (settled r0) →
  htriple (λ fs, stored fs r0) (LoadClient H directory clientID ≫= k) (settled r0).
Proof.
  intros Hk w Hw. pose proof (loadKnown_stored r0 w Hw) as [Hs Hx].
  unfold loadKnown, htry in Hs, Hx. unfold mbind, HM_bind in *.
  destruct (LoadClient H directory clientID w) as [[x|e] w']; cbn in *.
  - rewrite (Hx x eq_refl). by apply Hk.
  - by apply (settled_err r0 r0).
Qed.

Lemma locked_settled r0 (body : HM ClientRecord) :
  (wf_client r0 → ClientStore.ClientID r0 = clientID → htriple (λ fs, stored fs r0) body (settled r0)) →
  htriple (λ fs, stored fs r0) (lockClient H directory clientID body) (settled r0).
Proof.
  intros Hb w Hw. pose proof Hw as (raw & _ & _ & Hwf & Hid).
  apply (lockClient_stored r0 body (settled r0) (Hb Hwf Hid)); [|exact Hw].
  intros e fs Hs. by apply (settled_err r0 r0).
Qed.

Lemma required_settled {A} r0 r what (f : option A) (k : A → HM ClientRecord) :
  moved (Status r0) (Status r) →
  (∀ g, f = Some g → htriple (λ fs, stored fs r) (k g) (settled r0)) →
  htriple (λ fs, stored fs r) (required what f k) (settled r0).
Proof. intros Hm Hk. destruct f as [g|]; [by apply Hk|by apply fail_settled]. Qed.

End store.

(** A test on the status is an equation. *)
Ltac status_cases :=
  repeat match goal with
  | Hx : eqs _ _ = true |- _ => apply bool_decide_eq_true in Hx
  | Hx : negb _ = false |- _ => apply negb_false_iff in Hx
  | Hx : _ && _ = false |- _ => apply andb_false_iff in Hx as [Hx|Hx]
  | Hx : _ || _ = true |- _ => apply orb_true_iff in Hx as [Hx|Hx]
  end.
(** Prove a move between statuses that are equal to constants. *)
Ltac solve_moved :=
  status_cases; try discriminate;
  repeat match goal with Hx : Status _ = _ |- _ => rewrite Hx end; cbn;
  first [reflexivity | by apply moved_once
        | by apply (moved_twice _ ClientStatusRevocationPending)].
Create HintDb quiet.
#[export] Hint Extern 1 (quiet _ _ (sys _)) => apply quiet_sys : quiet.
#[export] Hint Resolve quiet_orNow quiet_lift quiet_ret quiet_enforce : quiet.

Lemma ret_bind {A B} P (a : A) (k : A → HM B) Q : htriple P (k a) Q → htriple P (mret a ≫= k) Q.
Proof. exact id. Qed.

Section ops.
Context {CR : Crypto} (H : hostEnv) (rnd : nat → nat → bytes) (directory : string).

Lemma RevokeClient_settled request now remove enf r0 :
  (∀ f k, remove = Some f → quiet directory (q_ClientID request) (f k)) →
  quiet_enforcement directory (q_ClientID request) enf →
  htriple (λ fs, stored directory (q_ClientID request) fs r0)
    (RevokeClient H rnd directory request now remove enf)
    (settled directory (q_ClientID request) r0).
Proof.
  intros Hrm Henf. unfold RevokeClient. apply quiet_settled; [done|auto with quiet|]. intros now'.
  apply quiet_settled; [done|auto with quiet|]. intros _. apply locked_settled. intros Hwf Hid. apply load_settled.
  destruct (negb (eqs (TunnelID r0) _)); [by apply fail_settled|].
  destruct (eqs (Status r0) ClientStatusRevoked) eqn:Hrev.
  { destruct (negb (managementTokenMatches _ _)); [by apply fail_settled|].
    apply required_settled; [done|]. intros f Hf. apply quiet_settled; [done|by apply Hrm|].
    intros _. by apply ret_settled. }
  destruct (negb (eqs (Status r0) ClientStatusActive) && _ && _) eqn:Hst; [by apply fail_settled|].
  destruct (negb (managementTokenMatches _ _)); [by apply fail_settled|].
  assert (∀ r, wf_client r → ClientStore.ClientID r = q_ClientID request → moved (Status r0) (Status r) →
    moved (Status r) ClientStatusRevoked →
    htriple (λ fs, stored directory (q_ClientID request) fs r)
      (required "remove authorization" remove (λ remove, remove (PublicKey r);;
         enforce enf (ClientStore.ClientID r) "" "";; finishRevocation H rnd directory now' r))
      (settled directory (q_ClientID request) r0)) as Htail.
  { intros r Hwf' Hid' Hm Hm'. apply required_settled; [done|]. intros f Hf.
    apply quiet_settled; [done|by apply Hrm|]. intros _. apply quiet_settled; [done|auto with quiet|].
    intros _. by apply finishRevocation_settled. }
  destruct (eqs (Status r0) ClientStatusActive) eqn:Hact.
  - apply mark_settled; [done|done|done|by apply ascii_forallb|solve_moved|]. intros r ->.
    apply Htail; [wf_update|by destruct r0|solve_moved|solve_moved].
  - apply ret_bind, Htail; [done|done|done|solve_moved].
Qed.

Lemma RevokeClientAsHost_settled clientID now remove enf r0 :
  (∀ f k, remove = Some f → quiet directory clientID (f k)) → quiet_enforcement directory clientID enf →
  htriple (λ fs, stored directory clientID fs r0) (RevokeClientAsHost H rnd directory clientID now remove enf)
    (settled directory clientID r0).
Proof.
  intros Hrm Henf. unfold RevokeClientAsHost. apply quiet_settled; [done|auto with quiet|]. intros now'.
  destruct (negb (isHexID clientID)); [by apply fail_settled|].
  apply locked_settled. intros Hwf Hid. apply load_settled.
  destruct (eqs (Status r0) ClientStatusRevoked) eqn:Hrev.
  { apply quiet_settled; [done|destruct remove as [f|] eqn:Hf; [by apply Hrm|auto with quiet]|]. intros _.
    apply quiet_settled; [done|auto with quiet|]. intros _. by apply ret_settled. }
  destruct (negb (eqs (Status r0) ClientStatusActive) && _ && _ && _) eqn:Hst; [by apply fail_settled|].
  apply required_settled; [done|]. intros f Hf.
  assert (∀ r, wf_client r → ClientStore.ClientID r = clientID → moved (Status r0) (Status r) →
    moved (Status r) ClientStatusRevoked →
    htriple (λ fs, stored directory clientID fs r)
      (f (PublicKey r);;
       (if negb (eqs (PendingPublicKey r) "") && negb (eqs (PendingPublicKey r) (PublicKey r))
        then f (PendingPublicKey r) else mret ());;
       enforce enf (ClientStore.ClientID r) "" "";;
       burned ← burnedHash H rnd;
       let r := set_PreviousManagementTokenSHA256 (ManagementTokenSHA256 r) r in
       let r := set_ManagementTokenSHA256 burned r in
       let r := set_PendingManagementTokenSHA256 "" (set_PendingPublicKey "" r) in
       let r := set_OperationStartedAt "" (set_RevokedAt (formatTime now') (set_Status ClientStatusRevoked r)) in
       writeClientAtomic H directory r;; mret r)
      (settled directory clientID r0)) as Htail.
  { intros r Hwf' Hid' Hm Hm'. apply quiet_settled; [done|by apply Hrm|]. intros _.
    apply quiet_settled; [done|destruct (negb (eqs (PendingPublicKey r) "") && _); [by apply Hrm|auto with quiet]|]. intros _.
    apply quiet_settled; [done|auto with quiet|]. intros _. apply burned_settled; [done|]. intros b Hb. cbv zeta.
    apply write_settled; [done|wf_update|exact Hid'|exact Hm']. }
  destruct (eqs (Status r0) ClientStatusActive || _) eqn:Hact.
  - apply mark_settled; [done|done|done|by apply ascii_forallb|solve_moved|]. intros r ->.
    apply Htail; [wf_update|exact Hid|solve_moved|solve_moved].
  - apply orb_false_iff in Hact as [Ha1 Ha2]. rewrite Ha1, Ha2 in Hst.
    apply ret_bind, Htail; [done|done|done|solve_moved].
Qed.

Lemma completePendingRevocation_settled record now remove enf r0 :
  let clientID := ClientStore.ClientID record in
  (∀ f k, remove = Some f → quiet directory clientID (f k)) → quiet_enforcement directory clientID enf →
  htriple (λ fs, stored directory clientID fs r0)
    (completePendingRevocation H rnd directory record now remove enf) (settled directory clientID r0).
Proof.
  intros clientID Hrm Henf. unfold completePendingRevocation. fold clientID.
  apply locked_settled. intros Hwf Hid. apply load_exact_settled.
  destruct (eqs (Status r0) ClientStatusRevoked); [by apply ret_settled|].
  destruct (negb (eqs (Status r0) ClientStatusRevocationPending)) eqn:Hst; [by apply fail_settled|].
  apply required_settled; [done|]. intros f Hf. apply quiet_settled; [done|by apply Hrm|]. intros _.
  apply quiet_settled; [done|auto with quiet|]. intros _.
  apply finishRevocation_settled; [done|done|done|solve_moved].
Qed.

Lemma RotateClientPublicKey_settled request newKey now replace r0 :
  ascii (Strings.trim_space newKey) →
  (∀ f a b, replace = Some f → quiet directory (q_ClientID request) (f a b)) →
  htriple (λ fs, stored directory (q_ClientID request) fs r0)
    (RotateClientPublicKey H directory request newKey now replace)
    (settled directory (q_ClientID request) r0).
Proof.
  intros Hkey Hrp. unfold RotateClientPublicKey. apply quiet_settled; [done|auto with quiet|]. intros now'.
  apply quiet_settled; [done|auto with quiet|]. intros _. cbv zeta.
  apply quiet_settled; [done|auto with quiet|]. intros _.
  destruct (negb (isManagementToken _)); [by apply fail_settled|].
  apply locked_settled. intros Hwf Hid. apply load_settled.
  destruct (negb (eqs (TunnelID r0) _)); [by apply fail_settled|].
  set (next := HashManagementToken (NextManagementToken request)).
  assert (ascii next) as Hnext by (unfold next; apply Hex_ascii).
  destruct (eqs (Status r0) ClientStatusActive && eqs (PublicKey r0) _ && _ && _).
  { apply required_settled; [done|]. intros f Hf. apply quiet_settled; [done|by apply Hrp|].
    intros _. by apply ret_settled. }
  apply quiet_settled; [done|auto with quiet|]. intros _.
  destruct (eqs (Status r0) ClientStatusExpired || _); [by apply fail_settled|].
  destruct (negb (eqs (Status r0) ClientStatusActive) && _) eqn:Hst; [by apply fail_settled|].
  destruct (negb (managementTokenMatches _ _)); [by apply fail_settled|].
  set (key := Strings.trim_space newKey) in *.
  assert (∀ r, wf_client r → ClientStore.ClientID r = q_ClientID request → moved (Status r0) (Status r) →
    moved (Status r) ClientStatusActive →
    htriple (λ fs, stored directory (q_ClientID request) fs r)
      (required "replace authorization" replace (λ replace,
         replace (PublicKey r) key;;
         let r' := set_PreviousManagementTokenSHA256 (ManagementTokenSHA256 r) (set_PreviousPublicKey (PublicKey r) r) in
         let r' := set_PublicKeySHA256 (PublicKeyDigest key) (set_PublicKey key r') in
         let r' := set_ManagementTokenSHA256 next r' in
         let r' := set_OperationStartedAt "" (set_PendingManagementTokenSHA256 "" (set_PendingPublicKey "" r')) in
         let r' := set_Generation (generationStamp now') (set_Status ClientStatusActive r') in
         writeClientAtomic H directory r';; mret r'))
      (settled directory (q_ClientID request) r0)) as Htail.
  { intros r Hwf' Hid' Hm Hm'. apply required_settled; [done|]. intros f Hf.
    apply quiet_settled; [done|by apply Hrp|]. intros _. cbv zeta.
    apply write_settled; [done| |exact Hid'|exact Hm'].
    assert (ascii (PublicKeyDigest key)) by apply Hex_ascii. wf_update. }
  destruct (eqs (Status r0) ClientStatusActive) eqn:Hact.
  - set (r1 := set_PendingManagementTokenSHA256 next (set_PendingPublicKey key r0)).
    assert (wf_client r1) as Hwf1 by (unfold r1; wf_update).
    apply mark_settled; [done|done|exact Hid|by apply ascii_forallb|solve_moved|]. intros r ->.
    apply Htail; [wf_update|exact Hid|solve_moved|solve_moved].
  - destruct (_ || _); [by apply fail_settled|]. apply ret_bind, Htail; [done|done|done|solve_moved].
Qed.

(** The operations of an expiry leave the client's file alone. *)
Record quiet_ops (clientID : string) (ops : Grant.ExpireOps world) : Prop := {
  quiet_remove f k : Grant.RemoveAuthorization ops = Some f → quiet directory clientID (f k : HM ());
  quiet_verifyAuth f k : Grant.VerifyAuthorizationGone ops = Some f → quiet directory clientID (f k : HM ());
  quiet_terminate f a b c : Grant.TerminateSession ops = Some f → quiet directory clientID (f a b c : HM ());
  quiet_verifySession f a b c : Grant.VerifySessionGone ops = Some f → quiet directory clientID (f a b c : HM ());
  quiet_burn f : Grant.BurnManagementToken ops = Some f → quiet directory clientID (f : HM string);
  burn_ascii f w h : Grant.BurnManagementToken ops = Some f → (f w).1 = Ok h → ascii h;
}.

Lemma runStep_inv {S A} (Φ : S → Prop) label (op : S → result A * S) (k : S → result () * S) s :
  (∀ s, Φ s → Φ (op s).2) → (∀ s, Φ s → Φ (k s).2) → Φ s → Φ (Grant.runStep label op k s).2.
Proof.
  intros Hop Hk Hs. unfold Grant.runStep. specialize (Hop s Hs). destruct (op s) as [[a|e] s']; [by apply Hk|done].
Qed.

Lemma runExpire_quiet clientID plan ops w :
  quiet_ops clientID ops →
  files (runExpire plan ops w).2 !! clientPath directory clientID = files w !! clientPath directory clientID ∧
  ∀ h, (runExpire plan ops w).1 = Ok h → ascii h.
Proof.
  intros Hq. unfold runExpire.
  set (Φ := λ s : world * string, files s.1 !! clientPath directory clientID = files w !! clientPath directory clientID
    ∧ ascii s.2).
  enough (Φ (Grant.ExecuteExpire plan (wrapOps ops) (w, ""%string)).2) as HΦ.
  { destruct (Grant.ExecuteExpire _ _ _) as [res [w' hash]]. destruct HΦ as [H1 H2]. split; [exact H1|].
    cbn. intros h Hh. by destruct res; [injection Hh as <-|]. }
  assert (Φ (w, ""%string)) as H0 by (split; [done|constructor]).
  assert (∀ A (m : HM A) s, quiet directory clientID m → Φ s → Φ (onWorld m s).2) as Hon.
  { intros A m [w1 h1] Hm [H1 H2]. unfold onWorld. specialize (Hm w1). cbn [fst snd] in *.
    destruct (m w1) as [x w2]. split; [|done]. cbn [fst snd] in *. by rewrite Hm. }
  unfold Grant.ExecuteExpire, wrapOps. cbn [Grant.RemoveAuthorization Grant.VerifyAuthorizationGone
    Grant.TerminateSession Grant.VerifySessionGone Grant.BurnManagementToken].
  destruct (Grant.ValidateExpirePlan plan); [|done]. destruct (Grant.AuthorizeTransition _ _); [|done].
  destruct (Grant.RemoveAuthorization ops) as [f1|] eqn:H1; [|done].
  destruct (Grant.VerifyAuthorizationGone ops) as [f2|] eqn:H2; [|done].
  destruct (Grant.TerminateSession ops) as [f3|] eqn:H3; [|done].
  destruct (Grant.VerifySessionGone ops) as [f4|] eqn:H4; [|done]. cbn [fmap option_fmap option_map].
  apply runStep_inv; [intros s Hs; by apply Hon; [eapply quiet_remove|]|intros s Hs|exact H0].
  apply runStep_inv; [intros s' Hs'; by apply Hon; [eapply quiet_terminate|]|intros s' Hs'|exact Hs].
  apply runStep_inv; [intros s2 Hs2; by apply Hon; [eapply quiet_verifyAuth|]|intros s2 Hs2|exact Hs'].
  apply runStep_inv; [intros s3 Hs3; by apply Hon; [eapply quiet_verifySession|]|intros s3 Hs3|exact Hs2].
  apply runStep_inv; [|done|exact Hs3]. intros [w4 h4] [Hw4 Hh4]. cbn [fst snd].
  destruct (Grant.BurnManagementToken ops) as [f5|] eqn:H5; [|done].
  pose proof (quiet_burn _ _ Hq f5 H5 w4) as Hb. pose proof (burn_ascii _ _ Hq f5 w4) as Hba. cbn [fst snd] in *.
  destruct (f5 w4) as [[h|e] w5] eqn:Hf5; cbn [fst snd] in *;
    (split; cbn [fst snd]; [by rewrite Hb|]); [by apply Hba|constructor].
Qed.

Lemma ValidateExpirePlan_status plan :
  Grant.ValidateExpirePlan plan = Ok () →
  Grant.Status plan = ClientStatusActive ∨ Grant.Status plan = ClientStatusExpirationPending ∨
  Grant.Status plan = ClientStatusRotationPending.
Proof.
  unfold Grant.ValidateExpirePlan, Grant.eqs. do 3 (case_match; [done|]).
  destruct (bool_decide_reflect (Grant.Status plan = Grant.StatusActive)); [auto|].
  destruct (bool_decide_reflect (Grant.Status plan = Grant.StatusExpirationPending)); [auto|].
  destruct (bool_decide_reflect (Grant.Status plan = Grant.StatusRotationPending)); [auto|done].
Qed.

Lemma ExpireClient_settled clientID now ops r0 :
  quiet_ops clientID ops →
  htriple (λ fs, stored directory clientID fs r0) (ExpireClient H directory clientID now ops)
    (settled directory clientID r0).
Proof.
  intros Hq. unfold ExpireClient. apply quiet_settled; [done|auto with quiet|]. intros now'.
  destruct (negb (isHexID clientID)); [by apply fail_settled|].
  apply locked_settled. intros Hwf Hid. apply load_settled.
  destruct (eqs (Status r0) ClientStatusExpired); [by apply ret_settled|].
  destruct (Grant.ParseUTC _) as [notAfter|e]; [|by apply fail_settled]. cbv zeta.
  destruct (Grant.ValidateExpirePlan _) as [[]|e] eqn:Hplan; [|by apply fail_settled].
  apply (ret_bind _ ()).
  assert (∀ r p, wf_client r → ClientStore.ClientID r = clientID → moved (Status r0) (Status r) →
    moved (Status r) ClientStatusExpired →
    htriple (λ fs, stored directory clientID fs r)
      (burned ← runExpire p ops;
       let r' := if eqs burned "" then r else set_ManagementTokenSHA256 burned
                   (set_PreviousManagementTokenSHA256 (ManagementTokenSHA256 r) r) in
       let r' := set_OperationStartedAt "" (set_ExpiredAt (formatTime now') (set_Status ClientStatusExpired r')) in
       writeClientAtomic H directory r';; mret r')
      (settled directory clientID r0)) as Htail.
  { intros r p Hwf' Hid' Hm Hm'. eapply (htriple_bind _ _ (λ b fs, stored directory clientID fs r ∧ ascii b)).
    - intros w Hw. destruct (runExpire_quiet clientID p ops w Hq) as [Hf Ha].
      assert (stored directory clientID (files (runExpire p ops w).2) r) as Hs by (by eapply stored_same).
      destruct (runExpire p ops w) as [[b|e] w']; cbn in *; [by auto|by eapply settled_err].
    - intros b w [Hw Hb]. revert w Hw. cbv zeta. destruct (eqs b "");
      (apply write_settled; [done|wf_update|exact Hid'|exact Hm']). }
  destruct (eqs (Status r0) ClientStatusActive || eqs (Status r0) ClientStatusRotationPending) eqn:Hst.
  - assert (Grant.AuthorizeTransition (Status r0) ClientStatusExpirationPending = Ok ()) as Hauth
      by (status_cases; rewrite Hst; reflexivity). rewrite Hauth.
    apply mark_settled; [done|done|done|by apply ascii_forallb|solve_moved|]. intros r ->.
    apply Htail; [wf_update|exact Hid|solve_moved|].
    by apply (moved_once ClientStatusExpirationPending).
  - apply ret_bind, Htail; [done|done|done|]. apply orb_false_iff in Hst as [Ha1 Ha2].
    apply ValidateExpirePlan_status in Hplan. cbn [Grant.Status] in Hplan.
    apply bool_decide_eq_false in Ha1, Ha2. destruct Hplan as [Hp|[Hp|Hp]]; [done| |done].
    rewrite Hp. by apply moved_once.
Qed.

End ops.

(** ** The life of a client *)

Section life.
Context {CR : Crypto} (H : hostEnv) (rnd : nat → nat → bytes) (directory clientID : string).

(** One management operation on the client, with any request, callbacks that
    leave the client's file alone, and any system calls failing.  A process
    that dies half way is one whose later calls all fail. *)
Inductive clientStep (w : world) : world → Prop :=
| s_revoke request now remove enf :
    q_ClientID request = clientID →
    (∀ f k, remove = Some f → quiet directory clientID (f k)) → quiet_enforcement directory clientID enf →
    clientStep w (RevokeClient H rnd directory request now remove enf w).2
| s_revokeAsHost now remove enf :
    (∀ f k, remove = Some f → quiet directory clientID (f k)) → quiet_enforcement directory clientID enf →
    clientStep w (RevokeClientAsHost H rnd directory clientID now remove enf w).2
| s_rotate request newKey now replace :
    q_ClientID request = clientID → ascii (Strings.trim_space newKey) →
    (∀ f a b, replace = Some f → quiet directory clientID (f a b)) →
    clientStep w (RotateClientPublicKey H directory request newKey now replace w).2
| s_expire now ops :
    quiet_ops directory clientID ops →
    clientStep w (ExpireClient H directory clientID now ops w).2
| s_complete record now remove enf :
    ClientStore.ClientID record = clientID →
    (∀ f k, remove = Some f → quiet directory clientID (f k)) → quiet_enforcement directory clientID enf →
    clientStep w (completePendingRevocation H rnd directory record now remove enf w).2.

Lemma clientStep_moved w w' r :
  clientStep w w' → stored directory clientID (files w) r →
  ∃ r', stored directory clientID (files w') r' ∧ moved (Status r) (Status r').
Proof.
  intros Hs Hr.
  assert (∀ res fs, settled directory clientID r res fs →
    ∃ r', stored directory clientID fs r' ∧ moved (Status r) (Status r')) as Hset.
  { intros res fs (r' & H1 & H2 & _). eauto. }
  destruct Hs as [request now remove enf <- ? ?|now remove enf ? ?|request newKey now replace <- ? ?|now ops ?
                 |record now remove enf <- ? ?]; eapply Hset.
  - by apply RevokeClient_settled.
  - by apply RevokeClientAsHost_settled.
  - by apply RotateClientPublicKey_settled.
  - by apply ExpireClient_settled.
  - by apply completePendingRevocation_settled.
Qed.


Lemma closing_moved a b :
  moved a b → a = ClientStatusRevocationPending ∨ a = ClientStatusRevoked →
  b = ClientStatusRevocationPending ∨ b = ClientStatusRevoked.
Proof.
  induction 1 as [a|a x b Hax _ IH]; [done|]. intros Ha. apply IH. clear IH.
  unfold Grant.CanTransition in Hax. destruct (Grant.eqs a x) eqn:He.
  { apply bool_decide_eq_true in He. by subst x. }
  destruct Ha as [-> | ->]; [|discriminate Hax]. right.
  change (bool_decide (x = ClientStatusRevoked) = true) in Hax. by apply bool_decide_eq_true in Hax.
Qed.

(** Revocation is final.  Once a client's record says revocation_pending
    or revoked, no sequence of operations makes it active again. *)
Theorem revocation_is_final w w' r :
  rtc clientStep w w' → stored directory clientID (files w) r →
  Status r = ClientStatusRevocationPending ∨ Status r = ClientStatusRevoked →
  ∃ r', stored directory clientID (files w') r' ∧
    (Status r' = ClientStatusRevocationPending ∨ Status r' = ClientStatusRevoked).
Proof.
  intros Hs. revert r. induction Hs as [w|w w1 w' Hstep _ IH]; intros r Hr Hst; [by exists r|].
  destruct (clientStep_moved _ _ _ Hstep Hr) as (r1 & Hr1 & Hm1). apply (IH r1 Hr1).
  by eapply closing_moved.
Qed.

End life.
