(* ===== verification/Invite.v ===== *)
(** * internal/enrollment/invite.go: single-use invites

    The invite document, its durable record and the operations on it: create,
    store, load, consume, cancel, revoke and list.  An invite lives in a
    directory of its own ([record.json] and the transferable
    [invite.wtinvite]), which is published by renaming a temporary directory.

    The file system is the flat one of Host.v: a directory is the set of files
    whose path is below it, so a directory without files does not exist. *)

From stdpp Require Import sorting.
From S2P Require Import Prelude GoStd Json StrictJson Time Host Locator Grant SshWire Crypto Packet Kex ClientStore.
From S2P Require Import Clients.
Import Time Json Clients.

(** ** time.Parse with a numeric zone

    [time.Parse(time.RFC3339Nano, s)] and [time.Parse(time.RFC3339, s)] accept
    the same texts: a zone [Z], or an offset [+hh:mm] or [-hh:mm] of up to 24
    hours and 60 minutes, the instant being the local time less the offset. *)
Definition parseRFC3339 (b : bytes) : option Time :=
  match Time.parse b with
  | Some t => Some t
  | None =>
      let n := (length b - 6)%nat in
      match drop n b with
      | sign :: zone =>
          if negb ((zb sign =? 43) || (zb sign =? 45)) then None
          else
            '(hours, zone) ← Time.number 2 0 zone; zone ← Time.expect 58 zone;
            '(minutes, zone) ← Time.number 2 0 zone;
            if (24 <? hours) || (60 <? minutes) || negb (bool_decide (zone = [])) then None
            else
              t ← Time.parse (take n b ++ [bz 90]);
              let offset := (hours * 60 + minutes) * Minute in
              Some (if zb sign =? 43 then t - offset else t + offset)
      | [] => None
      end
  end.

Example zoned_example :
  parseRFC3339 (to_bytes "2026-03-01T01:30:00+02:00") = Time.parse (to_bytes "2026-02-28T23:30:00Z").
Proof. vm_compute. reflexivity. Qed.

(** ** Directories of the flat file system *)

Definition inDir (dir path : string) : bool := Strings.has_prefix path (dir ++ "/").

(** Whether [path] names a file or a directory. *)
Definition occupied (path : string) (fs : gmap string bytes) : bool :=
  existsb (λ x : string * bytes, bool_decide (x.1 = path) || inDir path x.1) (map_to_list fs).

(** A path after its directory [old] has been renamed to [new]. *)
Definition movePath (old new path : string) : string :=
  if inDir old path then (new ++ to_string (drop (String.length old) (to_bytes path)))%string else path.
Definition moveDir (old new : string) (fs : gmap string bytes) : gmap string bytes :=
  list_to_map ((λ x : string * bytes, (movePath old new x.1, x.2)) <$> map_to_list fs).

(** The names of the directories in [dir], sorted: the first element of the
    path of every file that lies deeper. *)
Definition childDir (dir path : string) : option string :=
  if inDir dir path then
    match Strings.split_bytes (bz 47) (drop (String.length dir + 1) (to_bytes path)) with
    | name :: _ :: _ => Some (to_string name)
    | _ => None
    end
  else None.
#[local] Instance nameLe_dec : RelDecision stringLe := λ a b, Is_true_dec (String.leb a b).
Definition dirNames (dir : string) (fs : gmap string bytes) : list string :=
  merge_sort stringLe (remove_dups (omap (λ x : string * bytes, childDir dir x.1) (map_to_list fs))).

Section dirs.
Context (H : hostEnv).

(** [os.Lstat] of a path that may be a directory. *)
Definition LstatDir (path : string) : HM () :=
  sys H;; fs ← get_files; if occupied path fs then mret () else hfail (EOS ENOENT).

(** [os.MkdirTemp(dir, prefix)]: a name nothing has. *)
Definition MkdirTemp (dir prefix : string) : HM string :=
  sys H;; n ← call; fs ← get_files;
  let name := (dir ++ "/" ++ prefix ++ h_temp H n)%string in
  if occupied name fs then hfail (EOS EEXIST) else mret name.

(** [os.Rename] of a directory; a directory with files is not replaced. *)
Definition RenameDir (old new : string) : HM () :=
  sys H;; fs ← get_files;
  if occupied new fs then hfail (EOS EEXIST) else set_files (moveDir old new).

(** [os.RemoveAll] of a directory: a failure leaves some of its files. *)
Definition RemoveAll (dir : string) : HM () :=
  n ← call;
  match h_fault H n with
  | Some e =>
      set_files (λ fs, foldr (delete (M := gmap string bytes)) fs
        (take (h_partial H n) (filter (λ p, inDir dir p = true) (map_to_list fs).*1)));; hfail e
  | None => set_files (filter (λ x : string * bytes, inDir dir x.1 = false))
  end.

(** [os.ReadDir], the directories. *)
Definition ReadDirs (dir : string) : HM (list string) :=
  sys H;; fs ← get_files; mret (dirNames dir fs).

End dirs.

Module Invite.

Definition KindInvite : string := "warptweet.invite".
Definition CurrentSchemaVersion : Z := 3.
Definition DefaultTTL : Duration := 15 * Minute.
Definition NonceBytes : nat := 16.
(** accept.go. *)
Definition DefaultEnrollmentPort : Z := 29722.

(** ** Documents *)

Record InviteDial := mkDial { d_Host : string; d_Port : Z }.
Record InviteEnrollment := mkInviteEnrollment { e_Host : string; e_Port : Z; TLSSPKISHA256 : string }.

Record Invite := mkInvite {
  Kind : string;
  SchemaVersion : Z;
  InviteID : string;
  ClientName : string;
  Data : InviteDial;
  Enrollment : InviteEnrollment;
  PublishedEndpointGeneration : Z;
  TargetAddress : string;
  TargetPort : Z;
  Principal : string;
  ProfileID : string;
  ArtifactProfileID : string;
  HostPublicKey : string;
  IssuedAt : string;
  ExpiresAt : string;
  AuthorizationDurationSeconds : Z;
  Nonce : string;
}.

(** The type [Record] of the source. *)
Record InviteRecord := mkRecord {
  r_Invite : Invite;
  Status : string;
  ConsumedAt : string;
  RevokedAt : string;
  ClientID : string;
}.

Definition StatusIssued : string := "issued".
Definition StatusConsumed : string := "consumed".
Definition StatusCancelled : string := "cancelled".
Definition StatusRevoked : string := "revoked".
Definition StatusExpired : string := "expired".

Definition set_Status (v : string) (r : InviteRecord) : InviteRecord :=
  mkRecord (r_Invite r) v (ConsumedAt r) (RevokedAt r) (ClientID r).
Definition set_ConsumedAt (v : string) (r : InviteRecord) : InviteRecord :=
  mkRecord (r_Invite r) (Status r) v (RevokedAt r) (ClientID r).
Definition set_RevokedAt (v : string) (r : InviteRecord) : InviteRecord :=
  mkRecord (r_Invite r) (Status r) (ConsumedAt r) v (ClientID r).
Definition set_ClientID (v : string) (r : InviteRecord) : InviteRecord :=
  mkRecord (r_Invite r) (Status r) (ConsumedAt r) (RevokedAt r) v.

Definition zeroInvite : Invite :=
  mkInvite "" 0 "" "" (mkDial "" 0) (mkInviteEnrollment "" 0 "") 0 "" 0 "" "" "" "" "" "" 0 "".
Definition zeroRecord : InviteRecord := mkRecord zeroInvite "" "" "" "".

(** ** JSON *)

Definition dialFields : list (field InviteDial) :=
  [("host", string_field (λ v d, mkDial v (d_Port d)));
   ("port", ClientStore.uint_field 16 (λ v d, mkDial (d_Host d) v))]%string.
Definition enrollmentFields : list (field InviteEnrollment) :=
  [("host", string_field (λ v e, mkInviteEnrollment v (e_Port e) (TLSSPKISHA256 e)));
   ("port", ClientStore.uint_field 16 (λ v e, mkInviteEnrollment (e_Host e) v (TLSSPKISHA256 e)));
   ("tls_spki_sha256", string_field (λ v e, mkInviteEnrollment (e_Host e) (e_Port e) v))]%string.
Definition dialJSON (d : InviteDial) : json := JObj [("host", JStr (d_Host d)); ("port", JInt (d_Port d))]%string.
Definition enrollmentJSON (e : InviteEnrollment) : json :=
  JObj [("host", JStr (e_Host e)); ("port", JInt (e_Port e)); ("tls_spki_sha256", JStr (TLSSPKISHA256 e))]%string.

(** Assignments to the fields of an invite. *)
Definition set_Kind v i := mkInvite v (SchemaVersion i) (InviteID i) (ClientName i) (Data i) (Enrollment i)
  (PublishedEndpointGeneration i) (TargetAddress i) (TargetPort i) (Principal i) (ProfileID i) (ArtifactProfileID i)
  (HostPublicKey i) (IssuedAt i) (ExpiresAt i) (AuthorizationDurationSeconds i) (Nonce i).
Definition set_SchemaVersion v i := mkInvite (Kind i) v (InviteID i) (ClientName i) (Data i) (Enrollment i)
  (PublishedEndpointGeneration i) (TargetAddress i) (TargetPort i) (Principal i) (ProfileID i) (ArtifactProfileID i)
  (HostPublicKey i) (IssuedAt i) (ExpiresAt i) (AuthorizationDurationSeconds i) (Nonce i).
Definition set_InviteID v i := mkInvite (Kind i) (SchemaVersion i) v (ClientName i) (Data i) (Enrollment i)
  (PublishedEndpointGeneration i) (TargetAddress i) (TargetPort i) (Principal i) (ProfileID i) (ArtifactProfileID i)
  (HostPublicKey i) (IssuedAt i) (ExpiresAt i) (AuthorizationDurationSeconds i) (Nonce i).
Definition set_ClientName v i := mkInvite (Kind i) (SchemaVersion i) (InviteID i) v (Data i) (Enrollment i)
  (PublishedEndpointGeneration i) (TargetAddress i) (TargetPort i) (Principal i) (ProfileID i) (ArtifactProfileID i)
  (HostPublicKey i) (IssuedAt i) (ExpiresAt i) (AuthorizationDurationSeconds i) (Nonce i).
Definition set_Data v i := mkInvite (Kind i) (SchemaVersion i) (InviteID i) (ClientName i) v (Enrollment i)
  (PublishedEndpointGeneration i) (TargetAddress i) (TargetPort i) (Principal i) (ProfileID i) (ArtifactProfileID i)
  (HostPublicKey i) (IssuedAt i) (ExpiresAt i) (AuthorizationDurationSeconds i) (Nonce i).
Definition set_Enrollment v i := mkInvite (Kind i) (SchemaVersion i) (InviteID i) (ClientName i) (Data i) v
  (PublishedEndpointGeneration i) (TargetAddress i) (TargetPort i) (Principal i) (ProfileID i) (ArtifactProfileID i)
  (HostPublicKey i) (IssuedAt i) (ExpiresAt i) (AuthorizationDurationSeconds i) (Nonce i).
Definition set_PublishedEndpointGeneration v i := mkInvite (Kind i) (SchemaVersion i) (InviteID i) (ClientName i)
  (Data i) (Enrollment i) v (TargetAddress i) (TargetPort i) (Principal i) (ProfileID i) (ArtifactProfileID i)
  (HostPublicKey i) (IssuedAt i) (ExpiresAt i) (AuthorizationDurationSeconds i) (Nonce i).
Definition set_TargetAddress v i := mkInvite (Kind i) (SchemaVersion i) (InviteID i) (ClientName i) (Data i)
  (Enrollment i) (PublishedEndpointGeneration i) v (TargetPort i) (Principal i) (ProfileID i) (ArtifactProfileID i)
  (HostPublicKey i) (IssuedAt i) (ExpiresAt i) (AuthorizationDurationSeconds i) (Nonce i).
Definition set_TargetPort v i := mkInvite (Kind i) (SchemaVersion i) (InviteID i) (ClientName i) (Data i)
  (Enrollment i) (PublishedEndpointGeneration i) (TargetAddress i) v (Principal i) (ProfileID i) (ArtifactProfileID i)
  (HostPublicKey i) (IssuedAt i) (ExpiresAt i) (AuthorizationDurationSeconds i) (Nonce i).
Definition set_Principal v i := mkInvite (Kind i) (SchemaVersion i) (InviteID i) (ClientName i) (Data i)
  (Enrollment i) (PublishedEndpointGeneration i) (TargetAddress i) (TargetPort i) v (ProfileID i)
  (ArtifactProfileID i) (HostPublicKey i) (IssuedAt i) (ExpiresAt i) (AuthorizationDurationSeconds i) (Nonce i).
Definition set_ProfileID v i := mkInvite (Kind i) (SchemaVersion i) (InviteID i) (ClientName i) (Data i)
  (Enrollment i) (PublishedEndpointGeneration i) (TargetAddress i) (TargetPort i) (Principal i) v
  (ArtifactProfileID i) (HostPublicKey i) (IssuedAt i) (ExpiresAt i) (AuthorizationDurationSeconds i) (Nonce i).
Definition set_ArtifactProfileID v i := mkInvite (Kind i) (SchemaVersion i) (InviteID i) (ClientName i) (Data i)
  (Enrollment i) (PublishedEndpointGeneration i) (TargetAddress i) (TargetPort i) (Principal i) (ProfileID i) v
  (HostPublicKey i) (IssuedAt i) (ExpiresAt i) (AuthorizationDurationSeconds i) (Nonce i).
Definition set_HostPublicKey v i := mkInvite (Kind i) (SchemaVersion i) (InviteID i) (ClientName i) (Data i)
  (Enrollment i) (PublishedEndpointGeneration i) (TargetAddress i) (TargetPort i) (Principal i) (ProfileID i)
  (ArtifactProfileID i) v (IssuedAt i) (ExpiresAt i) (AuthorizationDurationSeconds i) (Nonce i).
Definition set_IssuedAt v i := mkInvite (Kind i) (SchemaVersion i) (InviteID i) (ClientName i) (Data i)
  (Enrollment i) (PublishedEndpointGeneration i) (TargetAddress i) (TargetPort i) (Principal i) (ProfileID i)
  (ArtifactProfileID i) (HostPublicKey i) v (ExpiresAt i) (AuthorizationDurationSeconds i) (Nonce i).
Definition set_ExpiresAt v i := mkInvite (Kind i) (SchemaVersion i) (InviteID i) (ClientName i) (Data i)
  (Enrollment i) (PublishedEndpointGeneration i) (TargetAddress i) (TargetPort i) (Principal i) (ProfileID i)
  (ArtifactProfileID i) (HostPublicKey i) (IssuedAt i) v (AuthorizationDurationSeconds i) (Nonce i).
Definition set_AuthorizationDurationSeconds v i := mkInvite (Kind i) (SchemaVersion i) (InviteID i) (ClientName i)
  (Data i) (Enrollment i) (PublishedEndpointGeneration i) (TargetAddress i) (TargetPort i) (Principal i)
  (ProfileID i) (ArtifactProfileID i) (HostPublicKey i) (IssuedAt i) (ExpiresAt i) v (Nonce i).
Definition set_Nonce v i := mkInvite (Kind i) (SchemaVersion i) (InviteID i) (ClientName i) (Data i)
  (Enrollment i) (PublishedEndpointGeneration i) (TargetAddress i) (TargetPort i) (Principal i) (ProfileID i)
  (ArtifactProfileID i) (HostPublicKey i) (IssuedAt i) (ExpiresAt i) (AuthorizationDurationSeconds i) v.

Definition data_field (v : json) (i : Invite) : result Invite :=
  d ← decode true dialFields v (Data i); Ok (set_Data d i).
Definition enrollment_field (v : json) (i : Invite) : result Invite :=
  e ← decode true enrollmentFields v (Enrollment i); Ok (set_Enrollment e i).

Definition inviteFields : list (field Invite) :=
  [("kind", string_field set_Kind);
   ("schema_version", int_field set_SchemaVersion);
   ("invite_id", string_field set_InviteID);
   ("client_name", string_field set_ClientName);
   ("data", data_field);
   ("enrollment", enrollment_field);
   ("published_endpoint_generation", ClientStore.uint_field 64 set_PublishedEndpointGeneration);
   ("target_address", string_field set_TargetAddress);
   ("target_port", ClientStore.uint_field 16 set_TargetPort);
   ("principal", string_field set_Principal);
   ("profile_id", string_field set_ProfileID);
   ("artifact_profile_id", string_field set_ArtifactProfileID);
   ("host_public_key", string_field set_HostPublicKey);
   ("issued_at", string_field set_IssuedAt);
   ("expires_at", string_field set_ExpiresAt);
   ("authorization_duration_seconds", int_field set_AuthorizationDurationSeconds);
   ("nonce", string_field set_Nonce)]%string.

(** The fields of an embedded struct. *)
Definition embedInvite (f : field Invite) : field InviteRecord :=
  (f.1, λ v r, i ← f.2 v (r_Invite r); Ok (mkRecord i (Status r) (ConsumedAt r) (RevokedAt r) (ClientID r))).
Definition recordFields : list (field InviteRecord) :=
  (embedInvite <$> inviteFields) ++
  [("status", string_field set_Status);
   ("consumed_at", string_field set_ConsumedAt);
   ("revoked_at", string_field set_RevokedAt);
   ("client_id", string_field set_ClientID)]%string.

Definition inviteMembers (i : Invite) : list (string * json) :=
  [("kind", JStr (Kind i));
   ("schema_version", JInt (SchemaVersion i));
   ("invite_id", JStr (InviteID i));
   ("client_name", JStr (ClientName i));
   ("data", dialJSON (Data i));
   ("enrollment", enrollmentJSON (Enrollment i));
   ("published_endpoint_generation", JInt (PublishedEndpointGeneration i));
   ("target_address", JStr (TargetAddress i));
   ("target_port", JInt (TargetPort i));
   ("principal", JStr (Principal i));
   ("profile_id", JStr (ProfileID i));
   ("artifact_profile_id", JStr (ArtifactProfileID i));
   ("host_public_key", JStr (HostPublicKey i));
   ("issued_at", JStr (IssuedAt i));
   ("expires_at", JStr (ExpiresAt i));
   ("authorization_duration_seconds", JInt (AuthorizationDurationSeconds i));
   ("nonce", JStr (Nonce i))]%string.

(** [json.Marshal] of an invite and of a record. *)
Definition Encode (invite : Invite) : bytes := print (JObj (inviteMembers invite)).
Definition recordJSON (r : InviteRecord) : json :=
  JObj (inviteMembers (r_Invite r) ++ [("status", JStr (Status r))]%string
        ++ ClientStore.omitempty "consumed_at" (ConsumedAt r)
        ++ ClientStore.omitempty "revoked_at" (RevokedAt r)
        ++ ClientStore.omitempty "client_id" (ClientID r)).

(** ** Checks *)

Definition bad {A} (text : string) : result A := Err (wrapErr ErrInvalidInvite text).

Definition canonicalInviteHost (value : string) : result string :=
  host ← Locator.ParseDialHost value; Locator.Canonical host.

Definition dialLocatorKey (host : string) (port : Z) : result string :=
  canonical ← canonicalInviteHost host; Ok (canonical ++ to_string [bz 0] ++ Strings.itoa port)%string.

(** [if _, err := f(); err != nil { return label: err }]. *)
Definition orBad {A} (label : string) (r : result A) : result A :=
  match r with Ok a => Ok a | Err e => bad (label ++ ": " ++ errText e) end.

Definition isSafeChar (r : Z) : bool := in_range 97 122 r || in_range 65 90 r || in_range 48 57 r.
Definition isSafeName (value : string) : bool :=
  negb (eqs value "" || (64 <? String.length value)%nat)
  && match Utf8.range value with
     | [] => true
     | r :: rest => isSafeChar r
                    && forallb (λ r, isSafeChar r || (r =? 46) || (r =? 95) || (r =? 45)) rest
     end.

Record CreateInput := mkCreateInput {
  c_ClientName : string;
  c_DataHost : string;
  c_DataPort : Z;
  c_EnrollmentHost : string;
  c_EnrollmentPort : Z;
  c_EnrollmentTLSSPKISHA256 : string;
  c_PublishedEndpointGeneration : Z;
  c_TargetAddress : Netip.Addr;
  c_TargetPort : Z;
  c_Principal : string;
  c_ProfileID : string;
  c_ArtifactProfileID : string;
  c_HostPublicKey : string;
  c_TTL : Duration;
  c_AuthorizationDurationSeconds : Z;
  c_MaximumAuthorizationDurationSeconds : Z;
  c_Now : Time;
}.

(** [addr.IsUnspecified()]. *)
Definition IsUnspecified (a : Netip.Addr) : bool :=
  match a with
  | Netip.Addr4 ip => ip =? 0
  | Netip.Addr6 ip zone => (ip =? 0) && bool_decide (zone = ""%string)
  | Netip.AddrInvalid => false
  end.

(** [strings.ContainsAny(s, "\r\n\x00")]. *)
Definition brokenLine (s : string) : bool :=
  existsb (λ c, bool_decide (c ∈ [bz 13; bz 10; bz 0])) (to_bytes s).

Definition enrollmentPortOr (port : Z) : Z := if port =? 0 then DefaultEnrollmentPort else port.

(** The data and the enrollment locator differ. *)
Definition distinctLocators (dataHost : string) (dataPort : Z) (enrollHost : string) (enrollPort : Z) : result () :=
  dataKey ← orBad "data host" (dialLocatorKey dataHost dataPort);
  enrollKey ← orBad "enrollment host" (dialLocatorKey enrollHost enrollPort);
  if eqs dataKey enrollKey
  then bad "data and enrollment locators must not share the same canonical host:port" else Ok ().

Definition validateCreateInput (input : CreateInput) : result () :=
  if eqs (c_ClientName input) "" || negb (isSafeName (c_ClientName input))
  then bad "client name is required and must be alphanumeric with ._- "
  else
    orBad "data host" (canonicalInviteHost (c_DataHost input));;
    orBad "enrollment host" (canonicalInviteHost (c_EnrollmentHost input));;
    let target := c_TargetAddress input in
    if negb (Netip.IsValid target) || IsUnspecified target || negb (eqs (Netip.Zone target) "")
    then bad "target address must be a concrete unzoned IP"
    else if (c_DataPort input =? 0) || (c_TargetPort input =? 0) then bad "ports must be nonzero"
    else if c_PublishedEndpointGeneration input =? 0
    then bad "published_endpoint_generation must be at least 1"
    else
      distinctLocators (c_DataHost input) (c_DataPort input) (c_EnrollmentHost input)
        (enrollmentPortOr (c_EnrollmentPort input));;
      if eqs (c_Principal input) "" || eqs (c_ProfileID input) "" || eqs (c_ArtifactProfileID input) ""
      then bad "principal, profile_id, and artifact_profile_id are required"
      else if eqs (Strings.trim_space (c_HostPublicKey input)) "" || brokenLine (c_HostPublicKey input)
      then bad "host public key is required and must be one line"
      else if negb (isLowerHexDigest (c_EnrollmentTLSSPKISHA256 input))
      then bad "enrollment tls_spki_sha256 must be a lowercase SHA-256 digest"
      else Ok ().

Definition validateInviteShape (invite : Invite) : result () :=
  if negb (eqs (Kind invite) KindInvite) || negb (SchemaVersion invite =? CurrentSchemaVersion)
  then bad "unsupported kind or schema"
  else if eqs (InviteID invite) "" || eqs (ClientName invite) "" || eqs (Nonce invite) ""
  then bad "required fields missing"
  else if negb (isHexID (InviteID invite)) then bad "invite_id is invalid"
  else if PublishedEndpointGeneration invite =? 0 then bad "published_endpoint_generation must be at least 1"
  else
    orBad "data host" (canonicalInviteHost (d_Host (Data invite)));;
    orBad "enrollment host" (canonicalInviteHost (e_Host (Enrollment invite)));;
    orBad "target address" (Netip.ParseAddr (TargetAddress invite));;
    if (d_Port (Data invite) =? 0) || (TargetPort invite =? 0) || (e_Port (Enrollment invite) =? 0)
    then bad "ports must be nonzero"
    else
      distinctLocators (d_Host (Data invite)) (d_Port (Data invite)) (e_Host (Enrollment invite))
        (e_Port (Enrollment invite));;
      if negb (isLowerHexDigest (TLSSPKISHA256 (Enrollment invite)))
      then bad "enrollment tls_spki_sha256 must be a lowercase SHA-256 digest"
      else
        orBad "authorization_duration_seconds" (Grant.DurationFromSeconds (AuthorizationDurationSeconds invite));;
        Ok ().

Definition canonicalizeStoredInvite (invite : Invite) : result Invite :=
  dataHost ← orBad "data host" (canonicalInviteHost (d_Host (Data invite)));
  enrollHost ← orBad "enrollment host" (canonicalInviteHost (e_Host (Enrollment invite)));
  let invite := set_Data (mkDial dataHost (d_Port (Data invite))) invite in
  let invite := set_Enrollment (mkInviteEnrollment enrollHost (e_Port (Enrollment invite))
                                  (TLSSPKISHA256 (Enrollment invite))) invite in
  validateInviteShape invite;; Ok invite.

(** client.go: the published locator an invite carries. *)
Definition PublishedSet (invite : Invite) : result Locator.PublishedEndpointSet :=
  dataHost ← Locator.ParseDialHost (d_Host (Data invite));
  enrollHost ← Locator.ParseDialHost (e_Host (Enrollment invite));
  Locator.CanonicalSet (Locator.mkEndpointSet (PublishedEndpointGeneration invite)
    (Locator.mkEndpoint dataHost (d_Port (Data invite)))
    (Locator.mkEndpoint enrollHost (e_Port (Enrollment invite)))).

Definition InviteExpiry (record : InviteRecord) : result Time :=
  match parseRFC3339 (to_bytes (ExpiresAt (r_Invite record))) with
  | Some t => Ok t
  | None => Err (EMsg "parsing time")
  end.

(** ** Paths *)

Definition inviteDir (directory inviteID : string) : string := Filepath.Join directory inviteID.
Definition recordPath (directory inviteID : string) : string :=
  Filepath.Join (inviteDir directory inviteID) "record.json".
Definition IssuedBlobPath (directory inviteID : string) : string :=
  Filepath.Join (inviteDir directory inviteID) "invite.wtinvite".

(** ** Operations *)

Definition recordText (record : InviteRecord) : bytes := print (recordJSON record) ++ [bz 10].
(** What [Load] makes of a file. *)
Definition readRecord (raw : bytes) : result InviteRecord :=
  record ← ClientStore.decodeStrictJSON recordFields zeroRecord raw;
  invite ← canonicalizeStoredInvite (r_Invite record);
  Ok (mkRecord invite (Status record) (ConsumedAt record) (RevokedAt record) (ClientID record)).

Section invites.
Context (H : hostEnv) (rnd : nat → nat → bytes).

Definition writeRecord (directory inviteID : string) (record : InviteRecord) : HM () :=
  writeFileAtomic H (recordPath directory inviteID) (recordText record).

Definition Create (input : CreateInput) : HM (Invite * InviteRecord) :=
  hlift (validateCreateInput input);;
  let ttl := if c_TTL input <=? 0 then DefaultTTL else c_TTL input in
  if DefaultTTL <? ttl then invalid "ttl exceeds 15m0s"
  else
    let policy :=
      if c_MaximumAuthorizationDurationSeconds input =? 0 then Grant.InstalledDefault
      else Grant.mkPolicy (Grant.p_Kind Grant.InstalledDefault) (Grant.p_SchemaVersion Grant.InstalledDefault)
             (Grant.DefaultAuthorizationDurationSeconds Grant.InstalledDefault)
             (c_MaximumAuthorizationDurationSeconds input) in
    match Grant.ResolveDuration policy (c_AuthorizationDurationSeconds input) with
    | Err e => invalid (errText e)
    | Ok authorizationSeconds =>
        now ← orNow H (c_Now input);
        nonce ← RandRead H rnd NonceBytes;
        inviteID ← RandRead H rnd 16;
        dataHost ← hlift (orBad "data host" (canonicalInviteHost (c_DataHost input)));
        enrollHost ← hlift (orBad "enrollment host" (canonicalInviteHost (c_EnrollmentHost input)));
        let invite := mkInvite KindInvite CurrentSchemaVersion (Hex.encode inviteID) (c_ClientName input)
          (mkDial dataHost (c_DataPort input))
          (mkInviteEnrollment enrollHost (enrollmentPortOr (c_EnrollmentPort input))
             (Strings.trim_space (c_EnrollmentTLSSPKISHA256 input)))
          (c_PublishedEndpointGeneration input)
          (Netip.addr_string (c_TargetAddress input)) (c_TargetPort input)
          (c_Principal input) (c_ProfileID input) (c_ArtifactProfileID input)
          (Strings.trim_space (c_HostPublicKey input))
          (formatTime now) (formatTime (Add now ttl)) authorizationSeconds (Hex.encode nonce) in
        hlift (validateInviteShape invite);;
        mret (invite, mkRecord invite StatusIssued "" "" "")
    end.

Definition storeIssuedAtomic (directory : string) (record : InviteRecord) (blob : bytes) : HM () :=
  sys H;;                                        (* MkdirAll *)
  tempDir ← MkdirTemp H directory ".wt-invite-tx-";
  r ← htry
    (writeFileAtomic H (Filepath.Join tempDir "record.json") (recordText record);;
     writeFileAtomic H (Filepath.Join tempDir "invite.wtinvite") (blob ++ [bz 10]);;
     sys H;; sys H;; sys H;;                     (* open, sync and close it *)
     RenameDir H tempDir (inviteDir directory (InviteID (r_Invite record))));
  match r with
  | Err e => htry (RemoveAll H tempDir);; hfail e
  | Ok _ => sys H;; deferred (sys H) (sys H)     (* open and sync the directory *)
  end.

Definition Store (directory : string) (record : InviteRecord) : HM () :=
  if negb (isHexID (InviteID (r_Invite record))) then invalid "invite_id is invalid"
  else
    sys H;;                                      (* MkdirAll *)
    r ← htry (LstatDir H (inviteDir directory (InviteID (r_Invite record))));
    match r with
    | Ok _ => hfail (EMsg ("invite " ++ InviteID (r_Invite record) ++ " already exists"))
    | Err _ => storeIssuedAtomic directory record (Encode (r_Invite record))
    end.

Definition Load (directory inviteID : string) : HM InviteRecord :=
  if negb (isHexID inviteID) then invalid "invite_id is invalid"
  else
    contents ← ReadFile H (recordPath directory inviteID);
    hlift (readRecord contents).

(** [bytes.TrimSuffix(contents, "\n")]. *)
Definition trimNewline (contents : bytes) : bytes :=
  match reverse contents with
  | x :: r => if zb x =? 10 then reverse r else contents
  | [] => []
  end.

Definition LoadIssuedBlob (directory inviteID : string) : HM bytes :=
  if negb (isHexID inviteID) then invalid "invite_id is invalid"
  else
    r ← htry (ReadFile H (IssuedBlobPath directory inviteID));
    match r with
    | Ok contents => mret (trimNewline contents)
    | Err e =>
        if negb (IsNotExist e) then hfail e
        else
          loaded ← htry (Load directory inviteID);
          match loaded with
          | Err _ => hfail e
          | Ok record => mret (Encode (r_Invite record))
          end
    end.

Definition InviteExpired (record : InviteRecord) (now : Time) : HM bool :=
  now ← orNow H now;
  match InviteExpiry record with
  | Err _ => mret true
  | Ok expires => mret (negb (Before now expires))
  end.

Fixpoint loadInvites (directory : string) (names : list string) : HM (list InviteRecord) :=
  match names with
  | [] => mret []
  | name :: rest =>
      if Strings.has_prefix name "." || negb (isHexID name) then loadInvites directory rest
      else
        record ← Load directory name;
        records ← loadInvites directory rest;
        mret (record :: records)
  end.

Definition List (directory : string) : HM (list InviteRecord) :=
  r ← htry (ReadDirs H directory);
  match r with
  | Err e => if IsNotExist e then mret [] else hfail e
  | Ok names => loadInvites directory names
  end.

(** The record is written as expired; a failure is dropped. *)
Definition markExpired (directory inviteID : string) (record : InviteRecord) : HM () :=
  htry (writeRecord directory inviteID (set_Status StatusExpired record));; mret ().

Fixpoint unusedIssued (directory : string) (generation : Z) (now : Time) (records : list InviteRecord)
    : HM (list InviteRecord) :=
  match records with
  | [] => mret []
  | record :: rest =>
      if negb (eqs (Status record) StatusIssued)
         || negb (PublishedEndpointGeneration (r_Invite record) =? generation)
      then unusedIssued directory generation now rest
      else
        expired ← InviteExpired record now;
        if (expired : bool) then
          markExpired directory (InviteID (r_Invite record)) record;;
          unusedIssued directory generation now rest
        else
          issued ← unusedIssued directory generation now rest;
          mret (record :: issued)
  end.
Definition UnusedIssuedForGeneration (directory : string) (generation : Z) (now : Time) : HM (list InviteRecord) :=
  now ← orNow H now;
  records ← List directory;
  unusedIssued directory generation now records.

Definition Consume (directory inviteID clientID : string) (now : Time) : HM InviteRecord :=
  record ← Load directory inviteID;
  if negb (eqs (Status record) StatusIssued) then invalid ("invite status is " ++ Status record)
  else
    now ← orNow H now;
    expires ← hlift (InviteExpiry record);
    if negb (Before now expires) then
      markExpired directory inviteID record;; invalid "invite expired"
    else
      let record := set_ClientID clientID (set_ConsumedAt (formatTime now) (set_Status StatusConsumed record)) in
      writeRecord directory inviteID record;; mret record.

(** accept.go: [lockInvite]. *)
Definition lockInvite {A} (directory inviteID : string) (body : HM A) : HM A :=
  withLock H directory ("." ++ inviteID ++ ".lock") "invite" body.

Definition Cancel (directory inviteID : string) (now : Time) : HM InviteRecord :=
  lockInvite directory inviteID
    (record ← Load directory inviteID;
     if eqs (Status record) StatusCancelled then mret record
     else if eqs (Status record) StatusConsumed || eqs (Status record) StatusRevoked
     then hfail (EMsg ("invite " ++ inviteID ++ " is " ++ Status record
                       ++ "; cancel applies only to unconsumed invitations"))
     else
       now ← orNow H now;
       let record := set_RevokedAt (formatTime now) (set_Status StatusCancelled record) in
       writeRecord directory inviteID record;; mret record).

Definition Revoke (directory inviteID : string) (now : Time) : HM InviteRecord :=
  record ← Load directory inviteID;
  if eqs (Status record) StatusRevoked then mret record
  else if eqs (Status record) StatusIssued || eqs (Status record) StatusCancelled
  then hfail (EMsg ("invite " ++ inviteID ++ " is " ++ Status record ++ "; revoke applies only after consumption"))
  else
    now ← orNow H now;
    let record := set_RevokedAt (formatTime now) (set_Status StatusRevoked record) in
    writeRecord directory inviteID record;; mret record.

End invites.

End Invite.
