(* ===== verification/Accept.v ===== *)
(** * internal/enrollment/accept.go: accepting an enrollment

    [Accept] checks a request against a stored invite, creates the client
    record, installs the authorization, makes the client active and consumes
    the invite; an exact retry converges to the same result.  The installer of
    the authorization is a callback over the same host. *)

From S2P Require Import Prelude GoStd Json StrictJson Time Host Locator Grant SshWire Crypto Packet Kex ClientStore.
From S2P Require Import Clients Invite.
Import Time Json Clients.

Module Accept.
Import Invite.

(** client.go. *)
Record EnrollmentRequest := mkRequest {
  q_InviteID : string;
  q_Nonce : string;
  q_ClientName : string;
  q_PublicKey : string;
  q_ProfileID : string;
  q_TunnelID : string;
  q_ListenAddress : string;
  q_ListenPort : Z;
  q_ManagementToken : string;
}.

Record EnrollmentProof := mkProof {
  p_InviteID : string;
  p_ClientID : string;
  p_HostPublicKey : string;
  p_PublicKey : string;
  p_Target : string;
  p_Principal : string;
  p_ProfileID : string;
  p_Nonce : string;
  p_AcceptedAt : string;
  p_AuthorizationNotAfter : string;
  p_AuthorizationDurationSeconds : Z;
  p_Published : Locator.PublishedEndpointSet;
}.

Record AcceptInput := mkAcceptInput {
  a_Directory : string;
  a_ClientsDirectory : string;
  a_Request : EnrollmentRequest;
  a_HostPublicKey : string;
  a_Principal : string;
  a_ProfileID : string;
  a_TargetAddress : string;
  a_TargetPort : Z;
  a_Published : Locator.PublishedEndpointSet;
  a_Now : Time;
  a_InstallAuthorization : option (string → Time → HM ());
}.

Record AcceptResult := mkAcceptResult {
  Proof_ : EnrollmentProof;
  PublicKey : string;
  Invite_ : Invite;
  ar_ClientID : string;
}.

(** json.Unmarshal into an [EnrollmentRequest]. *)
Definition zeroRequest : EnrollmentRequest := mkRequest "" "" "" "" "" "" "" 0 "".
Definition requestFields : list (field EnrollmentRequest) :=
  [("invite_id", string_field (λ v q, mkRequest v (q_Nonce q) (q_ClientName q) (q_PublicKey q) (q_ProfileID q)
      (q_TunnelID q) (q_ListenAddress q) (q_ListenPort q) (q_ManagementToken q)));
   ("nonce", string_field (λ v q, mkRequest (q_InviteID q) v (q_ClientName q) (q_PublicKey q) (q_ProfileID q)
      (q_TunnelID q) (q_ListenAddress q) (q_ListenPort q) (q_ManagementToken q)));
   ("client_name", string_field (λ v q, mkRequest (q_InviteID q) (q_Nonce q) v (q_PublicKey q) (q_ProfileID q)
      (q_TunnelID q) (q_ListenAddress q) (q_ListenPort q) (q_ManagementToken q)));
   ("public_key", string_field (λ v q, mkRequest (q_InviteID q) (q_Nonce q) (q_ClientName q) v (q_ProfileID q)
      (q_TunnelID q) (q_ListenAddress q) (q_ListenPort q) (q_ManagementToken q)));
   ("profile_id", string_field (λ v q, mkRequest (q_InviteID q) (q_Nonce q) (q_ClientName q) (q_PublicKey q) v
      (q_TunnelID q) (q_ListenAddress q) (q_ListenPort q) (q_ManagementToken q)));
   ("tunnel_id", string_field (λ v q, mkRequest (q_InviteID q) (q_Nonce q) (q_ClientName q) (q_PublicKey q)
      (q_ProfileID q) v (q_ListenAddress q) (q_ListenPort q) (q_ManagementToken q)));
   ("listen_address", string_field (λ v q, mkRequest (q_InviteID q) (q_Nonce q) (q_ClientName q) (q_PublicKey q)
      (q_ProfileID q) (q_TunnelID q) v (q_ListenPort q) (q_ManagementToken q)));
   ("listen_port", ClientStore.uint_field 16 (λ v q, mkRequest (q_InviteID q) (q_Nonce q) (q_ClientName q)
      (q_PublicKey q) (q_ProfileID q) (q_TunnelID q) (q_ListenAddress q) v (q_ManagementToken q)));
   ("management_token", string_field (λ v q, mkRequest (q_InviteID q) (q_Nonce q) (q_ClientName q) (q_PublicKey q)
      (q_ProfileID q) (q_TunnelID q) (q_ListenAddress q) (q_ListenPort q) v))]%string.

Definition validateEnrollmentRequest (request : EnrollmentRequest) : result () :=
  if eqs (q_InviteID request) "" || eqs (q_Nonce request) "" || eqs (q_ClientName request) ""
  then bad "invite_id, nonce, and client_name are required"
  else if negb (isHexID (q_InviteID request)) then bad "invite_id must be hex"
  else if negb (isHexID (q_Nonce request)) then bad "nonce must be hex"
  else if negb (isSafeName (q_ClientName request)) then bad "client_name is invalid"
  else if eqs (q_ProfileID request) "" || eqs (q_TunnelID request) ""
  then bad "profile_id and tunnel_id are required"
  else if negb (eqs (q_ListenAddress request) "127.0.0.1") then bad "listen_address must be 127.0.0.1"
  else if q_ListenPort request =? 0 then bad "listen_port must be nonzero"
  else if negb (isManagementToken (q_ManagementToken request))
  then bad "management_token must be 64 lowercase hex characters"
  else validatePublicKeyLine (q_PublicKey request).

(** [fmt.Sprintf("%s:%d", address, port)]. *)
Definition targetText (invite : Invite) : string :=
  (TargetAddress invite ++ ":" ++ Strings.itoa (TargetPort invite))%string.

(** The part of [Accept] before the lock: what is wrong with the input. *)
Definition checkInput (input : AcceptInput) : result Locator.PublishedEndpointSet :=
  let request := a_Request input in
  if eqs (a_Directory input) "" then bad "invite directory is required"
  else
    validateEnrollmentRequest request;;
    if eqs (Strings.trim_space (a_HostPublicKey input)) "" || brokenLine (a_HostPublicKey input)
    then bad "host public key is required"
    else if eqs (a_Principal input) "" || eqs (a_ProfileID input) ""
    then bad "principal and profile_id are required"
    else if negb (eqs (a_ProfileID input) Profile.CurrentID) || negb (eqs (q_ProfileID request) Profile.CurrentID)
    then bad "unsupported profile_id"
    else if eqs (a_TargetAddress input) "" || (a_TargetPort input =? 0) then bad "target is required"
    else orBad "published endpoint set" (Locator.CanonicalSet (a_Published input)).

(** The invite is for this request and this host. *)
Definition checkInvite (input : AcceptInput) (record : InviteRecord) : result () :=
  let request := a_Request input in
  let invite := r_Invite record in
  if negb (eqs (Nonce invite) (q_Nonce request)) then bad "invite nonce mismatch"
  else if negb (eqs (ClientName invite) (q_ClientName request)) then bad "client_name mismatch"
  else if negb (eqs (ProfileID invite) (q_ProfileID request)) || negb (eqs (ProfileID invite) (a_ProfileID input))
  then bad "profile_id mismatch"
  else if negb (eqs (Principal invite) (a_Principal input)) then bad "principal mismatch"
  else if negb (eqs (TargetAddress invite) (a_TargetAddress input))
          || negb (TargetPort invite =? a_TargetPort input)
  then bad "target mismatch"
  else if negb (eqs (HostPublicKey invite) (Strings.trim_space (a_HostPublicKey input)))
  then bad "host public key mismatch"
  else Ok ().

(** The client record on disk is the one this acceptance would have stored. *)
Definition sameEnrollment (existing want : ClientStore.ClientRecord) : bool :=
  (eqs (ClientStore.Status existing) ClientStatusEnrollmentPending
   || eqs (ClientStore.Status existing) ClientStatusActive)
  && eqs (ClientStore.InviteID existing) (ClientStore.InviteID want)
  && eqs (ClientStore.TunnelID existing) (ClientStore.TunnelID want)
  && eqs (ClientStore.PublicKey existing) (ClientStore.PublicKey want)
  && constantTimeDigestEqual (ClientStore.ManagementTokenSHA256 existing) (ClientStore.ManagementTokenSHA256 want)
  && eqs (ClientStore.Principal existing) (ClientStore.Principal want)
  && eqs (ClientStore.ProfileID existing) (ClientStore.ProfileID want)
  && Locator.EqualSet (ClientStore.Published existing) (ClientStore.Published want)
  && (ClientStore.AuthorizationDurationSeconds existing =? ClientStore.AuthorizationDurationSeconds want)
  && eqs (ClientStore.TargetAddress existing) (ClientStore.TargetAddress want)
  && (ClientStore.TargetPort existing =? ClientStore.TargetPort want).

Section accept.
Context {CR : Crypto}.
Context (H : hostEnv).

(** The first 16 bytes of a hash of the invite and the key; [tag] separates
    the two kinds of identifiers. *)
Definition digestID (tag : Z) (inviteID publicKey : string) : string :=
  Hex.encode (take 16 (sha256 (to_bytes inviteID ++ [bz tag] ++ to_bytes (Strings.trim_space publicKey)))).
Definition clientIDFor (inviteID publicKey : string) : string := digestID 0 inviteID publicKey.
Definition grantIDFor (inviteID publicKey : string) : string := digestID 1 inviteID publicKey.

Definition storeOrResumePendingClient (directory : string) (want : ClientStore.ClientRecord)
    : HM ClientStore.ClientRecord :=
  r ← htry (StoreClient H directory want);
  match r with
  | Ok _ => mret want
  | Err e =>
      loaded ← htry (LoadClient H directory (ClientStore.ClientID want));
      match loaded with
      | Err _ => hfail e
      | Ok existing =>
          if sameEnrollment existing want then mret existing
          else invalid "conflicting client enrollment state"
      end
  end.

Definition acceptedResult (input : AcceptInput) (invite : InviteRecord) (client : ClientStore.ClientRecord)
    (publicKey : string) : AcceptResult :=
  let published :=
    match Locator.CanonicalSet (a_Published input) with
    | Ok canonical => canonical
    | Err _ => ClientStore.Published client
    end in
  let i := r_Invite invite in
  mkAcceptResult
    (mkProof (InviteID i) (ClientStore.ClientID client) (HostPublicKey i) publicKey (targetText i) (Principal i)
       (ProfileID i) (Nonce i) (ClientStore.AcceptedAt client) (ClientStore.AuthorizationNotAfter client)
       (ClientStore.AuthorizationDurationSeconds client) published)
    publicKey i (ClientStore.ClientID client).

Definition resumeAcceptedEnrollment (input : AcceptInput) (invite : InviteRecord) (clientID publicKey : string)
    : HM AcceptResult :=
  if negb (eqs (ClientID invite) clientID) || eqs (a_ClientsDirectory input) ""
  then invalid "invite has already been consumed"
  else
    loaded ← htry (LoadClient H (a_ClientsDirectory input) clientID);
    match loaded with
    | Err _ => invalid "consumed invite client state is unavailable"
    | Ok client =>
        if negb (eqs (ClientStore.Status client) ClientStatusActive)
           || negb (eqs (ClientStore.InviteID client) (InviteID (r_Invite invite)))
           || negb (eqs (ClientStore.TunnelID client) (q_TunnelID (a_Request input)))
           || negb (eqs (ClientStore.PublicKey client) publicKey)
           || negb (constantTimeDigestEqual (ClientStore.ManagementTokenSHA256 client)
                      (HashManagementToken (q_ManagementToken (a_Request input))))
           || negb (Locator.EqualSet (ClientStore.Published client) (a_Published input))
        then invalid "invite retry does not match accepted enrollment"
        else match a_InstallAuthorization input with
        | None => hfail (EMsg "enrollment authorization installer is required")
        | Some install =>
            match Grant.ParseUTC (ClientStore.AuthorizationNotAfter client) with
            | Err e => invalid ("stored authorization_not_after: " ++ errText e)
            | Ok notAfter =>
                r ← htry (install publicKey notAfter);
                match r with
                | Err e => hfail (EMsg ("reconcile client authorization: " ++ errText e))
                | Ok _ => mret (acceptedResult input invite client publicKey)
                end
            end
        end
    end.

(** The installer's error is reported as such. *)
Definition runInstall (install : string → Time → HM ()) (publicKey : string) (notAfter : Time) : HM () :=
  r ← htry (install publicKey notAfter);
  match r with
  | Ok _ => mret ()
  | Err e => hfail (EMsg ("install client authorization: " ++ errText e))
  end.

(** The client record an acceptance stores. *)
Definition wantClient (input : AcceptInput) (published : Locator.PublishedEndpointSet) (record : InviteRecord)
    (publicKey clientID notAfterEncoded : string) (now : Time) : ClientStore.ClientRecord :=
  let invite := r_Invite record in
  let request := a_Request input in
  ClientStore.mkClient clientID (grantIDFor (InviteID invite) publicKey) (q_TunnelID request) (q_TunnelID request)
    (InviteID invite) publicKey (PublicKeyDigest publicKey) (HashManagementToken (q_ManagementToken request))
    (Principal invite) (ProfileID invite) (ArtifactProfileID invite) published (TargetAddress invite)
    (TargetPort invite) ClientStatusEnrollmentPending (formatTime now) notAfterEncoded
    (AuthorizationDurationSeconds invite) "" "" (generationStamp now) "" "" "" "" "".

(** The side effects of an acceptance with a clients directory: the client is
    stored, authorized and active.  The client as it was stored is returned. *)
Definition enrollClient (directory : string) (want : ClientStore.ClientRecord)
    (install : string → Time → HM ()) (publicKey : string) : HM ClientStore.ClientRecord :=
  client ← storeOrResumePendingClient directory want;
  match Grant.ParseUTC (ClientStore.AuthorizationNotAfter client) with
  | Err e => invalid ("stored authorization_not_after: " ++ errText e)
  | Ok notAfter =>
      runInstall install publicKey notAfter;;
      (if eqs (ClientStore.Status client) ClientStatusEnrollmentPending
       then UpdateClient H directory (ClientStore.set_Status ClientStatusActive client) else mret ());;
      mret client
  end.

(** What [Accept] does with an issued invite that fits the request. *)
Definition acceptIssued (input : AcceptInput) (published : Locator.PublishedEndpointSet) (now : Time)
    (record : InviteRecord) (clientID publicKey : string) : HM AcceptResult :=
  match InviteExpiry record with
  | Err _ => invalid "parse expires_at"
  | Ok expires =>
      match a_InstallAuthorization input with
      | None => hfail (EMsg "enrollment authorization installer is required")
      | Some install =>
          if negb (Before now expires) then
            markExpired H (a_Directory input) (InviteID (r_Invite record)) record;; invalid "invite expired"
          else
            let seconds := AuthorizationDurationSeconds (r_Invite record) in
            if seconds =? 0 then invalid "invite missing authorization_duration_seconds"
            else match Grant.AuthorizationNotAfter now seconds with
            | Err e => invalid (errText e)
            | Ok (notAfter, notAfterEncoded) =>
                '(acceptedAt, notAfterEncoded, seconds) ←
                  (if negb (eqs (a_ClientsDirectory input) "") then
                     client ← enrollClient (a_ClientsDirectory input)
                       (wantClient input published record publicKey clientID notAfterEncoded now)
                       install publicKey;
                     mret (ClientStore.AcceptedAt client, ClientStore.AuthorizationNotAfter client,
                           ClientStore.AuthorizationDurationSeconds client)
                   else
                     runInstall install publicKey notAfter;;
                     mret (formatTime now, notAfterEncoded, seconds));
                consumed ← Consume H (a_Directory input) (InviteID (r_Invite record)) clientID now;
                let i := r_Invite consumed in
                mret (mkAcceptResult
                  (mkProof (InviteID i) clientID (HostPublicKey i) publicKey (targetText i) (Principal i)
                     (ProfileID i) (Nonce i) acceptedAt notAfterEncoded seconds published)
                  publicKey i clientID)
            end
      end
  end.

Definition Accept (input : AcceptInput) : HM AcceptResult :=
  published ← hlift (checkInput input);
  now ← orNow H (a_Now input);
  lockInvite H (a_Directory input) (q_InviteID (a_Request input))
    (loaded ← htry (Load H (a_Directory input) (q_InviteID (a_Request input)));
     match loaded with
     | Err _ => invalid "unknown invite"
     | Ok record =>
         recordSet ← hlift (orBad "invite published set" (PublishedSet (r_Invite record)));
         if negb (Locator.EqualSet recordSet published)
         then invalid "published endpoint set does not match invite"
         else
           let publicKey := Strings.trim_space (q_PublicKey (a_Request input)) in
           let clientID := clientIDFor (InviteID (r_Invite record)) publicKey in
           if eqs (Status record) StatusConsumed
           then resumeAcceptedEnrollment input record clientID publicKey
           else if negb (eqs (Status record) StatusIssued) then invalid ("invite status is " ++ Status record)
           else
             hlift (checkInvite input record);;
             acceptIssued input published now record clientID publicKey
     end).

(** ** The enrollment URL *)

Definition parseHostForURL (serverAddress : string) : result string :=
  let value := Strings.trim_space serverAddress in
  if eqs value "" then bad "server address is required"
  else match Locator.ParseDialHost value with
  | Err e => bad (errText e)
  | Ok host => match Locator.Canonical host with
               | Err e => bad (errText e)
               | Ok canonical => Ok canonical
               end
  end.

Definition joinHostPort (host : string) (port : Z) : string :=
  if Strings.contains host ":" && negb (Strings.has_prefix host "[")
  then ("[" ++ host ++ "]:" ++ Strings.itoa port)%string
  else (host ++ ":" ++ Strings.itoa port)%string.

Definition EnrollmentURL (serverAddress : string) (port : Z) : result string :=
  addr ← parseHostForURL serverAddress;
  Ok ("https://" ++ joinHostPort addr (enrollmentPortOr port) ++ "/v1/enroll")%string.

End accept.

End Accept.
