(* ===== verification/InviteClient.v ===== *)
(** * The client's side of an invite: internal/enrollment/client.go, invitefile.go

    Reading an invite before any network activity, checking the host's proof
    against it, and the files an operator keeps invites in. *)

From S2P Require Import Prelude GoStd Json StrictJson Time Host Locator Grant SshWire Crypto Packet Kex ClientStore.
From S2P Require Import Clients Invite Accept.
Import Time Json Clients Invite.
Import Accept.

Module InviteClient.

Definition MaxInviteBytes : Z := Z.shiftl 16 10.
Definition InviteFileExtension : string := ".wtinvite".
Definition MaxInviteLabelBytes : nat := 48.
Definition InviteIDPathPrefixBytes : nat := 4.

(** ** Labels *)

Definition isLower (r : Z) : bool := in_range 97 122 r.
Definition isDigit (r : Z) : bool := in_range 48 57 r.

(** The loop of [SanitizeInviteLabel]: letters and digits are kept, a run of
    separators becomes one hyphen, anything else is dropped.  [out] is the
    builder's contents, last byte first. *)
Fixpoint sanitizeRunes (rs : list Z) (out : bytes) (lastHyphen : bool) : bytes :=
  match rs with
  | [] => reverse out
  | r :: rest =>
      if isLower r || isDigit r then sanitizeRunes rest (bz r :: out) false
      else if Utf8.is_space r || (r =? 95) || (r =? 46) || (r =? 45) then
        if negb (bool_decide (out = [])) && negb lastHyphen then sanitizeRunes rest (bz 45 :: out) true
        else sanitizeRunes rest out lastHyphen
      else sanitizeRunes rest out lastHyphen
  end.

(** [strings.Trim(s, "-")]. *)
Fixpoint dropHyphens (b : bytes) : bytes :=
  match b with x :: r => if zb x =? 45 then dropHyphens r else b | [] => [] end.
Definition trimHyphens (b : bytes) : bytes := reverse (dropHyphens (reverse (dropHyphens b))).

(** A label that starts with a digit gets an [n]. *)
Definition prefixDigit (label : bytes) : bytes :=
  match label with
  | x :: _ => if isDigit (zb x) then bz 110 :: label else label
  | [] => []
  end.

Definition SanitizeInviteLabel (raw : string) : string :=
  let raw := lowerText (Strings.trim_space raw) in
  if eqs raw "" then "host"
  else
    let label := trimHyphens (sanitizeRunes (Utf8.range raw) [] false) in
    if bool_decide (label = []) then "host"
    else
      let label := prefixDigit label in
      if (MaxInviteLabelBytes <? length label)%nat then
        let label := trimHyphens (take MaxInviteLabelBytes label) in
        if bool_decide (label = []) then "host"
        else to_string (take MaxInviteLabelBytes (prefixDigit label))
      else to_string label.

Definition sanitizeTunnelID (name : string) : string := SanitizeInviteLabel name.

Definition InviteFileName (label : string) : string := (SanitizeInviteLabel label ++ InviteFileExtension)%string.

Definition InviteCollisionFileName (label inviteID : string) (prefixLen : nat) : result string :=
  let label := SanitizeInviteLabel label in
  let id := lowerText (Strings.trim_space inviteID) in
  let prefixLen := if (prefixLen <? InviteIDPathPrefixBytes)%nat then InviteIDPathPrefixBytes else prefixLen in
  if (String.length id <? prefixLen)%nat then bad "invite_id too short for path disambiguation"
  else
    let prefix := to_string (take prefixLen (to_bytes id)) in
    if negb (forallb (λ r, in_range 48 57 r || in_range 97 102 r) (Utf8.range prefix))
    then bad "invite_id prefix must be hex"
    else Ok (label ++ "-" ++ prefix ++ InviteFileExtension)%string.

(** ** Reading an invite *)

Record ClientView := mkView {
  v_InviteID : string;
  v_ClientName : string;
  v_ServerAddress : string;
  v_ServerPort : Z;
  v_EnrollmentHost : string;
  v_EnrollmentPort : Z;
  v_TargetAddress : string;
  v_TargetPort : Z;
  v_Principal : string;
  v_ProfileID : string;
  v_ArtifactProfileID : string;
  v_HostPublicKey : string;
  v_EnrollmentTLSSPKISHA256 : string;
  v_PublishedEndpointGeneration : Z;
  v_ExpiresAt : string;
  v_AuthorizationDurationSeconds : Z;
  v_ListenAddress : string;
  v_ListenPort : Z;
  v_TunnelID : string;
}.

Definition viewOf (i : Invite) : ClientView :=
  mkView (InviteID i) (ClientName i) (d_Host (Data i)) (d_Port (Data i)) (e_Host (Enrollment i))
    (e_Port (Enrollment i)) (TargetAddress i) (TargetPort i) (Principal i) (ProfileID i) (ArtifactProfileID i)
    (HostPublicKey i) (TLSSPKISHA256 (Enrollment i)) (PublishedEndpointGeneration i) (ExpiresAt i)
    (AuthorizationDurationSeconds i) "127.0.0.1" 15432 (sanitizeTunnelID (ClientName i)).

(** The words [ParseClientInvite] refuses anywhere in the document. *)
Definition carriesForbidden (raw : bytes) : bool :=
  existsb (Strings.contains (lowerText (to_string raw))) forbiddenWords.

Section client.
Context (H : hostEnv).

Definition ParseClientInvite (raw : bytes) (now : Time) : HM (Invite * ClientView) :=
  if bool_decide (raw = []) then invalid "input is empty"
  else if MaxInviteBytes <? blen raw then invalid "input exceeds 16384 bytes"
  else if carriesForbidden raw then invalid "invite must not contain private-key material"
  else match ClientStore.decodeStrictJSON inviteFields zeroInvite raw with
  | Err e => invalid (errText e)
  | Ok invite =>
      invite ← hlift (canonicalizeStoredInvite invite);
      if negb (eqs (ProfileID invite) Profile.CurrentID) then invalid "unsupported profile_id"
      else
        now ← orNow H now;
        match parseRFC3339 (to_bytes (ExpiresAt invite)) with
        | None => invalid "parse expires_at"
        | Some expires =>
            if negb (Before now expires) then invalid "invite expired"
            else mret (invite, viewOf invite)
        end
  end.

(** ** Invite files *)

(** [os.OpenFile(path, O_WRONLY|O_CREATE|O_EXCL, _)]. *)
Definition CreateExclusive (path : string) : HM () :=
  sys H;; fs ← get_files;
  match fs !! path with
  | Some _ => hfail (EOS EEXIST)
  | None => set_files (<[path := []]>)
  end.

(** A failed step removes the file again. *)
Definition orRemove (path : string) (m : HM ()) : HM () :=
  r ← htry m;
  match r with
  | Ok _ => mret ()
  | Err e => htry (Remove H path);; hfail e
  end.

Definition writeInviteExclusive (path : string) (contents : bytes) : HM () :=
  CreateExclusive path;;
  deferred (sys H)
    (orRemove path (Write H path contents);;
     orRemove path (sys H);;                     (* Sync *)
     orRemove path (sys H);;                     (* Close *)
     sys H;;                                     (* open the directory *)
     deferred (sys H) (sys H)).                  (* sync it; deferred close *)

(** [filepath.Abs], with the working directory a parameter; its error falls
    back to the path. *)
Definition absOr (cwd : result string) (path : string) : string :=
  if Strings.has_prefix path "/" then Filepath.Clean path
  else match cwd with Ok dir => Filepath.Join dir path | Err _ => path end.

Definition isExist (e : error) : bool := bool_decide (e = EOS EEXIST).
Definition ErrInvitePathCollision : string := "invite path already exists".

Fixpoint tryNames (cwd : result string) (directory : string) (contents : bytes) (names : list string) : HM string :=
  match names with
  | [] => hfail (wrapErr ErrInvitePathCollision "pass --out or remove the existing invite file")
  | name :: rest =>
      let path := Filepath.Join directory name in
      r ← htry (writeInviteExclusive path contents);
      match r with
      | Ok _ => mret (absOr cwd path)
      | Err e => if isExist e then tryNames cwd directory contents rest else hfail e
      end
  end.

(** The names tried, in order. *)
Definition okList {A} (r : result A) : list A := match r with Ok a => [a] | Err _ => [] end.
Definition candidates (label inviteID : string) : list string :=
  let label := SanitizeInviteLabel label in
  [InviteFileName label]
    ++ okList (InviteCollisionFileName label inviteID InviteIDPathPrefixBytes)
    ++ okList (InviteCollisionFileName label inviteID (InviteIDPathPrefixBytes + 2)).

Definition WriteInviteFile (cwd : result string) (directory label inviteID : string) (contents : bytes) : HM string :=
  if eqs directory "" then hfail (EMsg "invite directory is required")
  else
    sys H;;                                      (* MkdirAll *)
    tryNames cwd directory contents (candidates label inviteID).

(** [filepath.Ext]: from the last period of the last element. *)
Fixpoint extRev (b acc : bytes) : bytes :=
  match b with
  | x :: r => if zb x =? 47 then [] else if zb x =? 46 then x :: acc else extRev r (x :: acc)
  | [] => []
  end.
Definition Ext (path : string) : string := to_string (extRev (reverse (to_bytes path)) []).

(** [isDir] is what [os.Stat] says of the parent. *)
Definition WriteInviteFileExact (cwd : result string) (isDir : nat → bool) (path : string) (contents : bytes)
    : HM string :=
  if eqs path "" then hfail (EMsg "invite path is required")
  else if negb (eqs (Ext path) InviteFileExtension)
  then hfail (EMsg ("invite path must end in " ++ InviteFileExtension))
  else
    stat ← htry (sys H);
    match stat with
    | Err e => hfail (EMsg ("invite parent directory: " ++ errText e))
    | Ok _ =>
        n ← call;
        if negb (isDir n) then hfail (EMsg "invite parent is not a directory")
        else
          r ← htry (writeInviteExclusive path contents);
          match r with
          | Ok _ => mret (absOr cwd path)
          | Err e => if isExist e then hfail (wrapErr ErrInvitePathCollision path) else hfail e
          end
    end.

End client.

(** ** The host's proof *)

Definition ValidateEnrollmentProof (proof : EnrollmentProof) (invite : Invite) (publicKey : string) : result () :=
  if negb (eqs (p_InviteID proof) (InviteID invite))
     || negb (eqs (p_Nonce proof) (Nonce invite))
     || negb (eqs (p_ProfileID proof) (ProfileID invite))
     || negb (eqs (p_Principal proof) (Principal invite))
     || negb (eqs (p_HostPublicKey proof) (HostPublicKey invite))
     || negb (eqs (p_PublicKey proof) publicKey)
  then bad "enrollment proof does not bind invite and client key"
  else if negb (eqs (p_Target proof) (targetText invite)) then bad "enrollment proof target mismatch"
  else if eqs (p_ClientID proof) "" then bad "enrollment proof missing client_id"
  else if negb (p_AuthorizationDurationSeconds proof =? AuthorizationDurationSeconds invite)
  then bad "enrollment proof authorization duration mismatch"
  else
    wantSet ← orBad "invite published set" (PublishedSet invite);
    gotSet ← orBad "enrollment proof published set" (Locator.CanonicalSet (p_Published proof));
    if negb (Locator.EqualSet wantSet gotSet) then bad "enrollment proof published set does not match invite"
    else
      acceptedAt ← orBad "enrollment proof accepted_at" (Grant.ParseUTC (p_AcceptedAt proof));
      '(_, wantNotAfter) ← orBad "enrollment proof authorization_not_after"
        (Grant.AuthorizationNotAfter acceptedAt (p_AuthorizationDurationSeconds proof));
      gotNotAfter ← orBad "enrollment proof authorization_not_after" (Grant.ParseUTC (p_AuthorizationNotAfter proof));
      match Grant.ParseUTC wantNotAfter with
      | Ok wantParsed =>
          if gotNotAfter =? wantParsed then Ok ()
          else bad "enrollment proof authorization_not_after mismatch"
      | Err _ => bad "enrollment proof authorization_not_after mismatch"
      end.

Example label_example : SanitizeInviteLabel "  42 Web.Server__(staging)" = "n42-web-server-staging"%string.
Proof. vm_compute. reflexivity. Qed.

End InviteClient.
