(* ===== verification/AuthorizedKeys.v ===== *)
(** * The authorized-keys file

    The part of [internal/command/enroll_server.go] that edits the data plane's
    authorized-keys file: reading and writing its lines, adding, replacing and
    removing the line of a public key, and proving a key absent. *)

From S2P Require Import Prelude GoStd Json StrictJson Time Host Locator Grant SshWire Crypto Packet Kex ClientStore.
From S2P Require Import Clients.
Import Locator Clients.

Module AuthorizedKeys.

(** The base64 blob of a public-key line or of a managed authorized-keys
    line. *)
Definition authorizedKeyBlob (publicKey : string) : string :=
  match Strings.fields (Strings.trim_space publicKey) with
  | first :: second :: rest =>
      if Strings.contains first "," || Strings.has_prefix first "restrict" then
        match rest with third :: _ => third | [] => "" end
      else second
  | _ => ""
  end.

(** The lines of a file that are not blank. *)
Definition blank (line : bytes) : bool := eqs (Strings.trim_space (to_string line)) "".
Definition linesOf (raw : bytes) : list string :=
  to_string <$> filter (λ l, blank l = false) (Strings.split_bytes (bz 10) raw).

(** [strings.TrimRight(s, "\n")]. *)
Fixpoint drop_newlines (b : bytes) : bytes :=
  match b with x :: r => if zb x =? 10 then drop_newlines r else b | [] => [] end.
Definition trimNewlines (line : bytes) : string := to_string (reverse (drop_newlines (reverse line))).

(** The text [writeAuthorizedKeyLines] builds. *)
Definition renderLine (line : string) : bytes :=
  to_bytes line ++ (if Strings.has_suffix line (to_string [bz 10]) then [] else [bz 10]).
Definition renderLines (lines : list string) : bytes := concat (renderLine <$> lines).

(** [filepath.Base] of a path that does not end in a slash. *)
Definition base (path : string) : string := List.last (Strings.split (bz 47) path) ""%string.

Section keys.
Context (H : hostEnv).

(** server_admin.go: [writeFileAtomic]. *)
Definition writeFileAtomic (path : string) (contents : bytes) : HM () :=
  sys H;;                                        (* MkdirAll *)
  replaceFile H true path ".wt-server-" contents
    (sys H;;                                     (* open the directory *)
     deferred (sys H) (sys H)).                  (* sync it; deferred close *)

Definition readAuthorizedKeyLines (path : string) : HM (list string) :=
  r ← htry (ReadFile H path);
  match r with
  | Ok raw => mret (linesOf raw)
  | Err e => if IsNotExist e then mret [] else hfail e
  end.

Definition writeAuthorizedKeyLines (path : string) (lines : list string) : HM () :=
  writeFileAtomic path (renderLines lines).

Definition withAuthorizedKeysLock (path : string) (fn : HM ()) : HM () :=
  withLock H (Filepath.Dir path) ("." ++ base path ++ ".lock") "resource" fn.

Definition appendAuthorizedKey (path : string) (line : bytes) : HM () :=
  withAuthorizedKeysLock path
    (lines ← readAuthorizedKeyLines path;
     let entry := trimNewlines line in
     let blob := authorizedKeyBlob entry in
     if negb (eqs blob "") && existsb (λ existing, eqs (authorizedKeyBlob existing) blob) lines
     then mret ()
     else writeAuthorizedKeyLines path (lines ++ [entry])).

Definition replaceAuthorizedKeyForPublicKey (path oldPublicKey : string) (newLine : bytes) : HM () :=
  withAuthorizedKeysLock path
    (lines ← readAuthorizedKeyLines path;
     let oldBlob := authorizedKeyBlob oldPublicKey in
     let entry := trimNewlines newLine in
     let newBlob := authorizedKeyBlob entry in
     let drops existing :=
       let blob := authorizedKeyBlob existing in
       (negb (eqs oldBlob "") && eqs blob oldBlob) || (negb (eqs newBlob "") && eqs blob newBlob) in
     writeAuthorizedKeyLines path (filter (λ l, drops l = false) lines ++ [entry])).

Definition removeAuthorizedKeyForPublicKey (path publicKey : string) : HM () :=
  withAuthorizedKeysLock path
    (lines ← readAuthorizedKeyLines path;
     let blob := authorizedKeyBlob publicKey in
     if eqs blob "" then mret ()
     else writeAuthorizedKeyLines path (filter (λ l, eqs (authorizedKeyBlob l) blob = false) lines)).

Definition verifyAuthorizedKeyAbsent (path publicKey : string) : HM () :=
  lines ← readAuthorizedKeyLines path;
  let blob := authorizedKeyBlob publicKey in
  if eqs blob "" then hfail (EMsg "authorized key is unparsable; cannot prove absence")
  else if existsb (λ existing, eqs (authorizedKeyBlob existing) blob) lines
  then hfail (EMsg "authorized key for grant is still present")
  else mret ().

End keys.

(** ** Lines and text *)

(** The lines of the authorized-keys file; a missing file has none. *)
Definition lines_at (path : string) (fs : gmap string bytes) : list string :=
  match fs !! path with Some raw => linesOf raw | None => [] end.

(** A line as [linesOf] returns it. *)
Definition whole (l : string) : Prop := (bz 10 ∉ to_bytes l) ∧ blank (to_bytes l) = false.

Lemma split_no_sep sep b : Forall (λ l, sep ∉ l) (Strings.split_bytes sep b).
Proof.
  induction b as [|x b IH]; cbn; [repeat constructor; apply not_elem_of_nil|].
  case_bool_decide as Hx; [constructor; [apply not_elem_of_nil|done]|].
  destruct (Strings.split_bytes sep b) as [|f fs]; [constructor; [|constructor]|].
  - rewrite list_elem_of_singleton. congruence.
  - apply List.Forall_cons_iff in IH as [Hf Hfs]. constructor; [|done].
    rewrite not_elem_of_cons. split; congruence.
Qed.

Lemma linesOf_whole raw : Forall whole (linesOf raw).
Proof.
  unfold linesOf. apply Forall_fmap, List.Forall_forall. intros l Hl.
  apply list_elem_of_In, list_elem_of_filter in Hl as [Hb Hl]. cbn. unfold whole. rewrite to_bytes_string.
  split; [|done]. pose proof (split_no_sep (bz 10) raw) as Hf. rewrite List.Forall_forall in Hf.
  apply Hf. by apply list_elem_of_In.
Qed.

Lemma split_line b rest :
  bz 10 ∉ b → Strings.split_bytes (bz 10) (b ++ bz 10 :: rest) = b :: Strings.split_bytes (bz 10) rest.
Proof.
  induction b as [|x b IH]; intros Hb; cbn [app Strings.split_bytes].
  - by rewrite bool_decide_eq_true_2.
  - apply not_elem_of_cons in Hb as [Hx Hb]. rewrite bool_decide_eq_false_2 by congruence. by rewrite IH.
Qed.

Lemma renderLine_plain l : bz 10 ∉ to_bytes l → renderLine l = to_bytes l ++ [bz 10].
Proof.
  intros Hn. unfold renderLine. destruct (Strings.has_suffix _ _) eqn:Hs; [|done].
  apply has_suffix_split in Hs as [b Hb]. rewrite Hb in Hn. exfalso. apply Hn.
  apply list_elem_of_In, in_or_app. right. rewrite to_bytes_string. by left.
Qed.
Lemma renderLine_whole l : whole l → renderLine l = to_bytes l ++ [bz 10].
Proof. intros [Hn _]. by apply renderLine_plain. Qed.

(** What is written is what the next read returns. *)
Lemma linesOf_render lines : Forall whole lines → linesOf (renderLines lines) = lines.
Proof.
  unfold linesOf, renderLines. induction 1 as [|l lines Hl _ IH]; [done|].
  rewrite fmap_cons. cbn [concat]. rewrite renderLine_whole, <- app_assoc by done. cbn [app].
  destruct Hl as [Hn Hb]. rewrite split_line, filter_cons_True by done.
  rewrite fmap_cons, to_string_bytes. by f_equal.
Qed.

(** ** Editing the file *)

Section edits.
Context (H : hostEnv) (path : string).
Hypothesis (Hhonest : honest H) (Hpath : ∀ n, path ≠ tempName H path ".wt-server-" n).

Lemma lines_at_create fs p : fs !! p = None → lines_at path (<[p := []]> fs) = lines_at path fs.
Proof.
  intros Hp. unfold lines_at. destruct (decide (p = path)) as [-> |Hne].
  - by rewrite lookup_insert_eq, Hp.
  - by rewrite lookup_insert_ne.
Qed.

Lemma readLines_spec lines :
  htriple (λ fs, lines_at path fs = lines) (readAuthorizedKeyLines H path)
    (λ r fs, lines_at path fs = lines ∧ ∀ l, r = Ok l → l = lines).
Proof using Hhonest.
  intros w Hw. pose proof (ReadFile_honest H path (files w) Hhonest w eq_refl) as [Hf Hr].
  unfold readAuthorizedKeyLines, htry, mbind, HM_bind.
  destruct (ReadFile H path w) as [[c|e] w']; cbn in *.
  - rewrite Hf. split; [done|]. intros l [= <-]. rewrite <- Hw. unfold lines_at. by rewrite Hr.
  - destruct (IsNotExist e); cbn; rewrite Hf; (split; [done|]); [|done].
    intros l [= <-]. rewrite <- Hw. unfold lines_at. by rewrite Hr.
Qed.

Lemma writeLines_contents lines :
  htriple (λ _, True) (writeAuthorizedKeyLines H path lines)
    (λ r fs, r = Ok () → fs !! path = Some (renderLines lines)).
Proof using Hpath.
  unfold writeAuthorizedKeyLines, writeFileAtomic.
  eapply (htriple_bind _ _ (λ _ _, True)); [apply htriple_sys; by intros []|]. intros _ w _.
  by destruct (replaceFile_replaced H path ".wt-server-" (renderLines lines) (files w) (λ n _, Hpath n) true
    (sys H;; deferred (sys H) (sys H))
    ltac:(intros fs; apply bind_keeps; [apply sys_keeps|intros _; apply deferred_keeps; apply sys_keeps])
    w eq_refl) as (_ & H2 & _).
Qed.

Lemma writeLines_spec old lines :
  Forall whole lines →
  htriple (λ fs, lines_at path fs = old) (writeAuthorizedKeyLines H path lines)
    (λ r fs, (lines_at path fs = old ∨ lines_at path fs = lines) ∧ (r = Ok () → lines_at path fs = lines)).
Proof using Hpath.
  intros Hl. unfold writeAuthorizedKeyLines, writeFileAtomic.
  eapply (htriple_bind _ _ (λ _ fs, lines_at path fs = old)); [apply htriple_sys; intros []; auto; by split; [left|]|].
  intros _ w Hw.
  destruct (replaceFile_replaced H path ".wt-server-" (renderLines lines) (files w) (λ n _, Hpath n) true
    (sys H;; deferred (sys H) (sys H))
    ltac:(intros fs; apply bind_keeps; [apply sys_keeps|intros _; apply deferred_keeps; apply sys_keeps])
    w eq_refl) as (H1 & H2 & _).
  set (out := replaceFile H _ _ _ _ _ w) in *.
  assert (∀ fs, fs !! path = Some (renderLines lines) → lines_at path fs = lines) as Hnew.
  { intros fs Hfs. unfold lines_at. rewrite Hfs. by apply linesOf_render. }
  split; [|auto]. destruct H1 as [H1|H1]; [left|right; auto]. unfold lines_at in *. by rewrite H1.
Qed.

(** An edit of the file under its lock: the new lines are written whole or the
    old ones stay. *)
Definition edited (old new : list string) (r : result ()) fs : Prop :=
  (lines_at path fs = old ∨ lines_at path fs = new) ∧ (r = Ok () → lines_at path fs = new).

Lemma locked_edit old new (body : HM ()) :
  htriple (λ fs, lines_at path fs = old) body (edited old new) →
  htriple (λ fs, lines_at path fs = old) (withAuthorizedKeysLock H path body) (edited old new).
Proof.
  intros Hb. apply withLock_rule; [intros fs p Hfs Hp; by rewrite lines_at_create|done|].
  intros e fs Hfs. split; [by left|done].
Qed.

Lemma removeKey_edited old key :
  authorizedKeyBlob key ≠ ""%string → Forall whole old →
  htriple (λ fs, lines_at path fs = old) (removeAuthorizedKeyForPublicKey H path key)
    (edited old (filter (λ l, eqs (authorizedKeyBlob l) (authorizedKeyBlob key) = false) old)).
Proof using Hhonest Hpath.
  intros Hk Hold. apply locked_edit.
  eapply (htriple_bind _ _ (λ l fs, l = old ∧ lines_at path fs = old)).
  { eapply htriple_weaken; [apply (readLines_spec old)|done|].
    intros [l|e] fs [Hs Hl]; [auto|]. split; [by left|done]. }
  intros l w [-> Hw]. assert (eqs (authorizedKeyBlob key) "" = false) as Hb by (by apply bool_decide_eq_false_2).
  cbv zeta. rewrite Hb. apply (writeLines_spec old); [|done].
  rewrite List.Forall_forall in *. intros l Hl. apply Hold.
  apply list_elem_of_In. by apply list_elem_of_In, list_elem_of_filter in Hl as [_ Hl].
Qed.

(** A key without a blob removes nothing. *)
Lemma removeKey_unparsable old key :
  authorizedKeyBlob key = ""%string →
  htriple (λ fs, lines_at path fs = old) (removeAuthorizedKeyForPublicKey H path key) (edited old old).
Proof using Hhonest Hpath.
  intros Hk. apply locked_edit.
  eapply (htriple_bind _ _ (λ l fs, lines_at path fs = old)).
  { eapply htriple_weaken; [apply (readLines_spec old)|done|].
    intros [l|e] fs [Hs Hl]; [done|]. split; [by left|done]. }
  intros l. cbv zeta. rewrite Hk. apply htriple_ret. intros fs Hs. split; [by left|done].
Qed.

End edits.

(** C12: removing a key removes exactly its lines.  On a host that reports
    missing files truthfully, whatever else fails, the file keeps all of its
    lines or loses exactly those of the key; when the removal reports success
    they are gone, in the order the others had, and the absence check that
    follows succeeds unless its read fails. *)
Theorem remove_key_exact H path key w :
  honest H → (∀ n, path ≠ tempName H path ".wt-server-" n) → authorizedKeyBlob key ≠ ""%string →
  let kept := filter (λ l, eqs (authorizedKeyBlob l) (authorizedKeyBlob key) = false) (lines_at path (files w)) in
  let '(r, w') := removeAuthorizedKeyForPublicKey H path key w in
  (lines_at path (files w') = lines_at path (files w) ∨ lines_at path (files w') = kept) ∧
  (r = Ok () → lines_at path (files w') = kept ∧
     ((verifyAuthorizedKeyAbsent H path key w').1 = Ok () ∨ ∃ e, h_fault H (calls w') = Some e)).
Proof.
  intros Hh Hp Hk kept.
  assert (Forall whole (lines_at path (files w))) as Hold.
  { unfold lines_at. destruct (files w !! path); [apply linesOf_whole|constructor]. }
  pose proof (removeKey_edited H path Hh Hp _ key Hk Hold w eq_refl) as He.
  destruct (removeAuthorizedKeyForPublicKey H path key w) as [r w']. destruct He as [H1 H2].
  cbn [fst snd] in *. split; [exact H1|]. intros Hr. specialize (H2 Hr). split; [exact H2|].
  destruct (h_fault H (calls w')) as [e|] eqn:Hf; [right; by exists e|left].
  pose proof (readLines_spec H path Hh _ w' eq_refl) as [_ Hread].
  unfold verifyAuthorizedKeyAbsent, readAuthorizedKeyLines, ReadFile, sys, call, get_files, htry, mbind, HM_bind in *.
  cbn [files calls] in *. rewrite Hf in *. cbn [files calls mret HM_ret fst snd] in *.
  assert (existsb (λ existing, eqs (authorizedKeyBlob existing) (authorizedKeyBlob key)) kept = false) as Hnone.
  { apply not_true_iff_false. intros (l & Hin & Hl)%existsb_exists.
    apply list_elem_of_In, list_elem_of_filter in Hin as [Hfalse _]. congruence. }
  assert (eqs (authorizedKeyBlob key) "" = false) as Hb by (by apply bool_decide_eq_false_2).
  destruct (files w' !! path) as [raw|] eqn:Hl; cbn [mret HM_ret fst snd hfail] in *.
  - rewrite (Hread _ eq_refl), H2. cbv zeta. unfold kept in Hnone. by rewrite Hb, Hnone.
  - unfold IsNotExist in *. rewrite bool_decide_eq_true_2 in * by done. cbn [mret HM_ret fst snd] in *.
    rewrite (Hread _ eq_refl), H2. cbv zeta. unfold kept in Hnone. by rewrite Hb, Hnone.
Qed.

End AuthorizedKeys.
