(* ===== verification/GrantSession.v ===== *)
(** * internal/grantsession: which process serves which grant

    The session authority: durable records that bind an authenticated key to
    the process that serves it ([record.go]), the grant a key belongs to and
    the registration of a session ([authority.go]), the termination of a
    grant's sessions and the proof that they are gone ([terminate.go]), the
    control request that makes the data plane drop a key ([drop.go],
    [protocol.go], [dataplane/session.go]) and process identities
    ([process_linux.go]).

    The operating system's process table, the peer at the other end of the
    control socket and the clock are arguments, indexed by the number of the
    call that observes them. *)

From S2P Require Import Prelude GoStd Json StrictJson Time Host Locator Grant SshWire Crypto Packet Kex Listen.
From S2P Require Import ClientStore Clients.
Import Json Locator Clients.

Module GrantSession.

(** ** protocol.go *)

Definition Kind_ : string := "warptweet.grant-session".
Definition SchemaVersion_ : Z := 1.
Definition ProtocolVersion : Z := 1.
Definition ActionRegister : string := "register".
Definition ActionUnregister : string := "unregister".
Definition ActionDrop : string := "drop".
Definition MaxRequestBytes : Z := Z.shiftl 4 10.
Definition MaxRecordBytes : Z := Z.shiftl 8 10.
Definition maxConnectionIDBytes : nat := 96.
Definition ErrRejected : string := "grant session registration rejected".
Definition rejected {A} (text : string) : result A := Err (wrapErr ErrRejected text).

Record Request := mkRequest { Version : Z; Action : string; KeySHA256 : string; Connection : string }.
Definition zeroRequest : Request := mkRequest 0 "" "" "".
Definition requestFields : list (field Request) :=
  [("version", int_field (λ v q, mkRequest v (Action q) (KeySHA256 q) (Connection q)));
   ("action", string_field (λ v q, mkRequest (Version q) v (KeySHA256 q) (Connection q)));
   ("key_sha256", string_field (λ v q, mkRequest (Version q) (Action q) v (Connection q)));
   ("connection_id", string_field (λ v q, mkRequest (Version q) (Action q) (KeySHA256 q) v))]%string.
Definition requestJSON (q : Request) : json :=
  JObj ([("version", JInt (Version q)); ("action", JStr (Action q))]%string
        ++ ClientStore.omitempty "key_sha256" (KeySHA256 q)
        ++ ClientStore.omitempty "connection_id" (Connection q)).

Record Response := mkResponse { OK : bool; Error_ : string }.
Definition zeroResponse : Response := mkResponse false "".
Definition responseFields : list (field Response) :=
  [("ok", bool_field (λ v q, mkResponse v (Error_ q)));
   ("error", string_field (λ v q, mkResponse (OK q) v))]%string.
Definition encodeResponse (response : Response) : bytes :=
  print (JObj (("ok"%string, JBool (OK response)) :: ClientStore.omitempty "error" (Error_ response))) ++ [bz 10].
Definition EncodeOK : bytes := encodeResponse (mkResponse true "").
Definition EncodeError (message : string) : bytes := encodeResponse (mkResponse false message).

Definition isLowerHex (value : string) : bool :=
  negb (eqs value "") && forallb (λ r, in_range 48 57 r || in_range 97 102 r) (Utf8.range value).

Definition validConnectionID (value : string) : bool :=
  negb (eqs value "" || (maxConnectionIDBytes <? String.length value)%nat)
  && forallb (λ r, in_range 97 122 r || in_range 65 90 r || in_range 48 57 r
                   || (r =? 45) || (r =? 95) || (r =? 46)) (Utf8.range value).

Definition ValidateRequest (request : Request) : result () :=
  if negb (Version request =? ProtocolVersion)
  then rejected ("unsupported protocol version " ++ Strings.itoa (Version request))
  else
    (if eqs (Action request) ActionRegister || eqs (Action request) ActionDrop then
       if negb (String.length (KeySHA256 request) =? 64)%nat || negb (isLowerHex (KeySHA256 request))
       then rejected "key_sha256 must be 64 lowercase hex characters" else Ok ()
     else if eqs (Action request) ActionUnregister then Ok ()
     else rejected ("unsupported action " ++ Action request));;
    if negb (eqs (Connection request) "") && negb (validConnectionID (Connection request))
    then rejected "connection_id is empty, oversized, or contains disallowed characters" else Ok ().

Definition decodeRequest (raw : bytes) : result Request :=
  if (blen raw =? 0) || (MaxRequestBytes <? blen raw) then rejected "request is empty or oversized"
  else match decode_document requestFields zeroRequest raw with
  | Err e => rejected (errText e)
  | Ok request => ValidateRequest request;; Ok request
  end.

(** dataplane/session.go: [handleControl] on the request a peer sent, with the
    connections it closes. *)
Definition handleControl (raw : bytes) (table : sessionTable) : bytes * list nat :=
  match ('(v, _) ← parse raw; decode false requestFields v zeroRequest) with
  | Err e => (EncodeError (errText e), [])
  | Ok request =>
      match ValidateRequest request with
      | Err e => (EncodeError (errText e), [])
      | Ok _ => if negb (eqs (Action request) ActionDrop) then (EncodeError "unsupported action", [])
                else (EncodeOK, dropKey (KeySHA256 request) table)
      end
  end.

(** ** record.go *)

Record Session := mkSession {
  Kind : string;
  SchemaVersion : Z;
  GrantID : string;
  ClientID : string;
  Generation : string;
  PublicKeySHA256 : string;
  KeyBlobSHA256 : string;
  BootID : string;
  PID : Z;
  StartTime : string;
  Exe : string;
  ConnectionID : string;
  RegisteredAt : string;
}.
Definition zeroSession : Session := mkSession "" 0 "" "" "" "" "" "" 0 "" "" "" "".

Definition set_Kind (v : string) (r : Session) : Session :=
  mkSession v (SchemaVersion r) (GrantID r) (ClientID r) (Generation r) (PublicKeySHA256 r)
    (KeyBlobSHA256 r) (BootID r) (PID r) (StartTime r) (Exe r) (ConnectionID r) (RegisteredAt r).
Definition set_SchemaVersion (v : Z) (r : Session) : Session :=
  mkSession (Kind r) v (GrantID r) (ClientID r) (Generation r) (PublicKeySHA256 r) (KeyBlobSHA256 r)
    (BootID r) (PID r) (StartTime r) (Exe r) (ConnectionID r) (RegisteredAt r).
Definition set_GrantID (v : string) (r : Session) : Session :=
  mkSession (Kind r) (SchemaVersion r) v (ClientID r) (Generation r) (PublicKeySHA256 r)
    (KeyBlobSHA256 r) (BootID r) (PID r) (StartTime r) (Exe r) (ConnectionID r) (RegisteredAt r).
Definition set_ClientID (v : string) (r : Session) : Session :=
  mkSession (Kind r) (SchemaVersion r) (GrantID r) v (Generation r) (PublicKeySHA256 r)
    (KeyBlobSHA256 r) (BootID r) (PID r) (StartTime r) (Exe r) (ConnectionID r) (RegisteredAt r).
Definition set_Generation (v : string) (r : Session) : Session :=
  mkSession (Kind r) (SchemaVersion r) (GrantID r) (ClientID r) v (PublicKeySHA256 r)
    (KeyBlobSHA256 r) (BootID r) (PID r) (StartTime r) (Exe r) (ConnectionID r) (RegisteredAt r).
Definition set_PublicKeySHA256 (v : string) (r : Session) : Session :=
  mkSession (Kind r) (SchemaVersion r) (GrantID r) (ClientID r) (Generation r) v (KeyBlobSHA256 r)
    (BootID r) (PID r) (StartTime r) (Exe r) (ConnectionID r) (RegisteredAt r).
Definition set_KeyBlobSHA256 (v : string) (r : Session) : Session :=
  mkSession (Kind r) (SchemaVersion r) (GrantID r) (ClientID r) (Generation r) (PublicKeySHA256 r) v
    (BootID r) (PID r) (StartTime r) (Exe r) (ConnectionID r) (RegisteredAt r).
Definition set_BootID (v : string) (r : Session) : Session :=
  mkSession (Kind r) (SchemaVersion r) (GrantID r) (ClientID r) (Generation r) (PublicKeySHA256 r)
    (KeyBlobSHA256 r) v (PID r) (StartTime r) (Exe r) (ConnectionID r) (RegisteredAt r).
Definition set_PID (v : Z) (r : Session) : Session :=
  mkSession (Kind r) (SchemaVersion r) (GrantID r) (ClientID r) (Generation r) (PublicKeySHA256 r)
    (KeyBlobSHA256 r) (BootID r) v (StartTime r) (Exe r) (ConnectionID r) (RegisteredAt r).
Definition set_StartTime (v : string) (r : Session) : Session :=
  mkSession (Kind r) (SchemaVersion r) (GrantID r) (ClientID r) (Generation r) (PublicKeySHA256 r)
    (KeyBlobSHA256 r) (BootID r) (PID r) v (Exe r) (ConnectionID r) (RegisteredAt r).
Definition set_Exe (v : string) (r : Session) : Session :=
  mkSession (Kind r) (SchemaVersion r) (GrantID r) (ClientID r) (Generation r) (PublicKeySHA256 r)
    (KeyBlobSHA256 r) (BootID r) (PID r) (StartTime r) v (ConnectionID r) (RegisteredAt r).
Definition set_ConnectionID (v : string) (r : Session) : Session :=
  mkSession (Kind r) (SchemaVersion r) (GrantID r) (ClientID r) (Generation r) (PublicKeySHA256 r)
    (KeyBlobSHA256 r) (BootID r) (PID r) (StartTime r) (Exe r) v (RegisteredAt r).
Definition set_RegisteredAt (v : string) (r : Session) : Session :=
  mkSession (Kind r) (SchemaVersion r) (GrantID r) (ClientID r) (Generation r) (PublicKeySHA256 r)
    (KeyBlobSHA256 r) (BootID r) (PID r) (StartTime r) (Exe r) (ConnectionID r) v.

Definition sessionFields : list (field Session) :=
  [("kind", string_field set_Kind);
   ("schema_version", int_field set_SchemaVersion);
   ("grant_id", string_field set_GrantID);
   ("client_id", string_field set_ClientID);
   ("generation", string_field set_Generation);
   ("public_key_sha256", string_field set_PublicKeySHA256);
   ("key_blob_sha256", string_field set_KeyBlobSHA256);
   ("boot_id", string_field set_BootID);
   ("pid", int_field set_PID);
   ("start_time", string_field set_StartTime);
   ("exe", string_field set_Exe);
   ("connection_id", string_field set_ConnectionID);
   ("registered_at", string_field set_RegisteredAt)]%string.
Definition sessionJSON (r : Session) : json :=
  JObj
    [("kind", JStr (Kind r));
     ("schema_version", JInt (SchemaVersion r));
     ("grant_id", JStr (GrantID r));
     ("client_id", JStr (ClientID r));
     ("generation", JStr (Generation r));
     ("public_key_sha256", JStr (PublicKeySHA256 r));
     ("key_blob_sha256", JStr (KeyBlobSHA256 r));
     ("boot_id", JStr (BootID r));
     ("pid", JInt (PID r));
     ("start_time", JStr (StartTime r));
     ("exe", JStr (Exe r));
     ("connection_id", JStr (ConnectionID r));
     ("registered_at", JStr (RegisteredAt r))]%string.

Record ProcessIdentity := mkIdentity {
  i_BootID : string;
  i_PID : Z;
  i_StartTime : string;
  i_Exe : string;
}.

Definition fail_ {A} (text : string) : result A := Err (EMsg text).

Definition validateRecord (record : Session) : result () :=
  if negb (eqs (Kind record) Kind_) || negb (SchemaVersion record =? SchemaVersion_)
  then fail_ "unsupported grant session schema"
  else if eqs (GrantID record) "" || eqs (ClientID record) "" || eqs (Generation record) ""
  then fail_ "grant session missing grant binding"
  else if negb (String.length (PublicKeySHA256 record) =? 64)%nat || negb (isLowerHex (PublicKeySHA256 record))
          || negb (String.length (KeyBlobSHA256 record) =? 64)%nat || negb (isLowerHex (KeyBlobSHA256 record))
  then fail_ "grant session missing key binding"
  else if PID record <=? 0 then fail_ "grant session missing process identity"
  else if eqs (BootID record) "" || eqs (StartTime record) "" || eqs (Exe record) ""
  then fail_ "grant session missing durable process start identity"
  else match Grant.ParseUTC (RegisteredAt record) with
       | Err e => fail_ ("grant session registered_at: " ++ errText e)
       | Ok _ => Ok ()
       end.

Definition recordPath (root : string) (record : Session) : string :=
  let id_ := if eqs (ConnectionID record) "" then Strings.itoa (PID record) else ConnectionID record in
  Filepath.Join root (ClientID record ++ "-" ++ Generation record ++ "-" ++ id_ ++ ".json").

(** A session read from a directory, with the file it came from ([path]). *)
Definition found : Type := string * Session.
(** [recordFile] of a record [listMatching] returned: its [path] is set. *)
Definition recordFile (f : found) : string := f.1.

(** The contents a session file must have. *)
Definition parseRecord (contents : bytes) : result Session :=
  if MaxRecordBytes <? blen contents then rejected "document exceeds 8192 bytes"
  else if blen contents =? 0 then fail_ "grant session document is empty or oversized"
  else
    StrictJson.RejectDuplicateObjectNames contents;;
    record ← decode_document sessionFields zeroSession contents;
    validateRecord record;;
    Ok record.

Section files.
Context (H : hostEnv).

Definition writeRecord (path : string) (record : Session) : HM () :=
  hlift (validateRecord record);;
  let contents := print (sessionJSON record) ++ [bz 10] in
  if (blen contents =? 0) || (MaxRecordBytes <? blen contents)
  then hlift (fail_ "grant session document is empty or oversized")
  else
    sys H;;                                      (* MkdirAll *)
    replaceFile H false path ".wt-session-" contents
      (sys H;;                                   (* open the directory *)
       sys H;;                                   (* sync it *)
       sys H).                                   (* close it *)

Definition readRecord (path : string) : HM Session :=
  contents ← ReadFile H path;                    (* open; the read is next *)
  deferred (sys H)                               (* close *)
    (sys H;; hlift (parseRecord contents)).

Definition removeIfPresent (path : string) : HM () :=
  r ← htry (Remove H path);
  match r with
  | Err e => if IsNotExist e then mret () else hfail e
  | Ok _ => mret ()
  end.

End files.

(** ** Keys *)

Definition knownSSHKeyTypes : list string :=
  ["ssh-mldsa44-ed25519@openssh.com"; "ssh-ed25519"; "ssh-rsa"; "ecdsa-sha2-nistp256";
   "ecdsa-sha2-nistp384"; "ecdsa-sha2-nistp521"]%string.
Definition isKnownSSHKeyType (value : string) : bool := existsb (eqs value) knownSSHKeyTypes.

(** The state of the field splitter. *)
Record splitter := mkSplitter { sp_fields : list bytes; current : bytes; inQuote : bool; escaped : bool }.

Definition splitStep (s : splitter) (c : byte) : splitter :=
  let '(mkSplitter fields cur q esc) := s in
  if esc then mkSplitter fields (cur ++ [c]) q false
  else if (zb c =? 92) && q then mkSplitter fields (cur ++ [c]) q true
  else if zb c =? 34 then mkSplitter fields (cur ++ [c]) (negb q) false
  else if ((zb c =? 32) || (zb c =? 9)) && negb q then
    if bool_decide (cur = []) then s else mkSplitter (fields ++ [cur]) [] q false
  else mkSplitter fields (cur ++ [c]) q false.

Definition splitAuthorizedKeyFieldsStrict (line : string) : result (list string) :=
  let s := foldl splitStep (mkSplitter [] [] false false) (to_bytes line) in
  if inQuote s || escaped s then fail_ "unterminated quoted authorized_keys field"
  else Ok (to_string <$> (sp_fields s ++ if bool_decide (current s = []) then [] else [current s])).

(** The field after the first known key type. *)
Fixpoint blobField (fields : list string) : option string :=
  match fields with
  | [] => None
  | f :: rest => if isKnownSSHKeyType f then match rest with b :: _ => Some b | [] => None end
                 else blobField rest
  end.


Section authority.
Context {CR : Crypto} (H : hostEnv).
(** The process table: /proc as a read or a readlink finds it at a given call,
    and the process's own pid. *)
Context (procRead : nat → string → result bytes) (procLink : nat → string → result string) (selfPid : Z).
(** The data plane's answer to a control request, at a given call. *)
Context (control : nat → bytes → result bytes).
(** Whether the lock file grants its group access although [Chmod] failed. *)
Context (groupAccess : nat → bool).

Definition KeyBlobDigest (publicKey : string) : result string :=
  fields ← splitAuthorizedKeyFieldsStrict (Strings.trim_space publicKey);
  match blobField fields with
  | None => fail_ "public key is unparsable"
  | Some blob => raw ← Base64.decode false blob; Ok (Hex.encode (sha256 raw))
  end.

Record Authority := mkAuthority { Root : string; ClientsDir : string; LockPath : string; ExpectedExe : string }.

(** [authority.lock] around [body]. *)
Definition locked {A} (authority : Authority) (body : HM A) : HM A :=
  if eqs (LockPath authority) "" then body
  else
    sys H;;                                      (* MkdirAll *)
    OpenCreate H (LockPath authority);;
    chmod ← htry (sys H);
    match chmod with
    | Ok _ => mret ()
    | Err e =>
        stat ← htry (sys H); n ← call;
        match stat with
        | Ok _ => if groupAccess n then mret () else htry (sys H);; hfail e
        | Err _ => htry (sys H);; hfail e
        end
    end;;
    flock ← htry (sys H);
    match flock with
    | Err e => htry (sys H);; hfail e
    | Ok _ => deferred (htry (sys H);; sys H) body
    end.

Definition sshdSessionSuffix : string := "/libexec/sshd-session".
Definition looksLikeWarpTweetSession (identity : ProcessIdentity) : bool :=
  Strings.contains (i_Exe identity) "/"
  && (Strings.has_suffix (i_Exe identity) sshdSessionSuffix
      || Strings.has_suffix (i_Exe identity) "/sbin/sshd"
      || Strings.has_suffix (i_Exe identity) "/bin/warptweet").

(** process_linux.go *)
Definition DataPlaneBootIDPath : string := "/var/lib/warptweet/sessions/boot.id".
Definition readProc (path : string) : HM bytes := n ← call; hlift (procRead n path).
Definition procDir (pid : Z) : string :=
  if pid =? selfPid then "/proc/self" else "/proc/" ++ Strings.itoa pid.

Definition currentBootID : HM string :=
  r ← htry (ReadFile H DataPlaneBootIDPath);
  contents ← match r with Ok c => mret c | Err _ => readProc "/proc/sys/kernel/random/boot_id" end;
  let bootID := Strings.trim_space (to_string contents) in
  if eqs bootID "" then hfail (EMsg "boot id is empty") else mret bootID.

(** The bytes after the last closing parenthesis. *)
Fixpoint afterParen (b : bytes) : option bytes :=
  match b with
  | [] => None
  | c :: r => match afterParen r with
              | Some t => Some t
              | None => if zb c =? 41 then Some r else None
              end
  end.

Definition linuxStartTime (pid : Z) : HM string :=
  contents ← readProc (procDir pid ++ "/stat");
  match afterParen contents with
  | None | Some [] => hfail (EMsg ("parse /proc/" ++ Strings.itoa pid ++ "/stat"))
  | Some rest =>
      match Strings.fields (to_string rest) !! 19%nat with
      | None => hfail (EMsg ("parse /proc/" ++ Strings.itoa pid ++ "/stat starttime"))
      | Some startTime => mret startTime
      end
  end.

Definition inspectProcess (pid : Z) : HM ProcessIdentity :=
  if pid <=? 0 then hfail (EMsg "invalid pid")
  else
    bootID ← currentBootID;
    n ← call;
    match procLink n (procDir pid ++ "/exe") with
    | Err e => hfail (EMsg ("read process exe: " ++ errText e))
    | Ok exe =>
        startTime ← linuxStartTime pid;
        mret (mkIdentity bootID pid startTime exe)
    end.

Definition inspect (pid : Z) : HM ProcessIdentity := inspectProcess pid.

(** The grant of a key among the client records, at [now]. *)
Fixpoint matches (keyBlobSHA256 : string) (now : Time.Time) (records : list ClientStore.ClientRecord)
    : result (list ClientStore.ClientRecord) :=
  match records with
  | [] => Ok []
  | record :: rest =>
      let skip := match KeyBlobDigest (ClientStore.PublicKey record) with
                  | Ok digest => negb (eqs digest keyBlobSHA256)
                  | Err _ => true
                  end in
      if skip then matches keyBlobSHA256 now rest
      else if negb (eqs (ClientStore.Status record) ClientStatusActive)
              && negb (eqs (ClientStore.Status record) ClientStatusRotationPending)
      then rejected ("grant status is " ++ ClientStore.Status record)
      else if eqs (ClientStore.AuthorizationNotAfter record) "" then rejected "grant missing expiry"
      else match Grant.ParseUTC (ClientStore.AuthorizationNotAfter record) with
      | Err _ => rejected "grant is expired"
      | Ok notAfter =>
          if Grant.ReadyToExpire notAfter now then rejected "grant is expired"
          else found ← matches keyBlobSHA256 now rest; Ok (record :: found)
      end
  end.

Definition selectGrant (keyBlobSHA256 : string) (now : Time.Time) (records : list ClientStore.ClientRecord)
    : result ClientStore.ClientRecord :=
  found ← matches keyBlobSHA256 now records;
  match found with
  | [] => rejected "no active grant for key"
  | [record] => Ok record
  | _ => rejected "key maps to more than one grant"
  end.

Definition matchingGrant (authority : Authority) (keyBlobSHA256 : string) : HM ClientStore.ClientRecord :=
  r ← htry (ListClients H (ClientsDir authority));
  match r with
  | Err e => hlift (rejected ("list grants: " ++ errText e))
  | Ok records => now ← Host.now H; hlift (selectGrant keyBlobSHA256 now records)
  end.

Definition Register (authority : Authority) (pid : Z) (keyBlobSHA256 connectionID : string) : HM Session :=
  locked authority
    (r ← htry (inspect pid);
     match r with
     | Err e => hlift (rejected ("process identity: " ++ errText e))
     | Ok identity =>
         if eqs (i_Exe identity) "" || negb (Strings.contains (i_Exe identity) "/")
         then hlift (rejected "process executable path is unavailable")
         else if negb (eqs (ExpectedExe authority) "") && negb (eqs (i_Exe identity) (ExpectedExe authority))
         then hlift (rejected "process is not the WarpTweet data-plane")
         else if eqs (ExpectedExe authority) "" && negb (looksLikeWarpTweetSession identity)
         then hlift (rejected "process is not the WarpTweet data-plane")
         else
           record ← matchingGrant authority keyBlobSHA256;
           now ← Host.now H;
           registeredAt ← hlift (Grant.FormatUTC now);
           let connectionID := if eqs connectionID ""
             then (ClientStore.Generation record ++ "-" ++ Strings.itoa pid)%string else connectionID in
           let session := mkSession Kind_ SchemaVersion_ (ClientStore.GrantID record)
             (ClientStore.ClientID record) (ClientStore.Generation record)
             (ClientStore.PublicKeySHA256 record) keyBlobSHA256 (i_BootID identity) (i_PID identity)
             (i_StartTime identity) (i_Exe identity) connectionID registeredAt in
           r ← htry (writeRecord H (recordPath (Root authority) session) session);
           match r with
           | Err e => hlift (rejected ("persist session: " ++ errText e))
           | Ok _ => mret session
           end
     end).

(** ** Listing *)

Fixpoint readAll (root : string) (keep : Session → bool) (names : list string) : HM (list found) :=
  match names with
  | [] => mret []
  | name :: rest =>
      if negb (Strings.has_suffix name ".json") then readAll root keep rest
      else
        let path := Filepath.Join root name in
        record ← readRecord H path;
        records ← readAll root keep rest;
        mret (if keep record then (path, record) :: records else records)
  end.

Definition listMatching (authority : Authority) (keep : Session → bool) : HM (list found) :=
  r ← htry (ReadDir H (Root authority));
  match r with
  | Err e => if IsNotExist e then mret [] else hfail e
  | Ok names => readAll (Root authority) keep names
  end.

Definition Lookup (authority : Authority) (clientID generation publicKeySHA256 : string) : HM (list found) :=
  listMatching authority (λ record, eqs (ClientID record) clientID && eqs (Generation record) generation
                                    && eqs (PublicKeySHA256 record) publicKeySHA256).
Definition All (authority : Authority) : HM (list found) := listMatching authority (λ _, true).

Fixpoint removeAll (records : list found) : HM () :=
  match records with
  | [] => mret ()
  | f :: rest => removeIfPresent H (recordFile f);; removeAll rest
  end.

Definition clearMatching (authority : Authority) (keep : Session → bool) : HM () :=
  records ← listMatching authority keep; removeAll records.

Definition UnregisterConnection (authority : Authority) (pid : Z) (connectionID : string) : HM () :=
  locked authority
    (if eqs connectionID "" then clearMatching authority (λ record, PID record =? pid)
     else clearMatching authority (λ record, (PID record =? pid) && eqs (ConnectionID record) connectionID)).

(** [Clear]: unreadable records are removed too. *)
Fixpoint clearLoop (root clientID generation publicKeySHA256 : string) (names : list string) : HM () :=
  match names with
  | [] => mret ()
  | name :: rest =>
      (if negb (Strings.has_suffix name ".json") then mret ()
       else
         let path := Filepath.Join root name in
         r ← htry (readRecord H path);
         match r with
         | Err _ => removeIfPresent H path
         | Ok record =>
             if negb (eqs (ClientID record) clientID) || negb (eqs (Generation record) generation)
                || negb (eqs (PublicKeySHA256 record) publicKeySHA256)
             then mret () else removeIfPresent H path
         end);;
      clearLoop root clientID generation publicKeySHA256 rest
  end.
Definition Clear (authority : Authority) (clientID generation publicKeySHA256 : string) : HM () :=
  locked authority
    (r ← htry (ReadDir H (Root authority));
     match r with
     | Err e => if IsNotExist e then mret () else hfail e
     | Ok names => clearLoop (Root authority) clientID generation publicKeySHA256 names
     end).

(** ** terminate.go *)

Definition ControllerPath : string := "/opt/warptweet/bin/warptweet".
Definition isDataPlaneExe (exe : string) : bool :=
  eqs exe ControllerPath || Strings.has_suffix exe "/bin/warptweet".

Definition dropDataPlaneSessions (keySHA256 : string) : HM () :=
  r ← htry (sys H);                              (* DialTimeout *)
  match r with
  | Err e => hfail (EMsg ("data-plane control socket: " ++ errText e))
  | Ok _ =>
      deferred (sys H)                           (* Close *)
        (let request := mkRequest ProtocolVersion ActionDrop keySHA256 "" in
         sys H;;                                 (* Encode *)
         n ← call;
         reply ← hlift (control n (print (requestJSON request) ++ [bz 10]));
         response ← hlift ('(v, _) ← parse reply; decode false responseFields v zeroResponse);
         if OK response then mret ()
         else if eqs (Error_ response) "" then hfail (EMsg "data-plane drop refused")
         else hfail (EMsg ("data-plane drop: " ++ Error_ response)))
  end.

Definition sameIdentity (current identity : ProcessIdentity) : bool :=
  eqs (i_BootID current) (i_BootID identity) && eqs (i_StartTime current) (i_StartTime identity)
  && eqs (i_Exe current) (i_Exe identity).

Definition identityAlive (identity : ProcessIdentity) : HM bool :=
  r ← htry (inspect (i_PID identity));
  match r with Ok current => mret (sameIdentity current identity) | Err _ => mret false end.

(** A process that is gone is not an error. *)
Definition ignoreGone (e : error) : HM () :=
  if IsNotExist e || bool_decide (e = EOS ESRCH) then mret () else hfail e.
Definition signalIdentity (identity : ProcessIdentity) : HM () :=
  r ← htry (sys H);                              (* pidfd_open *)
  match r with
  | Err e => ignoreGone e
  | Ok _ =>
      r ← htry (inspect (i_PID identity));
      match r with
      | Err e => htry (sys H);; ignoreGone e
      | Ok current =>
          if negb (sameIdentity current identity) then htry (sys H);; mret ()
          else deferred (sys H)                  (* close *)
            (r ← htry (sys H);                   (* pidfd_send_signal *)
             match r with
             | Err e => if bool_decide (e = EOS ESRCH) then mret () else hfail e
             | Ok _ => mret ()
             end)
      end
  end.

(** The polls of [waitIdentityGone]: one every 20 ms until the deadline. *)
Fixpoint pollGone (fuel : nat) (until : Time.Time) (identity : ProcessIdentity) : HM bool :=
  match fuel with
  | O => alive ← identityAlive identity; mret (negb alive)
  | S f =>
      now ← Host.now H;
      if Time.Before now until then
        alive ← identityAlive identity;
        if negb alive then mret true else pollGone f until identity
      else alive ← identityAlive identity; mret (negb alive)
  end.
Definition maxPolls : nat := 101.
Definition waitIdentityGone (identity : ProcessIdentity) (deadline : Time.Duration) : HM bool :=
  now ← Host.now H; pollGone maxPolls (Time.Add now deadline) identity.

(** [first]: the first error is kept, the loop goes on. *)
Definition keepFirst (first : option error) (r : result ()) : option error :=
  match first, r with
  | None, Err e => Some e
  | _, _ => first
  end.

Definition identityOf (record : Session) : ProcessIdentity :=
  mkIdentity (BootID record) (PID record) (StartTime record) (Exe record).

Fixpoint terminateLoop (first : option error) (records : list found) : HM (option error) :=
  match records with
  | [] => mret first
  | f :: rest =>
      let record := f.2 in
      first ←
        (if isDataPlaneExe (Exe record) then
           r ← htry (dropDataPlaneSessions (KeyBlobSHA256 record));
           match r with
           | Err _ => mret (keepFirst first r)
           | Ok _ => r ← htry (removeIfPresent H (recordFile f)); mret (keepFirst first r)
           end
         else
           r ← htry (signalIdentity (identityOf record));
           let first := keepFirst first r in
           gone ← waitIdentityGone (identityOf record) (2 * Time.Second);
           if negb gone then r ← htry (signalIdentity (identityOf record)); mret (keepFirst first r)
           else mret first);
      terminateLoop first rest
  end.

Definition terminateMatching (authority : Authority) (keep : Session → bool) : HM () :=
  locked authority
    (records ← listMatching authority keep;
     first ← terminateLoop None records;
     match first with Some e => hfail e | None => mret () end).

Definition matchGrantSessions (clientID generation publicKeySHA256 : string) (record : Session) : bool :=
  if negb (eqs (ClientID record) clientID) then false
  else if negb (eqs generation "") && negb (eqs (Generation record) generation) then false
  else if negb (eqs publicKeySHA256 "") && negb (eqs (PublicKeySHA256 record) publicKeySHA256) then false
  else true.

Definition Terminate (authority : Authority) (clientID generation publicKeySHA256 : string) : HM () :=
  terminateMatching authority (matchGrantSessions clientID generation publicKeySHA256).
Definition TerminateAll (authority : Authority) : HM () := terminateMatching authority (λ _, true).

Fixpoint verifyLoop (clientID generation : string) (records : list found) : HM () :=
  match records with
  | [] => mret ()
  | f :: rest =>
      let record := f.2 in
      if isDataPlaneExe (Exe record)
      then hfail (EMsg ("data-plane session " ++ ConnectionID record ++ " for client " ++ clientID
                        ++ " is still registered"))
      else
        alive ← identityAlive (identityOf record);
        if (alive : bool)
        then hfail (EMsg ("session pid " ++ Strings.itoa (PID record) ++ " for client " ++ clientID
                          ++ " generation " ++ generation ++ " is still running"))
        else removeIfPresent H (recordFile f);; verifyLoop clientID generation rest
  end.
Definition VerifyGone (authority : Authority) (clientID generation publicKeySHA256 : string) : HM () :=
  locked authority
    (records ← listMatching authority (matchGrantSessions clientID generation publicKeySHA256);
     verifyLoop clientID generation records).

End authority.
End GrantSession.
