(* ===== verification/SessionProps.v ===== *)
(** * Properties of the session authority *)

From stdpp Require Import sorting.
From S2P Require Import Prelude GoStd Json StrictJson Time Host Locator Grant GrantProps SshWire Crypto Packet.
From S2P Require Import Kex Listen ClientStore ClientCodec Clients ClientProps GrantSession.
Import Json Clients GrantSession.

(** ** The grant of a key *)

Section grants.
Context {CR : Crypto} (key : string) (now : Time.Time).

Definition byKey (r : ClientStore.ClientRecord) : Prop := KeyBlobDigest (ClientStore.PublicKey r) = Ok key.
#[global] Instance byKey_dec r : Decision (byKey r).
Proof. unfold byKey. solve_decision. Defined.

(** A grant that may be used at [now]. *)
Definition usable (r : ClientStore.ClientRecord) : Prop :=
  (ClientStore.Status r = ClientStatusActive ∨ ClientStore.Status r = ClientStatusRotationPending) ∧
  ∃ notAfter, Grant.ParseUTC (ClientStore.AuthorizationNotAfter r) = Ok notAfter ∧
              Grant.ReadyToExpire notAfter now = false.

Lemma ParseUTC_empty : ∃ e, Grant.ParseUTC "" = Err e.
Proof. eexists. vm_compute. reflexivity. Qed.

Lemma matches_iff records l :
  matches key now records = Ok l ↔ l = filter byKey records ∧ Forall usable l.
Proof.
  revert l. induction records as [|r records IH]; intros l; cbn [matches].
  { rewrite filter_nil. split; [by intros [= <-]|by intros [-> _]]. }
  assert ((match KeyBlobDigest (ClientStore.PublicKey r) with
           | Ok d => negb (eqs d key) | Err _ => true end) = negb (bool_decide (byKey r))) as ->.
  { destruct (bool_decide_reflect (byKey r)) as [Hk|Hk]; unfold byKey in Hk; unfold eqs.
    - rewrite Hk. by rewrite bool_decide_eq_true_2.
    - destruct (KeyBlobDigest _) as [d|e]; [|done]. rewrite bool_decide_eq_false_2; [done|]. by intros ->. }
  destruct (bool_decide_reflect (byKey r)) as [Hk|Hk]; cbn [negb].
  2:{ by rewrite filter_cons_False, IH. }
  rewrite filter_cons_True by done. unfold eqs.
  destruct (bool_decide_reflect (ClientStore.Status r = ClientStatusActive)) as [Ha|Ha];
  destruct (bool_decide_reflect (ClientStore.Status r = ClientStatusRotationPending)) as [Hr|Hr]; cbn [negb andb];
    try (by rewrite Ha in Hr);
    try (split; [done|intros [-> [[[?|?] _] _]%List.Forall_cons_iff]; done]);
  (destruct (bool_decide_reflect (ClientStore.AuthorizationNotAfter r = ""%string)) as [He|He];
    [split; [done|]; intros [-> [(_ & t & Ht & _) _]%List.Forall_cons_iff]; rewrite He in Ht;
     destruct ParseUTC_empty as [e Hpe]; congruence|]);
  (destruct (Grant.ParseUTC (ClientStore.AuthorizationNotAfter r)) as [t|e] eqn:Ht;
    [|split; [done|]; intros [-> [(_ & t & Ht' & _) _]%List.Forall_cons_iff]; congruence]);
  (destruct (Grant.ReadyToExpire t now) eqn:Hx;
    [split; [done|]; intros [-> [(_ & t' & Ht' & Hx') _]%List.Forall_cons_iff]; congruence|]);
  (split;
    [intros (l' & Hl & [= <-])%bind_Ok; apply IH in Hl as [-> Hl]; split; [done|];
     constructor; [split; [auto|by exists t]|done]
    |intros [-> [_ Hf]%List.Forall_cons_iff]; rewrite (proj2 (IH _)) by done; done]).
Qed.

(** A key is bound to a grant only when that is unambiguous.
    [matchingGrant] returns a record exactly when it is the only client record
    with that key blob and it is active or rotating and not expired. *)
Theorem grant_of_key_exact records r :
  selectGrant key now records = Ok r ↔ filter byKey records = [r] ∧ usable r.
Proof.
  unfold selectGrant. split.
  - intros (l & Hl & Hr)%bind_Ok. apply matches_iff in Hl as [-> Hf].
    destruct (filter byKey records) as [|x [|y l]]; try done. injection Hr as <-.
    by apply List.Forall_cons_iff in Hf as [? _].
  - intros [Hf Hu]. rewrite (proj2 (matches_iff records [r])); [done|]. split; [done|]. constructor; [done|constructor].
Qed.

End grants.

(** ** Names and paths of a directory *)

Lemma split_bytes_app a b :
  Strings.split_bytes (bz 47) (a ++ bz 47 :: b) = Strings.split_bytes (bz 47) a ++ Strings.split_bytes (bz 47) b.
Proof.
  induction a as [|x a IH]; cbn [app Strings.split_bytes]; [by rewrite bool_decide_eq_true_2|].
  case_bool_decide; [by rewrite IH|]. rewrite IH.
  destruct (Strings.split_bytes (bz 47) a) as [|f fs] eqn:Hs; [|done].
  destruct a as [|y a]; cbn in Hs; [done|]. case_bool_decide; [done|]. by destruct (Strings.split_bytes (bz 47) a).
Qed.

Lemma split_bytes_plain b : bz 47 ∉ b → Strings.split_bytes (bz 47) b = [b].
Proof.
  induction b as [|x b IH]; [done|]. intros [Hx Hb]%not_elem_of_cons. cbn.
  by rewrite bool_decide_eq_false_2, IH by congruence.
Qed.

(** A rooted path in canonical form, other than the root itself. *)
Definition clean_root (root : string) : Prop :=
  Strings.has_prefix root "/" = true ∧ Filepath.Clean root = root ∧ root ≠ "/"%string.
(** A file name. *)
Definition plain_name (name : string) : Prop :=
  name ≠ ""%string ∧ (bz 47 ∉ to_bytes name) ∧ name ≠ "."%string ∧ name ≠ ".."%string.

Lemma join_segs_snoc l x : l ≠ [] → Filepath.join_segs (l ++ [x]) = Filepath.join_segs l ++ [bz 47] ++ x.
Proof.
  induction l as [|y l IH]; [done|]. intros _. destruct l as [|z l]; [done|].
  cbn [app] in *. specialize (IH ltac:(done)).
  change (Filepath.join_segs (y :: z :: l ++ [x])) with (y ++ [bz 47] ++ Filepath.join_segs (z :: l ++ [x])).
  change (Filepath.join_segs (y :: z :: l)) with (y ++ [bz 47] ++ Filepath.join_segs (z :: l)).
  rewrite IH. by rewrite <- !app_assoc.
Qed.

Lemma Join_plain root name :
  clean_root root → plain_name name → Filepath.Join root name = (root ++ "/" ++ name)%string.
Proof.
  intros (Hp & Hc & Hne) (Hn & Hs & Hd & Hdd). unfold Filepath.Join.
  rewrite (bool_decide_eq_false_2 (root = _)) by (intros ->; discriminate). cbn [andb].
  unfold Filepath.Clean in *.
  assert (Strings.has_prefix (root ++ "/" ++ name) "/" = true) as ->.
  { unfold Strings.has_prefix in *. apply bool_decide_eq_true in Hp. apply bool_decide_eq_true.
    rewrite Locator.to_bytes_append. cbn [String.length] in *. destruct (to_bytes root); [done|]. exact Hp. }
  rewrite Hp in Hc. apply to_bytes_inj. rewrite <- Hc at 2. rewrite !Locator.to_bytes_append, !to_bytes_string.
  change (to_bytes "/" ++ to_bytes name) with (bz 47 :: to_bytes name).
  rewrite split_bytes_app, foldl_app, (split_bytes_plain (to_bytes name)) by done. cbn [foldl].
  set (segs := foldl (Filepath.clean_step true) [] (Strings.split_bytes (bz 47) (to_bytes root))) in *.
  assert (∀ s, name ≠ s → bool_decide (to_bytes name = to_bytes s) = false) as Hneq.
  { intros s Hs'. apply bool_decide_eq_false_2. intros He%to_bytes_inj. done. }
  assert (bool_decide (to_bytes name = []) = false) as Hnil.
  { apply bool_decide_eq_false_2. intros E. apply Hn, to_bytes_inj. by rewrite E. }
  unfold Filepath.clean_step. rewrite Hnil, !Hneq by done. cbn [orb].
  rewrite reverse_cons, join_segs_snoc; [by rewrite <- !app_assoc|].
  intros He. rewrite He in Hc. cbn in Hc. by destruct Hne.
Qed.

Lemma childName_Some dir path name :
  childName dir path = Some name ↔ path = (dir ++ "/" ++ name)%string ∧ name ≠ ""%string ∧ bz 47 ∉ to_bytes name.
Proof.
  unfold childName. rewrite !Locator.to_bytes_append. split.
  - case_bool_decide as Ht; [|done]. destruct (_ || _) eqn:Ho; [done|]. intros [= <-].
    apply orb_false_iff in Ho as [H1%bool_decide_eq_false H2%bool_decide_eq_false].
    rewrite to_bytes_string. split_and!; [|by intros E%(f_equal to_bytes); rewrite to_bytes_string in E|done].
    apply to_bytes_inj. rewrite !Locator.to_bytes_append, to_bytes_string, app_assoc.
    rewrite <- Ht at 1. by rewrite take_drop.
  - intros (-> & Hn & Hs). rewrite !Locator.to_bytes_append, app_assoc, take_app_length, drop_app_length.
    rewrite bool_decide_eq_true_2 by done.
    rewrite (bool_decide_eq_false_2 (to_bytes name = [])), bool_decide_eq_false_2, to_string_bytes; [done|done|].
    intros E. apply Hn, to_bytes_inj. by rewrite E.
Qed.

Lemma listing_iff dir fs name :
  name ∈ listing dir fs ↔
  is_Some (fs !! (dir ++ "/" ++ name)%string) ∧ name ≠ ""%string ∧ bz 47 ∉ to_bytes name.
Proof.
  unfold listing. rewrite merge_sort_Permutation, list_elem_of_omap. split.
  - intros ([p c] & Hin & Hc). apply elem_of_map_to_list in Hin. cbn [fst] in Hc.
    apply childName_Some in Hc as (-> & Hn). eauto.
  - intros ([c Hc] & Hn). exists ((dir ++ "/" ++ name)%string, c). rewrite elem_of_map_to_list.
    split; [done|]. by apply childName_Some.
Qed.

(** ** Sessions that are gone *)

Section gone.
Context {CR : Crypto} (H : hostEnv) (procRead : nat → string → result bytes)
  (procLink : nat → string → result string) (selfPid : Z) (control : nat → bytes → result bytes)
  (groupAccess : nat → bool).
Hypothesis Hhonest : honest H.
Implicit Types fs : gmap string bytes.

Definition json_name (name : string) : Prop := Strings.has_suffix name ".json" = true.

(** The session file [name] of [root] holds [record]. *)
Definition holds (root name : string) fs (record : Session) : Prop :=
  ∃ raw, fs !! Filepath.Join root name = Some raw ∧ parseRecord raw = Ok record.

Lemma readRecord_spec path fs0 :
  htriple (λ fs, fs = fs0) (readRecord H path)
    (λ r fs, fs = fs0 ∧ ∀ rec, r = Ok rec → ∃ raw, fs0 !! path = Some raw ∧ parseRecord raw = Ok rec).
Proof.
  unfold readRecord. eapply (htriple_bind _ _ (λ c fs, fs = fs0 ∧ fs0 !! path = Some c)).
  { apply htriple_ReadFile; [by intros e fs ->|by intros c fs -> Hc]. }
  intros c. eapply (htriple_deferred _ _ _ (λ r fs, fs = fs0 ∧ ∀ rec, r = Ok rec →
    ∃ raw, fs0 !! path = Some raw ∧ parseRecord raw = Ok rec)).
  - eapply (htriple_bind _ _ (λ _ fs, fs = fs0 ∧ fs0 !! path = Some c));
      [apply htriple_sys; intros [] fs [-> Hc]; done|].
    intros _. apply htriple_lift. intros fs [-> Hc]. split; [done|]. intros rec Hr. by exists c.
  - intros r. apply htriple_sys. auto.
Qed.

(** What a listing returns, and that every session file was readable. *)
Definition listed (root : string) (keep : Session → bool) (names : list string) fs (l : list found) : Prop :=
  (∀ name, name ∈ names → json_name name → ∃ rec, holds root name fs rec ∧
     (keep rec = true → (Filepath.Join root name, rec) ∈ l)) ∧
  (∀ p rec, (p, rec) ∈ l → keep rec = true ∧ ∃ name, name ∈ names ∧ p = Filepath.Join root name ∧ holds root name fs rec).

Lemma readAll_spec root keep names fs0 :
  htriple (λ fs, fs = fs0) (readAll H root keep names)
    (λ r fs, fs = fs0 ∧ ∀ l, r = Ok l → listed root keep names fs0 l).
Proof.
  induction names as [|name names IH]; cbn [readAll].
  { apply htriple_ret. intros fs ->. split; [done|]. intros l [= <-].
    split; [intros name ?%elem_of_nil; done|intros p rec ?%elem_of_nil; done]. }
  destruct (Strings.has_suffix name ".json") eqn:Hj; cbn [negb].
  2:{ eapply htriple_weaken; [exact IH|done|]. intros r fs [-> Hl]. split; [done|]. intros l Hr.
      destruct (Hl l Hr) as [H1 H2]. split.
      - intros n [-> |Hn]%elem_of_cons Hn'; [unfold json_name in Hn'; congruence|auto].
      - intros p rec Hin. destruct (H2 p rec Hin) as (Hk & n & Hn & ?). split; [done|]. exists n. split; [by right|done]. }
  eapply (htriple_bind _ _ (λ rec fs, fs = fs0 ∧ holds root name fs0 rec)).
  { eapply htriple_weaken; [apply (readRecord_spec (Filepath.Join root name) fs0)|done|].
    intros [rec|e] fs [-> Hr]; [split; [done|]; by apply Hr|done]. }
  intros rec. eapply (htriple_bind _ _ (λ l fs, fs = fs0 ∧ holds root name fs0 rec ∧ listed root keep names fs0 l)).
  { intros w [Hw Hh]. specialize (IH w Hw). destruct (readAll H root keep names w) as [[l|e] w'];
      destruct IH as [H1 H2]; [|split; [exact H1|by intros ? [=]]]. split_and!; [exact H1|done|by apply H2]. }
  intros l. apply htriple_ret. intros fs (-> & Hh & H1 & H2). split; [done|]. intros l' [= <-]. split.
  - intros n [-> |Hn]%elem_of_cons Hn'.
    + exists rec. split; [done|]. intros ->. by left.
    + destruct (H1 n Hn Hn') as (rec' & Hr' & Hin). exists rec'. split; [done|]. intros Hk. specialize (Hin Hk).
      destruct (keep rec); [by right|done].
  - intros p rec' Hin. destruct (keep rec) eqn:Hk.
    + apply elem_of_cons in Hin as [[= -> ->]|Hin].
      * split; [done|]. exists name. split; [by left|done].
      * destruct (H2 p rec' Hin) as (? & n & Hn & ?). split; [done|]. exists n. split; [by right|done].
    + destruct (H2 p rec' Hin) as (? & n & Hn & ?). split; [done|]. exists n. split; [by right|done].
Qed.

Lemma listMatching_spec authority keep fs0 :
  htriple (λ fs, fs = fs0) (listMatching H authority keep)
    (λ r fs, fs = fs0 ∧ ∀ l, r = Ok l → listed (Root authority) keep (listing (Root authority) fs0) fs0 l).
Proof using Hhonest.
  intros w Hw. unfold listMatching, htry, ReadDir, sys, call, get_files, mbind, HM_bind. cbn [files calls].
  destruct (h_fault H (calls w)) as [e|] eqn:He; cbn [fst snd].
  - unfold hfail, IsNotExist. cbv beta iota. rewrite bool_decide_eq_false_2; [done|]. intros ->.
    by destruct (Hhonest (calls w)).
  - cbn [mret HM_ret files]. rewrite Hw. by apply (readAll_spec (Root authority) keep _ fs0).
Qed.

(** A removal that reports success leaves no file. *)
Lemma removeIfPresent_spec path fs0 :
  htriple (λ fs, fs = fs0) (removeIfPresent H path)
    (λ r fs, (fs = fs0 ∨ fs = delete path fs0) ∧ (r = Ok () → fs !! path = None)).
Proof using Hhonest.
  intros w Hw. unfold removeIfPresent, htry, Remove, sys, call, get_files, set_files, mbind, HM_bind, IsNotExist.
  cbn [files calls]. destruct (h_fault H (calls w)) as [e|] eqn:He; cbn [fst snd files].
  - unfold hfail. cbv beta iota. rewrite bool_decide_eq_false_2; [split; [left; exact Hw|by intros [=]]|].
    intros ->.
    by destruct (Hhonest (calls w)).
  - cbn. rewrite Hw. destruct (fs0 !! path) eqn:Hl; cbn; rewrite ?Hw.
    + split; [by right|]. by rewrite lookup_delete_eq.
    + split; [by left|done].
Qed.

(** Files were only removed. *)
Definition shrunk fs0 fs : Prop := ∀ p, fs !! p = fs0 !! p ∨ fs !! p = None.
#[local] Instance shrunk_preorder : PreOrder shrunk.
Proof.
  split; [by left|]. intros a b c Hab Hbc p. destruct (Hbc p) as [-> | ->]; [apply Hab|by right].
Qed.
Lemma shrunk_delete p fs : shrunk fs (delete p fs).
Proof. intros q. destruct (decide (p = q)) as [-> |]; [right; apply lookup_delete_eq|left; by apply lookup_delete_ne]. Qed.

Lemma shrunk_gone fs0 fs p : shrunk fs0 fs → fs0 !! p = None → fs !! p = None.
Proof. intros Hs Hp. by destruct (Hs p) as [-> | ->]. Qed.

(** Inspecting a process changes no file. *)
Lemma ReadFile_keeps path fs : htriple (λ fs', fs' = fs) (ReadFile H path) (λ _ fs', fs' = fs).
Proof. apply htriple_ReadFile; by intros ? ? ->. Qed.
Lemma try_keeps {A} (m : HM A) fs :
  htriple (λ fs', fs' = fs) m (λ _ fs', fs' = fs) → htriple (λ fs', fs' = fs) (htry m) (λ _ fs', fs' = fs).
Proof. intros Hm. by apply htriple_try. Qed.
Lemma pure_keeps {A} (r : result A) fs : htriple (λ fs', fs' = fs) (hlift r) (λ _ fs', fs' = fs).
Proof. by apply htriple_lift. Qed.
Lemma call_keeps fs : htriple (λ fs', fs' = fs) call (λ _ fs', fs' = fs).
Proof. by intros w. Qed.
Lemma ret_keeps {A} (a : A) fs : htriple (λ fs', fs' = fs) (mret a) (λ _ fs', fs' = fs).
Proof. by apply htriple_ret. Qed.
Lemma fail_keeps {A} e fs : htriple (λ fs', fs' = fs) (hfail e : HM A) (λ _ fs', fs' = fs).
Proof. by apply htriple_fail. Qed.
Create HintDb keeps.
#[local] Hint Resolve ReadFile_keeps try_keeps pure_keeps call_keeps ret_keeps fail_keeps sys_keeps : keeps.
#[local] Ltac keeps := repeat first
  [ progress auto with keeps nocore
  | apply bind_keeps; [|intros ?]
  | apply try_keeps | apply deferred_keeps
  | progress cbv zeta | case_match ].

Lemma inspect_keeps pid fs :
  htriple (λ fs', fs' = fs) (inspect H procRead procLink selfPid pid) (λ _ fs', fs' = fs).
Proof. unfold inspect, inspectProcess, currentBootID, linuxStartTime, readProc. keeps. Qed.
#[local] Hint Resolve inspect_keeps : keeps.
Lemma identityAlive_keeps i fs :
  htriple (λ fs', fs' = fs) (identityAlive H procRead procLink selfPid i) (λ _ fs', fs' = fs).
Proof. unfold identityAlive. keeps. Qed.
#[local] Hint Resolve identityAlive_keeps : keeps.
Lemma now_keeps fs : htriple (λ fs', fs' = fs) (Host.now H) (λ _ fs', fs' = fs).
Proof. by intros w. Qed.
#[local] Hint Resolve now_keeps : keeps.
Lemma signalIdentity_keeps i fs :
  htriple (λ fs', fs' = fs) (signalIdentity H procRead procLink selfPid i) (λ _ fs', fs' = fs).
Proof. unfold signalIdentity, ignoreGone. keeps. Qed.
#[local] Hint Resolve signalIdentity_keeps : keeps.
Lemma pollGone_keeps fuel until i fs :
  htriple (λ fs', fs' = fs) (pollGone H procRead procLink selfPid fuel until i) (λ _ fs', fs' = fs).
Proof. induction fuel as [|f IH]; cbn [pollGone]; keeps. Qed.
#[local] Hint Resolve pollGone_keeps : keeps.

Lemma verifyLoop_spec clientID generation l : ∀ fs0,
  htriple (λ fs, fs = fs0) (verifyLoop H procRead procLink selfPid clientID generation l)
    (λ r fs, shrunk fs0 fs ∧ (r = Ok () → ∀ p rec, (p, rec) ∈ l →
       fs !! p = None ∧ isDataPlaneExe (Exe rec) = false)).
Proof using Hhonest.
  induction l as [|[p rec] l IH]; intros fs0; cbn [verifyLoop].
  { apply htriple_ret. intros fs ->. split; [done|]. intros _ p rec ?%elem_of_nil. done. }
  cbn [snd]. destruct (isDataPlaneExe (Exe rec)) eqn:Hexe; [apply htriple_fail; intros fs ->; done|].
  eapply (htriple_bind _ _ (λ _ fs, fs = fs0)).
  { eapply htriple_weaken; [apply (identityAlive_keeps _ fs0)|done|]. by intros [] fs ->. }
  intros [|]; [apply htriple_fail; intros fs ->; done|].
  eapply (htriple_bind _ _ (λ _ fs, shrunk fs0 fs ∧ fs !! p = None)).
  { eapply htriple_weaken; [apply (removeIfPresent_spec p fs0)|done|].
    intros [[]|e] fs [Hor Hok]; (assert (shrunk fs0 fs) as Hs by (destruct Hor as [-> | ->]; [done|apply shrunk_delete]));
      [by auto|done]. }
  intros _ w [Hs Hp]. destruct (IH (files w) w eq_refl) as [Hs' Hok]. split; [by etrans|].
  intros Hr q rec' [[= -> ->]|Hin]%elem_of_cons; [|by apply Hok].
  split; [|done]. cbn [recordFile fst] in Hp. by eapply shrunk_gone.
Qed.

(** What [VerifyGone] promises of a directory of sessions: every session file
    that is left is readable and is not one of the grant's. *)
Definition no_session (root clientID generation digest : string) fs : Prop :=
  ∀ name, name ∈ listing root fs → json_name name →
    ∃ rec, holds root name fs rec ∧ matchGrantSessions clientID generation digest rec = false.

Lemma json_plain name : name ≠ ""%string → bz 47 ∉ to_bytes name → json_name name → plain_name name.
Proof.
  intros Hn Hs Hj. split_and!; [done|done|..]; intros ->; discriminate Hj.
Qed.

Lemma verify_no_session authority clientID generation digest fs0 :
  clean_root (Root authority) →
  htriple (λ fs, fs = fs0)
    (records ← listMatching H authority (matchGrantSessions clientID generation digest);
     verifyLoop H procRead procLink selfPid clientID generation records)
    (λ r fs, r = Ok () → no_session (Root authority) clientID generation digest fs).
Proof using Hhonest.
  intros Hroot. set (keep := matchGrantSessions clientID generation digest).
  eapply (htriple_bind _ _ (λ l fs, fs = fs0 ∧ listed (Root authority) keep (listing (Root authority) fs0) fs0 l)).
  { eapply htriple_weaken; [apply (listMatching_spec authority keep fs0)|done|].
    intros [l|e] fs [-> Hl]; [auto|done]. }
  intros l w [Hw [H1 H2]]. pose proof (verifyLoop_spec clientID generation l (files w) w eq_refl) as [Hs Hok].
  intros Hr. specialize (Hok Hr). intros name Hin Hj.
  set (fs := files (verifyLoop _ _ _ _ _ _ _ w).2) in *.
  apply listing_iff in Hin as ([raw Hraw] & Hn & Hslash). rewrite Hw in Hs.
  assert (Filepath.Join (Root authority) name = (Root authority ++ "/" ++ name)%string) as Hjoin
    by (apply Join_plain; [done|by apply json_plain]).
  assert (fs0 !! Filepath.Join (Root authority) name = Some raw) as H0.
  { rewrite Hjoin. by destruct (Hs (Root authority ++ "/" ++ name)%string) as [<- |Hx]; [|congruence]. }
  destruct (H1 name) as (rec & Hh & Hkeep); [|done|].
  { apply listing_iff. rewrite <- Hjoin. eauto. }
  exists rec. split.
  - destruct Hh as (raw' & Hr1 & Hr2). exists raw'. split; [|done]. rewrite Hjoin in *. congruence.
  - destruct (keep rec) eqn:Hk; [|done]. destruct (Hok _ _ (Hkeep eq_refl)) as [Hnone _].
    rewrite Hjoin in Hnone. congruence.
Qed.

(** Under the authority's lock: the body runs on the same files, but for an
    empty lock file. *)
Definition extended fs0 fs : Prop := ∀ p, is_Some (fs0 !! p) → fs !! p = fs0 !! p.

Lemma locked_rule {A} authority (body : HM A) fs0 (Q : result A → gmap string bytes → Prop) :
  (∀ fs1, extended fs0 fs1 → htriple (λ fs, fs = fs1) body Q) → (∀ e fs, Q (Err e) fs) →
  htriple (λ fs, fs = fs0) (locked H groupAccess authority body) Q.
Proof.
  intros Hb He. unfold locked. destruct (eqs (LockPath authority) ""); [by apply Hb|].
  assert (∀ {B} (m : HM B) k, (∀ fs, htriple (λ fs', fs' = fs) m (λ _ fs', fs' = fs)) →
    (∀ b, htriple (extended fs0) (k b) Q) → htriple (extended fs0) (m ≫= k) Q) as Hseq.
  { intros B m k Hm Hk w Hw. specialize (Hm (files w) w eq_refl). unfold mbind, HM_bind.
    destruct (m w) as [[b|e] w']; [|apply He]. apply Hk. cbn in Hm. by rewrite Hm. }
  apply (htriple_weaken _ (extended fs0) _ _ Q); [|by intros fs ->|done].
  apply Hseq; [intros fs; apply sys_keeps|intros _].
  eapply (htriple_bind _ _ (λ _, extended fs0)).
  { unfold OpenCreate. eapply (htriple_bind _ _ (λ _, extended fs0)); [apply htriple_sys; intros []; auto|].
    intros _ w Hw. cbn. destruct (files w !! LockPath authority) eqn:Hl; [done|].
    intros p Hp. rewrite lookup_insert_ne; [by apply Hw|]. intros <-. rewrite Hw in Hl by done. rewrite Hl in Hp. by destruct Hp. }
  intros _. apply Hseq; [intros fs; keeps|intros chmod]. apply Hseq; [intros fs; keeps|intros _].
  apply Hseq; [intros fs; keeps|]. intros [?|e].
  - eapply (htriple_deferred _ _ _ Q); [intros w Hw; by apply (Hb (files w) Hw)|]. intros r.
    eapply (htriple_bind _ _ (λ _, Q r)); [apply htriple_try, htriple_sys; auto|]. intros _. apply htriple_sys. auto.
  - apply Hseq; [intros fs; keeps|]. intros ?. apply htriple_fail. auto.
Qed.

Definition dropRequest (key : string) : bytes :=
  print (requestJSON (mkRequest ProtocolVersion ActionDrop key "")) ++ [bz 10].

(** The data plane acknowledged a request to drop [key]. *)
Definition acknowledged (key : string) : Prop :=
  ∃ n reply text, control n (dropRequest key) = Ok reply ∧
    ('(v, _) ← parse reply; decode false responseFields v zeroResponse) = Ok (mkResponse true text).

Lemma dropDataPlaneSessions_spec key fs0 :
  htriple (λ fs, fs = fs0) (dropDataPlaneSessions H control key)
    (λ r fs, fs = fs0 ∧ (r = Ok () → acknowledged key)).
Proof.
  unfold dropDataPlaneSessions. fold (dropRequest key).
  eapply (htriple_bind _ _ (λ _ fs, fs = fs0)); [apply htriple_try, htriple_sys; by intros ? ? -> |].
  intros [?|e]; [|apply htriple_fail; by intros fs ->].
  eapply (htriple_deferred _ _ _ (λ r fs, fs = fs0 ∧ (r = Ok () → acknowledged key)));
    [|intros r; apply htriple_sys; auto].
  cbv zeta. eapply (htriple_bind _ _ (λ _ fs, fs = fs0)); [apply htriple_sys; by intros [] ? -> |]. intros _.
  eapply (htriple_bind _ _ (λ _ fs, fs = fs0)); [by intros w|]. intros n.
  destruct (control n (dropRequest key)) as [reply|e] eqn:Hc; [|intros w Hw; split; [exact Hw|by intros [=]]].
  apply (ret_bind _ reply).
  destruct ('(v, _) ← parse reply; decode false responseFields v zeroResponse) as [resp|e] eqn:Hd;
    [|intros w Hw; split; [exact Hw|by intros [=]]].
  apply (ret_bind _ resp). destruct resp as [[] text]; cbn [OK Error_].
  - apply htriple_ret. intros fs ->. split; [done|]. intros _. by exists n, reply, text.
  - destruct (eqs text ""); apply htriple_fail; by intros fs ->.
Qed.

Lemma keepFirst_None first r : keepFirst first r = None → first = None ∧ r = Ok ().
Proof. destruct first, r as [[]|]; done. Qed.

(** One record of [Terminate]'s loop that leaves no error. *)
Definition terminated (f : found) fs : Prop :=
  isDataPlaneExe (Exe f.2) = true → fs !! f.1 = None ∧ acknowledged (KeyBlobSHA256 f.2).

Lemma terminateLoop_spec l : ∀ first fs0,
  htriple (λ fs, fs = fs0) (terminateLoop H procRead procLink selfPid control first l)
    (λ r fs, shrunk fs0 fs ∧ (r = Ok None → first = None ∧ ∀ f, f ∈ l → terminated f fs)).
Proof using Hhonest.
  induction l as [|[p rec] l IH]; intros first fs0; cbn [terminateLoop].
  { apply htriple_ret. intros fs ->. split; [done|]. intros [= ->]. split; [done|]. intros f ?%elem_of_nil. done. }
  cbn [snd]. eapply (htriple_bind _ _ (λ first' fs, shrunk fs0 fs ∧
    (first' = None → first = None ∧ terminated (p, rec) fs))).
  2:{ intros first' w [Hs Hf]. destruct (IH first' (files w) w eq_refl) as [Hs' Hok]. split; [by etrans|].
      intros Hr. destruct (Hok Hr) as [Hn Hin]. destruct (Hf Hn) as [H1 H2]. split; [done|].
      intros f [-> |Hf']%elem_of_cons; [|by apply Hin]. intros Hexe. destruct (H2 Hexe) as [H3 H4].
      split; [by eapply shrunk_gone|done]. }
  unfold terminated. cbn [fst snd]. destruct (isDataPlaneExe (Exe rec)) eqn:Hexe.
  - eapply (htriple_bind _ _ (λ r fs, fs = fs0 ∧ (r = Ok () → acknowledged (KeyBlobSHA256 rec)))).
    { apply htriple_try. apply dropDataPlaneSessions_spec. }
    intros [[]|e].
    + eapply (htriple_bind _ _ (λ r fs, shrunk fs0 fs ∧ (r = Ok () → fs !! p = None) ∧ acknowledged (KeyBlobSHA256 rec))).
      { apply htriple_try. change (recordFile (p, rec)) with p. intros w [Hw Ha].
        destruct (removeIfPresent_spec p fs0 w Hw) as [Hor Hok].
        split_and!; [destruct Hor as [-> | ->]; [done|apply shrunk_delete]|exact Hok|by apply Ha]. }
      intros r. apply htriple_ret. intros fs (Hs & Hok & Ha). split; [done|].
      intros [-> ->]%keepFirst_None. split; [done|]. auto.
    + apply htriple_ret. intros fs [-> _]. split; [done|]. by intros [_ ?]%keepFirst_None.
  - eapply (htriple_bind _ _ (λ _ fs, fs = fs0)).
    { apply htriple_try. eapply htriple_weaken; [apply (signalIdentity_keeps _ fs0)|done|]. auto. }
    intros r. eapply (htriple_bind _ _ (λ _ fs, fs = fs0)).
    { unfold waitIdentityGone. eapply htriple_weaken; [apply (bind_keeps _ _ fs0); [apply now_keeps|intros t; apply pollGone_keeps]|done|].
      by intros [] fs ->. }
    intros [|]; cbn [negb].
    + apply htriple_ret. intros fs ->. split; [done|]. by intros [-> _]%keepFirst_None.
    + eapply (htriple_bind _ _ (λ _ fs, fs = fs0)).
      { apply htriple_try. eapply htriple_weaken; [apply (signalIdentity_keeps _ fs0)|done|]. auto. }
      intros r'. apply htriple_ret. intros fs ->. split; [done|].
      by intros [[-> _]%keepFirst_None _]%keepFirst_None.
Qed.

Lemma terminate_spec authority keep fs0 :
  htriple (λ fs, fs = fs0)
    (records ← listMatching H authority keep;
     first ← terminateLoop H procRead procLink selfPid control None records;
     match first with Some e => hfail e | None => mret () end)
    (λ r fs, r = Ok () → ∃ l, listed (Root authority) keep (listing (Root authority) fs0) fs0 l ∧
                               shrunk fs0 fs ∧ ∀ f, f ∈ l → terminated f fs).
Proof using Hhonest.
  eapply (htriple_bind _ _ (λ l fs, fs = fs0 ∧ listed (Root authority) keep (listing (Root authority) fs0) fs0 l)).
  { eapply htriple_weaken; [apply (listMatching_spec authority keep fs0)|done|].
    intros [l|e] fs [-> Hl]; [auto|done]. }
  intros l. eapply (htriple_bind _ _ (λ first fs, listed (Root authority) keep (listing (Root authority) fs0) fs0 l ∧
    shrunk fs0 fs ∧ (first = None → ∀ f, f ∈ l → terminated f fs))).
  { intros w [Hw Hl]. destruct (terminateLoop_spec l None fs0 w Hw) as [Hs Hok].
    destruct (terminateLoop _ _ _ _ _ _ _ w) as [[first|e] w']; [|by intros [=]].
    split_and!; [done|exact Hs|]. intros ->. by apply Hok. }
  intros [e|]; [apply htriple_fail; done|]. apply htriple_ret. intros fs (Hl & Hs & Ht) _. eauto.
Qed.

End gone.

Lemma VerifyGone_spec {CR : Crypto} H procRead procLink selfPid groupAccess authority
    clientID generation digest fs0 :
  honest H → clean_root (Root authority) →
  htriple (λ fs, fs = fs0) (VerifyGone H procRead procLink selfPid groupAccess authority clientID generation digest)
    (λ r fs, r = Ok () → no_session (Root authority) clientID generation digest fs).
Proof.
  intros Hh Hroot. apply locked_rule; [|by intros e fs [=]]. intros fs1 _. by apply verify_no_session.
Qed.


(** ** Dropping a key's connections *)

Lemma decode_rune_small c b : (Utf8.decode_rune (c :: b)).1 < 128 → zb c < 128.
Proof.
  unfold Utf8.decode_rune, Utf8.rune_error, Utf8.is_cont. destruct (zb c <? 128) eqn:E; zbool; [done|].
  repeat case_match; cbn [fst]; zbool; try lia.
Qed.

Lemma runes_small b : Forall (λ x : Z * bytes, x.1 < 128) (Utf8.runes b) → Forall (λ c, zb c < 128) b.
Proof.
  unfold Utf8.runes. assert (∀ n b, length b = n → Forall (λ x : Z * bytes, x.1 < 128) (Utf8.runes_fuel n b) →
    Forall (λ c, zb c < 128) b) as Hgen; [|by apply Hgen].
  clear b. induction n as [|n IH]; intros [|c b] Hl Hf; [by constructor|done|done|]. injection Hl as Hl.
  cbn [Utf8.runes_fuel] in Hf. destruct (Utf8.decode_rune (c :: b)) as [r w] eqn:Hd.
  apply List.Forall_cons_iff in Hf as [Hr Hf]. cbn in Hr.
  assert (zb c < 128) as Hc by (apply (decode_rune_small c b); by rewrite Hd).
  unfold Utf8.decode_rune in Hd. rewrite (proj2 (Z.ltb_lt _ _) Hc) in Hd. injection Hd as <- <-.
  constructor; [done|]. by apply IH.
Qed.

Lemma isLowerHex_ascii s : isLowerHex s = true → s ≠ ""%string ∧ ascii s.
Proof.
  unfold isLowerHex, eqs. intros [Hn Hf]%andb_true_iff. split; [by apply negb_true_iff, bool_decide_eq_false in Hn|].
  apply runes_small. rewrite forallb_forall in Hf. apply List.Forall_forall. intros x Hx.
  specialize (Hf x.1 ltac:(apply in_map; exact Hx)). unfold in_range in Hf. zbool; lia.
Qed.

(** A drop request is understood.  The request the authority sends for a
    64-digit key digest is accepted by the data plane, which closes exactly the
    tracked connections of that key and answers OK, and the authority reads
    that answer as success. *)
Theorem drop_request_served key table :
  String.length key = 64%nat → isLowerHex key = true →
  handleControl (dropRequest key) table = (EncodeOK, dropKey key table) ∧
  ('(v, _) ← parse EncodeOK; decode false responseFields v zeroResponse) = Ok (mkResponse true "").
Proof.
  intros Hlen Hhex. split; [|vm_compute; reflexivity].
  destruct (isLowerHex_ascii key Hhex) as [Hne Ha].
  unfold handleControl, dropRequest, requestJSON. cbn [Version Action KeySHA256 Connection].
  unfold ClientStore.omitempty at 1. rewrite bool_decide_eq_false_2 by done.
  change (ClientStore.omitempty "connection_id" "") with (@nil (string * json)). cbn [app].
  rewrite parse_print; [|apply wf_obj; [done|]; repeat constructor; try done; try (by apply ascii_forallb); by apply wf_JInt|done].
  cbn [mbind result_bind].
  assert (decode false requestFields (JObj [("version", JInt ProtocolVersion); ("action", JStr ActionDrop);
    ("key_sha256", JStr key)]%string) zeroRequest = Ok (mkRequest ProtocolVersion ActionDrop key "")) as ->
    by reflexivity.
  unfold ValidateRequest. cbn [Version Action KeySHA256 Connection]. rewrite Hlen, Hhex. reflexivity.
Qed.

(** What a successful [Terminate] has done about the sessions of a grant: every
    session file was readable, and for each that belongs to the grant and to
    the data plane, the data plane acknowledged a request to drop its key and
    the file is gone. *)
Definition sessions_dropped (control : nat → bytes → result bytes) (root clientID generation digest : string)
    (before after : gmap string bytes) : Prop :=
  ∀ name, name ∈ listing root before → json_name name →
    ∃ rec, holds root name before rec ∧
      (matchGrantSessions clientID generation digest rec = true → isDataPlaneExe (Exe rec) = true →
       acknowledged control (KeyBlobSHA256 rec) ∧ after !! Filepath.Join root name = None).

(** A termination that reports success dropped every data-plane session
    of the grant.  [mid] is the file system once the lock is held. *)
Theorem terminate_sound {CR : Crypto} H procRead procLink selfPid control groupAccess authority
    clientID generation digest w :
  honest H →
  let '(r, w') := Terminate H procRead procLink selfPid control groupAccess authority clientID generation digest w in
  r = Ok () → ∃ mid, (∀ p, is_Some (files w !! p) → mid !! p = files w !! p) ∧
    sessions_dropped control (Root authority) clientID generation digest mid (files w').
Proof.
  intros Hh. set (Q := λ (r : result ()) fs, r = Ok () → ∃ mid, extended (files w) mid ∧
    sessions_dropped control (Root authority) clientID generation digest mid fs).
  assert (htriple (λ fs, fs = files w)
    (Terminate H procRead procLink selfPid control groupAccess authority clientID generation digest) Q) as Ht.
  { apply locked_rule; [|by intros e fs [=]]. intros mid Hmid.
    eapply htriple_weaken; [apply (terminate_spec H procRead procLink selfPid control Hh authority _ mid)|done|].
    intros r fs Hr Hok. destruct (Hr Hok) as (l & [H1 _] & Hs & Hterm). exists mid. split; [done|].
    intros name Hin Hj. destruct (H1 name Hin Hj) as (rec & Hh' & Hkeep). exists rec. split; [done|].
    intros Hm Hexe. destruct (Hterm _ (Hkeep Hm) Hexe) as [Hgone Hack]. done. }
  specialize (Ht w eq_refl). unfold Q in Ht.
  by destruct (Terminate _ _ _ _ _ _ _ _ _ _ w).
Qed.
