(* ===== verification/Reconcile.v ===== *)
(** * internal/command/enroll_server.go: the host at work

    How the host command puts the components together: the production paths,
    the operations an expiry uses, the reconciliation of interrupted and due
    grants, the rebuilding of the authorized-keys file from the client
    records, the fail-close on a clock that went back, one tick of the
    reconcile loop and the start-up sequence, and the bodies of the revoke and
    rotate requests. *)

From S2P Require Import Prelude GoStd Json StrictJson Time Host Locator Grant SshWire Crypto Packet Kex Listen.
From S2P Require Import ClientStore Server Clients AuthorizedKeys GrantSession.
Import Time Json Netip Locator Server ClientStore Clients AuthorizedKeys.

Module Reconcile.

(** ** installlayout *)

Definition OpenSSHPrefix : string := "/opt/warptweet/libexec/openssh".
Definition SSHDSessionPath : string := OpenSSHPrefix ++ "/libexec/sshd-session".
Definition ServerManifestPath : string := "/etc/warptweet/server.wt".
Definition ClientsDirectory : string := "/var/lib/warptweet/clients".
Definition HostClockObservationPath : string := "/var/lib/warptweet/clock-observation.json".
Definition GrantSessionsDirectory : string := "/var/lib/warptweet/sessions".
Definition GrantAuthorityLockPath : string := "/var/lib/warptweet/sessions/grant.lock".
Definition HostClockBlockedPath : string := "/var/lib/warptweet/blocked-clock.json".

Definition productionGrantAuthority : GrantSession.Authority :=
  GrantSession.mkAuthority GrantSessionsDirectory ClientsDirectory GrantAuthorityLockPath SSHDSessionPath.

(** ** Pure parts *)

Definition grantTarget (record : ClientRecord) : result AddrPort :=
  match ParseAddr (TargetAddress record) with
  | Err e => Err (EMsg ("grant target address: " ++ errText e))
  | Ok addr => if TargetPort record =? 0 then Err (EMsg "grant target port is missing")
               else Ok (AddrPortFrom addr (TargetPort record))
  end.

(** [t.Sub(u)] saturates. *)
Definition Sub (t u : Time) : Duration := Z.max (- 2 ^ 63) (Z.min (2 ^ 63 - 1) (t - u)).

(** The statuses a reconciliation may have to expire. *)
Definition expirable (status : string) : bool :=
  eqs status ClientStatusActive || eqs status ClientStatusExpirationPending || eqs status ClientStatusRotationPending.

Fixpoint reconcileDelay (now : Time) (records : list ClientRecord) (delay : Duration) : Duration :=
  match records with
  | [] => if delay <? Second then Second else delay
  | record :: rest =>
      if negb (expirable (Status record)) then reconcileDelay now rest delay
      else if eqs (AuthorizationNotAfter record) "" then reconcileDelay now rest delay
      else match Grant.ParseUTC (AuthorizationNotAfter record) with
      | Err _ => Second
      | Ok notAfter =>
          if negb (After notAfter now) then Second
          else
            let remaining := Sub notAfter now in
            reconcileDelay now rest (if remaining <? delay then remaining else delay)
      end
  end.
(** [None] is the nil slice of a listing that failed. *)
Definition nextGrantReconcileDelay (now : Time) (records : option (list ClientRecord)) : Duration :=
  match records with
  | None => Minute
  | Some records => reconcileDelay now records Minute
  end.

Definition managementFields : list (field ManagementRequest) :=
  [("client_id", string_field (λ v q, mkManagementRequest v (ManagementToken q) (q_TunnelID q) (NewPublicKey q) (NextManagementToken q)));
   ("management_token", string_field (λ v q, mkManagementRequest (q_ClientID q) v (q_TunnelID q) (NewPublicKey q) (NextManagementToken q)));
   ("tunnel_id", string_field (λ v q, mkManagementRequest (q_ClientID q) (ManagementToken q) v (NewPublicKey q) (NextManagementToken q)));
   ("new_public_key", string_field (λ v q, mkManagementRequest (q_ClientID q) (ManagementToken q) (q_TunnelID q) v (NextManagementToken q)));
   ("next_management_token", string_field (λ v q, mkManagementRequest (q_ClientID q) (ManagementToken q) (q_TunnelID q) (NewPublicKey q) v))]%string.
Definition zeroManagement : ManagementRequest := mkManagementRequest "" "" "" "" "".

Section reconcile.
Context {CR : Crypto}.
Context (H : hostEnv) (rnd : nat → nat → bytes) (procRead : nat → string → result bytes)
  (procLink : nat → string → result string) (selfPid : Z) (control : nat → bytes → result bytes)
  (groupAccess : nat → bool).

Definition terminate (clientID generation publicKeySHA256 : string) : HM () :=
  GrantSession.Terminate H procRead procLink selfPid control groupAccess productionGrantAuthority
    clientID generation publicKeySHA256.
Definition verifyGone (clientID generation publicKeySHA256 : string) : HM () :=
  GrantSession.VerifyGone H procRead procLink selfPid groupAccess productionGrantAuthority
    clientID generation publicKeySHA256.
Definition terminateAll : HM () :=
  GrantSession.TerminateAll H procRead procLink selfPid control groupAccess productionGrantAuthority.

Definition productionEnforcement : SessionEnforcement := mkEnforcement (Some terminate) (Some verifyGone).
Definition removeKey (manifest : Config) (publicKey : string) : HM () :=
  removeAuthorizedKeyForPublicKey H (AuthorizedKeysPath manifest) publicKey.

(** ** Expiry and pending revocations *)

Definition burnToken : HM string :=
  token ← GenerateManagementToken H rnd; mret (HashManagementToken token).

Definition grantExpireOps (manifest : Config) (record : ClientRecord) : Grant.ExpireOps world :=
  Grant.mkExpireOps
    (Some (removeKey manifest))
    (Some (verifyAuthorizedKeyAbsent H (AuthorizedKeysPath manifest)))
    (Some terminate)
    (Some verifyGone)
    (Some burnToken).

Definition reconcileExpiredGrants (manifest : Config) (now : Time) : HM () :=
  ReconcilePendingRevocations H rnd ClientsDirectory now (Some (removeKey manifest)) productionEnforcement;;
  ReconcileExpiredClients H ClientsDirectory now (grantExpireOps manifest).

(** ** The authorized-keys file from the records *)

(** The lines of the records, with the keys seen before; the clock is read for
    each record. *)
Fixpoint authorizedEntries (manifest : Config) (records : list ClientRecord) (seen : list string)
    : HM (list string) :=
  match records with
  | [] => mret []
  | record :: rest =>
      let failed e := hfail (EMsg ("client " ++ ClientID record ++ ": " ++ errText e)) in
      if eqs (Status record) ClientStatusActive || eqs (Status record) ClientStatusRotationPending then
        if eqs (AuthorizationNotAfter record) "" then authorizedEntries manifest rest seen
        else match Grant.ParseUTC (AuthorizationNotAfter record) with
        | Err e => failed e
        | Ok notAfter =>
            now ← Host.now H;
            if Grant.ReadyToExpire notAfter now then authorizedEntries manifest rest seen
            else match grantTarget record with
            | Err e => failed e
            | Ok target =>
                let manifestTarget := AddrPortFrom (e_Address (Target manifest)) (e_Port (Target manifest) mod 2 ^ 16) in
                if negb (bool_decide (target = manifestTarget))
                then hfail (EMsg ("client " ++ ClientID record ++ " grant target " ++ addrport_string target
                                  ++ " does not match host target " ++ addrport_string manifestTarget))
                else match RenderAuthorizedKeyForTarget manifest (to_bytes (PublicKey record)) target notAfter with
                | Err e => failed e
                | Ok line =>
                    let entry := trimNewlines line in
                    let blob := authorizedKeyBlob entry in
                    if bool_decide (blob ∈ seen) then authorizedEntries manifest rest seen
                    else lines ← authorizedEntries manifest rest (blob :: seen); mret (entry :: lines)
                end
            end
        end
      else if eqs (Status record) ClientStatusEnrollmentPending || eqs (Status record) ClientStatusExpirationPending
              || eqs (Status record) ClientStatusExpired || eqs (Status record) ClientStatusRevocationPending
              || eqs (Status record) ClientStatusRevoked
      then authorizedEntries manifest rest seen
      else hfail (EMsg ("client " ++ ClientID record ++ " has unsupported status " ++ Status record))
  end.

Definition reconcileManagedAuthorizations (manifest : Config) : HM () :=
  withAuthorizedKeysLock H (AuthorizedKeysPath manifest)
    (records ← ListClients H ClientsDirectory;
     lines ← authorizedEntries manifest records [];
     writeAuthorizedKeyLines H (AuthorizedKeysPath manifest) lines).

(** ** A clock that went back *)

(** The marker first, then the keys, then the sessions. *)
Definition closeHost (manifest : Config) (reason : error) : HM () :=
  now ← Host.now H;
  Grant.WriteBlockedClock H HostClockBlockedPath (errText reason) now;;
  withAuthorizedKeysLock H (AuthorizedKeysPath manifest)
    (writeAuthorizedKeyLines H (AuthorizedKeysPath manifest) []);;
  terminateAll.

Definition enterBlockedClock (manifest : Config) (reason : error) : HM () :=
  closeHost manifest reason;;
  found ← htry (sys H);                          (* LookPath *)
  match found with
  | Ok _ => htry (sys H);; mret ()               (* systemctl stop *)
  | Err _ => mret ()
  end;;
  hfail (EMsg ("host clock blocked: " ++ errText reason)).

(** ** The loop and the start *)

(** One tick of [reconcileGrantsUntil]. *)
Definition reconcileTick (manifest : Config) : HM () :=
  now ← Host.now H;
  observed ← htry (Grant.ObserveClock H HostClockObservationPath now);
  match observed with
  | Err e => htry (enterBlockedClock manifest e);; mret ()
  | Ok _ =>
      listed ← htry (ListClients H ClientsDirectory);
      let records := match listed with Ok records => Some records | Err _ => None end in
      if Second <? nextGrantReconcileDelay now records then mret ()
      else
        htry (reconcileExpiredGrants manifest now);;
        htry (reconcileManagedAuthorizations manifest);;
        mret ()
  end.

(** What [runServerEnrollListen] and [runServerMgmtListen] do before they
    listen. *)
Definition startHost : HM Config :=
  manifest ← Load H ServerManifestPath;
  now ← Host.now H;
  blocked ← Grant.ClockIsBlocked H HostClockBlockedPath;
  if (blocked : bool) then hfail (EMsg "host clock: blocked until warptweet server clock-recover")
  else
    observed ← htry (Grant.ObserveClock H HostClockObservationPath now);
    match observed with
    | Err e => enterBlockedClock manifest e;; hfail (EMsg ("host clock: " ++ errText e))
    | Ok _ =>
        expired ← htry (reconcileExpiredGrants manifest now);
        match expired with
        | Err e => hfail (EMsg ("reconcile expired grants: " ++ errText e))
        | Ok _ =>
            keys ← htry (reconcileManagedAuthorizations manifest);
            match keys with
            | Err e => hfail (EMsg ("reconcile managed authorizations: " ++ errText e))
            | Ok _ => mret manifest
            end
        end
    end.

(** ** Requests *)

(** The body of /v1/revoke; the sessions are ended by [afterRevoke] once the
    response is out. *)
Definition revokeRequest (manifest : Config) (body : bytes) : HM ClientRecord :=
  manage ← hlift (unmarshal managementFields zeroManagement body);
  now ← Host.now H;
  RevokeClient H rnd ClientsDirectory manage now (Some (removeKey manifest)) (mkEnforcement None None).
Definition afterRevoke (revoked : ClientRecord) : HM () :=
  if eqs (ClientID revoked) "" then mret ()
  else htry (terminate (ClientID revoked) "" "");; htry (verifyGone (ClientID revoked) "" "");; mret ().

(** The body of /v1/rotate and what follows it. *)
Definition rotateRequest (manifest : Config) (body : bytes) : HM ClientRecord :=
  manage ← hlift (unmarshal managementFields zeroManagement body);
  if eqs (NewPublicKey manage) "" then invalid "new_public_key is required"
  else
    existing ← LoadClient H ClientsDirectory (q_ClientID manage);
    match Grant.ParseUTC (AuthorizationNotAfter existing) with
    | Err e => invalid (errText e)
    | Ok notAfter =>
        match RenderAuthorizedKey manifest (to_bytes (NewPublicKey manage)) notAfter with
        | Err e => invalid (errText e)
        | Ok line =>
            now ← Host.now H;
            RotateClientPublicKey H ClientsDirectory manage (NewPublicKey manage) now
              (Some (λ oldPublicKey _, replaceAuthorizedKeyForPublicKey H (AuthorizedKeysPath manifest) oldPublicKey line))
        end
    end.
Definition afterRotate (rotated : ClientRecord) : HM () :=
  htry (EvictPreviousKeySessions rotated productionEnforcement);; mret ().

(** The number of session records on disk. *)
Definition liveDataPlaneSessionCount : HM Z :=
  r ← htry (ReadDir H GrantSessionsDirectory);
  match r with
  | Err e => if IsNotExist e then mret 0 else hfail e
  | Ok names => mret (Z.of_nat (length (filter (λ name, Strings.has_suffix name ".json" = true) names)))
  end.

End reconcile.
End Reconcile.
