(* ===== verification/Frame.v ===== *)
(** * Which files a program may change

    [within D m]: whatever fails, [m] changes no file outside the area [D].
    The areas of the components (a client's record, the authorized-keys file,
    the session directory) are pairwise disjoint under the installed layout,
    so an operation of one component leaves the others' files as they are. *)

From stdpp Require Import sorting.
From S2P Require Import Prelude GoStd Json StrictJson Time Host Locator Grant GrantProps SshWire Crypto Packet.
From S2P Require Import Kex Listen ClientStore ClientCodec Clients ClientProps AuthorizedKeys GrantSession SessionProps.
Import Time Json Clients GrantSession.

(** [moves R m]: whatever fails, the files after [m] are related by [R] to the
    files before it. *)
Definition moves {A} (R : relation (gmap string bytes)) (m : HM A) : Prop :=
  ∀ w, R (files w) (files (m w).2).

(** The files outside [D] are the same. *)
Definition outside (D : string → Prop) : relation (gmap string bytes) :=
  λ fs fs', ∀ p, ¬ D p → fs' !! p = fs !! p.
#[export] Instance outside_preorder D : PreOrder (outside D).
Proof. split; [done|]. intros a b c Hab Hbc p Hp. by rewrite Hbc, Hab. Qed.
Abbreviation within D := (moves (outside D)).

(** A value [m] can return. *)
Definition produces {A} (m : HM A) (a : A) : Prop := ∃ w w', m w = (Ok a, w').

(** ** Rules *)

Section rules.
Context (H : hostEnv) (R : relation (gmap string bytes)) `{!PreOrder R}.

Lemma moves_ret {A} (a : A) : moves R (mret a).
Proof. by intros w. Qed.
Lemma moves_fail {A} e : moves R (hfail e : HM A).
Proof. by intros w. Qed.
Lemma moves_lift {A} (r : result A) : moves R (hlift r).
Proof. by intros w. Qed.
Lemma moves_call : moves R call.
Proof. by intros w. Qed.
Lemma moves_now : moves R (Host.now H).
Proof. by intros w. Qed.
Lemma moves_get : moves R get_files.
Proof. by intros w. Qed.

Lemma moves_bind_produced {A B} (m : HM A) (f : A → HM B) :
  moves R m → (∀ a, produces m a → moves R (f a)) → moves R (m ≫= f).
Proof.
  intros Hm Hf w. unfold mbind, HM_bind. specialize (Hm w). destruct (m w) as [[a|e] w'] eqn:Hw; [|done].
  etrans; [exact Hm|]. apply (Hf a). by exists w, w'.
Qed.
Lemma moves_bind {A B} (m : HM A) (f : A → HM B) :
  moves R m → (∀ a, moves R (f a)) → moves R (m ≫= f).
Proof. intros Hm Hf. apply moves_bind_produced; auto. Qed.

Lemma moves_try {A} (m : HM A) : moves R m → moves R (htry m).
Proof. intros Hm w. unfold htry. specialize (Hm w). by destruct (m w). Qed.
Lemma moves_deferred {A} cleanup (m : HM A) : moves R cleanup → moves R m → moves R (deferred cleanup m).
Proof.
  intros Hc Hm w. unfold deferred. specialize (Hm w). destruct (m w) as [r w'].
  etrans; [exact Hm|apply Hc].
Qed.

Lemma moves_sys : moves R (sys H).
Proof. intros w. unfold sys, call, mbind, HM_bind. by destruct (h_fault H (calls w)). Qed.

Lemma moves_set f : (∀ fs, R fs (f fs)) → moves R (set_files f).
Proof. intros Hf w. apply Hf. Qed.

End rules.

Create HintDb frame.
#[export] Hint Resolve moves_ret moves_fail moves_lift moves_call moves_now moves_get moves_bind
  moves_try moves_deferred moves_sys : frame.

(** Walk through a program; what is left are the primitive updates. *)
Ltac frame_step :=
  match goal with
  | |- moves _ (mbind _ _) => apply moves_bind; [apply _| |intros ?]
  | |- moves _ (if ?b then _ else _) => destruct b
  | |- moves _ (match ?x with _ => _ end) => destruct x
  | |- moves _ (let _ := _ in _) => cbv zeta
  | |- moves _ (htry _) => apply moves_try
  | |- moves _ (deferred _ _) => apply moves_deferred; [apply _| |]
  | |- moves _ _ => solve [auto with frame nocore typeclass_instances]
  end.
Ltac frame := repeat frame_step.

Section reads.
Context (H : hostEnv) (R : relation (gmap string bytes)) `{!PreOrder R}.

Lemma moves_ReadFile path : moves R (ReadFile H path).
Proof. unfold ReadFile. frame. Qed.
Lemma moves_ReadDir dir : moves R (ReadDir H dir).
Proof. unfold ReadDir. frame. Qed.
Lemma moves_Lstat path : moves R (Lstat H path).
Proof. unfold Lstat. frame. Qed.
Lemma moves_RandRead rnd n : moves R (RandRead H rnd n).
Proof. unfold RandRead. frame. Qed.
Lemma moves_keeps {A} (m : HM A) : (∀ fs, htriple (λ fs', fs' = fs) m (λ _ fs', fs' = fs)) → moves R m.
Proof. intros Hm w. by rewrite (Hm (files w) w eq_refl). Qed.

Lemma moves_invalid {A} text : moves R (invalid text : HM A).
Proof. by apply moves_fail. Qed.

Lemma moves_Remove path : (∀ fs, R fs (delete path fs)) → moves R (Remove H path).
Proof. intros Hd. unfold Remove. frame. by apply moves_set. Qed.
Lemma moves_OpenCreate path :
  (∀ fs, fs !! path = None → R fs (<[path := []]> fs)) → moves R (OpenCreate H path).
Proof.
  intros Hd. unfold OpenCreate. frame. apply moves_set. intros fs. destruct (fs !! path) eqn:Hl; [done|]. by apply Hd.
Qed.

Lemma moves_withLock {A} directory name label (body : HM A) :
  (∀ fs, fs !! Filepath.Join directory name = None → R fs (<[Filepath.Join directory name := []]> fs)) →
  moves R body → moves R (withLock H directory name label body).
Proof. intros Hd Hb. unfold withLock. frame; by apply moves_OpenCreate. Qed.
Lemma moves_locked {A} groupAccess authority (body : HM A) :
  (∀ fs, fs !! LockPath authority = None → R fs (<[LockPath authority := []]> fs)) →
  moves R body → moves R (locked H groupAccess authority body).
Proof. intros Hd Hb. unfold locked. frame; by apply moves_OpenCreate. Qed.

End reads.
#[export] Hint Resolve moves_ReadFile moves_ReadDir moves_Lstat moves_RandRead moves_invalid : frame.

(** A program that stays in an area every relation of interest allows. *)
Lemma within_moves {A} D (R : relation (gmap string bytes)) (m : HM A) :
  within D m → (∀ fs fs', outside D fs fs' → R fs fs') → moves R m.
Proof. intros Hm HR w. by apply HR, Hm. Qed.

(** ** Areas *)

Section calls.
Context (H : hostEnv) (D : string → Prop).

Lemma outside_delete fs p : D p → outside D fs (delete p fs).
Proof. intros Hd q Hq. apply lookup_delete_ne. by intros ->. Qed.
Lemma outside_insert fs p c : D p → outside D fs (<[p := c]> fs).
Proof. intros Hd q Hq. apply lookup_insert_ne. by intros ->. Qed.

Lemma within_Remove path : D path → within D (Remove H path).
Proof. intros Hd. apply moves_Remove; [apply _|]. intros fs. by apply outside_delete. Qed.
Lemma within_Write path contents : D path → within D (Write H path contents).
Proof. intros Hd. unfold Write. frame; apply moves_set; intros fs; by apply outside_insert. Qed.
Lemma within_Rename old new : D old → D new → within D (Rename H old new).
Proof.
  intros Ho Hn. unfold Rename. frame. apply moves_set. intros fs.
  etrans; [by apply (outside_delete fs old)|by apply outside_insert].
Qed.

Lemma produces_CreateTemp dir prefix name :
  produces (CreateTemp H dir prefix) name → ∃ n, name = (dir ++ "/" ++ prefix ++ h_temp H n)%string.
Proof.
  intros (w & w' & Hc). unfold CreateTemp, sys, call, get_files, set_files, mbind, HM_bind in Hc. cbn [files calls] in Hc.
  destruct (h_fault H (calls w)); [done|]. cbn [files calls mret HM_ret] in Hc.
  destruct (files w !! _); [done|]. cbn in Hc. injection Hc as <- _. eauto.
Qed.

Lemma within_replaceFile skipEmpty path prefix contents syncDir :
  D path → (∀ n, D (tempName H path prefix n)) → within D syncDir →
  within D (replaceFile H skipEmpty path prefix contents syncDir).
Proof.
  intros Hp Ht Hs. unfold replaceFile. apply moves_bind_produced; [apply _| |].
  - unfold CreateTemp. frame_step; [frame|]. apply moves_bind_produced; [apply _|auto with frame typeclass_instances|].
    intros n _. frame. apply moves_set. intros fs. by apply outside_insert, (Ht n).
  - intros name (n & ->)%produces_CreateTemp. specialize (Ht n). unfold tempName in Ht.
    frame; first [by apply within_Remove|by apply within_Write|by apply within_Rename|exact Hs].
Qed.

Lemma within_withLock {A} directory name label (body : HM A) :
  D (Filepath.Join directory name) → within D body → within D (withLock H directory name label body).
Proof. intros Hd. apply moves_withLock; [apply _|]. intros fs _. by apply outside_insert. Qed.

End calls.

Lemma within_weaken {A} (D D' : string → Prop) (m : HM A) : within D m → (∀ p, D p → D' p) → within D' m.
Proof. intros Hm Hd w p Hp. apply Hm. auto. Qed.

(** A file outside the area of a program keeps its contents. *)
Lemma within_keeps {A} D (m : HM A) p c :
  within D m → ¬ D p → htriple (λ fs, fs !! p = c) m (λ _ fs, fs !! p = c).
Proof. intros Hm Hp w Hw. by rewrite Hm. Qed.

Lemma within_quiet {A} D (m : HM A) directory clientID :
  within D m → ¬ D (clientPath directory clientID) → quiet directory clientID m.
Proof. intros Hm Hp w. by apply Hm. Qed.

(** ** The authorized-keys file *)

Definition keysArea (H : hostEnv) (path p : string) : Prop :=
  p = path ∨ p = Filepath.Join (Filepath.Dir path) ("." ++ AuthorizedKeys.base path ++ ".lock") ∨
  ∃ n, p = tempName H path ".wt-server-" n.

Section keys.
Context (H : hostEnv) (path : string).
Let D := keysArea H path.

Lemma within_writeLines lines : within D (AuthorizedKeys.writeAuthorizedKeyLines H path lines).
Proof.
  unfold AuthorizedKeys.writeAuthorizedKeyLines, AuthorizedKeys.writeFileAtomic. frame.
  apply within_replaceFile; [by left|intros n; right; right; eauto|frame].
Qed.
Lemma within_keysLock fn : within D fn → within D (AuthorizedKeys.withAuthorizedKeysLock H path fn).
Proof. intros Hf. apply within_withLock; [by right; left|done]. Qed.
Lemma moves_readLines R `{!PreOrder R} p : moves R (AuthorizedKeys.readAuthorizedKeyLines H p).
Proof. unfold AuthorizedKeys.readAuthorizedKeyLines. frame. Qed.

Lemma within_removeKey key : within D (AuthorizedKeys.removeAuthorizedKeyForPublicKey H path key).
Proof.
  apply within_keysLock. frame; first [apply moves_readLines; apply _|apply within_writeLines].
Qed.
Lemma moves_verifyKey R `{!PreOrder R} p key : moves R (AuthorizedKeys.verifyAuthorizedKeyAbsent H p key).
Proof. unfold AuthorizedKeys.verifyAuthorizedKeyAbsent. frame. by apply moves_readLines. Qed.

End keys.

(** ** Sessions *)

Definition sessionArea (authority : Authority) (p : string) : Prop :=
  p = LockPath authority ∨
  ∃ name, plain_name name ∧ json_name name ∧ p = Filepath.Join (Root authority) name.

Section sessions.
Context {CR : Crypto} (H : hostEnv) (procRead : nat → string → result bytes)
  (procLink : nat → string → result string) (selfPid : Z) (control : nat → bytes → result bytes)
  (groupAccess : nat → bool) (authority : Authority).
Let D := sessionArea authority.
Let file_ok (f : found) : Prop := D (recordFile f).

(** A relation that allows what the authority does to its files: removing them
    and creating the lock file. *)
Context (R : relation (gmap string bytes)) `{!PreOrder R}.
Hypothesis Hdelete : ∀ fs p, D p → R fs (delete p fs).
Hypothesis Hlock : ∀ fs, fs !! LockPath authority = None → R fs (<[LockPath authority := []]> fs).

Lemma moves_readRecord p : moves R (readRecord H p).
Proof using PreOrder0. unfold readRecord. frame. Qed.
Lemma moves_readAll root keep names : moves R (readAll H root keep names).
Proof using PreOrder0. induction names; cbn [readAll]; frame; apply moves_readRecord. Qed.
Lemma moves_listMatching keep : moves R (listMatching H authority keep).
Proof using PreOrder0. unfold listMatching. frame. apply moves_readAll. Qed.

Lemma produces_bind {A B} (m : HM A) (f : A → HM B) b :
  produces (m ≫= f) b → ∃ a w w', m w = (Ok a, w') ∧ produces (f a) b.
Proof.
  intros (w & w' & Hw). unfold mbind, HM_bind in Hw. destruct (m w) as [[a|e] w1] eqn:Hm; [|done].
  exists a, w, w1. split; [done|]. by exists w1, w'.
Qed.

Lemma produces_readAll keep names l :
  (∀ name, name ∈ names → json_name name → plain_name name) →
  produces (readAll H (Root authority) keep names) l → Forall file_ok l.
Proof.
  revert l. induction names as [|name names IH]; intros l Hn; cbn [readAll].
  { intros (? & ? & [= <- _]). constructor. }
  assert (∀ n, n ∈ names → json_name n → plain_name n) as Hn' by (intros n Hin; apply Hn; by right).
  destruct (Strings.has_suffix name ".json") eqn:Hj; cbn [negb]; [|by apply IH].
  intros (rec & _ & _ & _ & Hp)%produces_bind. apply produces_bind in Hp as (rest & w1 & w2 & Hr & Hp).
  assert (Forall file_ok rest) as Hrest by (apply IH; [done|by exists w1, w2]).
  destruct Hp as (w3 & w4 & [= <- _]). destruct (keep rec); [|done].
  constructor; [|done]. right. exists name. split_and!; [apply Hn; [by left|done]|done|done].
Qed.

Lemma produces_listMatching keep l : produces (listMatching H authority keep) l → Forall file_ok l.
Proof.
  intros (r & w & w' & Hd & Hp)%produces_bind. unfold htry in Hd.
  destruct (ReadDir H (Root authority) w) as [x w1] eqn:Hrd. injection Hd as <- <-.
  destruct x as [names|e].
  - eapply produces_readAll; [|exact Hp]. intros name Hin Hj.
    unfold ReadDir, sys, call, get_files, mbind, HM_bind in Hrd. cbn [files calls] in Hrd.
    destruct (h_fault H (calls w)); [done|]. injection Hrd as <- _.
    apply listing_iff in Hin as (_ & Hne & Hs). by apply json_plain.
  - destruct (IsNotExist e); [|by destruct Hp as (? & ? & [=])]. destruct Hp as (? & ? & [= <- _]). constructor.
Qed.

Lemma moves_removeIfPresent p : D p → moves R (removeIfPresent H p).
Proof using Hdelete PreOrder0.
  intros Hp. unfold removeIfPresent. frame; apply moves_Remove; auto.
Qed.

Lemma moves_alive i : moves R (identityAlive H procRead procLink selfPid i).
Proof using PreOrder0. apply moves_keeps; [done|]. intros fs. apply identityAlive_keeps. Qed.
Lemma moves_signal i : moves R (signalIdentity H procRead procLink selfPid i).
Proof using PreOrder0. apply moves_keeps; [done|]. intros fs. apply signalIdentity_keeps. Qed.
Lemma moves_poll fuel until i : moves R (pollGone H procRead procLink selfPid fuel until i).
Proof using PreOrder0. apply moves_keeps; [done|]. intros fs. apply pollGone_keeps. Qed.
Lemma moves_drop key : moves R (dropDataPlaneSessions H control key).
Proof using PreOrder0. unfold dropDataPlaneSessions. frame. Qed.

Lemma moves_terminateLoop l : ∀ first,
  Forall file_ok l → moves R (terminateLoop H procRead procLink selfPid control first l).
Proof using Hdelete PreOrder0.
  induction l as [|f l IH]; intros first Hl; cbn [terminateLoop]; [frame|].
  apply List.Forall_cons_iff in Hl as [Hf Hl]. apply moves_bind; [done| |intros ?; by apply IH].
  frame; try apply moves_drop; try apply moves_signal; try by apply moves_removeIfPresent.
  unfold waitIdentityGone. frame. apply moves_poll.
Qed.
Lemma moves_terminateMatching keep :
  moves R (terminateMatching H procRead procLink selfPid control groupAccess authority keep).
Proof using Hdelete Hlock PreOrder0.
  apply moves_locked; [done|done|]. apply moves_bind_produced; [done|apply moves_listMatching|].
  intros l Hl%produces_listMatching. frame. by apply moves_terminateLoop.
Qed.
Lemma moves_Terminate clientID generation digest :
  moves R (Terminate H procRead procLink selfPid control groupAccess authority clientID generation digest).
Proof using Hdelete Hlock PreOrder0. apply moves_terminateMatching. Qed.

Lemma moves_verifyLoop clientID generation l :
  Forall file_ok l → moves R (verifyLoop H procRead procLink selfPid clientID generation l).
Proof using Hdelete PreOrder0.
  induction 1 as [|f l Hf _ IH]; cbn [verifyLoop]; frame.
  - apply moves_alive.
  - by apply moves_removeIfPresent.
Qed.
Lemma moves_VerifyGone clientID generation digest :
  moves R (VerifyGone H procRead procLink selfPid groupAccess authority clientID generation digest).
Proof using Hdelete Hlock PreOrder0.
  apply moves_locked; [done|done|]. apply moves_bind_produced; [done|apply moves_listMatching|].
  intros l Hl%produces_listMatching. by apply moves_verifyLoop.
Qed.

End sessions.

Section session_area.
Context {CR : Crypto} (H : hostEnv) (procRead : nat → string → result bytes)
  (procLink : nat → string → result string) (selfPid : Z) (control : nat → bytes → result bytes)
  (groupAccess : nat → bool) (authority : Authority).

Lemma within_Terminate clientID generation digest :
  within (sessionArea authority)
    (Terminate H procRead procLink selfPid control groupAccess authority clientID generation digest).
Proof.
  apply moves_Terminate; [apply _|intros fs p; apply outside_delete|]. intros fs _. apply outside_insert. by left.
Qed.
Lemma within_VerifyGone clientID generation digest :
  within (sessionArea authority)
    (VerifyGone H procRead procLink selfPid groupAccess authority clientID generation digest).
Proof.
  apply moves_VerifyGone; [apply _|intros fs p; apply outside_delete|]. intros fs _. apply outside_insert. by left.
Qed.

End session_area.
