(* ===== verification/Layout.v ===== *)
(** * The installed layout

    Where the components keep their files, and that no two of them share one:
    the client records, the authorized-keys file and the session records live
    in separate directories, and the files of two clients differ. *)

From S2P Require Import Prelude GoStd Json StrictJson Time Host Locator Grant GrantProps SshWire Crypto Packet.
From S2P Require Import Kex Listen ClientStore ClientCodec Server Clients ClientProps AuthorizedKeys GrantSession.
From S2P Require Import ServerProps SessionProps Reconcile Frame.
Import Time Json Locator Server Clients GrantSession Reconcile.

(** ** Names *)

Lemma after_slash_plain b r : bz 47 ∉ b → Filepath.after_slash (b ++ bz 47 :: r) = bz 47 :: r.
Proof.
  induction b as [|x b IH]; intros Hb; [done|]. apply not_elem_of_cons in Hb as [Hx Hb]. cbn.
  destruct (zb x =? 47) eqn:E; [|by apply IH]. zbool. destruct Hx. by rewrite <- E, bz_zb.
Qed.

Lemma Dir_file dir name :
  clean_root dir → bz 47 ∉ to_bytes name → Filepath.Dir (dir ++ "/" ++ name) = dir.
Proof.
  intros (Hp & Hc & Hne) Hs. unfold Filepath.Dir. rewrite !to_bytes_append, reverse_app, reverse_app, <- app_assoc.
  change (reverse (to_bytes "/") ++ reverse (to_bytes dir)) with (bz 47 :: reverse (to_bytes dir)).
  rewrite after_slash_plain by (intros Hin; apply Hs; by rewrite <- elem_of_reverse).
  rewrite reverse_cons, reverse_involutive. rewrite <- Hc at 2. unfold Filepath.Clean.
  assert (Strings.has_prefix (to_string (to_bytes dir ++ [bz 47])) "/" = true) as ->.
  { unfold Strings.has_prefix in *. apply bool_decide_eq_true in Hp. apply bool_decide_eq_true.
    rewrite to_bytes_string. cbn [String.length] in *. destruct (to_bytes dir); [done|]. exact Hp. }
  rewrite Hp, to_bytes_string, split_bytes_app, foldl_app. done.
Qed.

Lemma base_file dir name : bz 47 ∉ to_bytes name → AuthorizedKeys.base (dir ++ "/" ++ name) = name.
Proof.
  intros Hs. unfold AuthorizedKeys.base, Strings.split. rewrite !to_bytes_append.
  change (to_bytes "/" ++ to_bytes name) with (bz 47 :: to_bytes name).
  rewrite split_bytes_app, (split_bytes_plain (to_bytes name)), fmap_app by done. cbn [fmap list_fmap].
  by rewrite List.last_last, to_string_bytes.
Qed.

(** A hexadecimal identifier is a plain file name. *)
Definition hex_char (c : byte) : Prop := 48 ≤ zb c ≤ 57 ∨ 97 ≤ zb c ≤ 102 ∨ 65 ≤ zb c ≤ 70.

Lemma runes_fuel_ascii f b :
  Forall (λ x : Z * bytes, x.1 < 128) (Utf8.runes_fuel f b) → (length b ≤ f)%nat →
  (Utf8.runes_fuel f b).*1 = zb <$> b.
Proof.
  revert b. induction f as [|f IH]; intros b Hf Hl; [by destruct b; [|cbn in Hl; lia]|].
  destruct b as [|c b]; [done|]. cbn [Utf8.runes_fuel] in *.
  destruct (Utf8.decode_rune (c :: b)) as [r n] eqn:Hd. apply List.Forall_cons_iff in Hf as [Hr Hf]. cbn [fst] in Hr.
  pose proof (decode_rune_small c b) as Hs. rewrite Hd in Hs. specialize (Hs Hr).
  unfold Utf8.decode_rune in Hd. rewrite (proj2 (Z.ltb_lt _ _) Hs) in Hd. injection Hd as <- <-.
  cbn [fmap list_fmap fst drop] in *. rewrite drop_0 in *. f_equal. apply IH; [done|cbn in Hl; lia].
Qed.

Lemma hexID_chars id : isHexID id = true → id ≠ ""%string ∧ Forall hex_char (to_bytes id).
Proof.
  unfold isHexID, eqs. intros [Hne Hall]%andb_true_iff. apply negb_true_iff, orb_false_iff in Hne as [Hne%bool_decide_eq_false _].
  split; [done|]. rewrite forallb_forall in Hall. unfold Utf8.range in Hall.
  assert (∀ r, r ∈ (Utf8.runes (to_bytes id)).*1 → 48 ≤ r ≤ 57 ∨ 97 ≤ r ≤ 102 ∨ 65 ≤ r ≤ 70) as Hr.
  { intros r Hr%list_elem_of_In%Hall. unfold in_range in Hr. zbool; lia. }
  unfold Utf8.runes in Hr. rewrite runes_fuel_ascii in Hr; [|apply List.Forall_forall|done].
  - apply List.Forall_forall. intros c Hc. apply Hr. apply list_elem_of_fmap. exists c. split; [done|by apply list_elem_of_In].
  - intros x Hx. enough (48 ≤ x.1 ≤ 57 ∨ 97 ≤ x.1 ≤ 102 ∨ 65 ≤ x.1 ≤ 70) by lia. apply Hr.
    apply list_elem_of_fmap. exists x. split; [done|by apply list_elem_of_In].
Qed.

Lemma hexID_lacks id c : isHexID id = true → ¬ hex_char c → c ∉ to_bytes id.
Proof.
  intros [_ Hh]%hexID_chars Hc Hin. rewrite List.Forall_forall in Hh. apply Hc, Hh. by apply list_elem_of_In.
Qed.

Lemma hexID_no_slash id : isHexID id = true → bz 47 ∉ to_bytes id.
Proof. intros Hid. apply hexID_lacks; [done|]. unfold hex_char. change (zb (bz 47)) with 47. lia. Qed.

(** What follows a directory. *)
Lemma app_string_inv a b c : (a ++ b = a ++ c)%string → b = c.
Proof. intros E. apply to_bytes_inj. apply (f_equal to_bytes) in E. rewrite !to_bytes_append in E. by simplify_list_eq. Qed.

Lemma clientsDir_clean : clean_root ClientsDirectory.
Proof. split_and!; [vm_compute; reflexivity|vm_compute; reflexivity|discriminate]. Qed.
Lemma sessionsDir_clean : clean_root GrantSessionsDirectory.
Proof. split_and!; [vm_compute; reflexivity|vm_compute; reflexivity|discriminate]. Qed.
Lemma keysDir_clean : clean_root AuthorizedKeysDirectory.
Proof. split_and!; [vm_compute; reflexivity|vm_compute; reflexivity|discriminate]. Qed.

(** A name that ends in a given suffix is neither [.] nor [..]. *)
Lemma json_file_plain_suffix id : Strings.has_suffix (id ++ ".json") ".json" = true.
Proof.
  unfold Strings.has_suffix. rewrite <- !length_to_bytes, to_bytes_append, length_app. apply andb_true_iff.
  split; [apply Nat.leb_le; lia|]. apply bool_decide_eq_true. rewrite drop_app_length'; [done|]. cbn. lia.
Qed.
Lemma json_file_plain id : isHexID id = true → plain_name (id ++ ".json").
Proof.
  intros Hid. apply json_plain.
  - intros E. apply (f_equal to_bytes) in E. rewrite to_bytes_append in E. by apply app_eq_nil in E as [_ ?].
  - rewrite to_bytes_append. apply not_elem_of_app. split.
    + by apply hexID_no_slash.
    + by apply (bool_decide_unpack _).
  - apply json_file_plain_suffix.
Qed.

Lemma lock_file_plain name : bz 47 ∉ to_bytes name → plain_name ("." ++ name ++ ".lock").
Proof.
  intros Hs. split_and!; [done| | |].
  - rewrite !to_bytes_append. rewrite !not_elem_of_app. split_and!; [|done|]; by apply (bool_decide_unpack _).
  - intros E. apply (f_equal String.length) in E. rewrite <- !length_to_bytes, !to_bytes_append, !length_app in E. cbn in E. lia.
  - intros E. apply (f_equal String.length) in E. rewrite <- !length_to_bytes, !to_bytes_append, !length_app in E. cbn in E. lia.
Qed.

Lemma clientPath_eq id : isHexID id = true → clientPath ClientsDirectory id = (ClientsDirectory ++ "/" ++ id ++ ".json")%string.
Proof. intros Hid. unfold clientPath. apply Join_plain; [apply clientsDir_clean|by apply json_file_plain]. Qed.

(** ** Directories *)

Definition below (dir p : string) : Prop := ∃ rest, p = (dir ++ "/" ++ rest)%string.

Lemma below_disjoint a b p :
  bool_decide (to_bytes (a ++ "/") `prefix_of` to_bytes (b ++ "/") ∨
               to_bytes (b ++ "/") `prefix_of` to_bytes (a ++ "/")) = false →
  below a p → ¬ below b p.
Proof.
  intros Hd%bool_decide_eq_false [x ->] [y E]. apply Hd.
  apply (prefix_weak_total _ _ (to_bytes (a ++ "/" ++ x))); [|rewrite E]; rewrite !to_bytes_append, app_assoc;
    by apply prefix_app_r.
Qed.

Lemma clients_not_keys p : below ClientsDirectory p → ¬ below AuthorizedKeysDirectory p.
Proof. apply below_disjoint. vm_compute. reflexivity. Qed.
Lemma clients_not_sessions p : below ClientsDirectory p → ¬ below GrantSessionsDirectory p.
Proof. apply below_disjoint. vm_compute. reflexivity. Qed.
Lemma keys_not_sessions p : below AuthorizedKeysDirectory p → ¬ below GrantSessionsDirectory p.
Proof. apply below_disjoint. vm_compute. reflexivity. Qed.

(** ** Areas *)

(** The files of one client. *)
Definition clientArea (H : hostEnv) (id p : string) : Prop :=
  p = clientPath ClientsDirectory id ∨ p = Filepath.Join ClientsDirectory ("." ++ id ++ ".lock") ∨
  ∃ n, p = tempName H (clientPath ClientsDirectory id) ".wt-invite-" n.

Lemma sessionArea_below p : sessionArea productionGrantAuthority p → below GrantSessionsDirectory p.
Proof.
  intros [-> |(name & Hn & _ & ->)]; [by exists "grant.lock"%string|].
  exists name. apply Join_plain; [apply sessionsDir_clean|done].
Qed.

Lemma clientArea_below H id p : isHexID id = true → clientArea H id p → below ClientsDirectory p.
Proof.
  intros Hid. pose proof (clientPath_eq id Hid) as Hp.
  pose proof (hexID_no_slash id Hid) as Hs.
  intros [-> |[-> |[n ->]]].
  - rewrite Hp. by eexists.
  - exists ("." ++ id ++ ".lock")%string. apply Join_plain; [apply clientsDir_clean|by apply lock_file_plain].
  - unfold tempName. rewrite Hp, Dir_file; [by eexists|apply clientsDir_clean|]. apply json_file_plain. done.
Qed.

(** The files of one client are not another's record. *)
Lemma clientArea_other H id id' :
  isHexID id = true → isHexID id' = true → id ≠ id' → ¬ clientArea H id (clientPath ClientsDirectory id').
Proof.
  intros Hid Hid' Hne. rewrite (clientPath_eq id' Hid').
  destruct (hexID_chars id' Hid') as [Hne' Hh].
  assert (∀ x, (id' ++ ".json" = "." ++ x)%string → False) as Hdot.
  { intros x E. apply (f_equal to_bytes) in E. rewrite !to_bytes_append in E.
    destruct (to_bytes id') as [|c b] eqn:Hb; [by apply Hne', to_bytes_inj|]. injection E as -> _.
    apply List.Forall_cons_iff in Hh as [Hc _]. unfold hex_char in Hc. vm_compute in Hc. intuition congruence. }
  intros [E|[E|[n E]]].
  - rewrite (clientPath_eq id Hid) in E. repeat apply app_string_inv in E. apply (f_equal to_bytes) in E.
    rewrite !to_bytes_append in E. simplify_list_eq. by apply Hne, to_bytes_inj.
  - rewrite Join_plain in E; [|apply clientsDir_clean|].
    + repeat apply app_string_inv in E. by apply (Hdot (id ++ ".lock")%string).
    + by apply lock_file_plain, hexID_no_slash.
  - unfold tempName in E. rewrite (clientPath_eq id Hid), Dir_file in E;
      [|apply clientsDir_clean|by apply json_file_plain].
    repeat apply app_string_inv in E. by apply (Hdot ("wt-invite-" ++ h_temp H n)%string).
Qed.

(** ** The authorized-keys file of a valid configuration *)

Section keys.
Context (config : Config) (selected : Profile.Profile).
Hypothesis Hvalid : validate config = Ok selected.

Lemma keysPath_eq :
  ∃ user, AuthorizedKeysPath config = (AuthorizedKeysDirectory ++ "/" ++ user)%string ∧
    (bz 47 ∉ to_bytes user) ∧ ∀ x, user ≠ ("." ++ x)%string.
Proof using Hvalid.
  destruct (ServerProps.validate_Ok config selected Hvalid) as (_ & _ & _ & Hu & Hp). exists (DedicatedUser config).
  split; [exact Hp|]. clear Hvalid Hp. unfold validateDedicatedUser in Hu.
  destruct (to_bytes (DedicatedUser config)) as [|c b] eqn:Hb; [done|]. destruct (maxUserLength <? _); [done|].
  destruct (isUserInitial c) eqn:Hc; cbn [negb] in Hu; [|done].
  destruct (forallb isUserContinuation b) eqn:Hr; cbn [negb] in Hu; [|done]. clear Hu. split.
  - assert (isUserContinuation (bz 47) = false) as Hn by (vm_compute; reflexivity).
    assert (isUserInitial (bz 47) = false) as Hn' by (vm_compute; reflexivity).
    apply not_elem_of_cons. split; [congruence|]. intros Hin%list_elem_of_In. rewrite forallb_forall in Hr.
    apply Hr in Hin. congruence.
  - intros x E. apply (f_equal to_bytes) in E. rewrite Hb, to_bytes_append in E. injection E as -> _.
    by vm_compute in Hc.
Qed.

Lemma keysPath_below : below AuthorizedKeysDirectory (AuthorizedKeysPath config).
Proof using Hvalid. destruct keysPath_eq as (user & -> & _). by exists user. Qed.

Lemma keysArea_below H p : keysArea H (AuthorizedKeysPath config) p → below AuthorizedKeysDirectory p.
Proof using Hvalid.
  destruct keysPath_eq as (user & -> & Hs & _). pose proof keysDir_clean as Hc.
  intros [-> |[-> |[n ->]]]; [by exists user| |].
  - rewrite Dir_file, base_file by done. exists ("." ++ user ++ ".lock")%string.
    apply Join_plain; [done|by apply lock_file_plain].
  - unfold tempName. rewrite Dir_file by done. by eexists.
Qed.

Lemma keysPath_not_temp H n : AuthorizedKeysPath config ≠ tempName H (AuthorizedKeysPath config) ".wt-server-" n.
Proof using Hvalid.
  destruct keysPath_eq as (user & -> & Hs & Hdot). unfold tempName. rewrite Dir_file; [|apply keysDir_clean|done].
  intros E. do 2 apply app_string_inv in E. by apply (Hdot ("wt-server-" ++ h_temp H n)%string).
Qed.

End keys.
