(* ===== verification/ReconcileProps.v ===== *)
(** * The host at work: what its operations achieve together

    The theorems that compose the components under the installed layout: an
    expiry with the production operations ends the grant everywhere, a
    reconciliation leaves no due grant effective, and the authorized-keys file
    it writes holds exactly the keys of the usable grants. *)

From S2P Require Import Prelude GoStd Json StrictJson Time Host Locator Grant GrantProps SshWire Crypto Packet.
From S2P Require Import Kex Listen ClientStore ClientCodec Server ServerProps Clients ClientProps AuthorizedKeys.
From S2P Require Import GrantSession SessionProps Reconcile Frame Layout.
Import Time Json Locator Server Clients Reconcile.

#[local] Arguments formatTime : simpl never.

(** ** Effects, as predicates on the files *)

Section effects.
Context (config : Config).
Implicit Types fs : gmap string bytes.

(** No line of the authorized-keys file is for the key. *)
Definition key_gone (key : string) fs : Prop :=
  ∀ l, l ∈ AuthorizedKeys.lines_at (AuthorizedKeysPath config) fs →
       AuthorizedKeys.authorizedKeyBlob l ≠ AuthorizedKeys.authorizedKeyBlob key.

(** Every session record left is readable and belongs to another client. *)
Definition client_ended (id : string) fs : Prop := no_session GrantSessionsDirectory id "" "" fs.

Lemma key_gone_frame key fs fs' :
  fs' !! AuthorizedKeysPath config = fs !! AuthorizedKeysPath config → key_gone key fs → key_gone key fs'.
Proof. intros E Hg l. unfold AuthorizedKeys.lines_at. rewrite E. apply Hg. Qed.

Lemma client_ended_frame id fs fs' :
  (∀ p, below GrantSessionsDirectory p → fs' !! p = fs !! p) → client_ended id fs → client_ended id fs'.
Proof.
  intros E He name Hin Hj. apply listing_iff in Hin as (Hp & Hn & Hs). pose proof (json_plain _ Hn Hs Hj) as Hplain.
  assert (fs' !! Filepath.Join GrantSessionsDirectory name = fs !! Filepath.Join GrantSessionsDirectory name) as Ej.
  { apply E. exists name. apply Join_plain; [apply sessionsDir_clean|done]. }
  rewrite E in Hp by (by exists name).
  destruct (He name) as (rec & (raw & Hr & Hd) & Hm); [by apply listing_iff|done|].
  exists rec. split; [|done]. exists raw. by rewrite Ej.
Qed.

End effects.

(** ** Expiry against an interface *)

Section interface.
Context {CR : Crypto} (H : hostEnv) (ops : Grant.ExpireOps world) (gone ended : string → world → Prop).
Context `{!ExpireHost ops gone ended}.

(** The wrapped operations keep the promises of the ones they wrap. *)
#[local] Instance wrap_host : ExpireHost (wrapOps ops) (λ k s, gone k s.1) (λ c s, ended c s.1).
Proof using Type*.
  destruct ExpireHost0 as [E1 E2 E3 E4]. constructor; unfold wrapOps; cbn.
  - intros f k [w h] Hf. destruct (Grant.VerifyAuthorizationGone ops) as [g|]; [|done]. injection Hf as <-.
    unfold onWorld. specialize (E1 g k w eq_refl). cbn [fst snd]. by destruct (g k w).
  - intros f c [w h] Hf. destruct (Grant.VerifySessionGone ops) as [g|]; [|done]. injection Hf as <-.
    unfold onWorld. specialize (E2 g c w eq_refl). cbn [fst snd]. by destruct (g c _ _ w).
  - intros f c k [w h] Hf. destruct (Grant.VerifySessionGone ops) as [g|]; [|done]. injection Hf as <-.
    unfold onWorld. specialize (E3 g c k w eq_refl). cbn [fst snd]. by destruct (g c _ _ w).
  - intros f c k [w h] Hf. injection Hf as <-. cbn [fst snd]. destruct (Grant.BurnManagementToken ops) as [g|]; [|done].
    specialize (E4 g c k w eq_refl). by destruct (g w).
Qed.

Lemma runExpire_effect plan w h w' :
  runExpire plan ops w = (Ok h, w') → gone (Grant.PublicKey plan) w' ∧ ended (Grant.ClientID plan) w'.
Proof using Type*.
  unfold runExpire. destruct (Grant.ExecuteExpire plan (wrapOps ops) (w, ""%string)) as [res [w1 h1]] eqn:Hx.
  destruct res as [[]|e]; [|done]. intros [= <- <-]. by destruct (ExecuteExpire_effect (wrapOps ops) (λ k s, gone k s.1) (λ c s, ended c s.1) plan _ _ Hx) as [? _].
Qed.

End interface.

(** ** The production operations keep the promises of an expiry *)

Section expiry.
Context {CR : Crypto}.
Context (H : hostEnv) (rnd : nat → nat → bytes) (procRead : nat → string → result bytes)
  (procLink : nat → string → result string) (selfPid : Z) (control : nat → bytes → result bytes)
  (groupAccess : nat → bool).
Context (config : Config) (selected : Profile.Profile).
Hypothesis (Hhonest : honest H) (Hvalid : validate config = Ok selected).
Implicit Types (fs : gmap string bytes) (r : ClientStore.ClientRecord).

Let verifyGone := (Reconcile.verifyGone H procRead procLink selfPid groupAccess).
Let terminate := (Reconcile.terminate H procRead procLink selfPid control groupAccess).
Let ops := (grantExpireOps H rnd procRead procLink selfPid control groupAccess config).

Lemma verifyKey_spec key fs0 :
  htriple (λ fs, fs = fs0) (AuthorizedKeys.verifyAuthorizedKeyAbsent H (AuthorizedKeysPath config) key)
    (λ res fs, fs = fs0 ∧ (res = Ok () → key_gone config key fs)).
Proof using Hhonest.
  intros w Hw. split.
  { rewrite <- Hw. apply map_eq. intros p. apply (moves_verifyKey H (outside (λ _, False))). auto. }
  pose proof (AuthorizedKeys.readLines_spec H (AuthorizedKeysPath config) Hhonest _ w eq_refl) as [Hs Hl].
  unfold AuthorizedKeys.verifyAuthorizedKeyAbsent, mbind, HM_bind.
  destruct (AuthorizedKeys.readAuthorizedKeyLines H (AuthorizedKeysPath config) w) as [[lines|e] w1]; [|by intros [=]].
  specialize (Hl lines eq_refl). cbn [fst snd] in *. cbv zeta.
  destruct (eqs _ ""); [by intros [=]|]. destruct (existsb _ lines) eqn:Hx; [by intros [=]|]. intros _ l Hin E.
  cbn [snd mret HM_ret] in Hin. rewrite Hs, <- Hl in Hin. apply not_true_iff_false in Hx. apply Hx, existsb_exists. exists l.
  split; [by apply list_elem_of_In|]. by apply bool_decide_eq_true.
Qed.

Lemma burnToken_within D : within D (burnToken H rnd).
Proof. unfold burnToken, GenerateManagementToken. frame. Qed.

#[local] Instance production_host record :
  ExpireHost (ops record) (λ k w, key_gone config k (files w)) (λ c w, client_ended c (files w)).
Proof using Hhonest Hvalid.
  assert (∀ c p, below AuthorizedKeysDirectory p → ∀ w,
    files (verifyGone c "" "" w).2 !! p = files w !! p) as Hkeep.
  { intros c p Hp w. apply (within_VerifyGone H procRead procLink selfPid groupAccess).
    intros Hs%sessionArea_below. by eapply keys_not_sessions. }
  constructor.
  - intros f k w [= <-] Hok. by apply (verifyKey_spec k (files w) w eq_refl).
  - intros f c w [= <-] Hok.
    by apply (VerifyGone_spec H procRead procLink selfPid groupAccess productionGrantAuthority c "" ""
      (files w) Hhonest sessionsDir_clean w eq_refl).
  - intros f c k w [= <-]. apply key_gone_frame, Hkeep. by eapply keysPath_below.
  - intros f c k w [= <-]. split.
    + apply key_gone_frame. apply (burnToken_within (λ _, False)); auto.
    + apply client_ended_frame. intros p _. apply (burnToken_within (λ _, False)); auto.
Qed.

(** The operations leave the client's record alone. *)
Lemma production_quiet id record : isHexID id = true → quiet_ops ClientsDirectory id (ops record).
Proof using Hvalid.
  intros Hid. assert (below ClientsDirectory (clientPath ClientsDirectory id)) as Hp
    by (rewrite clientPath_eq by done; by eexists).
  assert (¬ keysArea H (AuthorizedKeysPath config) (clientPath ClientsDirectory id)) as Hk.
  { intros Hk%(keysArea_below config selected Hvalid). by eapply clients_not_keys. }
  assert (¬ sessionArea productionGrantAuthority (clientPath ClientsDirectory id)) as Hs.
  { intros Hs%sessionArea_below. by eapply clients_not_sessions. }
  constructor.
  - intros f k [= <-]. eapply within_quiet; [apply within_removeKey|done].
  - intros f k [= <-]. eapply within_quiet; [apply (moves_verifyKey H (outside (λ _, False)))|by intros []].
  - intros f a b c [= <-]. eapply within_quiet; [apply within_Terminate|done].
  - intros f a b c [= <-]. eapply within_quiet; [apply within_VerifyGone|done].
  - intros f [= <-]. eapply within_quiet; [apply (burnToken_within (λ _, False))|by intros []].
  - intros f w h [= <-] Hh. unfold burnToken, mbind, HM_bind in Hh.
    destruct (GenerateManagementToken H rnd w) as [[t|e] w1]; [|done]. injection Hh as <-. apply Hex_ascii.
Qed.

(** Writing a client's record undoes nothing. *)
Lemma write_client_keeps id r k c : isHexID id = true → ClientStore.ClientID r = id →
  htriple (λ fs, key_gone config k fs ∧ client_ended c fs) (writeClientAtomic H ClientsDirectory r)
    (λ _ fs, key_gone config k fs ∧ client_ended c fs).
Proof using Hvalid.
  intros Hid Hr w [Hk He].
  assert (within (clientArea H id) (writeClientAtomic H ClientsDirectory r)) as Hw.
  { unfold writeClientAtomic. frame. rewrite Hr. apply within_replaceFile; [by left|intros n; right; right; eauto|frame]. }
  split.
  - eapply key_gone_frame; [|exact Hk]. apply Hw. intros Hc%clientArea_below; [|done].
    eapply clients_not_keys; [exact Hc|]. by eapply keysPath_below.
  - eapply client_ended_frame; [|exact He]. intros p Hp. apply Hw. intros Hc%clientArea_below; [|done].
    by eapply clients_not_sessions.
Qed.

(** What an expiry of [r0] that reports success has done. *)
Definition expiry_done id r0 (res : result ClientStore.ClientRecord) fs : Prop :=
  ∀ r, res = Ok r → stored ClientsDirectory id fs r ∧ ClientStore.Status r = ClientStatusExpired ∧
    (ClientStore.Status r0 ≠ ClientStatusExpired →
     key_gone config (ClientStore.PublicKey r0) fs ∧ client_ended id fs).

Lemma expiry_err id r0 e fs : expiry_done id r0 (Err e) fs.
Proof. by intros r [=]. Qed.

Lemma expire_tail id r0 r plan now record :
  isHexID id = true → wf_client r → ClientStore.ClientID r = id →
  Grant.PublicKey plan = ClientStore.PublicKey r0 → Grant.ClientID plan = id →
  htriple (λ fs, stored ClientsDirectory id fs r)
    (burned ← runExpire plan (ops record);
     let r' := if eqs burned "" then r else ClientStore.set_ManagementTokenSHA256 burned
                 (ClientStore.set_PreviousManagementTokenSHA256 (ClientStore.ManagementTokenSHA256 r) r) in
     let r' := ClientStore.set_OperationStartedAt "" (ClientStore.set_ExpiredAt (formatTime now)
                 (ClientStore.set_Status ClientStatusExpired r')) in
     writeClientAtomic H ClientsDirectory r';; mret r')
    (expiry_done id r0).
Proof using Hhonest Hvalid.
  intros Hid Hwf Hr Hk Hc.
  eapply (htriple_bind _ _ (λ b fs, stored ClientsDirectory id fs r ∧ ascii b ∧
    key_gone config (ClientStore.PublicKey r0) fs ∧ client_ended id fs)).
  { intros w Hw. destruct (runExpire_quiet ClientsDirectory id plan (ops record) w (production_quiet id record Hid)) as [Hf Ha].
    pose proof (runExpire_effect (ops record) _ _ plan w) as Heff.
    destruct (runExpire plan (ops record) w) as [[b|e] w']; [|apply expiry_err]. cbn [fst snd] in *.
    specialize (Heff b w' eq_refl). rewrite Hk, Hc in Heff.
    split_and!; [by eapply stored_same|by apply Ha|by apply Heff|by apply Heff]. }
  intros b w (Hw & Hb & Hg & He). cbv zeta.
  set (r' := ClientStore.set_OperationStartedAt _ _).
  assert (ClientStore.ClientID r' = id) as Hid' by (unfold r'; by destruct (eqs b "")).
  assert (wf_client r') as Hwf' by (unfold r'; destruct (eqs b ""); wf_update).
  assert (ClientStore.Status r' = ClientStatusExpired) as Hst by (unfold r'; by destruct (eqs b "")).
  clearbody r'.
  pose proof (writeClient_stored H ClientsDirectory id r r' Hwf' Hid' w Hw) as [_ Hs].
  pose proof (write_client_keeps id r' (ClientStore.PublicKey r0) id Hid Hid' w (conj Hg He)) as Hgone.
  unfold mbind, HM_bind. destruct (writeClientAtomic H ClientsDirectory r' w) as [[[]|e] w']; [|apply expiry_err].
  cbn [fst snd mret HM_ret] in *. intros x Hx. apply Ok_inj in Hx as <-. split_and!; [by apply Hs|done|by intros _].
Qed.

Lemma ExpireClient_effect id now record r0 :
  isHexID id = true →
  htriple (λ fs, stored ClientsDirectory id fs r0) (ExpireClient H ClientsDirectory id now (ops record))
    (expiry_done id r0).
Proof using Hhonest Hvalid.
  intros Hid. unfold ExpireClient. rewrite Hid. cbn [negb].
  eapply (htriple_bind _ _ (λ _ fs, stored ClientsDirectory id fs r0)).
  { eapply htriple_weaken; [apply (quiet_stored ClientsDirectory id _ r0), quiet_orNow|done|]. intros [t|e] fs; [done|intros _; apply expiry_err]. }
  intros now'. apply lockClient_stored; [|intros e fs _; apply expiry_err].
  eapply (htriple_bind _ _ (λ x fs, x = r0 ∧ stored ClientsDirectory id fs r0)).
  { eapply htriple_weaken; [apply (loadKnown_stored H ClientsDirectory id r0)|done|].
    intros [x|e] fs [Hs Hx]; [by rewrite (Hx x eq_refl)|apply expiry_err]. }
  intros x w [-> Hw]. pose proof Hw as (raw & _ & _ & Hwf & Hr). revert w Hw.
  refine (_ : htriple (λ fs, stored ClientsDirectory id fs r0) _ _).
  assert (∀ e, htriple (λ fs, stored ClientsDirectory id fs r0) (hfail e) (expiry_done id r0)) as Hfail
    by (intros e; apply htriple_fail; intros fs _; apply expiry_err).
  destruct (eqs (ClientStore.Status r0) ClientStatusExpired) eqn:Hex.
  { apply bool_decide_eq_true in Hex. apply htriple_ret. intros fs Hs r [= <-]. by split_and!. }
  destruct (Grant.ParseUTC _) as [notAfter|e]; [|apply Hfail]. cbv zeta.
  destruct (Grant.ValidateExpirePlan _) as [[]|e]; [|intros w _; apply expiry_err].
  apply (ret_bind _ ()).
  destruct (eqs (ClientStore.Status r0) ClientStatusActive || _) eqn:Hst.
  2:{ apply ret_bind. by apply expire_tail. }
  destruct (Grant.AuthorizeTransition _ _) as [[]|e]; [|intros w _; apply expiry_err].
  set (r1 := ClientStore.set_OperationStartedAt (formatTime now') (ClientStore.set_Status ClientStatusExpirationPending r0)).
  assert (wf_client r1) as Hwf1 by (unfold r1; wf_update).
  eapply (htriple_bind _ _ (λ x fs, x = r1 ∧ stored ClientsDirectory id fs r1)).
  { apply (ret_bind _ ()). unfold markPending. fold r1. eapply (htriple_bind _ _ (λ _ fs, stored ClientsDirectory id fs r1)).
    - eapply htriple_weaken; [apply (writeClient_stored H ClientsDirectory id r0 r1 Hwf1 Hr)|done|].
      intros [[]|e] fs [_ Hok]; [auto|apply expiry_err].
    - intros _. apply htriple_ret. auto. }
  intros x w [-> Hw]. by apply (expire_tail id r0 r1).
Qed.

End expiry.

