(* ===== verification/ReconcileLoop.v ===== *)
(** * A reconciliation, grant by grant

    Each step of a reconciliation touches one client's record and otherwise
    only takes effects away: keys that are gone stay gone, clients without a
    session stay without one.  So the effects of the steps add up, and when the
    whole reconciliation reports success every due grant is expired and every
    pending revocation is complete. *)

From S2P Require Import Prelude GoStd Json StrictJson Time Host Locator Grant GrantProps SshWire Crypto Packet.
From S2P Require Import Kex Listen ClientStore ClientCodec Server ServerProps Clients ClientProps AuthorizedKeys.
From S2P Require Import GrantSession SessionProps Reconcile Frame Layout ReconcileProps.
Import Time Json Locator Server Clients Reconcile.

#[local] Arguments formatTime : simpl never.

(** ** Steps that only take effects away *)

Section monotone.
Context (config : Config).
Implicit Types fs : gmap string bytes.

Record settles (ids : list string) fs fs' : Prop := {
  settles_others id : isHexID id = true → id ∉ ids →
    fs' !! clientPath ClientsDirectory id = fs !! clientPath ClientsDirectory id;
  settles_keys key : key_gone config key fs → key_gone config key fs';
  settles_clients id : client_ended id fs → client_ended id fs';
}.

#[export] Instance settles_preorder ids : PreOrder (settles ids).
Proof.
  split; [by constructor|]. intros a b c [H1 H2 H3] [H4 H5 H6]. constructor; auto.
  intros id Hid Hn. by rewrite H4, H1.
Qed.

Lemma settles_weaken ids ids' fs fs' : settles ids fs fs' → ids ⊆ ids' → settles ids' fs fs'.
Proof. intros [H1 H2 H3] Hsub. constructor; auto. Qed.

Lemma settles_stored ids fs fs' id r :
  settles ids fs fs' → isHexID id = true → id ∉ ids →
  stored ClientsDirectory id fs r → stored ClientsDirectory id fs' r.
Proof. intros [Ho _ _] Hid Hn. apply stored_same. symmetry. auto. Qed.

(** Areas outside the three components' files. *)
Lemma settles_outside (D : string → Prop) ids fs fs' :
  (∀ id, isHexID id = true → id ∉ ids → ¬ D (clientPath ClientsDirectory id)) →
  ¬ D (AuthorizedKeysPath config) →
  (∀ p, below GrantSessionsDirectory p → ¬ D p) →
  outside D fs fs' → settles ids fs fs'.
Proof.
  intros Hc Hk Hs Ho. constructor.
  - intros id Hid Hn. by apply Ho, Hc.
  - intros key. apply key_gone_frame. by apply Ho.
  - intros id. apply client_ended_frame. intros p Hp. by apply Ho, Hs.
Qed.

(** Fewer session records. *)
Lemma client_ended_fewer id fs fs' :
  (∀ name, json_name name → plain_name name →
     fs' !! Filepath.Join GrantSessionsDirectory name = fs !! Filepath.Join GrantSessionsDirectory name ∨
     fs' !! Filepath.Join GrantSessionsDirectory name = None) →
  client_ended id fs → client_ended id fs'.
Proof.
  intros Hf He name Hin Hj. apply listing_iff in Hin as ([raw Hp] & Hn & Hs). pose proof (json_plain _ Hn Hs Hj) as Hplain.
  rewrite <- Join_plain in Hp by (done || apply sessionsDir_clean).
  destruct (Hf name Hj Hplain) as [E|E]; [|congruence]. rewrite E in Hp.
  destruct (He name) as (rec & (raw' & Hr & Hd) & Hm); [|done|].
  { apply listing_iff. rewrite <- Join_plain by (done || apply sessionsDir_clean). eauto. }
  exists rec. split; [|done]. exists raw'. by rewrite E.
Qed.

End monotone.

(** ** The listing of the client records *)

Lemma NoDup_listing dir fs : NoDup (listing dir fs).
Proof.
  unfold listing. rewrite sorting.merge_sort_Permutation. pose proof (NoDup_fst_map_to_list fs) as Hn. revert Hn.
  induction (map_to_list fs) as [|[p c] l IH]; intros Hn; [constructor|]. cbn [fmap list_fmap fst] in Hn.
  apply list.NoDup_cons in Hn as [Hp Hn]. cbn. destruct (childName dir p) as [name|] eqn:Hc; [|by apply IH].
  constructor; [|by apply IH]. intros ([q d] & Hin & Hq)%list_elem_of_omap. cbn [fst] in Hq.
  apply childName_Some in Hc as [-> _], Hq as [-> _]. apply Hp, list_elem_of_fmap. by exists ((dir ++ "/" ++ name)%string, d).
Qed.

(** The identifier of a record's file name. *)
Definition recordID (name : string) : option string :=
  if Strings.has_suffix name ".json" && isHexID (TrimSuffix name ".json") then Some (TrimSuffix name ".json") else None.

Lemma recordID_Some name id : recordID name = Some id ↔ name = (id ++ ".json")%string ∧ isHexID id = true.
Proof.
  unfold recordID. split.
  - destruct (Strings.has_suffix name ".json") eqn:Hs; [|done]. cbn [andb]. destruct (isHexID _) eqn:Hh; [|done].
    intros [= <-]. split; [|done]. unfold TrimSuffix. rewrite Hs. unfold Strings.has_suffix in Hs.
    apply andb_true_iff in Hs as [Hl%Nat.leb_le Hd%bool_decide_eq_true]. apply to_bytes_inj.
    rewrite to_bytes_append, to_bytes_string, <- Hd. by rewrite take_drop.
  - intros [-> Hid]. unfold TrimSuffix.
    assert (Strings.has_suffix (id ++ ".json") ".json" = true) as -> by (by apply json_file_plain_suffix).
    replace (String.length (id ++ ".json") - String.length ".json")%nat with (length (to_bytes id))
      by (rewrite <- !length_to_bytes, to_bytes_append, length_app; cbn; lia).
    by rewrite to_bytes_append, take_app_length, to_string_bytes, Hid.
Qed.

Definition clientIDs (fs : gmap string bytes) : list string := omap recordID (listing ClientsDirectory fs).

Lemma clientIDs_iff fs id :
  id ∈ clientIDs fs ↔ isHexID id = true ∧ is_Some (fs !! clientPath ClientsDirectory id).
Proof.
  unfold clientIDs. rewrite list_elem_of_omap. split.
  - intros (name & Hin & [-> Hid]%recordID_Some). apply listing_iff in Hin as [Hs _]. by rewrite clientPath_eq.
  - intros [Hid Hs]. exists (id ++ ".json")%string. rewrite recordID_Some, listing_iff, <- clientPath_eq by done.
    destruct (json_file_plain id Hid) as (Hn & Hsl & _). done.
Qed.

Lemma NoDup_clientIDs fs : NoDup (clientIDs fs).
Proof.
  unfold clientIDs. induction (NoDup_listing ClientsDirectory fs) as [|name l Hn _ IH]; [constructor|]. cbn.
  destruct (recordID name) as [id|] eqn:Hid; [|done]. constructor; [|done].
  intros (name' & Hin & Hid')%list_elem_of_omap. apply recordID_Some in Hid as [-> _], Hid' as [-> _]. done.
Qed.

(** The record of each file. *)
Definition read_at (fs : gmap string bytes) (id : string) (r : ClientStore.ClientRecord) : Prop :=
  ∃ raw, fs !! clientPath ClientsDirectory id = Some raw ∧ ClientStore.readClient raw = Ok r.

Lemma loadAll_spec H names fs0 :
  htriple (λ fs, fs = fs0) (loadAll H ClientsDirectory names)
    (λ res fs, fs = fs0 ∧ ∀ records, res = Ok records → Forall2 (read_at fs0) (omap recordID names) records).
Proof.
  induction names as [|name names IH]; cbn [loadAll omap list_omap].
  { apply htriple_ret. intros fs ->. split; [done|]. intros records [= <-]. constructor. }
  unfold recordID. destruct (Strings.has_suffix name ".json"); cbn [negb andb]; [|exact IH].
  destruct (isHexID (TrimSuffix name ".json")) eqn:Hid; cbn [negb]; [|exact IH].
  set (id := TrimSuffix name ".json") in *.
  eapply (htriple_bind _ _ (λ r fs, fs = fs0 ∧ read_at fs0 id r)).
  { unfold LoadClient. rewrite Hid. cbn [negb]. eapply (htriple_bind _ _ (λ c fs, fs = fs0 ∧ fs0 !! clientPath ClientsDirectory id = Some c)).
    - apply htriple_ReadFile; [by intros e fs ->|by intros c fs -> Hc].
    - intros c. apply htriple_lift. intros fs [-> Hc]. destruct (ClientStore.readClient c) as [r|e] eqn:Hr; [|done].
      split; [done|]. by exists c. }
  intros r. eapply (htriple_bind _ _ (λ l fs, fs = fs0 ∧ read_at fs0 id r ∧ Forall2 (read_at fs0) (omap recordID names) l)).
  { intros w [Hw Hr]. destruct (IH w Hw) as [Hf Hl]. destruct (loadAll H ClientsDirectory names w) as [[l|e] w'];
      [|by split]. split_and!; [exact Hf|done|by apply Hl]. }
  intros l. apply htriple_ret. intros fs (-> & Hr & Hl). split; [done|]. intros records [= <-]. by constructor.
Qed.

Lemma ListClients_spec H fs0 :
  honest H →
  htriple (λ fs, fs = fs0) (ListClients H ClientsDirectory)
    (λ res fs, fs = fs0 ∧ ∀ records, res = Ok records → Forall2 (read_at fs0) (clientIDs fs0) records).
Proof.
  intros Hh w Hw. unfold ListClients, htry, ReadDir, sys, call, get_files, mbind, HM_bind. cbn [files calls].
  destruct (h_fault H (calls w)) as [e|] eqn:He; cbn [fst snd].
  - unfold hfail, IsNotExist. cbv beta iota. rewrite bool_decide_eq_false_2; [done|]. intros ->. by destruct (Hh (calls w)).
  - cbn [mret HM_ret files]. rewrite Hw. by apply (loadAll_spec H _ fs0).
Qed.

Section steps.
Context {CR : Crypto}.
Context (H : hostEnv) (rnd : nat → nat → bytes) (procRead : nat → string → result bytes)
  (procLink : nat → string → result string) (selfPid : Z) (control : nat → bytes → result bytes)
  (groupAccess : nat → bool).
Context (config : Config) (selected : Profile.Profile).
Hypothesis (Hhonest : honest H) (Hvalid : validate config = Ok selected).
Implicit Types (fs : gmap string bytes) (r : ClientStore.ClientRecord).

Let verifyGone := Reconcile.verifyGone H procRead procLink selfPid groupAccess.
Let terminate := Reconcile.terminate H procRead procLink selfPid control groupAccess.
Let removeKey := Reconcile.removeKey H config.
Let ops := grantExpireOps H rnd procRead procLink selfPid control groupAccess config.
Let enforcement := productionEnforcement H procRead procLink selfPid control groupAccess.

Lemma sessions_settle ids :
  (∀ fs p, sessionArea productionGrantAuthority p → settles config ids fs (delete p fs)) ∧
  (∀ fs, settles config ids fs (<[GrantAuthorityLockPath := []]> fs)).
Proof using Hvalid.
  assert (∀ fs p (fs' : gmap string bytes), sessionArea productionGrantAuthority p → (∀ q, q ≠ p → fs' !! q = fs !! q) →
    (∀ name, json_name name → plain_name name → p = Filepath.Join GrantSessionsDirectory name → fs' !! p = None) →
    settles config ids fs fs') as Hset.
  { intros fs p fs' Hp Hq Hj. apply sessionArea_below in Hp. constructor.
    - intros id Hid _. apply Hq. intros E. eapply clients_not_sessions; [|exact Hp].
      rewrite <- E, clientPath_eq by done. by eexists.
    - intros key. apply key_gone_frame, Hq. intros E. eapply keys_not_sessions; [|exact Hp].
      rewrite <- E. by eapply keysPath_below.
    - intros id. apply client_ended_fewer. intros name Hn Hpl.
      destruct (decide (Filepath.Join GrantSessionsDirectory name = p)) as [E|E]; [right|left; by apply Hq].
      rewrite E. by eapply Hj. }
  split.
  - intros fs p Hp. apply (Hset fs p); [done|intros q Hq; by apply lookup_delete_ne|intros; apply lookup_delete_eq].
  - intros fs. apply (Hset fs GrantAuthorityLockPath); [by left|intros q Hq; by apply lookup_insert_ne|].
    intros name Hj Hpl E. exfalso. rewrite Join_plain in E by (done || apply sessionsDir_clean).
    change GrantAuthorityLockPath with (GrantSessionsDirectory ++ "/" ++ "grant.lock")%string in E.
    do 2 apply app_string_inv in E. subst name. by vm_compute in Hj.
Qed.

Lemma terminate_settles ids a b c : moves (settles config ids) (terminate a b c).
Proof using Hvalid.
  destruct (sessions_settle ids) as [Hd Hl]. apply moves_Terminate; [apply _|exact Hd|]. intros fs _. apply Hl.
Qed.
Lemma verifyGone_settles ids a b c : moves (settles config ids) (verifyGone a b c).
Proof using Hvalid.
  destruct (sessions_settle ids) as [Hd Hl]. apply moves_VerifyGone; [apply _|exact Hd|]. intros fs _. apply Hl.
Qed.

Lemma removeKey_settles ids key : moves (settles config ids) (removeKey key).
Proof using CR Hhonest Hvalid.
  intros w. pose proof (within_removeKey H (AuthorizedKeysPath config) key w) as Hw.
  fold (Reconcile.removeKey H config key) in Hw. fold (removeKey key) in Hw.
  constructor.
  - intros id Hid _. apply Hw. intros Hk%(keysArea_below config selected Hvalid).
    eapply clients_not_keys; [|exact Hk]. rewrite clientPath_eq by done. by eexists.
  - intros k Hk l Hl. apply Hk.
    set (old := AuthorizedKeys.lines_at (AuthorizedKeysPath config) (files w)) in *.
    assert (Forall AuthorizedKeys.whole old) as Hold.
    { unfold old, AuthorizedKeys.lines_at. destruct (files w !! _); [apply AuthorizedKeys.linesOf_whole|constructor]. }
    pose proof (keysPath_not_temp config selected Hvalid H) as Hp.
    destruct (decide (AuthorizedKeys.authorizedKeyBlob key = ""%string)) as [Hb|Hb].
    + destruct (AuthorizedKeys.removeKey_unparsable H _ Hhonest Hp old key Hb w eq_refl) as [[E|E] _];
        unfold removeKey, Reconcile.removeKey in Hl; by rewrite E in Hl.
    + destruct (AuthorizedKeys.removeKey_edited H _ Hhonest Hp old key Hb Hold w eq_refl) as [[E|E] _];
        unfold removeKey, Reconcile.removeKey in Hl; rewrite E in Hl; [done|].
      by apply list_elem_of_filter in Hl as [_ ?].
  - intros id. apply client_ended_frame. intros p Hp. apply Hw.
    intros Hk%(keysArea_below config selected Hvalid). by eapply keys_not_sessions.
Qed.

(** A removal that reports success. *)
Lemma removeKey_gone key :
  AuthorizedKeys.authorizedKeyBlob key ≠ ""%string →
  htriple (λ _, True) (removeKey key) (λ res fs, res = Ok () → key_gone config key fs).
Proof using CR Hhonest Hvalid.
  intros Hb w _ Hok.
  assert (Forall AuthorizedKeys.whole (AuthorizedKeys.lines_at (AuthorizedKeysPath config) (files w))) as Hold.
  { unfold AuthorizedKeys.lines_at. destruct (files w !! _); [apply AuthorizedKeys.linesOf_whole|constructor]. }
  destruct (AuthorizedKeys.removeKey_edited H _ Hhonest (keysPath_not_temp config selected Hvalid H) _ key Hb Hold w eq_refl)
    as [_ E]. intros l Hl. unfold removeKey, Reconcile.removeKey in *. rewrite E in Hl by done.
  apply list_elem_of_filter in Hl as [Hf _]. by apply bool_decide_eq_false in Hf.
Qed.

Lemma clientArea_settles id fs fs' :
  isHexID id = true → outside (clientArea H id) fs fs' → settles config [id] fs fs'.
Proof using Hvalid.
  intros Hid. apply settles_outside.
  - intros id' Hid' Hn. apply clientArea_other; [done|done|]. intros ->. apply Hn. by left.
  - intros Hc%clientArea_below; [|done]. eapply clients_not_keys; [exact Hc|]. by eapply keysPath_below.
  - intros p Hp Hc%clientArea_below; [|done]. by eapply clients_not_sessions.
Qed.

Lemma write_settles id r : isHexID id = true → ClientStore.ClientID r = id →
  moves (settles config [id]) (writeClientAtomic H ClientsDirectory r).
Proof using Hvalid.
  intros Hid Hr. eapply (within_moves (clientArea H id)); [|intros fs fs'; by apply clientArea_settles].
  unfold writeClientAtomic. frame. rewrite Hr. apply within_replaceFile; [by left|intros n; right; right; eauto|frame].
Qed.

Lemma moves_triple {A} (R : relation (gmap string bytes)) `{!PreOrder R} fs0 (m : HM A) :
  moves R m → htriple (λ fs, R fs0 fs) m (λ _ fs, R fs0 fs).
Proof. intros Hm w Hw. etrans; [exact Hw|apply Hm]. Qed.

(** ** One client under its lock *)

Definition under id r0 fs0 fs : Prop := stored ClientsDirectory id fs r0 ∧ settles config [id] fs0 fs.

Lemma lockClient_under {A} id r0 fs0 (body : HM A) (Q : result A → gmap string bytes → Prop) :
  isHexID id = true →
  htriple (under id r0 fs0) body Q → (∀ e fs, settles config [id] fs0 fs → Q (Err e) fs) →
  htriple (under id r0 fs0) (lockClient H ClientsDirectory id body) Q.
Proof using Hvalid.
  intros Hid Hb He. unfold lockClient. rewrite Hid. cbn [negb].
  apply withLock_rule_at; [|done|intros e fs [_ Hs]; by apply He].
  intros fs [(raw & Hraw & Hr) Hs] Hp. split.
  - exists raw. split; [|done]. rewrite lookup_insert_ne; [done|]. congruence.
  - etrans; [exact Hs|]. apply clientArea_settles; [done|]. apply outside_insert. by right; left.
Qed.

Lemma load_under id r0 fs0 :
  htriple (under id r0 fs0) (loadKnown H ClientsDirectory id)
    (λ res fs, settles config [id] fs0 fs ∧ ∀ r, res = Ok r → r = r0).
Proof.
  intros w [Hs Hset]. pose proof (loadKnown_stored H ClientsDirectory id r0 w Hs) as [_ Hr]. split; [|done].
  etrans; [exact Hset|]. assert (moves (settles config [id]) (loadKnown H ClientsDirectory id)) as Hm; [|apply Hm].
  unfold loadKnown, LoadClient, invalid. frame.
Qed.

(** ** Expiry *)

Lemma runExpire_settles ids plan record : moves (settles config ids) (runExpire plan (ops record)).
Proof using CR Hhonest Hvalid.
  intros w. unfold runExpire.
  set (Φ := λ s : world * string, settles config ids (files w) (files s.1)).
  enough (Φ (Grant.ExecuteExpire plan (wrapOps (ops record)) (w, ""%string)).2) as HΦ
    by (by destruct (Grant.ExecuteExpire _ _ _) as [res [w' hash]]).
  assert (∀ A (m : HM A) s, moves (settles config ids) m → Φ s → Φ (onWorld m s).2) as Hon.
  { intros A m [w1 h1] Hm H1. unfold onWorld. specialize (Hm w1). cbn [fst snd] in *.
    destruct (m w1) as [x w2]. unfold Φ in *. cbn [fst snd] in *. by etrans. }
  unfold Grant.ExecuteExpire. destruct (Grant.ValidateExpirePlan plan); [|by unfold Φ].
  destruct (Grant.AuthorizeTransition _ _); [|by unfold Φ].
  unfold wrapOps, ops, grantExpireOps. cbn [Grant.RemoveAuthorization Grant.VerifyAuthorizationGone
    Grant.TerminateSession Grant.VerifySessionGone Grant.BurnManagementToken fmap option_fmap option_map].
  repeat (apply (runStep_inv Φ); [intros ? ?|intros ? ?|]); try done; try (by unfold Φ).
  - apply Hon; [apply removeKey_settles|done].
  - apply Hon; [apply terminate_settles|done].
  - apply Hon; [|done]. by apply moves_verifyKey, _.
  - apply Hon; [apply verifyGone_settles|done].
  - match goal with Hs : Φ ?s |- _ =>
      assert (moves (settles config ids) (burnToken H rnd)) as Hb by (unfold burnToken, GenerateManagementToken; frame);
      specialize (Hb s.1); unfold Φ in *; destruct (burnToken H rnd s.1) as [res w'] end.
    cbn [fst snd] in *. by etrans.
Qed.

Lemma ExpireClient_settles id now record r0 fs0 :
  isHexID id = true →
  htriple (under id r0 fs0) (ExpireClient H ClientsDirectory id now (ops record)) (λ _ fs, settles config [id] fs0 fs).
Proof using CR Hhonest Hvalid.
  intros Hid. unfold ExpireClient. rewrite Hid. cbn [negb].
  eapply (htriple_bind _ _ (λ _, under id r0 fs0)).
  { intros w Hw. unfold orNow. destruct (IsZero now); [|done]. done. }
  intros now' w0 Hw0. pose proof Hw0 as [(_ & _ & _ & _ & Hr) _]. revert w0 Hw0.
  refine (lockClient_under id r0 fs0 _ (λ _ fs, settles config [id] fs0 fs) Hid _ (λ _ _ Hs, Hs)).
  eapply (htriple_bind _ _ (λ x fs, x = r0 ∧ settles config [id] fs0 fs)).
  { eapply htriple_weaken; [apply (load_under id r0 fs0)|done|]. intros [x|e] fs [Hs' Hx]; [split; [by apply Hx|done]|done]. }
  intros x w [-> Hw].
  assert (∀ r, ClientStore.ClientID r = id → moves (settles config [id]) (writeClientAtomic H ClientsDirectory r)) as Hwr
    by (intros r; by apply write_settles).
  refine (moves_triple (settles config [id]) fs0 _ _ w Hw).
  frame_step; [frame|]. frame_step; [|frame]. cbv zeta. frame_step; [frame|].
  apply moves_bind_produced; [apply _| |].
  { unfold markPending. frame. }
  intros r Hp. assert (ClientStore.ClientID r = id) as Hr'.
  { destruct (_ || _); [|by destruct Hp as (? & ? & [= <- _])].
    apply produces_bind in Hp as (_ & _ & _ & _ & Hp). apply produces_bind in Hp as (_ & _ & _ & _ & Hp).
    by destruct Hp as (? & ? & [= <- _]). }
  frame_step; [apply runExpire_settles|]. frame. apply Hwr. cbn. by destruct (eqs _ "").
Qed.

(** ** Pending revocations *)

(** The client's grant is over: its record has the final [status], its key is
    out of the authorized-keys file and it has no session. *)
Definition finished (status id : string) r0 fs : Prop :=
  (∃ r, stored ClientsDirectory id fs r ∧ ClientStore.Status r = status) ∧
  key_gone config (ClientStore.PublicKey r0) fs ∧ client_ended id fs.

Lemma load_exact_under id r0 fs0 :
  htriple (under id r0 fs0) (LoadClient H ClientsDirectory id)
    (λ res fs, settles config [id] fs0 fs ∧ ∀ r, res = Ok r → r = r0 ∧ under id r0 fs0 fs).
Proof.
  intros w [Hs Hset]. assert (moves (λ fs fs', fs' = fs) (LoadClient H ClientsDirectory id)) as Hm.
  { assert (PreOrder (λ fs fs' : gmap string bytes, fs' = fs)) by (split; [done|by intros a b c -> ->]).
    unfold LoadClient. frame. }
  specialize (Hm w). cbn beta in Hm. pose proof (loadKnown_stored H ClientsDirectory id r0 w Hs) as [_ Hr].
  rewrite Hm. split; [done|]. intros r Hok. split; [|done]. apply Hr. unfold loadKnown, htry, mbind, HM_bind.
  destruct (LoadClient H ClientsDirectory id w) as [x w']. cbn [fst] in Hok. by rewrite Hok.
Qed.

(** A step that leaves the client's own record alone. *)
Lemma step_under {A} id r0 fs0 (m : HM A) (E E' : gmap string bytes → Prop) :
  quiet ClientsDirectory id m → moves (settles config [id]) m →
  htriple E m (λ res fs, ∀ a, res = Ok a → E' fs) →
  htriple (λ fs, under id r0 fs0 fs ∧ E fs) m
    (λ res fs, settles config [id] fs0 fs ∧ ∀ a, res = Ok a → under id r0 fs0 fs ∧ E' fs).
Proof.
  intros Hq Hm HE w [[Hs Hset] He]. specialize (Hm w). specialize (HE w He).
  assert (settles config [id] fs0 (files (m w).2)) as Hset' by (by etrans). split; [done|].
  intros a Ha. split; [split; [|done]|by eapply HE]. eapply stored_same; [|exact Hs]. symmetry. apply Hq.
Qed.

Lemma enforce_effect id key :
  htriple (λ fs, key_gone config key fs) (enforce enforcement id "" "")
    (λ res fs, ∀ a, res = Ok a → key_gone config key fs ∧ client_ended id fs).
Proof using CR Hhonest Hvalid.
  eapply (htriple_bind _ _ (λ _ fs, key_gone config key fs)).
  - intros w Hk. pose proof (terminate_settles [] id "" "" w) as Hs. change (runHook _ id "" "" w) with (terminate id "" "" w).
    destruct (terminate id "" "" w) as [[]]; [|by intros a [=]]. by apply Hs.
  - intros _ w Hk a Ha. change (runHook _ id "" "" w) with (verifyGone id "" "" w) in *. split.
    + by apply (verifyGone_settles [] id "" "" w).
    + destruct a. by apply (VerifyGone_spec H procRead procLink selfPid groupAccess productionGrantAuthority id "" ""
        (files w) Hhonest sessionsDir_clean w eq_refl).
Qed.

Lemma finish_effect id r0 fs0 now :
  isHexID id = true → wf_client r0 → ClientStore.ClientID r0 = id →
  htriple (λ fs, under id r0 fs0 fs ∧ key_gone config (ClientStore.PublicKey r0) fs ∧ client_ended id fs)
    (finishRevocation H rnd ClientsDirectory now r0)
    (λ res fs, settles config [id] fs0 fs ∧
       ∀ r, res = Ok r → ClientStore.Status r0 = ClientStatusRevocationPending →
            finished ClientStatusRevoked id r0 fs).
Proof using Hvalid.
  intros Hid Hwf Hr. unfold finishRevocation.
  eapply (htriple_bind _ _ (λ b fs, ascii b ∧ under id r0 fs0 fs ∧ key_gone config (ClientStore.PublicKey r0) fs ∧ client_ended id fs)).
  { intros w Hw. unfold burnedHash, RandRead, htry, sys, call, mbind, HM_bind. cbn [files calls].
    destruct (h_fault H (calls w)); cbn; [split; [by apply Hw|by intros ? [=]]|]. split; [apply Hex_ascii|exact Hw]. }
  intros b w (Hb & [Hs Hset] & Hk & He). cbv zeta. set (r' := ClientStore.set_OperationStartedAt _ _).
  assert (wf_client r') as Hwf' by (unfold r'; wf_update).
  assert (ClientStore.ClientID r' = id) as Hid' by exact Hr.
  assert (ClientStore.Status r' = ClientStatusRevoked) as Hst by done. clearbody r'.
  pose proof (writeClient_stored H ClientsDirectory id r0 r' Hwf' Hid' w Hs) as [_ Hnew].
  pose proof (write_settles id r' Hid Hid' w) as Hset'. unfold mbind, HM_bind.
  destruct (writeClientAtomic H ClientsDirectory r' w) as [[[]|e] w'];
    cbn [fst snd mret HM_ret] in *; (split; [by etrans|]); [|by intros ? [=]].
  intros r _ _. split_and!; [exists r'; split; [by apply Hnew|done]|by apply Hset'|by apply Hset'].
Qed.

Lemma complete_effect record now r0 fs0 :
  let id := ClientStore.ClientID record in
  isHexID id = true → AuthorizedKeys.authorizedKeyBlob (ClientStore.PublicKey r0) ≠ ""%string →
  htriple (under id r0 fs0)
    (completePendingRevocation H rnd ClientsDirectory record now (Some removeKey) enforcement)
    (λ res fs, settles config [id] fs0 fs ∧
       ∀ r, res = Ok r → ClientStore.Status r0 = ClientStatusRevocationPending →
            finished ClientStatusRevoked id r0 fs).
Proof using CR Hhonest Hvalid.
  intros id Hid Hb. unfold completePendingRevocation. fold id.
  apply lockClient_under; [done| |intros e fs Hs; by split].
  eapply (htriple_bind _ _ (λ x fs, x = r0 ∧ under id r0 fs0 fs)).
  { eapply htriple_weaken; [apply (load_exact_under id r0 fs0)|done|].
    intros [x|e] fs [Hs Hx]; [by apply Hx|by split]. }
  intros x w0 [-> Hw0]. pose proof Hw0 as [(_ & _ & _ & Hwf & Hr) _]. revert w0 Hw0.
  destruct (eqs (ClientStore.Status r0) ClientStatusRevoked) eqn:E1.
  { apply bool_decide_eq_true in E1. intros w [_ Hs]. split; [done|]. intros r _ Hp. by rewrite E1 in Hp. }
  destruct (negb _) eqn:E2.
  { apply negb_true_iff, bool_decide_eq_false in E2. intros w [_ Hs]. by split. }
  unfold required.
  destruct (production_quiet H rnd procRead procLink selfPid control groupAccess config selected Hvalid id record Hid)
    as [Q1 _ Q3 Q4 _ _].
  set (Q := λ (res : result ClientStore.ClientRecord) fs, settles config [id] fs0 fs ∧
       ∀ r, res = Ok r → ClientStore.Status r0 = ClientStatusRevocationPending → finished ClientStatusRevoked id r0 fs).
  assert (∀ {A} (m : HM A) (k : A → HM _) E E',
    quiet ClientsDirectory id m → moves (settles config [id]) m →
    htriple E m (λ res fs, ∀ a, res = Ok a → E' fs) →
    (∀ a, htriple (λ fs, under id r0 fs0 fs ∧ E' fs) (k a) Q) →
    htriple (λ fs, under id r0 fs0 fs ∧ E fs) (m ≫= k) Q) as Hseq.
  { intros A m k E E' Hq Hm HE Hk. eapply (htriple_bind _ _ (λ _ fs, under id r0 fs0 fs ∧ E' fs)); [|exact Hk].
    eapply htriple_weaken; [by apply (step_under id r0 fs0 m E E')|done|]. intros [a|e] fs [Hs Hx]; [by apply (Hx a)|by split]. }
  apply (htriple_weaken _ (λ fs, under id r0 fs0 fs ∧ True) _ Q Q); [|by intros fs|done].
  apply (Hseq _ _ _ _ (λ fs, key_gone config (ClientStore.PublicKey r0) fs)); [by apply (Q1 removeKey)|apply removeKey_settles| |].
  { eapply htriple_weaken; [by apply removeKey_gone|done|]. intros res fs Hg [] ->. by apply Hg. }
  intros _. apply (Hseq _ _ _ _ (λ fs, key_gone config (ClientStore.PublicKey r0) fs ∧ client_ended id fs)).
  - apply quiet_enforce. split; intros f a b c [= <-]; [by apply (Q3 terminate)|by apply (Q4 verifyGone)].
  - unfold enforce. cbn [runHook enforcement productionEnforcement e_TerminateSession e_VerifySessionGone].
    frame; [apply terminate_settles|apply verifyGone_settles].
  - rewrite Hr. apply enforce_effect.
  - intros _. by apply finish_effect.
Qed.

(** ** The loops *)

(** Every client record is filed under its own identifier, as [StoreClient]
    files it. *)
Definition consistent fs : Prop :=
  ∀ id r, isHexID id = true → read_at fs id r → wf_client r ∧ ClientStore.ClientID r = id.

Definition ready fs r : Prop :=
  isHexID (ClientStore.ClientID r) = true ∧ stored ClientsDirectory (ClientStore.ClientID r) fs r.

Lemma listed_ready fs records :
  consistent fs → Forall2 (read_at fs) (clientIDs fs) records →
  NoDup (ClientStore.ClientID <$> records) ∧ Forall (ready fs) records ∧
  ∀ id r, isHexID id = true → read_at fs id r → r ∈ records ∧ ClientStore.ClientID r = id.
Proof.
  intros Hc Hl.
  assert (∀ id r, id ∈ clientIDs fs → read_at fs id r → ClientStore.ClientID r = id ∧ ready fs r) as Hrec.
  { intros id r [Hid _]%clientIDs_iff (raw & Hraw & Hr). destruct (Hc id r Hid) as [Hwf <-]; [by exists raw|].
    split; [done|]. split; [done|]. by exists raw. }
  assert (ClientStore.ClientID <$> records = clientIDs fs) as Hids.
  { clear -Hl Hrec. induction Hl as [|id r ids records Hr _ IH]; [done|]. cbn [fmap list_fmap]. f_equal.
    - apply (Hrec id); [by left|done].
    - apply IH. intros id' r' Hin. apply Hrec. by right. }
  split_and!.
  - rewrite Hids. apply NoDup_clientIDs.
  - apply List.Forall_forall. intros r (i & Hi)%list_elem_of_In%list_elem_of_lookup_1.
    eapply Forall2_lookup_r in Hi as (id & Hid & Hr); [|exact Hl]. apply (Hrec id); [|done]. by eapply list_elem_of_lookup_2.
  - intros id r Hid Hr. assert (id ∈ clientIDs fs) as Hin.
    { apply clientIDs_iff. split; [done|]. destruct Hr as (raw & Hraw & _). eauto. }
    split; [|by apply (Hrec id r)]. apply list_elem_of_lookup_1 in Hin as [i Hi].
    eapply Forall2_lookup_l in Hi as (r' & Hi' & Hr'); [|exact Hl]. apply list_elem_of_lookup_2 in Hi'.
    destruct Hr as (raw & Hraw & Hr), Hr' as (raw' & Hraw' & Hr'). assert (r = r') as -> by congruence. done.
Qed.

Lemma ready_settles ids fs fs' r :
  settles config ids fs fs' → ClientStore.ClientID r ∉ ids → ready fs r → ready fs' r.
Proof. intros Hs Hn [Hid Hr]. split; [done|]. by eapply settles_stored. Qed.

Lemma finished_settles status ids fs fs' id r :
  settles config ids fs fs' → isHexID id = true → id ∉ ids → finished status id r fs → finished status id r fs'.
Proof.
  intros Hs Hid Hn [(r' & Hr & Hst) [Hk He]]. split_and!; [|by apply Hs|by apply Hs].
  exists r'. split; [|done]. by eapply settles_stored.
Qed.

(** A loop that handles the records selected by [P], one client at a time. *)
Section loop.
Context (P : ClientStore.ClientRecord → Prop) `{!∀ r, Decision (P r)} (status : string).
Context (goal : ClientStore.ClientRecord → Prop).

(** What the loop has done after the records [l]. *)
Definition looped (l : list ClientStore.ClientRecord) fs0 fs : Prop :=
  settles config (ClientStore.ClientID <$> filter P l) fs0 fs.
Definition ended_all (l : list ClientStore.ClientRecord) fs : Prop :=
  ∀ r, r ∈ l → goal r → finished status (ClientStore.ClientID r) r fs.

Lemma not_later r l : NoDup (ClientStore.ClientID <$> r :: l) → ClientStore.ClientID r ∉ ClientStore.ClientID <$> filter P l.
Proof.
  intros [Hn _]%list.NoDup_cons (r' & E & Hin)%list_elem_of_fmap. apply Hn, list_elem_of_fmap. exists r'.
  by apply list_elem_of_filter in Hin as [_ ?].
Qed.

Lemma ready_rest r l fs0 fs1 :
  NoDup (ClientStore.ClientID <$> r :: l) → Forall (ready fs0) l →
  settles config [ClientStore.ClientID r] fs0 fs1 → Forall (ready fs1) l.
Proof.
  intros [Hn _]%list.NoDup_cons Hl Hs. rewrite List.Forall_forall in *. intros r' Hin. eapply ready_settles; [exact Hs| |by apply Hl].
  rewrite list_elem_of_singleton. intros E. apply Hn. rewrite <- E. apply list_elem_of_fmap. exists r'.
  split; [done|by apply list_elem_of_In].
Qed.

Lemma looped_skip r l fs0 fs :
  ¬ goal r → looped l fs0 fs → looped (r :: l) fs0 fs ∧ (ended_all l fs → ended_all (r :: l) fs).
Proof.
  intros Hr Hl. split.
  - unfold looped in *. eapply settles_weaken; [exact Hl|]. rewrite filter_cons. destruct (decide (P r)); set_solver.
  - intros Hall r' [-> |Hin]%elem_of_cons Hg; [done|by apply Hall].
Qed.

(** The program of one round. *)
Lemma loop_round {A} r l fs0 (m : HM A) (rest : HM (list error)) (g : error → error) :
  isHexID (ClientStore.ClientID r) = true → NoDup (ClientStore.ClientID <$> r :: l) → P r → Forall (ready fs0) l →
  htriple (λ fs, fs = fs0) m (λ res fs, settles config [ClientStore.ClientID r] fs0 fs ∧
    ∀ a, res = Ok a → goal r → finished status (ClientStore.ClientID r) r fs) →
  (∀ fs1, Forall (ready fs1) l →
     htriple (λ fs, fs = fs1) rest (λ res fs, looped l fs1 fs ∧ (res = Ok [] → ended_all l fs))) →
  htriple (λ fs, fs = fs0)
    (x ← htry m; errs ← rest; mret (match x with Ok _ => errs | Err e => g e :: errs end))
    (λ res fs, looped (r :: l) fs0 fs ∧ (res = Ok [] → ended_all (r :: l) fs)).
Proof.
  intros Hid Hn HP Hready Hm Hrest.
  eapply (htriple_bind _ _ (λ x fs, settles config [ClientStore.ClientID r] fs0 fs ∧
    ∀ a, x = Ok a → goal r → finished status (ClientStore.ClientID r) r fs)); [by apply htriple_try|].
  intros x. eapply (htriple_bind _ _ (λ errs fs, looped (r :: l) fs0 fs ∧
    ∀ a, errs = [] → x = Ok a → ended_all (r :: l) fs)).
  { intros w [Hs Hx]. pose proof (Hrest (files w) (ready_rest r l fs0 _ Hn Hready Hs) w eq_refl) as [Hl Hall].
    assert (looped (r :: l) fs0 (files (rest w).2)) as Hlp.
    { unfold looped. rewrite filter_cons_True by done. cbn [fmap list_fmap].
      etrans; eapply settles_weaken; [exact Hs|set_solver|exact Hl|set_solver]. }
    destruct (rest w) as [[errs|e] w']; (split; [exact Hlp|]); [|by intros [=]]. intros a -> ->.
    intros r' [-> |Hin]%elem_of_cons Hg; [|by apply Hall].
    eapply finished_settles; [exact Hl|done|by apply not_later|]. by eapply Hx. }
  intros errs. apply htriple_ret. intros fs [Hl Hall]. split; [done|]. destruct x as [a|e]; [|by intros [=]].
  intros Hok. apply Ok_inj in Hok as ->. by apply (Hall a).
Qed.

End loop.

(** *** Pending revocations *)

Definition revoking r : Prop := ClientStore.Status r = ClientStatusRevocationPending.
#[local] Instance revoking_dec r : Decision (revoking r).
Proof. unfold revoking. solve_decision. Defined.
Definition has_blob r : Prop := AuthorizedKeys.authorizedKeyBlob (ClientStore.PublicKey r) ≠ ""%string.

Let complete now (record : ClientStore.ClientRecord) : HM () :=
  if negb (eqs (ClientStore.Status record) ClientStatusRevocationPending) then mret ()
  else completePendingRevocation H rnd ClientsDirectory record now (Some removeKey) enforcement;; mret ().

Lemma pending_loop now records : ∀ fs0,
  NoDup (ClientStore.ClientID <$> records) → Forall (ready fs0) records →
  Forall (λ r, revoking r → has_blob r) records →
  htriple (λ fs, fs = fs0) (forEach (complete now) records)
    (λ res fs, looped revoking records fs0 fs ∧ (res = Ok [] → ended_all ClientStatusRevoked revoking records fs)).
Proof using CR Hhonest Hvalid.
  induction records as [|r l IH]; intros fs0 Hn Hready Hblob; cbn [forEach].
  { apply htriple_ret. intros fs ->. split; [unfold looped; done|]. intros _ r ?%elem_of_nil. done. }
  apply List.Forall_cons_iff in Hready as [[Hid Hr] Hready], Hblob as [Hb Hblob].
  assert (NoDup (ClientStore.ClientID <$> l)) as Hn' by (by apply list.NoDup_cons in Hn as [_ ?]).
  destruct (decide (revoking r)) as [HP|HP].
  - apply (loop_round revoking ClientStatusRevoked revoking r l fs0 _ _ (λ e, EMsg ("client " ++ ClientStore.ClientID r ++ ": " ++ errText e)));
      [done|done|done|done| |].
    + unfold complete, eqs. rewrite bool_decide_eq_true_2 by done. cbn [negb].
      eapply (htriple_bind _ _ (λ _ fs, settles config [ClientStore.ClientID r] fs0 fs ∧
        finished ClientStatusRevoked (ClientStore.ClientID r) r fs)).
      * eapply htriple_weaken; [apply (complete_effect r now r fs0 Hid (Hb HP))|by intros fs ->|].
        intros [x|e] fs [Hs Hx]; (split; [done|]); [by eapply Hx|done].
      * intros _. apply htriple_ret. intros fs [Hs Hf]. by split.
    + intros fs1 Hr1. by apply IH.
  - assert (complete now r = mret ()) as ->.
    { unfold complete, eqs. by rewrite bool_decide_eq_false_2. }
    intros w Hw. pose proof (IH fs0 Hn' Hready Hblob w Hw) as [Hl Hall].
    destruct (looped_skip revoking ClientStatusRevoked revoking r l _ _ HP Hl) as [H1 H2].
    change ((htry (mret ()) ≫= _) w) with
      ((errs ← forEach (complete now) l; mret errs) w). unfold mbind, HM_bind.
    destruct (forEach (complete now) l w) as [[errs|e] w']; (split; [exact H1|]); [|by intros [=]].
    intros Hok. apply H2, Hall. exact Hok.
Qed.

(** *** Due grants *)

Definition expirable_record r : Prop := expirable (ClientStore.Status r) = true.

(** The grants an expiry at [now] must end. *)
Definition due now r : Prop :=
  ∃ t, ClientStore.AuthorizationNotAfter r ≠ ""%string ∧ Grant.ParseUTC (ClientStore.AuthorizationNotAfter r) = Ok t ∧
    (ClientStore.Status r = ClientStatusExpirationPending ∨
     (ClientStore.Status r = ClientStatusActive ∨ ClientStore.Status r = ClientStatusRotationPending) ∧
     Grant.ReadyToExpire t now = true).

Lemma due_expirable now r : due now r → expirable_record r.
Proof. intros (t & _ & _ & [E|[[E|E] _]]); unfold expirable_record; by rewrite E. Qed.

Lemma expire_loop now records : ∀ fs0,
  NoDup (ClientStore.ClientID <$> records) → Forall (ready fs0) records →
  htriple (λ fs, fs = fs0) (expireDue H ClientsDirectory now ops records)
    (λ res fs, looped expirable_record records fs0 fs ∧
               (res = Ok [] → ended_all ClientStatusExpired (due now) records fs)).
Proof using CR Hhonest Hvalid.
  induction records as [|r l IH]; intros fs0 Hn Hready; cbn [expireDue].
  { apply htriple_ret. intros fs ->. split; [unfold looped; done|]. intros _ r ?%elem_of_nil. done. }
  apply List.Forall_cons_iff in Hready as [[Hid Hr] Hready].
  assert (NoDup (ClientStore.ClientID <$> l)) as Hn' by (by apply list.NoDup_cons in Hn as [_ ?]).
  assert (¬ due now r → htriple (λ fs, fs = fs0) (expireDue H ClientsDirectory now ops l)
    (λ res fs, looped expirable_record (r :: l) fs0 fs ∧
               (res = Ok [] → ended_all ClientStatusExpired (due now) (r :: l) fs))) as Hskip.
  { intros Hd. eapply htriple_weaken; [by apply (IH fs0)|done|]. intros res fs [Hl Hall].
    destruct (looped_skip expirable_record ClientStatusExpired (due now) r l _ _ Hd Hl) as [H1 H2]. auto. }
  assert (expirable (ClientStore.Status r) = negb (negb (eqs (ClientStore.Status r) ClientStatusActive)
    && negb (eqs (ClientStore.Status r) ClientStatusExpirationPending)
    && negb (eqs (ClientStore.Status r) ClientStatusRotationPending))) as Hexp
    by (unfold expirable; rewrite !negb_andb, !negb_involutive; done).
  destruct (negb _ && _ && _).
  { apply Hskip. intros Hd%due_expirable. unfold expirable_record in Hd. by rewrite Hexp in Hd. }
  destruct (eqs (ClientStore.AuthorizationNotAfter r) "") eqn:He.
  { apply bool_decide_eq_true in He. apply Hskip. by intros (t & Hne & _). }
  destruct (Grant.ParseUTC _) as [t|e] eqn:Ht.
  2:{ apply htriple_fail. intros fs ->. split; [by unfold looped|done]. }
  destruct (negb (eqs (ClientStore.Status r) ClientStatusExpirationPending) && _) eqn:Hready'.
  { apply andb_true_iff in Hready' as [H1%negb_true_iff%bool_decide_eq_false H2%negb_true_iff].
    apply Hskip. intros (t' & _ & Ht' & [E|[_ E]]); congruence. }
  apply (loop_round expirable_record ClientStatusExpired (due now) r l fs0 _ _
    (λ e, EMsg ("client " ++ ClientStore.ClientID r ++ ": " ++ errText e)));
    [done|done|done|done| |intros fs1 Hr1; by apply IH].
  intros w Hw. split.
  - apply (ExpireClient_settles (ClientStore.ClientID r) now r r fs0 Hid w). rewrite Hw. by split.
  - intros r' Hok (t' & _ & _ & Hst).
    destruct (ExpireClient_effect H rnd procRead procLink selfPid control groupAccess config selected Hhonest Hvalid
      (ClientStore.ClientID r) now r r Hid w ltac:(by rewrite Hw) r' Hok) as (Hs & Hst' & Heff).
    split; [by exists r'|]. apply Heff. intros E. rewrite E in Hst. by destruct Hst as [?|[[?|?] _]].
Qed.

(** ** Both loops *)

Lemma joinErrors_Ok errs : joinErrors errs = Ok () → errs = [].
Proof. by destruct errs. Qed.

Lemma not_revoking_expirable r : revoking r → ¬ expirable_record r.
Proof. unfold revoking, expirable_record. by intros ->. Qed.

Lemma pending_phase now fs0 :
  consistent fs0 → (∀ id r, isHexID id = true → read_at fs0 id r → revoking r → has_blob r) →
  htriple (λ fs, fs = fs0)
    (ReconcilePendingRevocations H rnd ClientsDirectory now (Some removeKey) enforcement)
    (λ res fs, res = Ok () → consistent fs ∧ ∀ id r, isHexID id = true → read_at fs0 id r →
       (revoking r → finished ClientStatusRevoked id r fs) ∧ (¬ revoking r → read_at fs id r)).
Proof using CR Hhonest Hvalid.
  intros Hc Hb. unfold ReconcilePendingRevocations.
  eapply (htriple_bind _ _ (λ records fs, fs = fs0 ∧ Forall2 (read_at fs0) (clientIDs fs0) records)).
  { eapply htriple_weaken; [by apply (ListClients_spec H fs0)|done|]. intros [l|e] fs [-> Hl]; [auto|done]. }
  intros records w [Hw Hl]. destruct (listed_ready fs0 records Hc Hl) as (Hn & Hready & Hall).
  assert (Forall (λ r, revoking r → has_blob r) records) as Hblob.
  { rewrite List.Forall_forall in *. intros r [Hid (raw & Hraw & Hr & _)]%Hready. eapply Hb; [exact Hid|by exists raw]. }
  pose proof (pending_loop now records fs0 Hn Hready Hblob w Hw) as [Hlp Hdone]. fold complete.
  fold (complete now). unfold mbind, HM_bind. destruct (forEach (complete now) records w) as [[errs|e] w']; [|done].
  cbn [fst snd hlift] in *. intros ->%joinErrors_Ok. specialize (Hdone eq_refl).
  assert (∀ id r, isHexID id = true → read_at fs0 id r →
    (revoking r → finished ClientStatusRevoked id r (files w')) ∧ (¬ revoking r → read_at (files w') id r)) as Hend.
  { intros id r Hid Hr. destruct (Hall id r Hid Hr) as [Hin <-]. split; [by apply Hdone|]. intros Hnr.
    destruct Hr as (raw & Hraw & Hd). exists raw. split; [|done]. rewrite <- Hraw. apply Hlp; [done|].
    intros (r' & E & [Hr' Hin']%list_elem_of_filter)%list_elem_of_fmap.
    rewrite List.Forall_forall in Hready. apply list_elem_of_In, Hready in Hin' as [_ (raw' & Hraw' & Hd' & _)].
    rewrite <- E in Hraw'. assert (raw' = raw) as -> by congruence. assert (r' = r) as -> by congruence. done. }
  split; [|done]. intros id r Hid (raw & Hraw & Hd).
  destruct (decide (id ∈ ClientStore.ClientID <$> filter revoking records)) as [Hin|Hin].
  - apply list_elem_of_fmap in Hin as (r' & -> & [Hr' Hin]%list_elem_of_filter).
    destruct (Hdone r' Hin Hr') as [(r2 & (raw2 & Hraw2 & Hd2 & Hwf & Heq) & _) _].
    assert (raw2 = raw) as -> by congruence. assert (r2 = r) as -> by congruence. done.
  - apply (Hc id r Hid). exists raw. split; [|done]. rewrite <- Hraw. symmetry. by apply Hlp.
Qed.

Lemma expire_phase now fs0 :
  consistent fs0 →
  htriple (λ fs, fs = fs0) (ReconcileExpiredClients H ClientsDirectory now ops)
    (λ res fs, res = Ok () → (∀ id r, isHexID id = true → read_at fs0 id r → due now r →
         finished ClientStatusExpired id r fs) ∧
       ∀ id r r', isHexID id = true → stored ClientsDirectory id fs0 r → ¬ expirable_record r →
         finished (ClientStore.Status r) id r' fs0 → finished (ClientStore.Status r) id r' fs).
Proof using CR Hhonest Hvalid.
  intros Hc. unfold ReconcileExpiredClients.
  eapply (htriple_bind _ _ (λ records fs, fs = fs0 ∧ Forall2 (read_at fs0) (clientIDs fs0) records)).
  { eapply htriple_weaken; [by apply (ListClients_spec H fs0)|done|]. intros [l|e] fs [-> Hl]; [auto|done]. }
  intros records w [Hw Hl]. destruct (listed_ready fs0 records Hc Hl) as (Hn & Hready & Hall).
  pose proof (expire_loop now records fs0 Hn Hready w Hw) as [Hlp Hdone].
  unfold mbind, HM_bind. destruct (expireDue H ClientsDirectory now ops records w) as [[errs|e] w']; [|done].
  cbn [fst snd hlift] in *. intros ->%joinErrors_Ok. specialize (Hdone eq_refl). split.
  - intros id r Hid Hr Hdue. destruct (Hall id r Hid Hr) as [Hin <-]. by apply Hdone.
  - intros id r r' Hid (raw & Hraw & Hd & _) Hne. eapply finished_settles; [exact Hlp|done|].
    intros (r2 & -> & [Hr2 Hin]%list_elem_of_filter)%list_elem_of_fmap.
    rewrite List.Forall_forall in Hready. apply list_elem_of_In, Hready in Hin as [_ (raw2 & Hraw2 & Hd2 & _)].
    assert (raw2 = raw) as -> by congruence. assert (r2 = r) as -> by congruence. done.
Qed.

Lemma reconcile_spec now w :
  consistent (files w) → (∀ id r, isHexID id = true → read_at (files w) id r → revoking r → has_blob r) →
  let '(res, w') := reconcileExpiredGrants H rnd procRead procLink selfPid control groupAccess config now w in
  res = Ok () → ∀ id r, isHexID id = true → read_at (files w) id r →
    (revoking r → finished ClientStatusRevoked id r (files w')) ∧
    (due now r → finished ClientStatusExpired id r (files w')).
Proof using CR Hhonest Hvalid.
  intros Hc Hb. pose proof (pending_phase now (files w) Hc Hb w eq_refl) as Hp.
  unfold reconcileExpiredGrants, mbind, HM_bind. fold removeKey enforcement ops.
  destruct (ReconcilePendingRevocations _ _ _ _ _ _ w) as [[[]|e] w1]; [|done]. cbn [fst snd] in Hp.
  destruct (Hp eq_refl) as [Hc1 Hrec]. pose proof (expire_phase now (files w1) Hc1 w1 eq_refl) as He.
  destruct (ReconcileExpiredClients _ _ _ _ w1) as [res w']. cbn [fst snd] in He. intros ->.
  destruct (He eq_refl) as [Hdue Hkeep]. intros id r Hid Hr. destruct (Hrec id r Hid Hr) as [H1 H2]. split.
  - intros Hrev. destruct (H1 Hrev) as [(r' & Hs & Hst) [Hk Hend]].
    assert (finished ClientStatusRevoked id r (files w1)) as Hf by (by split; [exists r'|]).
    rewrite <- Hst in Hf |- *. apply Hkeep; [done|done| |done]. unfold expirable_record. by rewrite Hst.
  - intros Hd. apply (Hdue id r Hid); [|done]. apply H2. intros Hrev. by apply (not_revoking_expirable r Hrev), (due_expirable now).
Qed.

End steps.

