(* ===== verification/ReconcileKeys.v ===== *)
(** * Who may authenticate after a reconciliation

    The authorized-keys file [reconcileManagedAuthorizations] writes, read
    back by the data plane: the keys of exactly the usable client records.
    Also the fail-close of a host whose clock went back, and when a tick of
    the reconcile loop acts. *)

From S2P Require Import Prelude GoStd Json StrictJson Time Text Host Locator Grant GrantProps SshWire Crypto Packet.
From S2P Require Import Kex Listen ClientStore ClientCodec Server ServerProps Clients ClientProps AuthorizedKeys.
From S2P Require Import GrantSession SessionProps Reconcile Frame Layout ReconcileProps ReconcileLoop.
Import Time Json Netip Locator Server Wire Kex Clients Reconcile.

(** A value that satisfies a pure fact. *)
Lemma htriple_bind_pure {A B} (P : gmap string bytes → Prop) (m : HM A) (φ : A → Prop) (f : A → HM B) Q :
  htriple P m (λ r fs, match r with Ok a => P fs ∧ φ a | Err e => Q (Err e) fs end) →
  (∀ a, φ a → htriple P (f a) Q) → htriple P (m ≫= f) Q.
Proof.
  intros Hm Hf. apply (htriple_bind _ _ (λ a fs, P fs ∧ φ a)); [done|]. intros a w [Hw Ha]. by apply Hf.
Qed.

(** ** The line of a record *)

Lemma trimNewlines_line l : bz 10 ∉ l → AuthorizedKeys.trimNewlines (l ++ [bz 10]) = to_string l.
Proof.
  intros Hl. unfold AuthorizedKeys.trimNewlines. rewrite reverse_snoc. cbn [AuthorizedKeys.drop_newlines].
  change (zb (bz 10) =? 10) with true. cbv iota.
  assert (AuthorizedKeys.drop_newlines (reverse l) = reverse l) as ->; [|by rewrite reverse_involutive].
  destruct (reverse l) as [|x r] eqn:Hr; [done|]. cbn. destruct (zb x =? 10) eqn:E; [|done]. zbool. exfalso. apply Hl.
  rewrite <- elem_of_reverse, Hr, <- E, bz_zb. by left.
Qed.

Section line.
Context (target : AddrPort).
Hypothesis Htarget : IsValid (ap_addr target) = true ∧ Zone (ap_addr target) = ""%string.

Lemma blob_of_line e :
  entry_key e → AuthorizedKeys.authorizedKeyBlob (to_string (managedLine target e)) = e.1.
Proof using Htarget.
  intros He. pose proof (line_words target Htarget e He) as Hw. unfold AuthorizedKeys.authorizedKeyBlob.
  assert (Strings.trim_space (to_string (managedLine target e)) = to_string (managedLine target e)) as ->.
  { unfold managedLine. change [?a; ?b; ?c; ?d] with (a :: [b; c] ++ [d]). by apply trim_spaced. }
  unfold managedLine at 1. rewrite fields_spaced by done. cbn [fmap list_fmap]. rewrite !to_string_bytes.
  assert (Strings.has_prefix (to_string (optionsField target e.2)) "restrict" = true) as ->.
  { unfold Strings.has_prefix. rewrite to_bytes_string. by apply bool_decide_eq_true_2. }
  by rewrite orb_true_r.
Qed.

Lemma render_file entries :
  Forall entry_key entries →
  AuthorizedKeys.renderLines (to_string <$> (managedLine target <$> entries)) = managedFile target entries.
Proof using Htarget.
  unfold AuthorizedKeys.renderLines, managedFile, unlines. induction 1 as [|e l He _ IH]; [done|].
  cbn [fmap list_fmap concat]. rewrite AuthorizedKeys.renderLine_plain, to_bytes_string.
  - by rewrite IH.
  - rewrite to_bytes_string. by apply line_no_newline.
Qed.

End line.

Section entries.
Context (H : hostEnv) (config : Config) (selected : Profile.Profile).
Hypothesis Hvalid : validate config = Ok selected.
Implicit Types (r : ClientStore.ClientRecord) (fs : gmap string bytes).

Let target := AddrPortFrom (e_Address (Target config)) (e_Port (Target config) mod 2 ^ 16).

Lemma host_target_numeric : IsValid (ap_addr target) = true ∧ Zone (ap_addr target) = ""%string.
Proof using Hvalid.
  destruct (validate_Ok config selected Hvalid) as (_ & _ & Ht & _). unfold target. cbn [ap_addr].
  revert Ht. unfold validateEndpoint, Server.eqs. destruct (IsValid _); cbn [negb]; [|done].
  destruct (bool_decide_reflect (Zone (e_Address (Target config)) = ""%string)); [done|by cbn].
Qed.

(** The raw key a record's public-key line carries. *)
Definition carries r (raw : bytes) : Prop :=
  plainKeyBlob config (to_bytes (ClientStore.PublicKey r)) =
    Ok (Algorithm, Base64.encode_to_string (SshWire.key_blob Algorithm raw)).

Lemma plainKeyBlob_Ok key alg blob :
  plainKeyBlob config key = Ok (alg, blob) →
  alg = Algorithm ∧ ∃ raw, blen raw = Profile.RawPublicKeyBytes Profile.current ∧
    blob = Base64.encode_to_string (SshWire.key_blob Algorithm raw).
Proof using Hvalid.
  pose proof (selected_current config selected Hvalid) as Hs. unfold plainKeyBlob. rewrite Hvalid, Hs.
  case_bool_decide; [done|]. destruct (_ <? _); [done|]. intros (line & _ & Hr)%bind_Ok.
  destruct (Strings.fields _) as [|kind [|b rest]]; [done..|]. destruct (negb _); [done|].
  destruct (SshWire.ValidatePublicKeyBlob _ _ _) as [[]|] eqn:Hv; [|done]. apply Ok_inj in Hr. injection Hr as <- <-.
  split; [done|]. by apply blob_valid.
Qed.

Lemma render_entry r t line :
  RenderAuthorizedKeyForTarget config (to_bytes (ClientStore.PublicKey r)) target t = Ok line →
  ∃ raw, carries r raw ∧
    let e : entry := (Base64.encode_to_string (SshWire.key_blob Algorithm raw), t) in
    entry_key e ∧ line = managedLine target e ++ [bz 10].
Proof using Hvalid.
  unfold RenderAuthorizedKeyForTarget. intros ([alg blob] & Hp & Hr)%bind_Ok.
  destruct (plainKeyBlob_Ok _ _ _ Hp) as (-> & raw & Hlen & ->). exists raw. split; [done|].
  assert (IsZero t = false) as Hz.
  { destruct (IsZero t) eqn:Hz; [|done]. unfold renderManagedAuthorizedKeyForTarget, managedAuthorizedKeyPrefixForTarget in Hr.
    by rewrite Hz in Hr. }
  rewrite render_line in Hr by done. apply Ok_inj in Hr as <-. split; [|done]. split; [by exists raw|done].
Qed.

(** The entry made for a record at some instant the clock showed. *)
Definition made_for r (e : entry) : Prop :=
  ∃ raw n, carries r raw ∧ e.1 = Base64.encode_to_string (SshWire.key_blob Algorithm raw) ∧
    Grant.ParseUTC (ClientStore.AuthorizationNotAfter r) = Ok e.2 ∧ usable (h_now H n) r.

(** The records usable at every instant the clock shows. *)
Definition always_usable r : Prop := ∀ n, usable (h_now H n) r.

Definition entries_for (records : list ClientStore.ClientRecord) (seen : list string) (entries : list entry) : Prop :=
  Forall entry_key entries ∧ Forall (λ e, ∃ r, r ∈ records ∧ made_for r e) entries ∧
  ∀ r, r ∈ records → always_usable r → ∃ raw, carries r raw ∧
    Base64.encode_to_string (SshWire.key_blob Algorithm raw) ∈ seen ++ entries.*1.

Lemma entries_skip r records seen entries :
  (always_usable r → ∃ raw, carries r raw ∧ Base64.encode_to_string (SshWire.key_blob Algorithm raw) ∈ seen) →
  entries_for records seen entries → entries_for (r :: records) seen entries.
Proof.
  intros Hr (H1 & H2 & H3). split; [done|split].
  - eapply List.Forall_impl; [|exact H2]. intros e (r' & Hin & He). exists r'. split; [by right|done].
  - intros r' [-> |Hin]%elem_of_cons Hu; [|by apply H3]. destruct (Hr Hu) as (raw & Hc & Hs). exists raw.
    split; [done|]. apply elem_of_app. by left.
Qed.

Lemma authorizedEntries_spec records : ∀ seen fs0,
  htriple (λ fs, fs = fs0) (authorizedEntries H config records seen)
    (λ res fs, fs = fs0 ∧ ∀ lines, res = Ok lines → ∃ entries,
       lines = to_string <$> (managedLine target <$> entries) ∧ entries_for records seen entries).
Proof using Hvalid.
  induction records as [|r records IH]; intros seen fs0; cbn [authorizedEntries].
  { apply htriple_ret. intros fs ->. split; [done|]. intros lines [= <-]. exists [].
    split; [done|]. split; [constructor|split; [constructor|]]. intros r ?%elem_of_nil. done. }
  assert (∀ e, htriple (λ fs, fs = fs0) (hfail e) (λ (res : result (list string)) fs, fs = fs0 ∧ ∀ lines, res = Ok lines →
    ∃ entries, lines = to_string <$> (managedLine target <$> entries) ∧ entries_for (r :: records) seen entries)) as Hfail
    by (intros e; apply htriple_fail; by intros fs ->).
  assert ((always_usable r → ∃ raw, carries r raw ∧ Base64.encode_to_string (SshWire.key_blob Algorithm raw) ∈ seen) →
    htriple (λ fs, fs = fs0) (authorizedEntries H config records seen)
      (λ res fs, fs = fs0 ∧ ∀ lines, res = Ok lines → ∃ entries,
        lines = to_string <$> (managedLine target <$> entries) ∧ entries_for (r :: records) seen entries)) as Hskip.
  { intros Hu. eapply htriple_weaken; [apply (IH seen fs0)|done|]. intros res fs [-> Hl]. split; [done|].
    intros lines Hok. destruct (Hl lines Hok) as (entries & -> & He). exists entries. split; [done|]. by apply entries_skip. }
  destruct (eqs _ ClientStatusActive || eqs _ ClientStatusRotationPending) eqn:Hst.
  2:{ destruct (_ || _ || _ || _ || _); [|apply Hfail]. apply Hskip. intros Hu. exfalso.
      apply orb_false_iff in Hst as [H1%bool_decide_eq_false H2%bool_decide_eq_false].
      destruct (Hu 0%nat) as [[?|?] _]; done. }
  destruct (eqs (ClientStore.AuthorizationNotAfter r) "") eqn:Hna.
  { apply bool_decide_eq_true in Hna. apply Hskip. intros Hu. exfalso. destruct (Hu 0%nat) as (_ & t & Ht & _).
    rewrite Hna in Ht. destruct ParseUTC_empty as [e He]. congruence. }
  destruct (Grant.ParseUTC _) as [t|e] eqn:Ht; [|apply Hfail].
  apply (htriple_bind_pure _ _ (λ now, ∃ n, now = h_now H n)); [intros w Hw; split; [exact Hw|by eexists]|].
  intros now [n ->].
  destruct (Grant.ReadyToExpire t (h_now H n)) eqn:Hexp.
  { apply Hskip. intros Hu. exfalso. destruct (Hu n) as (_ & t' & Ht' & Hx). congruence. }
  assert (usable (h_now H n) r) as Hus.
  { split; [|by exists t]. apply orb_true_iff in Hst as [H1|H1]; apply bool_decide_eq_true in H1; auto. }
  destruct (grantTarget r) as [gt|e]; [|apply Hfail]. cbv zeta. fold target.
  destruct (bool_decide_reflect (gt = target)) as [-> |]; cbn [negb]; [|apply Hfail].
  destruct (RenderAuthorizedKeyForTarget _ _ _ _) as [line|e] eqn:Hl; [|apply Hfail].
  destruct (render_entry r t line Hl) as (raw & Hc & He & ->). clear Hl.
  set (e := (Base64.encode_to_string (SshWire.key_blob Algorithm raw), t)) in *. cbv zeta in He.
  rewrite trimNewlines_line by (apply line_no_newline; [apply host_target_numeric|done]).
  rewrite blob_of_line by (done || apply host_target_numeric).
  destruct (bool_decide_reflect (e.1 ∈ seen)) as [Hin|Hin]; [by apply Hskip; eauto|].
  eapply (htriple_bind _ _ (λ lines fs, fs = fs0 ∧ ∃ entries,
    lines = to_string <$> (managedLine target <$> entries) ∧ entries_for records (e.1 :: seen) entries)).
  { eapply htriple_weaken; [apply (IH (e.1 :: seen) fs0)|done|]. intros [l|x] fs [-> Hx]; [split; [done|by apply Hx]|done]. }
  intros lines. apply htriple_ret. intros fs (-> & entries & -> & H1 & H2 & H3). split; [done|].
  intros lines Hok. apply Ok_inj in Hok as <-. exists (e :: entries). split; [done|].
  split; [by constructor|split].
  - constructor.
    + exists r. split; [by left|]. exists raw, n. by split_and!.
    + eapply List.Forall_impl; [|exact H2]. intros e' (r' & Hin' & He'). exists r'. split; [by right|done].
  - intros r' [-> |Hin']%elem_of_cons Hu.
    + exists raw. split; [done|]. apply elem_of_app. right. by left.
    + destruct (H3 r' Hin' Hu) as (raw' & Hc' & Hs). exists raw'. split; [done|].
      rewrite fmap_cons. clearbody e. revert Hs. rewrite !elem_of_app, !elem_of_cons. tauto.
Qed.

End entries.

Lemma key_text_inj raw raw' :
  Base64.encode_to_string (SshWire.key_blob Algorithm raw) = Base64.encode_to_string (SshWire.key_blob Algorithm raw') →
  raw = raw'.
Proof.
  intros E. assert (SshWire.key_blob Algorithm raw = SshWire.key_blob Algorithm raw') as Hb.
  { apply (f_equal (Base64.decode true)) in E. rewrite !Base64.decode_encode in E. by apply Ok_inj in E. }
  unfold SshWire.key_blob in Hb. rewrite !(SshWire.AppendString_app (SshWire.AppendString _ _)) in Hb.
  apply app_inv_head in Hb. unfold SshWire.AppendString in Hb. rewrite !app_nil_l in Hb.
  apply app_inj_1 in Hb as [_ Hb]; [done|].
  pose proof (BigEndian.blen_put32 (wrap32 (blen raw))). pose proof (BigEndian.blen_put32 (wrap32 (blen raw'))). unfold blen in *.
  lia.
Qed.

(** ** The file *)

Section authorizations.
Context (H : hostEnv) (config : Config) (selected : Profile.Profile).
Hypothesis (Hhonest : honest H) (Hvalid : validate config = Ok selected).
Implicit Types (r : ClientStore.ClientRecord) (fs : gmap string bytes).

(** The keys the data plane reads from a file with these entries. *)
Lemma keys_of_entries records entries :
  let target := AddrPortFrom (e_Address (Target config)) (e_Port (Target config) mod 2 ^ 16) in
  entries_for H config records [] entries →
  ∃ keys, authorizedRawKeys (managedFile target entries) = Ok keys ∧
    (∀ raw, raw ∈ keys → ∃ r n, r ∈ records ∧ carries config r raw ∧ usable (h_now H n) r) ∧
    (∀ r, r ∈ records → always_usable H r → ∃ raw, carries config r raw ∧ raw ∈ keys).
Proof using Hvalid.
  intros target (H1 & H2 & H3).
  destruct (rawKeys_managed target (host_target_numeric config selected Hvalid) entries H1) as (keys & Hk & Hread).
  exists keys. split_and!; [done| |].
  - intros raw (i & Hi)%list_elem_of_lookup_1. eapply Forall2_lookup_r in Hi as (e & He & Hraw); [|exact Hk].
    rewrite List.Forall_forall in H2. apply list_elem_of_lookup_2, list_elem_of_In, H2 in He as (r & Hin & raw' & n & Hc & E & _ & Hu).
    assert (raw = raw') as -> by (apply key_text_inj; unfold entry_raw in Hraw; congruence). eauto.
  - intros r Hin Hu. destruct (H3 r Hin Hu) as (raw & Hc & Hs). exists raw. split; [done|].
    cbn [app] in Hs. apply list_elem_of_fmap in Hs as (e & E & (i & Hi)%list_elem_of_lookup_1).
    eapply Forall2_lookup_l in Hi as (raw' & Hi' & Hraw); [|exact Hk].
    assert (raw = raw') as -> by (apply key_text_inj; unfold entry_raw in Hraw; congruence). by eapply list_elem_of_lookup_2.
Qed.

(** What the body leaves, whatever the files it starts from. *)
Lemma authorizations_body fs0 :
  htriple (λ fs, fs = fs0)
    (records ← ListClients H ClientsDirectory;
     lines ← authorizedEntries H config records [];
     AuthorizedKeys.writeAuthorizedKeyLines H (AuthorizedKeysPath config) lines)
    (λ res fs, res = Ok () → ∃ contents keys,
       fs !! AuthorizedKeysPath config = Some contents ∧ authorizedRawKeys contents = Ok keys ∧
       (∀ raw, raw ∈ keys → ∃ id r n, isHexID id = true ∧ read_at fs0 id r ∧ carries config r raw ∧ usable (h_now H n) r) ∧
       (∀ id r, isHexID id = true → read_at fs0 id r → always_usable H r → ∃ raw, carries config r raw ∧ raw ∈ keys)).
Proof using Hhonest Hvalid.
  apply (htriple_bind_pure _ _ (λ records, Forall2 (read_at fs0) (clientIDs fs0) records)).
  { eapply htriple_weaken; [by apply (ListClients_spec H fs0)|done|]. intros [l|e] fs [-> Hl]; [auto|done]. }
  intros records Hl. set (target := AddrPortFrom (e_Address (Target config)) (e_Port (Target config) mod 2 ^ 16)).
  apply (htriple_bind_pure _ _ (λ lines, ∃ entries, lines = to_string <$> (managedLine target <$> entries) ∧
    entries_for H config records [] entries)).
  { eapply htriple_weaken; [apply (authorizedEntries_spec H config selected Hvalid records [] fs0)|done|].
    intros [l|e] fs [-> Hx]; [split; [done|by apply Hx]|done]. }
  intros lines (entries & -> & He). destruct (keys_of_entries records entries He) as (keys & Hk & Hsound & Hall).
  eapply htriple_weaken;
    [apply (AuthorizedKeys.writeLines_contents H _ (keysPath_not_temp config selected Hvalid H))|done|].
  intros res fs Hw Hok. specialize (Hw Hok). rewrite render_file in Hw;
    [|apply (host_target_numeric config selected Hvalid)|apply He].
  exists (managedFile target entries), keys. split_and!; [done|done| |].
  - intros raw (r & n & Hin & Hc & Hu)%Hsound. apply list_elem_of_lookup_1 in Hin as [i Hi].
    eapply Forall2_lookup_r in Hi as (id & Hid & Hr); [|exact Hl]. exists id, r, n. split_and!; [|done..].
    apply list_elem_of_lookup_2, clientIDs_iff in Hid. apply Hid.
  - intros id r Hid Hr Hu. apply Hall; [|done]. assert (id ∈ clientIDs fs0) as Hin.
    { apply clientIDs_iff. split; [done|]. destruct Hr as (raw & Hraw & _). eauto. }
    apply list_elem_of_lookup_1 in Hin as [i Hi]. eapply Forall2_lookup_l in Hi as (r' & Hi' & Hr'); [|exact Hl].
    destruct Hr as (raw & Hraw & Hr), Hr' as (raw' & Hraw' & Hr'). assert (r = r') as -> by congruence.
    by eapply list_elem_of_lookup_2.
Qed.

End authorizations.

(** C18: after a reconciliation exactly the usable grants can authenticate.
    When [reconcileManagedAuthorizations] reports success, the data plane
    reads the new authorized-keys file, every key it reads is the key of a
    client record on disk that was active or rotating and not past its end at
    an instant the clock showed, and the key of every record that is so at
    every instant is read. *)
Theorem authorizations_reconciled H config selected w :
  honest H → validate config = Ok selected →
  let '(res, w') := reconcileManagedAuthorizations H config w in
  res = Ok () → ∃ contents keys,
    files w' !! AuthorizedKeysPath config = Some contents ∧ authorizedRawKeys contents = Ok keys ∧
    (∀ raw, raw ∈ keys → ∃ id r n, isHexID id = true ∧ read_at (files w) id r ∧ carries config r raw ∧
       usable (h_now H n) r) ∧
    (∀ id r, isHexID id = true → read_at (files w) id r → (∀ n, usable (h_now H n) r) →
       ∃ raw, carries config r raw ∧ raw ∈ keys).
Proof.
  intros Hh Hv.
  assert (∀ fs id, isHexID id = true → outside (keysArea H (AuthorizedKeysPath config)) (files w) fs →
    fs !! clientPath ClientsDirectory id = files w !! clientPath ClientsDirectory id) as Hsame.
  { intros fs id Hid Ho. apply Ho. intros Hk%(keysArea_below config selected Hv).
    eapply clients_not_keys; [|exact Hk]. rewrite clientPath_eq by done. by eexists. }
  assert (∀ fs id r, isHexID id = true → outside (keysArea H (AuthorizedKeysPath config)) (files w) fs →
    read_at fs id r ↔ read_at (files w) id r) as Hread by (intros fs id r Hid Ho; unfold read_at; by rewrite (Hsame fs id)).
  set (Q := λ (res : result ()) (fs : gmap string bytes), res = Ok () → ∃ contents keys,
    fs !! AuthorizedKeysPath config = Some contents ∧ authorizedRawKeys contents = Ok keys ∧
    (∀ raw, raw ∈ keys → ∃ id r n, isHexID id = true ∧ read_at (files w) id r ∧ carries config r raw ∧ usable (h_now H n) r) ∧
    (∀ id r, isHexID id = true → read_at (files w) id r → (∀ n, usable (h_now H n) r) → ∃ raw, carries config r raw ∧ raw ∈ keys)).
  assert (htriple (outside (keysArea H (AuthorizedKeysPath config)) (files w)) (reconcileManagedAuthorizations H config) Q) as Ht.
  { apply withLock_rule_at; [| |by intros e fs _ [=]].
    { intros fs Ho _. etrans; [exact Ho|]. apply outside_insert. by right; left. }
    intros w1 Ho Hok. destruct (authorizations_body H config selected Hh Hv (files w1) w1 eq_refl Hok)
      as (contents & keys & Hf & Hk & Hsound & Hall).
    exists contents, keys. split_and!; [done|done| |].
    - intros raw (id & r & n & Hid & Hr & Hx)%Hsound. exists id, r, n. split_and!; [done|by apply (Hread (files w1))|apply Hx|apply Hx].
    - intros id r Hid Hr. apply (Hall id); [done|by apply Hread]. }
  specialize (Ht w ltac:(done)). by destruct (reconcileManagedAuthorizations H config w).
Qed.

(** ** When a tick acts *)

(** A grant that ends within a second, or whose end cannot be read. *)
Definition imminent (now : Time) (r : ClientStore.ClientRecord) : Prop :=
  expirable (ClientStore.Status r) = true ∧ ClientStore.AuthorizationNotAfter r ≠ ""%string ∧
  ∀ t, Grant.ParseUTC (ClientStore.AuthorizationNotAfter r) = Ok t → t ≤ now + Second.

Lemma Sub_le t u d : 0 ≤ d < 2 ^ 63 - 1 → u < t → (Sub t u ≤ d ↔ t ≤ u + d).
Proof. unfold Sub. lia. Qed.

Lemma delay_settled now records : ∀ delay, delay ≤ Second → reconcileDelay now records delay ≤ Second.
Proof.
  induction records as [|r l IH]; intros delay Hd; cbn [reconcileDelay]; [destruct (delay <? Second) eqn:E; zbool; lia|].
  destruct (negb _); [by apply IH|]. destruct (eqs _ ""); [by apply IH|]. destruct (Grant.ParseUTC _) as [t|]; [|lia].
  destruct (negb _); [lia|]. cbv zeta. apply IH. destruct (_ <? delay) eqn:E; zbool; lia.
Qed.

Lemma delay_imminent now records : ∀ delay, Second < delay →
  (reconcileDelay now records delay ≤ Second ↔ Exists (imminent now) records).
Proof.
  induction records as [|r l IH]; intros delay Hd; cbn [reconcileDelay].
  { rewrite (proj2 (Z.ltb_ge _ _)) by lia. split; [lia|by inversion 1]. }
  rewrite Exists_cons. unfold imminent at 1.
  destruct (expirable (ClientStore.Status r)); cbn [negb]; [|rewrite IH by done; naive_solver].
  destruct (bool_decide_reflect (ClientStore.AuthorizationNotAfter r = ""%string)) as [He|He];
    unfold eqs; [rewrite (bool_decide_eq_true_2 _ He), IH by done; naive_solver|].
  rewrite (bool_decide_eq_false_2 _ He). destruct (Grant.ParseUTC _) as [t|e] eqn:Ht; [|naive_solver lia].
  unfold After. destruct (now <? t) eqn:Hn; cbn [negb]; zbool.
  - cbv zeta. assert (Sub t now ≤ Second ↔ t ≤ now + Second) as Hsub by (apply Sub_le; [done|lia]).
    destruct (decide (t ≤ now + Second)) as [Hle|Hgt].
    + split; [|intros _; apply delay_settled; destruct (_ <? delay) eqn:E; zbool; lia].
      intros _. left. split_and!; [done|done|]. by intros t' [= <-].
    + rewrite IH; [|destruct (_ <? delay) eqn:E; zbool; lia]. split; [by right|].
      intros [(_ & _ & Hx)|?]; [|done]. by destruct (Hgt (Hx t eq_refl)).
  - split; [|lia]. intros _. left. split_and!; [done|done|]. intros t' [= <-]. unfold Second. lia.
Qed.

(** A tick acts exactly when a grant is about to end.  With the client
    records read, the reconcile loop goes on to reconcile if and only if some
    active, rotating or expiring grant ends within a second or has an end that
    cannot be read. *)
Theorem tick_acts_on_due_grants now records :
  (Second <? nextGrantReconcileDelay now (Some records)) = false ↔ Exists (imminent now) records.
Proof. rewrite Z.ltb_ge. by apply delay_imminent. Qed.

(** A listing that failed, or that holds only interrupted revocations, makes no
    tick act. *)
Lemma tick_waits now records :
  Forall revoking records → (Second <? nextGrantReconcileDelay now (Some records)) = true ∧
  (Second <? nextGrantReconcileDelay now None) = true.
Proof.
  intros Hr. split; [|done]. apply not_false_iff_true. intros Hx. cbn [nextGrantReconcileDelay] in Hx.
  rewrite Z.ltb_ge, delay_imminent in Hx by done. apply List.Exists_exists in Hx as (r & Hin & He & _).
  rewrite List.Forall_forall in Hr. apply Hr in Hin. by apply (not_revoking_expirable r Hin).
Qed.

(** ** Failing closed *)

(** Any marker, readable or not, blocks. *)
Lemma marker_blocks H path w :
  honest H → is_Some (files w !! path) → (Grant.ClockIsBlocked H path w).1 = Ok true.
Proof.
  intros Hh [c Hc]. pose proof (ReadFile_honest H path (files w) Hh w eq_refl) as [_ Hr].
  unfold Grant.ClockIsBlocked, Grant.LoadBlockedClock, htry, mbind, HM_bind.
  destruct (ReadFile H path w) as [[x|e] w1]; cbn [fst snd] in *.
  - destruct (unmarshal _ _ x) as [b|e]; [|done]. destruct (_ || _); done.
  - destruct (IsNotExist e) eqn:E; [by rewrite Hr in Hc|done].
Qed.

Definition blockedArea (H : hostEnv) (p : string) : Prop :=
  p = HostClockBlockedPath ∨ ∃ n, p = tempName H HostClockBlockedPath ".wt-blocked-" n.

Lemma blocked_not_keys H p : blockedArea H p → ¬ below AuthorizedKeysDirectory p.
Proof.
  intros [-> |[n ->]] [rest E].
  - apply (f_equal to_bytes) in E. rewrite to_bytes_append in E. apply (f_equal (take 20)) in E. by vm_compute in E.
  - unfold tempName in E. change (Filepath.Dir HostClockBlockedPath) with "/var/lib/warptweet"%string in E.
    change AuthorizedKeysDirectory with ("/var/lib/warptweet" ++ "/" ++ "authorized_keys")%string in E.
    apply (f_equal to_bytes) in E. rewrite !to_bytes_append in E. by apply (f_equal (take 20)) in E.
Qed.
Lemma marker_not_keys : ¬ below AuthorizedKeysDirectory HostClockBlockedPath.
Proof.
  intros [rest E]. apply (f_equal to_bytes) in E. rewrite to_bytes_append in E. apply (f_equal (take 20)) in E.
  by vm_compute in E.
Qed.
Lemma marker_not_sessions : ¬ below GrantSessionsDirectory HostClockBlockedPath.
Proof.
  intros [rest E]. apply (f_equal to_bytes) in E. rewrite to_bytes_append in E. apply (f_equal (take 20)) in E.
  by vm_compute in E.
Qed.

Section closing.
Context {CR : Crypto}.
Context (H : hostEnv) (procRead : nat → string → result bytes) (procLink : nat → string → result string)
  (selfPid : Z) (control : nat → bytes → result bytes) (groupAccess : nat → bool).
Context (config : Config) (selected : Profile.Profile).
Hypothesis (Hhonest : honest H) (Hvalid : validate config = Ok selected).
Implicit Types fs : gmap string bytes.

(** Every session record was readable, and those of the data plane are gone,
    each after the data plane acknowledged the drop of its key. *)
Definition all_dropped fs0 fs : Prop :=
  ∀ name, name ∈ listing GrantSessionsDirectory fs0 → json_name name →
    ∃ rec, holds GrantSessionsDirectory name fs0 rec ∧
      (GrantSession.isDataPlaneExe (GrantSession.Exe rec) = true →
       acknowledged control (GrantSession.KeyBlobSHA256 rec) ∧
       fs !! Filepath.Join GrantSessionsDirectory name = None).

Lemma terminateAll_spec fs0 :
  htriple (λ fs, fs = fs0) (terminateAll H procRead procLink selfPid control groupAccess)
    (λ res fs, outside (sessionArea productionGrantAuthority) fs0 fs ∧
       (res = Ok () → ∃ mid, extended fs0 mid ∧ all_dropped mid fs)).
Proof using Hhonest.
  intros w Hw. split.
  - rewrite <- Hw. revert w Hw. assert (within (sessionArea productionGrantAuthority)
      (terminateAll H procRead procLink selfPid control groupAccess)) as Hm; [|intros w _; apply Hm].
    apply moves_terminateMatching; [apply _|intros fs p; apply outside_delete|intros fs _; apply outside_insert; by left].
  - enough (htriple (λ fs, fs = fs0) (terminateAll H procRead procLink selfPid control groupAccess)
      (λ res fs, res = Ok () → ∃ mid, extended fs0 mid ∧ all_dropped mid fs)) as Ht by (by apply Ht).
    apply locked_rule; [|by intros e fs [=]]. intros mid Hmid.
    eapply htriple_weaken; [apply (terminate_spec H procRead procLink selfPid control Hhonest productionGrantAuthority _ mid)|done|].
    intros r fs Hr Hok. destruct (Hr Hok) as (l & [H1 _] & Hs & Hterm). exists mid. split; [done|].
    intros name Hin Hj. destruct (H1 name Hin Hj) as (rec & Hh' & Hkeep). exists rec. split; [done|].
    intros Hexe. by destruct (Hterm _ (Hkeep eq_refl) Hexe).
Qed.

Lemma clearKeys_spec fs0 :
  htriple (λ fs, fs = fs0)
    (AuthorizedKeys.withAuthorizedKeysLock H (AuthorizedKeysPath config)
       (AuthorizedKeys.writeAuthorizedKeyLines H (AuthorizedKeysPath config) []))
    (λ res fs, outside (keysArea H (AuthorizedKeysPath config)) fs0 fs ∧
       (res = Ok () → fs !! AuthorizedKeysPath config = Some [])).
Proof using Hvalid.
  intros w Hw. split.
  - rewrite <- Hw. exact (within_keysLock H _ _ (within_writeLines H _ []) w).
  - enough (htriple (λ _, True) (AuthorizedKeys.withAuthorizedKeysLock H (AuthorizedKeysPath config)
      (AuthorizedKeys.writeAuthorizedKeyLines H (AuthorizedKeysPath config) []))
      (λ res fs, res = Ok () → fs !! AuthorizedKeysPath config = Some [])) as Ht by (by apply Ht).
    apply withLock_rule_at; [done| |by intros e fs _ [=]].
    apply (AuthorizedKeys.writeLines_contents H _ (keysPath_not_temp config selected Hvalid H)).
Qed.

Lemma marker_spec reason now fs0 :
  htriple (λ fs, fs = fs0) (Grant.WriteBlockedClock H HostClockBlockedPath reason now)
    (λ res fs, fs !! AuthorizedKeysPath config = fs0 !! AuthorizedKeysPath config ∧
       (res = Ok () → is_Some (fs !! HostClockBlockedPath))).
Proof using Hvalid.
  intros w Hw. unfold Grant.WriteBlockedClock. cbv zeta.
  match goal with |- context [Grant.writeAtomic H ?p ?c ?x] =>
    destruct (writeAtomic_replaced H p x c fs0) with (w := w) as (_ & H2 & H3) end; [|done|].
  - intros n _ E. apply (f_equal to_bytes) in E. unfold tempName in E.
    change (Filepath.Dir HostClockBlockedPath) with "/var/lib/warptweet"%string in E.
    rewrite !to_bytes_append in E. by apply (f_equal (take 20)) in E.
  - split; [|intros Hok; by rewrite H2]. pose proof (keysPath_below config selected Hvalid) as Hb.
    destruct (H3 (AuthorizedKeysPath config)) as [E|[_ E]]; [|done|].
    + intros E. rewrite E in Hb. by apply marker_not_keys.
    + exfalso. eapply (blocked_not_keys H); [right; exact E|done].
Qed.

Lemma closeHost_spec reason fs0 :
  htriple (λ fs, fs = fs0) (closeHost H procRead procLink selfPid control groupAccess config reason)
    (λ res fs,
       (fs !! AuthorizedKeysPath config = fs0 !! AuthorizedKeysPath config ∨ is_Some (fs !! HostClockBlockedPath)) ∧
       (res = Ok () → is_Some (fs !! HostClockBlockedPath) ∧ fs !! AuthorizedKeysPath config = Some [] ∧
          ∃ before, all_dropped before fs)).
Proof using CR Hhonest Hvalid.
  unfold closeHost. eapply (htriple_bind _ _ (λ _ fs, fs = fs0)); [by intros w|]. intros now.
  eapply (htriple_bind _ _ (λ _ fs, is_Some (fs !! HostClockBlockedPath))).
  { eapply htriple_weaken; [apply (marker_spec (errText reason) now fs0)|done|].
    intros [[]|e] fs [Hk Hm]; [by apply Hm|]. split; [by left|done]. }
  intros _. eapply (htriple_bind _ _ (λ _ fs, is_Some (fs !! HostClockBlockedPath) ∧ fs !! AuthorizedKeysPath config = Some [])).
  { intros w Hw. destruct (clearKeys_spec (files w) w eq_refl) as [Ho Hok].
    assert (is_Some (files (AuthorizedKeys.withAuthorizedKeysLock H (AuthorizedKeysPath config)
       (AuthorizedKeys.writeAuthorizedKeyLines H (AuthorizedKeysPath config) []) w).2 !! HostClockBlockedPath)) as Hm.
    { rewrite Ho; [done|]. intros Hk%(keysArea_below config selected Hvalid). by apply marker_not_keys. }
    destruct (AuthorizedKeys.withAuthorizedKeysLock _ _ _ w) as [[[]|e] w']; [by split; [|apply Hok]|].
    split; [by right|done]. }
  intros _ w [Hm Hk]. destruct (terminateAll_spec (files w) w eq_refl) as [Ho Hok].
  assert (∀ p, ¬ below GrantSessionsDirectory p →
    files (terminateAll H procRead procLink selfPid control groupAccess w).2 !! p = files w !! p) as Hsame
    by (intros p Hp; apply Ho; intros Hs%sessionArea_below; done).
  rewrite (Hsame _ marker_not_sessions), (Hsame (AuthorizedKeysPath config))
    by (intros Hs; by apply (keys_not_sessions _ (keysPath_below config selected Hvalid))).
  split; [by right|]. intros Hr. destruct (Hok Hr) as (mid & _ & Hd). split_and!; [done|done|by exists mid].
Qed.

End closing.

