(* ===== verification/InviteProps.v ===== *)
(** * Invites survive their JSON form and follow their life cycle

    A stored invite reads back as it was written; whatever fails, the record
    on disk is the old one or a whole new one, its document never changes and
    its status follows the life cycle of an invite. *)

From S2P Require Import Prelude GoStd Json StrictJson Time Host Locator Grant GrantProps SshWire Crypto Packet.
From S2P Require Import Kex ClientStore ClientCodec Clients ClientProps Invite.
Import Time Json Clients.
Import Invite.

(** ** The codec *)

Definition inviteTexts (i : Invite) : list string :=
  [Kind i; InviteID i; ClientName i; d_Host (Data i); e_Host (Enrollment i); TLSSPKISHA256 (Enrollment i);
   TargetAddress i; Principal i; ProfileID i; ArtifactProfileID i; HostPublicKey i; IssuedAt i; ExpiresAt i; Nonce i].

(** ASCII text and numbers in range. *)
Definition wf_invite (i : Invite) : Prop :=
  Forall ascii (inviteTexts i) ∧ Z.abs (SchemaVersion i) < 2 ^ 63 ∧
  0 ≤ d_Port (Data i) < 2 ^ 16 ∧ 0 ≤ e_Port (Enrollment i) < 2 ^ 16 ∧ 0 ≤ TargetPort i < 2 ^ 16 ∧
  0 ≤ PublishedEndpointGeneration i < 2 ^ 63 ∧ Z.abs (AuthorizationDurationSeconds i) < 2 ^ 63.

(** A record that reads back as itself: besides, its hosts are canonical and
    the document passes the checks of [Load]. *)
Definition wf_record (r : InviteRecord) : Prop :=
  wf_invite (r_Invite r) ∧ canonicalizeStoredInvite (r_Invite r) = Ok (r_Invite r) ∧
  Forall ascii [Status r; ConsumedAt r; RevokedAt r; ClientID r].

(** The next member of an object and the field it selects. *)
Ltac member :=
  erewrite decode_member; [|reflexivity|first [reflexivity
    |apply uint_field_JInt; lia|by apply int_field_JInt|eassumption]].

Lemma dial_codec d d0 : 0 ≤ d_Port d < 2 ^ 16 → decode true dialFields (dialJSON d) d0 = Ok d.
Proof. intros Hp. unfold dialJSON. cbn [decode]. do 2 member. by destruct d. Qed.
Lemma enrollment_codec e e0 :
  0 ≤ e_Port e < 2 ^ 16 → decode true enrollmentFields (enrollmentJSON e) e0 = Ok e.
Proof. intros Hp. unfold enrollmentJSON. cbn [decode]. do 3 member. by destruct e. Qed.

Lemma data_field_ok i : 0 ≤ d_Port (Data i) < 2 ^ 16 → ∀ j, data_field (dialJSON (Data i)) j = Ok (set_Data (Data i) j).
Proof. intros Hp j. unfold data_field. by rewrite dial_codec. Qed.
Lemma enrollment_field_ok i :
  0 ≤ e_Port (Enrollment i) < 2 ^ 16 →
  ∀ j, enrollment_field (enrollmentJSON (Enrollment i)) j = Ok (set_Enrollment (Enrollment i) j).
Proof. intros Hp j. unfold enrollment_field. by rewrite enrollment_codec. Qed.

Lemma invite_members_codec i : wf_invite i → decode_members true inviteFields (inviteMembers i) zeroInvite = Ok i.
Proof.
  intros (_ & Hv & Hd & He & Ht & Hg & Hs). unfold inviteMembers.
  pose proof (data_field_ok i Hd) as Hdf. pose proof (enrollment_field_ok i He) as Hef.
  do 4 member.
  erewrite decode_member; [|reflexivity|apply Hdf]. erewrite decode_member; [|reflexivity|apply Hef].
  do 11 member. cbn [decode_members]. f_equal. by destruct i.
Qed.

(** The members of the embedded invite. *)
Definition embedded (k : string) : Prop :=
  ∃ store, select inviteFields k = Some store ∧ select recordFields k = Some (embedInvite (k, store)).2.

Lemma embed_members m : ∀ r,
  Forall embedded m.*1 →
  decode_members true recordFields m r =
  (i ← decode_members true inviteFields m (r_Invite r);
   Ok (mkRecord i (Status r) (ConsumedAt r) (RevokedAt r) (ClientID r))).
Proof.
  induction m as [|[k v] m IH]; intros r Hm; [by destruct r|].
  cbn [fmap list_fmap fst] in Hm. apply List.Forall_cons_iff in Hm as [(store & Hs & Hs') Hm].
  cbn [decode_members]. rewrite Hs, Hs'. cbn [embedInvite snd].
  destruct (store v (r_Invite r)) as [i|e]; cbn [mbind result_bind]; [|done]. by rewrite IH.
Qed.

Lemma invite_names_embedded i : Forall embedded (inviteMembers i).*1.
Proof. unfold inviteMembers. cbn [fmap list_fmap fst]. repeat constructor; by eexists. Qed.

Definition recordOptionals (r : InviteRecord) : list (string * string) :=
  [("consumed_at", ConsumedAt r); ("revoked_at", RevokedAt r); ("client_id", ClientID r)]%string.

Lemma record_members_codec r :
  wf_invite (r_Invite r) →
  decode_members true recordFields (inviteMembers (r_Invite r) ++ [("status", JStr (Status r))]%string
    ++ concat ((λ x, ClientStore.omitempty x.1 x.2) <$> recordOptionals r)) zeroRecord = Ok r.
Proof.
  intros Hwf. rewrite decode_members_app, embed_members by apply invite_names_embedded.
  cbn [r_Invite zeroRecord]. rewrite invite_members_codec by done. cbn [mbind result_bind app].
  erewrite decode_member; [|reflexivity|reflexivity]. destruct r as [i st c v k].
  unfold recordOptionals. cbn [fmap list_fmap concat fst snd Status ConsumedAt RevokedAt ClientID r_Invite].
  rewrite !decode_members_app, (decode_omit recordFields _ _ set_ConsumedAt) by reflexivity. cbn [mbind result_bind].
  rewrite decode_members_app, (decode_omit recordFields _ _ set_RevokedAt) by reflexivity. cbn [mbind result_bind].
  rewrite decode_members_app, (decode_omit recordFields _ _ set_ClientID) by reflexivity. done.
Qed.

(** A printed object is read back member by member. *)
Lemma decode_printed {A} (fs : list (field A)) zero m rest a :
  rest = [] ∨ rest = [bz 10] → wf 0 (JObj m) → StrictJson.names_ok false 1 (JObj m) = true →
  decode_members true fs m zero = Ok a →
  ClientStore.decodeStrictJSON fs zero (print (JObj m) ++ rest) = Ok a.
Proof.
  intros Hr Hw Hn Hd. assert (num_stop rest = true ∧ more rest = false) as [Hs Hm] by (by destruct Hr as [-> | ->]).
  pose proof (parse_print _ rest Hw Hs) as Hparse. unfold ClientStore.decodeStrictJSON.
  unfold StrictJson.RejectDuplicateObjectNames. rewrite (proj2 (StrictJson.inspect_iff false _)) by eauto 6.
  cbn [mbind result_bind]. unfold decode_document. rewrite Hparse. cbn [mbind result_bind decode].
  rewrite Hd. cbn [mbind result_bind]. by rewrite Hm.
Qed.

Lemma invite_members_wf i : wf_invite i → wf_members 1 (inviteMembers i).
Proof.
  intros (Ht & Hv & Hd & He & Hp & Hg & Hs). unfold inviteTexts in Ht.
  repeat apply List.Forall_cons_iff in Ht as [? Ht].
  unfold inviteMembers, dialJSON, enrollmentJSON.
  repeat (constructor; [split; [by apply ascii_forallb|]|]); try done; try (by apply wf_JInt; lia).
  - apply wf_obj; [done|]. repeat constructor; try (by apply ascii_forallb); try done. by apply wf_JInt; lia.
  - apply wf_obj; [done|]. repeat constructor; try (by apply ascii_forallb); try done. by apply wf_JInt; lia.
Qed.

Lemma invite_members_names i :
  forallb (λ '(k, x), (negb false || StrictJson.isCanonicalManifestName k) && StrictJson.names_ok false 2 x)
    (inviteMembers i) = true.
Proof. reflexivity. Qed.

(** The transferable invite reads back as the invite. *)
Lemma invite_codec i rest :
  rest = [] ∨ rest = [bz 10] → wf_invite i →
  ClientStore.decodeStrictJSON inviteFields zeroInvite (Encode i ++ rest) = Ok i.
Proof.
  intros Hr Hwf. unfold Encode. apply decode_printed; [done|..].
  - apply wf_obj; [done|by apply invite_members_wf].
  - reflexivity.
  - by apply invite_members_codec.
Qed.

Lemma record_codec r : wf_record r → readRecord (recordText r) = Ok r.
Proof.
  intros (Hi & Hc & Ha). unfold readRecord, recordText, recordJSON.
  rewrite (decode_printed recordFields zeroRecord _ [bz 10] r); [cbn [mbind result_bind]; rewrite Hc; by destruct r|auto|..].
  - repeat apply List.Forall_cons_iff in Ha as [? Ha]. apply wf_obj; [done|].
    apply Forall_app; split; [by apply invite_members_wf|]. apply Forall_app; split.
    { constructor; [split; [by apply ascii_forallb|done]|constructor]. }
    repeat (apply Forall_app; split; [apply wf_omit; [by apply ascii_forallb|done]|]).
    apply wf_omit; [by apply ascii_forallb|done].
  - cbn [StrictJson.names_ok]. rewrite !andb_true_iff. split_and!; [done| |].
    + apply bool_decide_eq_true. rewrite !fmap_app.
      eapply sublist_NoDup; [|apply sublist_app; [reflexivity|apply sublist_app; [reflexivity|]]].
      2:{ pose proof (omit_sublist (recordOptionals r)) as Hs. unfold recordOptionals in Hs.
          cbn [fmap list_fmap concat fst snd] in Hs. rewrite app_nil_r, !fmap_app in Hs. exact Hs. }
      apply (bool_decide_eq_true_1 _). vm_compute. reflexivity.
    + rewrite !forallb_app, invite_members_names, !names_omit by done. done.
  - pose proof (record_members_codec r Hi) as Hm. unfold recordOptionals in Hm.
    cbn [fmap list_fmap concat fst snd] in Hm. by rewrite app_nil_r in Hm.
Qed.

(** ** The life of an invite

    An issued invite is consumed, cancelled or runs out; one that ran out can
    still be cancelled or closed; a consumed one is closed after its grant. *)

Definition statuses : list string := [StatusIssued; StatusConsumed; StatusCancelled; StatusRevoked; StatusExpired].
Definition lifeEdge (a b : string) : bool :=
  (eqs a StatusIssued && (eqs b StatusConsumed || eqs b StatusCancelled || eqs b StatusExpired))
  || (eqs a StatusExpired && (eqs b StatusCancelled || eqs b StatusRevoked))
  || (eqs a StatusConsumed && eqs b StatusRevoked).
Definition lives (a b : string) : Prop := rtc (λ x y, lifeEdge x y = true) a b.

#[export] Instance lives_preorder : PreOrder lives.
Proof. split; [intros a; apply rtc_refl|]. intros a b c Hab Hbc. unfold lives in *. by etrans. Qed.

Lemma lives_once a b : lifeEdge a b = true → lives a b.
Proof. intros Hl. by apply rtc_once. Qed.
Lemma lives_left a b : lives a b → a ≠ StatusIssued → b ≠ StatusIssued.
Proof.
  induction 1 as [a|a x b Hax _ IH]; [done|]. intros _. apply IH. intros ->. revert Hax. unfold lifeEdge.
  change (eqs StatusIssued StatusConsumed) with false. change (eqs StatusIssued StatusCancelled) with false.
  change (eqs StatusIssued StatusExpired) with false. change (eqs StatusIssued StatusRevoked) with false.
  cbn [orb]. by rewrite !andb_false_r.
Qed.

(** A later record of the same invite: the document is the same, the status
    follows the life cycle, and the client an invite was used by stays. *)
Definition evolved (r0 r : InviteRecord) : Prop :=
  r_Invite r = r_Invite r0 ∧ lives (Status r0) (Status r) ∧ (Status r0 ≠ StatusIssued → ClientID r = ClientID r0).
#[export] Instance evolved_preorder : PreOrder evolved.
Proof.
  split; [intros r; split_and!; [done|apply rtc_refl|done]|].
  intros a b c (H1 & H2 & H3) (H4 & H5 & H6). split_and!; [congruence|by etrans|].
  intros Ha. rewrite H6, H3; [done|done|]. by eapply lives_left.
Qed.

Section store.
Context (H : hostEnv) (directory inviteID : string).
Implicit Types (r : InviteRecord) (fs : gmap string bytes).

(** The record an invite has on disk. *)
Definition holds fs r : Prop :=
  ∃ raw, fs !! recordPath directory inviteID = Some raw ∧ readRecord raw = Ok r ∧ wf_record r ∧
         InviteID (r_Invite r) = inviteID ∧ Status r ∈ statuses.

(** The record stays whole and evolves. *)
Definition follows : relation (gmap string bytes) :=
  λ fs fs', ∀ r0, holds fs r0 → ∃ r, holds fs' r ∧ evolved r0 r.
#[export] Instance follows_preorder : PreOrder follows.
Proof.
  split; [intros fs r Hr; by exists r|]. intros a b c Hab Hbc r0 Hr0.
  destruct (Hab r0 Hr0) as (r1 & Hr1 & He1). destruct (Hbc r1 Hr1) as (r2 & Hr2 & He2).
  exists r2. split; [done|by etrans].
Qed.

Lemma holds_same fs fs' r :
  fs' !! recordPath directory inviteID = fs !! recordPath directory inviteID → holds fs r → holds fs' r.
Proof. intros He (raw & Hr & ?). exists raw. by rewrite He. Qed.
Lemma holds_unique fs r r' : holds fs r → holds fs r' → r = r'.
Proof. intros (raw & H1 & H2 & _) (raw' & H3 & H4 & _). congruence. Qed.

(** What is left when the record was [r0] and may have become [r]. *)
Definition evolves {A} (r0 : InviteRecord) (_ : result A) fs : Prop := ∃ r, holds fs r ∧ evolved r0 r.
Lemma evolves_refl {A} r0 (res : result A) fs : holds fs r0 → evolves r0 res fs.
Proof. intros Hr. by exists r0. Qed.

Lemma writeRecord_holds r r' :
  wf_record r' → InviteID (r_Invite r') = inviteID → Status r' ∈ statuses →
  htriple (λ fs, holds fs r) (writeRecord H directory inviteID r')
    (λ res fs, (holds fs r ∨ holds fs r') ∧ (res = Ok () → holds fs r')).
Proof.
  intros Hwf Hid Hst w (raw0 & H0 & Hw0).
  destruct (replaceFile_replaced H (recordPath directory inviteID) ".wt-invite-" (recordText r') (files w)
    ltac:(intros n Hn Heq; rewrite <- Heq in Hn; congruence)
    false (sys H;; deferred (sys H) (sys H))
    ltac:(intros fs; apply bind_keeps; [apply sys_keeps|intros _; apply deferred_keeps; apply sys_keeps])
    w eq_refl) as (H1 & H2 & _).
  unfold writeRecord, writeFileAtomic. set (out := replaceFile H _ _ _ _ _ w) in *.
  assert (∀ fs, fs !! recordPath directory inviteID = Some (recordText r') → holds fs r') as Hnew
    by (intros fs Hfs; exists (recordText r'); split_and!; auto; by apply record_codec).
  split; [|auto]. destruct H1 as [H1|H1]; [left|right; auto]. exists raw0. by rewrite H1.
Qed.

Lemma Load_holds r :
  htriple (λ fs, holds fs r) (Load H directory inviteID) (λ res fs, holds fs r ∧ ∀ r', res = Ok r' → r' = r).
Proof.
  unfold Load. destruct (negb (isHexID inviteID)); [by apply htriple_fail|].
  eapply (htriple_bind _ _ (λ c fs, holds fs r ∧ fs !! recordPath directory inviteID = Some c)).
  - apply htriple_ReadFile; [done|auto].
  - intros c. apply htriple_lift. intros fs [Hr Hc]. split; [done|]. intros r' Hr'.
    destruct Hr as (raw & H1 & H2 & _). congruence.
Qed.

(** A step that leaves the record alone, or whose outcome is [r']. *)
Lemma write_evolves {A} r0 r r' (a : A) :
  wf_record r' → InviteID (r_Invite r') = inviteID → Status r' ∈ statuses → evolved r0 r → evolved r0 r' →
  htriple (λ fs, holds fs r) (writeRecord H directory inviteID r';; mret a)
    (λ res fs, evolves r0 res fs ∧ ∀ x, res = Ok x → x = a ∧ holds fs r').
Proof.
  intros Hwf Hid Hst Hr Hr'. eapply (htriple_bind _ _ (λ _ fs, holds fs r')).
  - eapply htriple_weaken; [apply (writeRecord_holds r r' Hwf Hid Hst)|done|]. intros [[]|e] fs [Hor Hok]; [auto|].
    split; [|done]. destruct Hor; [by exists r|by exists r'].
  - intros _. apply htriple_ret. intros fs Hfs. split; [by exists r'|]. by intros x [= <-].
Qed.

Lemma markExpired_evolves r :
  wf_record r → InviteID (r_Invite r) = inviteID → Status r = StatusIssued →
  htriple (λ fs, holds fs r) (markExpired H directory inviteID r) (λ res fs, evolves r res fs).
Proof.
  intros (Hi & Hc & Ha) Hid Hst. unfold markExpired. set (r' := set_Status StatusExpired r).
  assert (wf_record r') as Hwf'.
  { split_and!; [done|done|]. apply List.Forall_cons_iff in Ha as [_ Ha]. constructor; [by apply ascii_forallb|done]. }
  eapply (htriple_bind _ _ (λ _ fs, evolves (A := ()) r (Ok ()) fs)).
  - apply htriple_try. eapply htriple_weaken; [apply (writeRecord_holds r r' Hwf' Hid)|done|].
    { by apply (bool_decide_unpack _). }
    intros res fs [[Hr|Hr] _]; [by exists r|]. exists r'. split; [done|]. split_and!; [done| |].
    + apply lives_once. unfold r'. rewrite Hst. reflexivity.
    + done.
  - intros _. apply htriple_ret. auto.
Qed.

Lemma load_then {A} r0 (k : InviteRecord → HM A) Q :
  (∀ e fs, holds fs r0 → Q (Err e) fs) →
  (wf_record r0 → InviteID (r_Invite r0) = inviteID → Status r0 ∈ statuses →
   htriple (λ fs, holds fs r0) (k r0) Q) →
  htriple (λ fs, holds fs r0) (Load H directory inviteID ≫= k) Q.
Proof.
  intros He Hk w Hw. pose proof Hw as (_ & _ & _ & Hwf & Hid & Hst).
  refine ((_ : htriple (λ fs, holds fs r0) _ _) w Hw).
  eapply (htriple_bind _ _ (λ x fs, x = r0 ∧ holds fs r0)).
  - eapply htriple_weaken; [apply (Load_holds r0)|done|]. intros [x|e] fs [Hs Hx]; auto.
  - intros x w' [-> Hw']. by apply Hk.
Qed.

Lemma orNow_then {A} P now (k : Time → HM A) Q :
  (∀ t, htriple P (k t) Q) → htriple P (orNow H now ≫= k) Q.
Proof. intros Hk w Hw. unfold orNow, mbind, HM_bind. destruct (IsZero now); by apply Hk. Qed.

(** The record after a change of status. *)
Lemma wf_closed r status text : wf_record r → ascii status → ascii text →
  wf_record (set_RevokedAt text (set_Status status r)).
Proof.
  intros (Hi & Hc & Ha) Hs Ht. repeat apply List.Forall_cons_iff in Ha as [? Ha].
  split_and!; [done|done|]. by repeat (constructor; [done|]).
Qed.
Lemma wf_consumed r clientID text : wf_record r → ascii clientID → ascii text →
  wf_record (set_ClientID clientID (set_ConsumedAt text (set_Status StatusConsumed r))).
Proof.
  intros (Hi & Hc & Ha) Hs Ht. repeat apply List.Forall_cons_iff in Ha as [? Ha].
  split_and!; [done|done|]. repeat (constructor; [first [done|by apply ascii_forallb]|]). constructor.
Qed.

Lemma known_status r : Status r ∈ statuses →
  Status r = StatusIssued ∨ Status r = StatusConsumed ∨ Status r = StatusCancelled ∨ Status r = StatusRevoked ∨
  Status r = StatusExpired.
Proof. unfold statuses. set_solver. Qed.

(** Using an invite up. *)
Definition used_by (clientID : string) (r0 r : InviteRecord) : Prop :=
  Status r0 = StatusIssued ∧ Status r = StatusConsumed ∧ ClientID r = clientID ∧ r_Invite r = r_Invite r0.

Lemma Consume_evolves r0 clientID now :
  ascii clientID →
  htriple (λ fs, holds fs r0) (Consume H directory inviteID clientID now)
    (λ res fs, evolves r0 res fs ∧ ∀ r, res = Ok r → holds fs r ∧ used_by clientID r0 r).
Proof.
  intros Ha. unfold Consume.
  assert (∀ e fs, holds fs r0 → evolves (A := InviteRecord) r0 (Err e) fs ∧
    ∀ r, Err e = Ok r → holds fs r ∧ used_by clientID r0 r) as Herr by (intros e fs Hr; split; [by exists r0|done]).
  apply load_then; [exact Herr|]. intros Hwf Hid Hst.
  destruct (negb (eqs (Status r0) StatusIssued)) eqn:Hs; [apply htriple_fail; intros fs; apply Herr|].
  apply negb_false_iff, bool_decide_eq_true in Hs. apply orNow_then. intros t.
  destruct (InviteExpiry r0) as [expires|e]; [|apply htriple_fail; intros fs; apply Herr].
  apply (ret_bind _ expires). destruct (negb (Before t expires)).
  - eapply (htriple_bind _ _ (λ _ fs, evolves (A := ()) r0 (Ok ()) fs)).
    + eapply htriple_weaken; [by apply markExpired_evolves|done|]. intros [[]|e] fs Hf; [done|split; [done|done]].
    + intros _. apply htriple_fail. intros fs Hf. split; [done|done].
  - set (r := set_ClientID _ _). assert (evolved r0 r) as He.
    { split_and!; [done| |done]. apply lives_once. rewrite Hs. reflexivity. }
    eapply htriple_weaken; [apply (write_evolves r0 r0 r r)| |]; try done.
    + apply wf_consumed; [done|done|apply formatTime_ascii].
    + by apply (bool_decide_unpack _).
    + intros res fs [H1 H2]. split; [done|]. intros r' Hr'. destruct (H2 r' Hr') as [-> Hh]. by split_and!.
Qed.

(** Closing an invite: [Cancel] before it is used, [Revoke] after. *)
Lemma close_evolves r0 status t :
  wf_record r0 → InviteID (r_Invite r0) = inviteID → ascii status → status ∈ statuses →
  lifeEdge (Status r0) status = true →
  let r := set_RevokedAt (formatTime t) (set_Status status r0) in
  htriple (λ fs, holds fs r0) (writeRecord H directory inviteID r;; mret r)
    (λ res fs, evolves r0 res fs ∧ ∀ r', res = Ok r' → holds fs r' ∧ Status r' = status).
Proof.
  intros Hwf Hid Ha Hs He r. assert (evolved r0 r) as Hev.
  { split_and!; [done|by apply lives_once|done]. }
  eapply htriple_weaken; [apply (write_evolves r0 r0 r r)| |]; try done.
  - apply wf_closed; [done|done|apply formatTime_ascii].
  - intros res fs [H1 H2]. split; [done|]. intros r' Hr'. by destruct (H2 r' Hr') as [-> ?].
Qed.

(** The outcome of an attempt to bring an invite to [status]. *)
Definition closes (status : string) (r0 : InviteRecord) (res : result InviteRecord) fs : Prop :=
  evolves r0 res fs ∧ ∀ r, res = Ok r → holds fs r ∧ Status r = status.
Lemma closes_err status r0 e fs : holds fs r0 → closes status r0 (Err e) fs.
Proof. intros Hr. split; [by exists r0|done]. Qed.
Lemma closes_ret status r0 fs : holds fs r0 → Status r0 = status → closes status r0 (Ok r0) fs.
Proof. intros Hr Hs. split; [by exists r0|]. by intros r [= <-]. Qed.

Lemma lockInvite_rule {A} r0 (body : HM A) Q :
  (∀ e fs, holds fs r0 → Q (Err e) fs) → htriple (λ fs, holds fs r0) body Q →
  htriple (λ fs, holds fs r0) (lockInvite H directory inviteID body) Q.
Proof.
  intros He Hb. apply withLock_rule; [|done|done]. intros fs p Hr Hp. eapply holds_same; [|exact Hr].
  destruct Hr as (raw & Hraw & _). apply lookup_insert_ne. congruence.
Qed.

Lemma Cancel_evolves r0 now :
  htriple (λ fs, holds fs r0) (Cancel H directory inviteID now) (closes StatusCancelled r0).
Proof.
  unfold Cancel. apply lockInvite_rule; [apply closes_err|]. apply load_then; [apply closes_err|].
  intros Hwf Hid Hst. destruct (eqs (Status r0) StatusCancelled) eqn:Hc.
  { apply htriple_ret. intros fs Hr. apply closes_ret; [done|]. by apply bool_decide_eq_true in Hc. }
  destruct (eqs (Status r0) StatusConsumed || _) eqn:Ho; [by apply htriple_fail; apply closes_err|].
  apply orNow_then. intros t. apply close_evolves; [done|done|by apply ascii_forallb|by apply (bool_decide_unpack _)|].
  apply known_status in Hst. apply orb_false_iff in Ho as [Ho1 Ho2]. apply bool_decide_eq_false in Hc, Ho1, Ho2.
  destruct Hst as [-> |[? |[? |[? | ->]]]]; done.
Qed.

Lemma Revoke_evolves r0 now :
  htriple (λ fs, holds fs r0) (Revoke H directory inviteID now) (closes StatusRevoked r0).
Proof.
  unfold Revoke. apply load_then; [apply closes_err|].
  intros Hwf Hid Hst. destruct (eqs (Status r0) StatusRevoked) eqn:Hc.
  { apply htriple_ret. intros fs Hr. apply closes_ret; [done|]. by apply bool_decide_eq_true in Hc. }
  destruct (eqs (Status r0) StatusIssued || _) eqn:Ho; [by apply htriple_fail; apply closes_err|].
  apply orNow_then. intros t. apply close_evolves; [done|done|by apply ascii_forallb|by apply (bool_decide_unpack _)|].
  apply known_status in Hst. apply orb_false_iff in Ho as [Ho1 Ho2]. apply bool_decide_eq_false in Hc, Ho1, Ho2.
  destruct Hst as [? |[-> |[? |[? | ->]]]]; done.
Qed.

End store.
