(* ===== verification/InviteClientProps.v ===== *)
(** * Properties of the client's side of an invite

    Labels are always usable as tunnel identifiers and file names, invite
    files never replace a file, and the client reads what the host wrote. *)

From S2P Require Import Prelude GoStd Json StrictJson Time Host Locator Grant GrantProps SshWire Crypto Packet.
From S2P Require Import Kex ClientStore ClientCodec Clients ClientProps AuthorizedKeys GrantSession SessionProps Frame.
From S2P Require Import Invite Accept InviteClient InviteProps.
Import Time Json Clients Invite InviteClient.

(** ** Labels *)

Definition label_byte (c : byte) : Prop := isLower (zb c) = true ∨ isDigit (zb c) = true ∨ c = bz 45.

(** What the tunnel manifest and a file name ask of a label. *)
Definition label_ok (b : bytes) : Prop :=
  (length b ≤ MaxInviteLabelBytes)%nat ∧ Forall label_byte b ∧
  (∃ c r, b = c :: r ∧ isLower (zb c) = true) ∧ List.last b (bz 45) ≠ bz 45.

Lemma sanitize_bytes rs : ∀ out h, Forall label_byte out → Forall label_byte (sanitizeRunes rs out h).
Proof.
  induction rs as [|r rs IH]; intros out h Ho; cbn [sanitizeRunes]; [by apply Forall_reverse|].
  destruct (isLower r || isDigit r) eqn:Hr.
  - apply IH. constructor; [|done]. unfold label_byte, isLower, isDigit, in_range in *.
    rewrite zb_bz, Z.mod_small by (zbool; lia). apply orb_true_iff in Hr. tauto.
  - destruct (_ || _ || _ || _); [|by apply IH]. destruct (negb _ && negb h); [|by apply IH].
    apply IH. constructor; [by right; right|done].
Qed.

Lemma dropHyphens_suffix b : ∃ k, b = replicate k (bz 45) ++ dropHyphens b.
Proof.
  induction b as [|x b [k IH]]; [by exists O|]. cbn. destruct (zb x =? 45) eqn:Hx; [|by exists O].
  exists (S k). cbn. f_equal; [|done]. apply zb_inj. by zbool.
Qed.
Lemma dropHyphens_head b c r : dropHyphens b = c :: r → c ≠ bz 45.
Proof.
  induction b as [|x b IH]; cbn; [done|]. destruct (zb x =? 45) eqn:Hx; [done|]. intros [= -> _] ->. done.
Qed.
Lemma dropHyphens_id c r : c ≠ bz 45 → dropHyphens (c :: r) = c :: r.
Proof.
  intros Hc. cbn. destruct (zb c =? 45) eqn:Hx; [|done]. destruct Hc. apply zb_inj. by zbool.
Qed.

(** Trimming leaves a part that neither starts nor ends with a hyphen. *)
Lemma trimHyphens_spec b :
  (∃ x y, b = x ++ trimHyphens b ++ y) ∧
  (∀ c r, trimHyphens b = c :: r → c ≠ bz 45) ∧ (trimHyphens b ≠ [] → List.last (trimHyphens b) (bz 45) ≠ bz 45).
Proof.
  unfold trimHyphens. destruct (dropHyphens_suffix b) as [k Hk]. set (m := dropHyphens b) in *.
  destruct (dropHyphens_suffix (reverse m)) as [j Hj]. set (t := dropHyphens (reverse m)) in *.
  assert (m = reverse t ++ replicate j (bz 45)) as Hm.
  { apply (f_equal reverse) in Hj. by rewrite reverse_involutive, reverse_app, reverse_replicate in Hj. }
  split_and!.
  - exists (replicate k (bz 45)), (replicate j (bz 45)). by rewrite <- Hm.
  - intros c r Hc. rewrite Hc in Hm. apply (dropHyphens_head b c (r ++ replicate j (bz 45))). exact Hm.
  - intros Hne. destruct t as [|c r] eqn:Ht; [done|]. rewrite reverse_cons, List.last_last.
    by apply (dropHyphens_head (reverse m) c r).
Qed.

Lemma lower_not_hyphen c : isLower (zb c) = true → c ≠ bz 45.
Proof. intros Hc ->. done. Qed.

Lemma prefixDigit_ok b :
  Forall label_byte b → (∀ c r, b = c :: r → c ≠ bz 45) → b ≠ [] → List.last b (bz 45) ≠ bz 45 →
  Forall label_byte (prefixDigit b) ∧ (∃ c r, prefixDigit b = c :: r ∧ isLower (zb c) = true) ∧
  List.last (prefixDigit b) (bz 45) ≠ bz 45.
Proof.
  intros Hb Hh Hne Hl. destruct b as [|c r]; [done|]. unfold prefixDigit.
  destruct (isDigit (zb c)) eqn:Hd.
  - split_and!; [constructor; [by left|done]|by exists (bz 110), (c :: r)|exact Hl].
  - split_and!; [done| |done]. exists c, r. split; [done|]. apply List.Forall_cons_iff in Hb as [Hc _].
    destruct Hc as [Hc|[Hc|Hc]]; [done|congruence|]. by destruct (Hh c r eq_refl).
Qed.

Lemma host_label_ok : label_ok (to_bytes "host").
Proof.
  split_and!; [by apply (bool_decide_unpack _)| |by eexists _, _|done].
  repeat (constructor; [by left|]). constructor.
Qed.

Lemma first_label_ok raw :
  let label := trimHyphens (sanitizeRunes raw [] false) in
  label ≠ [] →
  Forall label_byte (prefixDigit label) ∧ (∃ c r, prefixDigit label = c :: r ∧ isLower (zb c) = true) ∧
  List.last (prefixDigit label) (bz 45) ≠ bz 45.
Proof.
  intros label Hne. destruct (trimHyphens_spec (sanitizeRunes raw [] false)) as ((x & y & Hxy) & Hh & Hl).
  apply prefixDigit_ok; [|done|done|by apply Hl].
  pose proof (sanitize_bytes raw [] false (List.Forall_nil _)) as Hs. rewrite Hxy in Hs.
  apply Forall_app in Hs as [_ Hs]. by apply Forall_app in Hs as [Hs _].
Qed.

(** Cutting a label that starts with a letter and trimming it again. *)
Lemma cut_label_ok n b :
  (0 < n)%nat → Forall label_byte b → (∃ c r, b = c :: r ∧ isLower (zb c) = true) →
  let cut := trimHyphens (take n b) in
  Forall label_byte cut ∧ (∃ c r, cut = c :: r ∧ isLower (zb c) = true) ∧ List.last cut (bz 45) ≠ bz 45 ∧
  (length cut ≤ n)%nat.
Proof.
  intros Hn Hb (c & r & -> & Hc) cut. destruct n as [|n]; [lia|]. cbn [take] in cut.
  destruct (trimHyphens_spec (c :: take n r)) as ((x & y & Hxy) & Hh & Hl). fold cut in Hxy, Hh, Hl.
  assert (∃ r', cut = c :: r') as [r' Hr'].
  { unfold cut, trimHyphens. rewrite dropHyphens_id by (by apply lower_not_hyphen). rewrite reverse_cons.
    destruct (dropHyphens_suffix (reverse (take n r) ++ [c])) as [k Hk].
    destruct (dropHyphens (reverse (take n r) ++ [c])) as [|d t] eqn:Ht using rev_ind.
    - rewrite app_nil_r in Hk. assert (c ∈ replicate k (bz 45)) as Hin by (rewrite <- Hk; set_solver).
      apply elem_of_replicate in Hin as [-> _]. done.
    - rewrite app_assoc in Hk. apply app_inj_tail in Hk as [_ ->]. rewrite reverse_snoc. by eexists. }
  assert (Forall label_byte cut) as Hf.
  { assert (Forall label_byte (c :: take n r)) as Hcr.
    { apply List.Forall_cons_iff in Hb as [Hb1 Hb2]. constructor; [done|by apply Forall_take]. }
    rewrite Hxy in Hcr. apply Forall_app in Hcr as [_ Hcr]. by apply Forall_app in Hcr as [Hcr _]. }
  split_and!; [done|by exists c, r'|apply Hl; by rewrite Hr'|].
  apply (f_equal length) in Hxy. rewrite !length_app in Hxy. cbn [length] in Hxy. rewrite length_take in Hxy. lia.
Qed.

(** Whatever an operator types, the label made of it is a valid one: at
    most 48 bytes of lower-case letters, digits and hyphens, starting with a
    letter and not ending with a hyphen, so it can serve as a file name and as
    a tunnel identifier. *)
Theorem sanitized_label_valid raw : label_ok (to_bytes (SanitizeInviteLabel raw)).
Proof.
  unfold SanitizeInviteLabel. destruct (eqs _ ""); [apply host_label_ok|]. cbv zeta.
  case_bool_decide as Hne; [apply host_label_ok|]. destruct (first_label_ok _ Hne) as (Hf & Hc & Hl).
  set (b := prefixDigit _) in *. clearbody b. destruct (MaxInviteLabelBytes <? length b)%nat eqn:Hlen.
  - destruct (cut_label_ok MaxInviteLabelBytes b ltac:(by apply (bool_decide_unpack _)) Hf Hc) as (Hf' & Hc' & Hl' & Hn').
    set (cut := trimHyphens (take MaxInviteLabelBytes b)) in *. clearbody cut. case_bool_decide; [apply host_label_ok|].
    destruct Hc' as (c & r & -> & Hc'). unfold prefixDigit.
    assert (isDigit (zb c) = false) as -> by (unfold isLower, isDigit, in_range in *; zbool; lia).
    rewrite take_ge, to_bytes_string by done. split_and!; [done|done|by exists c, r|done].
  - rewrite to_bytes_string. apply Nat.ltb_ge in Hlen. by split_and!.
Qed.

(** ** Invite files *)

Section files.
Context (H : hostEnv).

(** A new file at [path] with some contents, or none. *)
Definition fresh (path : string) (fs0 fs : gmap string bytes) : Prop :=
  fs0 !! path = None ∧ (fs = fs0 ∨ ∃ x, fs = <[path := x]> fs0).

Lemma fresh_grows path fs0 fs : fresh path fs0 fs → fs0 ⊆ fs.
Proof. intros [Hn [-> |[x ->]]]; [done|by apply insert_subseteq]. Qed.
Lemma fresh_delete path fs0 fs : fresh path fs0 fs → fresh path fs0 (delete path fs).
Proof.
  intros [Hn [-> |[x ->]]]; split; [done| |done|]; left; [by apply delete_id|by apply delete_insert_id].
Qed.

(** The file is new, and complete when the step succeeds. *)
Definition creating (path : string) (contents : bytes) (fs0 : gmap string bytes) (r : result ()) fs : Prop :=
  fresh path fs0 fs ∧ (r = Ok () → fs = <[path := contents]> fs0).

Lemma orRemove_rule path contents fs0 P (m : HM ()) :
  htriple P m (creating path contents fs0) → htriple P (orRemove H path m) (creating path contents fs0).
Proof.
  intros Hm. unfold orRemove. eapply (htriple_bind _ _ (λ r, creating path contents fs0 r)).
  - apply htriple_try. eapply htriple_weaken; [exact Hm|done|]. done.
  - intros [[]|e]; [apply htriple_ret; by intros fs [Hf Hw]|].
    eapply (htriple_bind _ _ (λ _ fs, fresh path fs0 fs)).
    + apply htriple_try, htriple_Remove; [by intros e' fs [Hf _]|]. intros fs [Hf _]. by apply fresh_delete.
    + intros _. apply htriple_fail. intros fs Hf. by split.
Qed.

Lemma sys_creating path contents fs0 :
  htriple (λ fs, fs = <[path := contents]> fs0 ∧ fs0 !! path = None) (sys H) (creating path contents fs0).
Proof. apply htriple_sys. intros r fs [-> Hn]. split; [split; [done|eauto]|done]. Qed.

(** Steps that keep the complete file, one after the other. *)
Lemma creating_then {B} path contents fs0 P (m : HM ()) (k : () → HM B) (Q : result B → gmap string bytes → Prop) :
  htriple P m (creating path contents fs0) →
  (∀ e fs, fresh path fs0 fs → Q (Err e) fs) →
  htriple (λ fs, fs = <[path := contents]> fs0 ∧ fs0 !! path = None) (k ()) Q →
  htriple P (m ≫= k) Q.
Proof.
  intros Hm He Hk. eapply (htriple_bind _ _ (λ _ fs, fs = <[path := contents]> fs0 ∧ fs0 !! path = None)).
  - eapply htriple_weaken; [exact Hm|done|]. intros [[]|e] fs [Hf Hw]; [|by apply He]. split; [by apply Hw|apply Hf].
  - intros []. exact Hk.
Qed.

Lemma writeInviteExclusive_spec path contents fs0 :
  htriple (λ fs, fs = fs0) (writeInviteExclusive H path contents)
    (λ r fs, fs0 ⊆ fs ∧ (r = Ok () → fs0 !! path = None ∧ fs = <[path := contents]> fs0)).
Proof.
  unfold writeInviteExclusive.
  eapply (htriple_bind _ _ (λ _ fs, fs = <[path := []]> fs0 ∧ fs0 !! path = None)).
  { unfold CreateExclusive. eapply (htriple_bind _ _ (λ _ fs, fs = fs0)); [apply htriple_sys; by intros [] fs ->|].
    intros _ w Hw. subst fs0. unfold get_files, mbind, HM_bind. destruct (files w !! path) eqn:Hp; [by split|done]. }
  intros _. apply (htriple_deferred _ _ _ (creating path contents fs0)).
  - eapply creating_then; [apply orRemove_rule|intros e fs Hf; by split|].
    { apply htriple_Write.
      - intros e x fs [-> Hn]. rewrite insert_insert_eq. split; [split; [done|eauto]|done].
      - intros fs [-> Hn]. rewrite insert_insert_eq. split; [split; [done|eauto]|done]. }
    do 2 (eapply creating_then; [apply orRemove_rule, sys_creating|intros e fs Hf; by split|]).
    eapply creating_then; [apply sys_creating|intros e fs Hf; by split|].
    eapply htriple_deferred; [apply sys_creating|]. intros r. apply htriple_sys. auto.
  - intros r. apply htriple_sys. intros _ fs [Hf Hw]. split; [by eapply fresh_grows|]. intros Hr.
    split; [apply Hf|by apply Hw].
Qed.

Lemma tryNames_spec cwd directory contents names : ∀ fs0,
  htriple (λ fs, fs = fs0) (tryNames H cwd directory contents names)
    (λ r fs, fs0 ⊆ fs ∧ ∀ p, r = Ok p → ∃ name, name ∈ names ∧
       let path := Filepath.Join directory name in
       p = absOr cwd path ∧ fs0 !! path = None ∧ fs !! path = Some contents).
Proof.
  induction names as [|name names IH]; intros fs0; cbn [tryNames]; [apply htriple_fail; by intros fs ->|].
  set (path := Filepath.Join directory name).
  eapply (htriple_bind _ _ (λ r fs, fs0 ⊆ fs ∧ (r = Ok () → fs0 !! path = None ∧ fs = <[path := contents]> fs0))).
  { apply htriple_try. eapply htriple_weaken; [apply (writeInviteExclusive_spec path contents fs0)|done|done]. }
  intros [[]|e].
  - apply htriple_ret. intros fs [Hsub Hok]. destruct (Hok eq_refl) as [Hn ->]. split; [done|]. intros p [= <-].
    exists name. split_and!; [by left|done|done|apply lookup_insert_eq].
  - destruct (isExist e); [|apply htriple_fail; intros fs [Hsub _]; by split].
    intros w [Hsub _]. specialize (IH (files w) w eq_refl). destruct (tryNames _ _ _ _ _ w) as [r w']. cbn in IH |- *.
    destruct IH as [Hs Hp]. split; [by etrans|]. intros p Hr. destruct (Hp p Hr) as (n & Hn & Hq & Hf & Hc).
    exists n. split_and!; [by right|done| |done]. by eapply lookup_weaken_None.
Qed.

End files.

(** An invite file never replaces anything.  Whatever fails, every file
    that was there keeps its contents; and the path that is returned is one of
    the three names for the label, was free before and holds the whole
    document. *)
Theorem invite_file_exclusive H cwd directory label inviteID contents w :
  let out := WriteInviteFile H cwd directory label inviteID contents w in
  files w ⊆ files out.2 ∧
  ∀ p, out.1 = Ok p → ∃ name, name ∈ candidates label inviteID ∧
    let path := Filepath.Join directory name in
    p = absOr cwd path ∧ files w !! path = None ∧ files out.2 !! path = Some contents.
Proof.
  intros out. refine ((_ : htriple (λ fs, fs = files w) (WriteInviteFile H cwd directory label inviteID contents)
    (λ r fs, files w ⊆ fs ∧ ∀ p, r = Ok p → ∃ name, name ∈ candidates label inviteID ∧
      let path := Filepath.Join directory name in
      p = absOr cwd path ∧ files w !! path = None ∧ fs !! path = Some contents)) w eq_refl).
  unfold WriteInviteFile. destruct (eqs directory ""); [apply htriple_fail; by intros fs ->|].
  eapply (htriple_bind _ _ (λ _ fs, fs = files w)); [apply htriple_sys; by intros [] fs ->|].
  intros _. apply tryNames_spec.
Qed.

(** ** Reading an invite *)

(** The client reads what the host wrote.  The transferable form of a
    well-formed canonical invite of the current profile, free of the refused
    words and not yet expired, parses to that invite. *)
Theorem client_reads_invite H i now w :
  wf_invite i → canonicalizeStoredInvite i = Ok i → ProfileID i = Profile.CurrentID →
  blen (Encode i) ≤ MaxInviteBytes → carriesForbidden (Encode i) = false → IsZero now = false →
  ∀ expires, parseRFC3339 (to_bytes (ExpiresAt i)) = Some expires → now < expires →
  ParseClientInvite H (Encode i) now w = (Ok (i, viewOf i), w).
Proof.
  intros Hwf Hc Hp Hl Hf Hz expires He Hlt. pose proof (invite_codec i [] (or_introl eq_refl) Hwf) as Hd.
  rewrite app_nil_r in Hd. unfold ParseClientInvite. rewrite bool_decide_eq_false_2.
  2:{ unfold Encode. discriminate. }
  rewrite (proj2 (Z.ltb_ge _ _)), Hf, Hd by done. unfold mbind, HM_bind, hlift. rewrite Hc, Hp.
  unfold orNow. rewrite Hz. cbn -[parseRFC3339]. rewrite He. unfold Before. by rewrite (proj2 (Z.ltb_lt _ _)).
Qed.
