(* ===== verification/Enroll.v ===== *)
(** * The host's enrollment commands: internal/command

    enroll_server.go and server_admin.go: the acceptance of an enrollment
    request with the production installer, the check that keeps the enrollment
    listener alive, and the operator's revocation by invite or client. *)

From S2P Require Import Prelude GoStd Json StrictJson Time Host Locator Grant SshWire Crypto Packet Kex Listen.
From S2P Require Import ClientStore Server Clients AuthorizedKeys GrantSession Reconcile Invite Accept.
Import Time Json Clients AuthorizedKeys Reconcile.

Module Enroll.

Definition inviteDirectory : string := "/var/lib/warptweet/invites".
Definition serverStateDirectory : string := "/var/lib/warptweet/server".
Definition hostStateLockName : string := ".host.lock".

Section enroll.
Context {CR : Crypto}.
Context (H : hostEnv) (rnd : nat → nat → bytes).
Context (procRead : nat → string → result bytes) (procLink : nat → string → result string) (selfPid : Z).
Context (control : nat → bytes → result bytes) (groupAccess : nat → bool).

(** The installer: the line of the key is rendered for the host's target and
    appended to the authorized-keys file. *)
Definition installAuthorization (manifest : Server.Config) (publicKey : string) (notAfter : Time) : HM () :=
  match Server.RenderAuthorizedKey manifest (to_bytes publicKey) notAfter with
  | Err e => invalid (errText e)
  | Ok line => appendAuthorizedKey H (Server.AuthorizedKeysPath manifest) line
  end.

Definition acceptInput (manifest : Server.Config) (hostPublicKey : string) (request : Accept.EnrollmentRequest)
    (now : Time) : Accept.AcceptInput :=
  Accept.mkAcceptInput inviteDirectory ClientsDirectory request hostPublicKey (Server.DedicatedUser manifest)
    Profile.CurrentID (Netip.addr_string (Server.e_Address (Server.Target manifest)))
    (Server.e_Port (Server.Target manifest) mod 2 ^ 16) (Server.PublishedSet (Server.Net manifest)) now
    (Some (installAuthorization manifest)).

Definition acceptAndAuthorizeLocked (manifest : Server.Config) (hostPublicKey : string)
    (request : Accept.EnrollmentRequest) (now : Time) : HM Accept.EnrollmentProof :=
  blocked ← Grant.ClockIsBlocked H HostClockBlockedPath;
  if (blocked : bool) then hfail (EMsg "host clock is blocked")
  else
    result ← Accept.Accept H (acceptInput manifest hostPublicKey request now);
    mret (Accept.Proof_ result).

(** host.go: [withHostStateLock], through lock.go's
    [WithNonBlockingExclusiveLock]; a held lock is a failed call. *)
Definition withHostStateLock {A} (fn : HM A) : HM A :=
  withLock H serverStateDirectory hostStateLockName "resource" fn.

Definition acceptAndAuthorize (manifest : Server.Config) (hostPublicKey : string)
    (request : Accept.EnrollmentRequest) (now : Time) : HM Accept.EnrollmentProof :=
  withHostStateLock (acceptAndAuthorizeLocked manifest hostPublicKey request now).

(** The body of /v1/enroll. *)
Definition enrollRequest (manifest : Server.Config) (hostPublicKey : string) (body : bytes)
    : HM Accept.EnrollmentProof :=
  request ← hlift (unmarshal Accept.requestFields Accept.zeroRequest body);
  now ← Host.now H;
  acceptAndAuthorize manifest hostPublicKey request now.

(** The enrollment listener stays while an invite can still be used. *)
Definition usable (now : Time) (record : Invite.InviteRecord) : bool :=
  eqs (Invite.Status record) Invite.StatusIssued
  && match Invite.InviteExpiry record with Err _ => true | Ok expires => After expires now end.
Definition hasUnexpiredIssuedInvite : HM bool :=
  r ← htry (Invite.List H inviteDirectory);
  match r with
  | Err _ => mret true
  | Ok records => now ← Host.now H; mret (existsb (usable now) records)
  end.

Definition enrollmentURLForManifest (manifest : Server.Config) : result string :=
  let dial := Server.Dial (Server.n_Enrollment (Server.Net manifest)) in
  host ← Locator.Canonical (Locator.Host dial);
  Accept.EnrollmentURL host (Locator.Port dial).

(** ** server_admin.go *)

Definition revokeGrantAsHost (clientID : string) (now : Time) : HM ClientStore.ClientRecord :=
  manifest ← Server.Load H ServerManifestPath;
  RevokeClientAsHost H rnd ClientsDirectory clientID now (Some (removeKey H manifest))
    (productionEnforcement H procRead procLink selfPid control groupAccess).

(** What the command reports. *)
Inductive revokeReport :=
| Cancelled (inviteID prior : string)
| RevokedInvite (inviteID clientID prior : string)
| RevokedClient (clientID : string).

Definition runServerRevoke (id : string) : HM revokeReport :=
  if negb (isHexID id) then hfail (EMsg "revoke id must be a hexadecimal identifier")
  else
    now ← Host.now H;
    r ← htry (Invite.Load H inviteDirectory id);
    match r with
    | Ok record =>
        if eqs (Invite.Status record) Invite.StatusIssued || eqs (Invite.Status record) Invite.StatusCancelled
           || (eqs (Invite.Status record) Invite.StatusExpired && eqs (Invite.ClientID record) "")
        then
          cancelled ← Invite.Cancel H inviteDirectory id now;
          mret (Cancelled (Invite.InviteID (Invite.r_Invite cancelled)) (Invite.Status record))
        else if eqs (Invite.ClientID record) "" then hfail (EMsg "consumed invite has no client_id")
        else
          client ← revokeGrantAsHost (Invite.ClientID record) now;
          Invite.Revoke H inviteDirectory id now;;
          mret (RevokedInvite id (ClientStore.ClientID client) (Invite.Status record))
    | Err e =>
        if negb (IsNotExist e) then hfail e
        else
          loaded ← htry (LoadClient H ClientsDirectory id);
          match loaded with
          | Ok _ => client ← revokeGrantAsHost id now; mret (RevokedClient (ClientStore.ClientID client))
          | Err e => if negb (IsNotExist e) then hfail e
                     else hfail (EMsg ("unknown invite or client " ++ id))
          end
    end.

End enroll.
End Enroll.
