(* ===== verification/EnrollProps.v ===== *)
(** * An invite is used once

    Acceptance on the installed layout: the invite's record, the client's
    record and the authorized-keys file live apart, so the life cycle of an
    invite holds across everything an acceptance does, and a used invite
    serves only the client it was used by. *)

From S2P Require Import Prelude GoStd Json StrictJson Time Host Locator Grant GrantProps SshWire Crypto Packet.
From S2P Require Import Kex Listen ClientStore ClientCodec Server Clients ClientProps AuthorizedKeys GrantSession.
From S2P Require Import ServerProps SessionProps Reconcile Frame Layout Invite Accept InviteClient InviteProps Enroll.
Import Time Json Clients Reconcile Invite Enroll.
Import Accept.

(** ** Paths *)

Lemma inviteDirectory_clean : clean_root inviteDirectory.
Proof. split_and!; [vm_compute; reflexivity|vm_compute; reflexivity|discriminate]. Qed.

Lemma hexID_plain id : isHexID id = true → plain_name id.
Proof.
  intros Hid. destruct (hexID_chars id Hid) as [Hne Hh]. split_and!; [done|by apply hexID_no_slash| |].
  - intros ->. apply List.Forall_cons_iff in Hh as [Hc _]. unfold hex_char in Hc. vm_compute in Hc. intuition congruence.
  - intros ->. apply List.Forall_cons_iff in Hh as [Hc _]. unfold hex_char in Hc. vm_compute in Hc. intuition congruence.
Qed.

(** A plain name in a clean directory is a clean directory. *)
Lemma clean_child root name : clean_root root → plain_name name → clean_root (root ++ "/" ++ name).
Proof.
  intros Hr Hn. pose proof (Join_plain root name Hr Hn) as Hj. destruct Hr as (Hp & Hc & Hne). split_and!.
  - unfold Strings.has_prefix in *. apply bool_decide_eq_true in Hp. apply bool_decide_eq_true.
    rewrite Locator.to_bytes_append. cbn [String.length] in *. destruct (to_bytes root); [done|]. exact Hp.
  - rewrite <- Hj at 2. unfold Filepath.Join. by rewrite (bool_decide_eq_false_2 (root = _)) by (by intros ->).
  - destruct Hn as (Hn & _). intros E. apply (f_equal String.length) in E.
    rewrite <- !length_to_bytes, !Locator.to_bytes_append, !length_app in E. cbn in E.
    destruct root as [|c root]; [by cbn in Hp|]. destruct name as [|d name]; [done|].
    rewrite !length_to_bytes in E. cbn in E. lia.
Qed.

Lemma inviteDir_eq id : isHexID id = true → inviteDir inviteDirectory id = (inviteDirectory ++ "/" ++ id)%string.
Proof. intros Hid. apply Join_plain; [apply inviteDirectory_clean|by apply hexID_plain]. Qed.
Lemma inviteDir_clean id : isHexID id = true → clean_root (inviteDir inviteDirectory id).
Proof. intros Hid. rewrite inviteDir_eq by done. apply clean_child; [apply inviteDirectory_clean|by apply hexID_plain]. Qed.
Lemma record_name_plain : plain_name "record.json".
Proof. split_and!; [done|by apply (bool_decide_unpack _)|done|done]. Qed.

Lemma recordPath_eq id :
  isHexID id = true → recordPath inviteDirectory id = (inviteDirectory ++ "/" ++ id ++ "/record.json")%string.
Proof.
  intros Hid. unfold recordPath. rewrite Join_plain; [|by apply inviteDir_clean|apply record_name_plain].
  rewrite inviteDir_eq by done. apply to_bytes_inj. by rewrite !Locator.to_bytes_append, <- !app_assoc.
Qed.

(** ** Areas *)

(** The files of one invite. *)
Definition inviteArea (H : hostEnv) (id p : string) : Prop :=
  p = recordPath inviteDirectory id ∨ p = Filepath.Join inviteDirectory ("." ++ id ++ ".lock") ∨
  ∃ n, p = tempName H (recordPath inviteDirectory id) ".wt-invite-" n.

Lemma recordPath_below id : isHexID id = true → below inviteDirectory (recordPath inviteDirectory id).
Proof. intros Hid. rewrite recordPath_eq by done. by eexists. Qed.

Lemma inviteArea_below H id p : isHexID id = true → inviteArea H id p → below inviteDirectory p.
Proof.
  intros Hid [-> |[-> |[n ->]]]; [by apply recordPath_below| |].
  - exists ("." ++ id ++ ".lock")%string.
    apply Join_plain; [apply inviteDirectory_clean|by apply lock_file_plain, hexID_no_slash].
  - unfold tempName, recordPath.
    rewrite (Join_plain (inviteDir inviteDirectory id)), Dir_file;
      [|by apply inviteDir_clean|apply record_name_plain|by apply inviteDir_clean|apply record_name_plain].
    rewrite inviteDir_eq by done. exists (id ++ "/" ++ ".wt-invite-" ++ h_temp H n)%string.
    apply to_bytes_inj. by rewrite !Locator.to_bytes_append, <- !app_assoc.
Qed.

Lemma invites_not_clients p : below inviteDirectory p → ¬ below ClientsDirectory p.
Proof. apply below_disjoint. vm_compute. reflexivity. Qed.
Lemma invites_not_keys p : below inviteDirectory p → ¬ below Server.AuthorizedKeysDirectory p.
Proof. apply below_disjoint. vm_compute. reflexivity. Qed.

(** ** What the client store touches *)

Section clients.
Context (H : hostEnv).

Lemma within_writeClient r : within (clientArea H (ClientStore.ClientID r)) (writeClientAtomic H ClientsDirectory r).
Proof.
  unfold writeClientAtomic, writeFileAtomic. frame.
  apply within_replaceFile; [by left|intros n; right; right; eauto|frame].
Qed.
Lemma moves_LoadClient R `{!PreOrder R} dir id : moves R (LoadClient H dir id).
Proof. unfold LoadClient. frame. Qed.
Lemma within_StoreClient r : within (clientArea H (ClientStore.ClientID r)) (StoreClient H ClientsDirectory r).
Proof. unfold StoreClient, ensureClientsDirectory. frame. apply within_writeClient. Qed.
Lemma within_UpdateClient r : within (clientArea H (ClientStore.ClientID r)) (UpdateClient H ClientsDirectory r).
Proof.
  unfold UpdateClient, lockClient. frame. apply within_withLock; [by right; left|]. frame.
  - apply moves_LoadClient; apply _.
  - apply within_writeClient.
Qed.

(** A client area without the record of an invite. *)
Lemma clientArea_not_record id inviteID :
  isHexID id = true → isHexID inviteID = true → ∀ p, clientArea H id p → p ≠ recordPath inviteDirectory inviteID.
Proof.
  intros Hid Hinv p Hp ->. apply (clientArea_below H id _ Hid) in Hp.
  by apply (invites_not_clients (recordPath inviteDirectory inviteID)), Hp; apply recordPath_below.
Qed.

End clients.

(** ** Acceptance *)

Section accept.
Context {CR : Crypto} (H : hostEnv) (inviteID : string).
Hypothesis Hhex : isHexID inviteID = true.

(** A program that leaves the invite's record alone. *)
Let spares : string → Prop := λ p, p ≠ recordPath inviteDirectory inviteID.

Abbreviation holds := (holds inviteDirectory inviteID).
Abbreviation evolves := (evolves inviteDirectory inviteID).

Lemma spares_holds {A} (m : HM A) r : within spares m → htriple (λ fs, holds fs r) m (λ _ fs, holds fs r).
Proof. intros Hm w Hw. eapply holds_same; [|exact Hw]. apply Hm. unfold spares. tauto. Qed.

Lemma within_runInstall install key t :
  within spares (install key t) → within spares (runInstall install key t).
Proof. intros Hi. unfold runInstall. by frame. Qed.

Lemma within_update r : within spares (UpdateClient H ClientsDirectory r).
Proof using Hhex.
  destruct (isHexID (ClientStore.ClientID r)) eqn:Hid; [|unfold UpdateClient; rewrite Hid; apply moves_fail; apply _].
  eapply within_weaken; [apply within_UpdateClient|]. by apply clientArea_not_record.
Qed.
Lemma within_store r : within spares (StoreClient H ClientsDirectory r).
Proof using Hhex.
  destruct (isHexID (ClientStore.ClientID r)) eqn:Hid.
  - eapply within_weaken; [apply within_StoreClient|]. by apply clientArea_not_record.
  - unfold StoreClient, ensureClientsDirectory. rewrite Hid, orb_true_r. frame.
Qed.
Lemma within_enrollClient want install key :
  (∀ k t, within spares (install k t)) → within spares (enrollClient H ClientsDirectory want install key).
Proof using Hhex.
  intros Hi. unfold enrollClient, storeOrResumePendingClient.
  frame; first [apply within_store|apply moves_LoadClient; apply _|by apply within_runInstall|apply within_update].
Qed.

Lemma clientIDFor_ascii id key : ascii (clientIDFor id key).
Proof. apply Hex_ascii. Qed.

(** What an acceptance leaves of the invite [r0]: it evolves, and a success
    means that it is consumed by the client the result names. *)
Definition consumes (key : string) (r0 : InviteRecord) (res : result AcceptResult) fs : Prop :=
  evolves r0 res fs ∧ ∀ x, res = Ok x → ∃ r, holds fs r ∧ Status r = StatusConsumed ∧ r_Invite r = r_Invite r0 ∧
    ClientID r = clientIDFor inviteID key ∧
    (Status r0 = StatusConsumed → ClientID r0 = clientIDFor inviteID key).

Lemma consumes_err key r0 e fs : holds fs r0 → consumes key r0 (Err e) fs.
Proof. intros Hr. split; [by exists r0|done]. Qed.

(** The hooks of an acceptance. *)
Definition spared_input (input : AcceptInput) : Prop :=
  a_Directory input = inviteDirectory ∧
  (a_ClientsDirectory input = ClientsDirectory ∨ a_ClientsDirectory input = ""%string) ∧
  q_InviteID (a_Request input) = inviteID ∧
  ∀ f k t, a_InstallAuthorization input = Some f → within spares (f k t).

Lemma spares_then {A B} (m : HM A) (k : A → HM B) r (Q : result B → gmap string bytes → Prop) :
  within spares m → (∀ e fs, holds fs r → Q (Err e) fs) →
  (∀ a, htriple (λ fs, holds fs r) (k a) Q) → htriple (λ fs, holds fs r) (m ≫= k) Q.
Proof.
  intros Hm He Hk. eapply (htriple_bind _ _ (λ _ fs, holds fs r)); [|exact Hk].
  eapply htriple_weaken; [by apply (spares_holds m r)|done|]. intros [a|e] fs Hf; auto.
Qed.

Lemma acceptIssued_evolves input published now r0 key :
  spared_input input → wf_record r0 → InviteID (r_Invite r0) = inviteID → Status r0 = StatusIssued →
  htriple (λ fs, holds fs r0) (acceptIssued H input published now r0 (clientIDFor inviteID key) key)
    (consumes key r0).
Proof using Hhex.
  intros (Hdir & Hcl & Hid & Hhook) Hwf Hrid Hst. unfold acceptIssued. rewrite Hdir, Hrid.
  destruct (InviteExpiry r0) as [expires|]; [|apply htriple_fail; intros fs; apply consumes_err].
  destruct (a_InstallAuthorization input) as [install|] eqn:Hf; [|apply htriple_fail; intros fs; apply consumes_err].
  destruct (negb (Before now expires)).
  { eapply (htriple_bind _ _ (λ _ fs, evolves r0 (Ok () : result ()) fs)).
    - eapply htriple_weaken; [by apply markExpired_evolves|done|]. intros [[]|e] fs Hev; [done|by split].
    - intros _. apply htriple_fail. intros fs Hev. by split. }
  cbv zeta. destruct (_ =? 0); [apply htriple_fail; intros fs; apply consumes_err|].
  destruct (Grant.AuthorizationNotAfter _ _) as [[notAfter enc]|]; [|apply htriple_fail; intros fs; apply consumes_err].
  apply spares_then; [|intros e fs; apply consumes_err|].
  { destruct (negb (eqs (a_ClientsDirectory input) "")) eqn:Hd.
    - destruct Hcl as [Hcl|Hcl]; rewrite Hcl in *; [|discriminate Hd]. frame. apply within_enrollClient. intros k t. by apply Hhook.
    - frame. apply within_runInstall. by apply Hhook. }
  intros [[acceptedAt na] secs].
  eapply (htriple_bind _ _ (λ c fs, holds fs c ∧ used_by (clientIDFor inviteID key) r0 c)).
  - eapply htriple_weaken; [apply (Consume_evolves H inviteDirectory inviteID r0), clientIDFor_ascii|done|].
    intros [c|e] fs [Hev Hc]; [by apply Hc|by split].
  - intros c. apply htriple_ret. intros fs (Hc & H1 & H2 & H3 & H4). split.
    + exists c. split; [done|]. split_and!; [done| |by intros []]. rewrite H1, H2. by apply lives_once.
    + intros x [= <-]. exists c. split_and!; [done..|]. by rewrite H1.
Qed.

Lemma resume_evolves input r0 key :
  spared_input input → Status r0 = StatusConsumed →
  htriple (λ fs, holds fs r0) (resumeAcceptedEnrollment H input r0 (clientIDFor inviteID key) key)
    (consumes key r0).
Proof using Hhex.
  intros (Hdir & Hcl & Hid & Hhook) Hst. unfold resumeAcceptedEnrollment.
  destruct (negb (eqs (ClientID r0) _) || _) eqn:Hc; [apply htriple_fail; intros fs; apply consumes_err|].
  apply orb_false_iff in Hc as [Hc _]. apply negb_false_iff, bool_decide_eq_true in Hc.
  apply spares_then; [apply moves_try; apply moves_LoadClient; apply _|intros e fs; apply consumes_err|].
  intros [client|e]; [|apply htriple_fail; intros fs; apply consumes_err].
  destruct (_ || _); [apply htriple_fail; intros fs; apply consumes_err|].
  destruct (a_InstallAuthorization input) as [install|] eqn:Hf; [|apply htriple_fail; intros fs; apply consumes_err].
  destruct (Grant.ParseUTC _) as [notAfter|]; [|apply htriple_fail; intros fs; apply consumes_err].
  apply spares_then; [by apply moves_try, Hhook|intros e fs; apply consumes_err|].
  intros [[]|e]; [|apply htriple_fail; intros fs; apply consumes_err].
  apply htriple_ret. intros fs Hr. split; [by exists r0|]. intros x _. by exists r0.
Qed.

Lemma Accept_evolves input r0 :
  spared_input input →
  htriple (λ fs, holds fs r0) (Accept H input) (consumes (Strings.trim_space (q_PublicKey (a_Request input))) r0).
Proof using Hhex.
  intros Hin. pose proof Hin as (Hdir & Hcl & Hid & Hhook). unfold Accept. rewrite Hdir, Hid.
  set (key := Strings.trim_space _).
  destruct (checkInput input) as [published|e]; [|apply htriple_fail; intros fs; apply consumes_err].
  apply (ret_bind _ published). apply orNow_then. intros now.
  apply lockInvite_rule; [intros e fs; apply consumes_err|].
  eapply (htriple_bind _ _ (λ l fs, holds fs r0 ∧ ∀ r, l = Ok r → r = r0)).
  { apply htriple_try. eapply htriple_weaken; [apply (Load_holds H inviteDirectory inviteID r0)|done|done]. }
  intros [r|e]; [|apply htriple_fail; intros fs [Hr _]; by apply consumes_err].
  intros w [Hw Hr]. rewrite (Hr r eq_refl). clear Hr r. revert w Hw.
  refine (_ : htriple (λ fs, holds fs r0) _ _).
  intros w Hw. pose proof Hw as (_ & _ & _ & Hwf & Hrid & _). revert w Hw.
  refine (_ : htriple (λ fs, holds fs r0) _ _). rewrite Hrid.
  destruct (orBad _ _) as [recordSet|e]; [|apply htriple_fail; intros fs; apply consumes_err].
  apply (ret_bind _ recordSet).
  destruct (negb (Locator.EqualSet _ _)); [apply htriple_fail; intros fs; apply consumes_err|]. cbv zeta.
  destruct (eqs (Status r0) StatusConsumed) eqn:Hc.
  { apply bool_decide_eq_true in Hc. by apply resume_evolves. }
  destruct (negb (eqs (Status r0) StatusIssued)) eqn:Hs; [apply htriple_fail; intros fs; apply consumes_err|].
  apply negb_false_iff, bool_decide_eq_true in Hs.
  destruct (checkInvite input r0) as [[]|e]; [|apply htriple_fail; intros fs; apply consumes_err].
  apply (ret_bind _ ()). by apply acceptIssued_evolves.
Qed.

End accept.

(** ** The life of an invite *)

Section life.
Context {CR : Crypto} (inviteID : string).
Hypothesis Hhex : isHexID inviteID = true.

(** One operation on the invite, on any host, with any installer that leaves
    the invite's record alone and any system calls failing. *)
Inductive inviteStep (w : world) : world → Prop :=
| s_accept H input : spared_input inviteID input → inviteStep w (Accept H input w).2
| s_consume H clientID now : ascii clientID → inviteStep w (Consume H inviteDirectory inviteID clientID now w).2
| s_cancel H now : inviteStep w (Cancel H inviteDirectory inviteID now w).2
| s_revokeInvite H now : inviteStep w (Revoke H inviteDirectory inviteID now w).2.

Lemma inviteStep_follows w w' : inviteStep w w' → follows inviteDirectory inviteID (files w) (files w').
Proof using Hhex.
  intros [H input Hin|H clientID now Ha|H now|H now] r0 Hr0.
  - exact (proj1 (Accept_evolves H inviteID Hhex input r0 Hin w Hr0)).
  - exact (proj1 (Consume_evolves H inviteDirectory inviteID r0 clientID now Ha w Hr0)).
  - exact (proj1 (Cancel_evolves H inviteDirectory inviteID r0 now w Hr0)).
  - exact (proj1 (Revoke_evolves H inviteDirectory inviteID r0 now w Hr0)).
Qed.

Lemma inviteSteps_follow w w' : rtc inviteStep w w' → follows inviteDirectory inviteID (files w) (files w').
Proof using Hhex.
  induction 1 as [w|w w1 w' Hs _ IH]; [reflexivity|]. etrans; [by apply inviteStep_follows|done].
Qed.


Lemma lives_consumed a : lives a StatusConsumed → a ≠ StatusIssued → a = StatusConsumed.
Proof.
  intros Hl Ha. apply rtc_inv_r in Hl as [-> |(x & Hax & Hx)]; [done|]. exfalso.
  assert (lives a x) as Hl by exact Hax. apply (lives_left _ _ Hl Ha).
  revert Hx. unfold lifeEdge. change (eqs StatusConsumed StatusRevoked) with false.
  change (eqs StatusConsumed StatusCancelled) with false. cbn [orb]. rewrite !andb_false_r, !orb_false_r.
  intros [Hx _]%andb_true_iff. by apply bool_decide_eq_true in Hx.
Qed.

(** An invite that does not serve [key]: used by another client, or closed. *)
Definition spent (key : string) (r : InviteRecord) : Prop :=
  Status r ≠ StatusIssued ∧ (Status r = StatusConsumed → ClientID r ≠ clientIDFor inviteID key).

Let lockFile : string → Prop := λ p, p = Filepath.Join inviteDirectory ("." ++ inviteID ++ ".lock").

(** The request is refused before anything but the lock file is touched. *)
Definition refused (fs0 : gmap string bytes) (res : result AcceptResult) fs : Prop :=
  (∃ e, res = Err e) ∧ outside lockFile fs0 fs.

Lemma Accept_refused H input r fs0 :
  a_Directory input = inviteDirectory → q_InviteID (a_Request input) = inviteID →
  spent (Strings.trim_space (q_PublicKey (a_Request input))) r →
  htriple (λ fs, outside lockFile fs0 fs ∧ holds inviteDirectory inviteID fs r) (Accept H input) (refused fs0).
Proof using Hhex.
  intros Hdir Hid [Hni Hcl]. unfold Accept. rewrite Hdir, Hid.
  set (P := λ fs, outside lockFile fs0 fs ∧ holds inviteDirectory inviteID fs r).
  assert (∀ e fs, P fs → refused fs0 (Err e) fs) as Herr by (intros e fs [Ho _]; split; [by exists e|done]).
  destruct (checkInput input) as [published|e]; [|apply htriple_fail; intros fs; apply Herr].
  apply (ret_bind _ published). apply orNow_then. intros now.
  apply withLock_rule_at; [| |done].
  { intros fs [Ho Hr] Hl. split; [etrans; [exact Ho|by apply outside_insert]|].
    eapply holds_same; [|exact Hr]. destruct Hr as (raw & Hraw & _). apply lookup_insert_ne. congruence. }
  eapply (htriple_bind _ _ (λ l fs, P fs ∧ ∀ x, l = Ok x → x = r)).
  { apply htriple_try. intros w [Ho Hr]. pose proof (Load_holds H inviteDirectory inviteID r w Hr) as [Hr' Hx].
    split; [|exact Hx]. split; [|done].
    assert (moves (λ a b, b = a) (Load H inviteDirectory inviteID)) as Hm.
    { unfold Load. assert (PreOrder (λ a b : gmap string bytes, b = a)) by (split; [done|by intros ? ? ? -> ->]). frame. }
    by rewrite (Hm w). }
  intros [x|e]; [|apply htriple_fail; intros fs [Hp _]; by apply Herr].
  intros w [Hp Hx]. rewrite (Hx x eq_refl). clear Hx x. pose proof Hp as (_ & _ & _ & _ & _ & Hrid & _). revert w Hp.
  refine (_ : htriple P _ _). rewrite Hrid.
  destruct (orBad _ _) as [recordSet|e]; [|apply htriple_fail; intros fs; apply Herr].
  apply (ret_bind _ recordSet). destruct (negb (Locator.EqualSet _ _)); [apply htriple_fail; intros fs; apply Herr|].
  cbv zeta. destruct (eqs (Status r) StatusConsumed) eqn:Hc.
  - apply bool_decide_eq_true in Hc. unfold resumeAcceptedEnrollment.
    assert (eqs (ClientID r) (clientIDFor inviteID (Strings.trim_space (q_PublicKey (a_Request input)))) = false) as ->
      by (apply bool_decide_eq_false; auto).
    apply htriple_fail. intros fs. apply Herr.
  - assert (eqs (Status r) StatusIssued = false) as -> by (by apply bool_decide_eq_false).
    apply htriple_fail. intros fs. apply Herr.
Qed.

Lemma spent_evolved key r r' : spent key r → evolved r r' → spent key r'.
Proof using.
  intros [Hni Hcl] (_ & Hl & Hid). split; [by eapply lives_left|]. intros Hc. rewrite Hid by done. apply Hcl.
  apply lives_consumed; [|done]. by rewrite <- Hc.
Qed.

(** C22: an invite is single-use.  Once it has been used by one key (or
    cancelled, expired or revoked), then whatever operations follow, a request
    with another key is refused, and refusing it touches no file but the
    invite's lock: no client is stored and no authorization installed. *)
Theorem invite_single_use H input w w' r :
  holds inviteDirectory inviteID (files w) r → rtc inviteStep w w' →
  a_Directory input = inviteDirectory → q_InviteID (a_Request input) = inviteID →
  spent (Strings.trim_space (q_PublicKey (a_Request input))) r →
  (∃ e, (Accept H input w').1 = Err e) ∧
  ∀ p, p ≠ Filepath.Join inviteDirectory ("." ++ inviteID ++ ".lock") →
    files (Accept H input w').2 !! p = files w' !! p.
Proof using Hhex.
  intros Hr Hs Hdir Hid Hsp. destruct (inviteSteps_follow w w' Hs r Hr) as (r' & Hr' & Hev).
  destruct (Accept_refused H input r' (files w') Hdir Hid (spent_evolved _ _ _ Hsp Hev) w') as [He Ho]; [by split|].
  split; [done|]. intros p Hp. by apply Ho.
Qed.

End life.
