(* ===== verification/HostWitness.v ===== *)
(** * The host-side theorems on concrete inputs

    A client record on disk, an authorized-keys file and a directory of
    sessions, on which the theorems about grants, clients and sessions are
    evaluated. *)

From S2P Require Import Prelude GoStd Json StrictJson Time Host Locator Grant GrantProps SshWire Crypto Packet.
From S2P Require Import Kex Sample Listen ClientStore ClientCodec Clients ClientProps AuthorizedKeys GrantSession.
From S2P Require Import SessionProps.
Import Time Json Locator Clients Toy.

(** ** Expiry of a grant *)

(** A host whose state is whether the key is authorized and the session
    live. *)
Definition pairOps : Grant.ExpireOps (bool * bool) :=
  Grant.mkExpireOps
    (Some (λ (_ : string) (s : bool * bool), (Ok (), (false, s.2))))
    (Some (λ (_ : string) (s : bool * bool), (if s.1 then Err (EMsg "present") else Ok (), s)))
    (Some (λ (_ _ _ : string) (s : bool * bool), (Ok (), (s.1, false))))
    (Some (λ (_ _ _ : string) (s : bool * bool), (if s.2 then Err (EMsg "running") else Ok (), s)))
    (Some (λ s : bool * bool, (Ok "burned"%string, s))).

Lemma pairHost : ExpireHost pairOps (λ _ s, s.1 = false) (λ _ s, s.2 = false).
Proof.
  constructor.
  - intros f k [a b] [= <-]. by destruct a.
  - intros f c [a b] [= <-]. by destruct b.
  - intros f c k s [= <-]. done.
  - intros f c k s [= <-]. done.
Qed.

Definition duePlan : Grant.ExpirePlan :=
  Grant.mkExpirePlan "ab" "g1" "key" "digest" Grant.StatusActive 5 7.

Lemma expire_takes_effect_witness :
  Grant.ExecuteExpire duePlan pairOps (true, true) = (Ok (), (false, false)) ∧
  ((false, false) : bool * bool).1 = false.
Proof.
  split; [vm_compute; reflexivity|].
  exact (proj1 (proj1 (@expire_takes_effect _ pairOps _ _ pairHost duePlan (true, true) (false, false)
    ltac:(vm_compute; reflexivity)))).
Defined.

(** ** A client on disk *)

Definition sampleDial (name : string) (port : Z) : DialEndpoint :=
  mkEndpoint (mkDialHost Netip.AddrInvalid name) port.
Definition sampleClient : ClientStore.ClientRecord :=
  ClientStore.mkClient "ab12" "grant-1" "tunnel-1" "route-1" "inv1" "ssh-mldsa44-ed25519@openssh.com AAAA"
    "digest" "tokenhash" "warptweet" "profile" "artifact"
    (mkEndpointSet 1 (sampleDial "tunnel.example.com" 443) (sampleDial "enroll.example.com" 8443))
    "127.0.0.1" 22 "revocation_pending" "2026-01-01T00:00:00Z" "2026-02-01T00:00:00Z" 2678400
    "" "" "g1" "" "" "" "" "2026-01-02T00:00:00Z".
Definition clientsDir : string := "/var/lib/warptweet/clients".
Definition clientWorld : world :=
  mkWorld (<[clientPath clientsDir "ab12" := get_ok [] (ClientStore.clientText sampleClient)]> ∅) 0.

Lemma sampleEndpoint_wf name port :
  0 ≤ port < 2 ^ 16 → ascii name → Canonical (mkDialHost Netip.AddrInvalid name) = Ok name →
  ParseDialHost name = Ok (mkDialHost Netip.AddrInvalid name) → wf_endpoint (sampleDial name port).
Proof. intros Hp Ha Hc Hh. split; [exact Hp|]. exists name. by split_and!. Qed.

Lemma sampleClient_wf : wf_client sampleClient.
Proof.
  split; [|split; [|split; [|split; [|split]]]].
  - unfold texts. repeat (constructor; [by apply ascii_forallb|]). constructor.
  - apply sampleEndpoint_wf; [lia|by apply ascii_forallb|vm_compute; reflexivity..].
  - apply sampleEndpoint_wf; [lia|by apply ascii_forallb|vm_compute; reflexivity..].
  - cbn [ClientStore.Published sampleClient ps_Generation]. lia.
  - cbn [ClientStore.TargetPort sampleClient]. lia.
  - cbn [ClientStore.AuthorizationDurationSeconds sampleClient]. lia.
Qed.

Lemma sampleClient_stored : stored clientsDir "ab12" (files clientWorld) sampleClient.
Proof.
  exists (get_ok [] (ClientStore.clientText sampleClient)).
  split_and!; [vm_compute; reflexivity|vm_compute; reflexivity|apply sampleClient_wf|reflexivity].
Qed.

Definition fixedRand (_ n : nat) : bytes := replicate n (bz 7).
Definition noEnforcement : SessionEnforcement := mkEnforcement None None.
Definition revokedWorld : world :=
  (RevokeClientAsHost calmHost fixedRand clientsDir "ab12" 5 (Some (λ _, mret ())) noEnforcement clientWorld).2.

(** The record in a client's file. *)
Definition readAt (directory clientID : string) (w : world) : option ClientStore.ClientRecord :=
  raw ← files w !! clientPath directory clientID;
  match ClientStore.readClient raw with Ok r => Some r | Err _ => None end.

Lemma revokedWorld_step : clientStep calmHost fixedRand clientsDir "ab12" clientWorld revokedWorld.
Proof.
  apply s_revokeAsHost; [by intros f k [= <-]|split; by intros f].
Qed.


(** The revocation that was pending completes. *)
Lemma revocation_is_final_witness :
  ClientStore.Status <$> readAt clientsDir "ab12" revokedWorld = Some "revoked"%string ∧
  ∃ r, stored clientsDir "ab12" (files revokedWorld) r ∧
    (ClientStore.Status r = ClientStatusRevocationPending ∨ ClientStore.Status r = ClientStatusRevoked).
Proof.
  split; [vm_compute; reflexivity|].
  apply (revocation_is_final calmHost fixedRand clientsDir "ab12" clientWorld revokedWorld sampleClient).
  - apply rtc_once, revokedWorld_step.
  - apply sampleClient_stored.
  - by left.
Defined.

(** ** Authorized keys *)

Definition keysPath : string := "/var/lib/warptweet/authorized_keys/warptweet".
Definition keysWorld : world :=
  mkWorld (<[keysPath := to_bytes "restrict,x ssh-a AAAA one" ++ [bz 10] ++ to_bytes "restrict,x ssh-a BBBB two" ++ [bz 10]]> ∅) 0.

Lemma remove_key_exact_witness :
  let '(r, w') := AuthorizedKeys.removeAuthorizedKeyForPublicKey calmHost keysPath "ssh-a AAAA" keysWorld in
  r = Ok () ∧ AuthorizedKeys.lines_at keysPath (files w') = ["restrict,x ssh-a BBBB two"%string].
Proof.
  pose proof (AuthorizedKeys.remove_key_exact calmHost keysPath "ssh-a AAAA" keysWorld
    ltac:(by intros n) ltac:(intros n; vm_compute; discriminate) ltac:(vm_compute; discriminate)) as Hx.
  destruct (AuthorizedKeys.removeAuthorizedKeyForPublicKey _ _ _ _) as [r w'] eqn:Hr.
  assert (r = Ok ()) as Hok by (vm_compute in Hr; congruence). split; [exact Hok|].
  destruct Hx as [_ Hx]. destruct (Hx Hok) as [-> _]. vm_compute. reflexivity.
Defined.

(** ** Sessions *)

Definition sampleSession (client exe : string) : GrantSession.Session :=
  GrantSession.mkSession GrantSession.Kind_ 1 "grant-1" client "g1"
    "0123456789abcdef0123456789abcdef0123456789abcdef0123456789abcdef"
    "00000000000000000000000000000000000000000000000000000000000000ff"
    "boot" 77 "1234" exe "conn-1" "2026-01-01T00:00:00Z".
Definition sessionsDir : string := "/var/lib/warptweet/sessions".
Definition sampleAuthority : GrantSession.Authority :=
  GrantSession.mkAuthority sessionsDir clientsDir (sessionsDir ++ "/grant.lock") "".
Definition sessionFile (s : GrantSession.Session) : bytes := print (GrantSession.sessionJSON s) ++ [bz 10].
Definition sessionWorld (exe : string) : world :=
  mkWorld (<[(sessionsDir ++ "/ab12-g1-conn-1.json")%string := sessionFile (sampleSession "ab12" exe)]>
          (<[(sessionsDir ++ "/cd34-g1-conn-1.json")%string := sessionFile (sampleSession "cd34" exe)]> ∅)) 0.
(** A host without processes, and a data plane with one tracked session. *)
Definition noProc (_ : nat) (_ : string) : result bytes := Err (EOS ENOENT).
Definition noLink (_ : nat) (_ : string) : result string := Err (EOS ENOENT).
Definition sampleTable : sessionTable :=
  track (mkSession 9 "conn-1" "00000000000000000000000000000000000000000000000000000000000000ff") None.
Definition samplePlane (_ : nat) (request : bytes) : result bytes :=
  Ok (GrantSession.handleControl request sampleTable).1.

Lemma sampleSessions_clean : clean_root sessionsDir.
Proof. split_and!; [vm_compute; reflexivity|vm_compute; reflexivity|discriminate]. Qed.


Lemma drop_request_served_witness :
  GrantSession.handleControl
    (dropRequest "00000000000000000000000000000000000000000000000000000000000000ff") sampleTable
  = (GrantSession.EncodeOK, [9%nat]).
Proof.
  rewrite (proj1 (drop_request_served "00000000000000000000000000000000000000000000000000000000000000ff" sampleTable
    ltac:(vm_compute; reflexivity) ltac:(vm_compute; reflexivity))).
  vm_compute. reflexivity.
Defined.

Lemma terminate_sound_witness :
  let '(r, w') := GrantSession.Terminate calmHost noProc noLink 1 samplePlane (λ _, false) sampleAuthority
                    "ab12" "" "" (sessionWorld "/opt/warptweet/bin/warptweet") in
  r = Ok () ∧ ∃ mid, (∀ p, is_Some (files (sessionWorld "/opt/warptweet/bin/warptweet") !! p) →
                       mid !! p = files (sessionWorld "/opt/warptweet/bin/warptweet") !! p) ∧
    sessions_dropped samplePlane sessionsDir "ab12" "" "" mid (files w').
Proof.
  pose proof (terminate_sound calmHost noProc noLink 1 samplePlane (λ _, false) sampleAuthority "ab12" "" ""
    (sessionWorld "/opt/warptweet/bin/warptweet") ltac:(by intros n)) as Hx.
  destruct (GrantSession.Terminate _ _ _ _ _ _ _ _ _ _ _) as [r w'] eqn:Hr.
  assert (r = Ok ()) as Hok by (vm_compute in Hr; congruence). split; [exact Hok|]. by apply Hx.
Defined.
