(* ===== verification/ReconcileWitness.v ===== *)
(** * The host theorems on concrete inputs

    A host with a valid configuration, one client record, its line in the
    authorized-keys file and a session, on which the theorems about expiry,
    reconciliation and failing closed are evaluated. *)

From S2P Require Import Prelude GoStd Json StrictJson Time Text Host Locator Grant GrantProps SshWire Crypto Packet.
From S2P Require Import Kex Sample Listen ClientStore ClientCodec Server ServerProps Clients ClientProps AuthorizedKeys.
From S2P Require Import GrantSession SessionProps Reconcile Frame Layout ReconcileProps ReconcileLoop ReconcileKeys.
From S2P Require Import HostWitness.
Import Time Json Netip Locator Server Wire Kex Clients Reconcile Toy.

(** ** A configuration *)

Definition hex64 : string := "0123456789abcdef0123456789abcdef0123456789abcdef0123456789abcdef".
Definition sampleConfig : Config :=
  mkConfig ManifestKind 2 Profile.CurrentID hex64 hex64
    (mkNetwork 1 (mkService (mkBind (Addr4 3232235777) 443) (sampleDial "tunnel.example.com" 443))
                 (mkService (mkBind (Addr4 3232235777) 8443) (sampleDial "enroll.example.com" 8443)))
    (mkEndpoint_ (Addr4 167772161) 22) "warptweet" ServerHostKeyPath (AuthorizedKeysDirectory ++ "/warptweet").

Lemma sampleConfig_valid : validate sampleConfig = Ok Profile.current.
Proof. vm_compute. reflexivity. Qed.

(** ** A client whose lease has ended *)

Definition sampleRaw : bytes := replicate 1344 (bz 5).
Definition sampleKey : string := Algorithm ++ " " ++ Base64.encode_to_string (SshWire.key_blob Algorithm sampleRaw).
Definition leaseEnd : Time := time_of (mkFields 2026 2 1 0 0 0 0).
Definition leased : ClientStore.ClientRecord :=
  ClientStore.set_Status ClientStatusActive
    (ClientStore.set_PublicKey sampleKey
      (ClientStore.mkClient "ab12" "grant-1" "tunnel-1" "route-1" "inv1" "" "digest" "tokenhash" "warptweet" "profile" "artifact"
        (mkEndpointSet 1 (sampleDial "tunnel.example.com" 443) (sampleDial "enroll.example.com" 8443))
        "10.0.0.1" 22 "" "2026-01-01T00:00:00Z" "2026-02-01T00:00:00Z" 2678400 "" "" "g1" "" "" "" "" "")).
Definition leasedLine : bytes := get_ok [] (RenderAuthorizedKey sampleConfig (to_bytes sampleKey) leaseEnd).
Definition leasedFiles : gmap string bytes :=
  <[clientPath ClientsDirectory "ab12" := get_ok [] (ClientStore.clientText leased)]>
  (<[AuthorizedKeysPath sampleConfig := leasedLine]>
  (<[(GrantSessionsDirectory ++ "/ab12-g1-conn-1.json")%string :=
       sessionFile (sampleSession "ab12" "/opt/warptweet/bin/warptweet")]> ∅)).
Definition leasedWorld : world := mkWorld leasedFiles 0.

Lemma leased_wf r : r = leased ∨ r = ClientStore.set_Status ClientStatusRevocationPending leased → wf_client r.
Proof.
  intros Hr. assert (∀ status, ascii status → wf_client (ClientStore.set_Status status leased)) as Hwf.
  { intros status Hs. split; [|split; [|split; [|split; [|split]]]].
    - unfold texts, leased. cbn -[sampleKey]. repeat (constructor; [first [assumption|by apply ascii_forallb]|]). constructor.
    - apply sampleEndpoint_wf; [lia|by apply ascii_forallb|vm_compute; reflexivity..].
    - apply sampleEndpoint_wf; [lia|by apply ascii_forallb|vm_compute; reflexivity..].
    - cbn. lia.
    - cbn. lia.
    - cbn. lia. }
  destruct Hr as [-> | ->]; [apply (Hwf ClientStatusActive)|apply Hwf]; by apply ascii_forallb.
Qed.

(** Lookups in the sample files. *)
Lemma leased_read : read_at leasedFiles "ab12" leased.
Proof.
  exists (get_ok [] (ClientStore.clientText leased)). split; [apply lookup_insert_eq|]. vm_compute. reflexivity.
Qed.

Lemma leased_only id r : isHexID id = true → read_at leasedFiles id r → id = "ab12"%string ∧ r = leased.
Proof.
  intros Hid (raw & Hraw & Hr). unfold leasedFiles in Hraw.
  assert (below ClientsDirectory (clientPath ClientsDirectory id)) as Hb by (rewrite clientPath_eq by done; by eexists).
  rewrite !lookup_insert_Some in Hraw. destruct Hraw as [[E <-]|[_ [[E _]|[_ [[E _]|[_ Hraw]]]]]].
  - rewrite !clientPath_eq in E by done. do 2 apply app_string_inv in E. apply (f_equal to_bytes) in E.
    rewrite !to_bytes_append in E. apply app_inv_tail, to_bytes_inj in E. subst id. split; [done|].
    apply Ok_inj. rewrite <- Hr. vm_compute. reflexivity.
  - exfalso. eapply clients_not_keys; [exact Hb|]. rewrite <- E. by exists "warptweet"%string.
  - exfalso. eapply clients_not_sessions; [exact Hb|]. rewrite <- E. by eexists.
  - done.
Qed.

Lemma leased_consistent : consistent leasedFiles.
Proof. intros id r Hid [-> ->]%leased_only; [|done]. split; [apply leased_wf; by left|reflexivity]. Qed.

Definition is_ok {A} (r : result A) : bool := match r with Ok _ => true | Err _ => false end.

Definition sampleExpire : HM ClientStore.ClientRecord :=
  ExpireClient calmHost ClientsDirectory "ab12" leaseEnd
    (grantExpireOps calmHost fixedRand noProc noLink 1 samplePlane (λ _, false) sampleConfig leased).


Definition sampleReconcile (now : Time) : HM () :=
  reconcileExpiredGrants calmHost fixedRand noProc noLink 1 samplePlane (λ _, false) sampleConfig now.


Lemma authorizations_reconciled_witness :
  let '(res, w') := reconcileManagedAuthorizations calmHost sampleConfig leasedWorld in
  res = Ok () ∧ ∃ contents keys, files w' !! AuthorizedKeysPath sampleConfig = Some contents ∧
    authorizedRawKeys contents = Ok keys ∧ sampleRaw ∈ keys.
Proof.
  pose proof (authorizations_reconciled calmHost sampleConfig Profile.current leasedWorld
    ltac:(by intros n) sampleConfig_valid) as Hx.
  assert (is_ok (reconcileManagedAuthorizations calmHost sampleConfig leasedWorld).1 = true) as Hok by (vm_compute; reflexivity).
  revert Hx Hok. destruct (reconcileManagedAuthorizations _ _ _) as [[[]|e] w']; intros Hx Hok; [|discriminate Hok].
  split; [done|].
  destruct (Hx eq_refl) as (contents & keys & H1 & H2 & _ & H3). exists contents, keys. split_and!; [done|done|].
  destruct (H3 "ab12"%string leased ltac:(vm_compute; reflexivity) leased_read) as (raw & Hc & Hin).
  - intros n. split; [by left|]. exists leaseEnd. split; vm_compute; reflexivity.
  - assert (raw = sampleRaw) as <-; [|done]. apply key_text_inj.
    assert (plainKeyBlob sampleConfig (to_bytes (ClientStore.PublicKey leased)) =
      Ok (Algorithm, Base64.encode_to_string (SshWire.key_blob Algorithm sampleRaw))) as Hp by (vm_compute; reflexivity).
    unfold carries in Hc. congruence.
Defined.

