(* ===== verification/EnrollWitness.v ===== *)
(** * The enrollment theorems on concrete inputs

    An invite issued by the sample host, its record on disk, and enrollment
    requests for it. *)

From S2P Require Import Prelude GoStd Json StrictJson Time Text Host Locator Grant GrantProps SshWire Crypto Packet.
From S2P Require Import Kex Sample Listen ClientStore ClientCodec Server ServerProps Clients ClientProps AuthorizedKeys.
From S2P Require Import GrantSession SessionProps Reconcile Frame Layout ReconcileProps ReconcileLoop ReconcileKeys.
From S2P Require Import Invite Accept InviteClient InviteProps InviteClientProps Enroll EnrollProps.
From S2P Require Import HostWitness ReconcileWitness.
Import Time Json Clients Reconcile Invite InviteClient Enroll Toy.
Import Accept.

(** ** An invite *)

Definition sampleInviteID : string := "00112233445566778899aabbccddeeff".
Definition sampleHostKey : string := "ssh-mldsa44-ed25519@openssh.com AAAAhost".
Definition sampleInvite : Invite :=
  mkInvite KindInvite 3 sampleInviteID "laptop" (mkDial "tunnel.example.com" 443)
    (mkInviteEnrollment "enroll.example.com" 8443 hex64) 1 "10.0.0.1" 22 "warptweet" Profile.CurrentID "artifact"
    sampleHostKey "2026-01-01T00:00:00Z" "2026-01-01T00:15:00Z" 2592000 "0123456789abcdef".
Definition sampleIssued : InviteRecord := mkRecord sampleInvite StatusIssued "" "" "".
Definition inviteWorld (r : InviteRecord) : world :=
  mkWorld (<[recordPath inviteDirectory sampleInviteID := recordText r]> ∅) 0.
Definition noon : Time := time_of (mkFields 2026 1 1 0 5 0 0).

Lemma sampleInvite_wf : wf_invite sampleInvite.
Proof.
  split; [|cbn; lia]. unfold inviteTexts. repeat (constructor; [by apply ascii_forallb|]). constructor.
Qed.
Lemma sampleInvite_canonical : canonicalizeStoredInvite sampleInvite = Ok sampleInvite.
Proof. vm_compute. reflexivity. Qed.

Lemma sample_holds r :
  r_Invite r = sampleInvite → Forall ascii [Status r; ConsumedAt r; RevokedAt r; ClientID r] → Status r ∈ statuses →
  holds inviteDirectory sampleInviteID (files (inviteWorld r)) r.
Proof.
  intros Hi Ha Hs. assert (wf_record r) as Hwf.
  { split_and!; [rewrite Hi; apply sampleInvite_wf|rewrite Hi; apply sampleInvite_canonical|done]. }
  exists (recordText r). split_and!; [apply lookup_insert_eq|by apply record_codec|done|by rewrite Hi|done].
Qed.

Lemma client_reads_invite_witness :
  ParseClientInvite calmHost (Encode sampleInvite) noon (mkWorld ∅ 0)
  = (Ok (sampleInvite, viewOf sampleInvite), mkWorld ∅ 0).
Proof.
  apply (client_reads_invite calmHost sampleInvite noon (mkWorld ∅ 0) sampleInvite_wf sampleInvite_canonical eq_refl)
    with (expires := time_of (mkFields 2026 1 1 0 15 0 0)); vm_compute; congruence.
Defined.

(** ** Requests *)

Definition requestWith (key : string) : EnrollmentRequest :=
  mkRequest sampleInviteID "0123456789abcdef" "laptop" key Profile.CurrentID "laptop" "127.0.0.1" 15432 hex64.
Definition sampleInput (key : string) : AcceptInput :=
  acceptInput calmHost sampleConfig sampleHostKey (requestWith key) noon.
(** A second key. *)
Definition otherKey : string :=
  Wire.Algorithm ++ " " ++ Base64.encode_to_string (SshWire.key_blob Wire.Algorithm (replicate 1344 (bz 6))).

Definition usedRecord : InviteRecord :=
  mkRecord sampleInvite StatusConsumed "2026-01-01T00:05:00Z" "" (clientIDFor sampleInviteID sampleKey).
Lemma used_holds : holds inviteDirectory sampleInviteID (files (inviteWorld usedRecord)) usedRecord.
Proof.
  apply sample_holds; [done| |by apply (bool_decide_unpack _)].
  repeat (constructor; [first [apply clientIDFor_ascii|by apply ascii_forallb]|]). constructor.
Qed.
Lemma issued_holds : holds inviteDirectory sampleInviteID (files (inviteWorld sampleIssued)) sampleIssued.
Proof.
  apply sample_holds; [done| |by apply (bool_decide_unpack _)].
  repeat (constructor; [by apply ascii_forallb|]). constructor.
Qed.


Lemma invite_single_use_witness :
  ∃ e, (Accept calmHost (sampleInput otherKey) (inviteWorld usedRecord)).1 = Err e.
Proof.
  apply (invite_single_use sampleInviteID eq_refl calmHost (sampleInput otherKey) (inviteWorld usedRecord)
    (inviteWorld usedRecord) usedRecord used_holds (rtc_refl _ _) eq_refl eq_refl).
  split; [discriminate|]. intros _. vm_compute. discriminate.
Defined.
