(* ===== verification/Config.v ===== *)
(** * internal/config and internal/knownhosts: what a client is configured to do

    [config.go] and [validate.go]: the client manifest, its strict decoder and
    its validation; [knownhosts.go]: the line that pins the host key of a
    tunnel; and the manifest that an enrollment builds from an invite
    ([BuildClientManifest] of enrollment/client.go). *)

From Stdlib Require Import SpecFloat.
From S2P Require Import Prelude GoStd Json StrictJson Time Host Locator Grant SshWire Crypto Packet Kex ClientStore.
From S2P Require Import Clients Server Invite InviteClient.
Import Time Json Netip Locator ClientStore.

(** ** time: durations as text *)
Module DurationText.

Definition overflow {A} : result A := Err (EMsg "time: invalid duration").

(** [leadingInt]. *)
Fixpoint leadingInt (x : Z) (s : bytes) : result (Z * bytes) :=
  match s with
  | c :: r =>
      if Strings.is_digit c then
        if 2 ^ 63 / 10 <? x then overflow
        else let x := x * 10 + (zb c - 48) in if 2 ^ 63 <? x then overflow else leadingInt x r
      else Ok (x, s)
  | [] => Ok (x, [])
  end.

(** float64. *)
Definition float (n : Z) : spec_float := binary_normalize 53 1024 n 0 false.
Definition times (a b : spec_float) : spec_float := SFmul 53 1024 a b.
Definition over (a b : spec_float) : spec_float := SFdiv 53 1024 a b.
(** [uint64] of a float that is not negative. *)
Definition truncate (f : spec_float) : Z :=
  match f with S754_finite false m e => Z.shiftl (Zpos m) e | _ => 0 end.

(** [leadingFraction]: digits that do not fit are skipped. *)
Fixpoint leadingFraction (full : bool) (x : Z) (scale : spec_float) (s : bytes) : Z * spec_float * bytes :=
  match s with
  | c :: r =>
      if Strings.is_digit c then
        if full then leadingFraction true x scale r
        else if (2 ^ 63 - 1) / 10 <? x then leadingFraction true x scale r
        else let y := x * 10 + (zb c - 48) in
             if 2 ^ 63 <? y then leadingFraction true x scale r
             else leadingFraction false y (times scale (float 10)) r
      else (x, scale, s)
  | [] => (x, scale, [])
  end.

Definition unitMap (u : bytes) : option Z :=
  if bool_decide (u = to_bytes "ns") then Some 1
  else if bool_decide (u = to_bytes "us") || bool_decide (u = [bz 194; bz 181; bz 115])
          || bool_decide (u = [bz 206; bz 188; bz 115]) then Some 1000
  else if bool_decide (u = to_bytes "ms") then Some 1000000
  else if bool_decide (u = to_bytes "s") then Some Second
  else if bool_decide (u = to_bytes "m") then Some Minute
  else if bool_decide (u = to_bytes "h") then Some Hour
  else None.

Definition startsNumber (c : byte) : bool := (zb c =? 46) || Strings.is_digit c.
Fixpoint spanUnit (s : bytes) : bytes * bytes :=
  match s with
  | c :: r => if startsNumber c then ([], s) else let '(u, rest) := spanUnit r in (c :: u, rest)
  | [] => ([], [])
  end.

(** The loop of [ParseDuration]; every turn consumes a unit. *)
Fixpoint parseParts (fuel : nat) (d : Z) (s : bytes) : result Z :=
  match fuel, s with
  | _, [] => Ok d
  | O, _ => overflow
  | S fuel, c :: _ =>
      if negb (startsNumber c) then overflow
      else
        '(v, s1) ← leadingInt 0 s;
        let pre := negb (length s1 =? length s)%nat in
        let '(f, scale, s2, post) :=
          match s1 with
          | p :: r => if zb p =? 46
                      then let '(f, scale, s2) := leadingFraction false 0 (float 1) r in
                           (f, scale, s2, negb (length s2 =? length r)%nat)
                      else (0, float 1, s1, false)
          | [] => (0, float 1, s1, false)
          end in
        if negb pre && negb post then overflow
        else
          let '(u, s3) := spanUnit s2 in
          if bool_decide (u = []) then overflow
          else match unitMap u with
          | None => overflow
          | Some unit_ =>
              if 2 ^ 63 / unit_ <? v then overflow
              else
                let v := v * unit_ in
                v ← (if 0 <? f then
                       let v := v + truncate (times (float f) (over (float unit_) scale)) in
                       if 2 ^ 63 <? v then overflow else Ok v
                     else Ok v);
                if 2 ^ 63 <? d + v then overflow else parseParts fuel (d + v) s3
          end
  end.
Definition ParseDuration (text : string) : result Duration :=
  let s := to_bytes text in
  let '(neg, s) := match s with
                   | c :: r => if zb c =? 45 then (true, r) else if zb c =? 43 then (false, r) else (false, s)
                   | [] => (false, s)
                   end in
  if bool_decide (s = to_bytes "0") then Ok 0
  else if bool_decide (s = []) then overflow
  else
    d ← parseParts (length s) 0 s;
    if neg then Ok (- d) else if 2 ^ 63 - 1 <? d then overflow else Ok d.

(** [fmtFrac]: the fraction of [v / 10 ^ prec] without trailing zeros. *)
Definition fmtFrac (v prec : Z) : string :=
  let f := v mod 10 ^ prec in
  if f =? 0 then ""
  else "." ++ to_string (reverse (drop_zeros (reverse (fixed (Z.to_nat prec) f)))).
Definition String (d : Duration) : string :=
  let u := Z.abs d in
  let seconds := u / Second in
  let minutes := seconds / 60 in
  let hours := minutes / 60 in
  let tail := (Strings.itoa (seconds mod 60) ++ fmtFrac u 9 ++ "s")%string in
  let body :=
    if u =? 0 then "0s"%string
    else if u <? 1000 then (Strings.itoa u ++ "ns")%string
    else if u <? 1000000 then (Strings.itoa (u / 1000) ++ fmtFrac u 3 ++ to_string [bz 194; bz 181] ++ "s")%string
    else if u <? Second then (Strings.itoa (u / 1000000) ++ fmtFrac u 6 ++ "ms")%string
    else if minutes =? 0 then tail
    else if hours =? 0 then (Strings.itoa minutes ++ "m" ++ tail)%string
    else (Strings.itoa hours ++ "h" ++ Strings.itoa (minutes mod 60) ++ "m" ++ tail)%string in
  if d <? 0 then ("-" ++ body)%string else body.

Example parse_mixed : ParseDuration "1h2m3.5s" = Ok (3723 * Second + 500000000).
Proof. vm_compute. reflexivity. Qed.
Example parse_hours : ParseDuration "0.1h" = Ok (360 * Second).
Proof. vm_compute. reflexivity. Qed.
Example parse_none : ParseDuration "12" = overflow.
Proof. vm_compute. reflexivity. Qed.
Example print_minutes : String (63 * Second + 500000000) = "1m3.5s"%string.
Proof. vm_compute. reflexivity. Qed.
Example print_millis : String 250000000 = "250ms"%string.
Proof. vm_compute. reflexivity. Qed.

End DurationText.

Module Config.

Definition CurrentSchemaVersion : Z := 2.
Definition ManifestExtension : string := ".wt".
Definition ClientTunnelsKind : string := "warptweet.client-tunnels".
Definition MaxConfigBytes : Z := Z.shiftl 1 20.
Definition MinSupervisionBackoff : Duration := 250000000.
Definition MaxSupervisionBackoff : Duration := 5 * Minute.
Definition maxTunnelIDBytes : nat := 64.
Definition maxUnixUserBytes : nat := 32.
Definition requiredListenerAddress : Addr := Addr4 2130706433.

Definition eqs (a b : string) : bool := bool_decide (a = b).
Definition invalid {A} (field what : string) : result A := Err (EMsg ("invalid " ++ field ++ ": " ++ what)).

(** ** Data *)

Record Endpoint := mkEndpoint { Address : Addr; Port : Z }.
Record Server := mkServer { Host : string; s_Port : Z; User : string }.
Record Tunnel := mkTunnel { ID : string; Listen : Endpoint; Target : Endpoint }.
Record Supervision := mkSupervision { InitialBackoff : Duration; MaxBackoff : Duration }.
Record Config := mkConfig {
  Kind : string;
  SchemaVersion : Z;
  ProfileID : string;
  SSHBinarySHA256 : string;
  c_Server : Server;
  Tunnels : list Tunnel;
  c_Supervision : Supervision;
}.

(** ** Validation *)

(** [unicode.IsControl]. *)
Definition isControl (r : Z) : bool := (r <? 32) || Clients.in_range 127 159 r.
Definition validateSafeString (field value : string) : result () :=
  if negb (validString value) then invalid field "must be valid UTF-8"
  else if existsb isControl (Utf8.range value) then invalid field "must not contain control characters"
  else Ok ().

Definition isLowerASCIILetter (c : byte) : bool := Clients.in_range 97 122 (zb c).
Definition isLowerASCIIAlphaNumeric (c : byte) : bool := isLowerASCIILetter c || Clients.in_range 48 57 (zb c).

(** The characters after the first: a hyphen or underscore only inside. *)
Fixpoint tunnelRest (b : bytes) : bool :=
  match b with
  | [] => true
  | c :: r =>
      if isLowerASCIIAlphaNumeric c then tunnelRest r
      else if ((zb c =? 45) || (zb c =? 95)) && negb (bool_decide (r = [])) then tunnelRest r
      else false
  end.
Definition validateTunnelID (field value : string) : result () :=
  validateSafeString field value;;
  if eqs value "" || (maxTunnelIDBytes <? String.length value)%nat
  then invalid field "must be between 1 and 64 ASCII bytes"
  else match to_bytes value with
  | c :: r =>
      if negb (isLowerASCIILetter c) then invalid field "must start with a lowercase ASCII letter"
      else if tunnelRest r then Ok ()
      else invalid field "must use lowercase ASCII letters, digits, and internal '-' or '_'"
  | [] => Ok ()
  end.
Definition ValidateTunnelID (value : string) : result () := validateTunnelID "tunnel_id" value.

Definition userChar (c : byte) : bool := isLowerASCIIAlphaNumeric c || (zb c =? 95) || (zb c =? 45).
Definition validateUnixUser (value : string) : result () :=
  validateSafeString "server.user" value;;
  if eqs value "" || (maxUnixUserBytes <? String.length value)%nat
  then invalid "server.user" "must be between 1 and 32 ASCII bytes"
  else match to_bytes value with
  | c :: r =>
      if negb (isLowerASCIILetter c || (zb c =? 95))
      then invalid "server.user" "must start with a lowercase ASCII letter or '_'"
      else if forallb userChar r then Ok () else invalid "server.user" "must be a safe Unix user name"
  | [] => Ok ()
  end.

Definition validatePort (field : string) (port : Z) : result () :=
  if port =? 0 then invalid field "must be between 1 and 65535" else Ok ().

Definition isHexByte (c : byte) : bool := Clients.in_range 48 57 (zb c) || Clients.in_range 97 102 (zb c).
Definition validateSHA256 (value : string) : result () :=
  if negb (String.length value =? 64)%nat || negb (forallb isHexByte (to_bytes value))
  then invalid "ssh_binary_sha256" "must contain exactly 64 lowercase hexadecimal characters" else Ok ().

Definition validateDialIP (field : string) (address : Addr) : result () :=
  let address := Unmap address in
  if negb (eqs (Zone address) "") then invalid field "must not contain an IPv6 zone"
  else if Server.IsUnspecified address then invalid field "must not be an unspecified address"
  else if Server.IsMulticast address then invalid field "must not be a multicast address"
  else if Server.IsLinkLocalUnicast address then invalid field "must not be a link-local address"
  else if Is4 address && bool_decide (address = Server.broadcast)
  then invalid field "must not be the IPv4 broadcast address" else Ok ().

Definition fieldError {A} (field : string) (r : result A) : result A :=
  match r with Ok a => Ok a | Err e => invalid field (errText e) end.

Definition validateServerHost (value : string) : result () :=
  host ← fieldError "server.host" (ParseDialHost value);
  canonical ← fieldError "server.host" (Canonical host);
  if negb (eqs canonical value) then invalid "server.host" "must use canonical locator form"
  else if IsValid (IP host) then validateDialIP "server.host" (IP host) else Ok ().

Definition validateServer (server : Server) : result () :=
  validateServerHost (Host server);; validatePort "server.port" (s_Port server);; validateUnixUser (User server).

Definition validateAddress (field : string) (address : Addr) : result () :=
  if negb (IsValid address) then invalid field "must be a numeric IP address"
  else if negb (eqs (Zone address) "") then invalid field "must not contain an IPv6 zone"
  else if Is4In6 address then invalid field "must use canonical IPv4 notation"
  else if Server.IsUnspecified address then invalid field "must not be an unspecified address"
  else if Server.IsMulticast address then invalid field "must not be a multicast address"
  else if Is4 address && bool_decide (address = Server.broadcast)
  then invalid field "must not be the IPv4 broadcast address" else Ok ().

Definition validateTunnel (field : string) (tunnel : Tunnel) : result () :=
  validateTunnelID (field ++ ".id") (ID tunnel);;
  validateAddress (field ++ ".listen.address") (Address (Listen tunnel));;
  if negb (bool_decide (Address (Listen tunnel) = requiredListenerAddress))
  then invalid (field ++ ".listen.address") "must be 127.0.0.1"
  else
    validatePort (field ++ ".listen.port") (Port (Listen tunnel));;
    validateAddress (field ++ ".target.address") (Address (Target tunnel));;
    validatePort (field ++ ".target.port") (Port (Target tunnel)).

(** The loop over the tunnels, with the identifiers and the ports seen. *)
Fixpoint validateTunnels (index : Z) (ids : list string) (listenPorts : list Z) (tunnels : list Tunnel) : result () :=
  match tunnels with
  | [] => Ok ()
  | tunnel :: rest =>
      let field := ("tunnels[" ++ Strings.itoa index ++ "]")%string in
      validateTunnel field tunnel;;
      if bool_decide (ID tunnel ∈ ids) then invalid (field ++ ".id") "duplicate tunnel ID"
      else if bool_decide (Port (Listen tunnel) ∈ listenPorts) then invalid (field ++ ".listen.port") "already used"
      else validateTunnels (index + 1) (ID tunnel :: ids) (Port (Listen tunnel) :: listenPorts) rest
  end.

Definition validateSupervision (supervision : Supervision) : result () :=
  let initial := InitialBackoff supervision in
  let maximum := MaxBackoff supervision in
  if (initial <? MinSupervisionBackoff) || (MaxSupervisionBackoff <? initial)
  then invalid "supervision.initial_backoff" "must be between 250ms and 5m0s"
  else if (maximum <? MinSupervisionBackoff) || (MaxSupervisionBackoff <? maximum)
  then invalid "supervision.max_backoff" "must be between 250ms and 5m0s"
  else if maximum <? initial then invalid "supervision.max_backoff" "must be greater than or equal to initial_backoff"
  else Ok ().

Definition Validate (value : Config) : result () :=
  validateSafeString "kind" (Kind value);;
  if negb (eqs (Kind value) ClientTunnelsKind) then invalid "kind" "must be warptweet.client-tunnels"
  else if negb (SchemaVersion value =? CurrentSchemaVersion) then invalid "schema_version" "must be 2"
  else
    validateSafeString "profile_id" (ProfileID value);;
    match Profile.Lookup (ProfileID value) with
    | Err _ => invalid "profile_id" "must be the immutable profile"
    | Ok _ =>
        validateSHA256 (SSHBinarySHA256 value);;
        validateServer (c_Server value);;
        if bool_decide (Tunnels value = []) then invalid "tunnels" "must contain at least one tunnel"
        else validateTunnels 0 [] [] (Tunnels value);; validateSupervision (c_Supervision value)
    end.

Definition canonicalizeServerHost (value : Config) : result Config :=
  host ← fieldError "server.host" (ParseDialHost (Host (c_Server value)));
  canonical ← fieldError "server.host" (Canonical host);
  Ok (mkConfig (Kind value) (SchemaVersion value) (ProfileID value) (SSHBinarySHA256 value)
        (mkServer canonical (s_Port (c_Server value)) (User (c_Server value))) (Tunnels value) (c_Supervision value)).

(** ** The document *)

(** A slice of structs: the elements that are there already are decoded over,
    [null] is the empty slice. *)
Fixpoint decodeElements {A} (fs : list (field A)) (zero : A) (old : list A) (vs : list json) : result (list A) :=
  match vs with
  | [] => Ok []
  | v :: vs =>
      a ← decode true fs v (default zero (head old));
      rest ← decodeElements fs zero (tail old) vs;
      Ok (a :: rest)
  end.

Definition duration_field {A} (set : Duration → A → A) (v : json) (a : A) : result A :=
  match v with
  | JStr s => match DurationText.ParseDuration s with
              | Ok d => Ok (set d a)
              | Err e => Err (EMsg ("invalid duration: " ++ errText e))
              end
  | JNull => Err (EMsg "invalid duration")
  | _ => Err (EMsg "duration must be a string")
  end.

Definition endpointFields : list (field Endpoint) :=
  [("address", Server.address_field (λ v e, mkEndpoint v (Port e)));
   ("port", uint_field 16 (λ v e, mkEndpoint (Address e) v))]%string.
Definition serverFields : list (field Server) :=
  [("host", string_field (λ v s, mkServer v (s_Port s) (User s)));
   ("port", uint_field 16 (λ v s, mkServer (Host s) v (User s)));
   ("user", string_field (λ v s, mkServer (Host s) (s_Port s) v))]%string.
Definition tunnelFields : list (field Tunnel) :=
  [("id", string_field (λ v t, mkTunnel v (Listen t) (Target t)));
   ("listen", λ v t, e ← decode true endpointFields v (Listen t); Ok (mkTunnel (ID t) e (Target t)));
   ("target", λ v t, e ← decode true endpointFields v (Target t); Ok (mkTunnel (ID t) (Listen t) e))]%string.
Definition supervisionFields : list (field Supervision) :=
  [("initial_backoff", duration_field (λ v s, mkSupervision v (MaxBackoff s)));
   ("max_backoff", duration_field (λ v s, mkSupervision (InitialBackoff s) v))]%string.

Definition zeroEndpoint : Endpoint := mkEndpoint AddrInvalid 0.
Definition zeroTunnel : Tunnel := mkTunnel "" zeroEndpoint zeroEndpoint.
Definition zeroConfig : Config := mkConfig "" 0 "" "" (mkServer "" 0 "") [] (mkSupervision 0 0).
Definition set_Kind (v : string) (c : Config) : Config :=
  mkConfig v (SchemaVersion c) (ProfileID c) (SSHBinarySHA256 c) (c_Server c) (Tunnels c) (c_Supervision c).
Definition set_SchemaVersion (v : Z) (c : Config) : Config :=
  mkConfig (Kind c) v (ProfileID c) (SSHBinarySHA256 c) (c_Server c) (Tunnels c) (c_Supervision c).
Definition set_ProfileID (v : string) (c : Config) : Config :=
  mkConfig (Kind c) (SchemaVersion c) v (SSHBinarySHA256 c) (c_Server c) (Tunnels c) (c_Supervision c).
Definition set_SSHBinarySHA256 (v : string) (c : Config) : Config :=
  mkConfig (Kind c) (SchemaVersion c) (ProfileID c) v (c_Server c) (Tunnels c) (c_Supervision c).
Definition set_Server (v : Server) (c : Config) : Config :=
  mkConfig (Kind c) (SchemaVersion c) (ProfileID c) (SSHBinarySHA256 c) v (Tunnels c) (c_Supervision c).
Definition set_Tunnels (v : list Tunnel) (c : Config) : Config :=
  mkConfig (Kind c) (SchemaVersion c) (ProfileID c) (SSHBinarySHA256 c) (c_Server c) v (c_Supervision c).
Definition set_Supervision (v : Supervision) (c : Config) : Config :=
  mkConfig (Kind c) (SchemaVersion c) (ProfileID c) (SSHBinarySHA256 c) (c_Server c) (Tunnels c) v.
Definition tunnels_field (v : json) (c : Config) : result Config :=
  match v with
  | JArr vs => l ← decodeElements tunnelFields zeroTunnel (Tunnels c) vs; Ok (set_Tunnels l c)
  | JNull => Ok (set_Tunnels [] c)
  | _ => typeError
  end.
Definition configFields : list (field Config) :=
  [("kind", string_field set_Kind); ("schema_version", int_field set_SchemaVersion);
   ("profile_id", string_field set_ProfileID); ("ssh_binary_sha256", string_field set_SSHBinarySHA256);
   ("server", λ v c, s ← decode true serverFields v (c_Server c); Ok (set_Server s c));
   ("tunnels", tunnels_field);
   ("supervision", λ v c, s ← decode true supervisionFields v (c_Supervision c); Ok (set_Supervision s c))]%string.

Definition endpointJSON (e : Endpoint) : json :=
  JObj [("address", JStr (addr_string (Address e))); ("port", JInt (Port e))]%string.
Definition tunnelJSON (t : Tunnel) : json :=
  JObj [("id", JStr (ID t)); ("listen", endpointJSON (Listen t)); ("target", endpointJSON (Target t))]%string.
Definition configJSON (c : Config) : json :=
  JObj [("kind", JStr (Kind c)); ("schema_version", JInt (SchemaVersion c)); ("profile_id", JStr (ProfileID c));
        ("ssh_binary_sha256", JStr (SSHBinarySHA256 c));
        ("server", JObj [("host", JStr (Host (c_Server c))); ("port", JInt (s_Port (c_Server c)));
                         ("user", JStr (User (c_Server c)))]);
        ("tunnels", JArr (tunnelJSON <$> Tunnels c));
        ("supervision",
          JObj [("initial_backoff", JStr (DurationText.String (InitialBackoff (c_Supervision c))));
                ("max_backoff", JStr (DurationText.String (MaxBackoff (c_Supervision c))))])]%string.

Definition Decode (data : bytes) : result Config :=
  if MaxConfigBytes <? blen data then Err (EMsg "read config: exceeds byte limit")
  else if negb (validString (to_string data)) then Err (EMsg "decode config: JSON is not valid UTF-8")
  else match StrictJson.ValidateManifestObjectNames data with
  | Err e => Err (EMsg ("decode config: " ++ errText e))
  | Ok _ =>
      '(v, rest) ← parse data;
      result ← decode true configFields v zeroConfig;
      if negb (bool_decide (skip_ws rest = [])) then Err (EMsg "decode config: trailing data")
      else
        result ← canonicalizeServerHost result;
        Validate result;; Ok result
  end.

Definition Load (H : hostEnv) (path : string) : HM Config :=
  if negb (eqs (InviteClient.Ext path) ManifestExtension) then hfail (EMsg "manifest path must use the .wt extension")
  else data ← ReadFile H path; hlift (Decode data).

(** ** enrollment/client.go *)

Definition BuildClientManifest (invite : Invite.Invite) (tunnelID : string) (listenPort : Z) (sshDigest : string)
    : result Config :=
  ParseDialHost (Invite.d_Host (Invite.Data invite));;
  targetAddr ← ParseAddr (Invite.TargetAddress invite);
  let listenPort := if listenPort =? 0 then 15432 else listenPort in
  let tunnelID := if eqs tunnelID "" then InviteClient.sanitizeTunnelID (Invite.ClientName invite) else tunnelID in
  let manifest :=
    mkConfig ClientTunnelsKind CurrentSchemaVersion (Invite.ProfileID invite) sshDigest
      (mkServer (Invite.d_Host (Invite.Data invite)) (Invite.d_Port (Invite.Data invite)) (Invite.Principal invite))
      [mkTunnel tunnelID (mkEndpoint requiredListenerAddress listenPort) (mkEndpoint targetAddr (Invite.TargetPort invite))]
      (mkSupervision Second (30 * Second)) in
  Validate manifest;; Ok manifest.

End Config.

(** ** knownhosts.go *)
Module KnownHosts.

Definition MaxPublicKeyLineBytes : Z := Z.shiftl 8 10.
Definition ManagedHostComment : string := "warptweet-managed-host".
Definition ErrInvalidHostPublicKey : string := "invalid WarpTweet host public key".
Definition invalidHostPublicKey {A} (what : string) : result A :=
  Err (EMsg (ErrInvalidHostPublicKey ++ ": " ++ what)).

(** What is before the first blank, and what comes after it. *)
Fixpoint cutBlank (b : bytes) : bytes * option bytes :=
  match b with
  | [] => ([], None)
  | c :: r => if zb c =? 32 then ([], Some r) else let '(w, rest) := cutBlank r in (c :: w, rest)
  end.
Fixpoint dropBlanks (b : bytes) : bytes :=
  match b with c :: r => if zb c =? 32 then dropBlanks r else b | [] => [] end.

Definition parsePublicKeyLine (input : bytes) : result (bytes * bytes) :=
  if bool_decide (input = []) then invalidHostPublicKey "input is empty"
  else if MaxPublicKeyLineBytes <? blen input then invalidHostPublicKey "input exceeds the limit"
  else if negb (validString (to_string input)) then invalidHostPublicKey "input is not valid UTF-8"
  else
    let line := default input (Server.dropLast 10 input) in
    match line with
    | [] => invalidHostPublicKey "public-key line is empty"
    | first :: _ =>
        if (zb first =? 32) || (zb (List.last line first) =? 32)
        then invalidHostPublicKey "leading or trailing whitespace is not accepted"
        else if existsb Config.isControl (Utf8.range (to_string line)) then invalidHostPublicKey "control character"
        else match cutBlank line with
        | ((_ :: _) as algorithm, Some after) =>
            match dropBlanks after with
            | [] => invalidHostPublicKey "plain public-key line must contain a blob"
            | remainder => Ok (algorithm, (cutBlank remainder).1)
            end
        | _ => invalidHostPublicKey "plain public-key line must contain a key type and blob"
        end
    end.

Definition RenderManagedHost (tunnelID : string) (publicKey : bytes) : result bytes :=
  Config.ValidateTunnelID tunnelID;;
  selectedProfile ← Profile.Lookup Profile.CurrentID;
  '(algorithm, encoded) ← parsePublicKeyLine publicKey;
  if negb (bool_decide (to_string algorithm = Profile.AuthenticationKeyType selectedProfile))
  then invalidHostPublicKey "outer key type does not match the required type; options are not accepted"
  else
    match SshWire.ValidatePublicKeyBlob (to_string encoded) (Profile.AuthenticationKeyType selectedProfile)
            (Profile.RawPublicKeyBytes selectedProfile) with
    | Err e => invalidHostPublicKey ("validate public-key blob: " ++ errText e)
    | Ok _ =>
        Ok (to_bytes ("warptweet-" ++ tunnelID ++ " " ++ Profile.AuthenticationKeyType selectedProfile ++ " "
                      ++ to_string encoded ++ " " ++ ManagedHostComment) ++ [bz 10])
    end.

End KnownHosts.
