(* ===== verification/ConfigProps.v ===== *)
(** * What a client manifest may say

    The validation of a manifest, and of each of its parts, accepts exactly
    what is described here; a document that decodes is such a manifest; and
    the identifier that is made of a client's name is always acceptable. *)

From S2P Require Import Prelude GoStd Json StrictJson Time Text Host Locator Grant GrantProps SshWire Crypto Packet.
From S2P Require Import Kex Listen ClientStore ClientCodec Server Clients Invite Accept InviteClient InviteClientProps.
From S2P Require Import Config.
Import Time Json Netip Locator.
Import Config.

(** ** Names *)

Definition lower_letter (c : byte) : Prop := 97 ≤ zb c ≤ 122.
Definition id_byte (c : byte) : Prop := lower_letter c ∨ 48 ≤ zb c ≤ 57 ∨ zb c = 45 ∨ zb c = 95.

(** Identifiers of tunnels: a lower-case letter, then letters, digits, hyphens
    and underscores, the last character none of the two marks. *)
Definition tunnel_id (b : bytes) : Prop :=
  ∃ c r, b = c :: r ∧ lower_letter c ∧ Forall id_byte r ∧ (length r ≤ 63)%nat ∧
    ∀ d, list.last r = Some d → zb d ≠ 45 ∧ zb d ≠ 95.
(** Unix users: never an option of a command line, a path or a list. *)
Definition unix_user (b : bytes) : Prop :=
  ∃ c r, b = c :: r ∧ (lower_letter c ∨ zb c = 95) ∧ Forall id_byte r ∧ (length r ≤ 31)%nat.

Lemma letter_iff c : isLowerASCIILetter c = true ↔ lower_letter c.
Proof. unfold isLowerASCIILetter, Clients.in_range, lower_letter. rewrite andb_true_iff, !Z.leb_le. tauto. Qed.
Lemma alnum_iff c : isLowerASCIIAlphaNumeric c = true ↔ lower_letter c ∨ 48 ≤ zb c ≤ 57.
Proof.
  unfold isLowerASCIIAlphaNumeric. rewrite orb_true_iff, letter_iff. unfold Clients.in_range. rewrite andb_true_iff, !Z.leb_le. tauto.
Qed.
Lemma userChar_iff c : userChar c = true ↔ id_byte c.
Proof. unfold userChar, id_byte. rewrite !orb_true_iff, alnum_iff, !Z.eqb_eq. tauto. Qed.
Lemma id_byte_visible b : Forall id_byte b → Forall visible b.
Proof. apply List.Forall_impl. unfold id_byte, lower_letter, visible. lia. Qed.

Lemma range_visible s : Forall visible (to_bytes s) → Utf8.range s = zb <$> to_bytes s.
Proof.
  intros Hv%visible_ascii. unfold Utf8.range. rewrite runes_ascii by done. rewrite <- list_fmap_compose. done.
Qed.

Lemma validString_ascii s : ascii s → validString s = true.
Proof.
  intros Hs. unfold validString. unfold ascii in Hs. rewrite runes_ascii by done. apply forallb_forall.
  intros x (c & <- & Hc)%in_map_iff. rewrite List.Forall_forall in Hs. specialize (Hs c Hc). cbn.
  unfold Utf8.rune_error. destruct (Z.eqb_spec (zb c) 65533); [lia|done].
Qed.

(** Plain text is safe. *)
Lemma safe_visible field value : Forall visible (to_bytes value) → validateSafeString field value = Ok ().
Proof.
  intros Hv. unfold validateSafeString. rewrite validString_ascii by (by apply visible_ascii). rewrite range_visible by done.
  destruct (existsb isControl _) eqn:Hc; [|done]. exfalso.
  apply existsb_exists in Hc as (r & (c & <- & Hin)%in_map_iff & Hc). rewrite List.Forall_forall in Hv. specialize (Hv c Hin).
  unfold visible in Hv. unfold isControl, Clients.in_range in Hc.
  apply orb_prop in Hc as [?%Z.ltb_lt|[?%Z.leb_le ?%Z.leb_le]%andb_prop]; lia.
Qed.

Lemma tunnelRest_iff r :
  tunnelRest r = true ↔ Forall id_byte r ∧ ∀ d, list.last r = Some d → zb d ≠ 45 ∧ zb d ≠ 95.
Proof.
  induction r as [|c r IH]; [by split|]. cbn [tunnelRest]. rewrite List.Forall_cons_iff.
  destruct (isLowerASCIIAlphaNumeric c) eqn:Hc.
  - apply alnum_iff in Hc. rewrite IH. unfold lower_letter in Hc. destruct r as [|d r].
    + split; [intros _|done]. split; [split; [|constructor]|]; [unfold id_byte, lower_letter; lia|intros e [= <-]; lia].
    + change (list.last (c :: d :: r)) with (list.last (d :: r)). unfold id_byte, lower_letter. intuition lia.
  - apply not_true_iff_false in Hc. rewrite alnum_iff in Hc.
    destruct ((zb c =? 45) || (zb c =? 95)) eqn:Hm; cbn [andb].
    + apply orb_prop in Hm. rewrite !Z.eqb_eq in Hm. destruct r as [|d r]; [rewrite bool_decide_eq_true_2 by done|].
      { split; [done|]. intros [_ Hl]. specialize (Hl c eq_refl). lia. }
      rewrite bool_decide_eq_false_2 by done. cbn [negb]. rewrite IH.
      change (list.last (c :: d :: r)) with (list.last (d :: r)). unfold id_byte at 2. tauto.
    + apply orb_false_iff in Hm. rewrite !Z.eqb_neq in Hm. split; [done|]. intros [[Hd _] _]. unfold id_byte in Hd. tauto.
Qed.

Lemma length_bytes_S value c r (n : nat) :
  to_bytes value = c :: r → eqs value "" || (S n <? String.length value)%nat = negb (length r <=? n)%nat.
Proof.
  intros E. rewrite <- length_to_bytes, E. unfold eqs. rewrite bool_decide_eq_false_2 by (by intros ->). cbn [orb length].
  destruct (Nat.leb_spec (length r) n), (Nat.ltb_spec (S n) (S (length r))); lia || done.
Qed.

Lemma tunnelID_exact field value : validateTunnelID field value = Ok () ↔ tunnel_id (to_bytes value).
Proof.
  unfold validateTunnelID, maxTunnelIDBytes. split.
  - intros ([] & _ & Hv)%bind_Ok. destruct (to_bytes value) as [|c r] eqn:E.
    { exfalso. revert Hv. unfold eqs. rewrite bool_decide_eq_true_2; [done|]. by apply to_bytes_inj. }
    revert Hv. rewrite (length_bytes_S _ _ _ 63 E). destruct (Nat.leb_spec (length r) 63); [|done]. cbn [negb].
    destruct (isLowerASCIILetter c) eqn:Hc; [|done]. cbn [negb]. destruct (tunnelRest r) eqn:Hr; [|done]. intros _.
    apply tunnelRest_iff in Hr as [? ?]. apply letter_iff in Hc. by exists c, r.
  - intros (c & r & E & Hc & Hr & Hl & Hlast). rewrite safe_visible.
    2:{ rewrite E. constructor; [unfold visible, lower_letter in *; lia|by apply id_byte_visible]. }
    cbn [mbind result_bind]. rewrite (length_bytes_S _ _ _ 63 E). rewrite (proj2 (Nat.leb_le _ _) Hl). cbn [negb].
    rewrite E, (proj2 (letter_iff _) Hc). cbn [negb]. by rewrite (proj2 (tunnelRest_iff r)).
Qed.

Lemma unixUser_exact value : validateUnixUser value = Ok () ↔ unix_user (to_bytes value).
Proof.
  unfold validateUnixUser, maxUnixUserBytes. split.
  - intros ([] & _ & Hv)%bind_Ok. destruct (to_bytes value) as [|c r] eqn:E.
    { exfalso. revert Hv. unfold eqs. rewrite bool_decide_eq_true_2; [done|]. by apply to_bytes_inj. }
    revert Hv. rewrite (length_bytes_S _ _ _ 31 E). destruct (Nat.leb_spec (length r) 31); [|done]. cbn [negb].
    destruct (isLowerASCIILetter c || (zb c =? 95)) eqn:Hc; [|done]. cbn [negb].
    destruct (forallb userChar r) eqn:Hr; [|done]. intros _. exists c, r. split_and!; [done| | |done].
    + apply orb_prop in Hc. by rewrite letter_iff, Z.eqb_eq in Hc.
    + apply List.Forall_forall. intros d Hd. apply userChar_iff. by eapply forallb_forall in Hr.
  - intros (c & r & E & Hc & Hr & Hl). rewrite safe_visible.
    2:{ rewrite E. constructor; [unfold visible, lower_letter in *; lia|by apply id_byte_visible]. }
    cbn [mbind result_bind]. rewrite (length_bytes_S _ _ _ 31 E). rewrite (proj2 (Nat.leb_le _ _) Hl). cbn [negb]. rewrite E.
    replace (isLowerASCIILetter c || (zb c =? 95)) with true by (symmetry; rewrite orb_true_iff, letter_iff, Z.eqb_eq; done).
    cbn [negb]. rewrite (proj2 (forallb_forall _ _)); [done|]. intros d Hd. apply userChar_iff. by eapply List.Forall_forall in Hr.
Qed.

(** ** Addresses *)

Definition dial_ip (a : Addr) : Prop :=
  Zone a = ""%string ∧ Server.IsUnspecified a = false ∧ Server.IsMulticast a = false ∧
  Server.IsLinkLocalUnicast a = false ∧ a ≠ Server.broadcast.
Definition endpoint_ip (a : Addr) : Prop :=
  IsValid a = true ∧ Zone a = ""%string ∧ Is4In6 a = false ∧ Server.IsUnspecified a = false ∧
  Server.IsMulticast a = false ∧ a ≠ Server.broadcast.
(** A host in its canonical form. *)
Definition server_host (s : string) : Prop :=
  ∃ h, ParseDialHost s = Ok h ∧ Canonical h = Ok s ∧ (IsValid (IP h) = true → dial_ip (Unmap (IP h))).

(** A check that is one of a chain of refusals. *)
Lemma refusal {A} (b : bool) (e : result A) (r : result A) a :
  is_ok e = false → (if b then e else r) = Ok a ↔ b = false ∧ r = Ok a.
Proof. intros He. destruct b; [|tauto]. split; [by intros ->|by intros []]. Qed.

Lemma not_broadcast a : (Is4 a && bool_decide (a = Server.broadcast)) = false ↔ a ≠ Server.broadcast.
Proof.
  rewrite andb_false_iff, bool_decide_eq_false. split; [|auto]. intros [Hi|]; [|done]. by intros ->.
Qed.
Lemma eqs_true a b : negb (eqs a b) = false ↔ a = b.
Proof. unfold eqs. by rewrite negb_false_iff, bool_decide_eq_true. Qed.

Lemma dialIP_exact field a : validateDialIP field a = Ok () ↔ dial_ip (Unmap a).
Proof.
  unfold validateDialIP, dial_ip. cbv zeta. rewrite !refusal by done. rewrite eqs_true, not_broadcast. tauto.
Qed.
Lemma address_exact field a : validateAddress field a = Ok () ↔ endpoint_ip a.
Proof.
  unfold validateAddress, endpoint_ip. rewrite !refusal by done. rewrite eqs_true, not_broadcast, negb_false_iff. tauto.
Qed.
Lemma port_exact field p : validatePort field p = Ok () ↔ p ≠ 0.
Proof. unfold validatePort. rewrite refusal by done. rewrite Z.eqb_neq. tauto. Qed.

Lemma seq_exact {B} (r : result ()) (k : result B) b : (r;; k) = Ok b ↔ r = Ok () ∧ k = Ok b.
Proof. destruct r as [[]|e]; cbn; [tauto|]. split; [done|by intros [? _]]. Qed.

Lemma serverHost_exact s : validateServerHost s = Ok () ↔ server_host s.
Proof.
  unfold validateServerHost, server_host, fieldError. destruct (ParseDialHost s) as [h|e].
  2:{ split; [done|]. by intros (h & [=] & _). }
  cbn [mbind result_bind]. destruct (Canonical h) as [c|e] eqn:Hc.
  2:{ split; [done|]. intros (h' & [= <-] & Hc' & _). congruence. }
  cbn [mbind result_bind]. rewrite refusal by done. rewrite eqs_true. split.
  - intros [-> Hv]. exists h. split_and!; [done..|]. intros Hi. rewrite Hi in Hv. by apply dialIP_exact in Hv.
  - intros (h' & [= <-] & Hc' & Hi). rewrite Hc in Hc'. injection Hc' as ->. split; [done|].
    destruct (IsValid (IP h)); [|done]. apply dialIP_exact. by apply Hi.
Qed.

(** ** The whole manifest *)

Definition tunnel_ok (t : Tunnel) : Prop :=
  tunnel_id (to_bytes (ID t)) ∧ Address (Listen t) = requiredListenerAddress ∧ Port (Listen t) ≠ 0 ∧
  endpoint_ip (Address (Target t)) ∧ Port (Target t) ≠ 0.

Definition manifest_ok (c : Config) : Prop :=
  Kind c = ClientTunnelsKind ∧ SchemaVersion c = 2 ∧ ProfileID c = Profile.CurrentID ∧
  (String.length (SSHBinarySHA256 c) = 64%nat ∧ forallb isHexByte (to_bytes (SSHBinarySHA256 c)) = true) ∧
  (server_host (Host (c_Server c)) ∧ s_Port (c_Server c) ≠ 0 ∧ unix_user (to_bytes (User (c_Server c)))) ∧
  (Tunnels c ≠ [] ∧ Forall tunnel_ok (Tunnels c) ∧ base.NoDup (ID <$> Tunnels c) ∧
   base.NoDup ((λ t, Port (Listen t)) <$> Tunnels c)) ∧
  (250000000 ≤ InitialBackoff (c_Supervision c) ≤ MaxBackoff (c_Supervision c) ∧ MaxBackoff (c_Supervision c) ≤ 300 * Second).

Lemma tunnel_exact field t : validateTunnel field t = Ok () ↔ tunnel_ok t.
Proof.
  unfold validateTunnel, tunnel_ok. rewrite !seq_exact, refusal by done. rewrite !seq_exact, tunnelID_exact, !address_exact, !port_exact.
  rewrite negb_false_iff, bool_decide_eq_true. split; [tauto|]. intros (Hid & -> & ? & ? & ?). split_and!; [done| |done..].
  by apply (bool_decide_unpack _).
Qed.

Lemma tunnels_exact ts : ∀ index ids ports,
  validateTunnels index ids ports ts = Ok () ↔
  Forall tunnel_ok ts ∧ base.NoDup (ID <$> ts) ∧ base.NoDup ((λ t, Port (Listen t)) <$> ts) ∧
  (∀ t, t ∈ ts → (ID t ∉ ids) ∧ (Port (Listen t) ∉ ports)).
Proof.
  induction ts as [|t ts IH]; intros index ids ports; cbn [validateTunnels].
  { split; [|done]. intros _. split_and!; [constructor..|]. by intros t Ht%elem_of_nil. }
  rewrite seq_exact, !refusal by done. rewrite tunnel_exact, IH, !bool_decide_eq_false. cbn [fmap list_fmap].
  rewrite List.Forall_cons_iff, !list.NoDup_cons. setoid_rewrite elem_of_cons. setoid_rewrite list_elem_of_fmap. split.
  - intros (Ht & Hi & Hp & Hts & Hn1 & Hn2 & Hall). split_and!; try done.
    + intros (t' & E & Hin). destruct (Hall t' Hin) as [H1 _]. apply H1. left. by rewrite E.
    + intros (t' & E & Hin). destruct (Hall t' Hin) as [_ H2]. apply H2. left. by rewrite E.
    + intros t' [-> |Hin]; [done|]. destruct (Hall t' Hin) as [H1 H2]. split; intros ?; [apply H1|apply H2]; by right.
  - intros ([Ht Hts] & [Hn1 Hd1] & [Hn2 Hd2] & Hall). destruct (Hall t (or_introl eq_refl)) as [Hi Hp]. split_and!; try done.
    intros t' Hin. destruct (Hall t' (or_intror Hin)) as [H1 H2]. split.
    + intros [E|?]; [|done]. apply Hn1. by exists t'.
    + intros [E|?]; [|done]. apply Hn2. by exists t'.
Qed.

Lemma safe_profile : validateSafeString "profile_id" Profile.CurrentID = Ok ().
Proof. vm_compute. reflexivity. Qed.

Lemma Validate_exact c : Validate c = Ok () ↔ manifest_ok c.
Proof.
  unfold Validate, manifest_ok. rewrite seq_exact, !refusal by done. rewrite eqs_true, negb_false_iff, Z.eqb_eq, seq_exact.
  unfold Profile.Lookup. destruct (bool_decide (ProfileID c = Profile.CurrentID)) eqn:Hp; cbn [negb].
  2:{ apply bool_decide_eq_false in Hp. split; [by intros (_ & _ & _ & _ & [=])|tauto]. }
  apply bool_decide_eq_true in Hp. rewrite !seq_exact, refusal, seq_exact by done.
  rewrite tunnels_exact, bool_decide_eq_false. unfold validateServer. rewrite !seq_exact, serverHost_exact, port_exact, unixUser_exact.
  assert (validateSHA256 (SSHBinarySHA256 c) = Ok () ↔
    String.length (SSHBinarySHA256 c) = 64%nat ∧ forallb isHexByte (to_bytes (SSHBinarySHA256 c)) = true) as ->.
  { unfold validateSHA256. rewrite refusal by done. rewrite orb_false_iff, !negb_false_iff, Nat.eqb_eq. tauto. }
  assert (validateSupervision (c_Supervision c) = Ok () ↔
    250000000 ≤ InitialBackoff (c_Supervision c) ≤ MaxBackoff (c_Supervision c) ∧ MaxBackoff (c_Supervision c) ≤ 300 * Second) as ->.
  { unfold validateSupervision. cbv zeta. rewrite !refusal by done. rewrite !orb_false_iff, !Z.ltb_ge.
    unfold MinSupervisionBackoff, MaxSupervisionBackoff, Minute, Second. split; [intros (? & ? & ? & _)|intros [? ?]; split_and!]; lia || done. }
  split.
  - intros (_ & Hk & Hs & _ & Hd & (Hh & Hsp & Hu) & Hne & (Ht & Hi & Hpo & _) & Hsup). exact (conj Hk (conj Hs (conj Hp
      (conj Hd (conj (conj Hh (conj Hsp Hu)) (conj (conj Hne (conj Ht (conj Hi Hpo))) Hsup)))))).
  - intros (Hk & Hs & _ & Hd & Hsrv & (Hne & Ht & Hi & Hpo) & Hsup). split; [rewrite Hk; vm_compute; reflexivity|].
    split; [done|]. split; [done|]. split; [rewrite Hp; apply safe_profile|]. split; [done|]. split; [done|]. split; [done|].
    split; [|done]. split_and!; [done..|]. intros t _. split; apply not_elem_of_nil.
Qed.

(** The identifier an enrollment falls back to is one. *)
Lemma label_tunnel_id b : label_ok b → tunnel_id b.
Proof.
  intros (Hlen & Hb & (c & r & -> & Hc) & Hl). apply List.Forall_cons_iff in Hb as [_ Hr].
  unfold InviteClient.isLower, Clients.in_range in Hc. exists c, r. unfold lower_letter. split_and!; [done|zbool; lia|zbool; lia| | |].
  - eapply List.Forall_impl; [|exact Hr]. intros d [Hd|[Hd|Hd]]; unfold id_byte, lower_letter.
    + unfold InviteClient.isLower, Clients.in_range in Hd. zbool. lia.
    + unfold InviteClient.isDigit, Clients.in_range in Hd. zbool. lia.
    + subst d. right. right. left. by vm_compute.
  - cbn in Hlen. unfold InviteClient.MaxInviteLabelBytes in Hlen. lia.
  - intros d Hd. assert (List.last (c :: r) (bz 45) = d) as E.
    { revert Hd. clear. revert c. induction r as [|x r IH]; intros c; [done|]. intros Hd.
      change (List.last (x :: r) (bz 45) = d). destruct r as [|y r]; [by injection Hd as ->|]. by apply IH. }
    rewrite E in Hl. assert (d ∈ r) as Hin by (apply last_Some_elem_of in Hd; exact Hd).
    rewrite list.Forall_forall in Hr. destruct (Hr d Hin) as [Hd'|[Hd'|Hd']]; [| |done].
    + unfold InviteClient.isLower, Clients.in_range in Hd'. zbool. lia.
    + unfold InviteClient.isDigit, Clients.in_range in Hd'. zbool. lia.
Qed.

(** ** Claims *)


(** C28: the validation of a client manifest accepts exactly the manifests of
    [manifest_ok] (kind, version and profile fixed; a canonical host that is no
    special address; a plain Unix user; at least one tunnel, each with a plain
    identifier, a loopback listener and a usable target, no identifier and no
    listener port twice; backoffs in range), and a document that decodes is
    such a manifest. *)
Theorem client_manifest_exact c :
  (Validate c = Ok () ↔ manifest_ok c) ∧ ∀ data, Decode data = Ok c → manifest_ok c ∧ blen data ≤ MaxConfigBytes.
Proof.
  split; [apply Validate_exact|]. intros data Hd. unfold Decode in Hd. destruct (Z.ltb_spec MaxConfigBytes (blen data)); [done|].
  split; [|done]. destruct (negb _); [done|]. destruct (StrictJson.ValidateManifestObjectNames data); [|done].
  apply bind_Ok in Hd as ([v rest] & _ & Hd). apply bind_Ok in Hd as (r & _ & Hd). destruct (negb _); [done|].
  apply bind_Ok in Hd as (r' & _ & Hd). apply bind_Ok in Hd as ([] & Hv & Hd%Ok_inj). subst r'. by apply Validate_exact.
Qed.
