(* ===== verification/Resolve.v ===== *)
(** * internal/locator/resolve.go: from a dial host to a connected address

    The lookup of a dial host, the filter on the answers, the interleaving of
    the two address families, the sequential connect and the error classes.
    The resolver and the dialer are arguments, as they are options of the
    code. *)

From S2P Require Import Prelude GoStd Json Time Host Locator Grant SshWire Crypto Packet Kex ClientStore Clients Server.
Import Time Netip Locator.

Definition Is6 (a : Addr) : bool := match a with Addr6 _ _ => true | _ => false end.

Module Resolve.

Definition maxAnswersPerFamily : nat := 4.
Definition maxAnswersTotal : nat := 8.
Definition candidateTimeout : Duration := 2 * Second.
Definition connectAggregateLimit : Duration := 8 * Second.

Definition ClassDNSResolution : string := "dns_resolution".
Definition ClassTCPConnect : string := "tcp_connect".
Definition ClassTLSNegotiate : string := "tls_negotiate".
Definition ClassTLSSPKI : string := "tls_spki".
Definition ClassInviteAuthorization : string := "invite_authorization".
Definition ClassSSHHostKey : string := "ssh_host_key".
Definition ClassForwardTarget : string := "forward_target".
Definition ClientErrorClasses : list string :=
  [ClassDNSResolution; ClassTCPConnect; ClassTLSNegotiate; ClassTLSSPKI; ClassInviteAuthorization;
   ClassSSHHostKey; ClassForwardTarget].

Record ResolvedDialPlan := mkPlan { p_Host : DialHost; Candidates : list Addr }.

Record ClassifiedError := Classified { Class : string; Message : string; Cause : error }.
Definition classifiedText (err : ClassifiedError) : string := Message err ++ ": " ++ errText (Cause err).

Definition eqs (a b : string) : bool := bool_decide (a = b).

Definition validateAnswer (addr : Addr) (allowLoopback : bool) : result () :=
  if negb (IsValid addr) then Err (EMsg "address is invalid")
  else if negb (eqs (Zone addr) "") then Err (EMsg "IPv6 zones are not permitted")
  else
    let addr := canonicalAddr addr in
    if Server.IsUnspecified addr then Err (EMsg "unspecified addresses are not permitted")
    else if Server.IsMulticast addr then Err (EMsg "multicast addresses are not permitted")
    else if Is4 addr && bool_decide (addr = Server.broadcast)
    then Err (EMsg "the IPv4 broadcast address is not permitted")
    else if Server.IsLinkLocalUnicast addr then Err (EMsg "link-local addresses are not permitted")
    else if Server.IsLoopback addr && negb allowLoopback then Err (EMsg "loopback addresses are not permitted")
    else Ok ().

Definition InterleaveFamilies (v6 v4 : list Addr) : list Addr :=
  concat ((λ i, option_list (v6 !! i) ++ option_list (v4 !! i)) <$> seq 0 (Nat.max (length v6) (length v4))).

(** One turn of the loop of [FilterAnswers], on what has been seen and the
    addresses kept of each family. *)
Record answers := mkAnswers { seen : list Addr; kept6 : list Addr; kept4 : list Addr }.
Definition filterAnswer (allowLoopback : bool) (st : answers) (answer : Addr) : answers :=
  let addr := canonicalAddr answer in
  if negb (is_ok (validateAnswer addr allowLoopback)) then st
  else if bool_decide (addr ∈ seen st) then st
  else
    let seen' := addr :: seen st in
    if Is6 addr then
      if (maxAnswersPerFamily <=? length (kept6 st))%nat then mkAnswers seen' (kept6 st) (kept4 st)
      else mkAnswers seen' (kept6 st ++ [addr]) (kept4 st)
    else
      if (maxAnswersPerFamily <=? length (kept4 st))%nat then mkAnswers seen' (kept6 st) (kept4 st)
      else mkAnswers seen' (kept6 st) (kept4 st ++ [addr]).
Definition FilterAnswers (raw : list Addr) (allowLoopback : bool) : list Addr :=
  let st := foldl (filterAnswer allowLoopback) (mkAnswers [] [] []) raw in
  take maxAnswersTotal (InterleaveFamilies (kept6 st) (kept4 st)).

(** [lookup] answers for an absolute name. *)
Definition Resolve (lookup : string → result (list Addr)) (host : DialHost) (allowLoopback : bool)
    : ResolvedDialPlan + ClassifiedError :=
  match Canonical host with
  | Err e => inr (Classified ClassDNSResolution "dial host" e)
  | Ok canonical =>
      if IsValid (IP host) then
        let addr := canonicalAddr (IP host) in
        match validateAnswer addr allowLoopback with
        | Err e => inr (Classified ClassDNSResolution "dial host" e)
        | Ok _ => inl (mkPlan host [addr])
        end
      else match lookup (canonical ++ ".")%string with
      | Err e => inr (Classified ClassDNSResolution "dns_resolution" e)
      | Ok raw =>
          let candidates := FilterAnswers raw allowLoopback in
          if bool_decide (candidates = [])
          then inr (Classified ClassDNSResolution "dns_resolution" (EMsg "no usable addresses"))
          else inl (mkPlan (mkDialHost AddrInvalid canonical) candidates)
      end
  end.

(** The world of a connect: the clock, the context before and after the dial
    of the [i]th candidate, and the dialer. *)
Record network := mkNetwork {
  x_start : Time;
  x_now : nat → Time;
  x_before : nat → option error;
  x_after : nat → option error;
  x_dial : nat → Addr → Z → Duration → option error;
}.
(** A dial: when, to which address and with which timeout. *)
Record attempt := mkAttempt { at_time : Time; at_addr : Addr; at_timeout : Duration }.

(** The loop of [Select] from the [i]th candidate on, with the last error; the
    dials that were made come with the outcome. *)
Fixpoint selectFrom (X : network) (port : Z) (deadline : Time) (i : nat) (last : option error) (candidates : list Addr)
    : list attempt * (Addr + ClassifiedError) :=
  match candidates with
  | [] =>
      ([], inr (Classified ClassTCPConnect "tcp_connect" (default (EMsg "connect aggregate timeout") last)))
  | candidate :: rest =>
      match x_before X i with
      | Some e => ([], inr (Classified ClassTCPConnect "tcp_connect" e))
      | None =>
          let remaining := deadline - x_now X i in
          if remaining <=? 0
          then ([], inr (Classified ClassTCPConnect "tcp_connect" (default (EMsg "connect aggregate timeout") last)))
          else
            let timeout := if remaining <? candidateTimeout then remaining else candidateTimeout in
            let dialled := mkAttempt (x_now X i) candidate timeout in
            match x_dial X i candidate port timeout with
            | None => ([dialled], inl candidate)
            | Some e =>
                match x_after X i with
                | Some e' => ([dialled], inr (Classified ClassTCPConnect "tcp_connect" e'))
                | None => let '(trace, r) := selectFrom X port deadline (S i) (Some e) rest in (dialled :: trace, r)
                end
            end
      end
  end.
Definition Select (X : network) (plan : ResolvedDialPlan) (port : Z) : list attempt * (Addr + ClassifiedError) :=
  if port =? 0 then ([], inr (Classified ClassTCPConnect "tcp_connect" (EMsg "port must be nonzero")))
  else if bool_decide (Candidates plan = [])
  then ([], inr (Classified ClassTCPConnect "tcp_connect" (EMsg "no candidates")))
  else selectFrom X port (x_start X + connectAggregateLimit) 0 None (Candidates plan).

(** ** Error classes *)

Definition classes : list (string * list string) :=
  [(ClassTLSSPKI, ["spki pin mismatch"; "tls_spki"]);
   (ClassSSHHostKey, ["host key verification"; "remote host identification has changed"; "ssh_host_key"]);
   (ClassForwardTarget, ["administratively prohibited"; "connect failed to"; "channel open failed"; "forward_target"]);
   (ClassInviteAuthorization, ["invite_authorization"; "enrollment rejected"; "enrollment forbidden"; "enrollment proof"]);
   (ClassTLSNegotiate, ["tls_negotiate"; "tls:"; "tls handshake"; "first record does not look like a tls"]);
   (ClassDNSResolution, ["dns_resolution"; "no such host"]);
   (ClassTCPConnect, ["tcp_connect"; "connection refused"; "i/o timeout"; "network is unreachable"])]%string.
Definition classifyClientMessage (message : string) : string :=
  let lower := Clients.lowerText message in
  match find (λ c, existsb (Strings.contains lower) c.2) classes with Some c => c.1 | None => "" end.
Definition ErrorClass (err : option (ClassifiedError + error)) : string :=
  match err with
  | None => ""
  | Some (inl c) => Class c
  | Some (inr e) => classifyClientMessage (errText e)
  end.

(** ** The answers that are kept *)

(** What a filter that keeps the first occurrences of the usable addresses
    would give. *)
Fixpoint firsts (before : list Addr) (l : list Addr) : list Addr :=
  match l with
  | [] => []
  | a :: l => if bool_decide (a ∈ before) then firsts before l else a :: firsts (a :: before) l
  end.
Definition usable (allowLoopback : bool) (raw : list Addr) : list Addr :=
  firsts [] (List.filter (λ a, is_ok (validateAnswer a allowLoopback)) (canonicalAddr <$> raw)).

Lemma firsts_elem before l a : a ∈ firsts before l → a ∈ l ∧ a ∉ before.
Proof.
  revert before. induction l as [|b l IH]; intros before; cbn; [by intros []%not_elem_of_nil|].
  case_bool_decide as Hb.
  - intros [? ?]%IH. split; [by right|done].
  - intros [-> |[? Hn]%IH]%elem_of_cons; [split; [by left|done]|]. split; [by right|]. intros ?. apply Hn. by right.
Qed.
Lemma firsts_NoDup before l : base.NoDup (firsts before l).
Proof.
  revert before. induction l as [|a l IH]; intros before; cbn; [constructor|]. case_bool_decide; [done|].
  constructor; [|done]. intros [_ Hn]%firsts_elem. apply Hn. by left.
Qed.

(** The first [n] of a list that grows. *)
Lemma take_grow (n : nat) (k : list Addr) a :
  (if (n <=? length (take n k))%nat then take n k else take n k ++ [a]) = take n (k ++ [a]).
Proof.
  rewrite length_take. destruct (Nat.leb_spec n (Nat.min n (length k))).
  - by rewrite take_app_le by lia.
  - rewrite !take_ge by (rewrite ?length_app; cbn; lia). done.
Qed.

Lemma foldl_kept b raw : ∀ st k6 k4,
  kept6 st = take maxAnswersPerFamily k6 → kept4 st = take maxAnswersPerFamily k4 →
  kept6 (foldl (filterAnswer b) st raw) = take maxAnswersPerFamily (k6 ++ List.filter Is6
    (firsts (seen st) (List.filter (λ a, is_ok (validateAnswer a b)) (canonicalAddr <$> raw)))) ∧
  kept4 (foldl (filterAnswer b) st raw) = take maxAnswersPerFamily (k4 ++ List.filter (λ a, negb (Is6 a))
    (firsts (seen st) (List.filter (λ a, is_ok (validateAnswer a b)) (canonicalAddr <$> raw)))).
Proof.
  induction raw as [|a raw IH]; intros st k6 k4 H6 H4; cbn [foldl fmap list_fmap List.filter firsts].
  { by rewrite !app_nil_r. }
  assert (filterAnswer b st a = if negb (is_ok (validateAnswer (canonicalAddr a) b)) || bool_decide (canonicalAddr a ∈ seen st) then st
    else if Is6 (canonicalAddr a)
    then mkAnswers (canonicalAddr a :: seen st) (take maxAnswersPerFamily (k6 ++ [canonicalAddr a])) (kept4 st)
    else mkAnswers (canonicalAddr a :: seen st) (kept6 st) (take maxAnswersPerFamily (k4 ++ [canonicalAddr a]))) as ->.
  { unfold filterAnswer. cbv zeta. rewrite <- !take_grow, <- H6, <- H4.
    destruct (negb _), (bool_decide _); cbn [orb]; [done..|]. by repeat case_match. }
  destruct (is_ok (validateAnswer (canonicalAddr a) b)); cbn [negb orb]; [|by apply IH].
  cbn [firsts]. case_bool_decide as Hseen; [by apply IH|]. cbn [List.filter].
  destruct (Is6 (canonicalAddr a)); cbn [negb].
  - rewrite (cons_middle (canonicalAddr a) k6 (List.filter _ _)), (app_assoc k6). by apply IH.
  - rewrite (cons_middle (canonicalAddr a) k4 (List.filter _ _)), (app_assoc k4). by apply IH.
Qed.

(** ** Interleaving *)

Lemma interleave_step a b v6 v4 : InterleaveFamilies (a :: v6) (b :: v4) = a :: b :: InterleaveFamilies v6 v4.
Proof.
  unfold InterleaveFamilies. cbn [length Nat.max seq fmap list_fmap concat]. rewrite <- seq_shift, <- list_fmap_compose. done.
Qed.
Lemma interleave_nil_l v4 : InterleaveFamilies [] v4 = v4.
Proof.
  unfold InterleaveFamilies. cbn [length Nat.max]. induction v4 as [|b v4 IH]; [done|].
  cbn [length seq fmap list_fmap concat lookup list_lookup option_list app]. f_equal. rewrite <- seq_shift, <- list_fmap_compose. exact IH.
Qed.
Lemma interleave_nil_r v6 : InterleaveFamilies v6 [] = v6.
Proof.
  unfold InterleaveFamilies. cbn [length]. rewrite Nat.max_0_r. induction v6 as [|b v6 IH]; [done|].
  cbn [length seq fmap list_fmap concat lookup list_lookup option_list app]. f_equal. rewrite <- seq_shift, <- list_fmap_compose. exact IH.
Qed.

Lemma interleave_perm v6 : ∀ v4, InterleaveFamilies v6 v4 ≡ₚ v6 ++ v4.
Proof.
  induction v6 as [|a v6 IH]; intros [|b v4]; [done|by rewrite interleave_nil_l|by rewrite interleave_nil_r, app_nil_r|].
  rewrite interleave_step, IH. cbn. constructor. by rewrite Permutation_middle.
Qed.

Lemma interleave_filter (f : Addr → bool) v6 : ∀ v4,
  Forall (λ a, f a = true) v6 → Forall (λ a, f a = false) v4 →
  List.filter f (InterleaveFamilies v6 v4) = v6 ∧ List.filter (λ a, negb (f a)) (InterleaveFamilies v6 v4) = v4.
Proof.
  induction v6 as [|a v6 IH]; intros v4 H6 H4.
  - rewrite interleave_nil_l. induction H4 as [|b v4 Hb H4 [IH1 IH2]]; [done|]. cbn. rewrite Hb. cbn. by rewrite IH1, IH2.
  - apply Forall_cons_1 in H6 as [Ha H6]. destruct H4 as [|b v4 Hb H4].
    + rewrite interleave_nil_r. cbn. rewrite Ha. cbn. destruct (IH [] H6 (Forall_nil_2 _)) as [E1 E2].
      rewrite interleave_nil_r in E1, E2. by rewrite E1, E2.
    + rewrite interleave_step. cbn. rewrite Ha, Hb. cbn. destruct (IH v4 H6 H4) as [E1 E2]. by rewrite E1, E2.
Qed.

Lemma Forall_take_filter (f : Addr → bool) n l : Forall (λ a, f a = true) (take n (List.filter f l)).
Proof. apply Forall_take, Forall_forall. intros a Ha%filter_In. apply Ha. Qed.

Lemma NoDup_kept (f : Addr → bool) n allowLoopback raw : base.NoDup (take n (List.filter f (usable allowLoopback raw))).
Proof.
  eapply sublist_NoDup; [apply NoDup_ListNoDup, (List.NoDup_filter f), NoDup_ListNoDup, firsts_NoDup|apply sublist_take].
Qed.

Lemma FilterAnswers_interleaved raw allowLoopback :
  FilterAnswers raw allowLoopback = InterleaveFamilies (take 4 (List.filter Is6 (usable allowLoopback raw)))
    (take 4 (List.filter (λ a, negb (Is6 a)) (usable allowLoopback raw))).
Proof.
  unfold FilterAnswers. destruct (foldl_kept allowLoopback raw (mkAnswers [] [] []) [] []) as [-> ->]; [done..|].
  change (take maxAnswersPerFamily ?l) with (take 4 l). cbn [app seen]. fold (usable allowLoopback raw). apply take_ge.
  rewrite interleave_perm, length_app, !length_take. unfold maxAnswersTotal. lia.
Qed.
Lemma FilterAnswers_usable raw allowLoopback a :
  a ∈ FilterAnswers raw allowLoopback → validateAnswer a allowLoopback = Ok () ∧ ∃ answer, answer ∈ raw ∧ a = canonicalAddr answer.
Proof.
  intros Ha. assert (a ∈ usable allowLoopback raw) as Hin.
  { revert Ha. rewrite FilterAnswers_interleaved, interleave_perm. intros [Ha|Ha]%elem_of_app; apply elem_of_take in Ha as (i & Ha & _);
      apply list_elem_of_lookup_2, list_elem_of_In, filter_In in Ha as [Ha _]; by apply list_elem_of_In. }
  apply firsts_elem in Hin as [Hin _]. apply list_elem_of_In, filter_In in Hin as [Hin Hv].
  apply list_elem_of_In, list_elem_of_fmap in Hin as (answer & -> & Hin).
  split; [by destruct (validateAnswer _ _) as [[]|]|eauto].
Qed.

(** [FilterAnswers] keeps exactly the first four usable IPv6 and the first
    four usable IPv4 addresses, each once and in the order of the answers, and
    alternates them beginning with IPv6.  So there are at most eight
    candidates, none twice, each the canonical form of an answer, and none is
    unspecified, multicast, broadcast, link-local or has a zone, nor is a
    loopback address unless that is allowed; the cap on the total never drops
    an address. *)
Theorem filter_answers_exact raw allowLoopback :
  let six := take 4 (List.filter Is6 (usable allowLoopback raw)) in
  let four := take 4 (List.filter (λ a, negb (Is6 a)) (usable allowLoopback raw)) in
  let result := FilterAnswers raw allowLoopback in
  result = InterleaveFamilies six four ∧ List.filter Is6 result = six ∧ List.filter (λ a, negb (Is6 a)) result = four ∧
  base.NoDup result ∧ (length result ≤ 8)%nat ∧
  ∀ a, a ∈ result → validateAnswer a allowLoopback = Ok () ∧ ∃ answer, answer ∈ raw ∧ a = canonicalAddr answer.
Proof.
  intros six four result. assert (result = InterleaveFamilies six four) as E by apply FilterAnswers_interleaved.
  destruct (interleave_filter Is6 six four) as [E6 E4].
  { apply (Forall_take_filter Is6). }
  { eapply Forall_impl; [|exact (Forall_take_filter (λ a, negb (Is6 a)) 4 _)]. intros a Ha. by apply negb_true_iff. }
  split_and!; [done|by rewrite E..| | |].
  - rewrite E, (interleave_perm six four). apply list.NoDup_app. split_and!.
    + apply NoDup_kept.
    + intros a (i & Ha & _)%elem_of_take (j & Hb & _)%elem_of_take.
      apply list_elem_of_lookup_2, list_elem_of_In, filter_In in Ha as [_ Ha].
      apply list_elem_of_lookup_2, list_elem_of_In, filter_In in Hb as [_ Hb]. by rewrite Ha in Hb.
    + apply NoDup_kept.
  - rewrite E, (interleave_perm six four), length_app. subst six four. rewrite !length_take. lia.
  - intros a. apply FilterAnswers_usable.
Qed.

(** ** Connecting *)

Lemma selectFrom_spec X port deadline candidates : ∀ i last,
  let '(trace, r) := selectFrom X port deadline i last candidates in
  at_addr <$> trace `prefix_of` candidates ∧
  Forall (λ t, 0 < at_timeout t ≤ 2 * Second ∧ at_time t + at_timeout t ≤ deadline) trace ∧
  (∀ j t, trace !! j = Some t →
     (x_dial X (i + j) (at_addr t) port (at_timeout t) = None ↔ r = inl (at_addr t) ∧ S j = length trace)) ∧
  match r with inl a => ∃ t, list.last trace = Some t ∧ at_addr t = a | inr e => Class e = ClassTCPConnect end.
Proof.
  induction candidates as [|c candidates IH]; intros i last; cbn [selectFrom].
  { by split_and!; [apply prefix_nil|constructor| |]. }
  destruct (x_before X i); [by split_and!; [apply prefix_nil|constructor| |]|].
  destruct (Z.leb_spec (deadline - x_now X i) 0) as [|Hrem]; [by split_and!; [apply prefix_nil|constructor| |]|].
  set (timeout := if (deadline - x_now X i) <? candidateTimeout then _ else _).
  assert (0 < timeout ≤ 2 * Second ∧ x_now X i + timeout ≤ deadline) as Ht.
  { subst timeout. unfold candidateTimeout, Second. destruct (Z.ltb_spec (deadline - x_now X i) (2 * 1000000000)); lia. }
  assert ([c] `prefix_of` c :: candidates) as Hc by (apply prefix_cons, prefix_nil).
  destruct (x_dial X i c port timeout) as [e|] eqn:Hd.
  - destruct (x_after X i).
    { split_and!; [done|by constructor| |done]. intros [|j] t [= <-]. rewrite Nat.add_0_r. cbn. rewrite Hd. by split; [|intros []]. }
    specialize (IH (S i) (Some e)). destruct (selectFrom X port deadline (S i) (Some e) candidates) as [trace r].
    destruct IH as (Hp & Hf & Hd' & Hr). split_and!.
    + by apply prefix_cons.
    + by constructor.
    + intros [|j] t Hj.
      * injection Hj as <-. rewrite Nat.add_0_r. cbn. rewrite Hd. split; [done|]. intros [-> Hl].
        destruct Hr as (t & Ht' & _). by destruct trace.
      * rewrite Nat.add_succ_r. rewrite (Hd' j t Hj). cbn. split; intros []; split; done || lia.
    + destruct r as [a|]; [|done]. destruct Hr as (t & Ht' & Ha). exists t. split; [|done]. by destruct trace.
  - split_and!; [done|by constructor| |by eexists]. intros [|j] t [= <-]. rewrite Nat.add_0_r. cbn. by rewrite Hd.
Qed.

(** [Select] dials the candidates in their order, one at a time and each at
    most once; no dial may last longer than two seconds nor past eight seconds
    after the start; the address it returns is the last one dialled and the
    only one whose dial succeeded, and an error is of class tcp_connect and
    means that no dial succeeded. *)
Theorem select_bounded X plan port :
  let '(trace, r) := Select X plan port in
  at_addr <$> trace `prefix_of` Candidates plan ∧
  Forall (λ t, 0 < at_timeout t ≤ 2 * Second ∧ at_time t + at_timeout t ≤ x_start X + 8 * Second) trace ∧
  (∀ i t, trace !! i = Some t →
     (x_dial X i (at_addr t) port (at_timeout t) = None ↔ r = inl (at_addr t) ∧ S i = length trace)) ∧
  match r with inl a => ∃ t, list.last trace = Some t ∧ at_addr t = a | inr e => Class e = ClassTCPConnect end.
Proof.
  unfold Select. destruct (port =? 0); [by split_and!; [apply prefix_nil|constructor| |]|].
  case_bool_decide; [by split_and!; [apply prefix_nil|constructor| |]|]. apply selectFrom_spec.
Qed.

(** The classes are those the client may record. *)
Lemma ErrorClass_listed message : classifyClientMessage message = ""%string ∨ classifyClientMessage message ∈ ClientErrorClasses.
Proof.
  unfold classifyClientMessage. destruct (find _ classes) as [c|] eqn:Hf; [right|by left].
  apply find_some in Hf as [Hin _]. apply list_elem_of_In in Hin.
  assert (Forall (λ c, c.1 ∈ ClientErrorClasses) classes) as Hall by (apply (bool_decide_unpack _); vm_compute; done).
  rewrite list.Forall_forall in Hall. by apply Hall.
Qed.

End Resolve.
