(* ===== verification/Supervisor.v ===== *)
(** * internal/supervisor: one tunnel process at a time

    The supervisor of the client's tunnel process: it launches the process,
    races its exit against a readiness gate bound to its pid, announces
    readiness, and restarts it with a growing delay.

    The operating system, the readiness gate, the command provider, the
    notifier and the clock are an environment that answers every call, indexed
    by the number of the step, so a theorem for every environment covers every
    outcome and every interleaving: which case of a [select] is taken, when the
    context is cancelled, when the child exits.  The state is the context's
    cancellation, which is never undone, and the trace of what was done.  The
    two loops are functions of a number of rounds; [None] is a loop that has
    not returned yet. *)

From S2P Require Import Prelude GoStd Time.
Import Time.

Module Supervisor.

(** ** Errors

    The error trees of [fmt.Errorf("%w")], [errors.Join] and
    [terminalSupervisorError].  [Other] is an error of another package: its text
    and, if its type has a method [Terminal], what that returns. *)
#[warnings="-register-all"]
Inductive failure :=
| Text (text : string)
| Wrapped (prefix : string) (cause : failure)
| Joined (all : list failure)
| terminalSupervisorError (action : string) (cause : failure)
| Other (text : string) (terminal : option bool).

(** [errors.Join]: nil errors are dropped, and no error is nil. *)
Definition Join (all : list (option failure)) : option failure :=
  match omap id all with [] => None | errs => Some (Joined errs) end.

(** [errors.As] to an error with a method [Terminal]: the first one in
    depth-first order, and what its method returns. *)
Fixpoint asTerminal (e : failure) : option bool :=
  match e with
  | Text _ => None
  | Wrapped _ cause => asTerminal cause
  | Joined all =>
      (fix first l := match l with
                      | [] => None
                      | x :: r => match asTerminal x with Some b => Some b | None => first r end
                      end) all
  | terminalSupervisorError _ _ => Some true
  | Other _ terminal => terminal
  end.

Definition isTerminalFailure (err : option failure) : bool :=
  match err with
  | None => false
  | Some e => match asTerminal e with Some b => b | None => false end
  end.

Definition terminalReadinessClose (err : option failure) : option failure :=
  terminalSupervisorError "close readiness gate" <$> err.

Definition processExitError (boundary : string) (err : option failure) : failure :=
  match err with
  | None => Text ("tunnel process exited successfully " ++ boundary)
  | Some e => Wrapped ("tunnel process exited " ++ boundary) e
  end.

(** ** The policy *)

Record Policy := mkPolicy {
  Restart : bool;
  InitialBackoff : Duration;
  MaximumBackoff : Duration;
  StableWindow : Duration;
  StartupTimeout : Duration;
  MaximumAttempts : Z;
}.

Definition defaultStableWindow : Duration := Minute.
Definition defaultStartupTimeout : Duration := 30 * Second.
Definition defaultMaximumAttempts : Z := 10.
Definition terminateGrace : Duration := 2 * Second.

Definition validatePolicy (policy : Policy) : option failure :=
  if InitialBackoff policy <=? 0 then Some (Text "initial restart backoff must be positive")
  else if MaximumBackoff policy <? InitialBackoff policy
  then Some (Text "maximum restart backoff must be at least the initial backoff")
  else if StableWindow policy <? 0 then Some (Text "stable window must not be negative")
  else if StartupTimeout policy <? 0 then Some (Text "startup timeout must not be negative")
  else if MaximumAttempts policy <? 0 then Some (Text "maximum attempts must not be negative")
  else None.

(** A signed 64-bit integer. *)
Definition wrapInt64 (z : Z) : Z := (z + 2 ^ 63) mod 2 ^ 64 - 2 ^ 63.

Definition nextBackoff (current maximum : Duration) : Duration :=
  if (maximum <=? current) || (Z.quot maximum 2 <? current) then maximum
  else wrapInt64 (current * 2).

(** [Time.Sub]: a difference that does not fit is the nearest duration. *)
Definition Sub (t u : Time) : Duration := Z.max (- 2 ^ 63) (Z.min (2 ^ 63 - 1) (t - u)).

Definition orDefault (value default : Z) : Z := if value =? 0 then default else value.

(** ** The observed states *)

Inductive State :=
| StatePreparing | StateStarting | StateAwaitingReadiness | StateReady
| StateBackoff | StateStopping | StateStopped | StateFailed.
#[global] Instance State_eq_dec : EqDecision State.
Proof. solve_decision. Defined.

Record Transition := mkTransition {
  t_State : State;
  t_Attempt : Z;
  t_PID : Z;
  t_Time : Time;
  t_Err : option failure;
}.

Record Command := mkCommand { Path : string; Args : list string; Env : list string }.
(** A nil readiness gate is [false]. *)
Record ReadyCommand := mkReadyCommand { r_Command : Command; r_Readiness : bool }.

(** ** The environment and the trace *)

(** The cases of the [select] that waits for readiness. *)
Inductive race :=
| RaceExit (processErr : option failure)
| RaceReady (readinessErr : option failure)
| RaceDone.

Record environment := mkEnvironment {
  (** whether the context is found cancelled *)
  x_cancelled : nat → bool;
  x_provider : nat → failure + Command;
  x_readyProvider : nat → failure + ReadyCommand;
  (** [Launcher.Start] and the pid of the process *)
  x_start : nat → failure + Z;
  x_race : nat → race;
  (** the child's exit, when it comes before the context is done *)
  x_exit : nat → option (option failure);
  (** the child's exit, when it can be received now (or before a timer) *)
  x_poll : nat → option (option failure);
  (** the error of any other call *)
  x_error : nat → option failure;
  x_now : nat → Time;
}.

Inductive event :=
| Observed (t : Transition)
| Prepared
| Launched (attempt pid : Z)
| NotLaunched (attempt : Z)
| GateAwaited (pid : Z) (err : option failure)
| GateClosed (err : option failure)
| Notified (attempt pid : Z) (err : option failure)
| Terminated (pid : Z)
| Killed (pid : Z)
| Reaped (pid : Z)
| Served (pid : Z) (runtime : Duration)
| Abandoned (pid : Z)
| Ran (attempt : Z) (runtime : Duration)
| Slept (d : Duration).

Record run := mkRun { steps : nat; cancelled : bool; trace : list event }.

Definition RM (A : Type) : Type := run → A * run.
#[global] Instance RM_ret : MRet RM := λ A a s, (a, s).
#[global] Instance RM_bind : MBind RM := λ A B f m s, let '(a, s') := m s in f a s'.

Definition emit (e : event) : RM () := λ s, ((), mkRun (steps s) (cancelled s) (trace s ++ [e])).
Definition ask {A} (answer : nat → A) : RM A :=
  λ s, (answer (steps s), mkRun (S (steps s)) (cancelled s) (trace s)).
Definition cancel : RM () := λ s, ((), mkRun (steps s) true (trace s)).

(** The fields of the supervisor and the arguments that may be nil. *)
Record Supervisor := mkSupervisor { Observer : bool; Notifier : bool }.

Section supervisor.
Context (X : environment) (supervisor : Supervisor).

(** [ctx.Err() != nil]. *)
Definition ctxErr : RM bool :=
  λ s, let c := cancelled s || x_cancelled X (steps s) in (c, mkRun (S (steps s)) c (trace s)).

Definition now : RM Time := ask (x_now X).

Definition transition (state : State) (attempt pid : Z) (err : option failure) : RM () :=
  if Observer supervisor then t ← now; emit (Observed (mkTransition state attempt pid t err)) else mret ().

(** [readiness.Close()]. *)
Definition closeGate : RM (option failure) := e ← ask (x_error X); emit (GateClosed e);; mret e.
(** [<-readinessResult] of the gate that has been told to stop. *)
Definition awaitEnd (pid : Z) : RM (option failure) := e ← ask (x_error X); emit (GateAwaited pid e);; mret e.

(** [waitContext]: the timer, or the end of the context. *)
Definition waitContext (duration : Duration) : RM (option failure) :=
  emit (Slept duration);;
  fired ← ask (x_cancelled X);
  if (fired : bool) then cancel;; mret (Some (Text "context canceled")) else mret None.

(** A receive of the child's exit that does not wait for it. *)
Definition poll (pid : Z) : RM (option (option failure)) :=
  r ← ask (x_poll X);
  match r with Some processErr => emit (Reaped pid);; mret (Some processErr) | None => mret None end.

(** With [channel] the child's exit comes from the goroutine that waits for it,
    else [Wait] is called here. *)
Definition terminateAndReap (pid : Z) (channel : bool) : RM (option failure) :=
  first ← (if channel then poll pid else mret None);
  match first with
  | Some processErr => mret processErr
  | None =>
      terminateErr ← ask (x_error X); emit (Terminated pid);;
      if negb channel then
        waitErr ← ask (x_error X); emit (Reaped pid);; mret (Join [terminateErr; waitErr])
      else
        second ← poll pid;
        match second with
        | Some waitErr => mret (Join [terminateErr; waitErr])
        | None =>
            killErr ← ask (x_error X); emit (Killed pid);;
            let terminateErr := Join [terminateErr; killErr] in
            third ← poll pid;
            match third with
            | Some waitErr => mret (Join [terminateErr; waitErr])
            | None => emit (Abandoned pid);; mret (Join [terminateErr; Some (Text "process did not exit after kill")])
            end
        end
  end.

(** ** One attempt *)

Record readyAttemptResult := mkResult {
  pid : Z;
  err : option failure;
  readyRuntime : Duration;
  terminal : bool;
  stopped : bool;
}.
Definition failedAttempt (pid : Z) (err : option failure) : readyAttemptResult := mkResult pid err 0 false false.
Definition terminalAttempt (pid : Z) (err : option failure) : readyAttemptResult := mkResult pid err 0 true false.
Definition stoppedAttempt (pid : Z) : readyAttemptResult := mkResult pid None 0 false true.

(** The child exited before the gate answered. *)
Definition exitedEarly (pid : Z) (processErr : option failure) : RM readyAttemptResult :=
  emit (Reaped pid);;
  readinessErr ← awaitEnd pid;
  closeErr ← closeGate; let closeErr := terminalReadinessClose closeErr in
  c ← ctxErr;
  if (c : bool) then mret (stoppedAttempt pid)
  else if isTerminalFailure readinessErr
  then mret (terminalAttempt pid (Join [readinessErr; closeErr]))
  else mret (failedAttempt pid
         (Join [Some (processExitError "before authenticated-forward readiness" processErr); closeErr])).

(** The gate succeeded and is closed, and the child still runs. *)
Definition serveReady (attempt pid : Z) : RM readyAttemptResult :=
  readyAt ← now;
  notifyErr ← (if Notifier supervisor
               then e ← ask (x_error X); emit (Notified attempt pid e);; mret e else mret None);
  match notifyErr with
  | Some e =>
      waitErr ← terminateAndReap pid true;
      mret (terminalAttempt pid (Join [Some (terminalSupervisorError "publish tunnel readiness" e); waitErr]))
  | None =>
      transition StateReady attempt pid None;;
      finished ← ask (x_exit X);
      match finished with
      | Some processErr =>
          emit (Reaped pid);;
          t ← now;
          emit (Served pid (Sub t readyAt));;
          mret (mkResult pid (Some (processExitError "after authenticated-forward readiness" processErr))
                  (Sub t readyAt) false false)
      | None =>
          cancel;;
          transition StateStopping attempt pid None;;
          terminateAndReap pid true;;
          mret (stoppedAttempt pid)
      end
  end.

(** The gate answered first. *)
Definition gateAnswered (attempt pid : Z) (readinessErr : option failure) : RM readyAttemptResult :=
  emit (GateAwaited pid readinessErr);;
  match readinessErr with
  | Some e =>
      waitErr ← terminateAndReap pid true;
      closeErr ← closeGate; let closeErr := terminalReadinessClose closeErr in
      c ← ctxErr;
      if (c : bool) then mret (stoppedAttempt pid)
      else mret (mkResult pid
             (Join [Some (Wrapped "establish authenticated-forward readiness" e); waitErr; closeErr])
             0 (isTerminalFailure readinessErr) false)
  | None =>
      c ← ctxErr;
      if (c : bool) then
        terminateAndReap pid true;;
        closeGate;;
        mret (stoppedAttempt pid)
      else
        closeErr ← closeGate;
        match terminalReadinessClose closeErr with
        | Some e =>
            waitErr ← terminateAndReap pid true;
            mret (terminalAttempt pid (Join [Some e; waitErr]))
        | None =>
            boundary ← poll pid;
            match boundary with
            | Some processErr =>
                mret (failedAttempt pid
                  (Some (processExitError "at the authenticated-forward readiness boundary" processErr)))
            | None => serveReady attempt pid
            end
        end
  end.

(** The context ended first. *)
Definition cancelledWaiting (attempt pid : Z) : RM readyAttemptResult :=
  cancel;;
  transition StateStopping attempt pid None;;
  terminateAndReap pid true;;
  awaitEnd pid;;
  closeGate;;
  mret (stoppedAttempt pid).

Definition runReadyAttempt (attempt : Z) : RM readyAttemptResult :=
  transition StateStarting attempt 0 None;;
  started ← ask (x_start X);
  match started with
  | inl e =>
      emit (NotLaunched attempt);;
      closeErr ← closeGate; let closeErr := terminalReadinessClose closeErr in
      mret (failedAttempt 0 (Join [Some (Wrapped "start tunnel process" e); closeErr]))
  | inr pid =>
      emit (Launched attempt pid);;
      if pid <=? 0 then
        waitErr ← terminateAndReap pid false;
        closeErr ← closeGate; let closeErr := terminalReadinessClose closeErr in
        mret (terminalAttempt pid
          (Join [Some (Text "started tunnel process has an invalid PID"); waitErr; closeErr]))
      else
        transition StateAwaitingReadiness attempt pid None;;
        first ← ask (x_race X);
        match first with
        | RaceExit processErr => exitedEarly pid processErr
        | RaceReady readinessErr => gateAnswered attempt pid readinessErr
        | RaceDone => cancelledWaiting attempt pid
        end
  end.

(** ** The loop *)

Definition reached (maximumAttempts : Z) (what : string) (cause : failure) : failure :=
  Wrapped (what ++ Strings.itoa maximumAttempts ++ " consecutive failed attempts") cause.
(** [%w] of an error that may be nil. *)
Definition wrapMaybe (prefix : string) (e : option failure) : failure :=
  match e with Some e => Wrapped prefix e | None => Text (prefix ++ ": %!w(<nil>)") end.

(** What a round of a loop decides: return, or go on with the delay, the
    number of launches and the number of consecutive failures. *)
Inductive round :=
| Return (err : option failure)
| Again (backoff : Duration) (attempt consecutiveFailures : Z).

Definition readyRound (policy : Policy) (backoff : Duration) (attempt consecutiveFailures : Z) : RM round :=
  let stableWindow := orDefault (StableWindow policy) defaultStableWindow in
  let maximumAttempts := orDefault (MaximumAttempts policy) defaultMaximumAttempts in
  transition StatePreparing (attempt + 1) 0 None;;
  prepared ← ask (x_readyProvider X);
  emit Prepared;;
  match prepared with
  | inl e =>
      c ← ctxErr;
      if (c : bool) then transition StateStopped attempt 0 None;; mret (Return None)
      else transition StateFailed (attempt + 1) 0 (Some e);;
           mret (Return (Some (Wrapped "prepare ready supervised command" e)))
  | inr prepared =>
      if negb (r_Readiness prepared) then mret (Return (Some (Text "supervised readiness gate is required")))
      else if bool_decide (Path (r_Command prepared) = ""%string) then
        closeErr ← closeGate;
        mret (Return (Join [Some (Text "supervised command path is required"); closeErr]))
      else
        let attempt := attempt + 1 in
        result ← runReadyAttempt attempt;
        if stopped result then transition StateStopped attempt (pid result) None;; mret (Return None)
        else
          let stable := stableWindow <=? readyRuntime result in
          let backoff := if stable then InitialBackoff policy else backoff in
          let consecutiveFailures := if stable then 0 else consecutiveFailures in
          if terminal result || isTerminalFailure (err result) then
            transition StateFailed attempt (pid result) (err result);;
            mret (Return (Some (wrapMaybe "managed tunnel attempt failed terminally" (err result))))
          else if negb (Restart policy) then
            transition StateFailed attempt (pid result) (err result);;
            mret (Return (Some (wrapMaybe "managed tunnel attempt failed" (err result))))
          else
            let consecutiveFailures := consecutiveFailures + 1 in
            if maximumAttempts <=? consecutiveFailures then
              transition StateFailed attempt (pid result) (err result);;
              mret (Return (Some (wrapMaybe ("managed tunnel reached " ++ Strings.itoa maximumAttempts
                                             ++ " consecutive failed attempts") (err result))))
            else
              transition StateBackoff attempt (pid result) (err result);;
              waited ← waitContext backoff;
              match waited with
              | Some e =>
                  c ← ctxErr;
                  if (c : bool) then transition StateStopped attempt (pid result) None;; mret (Return None)
                  else mret (Return (Some (Wrapped "wait before tunnel restart" e)))
              | None => mret (Again (nextBackoff backoff (MaximumBackoff policy)) attempt consecutiveFailures)
              end
  end.

(** The round of [RunPrepared], whose runner starts the process and waits for
    it. *)
Definition preparedRound (policy : Policy) (backoff : Duration) (attempt consecutiveFailures : Z) : RM round :=
  let stableWindow := orDefault (StableWindow policy) defaultStableWindow in
  let maximumAttempts := orDefault (MaximumAttempts policy) defaultMaximumAttempts in
  prepared ← ask (x_provider X);
  emit Prepared;;
  match prepared with
  | inl e =>
      c ← ctxErr;
      if (c : bool) then mret (Return None) else mret (Return (Some (Wrapped "prepare supervised command" e)))
  | inr command =>
      if bool_decide (Path command = ""%string)
      then mret (Return (Some (Text "supervised command path is required")))
      else
        let attempt := attempt + 1 in
        started ← now;
        err ← ask (x_error X);
        ended ← now;
        let runtime := Sub ended started in
        emit (Ran attempt runtime);;
        c ← ctxErr;
        if (c : bool) then mret (Return None)
        else if negb (Restart policy) then mret (Return (Wrapped "tunnel process exited" <$> err))
        else
          let stable := stableWindow <=? runtime in
          let backoff := if stable then InitialBackoff policy else backoff in
          let consecutiveFailures := (if stable then 0 else consecutiveFailures) + 1 in
          if maximumAttempts <=? consecutiveFailures then
            let lastErr := default (Text "tunnel process exited successfully while restart was required") err in
            mret (Return (Some (reached maximumAttempts "tunnel process reached " lastErr)))
          else
            waited ← waitContext backoff;
            match waited with
            | Some e =>
                c ← ctxErr;
                if (c : bool) then mret (Return None)
                else mret (Return (Some (Wrapped "wait before tunnel restart" e)))
            | None => mret (Again (nextBackoff backoff (MaximumBackoff policy)) attempt consecutiveFailures)
            end
  end.

(** [for { ... }] for at most [rounds] rounds. *)
Fixpoint loop (body : Duration → Z → Z → RM round) (rounds : nat) (backoff : Duration)
    (attempt consecutiveFailures : Z) : RM (option (option failure)) :=
  match rounds with
  | O => mret None
  | S rounds =>
      r ← body backoff attempt consecutiveFailures;
      match r with
      | Return e => mret (Some e)
      | Again backoff attempt consecutiveFailures => loop body rounds backoff attempt consecutiveFailures
      end
  end.

Definition RunPrepared (policy : Policy) (rounds : nat) : RM (option (option failure)) :=
  match validatePolicy policy with
  | Some e => mret (Some (Some e))
  | None => loop (preparedRound policy) rounds (InitialBackoff policy) 0 0
  end.

Definition RunPreparedReady (policy : Policy) (rounds : nat) : RM (option (option failure)) :=
  match validatePolicy policy with
  | Some e => mret (Some (Some e))
  | None => loop (readyRound policy) rounds (InitialBackoff policy) 0 0
  end.

End supervisor.

(** The start of a run: nothing done, the context live. *)
Definition start : run := mkRun 0 false [].

End Supervisor.
