(* ===== verification/SupervisorProps.v ===== *)
(** * Properties of the supervisor

    Every run follows a protocol automaton: one child at a time, readiness only
    announced when it is proven, no delay and no return with a child alive.
    Failed launches are bounded, and the delay is a function of the number of
    consecutive failures. *)

From S2P Require Import Prelude GoStd Time Supervisor.
Import Time Supervisor.

(** ** The protocol *)

(** Which state may be observed after which. *)
Definition follows (last : option State) (next : State) : bool :=
  match last, next with
  | None, StatePreparing => true
  | Some StatePreparing, (StateStarting | StateStopped | StateFailed) => true
  | Some StateStarting, (StateAwaitingReadiness | StateBackoff | StateFailed) => true
  | Some StateAwaitingReadiness, (StateReady | StateBackoff | StateStopping | StateStopped | StateFailed) => true
  | Some StateReady, (StateBackoff | StateStopping | StateFailed) => true
  | Some StateStopping, StateStopped => true
  | Some StateBackoff, (StatePreparing | StateStopped) => true
  | _, _ => false
  end.

(** What the protocol remembers: the last observed state, the child that has
    been launched and not yet reaped (its attempt and pid), whether its gate
    has succeeded, has been closed, and the notifier told. *)
Record protocol := mkProtocol {
  last : option State;
  child : option (Z * Z);
  proven : bool;
  sealed : bool;
  told : bool;
}.

Definition begin : protocol := mkProtocol None None false false false.

Section protocol.
Context (notifier : bool).

(** The states in which no child may be left. *)
Definition childless (state : State) : bool :=
  match state with StatePreparing | StateStarting | StateBackoff | StateStopped | StateFailed => true | _ => false end.

Definition is_child (pid : Z) (p : protocol) : bool :=
  match child p with Some (_, q) => pid =? q | None => false end.

(** The child is gone: reaped, or still alive two seconds after the kill. *)
Definition released (p : protocol) : protocol := mkProtocol (last p) None false false false.

Definition observe (t : Transition) (p : protocol) : option protocol :=
  if negb (follows (last p) (t_State t)) then None
  else if childless (t_State t) && negb (bool_decide (child p = None)) then None
  else if negb (childless (t_State t)) && negb (bool_decide (child p = Some (t_Attempt t, t_PID t))) then None
  else if bool_decide (t_State t = StateReady) && negb (proven p && sealed p && (told p || negb notifier)) then None
  else Some (mkProtocol (Some (t_State t)) (child p) (proven p) (sealed p) (told p)).

Definition allow (e : event) (p : protocol) : option protocol :=
  match e with
  | Observed t => observe t p
  | Prepared | NotLaunched _ | Ran _ _ | Slept _ => if bool_decide (child p = None) then Some p else None
  | Launched attempt pid =>
      if bool_decide (child p = None) then Some (mkProtocol (last p) (Some (attempt, pid)) false false false) else None
  | GateAwaited pid err =>
      Some (mkProtocol (last p) (child p) (bool_decide (err = None) && is_child pid p) (sealed p) (told p))
  | GateClosed err => Some (mkProtocol (last p) (child p) (proven p) (bool_decide (err = None)) (told p))
  | Notified attempt pid err =>
      if bool_decide (child p = Some (attempt, pid)) && proven p && sealed p
      then Some (mkProtocol (last p) (child p) (proven p) (sealed p) (bool_decide (err = None))) else None
  | Terminated pid | Killed pid =>
      if is_child pid p then Some (mkProtocol (last p) (child p) false (sealed p) (told p)) else None
  | Reaped pid | Abandoned pid => if is_child pid p then Some (released p) else None
  | Served _ _ => Some p
  end.

End protocol.

(** ** Monitors

    A monitor reads the trace event by event; [accepts] is its state after a
    trace it allows, and [keeps] what a program does from a run the monitor has
    followed up to [p]. *)

Section monitors.
Context {M : Type} (step : event → M → option M) (initial : M).

Fixpoint accepts (p : M) (t : list event) : option M :=
  match t with
  | [] => Some p
  | e :: t => p ← step e p; accepts p t
  end.

Definition keeps {A} (p : M) (m : RM A) (Q : A → M → Prop) : Prop :=
  ∀ s, accepts initial (trace s) = Some p →
    ∃ p', accepts initial (trace (m s).2) = Some p' ∧ Q (m s).1 p'.


Lemma accepts_app p t u : accepts p (t ++ u) = (p ← accepts p t; accepts p u).
Proof. revert p. induction t as [|e t IH]; intros p; [done|]. cbn. destruct (step e p); [apply IH|done]. Qed.

Lemma keeps_bind {A B} p (m : RM A) (f : A → RM B) R Q :
  keeps p m R → (∀ a p', R a p' → keeps p' (f a) Q) → keeps p (m ≫= f) Q.
Proof.
  intros Hm Hf s Hs. destruct (Hm s Hs) as (p' & Hp' & HR). unfold mbind, RM_bind.
  destruct (m s) as [a s']. by apply (Hf a p' HR s').
Qed.
Lemma keeps_ret {A} p (a : A) (Q : A → M → Prop) : Q a p → keeps p (mret a) Q.
Proof. intros HQ s Hs. by exists p. Qed.
Lemma keeps_assoc {A B C} p (m : RM A) (f : A → RM B) (g : B → RM C) Q :
  keeps p (m ≫= λ a, f a ≫= g) Q → keeps p ((m ≫= f) ≫= g) Q.
Proof. intros Hm s Hs. specialize (Hm s Hs). revert Hm. unfold mbind, RM_bind. by destruct (m s), (f a r). Qed.
Lemma keeps_then_ret {A B} p (a : A) (f : A → RM B) Q : keeps p (f a) Q → keeps p (mret a ≫= f) Q.
Proof. intros Hf. exact Hf. Qed.
Lemma keeps_ask {A B} p (g : nat → A) (f : A → RM B) Q : (∀ a, keeps p (f a) Q) → keeps p (ask g ≫= f) Q.
Proof. intros Hf. eapply (keeps_bind p _ _ (λ _ p', p' = p)); [intros s Hs; by exists p|]. by intros a _ ->. Qed.
Lemma keeps_ctxErr {B} X p (f : bool → RM B) Q : (∀ b, keeps p (f b) Q) → keeps p (ctxErr X ≫= f) Q.
Proof. intros Hf. eapply (keeps_bind p _ _ (λ _ p', p' = p)); [intros s Hs; by exists p|]. by intros a _ ->. Qed.
Lemma keeps_cancel {B} p (f : () → RM B) Q : keeps p (f ()) Q → keeps p (cancel ≫= f) Q.
Proof. intros Hf. eapply (keeps_bind p _ _ (λ _ p', p' = p)); [intros s Hs; by exists p|]. by intros [] _ ->. Qed.
Lemma keeps_emit {B} p e p' (f : () → RM B) Q :
  step e p = Some p' → keeps p' (f ()) Q → keeps p (emit e ≫= f) Q.
Proof.
  intros He Hf. eapply (keeps_bind p _ _ (λ _ q, q = p')); [|by intros [] _ ->].
  intros s Hs. exists p'. split; [|done]. cbn [emit trace snd]. rewrite accepts_app, Hs. cbn. by rewrite He.
Qed.

End monitors.

(** Evaluate the protocol on one event. *)
Ltac allowed :=
  cbn; rewrite ?Z.eqb_refl, ?bool_decide_eq_true_2 by done; cbn; reflexivity.
Ltac keep :=
  cbv zeta beta iota;
  lazymatch goal with
  | |- keeps _ _ _ ((_ ≫= _) ≫= _) _ => apply keeps_assoc
  | |- keeps _ _ _ (mret _ ≫= _) _ => apply keeps_then_ret
  | |- keeps _ _ _ (ask (x_error _) ≫= _) _ => apply keeps_ask; intros [?|]
  | |- keeps _ _ _ (ask _ ≫= _) _ => apply keeps_ask; intros ?
  | |- keeps _ _ _ (now _ ≫= _) _ => apply keeps_ask; intros ?
  | |- keeps _ _ _ (ctxErr _ ≫= _) _ => apply keeps_ctxErr; intros ?
  | |- keeps _ _ _ (cancel ≫= _) _ => apply keeps_cancel
  | |- keeps _ _ _ (emit _ ≫= _) _ => eapply keeps_emit; [allowed|]
  | |- keeps _ _ _ (mret _) _ => apply keeps_ret
  | |- keeps _ _ _ (if ?b then _ else _) _ => destruct b eqn:?
  | |- keeps _ _ _ (match ?x with _ => _ end) _ => destruct x eqn:?; try discriminate
  | |- keeps _ _ _ ((if ?b then _ else _) ≫= _) _ => destruct b eqn:?
  | |- keeps _ _ _ ((match ?x with _ => _ end) ≫= _) _ => destruct x eqn:?; try discriminate
  end.

Section attempts.
Context (X : environment) (S : Supervisor).
Local Abbreviation kept := (keeps (allow (Notifier S)) begin).

(** However it goes, the child is released. *)
Lemma terminateAndReap_kept {B} n (f : option failure → RM B) l a p g c t channel Q :
  (∀ e, keeps (allow n) begin (mkProtocol l None false false false) (f e) Q) →
  keeps (allow n) begin (mkProtocol l (Some (a, p)) g c t) (terminateAndReap X p channel ≫= f) Q.
Proof. intros Hf. unfold terminateAndReap, poll. destruct channel; repeat keep; apply Hf. Qed.

(** The state an attempt leaves allows what the loop observes next. *)
Definition ends_in (r : readyAttemptResult) (l : option State) : bool :=
  if stopped r then follows l StateStopped else follows l StateFailed && follows l StateBackoff.

Lemma runReadyAttempt_kept {B} (f : readyAttemptResult → RM B) attempt l g c t Q :
  (Observer S = true → l = Some StatePreparing) →
  (∀ r l' g c t, (Observer S = true → ends_in r l' = true) → kept (mkProtocol l' None g c t) (f r) Q) →
  kept (mkProtocol l None g c t) (runReadyAttempt X S attempt ≫= f) Q.
Proof.
  intros Hl Hf. unfold runReadyAttempt, exitedEarly, gateAnswered, cancelledWaiting, serveReady, closeGate,
    awaitEnd, poll, terminalReadinessClose, transition.
  destruct (Notifier S) eqn:Hn; destruct (Observer S) eqn:Ho; [rewrite (Hl eq_refl)| |rewrite (Hl eq_refl)|];
    repeat first [keep | apply terminateAndReap_kept; intros ?]; try (apply Hf; by intros).
Qed.

(** At the head of the loop there is no child and the next state may be
    [StatePreparing]. *)
Definition between (p : protocol) : Prop :=
  child p = None ∧ (Observer S = true → follows (last p) StatePreparing = true).

Lemma readyRound_kept policy backoff attempt failures p :
  between p →
  kept p (readyRound X S policy backoff attempt failures)
    (λ r p', match r with Return _ => child p' = None | Again _ _ _ => between p' end).
Proof.
  destruct p as [l ch g c t]. intros [Hc Hl]. cbn in Hc, Hl. subst ch.
  unfold readyRound, closeGate, waitContext, transition.
  destruct (Observer S) eqn:Ho; [specialize (Hl eq_refl); destruct l as [[]|]; try discriminate|];
    repeat first [keep | apply runReadyAttempt_kept; [intros; congruence|intros res l' ??? Hr];
                         try (specialize (Hr Ho); unfold ends_in in Hr; destruct (stopped res), l' as [[]|]; try discriminate)];
    try done; (split; [done|intros; first [congruence|done]]).
Qed.

Lemma loop_kept policy rounds backoff attempt failures p :
  between p →
  kept p (loop (readyRound X S policy) rounds backoff attempt failures) (λ _ p', child p' = None).
Proof.
  revert backoff attempt failures p. induction rounds as [|rounds IH]; intros b a k p Hp; cbn [loop].
  { apply keeps_ret, Hp. }
  eapply keeps_bind; [by apply readyRound_kept|]. intros [e|b' a' k'] p' Hp'; [by apply keeps_ret|by apply IH].
Qed.

End attempts.

(** C23: the supervisor keeps its protocol: whatever the processes, the gate, the
    provider, the notifier, the clock and the context do, the trace of a run is
    accepted.  So a process is launched only when the one before was reaped (or
    outlived its kill by two seconds), [StateReady] is observed only for the
    running child whose gate succeeded and was closed and whose notification
    succeeded, the supervisor neither sleeps nor stops with a child, and the
    observed states follow their machine. *)
Theorem supervisor_protocol X S policy rounds :
  ∃ p, accepts (allow (Notifier S)) begin (trace (RunPreparedReady X S policy rounds start).2) = Some p ∧ child p = None.
Proof.
  unfold RunPreparedReady. destruct (validatePolicy policy); [by exists begin|].
  by apply (loop_kept X S policy rounds (InitialBackoff policy) 0 0 begin).
Qed.

(** ** Bounded restarts *)

Definition is_attempt (e : event) : bool :=
  match e with Launched _ _ | NotLaunched _ | Ran _ _ => true | _ => false end.
Definition is_stable (window : Duration) (e : event) : bool :=
  match e with Served _ runtime | Ran _ runtime => window <=? runtime | _ => false end.

(** How often a process was started (or failed to start), and how often it
    served for at least the stable window. *)
Definition attempts (t : list event) : Z := Z.of_nat (length (List.filter is_attempt t)).
Definition stableRuns (window : Duration) (t : list event) : Z := Z.of_nat (length (List.filter (is_stable window) t)).

Definition tally (window : Duration) (e : event) (p : Z * Z) : option (Z * Z) :=
  Some (if is_attempt e then p.1 + 1 else p.1, if is_stable window e then p.2 + 1 else p.2).

Lemma accepts_tally window t : ∀ p,
  accepts (tally window) p t = Some (p.1 + attempts t, p.2 + stableRuns window t).
Proof.
  induction t as [|e t IH]; intros [a b].
  { cbn. f_equal. unfold attempts, stableRuns. cbn. f_equal; lia. }
  cbn [accepts tally mbind option_bind]. rewrite IH. unfold attempts, stableRuns. cbn [List.filter].
  destruct (is_attempt e), (is_stable window e); cbn [length fst snd]; do 2 f_equal; lia.
Qed.

Section restarts.
Context (X : environment) (S : Supervisor) (policy : Policy).
Hypothesis Hvalid : validatePolicy policy = None.
Let window := orDefault (StableWindow policy) defaultStableWindow.
Let maximum := orDefault (MaximumAttempts policy) defaultMaximumAttempts.
Local Abbreviation tallied := (keeps (tally window) (0, 0)).

Lemma policy_bounds : 0 < window ∧ 0 < maximum ∧ 0 < InitialBackoff policy ≤ MaximumBackoff policy.
Proof using Hvalid.
  revert Hvalid. unfold validatePolicy, window, maximum, orDefault, defaultStableWindow, defaultMaximumAttempts, Minute,
    Second. repeat case_match; try done; lia.
Qed.

(** The tally of a round that returns, and of one that goes on. *)
Definition round_tally (k a b : Z) (r : round) (p : Z * Z) : Prop :=
  match r with
  | Return _ => a ≤ p.1 ≤ a + 1 ∧ b ≤ p.2
  | Again _ _ k' => p.1 = a + 1 ∧ (p.2 = b ∧ k' = k + 1 ∨ p.2 = b + 1 ∧ k' = 1) ∧ k' < maximum
  end.

Lemma terminateAndReap_tally {B} (f : option failure → RM B) pid channel p Q :
  (∀ e, tallied p (f e) Q) → tallied p (terminateAndReap X pid channel ≫= f) Q.
Proof using. intros Hf. destruct p. unfold terminateAndReap, poll. destruct channel; repeat keep; apply Hf. Qed.

Lemma runReadyAttempt_tally {B} (f : readyAttemptResult → RM B) attempt a b Q :
  (∀ r, tallied (a + 1, if window <=? readyRuntime r then b + 1 else b) (f r) Q) →
  tallied (a, b) (runReadyAttempt X S attempt ≫= f) Q.
Proof using Hvalid.
  intros Hf. pose proof policy_bounds as (Hw & _).
  assert (∀ r, readyRuntime r = 0 → tallied (a + 1, b) (f r) Q) as Hf0.
  { intros r Hr. specialize (Hf r). rewrite Hr in Hf. by destruct (Z.leb_spec window 0); [lia|]. }
  unfold runReadyAttempt, exitedEarly, gateAnswered, cancelledWaiting, serveReady, closeGate,
    awaitEnd, poll, terminalReadinessClose, transition.
  repeat first [keep | apply terminateAndReap_tally; intros ?]; first [by apply Hf0|apply (Hf (mkResult _ _ _ _ _))].
Qed.

Lemma readyRound_tally backoff attempt k a b :
  tallied (a, b) (readyRound X S policy backoff attempt k) (round_tally k a b).
Proof using Hvalid.
  unfold readyRound, closeGate, waitContext, transition. fold window maximum.
  destruct (Observer S);
    repeat first [keep | apply runReadyAttempt_tally; intros res; destruct (Z.leb_spec window (readyRuntime res))];
    cbn; lia.
Qed.

Lemma preparedRound_tally backoff attempt k a b :
  tallied (a, b) (preparedRound X policy backoff attempt k) (round_tally k a b).
Proof using Hvalid.
  unfold preparedRound, waitContext. fold window maximum.
  repeat keep; cbn; repeat case_match; lia.
Qed.

Lemma loop_tally body rounds : ∀ backoff attempt k a b,
  (∀ backoff attempt k a b, tallied (a, b) (body backoff attempt k) (round_tally k a b)) →
  0 ≤ k < maximum → 0 ≤ b → a ≤ b * maximum + k →
  tallied (a, b) (loop body rounds backoff attempt k)
    (λ r p, p.1 ≤ maximum * (1 + p.2) ∧ (r = None → a + Z.of_nat rounds < maximum * (1 + p.2))).
Proof using Hvalid.
  pose proof policy_bounds as (_ & Hm & _).
  induction rounds as [|rounds IH]; intros backoff attempt k a b Hbody Hk Hb Ha; cbn [loop].
  { apply keeps_ret. cbn. split; [nia|intros _; nia]. }
  eapply keeps_bind; [apply Hbody|]. intros [e|backoff' attempt' k'] [a' b'] Hr; cbn in Hr.
  { apply keeps_ret. cbn. split; [nia|done]. }
  destruct Hr as (-> & Hr & Hk'). intros s Hs.
  destruct (IH backoff' attempt' k' (a + 1) b' Hbody) with s as (p & Hp & Hp1 & Hp2); [lia|lia|nia|done|].
  exists p. split; [done|]. split; [done|]. intros Hnone. specialize (Hp2 Hnone). lia.
Qed.

End restarts.

Lemma tally_of {A} window (m : RM A) (Q : A → Z * Z → Prop) :
  keeps (tally window) (0, 0) (0, 0) m Q →
  Q (m start).1 (attempts (trace (m start).2), stableRuns window (trace (m start).2)).
Proof.
  intros Hm. destruct (Hm start eq_refl) as (p & Hp & HQ). rewrite accepts_tally in Hp.
  injection Hp as <-. exact HQ.
Qed.

(** Restarts are bounded.  With [n] runs of at least the stable window, a
    process is started at most [MaximumAttempts * (1 + n)] times, and the loop
    has returned after as many rounds: without a stable run, after
    [MaximumAttempts] rounds.  The same holds of the loop with a readiness
    gate and of the one without. *)
Theorem restarts_bounded X S policy rounds :
  validatePolicy policy = None →
  let window := orDefault (StableWindow policy) defaultStableWindow in
  let maximum := orDefault (MaximumAttempts policy) defaultMaximumAttempts in
  ∀ loop, loop ∈ [RunPreparedReady X S policy rounds; RunPrepared X policy rounds] →
  let '(r, s) := loop start in
  let bound := maximum * (1 + stableRuns window (trace s)) in
  attempts (trace s) ≤ bound ∧ (bound ≤ Z.of_nat rounds → is_Some r).
Proof.
  intros Hv window maximum.
  assert (∀ body, (∀ backoff attempt k a b,
      keeps (tally window) (0, 0) (a, b) (body backoff attempt k) (round_tally policy k a b)) →
    let '(r, s) := Supervisor.loop body rounds (InitialBackoff policy) 0 0 start in
    let bound := maximum * (1 + stableRuns window (trace s)) in
    attempts (trace s) ≤ bound ∧ (bound ≤ Z.of_nat rounds → is_Some r)) as Hloop.
  { intros body Hbody. pose proof (policy_bounds policy Hv) as (_ & Hm & _). fold maximum in Hm.
    pose proof (tally_of window _ _ (loop_tally policy Hv body rounds (InitialBackoff policy) 0 0 0 0 Hbody
      ltac:(fold maximum; lia) ltac:(lia) ltac:(lia))) as [H1 H2].
    fold maximum in H1, H2. destruct (Supervisor.loop _ _ _ _ _ _) as [r s]. cbn in *. split; [done|].
    intros Hb. destruct r; [eauto|]. specialize (H2 eq_refl). lia. }
  unfold RunPreparedReady, RunPrepared. rewrite Hv.
  intros ? [-> |[-> |[]%elem_of_nil]%elem_of_cons]%elem_of_cons; apply Hloop; intros;
    [by apply readyRound_tally|by apply preparedRound_tally].
Qed.

(** ** The delay before a restart *)

(** The delay after [k] consecutive failures. *)
Definition delayAfter (policy : Policy) (k : Z) : Duration :=
  Z.min (MaximumBackoff policy) (InitialBackoff policy * 2 ^ k).

(** The loop with the delay computed from the number of failures instead of
    carried along. *)
Definition loopByFailures (policy : Policy) (body : Duration → Z → Z → RM round) (rounds : nat)
    : RM (option (option failure)) :=
  loop (λ _ attempt k, body (delayAfter policy k) attempt k) rounds 0 0 0.

Section delays.
Context (X : environment) (S : Supervisor) (policy : Policy).
Hypothesis Hvalid : validatePolicy policy = None.
Hypothesis Hmax : MaximumBackoff policy < 2 ^ 63.

Lemma nextBackoff_delay k : 0 ≤ k → nextBackoff (delayAfter policy k) (MaximumBackoff policy) = delayAfter policy (k + 1).
Proof using Hvalid Hmax.
  intros Hk. pose proof (policy_bounds policy Hvalid) as (_ & _ & Hi). unfold nextBackoff, delayAfter, wrapInt64.
  rewrite Z.pow_add_r, Z.pow_1_r by lia. rewrite Z.quot_div_nonneg by lia.
  set (i := InitialBackoff policy) in *. set (m := MaximumBackoff policy) in *.
  assert (0 < 2 ^ k) as Hp by (apply Z.pow_pos_nonneg; lia).
  assert (0 < i * 2 ^ k) as Hq by nia. replace (i * (2 ^ k * 2)) with (2 * (i * 2 ^ k)) by ring.
  set (q := i * 2 ^ k) in *.
  destruct (Z.leb_spec m (Z.min m q)); cbn [orb]; [lia|].
  pose proof (Z.div_mod m 2 ltac:(lia)). pose proof (Z.mod_pos_bound m 2 ltac:(lia)).
  destruct (Z.ltb_spec (m / 2) (Z.min m q)); [lia|].
  rewrite Z.mod_small; lia.
Qed.

(** A round that goes on does so with the delay of its number of failures. *)
Definition on_schedule (r : round) : Prop :=
  match r with Return _ => True | Again b _ k => 0 ≤ k ∧ b = delayAfter policy k end.

Local Abbreviation yields := (keeps (λ _ p, Some p) () ()).

Lemma delayAfter_0 : delayAfter policy 0 = InitialBackoff policy.
Proof using Hvalid. pose proof (policy_bounds policy Hvalid). unfold delayAfter. rewrite Z.pow_0_r. lia. Qed.

Lemma schedule_step (stable : bool) k :
  0 ≤ k →
  0 ≤ (if stable then 0 else k) + 1 ∧
  nextBackoff (if stable then InitialBackoff policy else delayAfter policy k) (MaximumBackoff policy)
    = delayAfter policy ((if stable then 0 else k) + 1).
Proof using Hvalid Hmax.
  intros Hk. destruct stable; (split; [lia|]); [rewrite <- delayAfter_0|]; by apply nextBackoff_delay.
Qed.

Lemma runReadyAttempt_yields {B} (f : readyAttemptResult → RM B) attempt Q :
  (∀ r, yields (f r) Q) → yields (runReadyAttempt X S attempt ≫= f) Q.
Proof using.
  intros Hf. apply (keeps_bind _ _ _ _ _ (λ _ _, True)); [|intros r [] _; apply Hf].
  intros s _. exists (). split; [|done]. generalize (trace (runReadyAttempt X S attempt s).2).
  by induction l.
Qed.

Lemma readyRound_schedule attempt k :
  0 ≤ k → yields (readyRound X S policy (delayAfter policy k) attempt k) (λ r _, on_schedule r).
Proof using Hvalid Hmax.
  intros Hk. unfold readyRound, closeGate, waitContext, transition.
  destruct (Observer S); repeat first [keep | apply runReadyAttempt_yields; intros res];
    cbn [on_schedule]; first [done|by apply schedule_step].
Qed.

Lemma preparedRound_schedule attempt k :
  0 ≤ k → yields (preparedRound X policy (delayAfter policy k) attempt k) (λ r _, on_schedule r).
Proof using Hvalid Hmax.
  intros Hk. unfold preparedRound, waitContext. repeat keep; cbn [on_schedule]; first [done|by apply schedule_step].
Qed.

Lemma loop_schedule body rounds :
  (∀ attempt k, 0 ≤ k → yields (body (delayAfter policy k) attempt k) (λ r _, on_schedule r)) →
  ∀ attempt k b s, 0 ≤ k →
  loop body rounds (delayAfter policy k) attempt k s
    = loop (λ _ attempt k, body (delayAfter policy k) attempt k) rounds b attempt k s.
Proof using.
  intros Hbody. induction rounds as [|rounds IH]; intros attempt k b s Hk; [done|]. cbn [loop].
  unfold mbind, RM_bind. destruct (Hbody attempt k Hk s) as (_ & _ & Hr).
  { generalize (trace s). by induction l. }
  destruct (body _ _ _ _) as [[e|b' a' k'] s']; [done|]. cbn in Hr. destruct Hr as [Hk' ->]. by apply IH.
Qed.

End delays.

(** The delay before a restart is [min(maximum, initial * 2^k)] after [k]
    consecutive failures: carrying the delay along, doubling and resetting it,
    behaves exactly as computing it from the number of failures, and the
    doubling of a 64-bit duration never overflows. *)
Theorem backoff_exponential X S policy rounds s :
  validatePolicy policy = None → MaximumBackoff policy < 2 ^ 63 →
  RunPreparedReady X S policy rounds s = loopByFailures policy (readyRound X S policy) rounds s ∧
  RunPrepared X policy rounds s = loopByFailures policy (preparedRound X policy) rounds s.
Proof.
  intros Hv Hm. unfold RunPreparedReady, RunPrepared, loopByFailures. rewrite Hv, <- (delayAfter_0 policy Hv).
  split; apply loop_schedule; try done; intros; [by apply readyRound_schedule|by apply preparedRound_schedule].
Qed.

(** ** Concrete runs *)

Definition samplePolicy : Policy := mkPolicy true Second (8 * Second) 0 0 3.
Definition sampleSupervisor : Supervisor := mkSupervisor true true.
Definition sampleCommand : Command := mkCommand "/usr/lib/warptweet/ssh" ["-N"] [].

(** The gate succeeds, the child serves and exits at once, every time. *)
Definition sampleEnvironment : environment :=
  mkEnvironment (λ _, false) (λ _, inr sampleCommand) (λ _, inr (mkReadyCommand sampleCommand true)) (λ _, inr 42)
    (λ _, RaceReady None) (λ _, Some None) (λ _, None) (λ _, None) (λ n, Z.of_nat n * Second).

Example three_attempts :
  let '(r, s) := RunPreparedReady sampleEnvironment sampleSupervisor samplePolicy 3 start in
  is_Some r ∧ attempts (trace s) = 3 ∧
  List.filter (λ e, match e with Slept _ => true | _ => false end) (trace s) = [Slept Second; Slept (2 * Second)].
Proof. vm_compute. eauto. Qed.

(** A child that ignores its signals: the gate fails, the child is not gone two
    seconds after the kill, and another one is launched beside it. *)
Definition stuckEnvironment : environment :=
  mkEnvironment (λ _, false) (λ _, inr sampleCommand) (λ _, inr (mkReadyCommand sampleCommand true)) (λ _, inr 42)
    (λ _, RaceReady (Some (Text "deadline exceeded"))) (λ _, None) (λ _, None) (λ _, None) (λ _, 0).

Example launched_beside_stuck_child :
  List.filter (λ e, match e with Launched _ _ | Abandoned _ | Reaped _ => true | _ => false end)
    (trace (RunPreparedReady stuckEnvironment sampleSupervisor samplePolicy 2 start).2)
  = [Launched 1 42; Abandoned 42; Launched 2 42; Abandoned 42].
Proof. vm_compute. reflexivity. Qed.

Lemma restarts_bounded_witness :
  attempts (trace (RunPreparedReady sampleEnvironment sampleSupervisor samplePolicy 3 start).2) ≤ 3 ∧
  is_Some (RunPreparedReady sampleEnvironment sampleSupervisor samplePolicy 3 start).1.
Proof.
  pose proof (restarts_bounded sampleEnvironment sampleSupervisor samplePolicy 3 eq_refl _
    (list_elem_of_here _ _)) as Hb.
  revert Hb. vm_compute. intros [H1 H2]. split; [exact H1|]. by apply H2.
Defined.

Lemma backoff_exponential_witness :
  RunPreparedReady sampleEnvironment sampleSupervisor samplePolicy 3 start
    = loopByFailures samplePolicy (readyRound sampleEnvironment sampleSupervisor samplePolicy) 3 start.
Proof. apply (backoff_exponential sampleEnvironment sampleSupervisor samplePolicy 3 start); [reflexivity|vm_compute; reflexivity]. Defined.
