(* ===== verification/Routes.v ===== *)
(** * internal/routestate: the routes of a client

    [route.go], [generation.go] and [transaction.go]: the durable desired state
    of every enrolled route, its receipt, the active generation, the claim of a
    listen port and the state of a connect.  A route is a directory under the
    store's root; all claims of ports are made under one lock.

    The flat file system of Host.v holds a directory without files as an empty
    file whose path ends in a slash, so that [os.Mkdir], on which the
    exclusiveness of a route rests, is seen by [os.ReadDir] and [os.Lstat]. *)

From stdpp Require Import sorting.
From S2P Require Import Prelude GoStd Json StrictJson Time Host Locator Grant SshWire Crypto Packet Kex ClientStore.
From S2P Require Import Clients Invite.
Import Time Json Locator.

(** ** Directories *)

Definition dirMark (dir : string) : string := (dir ++ "/")%string.
Definition ENOTDIR : error := EMsg "not a directory".
Definition isFile (path : string) (fs : gmap string bytes) : bool := bool_decide (is_Some (fs !! path)).
(** The names in a directory, sorted. *)
Definition entryNames (dir : string) (fs : gmap string bytes) : list string :=
  merge_sort stringLe (dirNames dir fs ++ listing dir fs).

Section directories.
Context (H : hostEnv).

Definition Mkdir (dir : string) : HM () :=
  sys H;; fs ← get_files;
  if isFile dir fs || occupied dir fs then hfail (EOS EEXIST) else set_files (<[dirMark dir := []]>).

Definition MkdirAll (dir : string) : HM () :=
  sys H;; fs ← get_files;
  if isFile dir fs then hfail ENOTDIR
  else if occupied dir fs then mret () else set_files (<[dirMark dir := []]>).

(** [os.ReadFile] of a file in [dir]. *)
Definition ReadIn (dir path : string) : HM bytes :=
  fs ← get_files; if isFile dir fs then sys H;; hfail ENOTDIR else ReadFile H path.

(** [os.RemoveAll]: a failure leaves some of the files. *)
Definition RemoveTree (dir : string) : HM () :=
  n ← call;
  let inside (p : string) : bool := bool_decide (p = dir) || inDir dir p in
  match h_fault H n with
  | Some e =>
      set_files (λ fs, foldr (delete (M := gmap string bytes)) fs
        (take (h_partial H n) (filter (λ p, inside p = true) (map_to_list fs).*1)));; hfail e
  | None => set_files (filter (λ x : string * bytes, inside x.1 = false))
  end.

(** [os.ReadDir]: the names, and which of them are directories. *)
Definition ReadEntries (dir : string) : HM (list (string * bool)) :=
  sys H;; fs ← get_files;
  mret ((λ n, (n, bool_decide (n ∈ dirNames dir fs))) <$> entryNames dir fs).

End directories.

Module Routes.

Definition KindDesiredState : string := "warptweet.route-desired-state".
Definition KindTransaction : string := "warptweet.route-transaction".
Definition KindActive : string := "warptweet.route-active-generation".
Definition KindReservation : string := "warptweet.route-reservation".
Definition CurrentSchemaVersion : Z := 1.
Definition DesiredRunning : string := "running".
Definition DesiredStopped : string := "stopped".
Definition RestartUnlessStopped : string := "unless-stopped".
Definition RestartManual : string := "manual".
Definition maxRouteDocumentBytes : Z := Z.shiftl 16 10.
Definition DefaultListenPort : Z := 15432.
Definition ErrInvalidRoute : string := "invalid WarpTweet route".

Definition PhaseReserved : string := "reserved".
Definition PhaseStaged : string := "staged".
Definition PhaseEnrolled : string := "enrolled".
Definition PhaseActivating : string := "activating".
Definition PhaseConnected : string := "connected".
Definition PhaseEnrolledNotReady : string := "enrolled_not_ready".
Definition PhaseFailed : string := "failed".

Definition bad {A} (text : string) : result A := Err (wrapErr ErrInvalidRoute text).
Definition eqs (a b : string) : bool := bool_decide (a = b).

(** ** Documents *)

(** Desired state of a route. *)
Record Intent := mkIntent {
  i_Kind : string;
  i_SchemaVersion : Z;
  i_RouteID : string;
  DesiredState : string;
  RestartPolicy : string;
  BootID : string;
  i_UpdatedAt : string;
}.
Definition zeroIntent : Intent := mkIntent "" 0 "" "" "" "" "".
Definition set_i_Kind (v : string) (r : Intent) : Intent :=
  mkIntent v (i_SchemaVersion r) (i_RouteID r) (DesiredState r) (RestartPolicy r) (BootID r) (i_UpdatedAt r).
Definition set_i_SchemaVersion (v : Z) (r : Intent) : Intent :=
  mkIntent (i_Kind r) v (i_RouteID r) (DesiredState r) (RestartPolicy r) (BootID r) (i_UpdatedAt r).
Definition set_i_RouteID (v : string) (r : Intent) : Intent :=
  mkIntent (i_Kind r) (i_SchemaVersion r) v (DesiredState r) (RestartPolicy r) (BootID r) (i_UpdatedAt r).
Definition set_DesiredState (v : string) (r : Intent) : Intent :=
  mkIntent (i_Kind r) (i_SchemaVersion r) (i_RouteID r) v (RestartPolicy r) (BootID r) (i_UpdatedAt r).
Definition set_RestartPolicy (v : string) (r : Intent) : Intent :=
  mkIntent (i_Kind r) (i_SchemaVersion r) (i_RouteID r) (DesiredState r) v (BootID r) (i_UpdatedAt r).
Definition set_BootID (v : string) (r : Intent) : Intent :=
  mkIntent (i_Kind r) (i_SchemaVersion r) (i_RouteID r) (DesiredState r) (RestartPolicy r) v (i_UpdatedAt r).
Definition set_i_UpdatedAt (v : string) (r : Intent) : Intent :=
  mkIntent (i_Kind r) (i_SchemaVersion r) (i_RouteID r) (DesiredState r) (RestartPolicy r) (BootID r) v.

(** The host's acknowledgement of an enrollment. *)
Record Receipt := mkReceipt {
  r_InviteID : string;
  r_ClientID : string;
  r_GrantID : string;
  r_RouteID : string;
  r_AcceptedAt : string;
  r_AuthorizationNotAfter : string;
  r_AuthorizationDurationSeconds : Z;
  r_Generation : string;
  r_ManagementToken : string;
  r_Published : PublishedEndpointSet;
  r_PublicKey : string;
  r_HostPublicKey : string;
  r_EnrollmentTLSSPKISHA256 : string;
  r_Target : string;
  r_ListenEndpoint : string;
  r_Principal : string;
  r_ProfileID : string;
  r_RevokedAt : string;
}.
Definition zeroReceipt : Receipt := mkReceipt "" "" "" "" "" "" 0 "" "" ClientStore.zeroPublished "" "" "" "" "" "" "" "".
Definition set_r_InviteID (v : string) (r : Receipt) : Receipt :=
  mkReceipt v (r_ClientID r) (r_GrantID r) (r_RouteID r) (r_AcceptedAt r) (r_AuthorizationNotAfter r)
    (r_AuthorizationDurationSeconds r) (r_Generation r) (r_ManagementToken r) (r_Published r) (r_PublicKey r)
    (r_HostPublicKey r) (r_EnrollmentTLSSPKISHA256 r) (r_Target r) (r_ListenEndpoint r) (r_Principal r)
    (r_ProfileID r) (r_RevokedAt r).
Definition set_r_ClientID (v : string) (r : Receipt) : Receipt :=
  mkReceipt (r_InviteID r) v (r_GrantID r) (r_RouteID r) (r_AcceptedAt r) (r_AuthorizationNotAfter r)
    (r_AuthorizationDurationSeconds r) (r_Generation r) (r_ManagementToken r) (r_Published r) (r_PublicKey r)
    (r_HostPublicKey r) (r_EnrollmentTLSSPKISHA256 r) (r_Target r) (r_ListenEndpoint r) (r_Principal r)
    (r_ProfileID r) (r_RevokedAt r).
Definition set_r_GrantID (v : string) (r : Receipt) : Receipt :=
  mkReceipt (r_InviteID r) (r_ClientID r) v (r_RouteID r) (r_AcceptedAt r) (r_AuthorizationNotAfter r)
    (r_AuthorizationDurationSeconds r) (r_Generation r) (r_ManagementToken r) (r_Published r) (r_PublicKey r)
    (r_HostPublicKey r) (r_EnrollmentTLSSPKISHA256 r) (r_Target r) (r_ListenEndpoint r) (r_Principal r)
    (r_ProfileID r) (r_RevokedAt r).
Definition set_r_RouteID (v : string) (r : Receipt) : Receipt :=
  mkReceipt (r_InviteID r) (r_ClientID r) (r_GrantID r) v (r_AcceptedAt r) (r_AuthorizationNotAfter r)
    (r_AuthorizationDurationSeconds r) (r_Generation r) (r_ManagementToken r) (r_Published r) (r_PublicKey r)
    (r_HostPublicKey r) (r_EnrollmentTLSSPKISHA256 r) (r_Target r) (r_ListenEndpoint r) (r_Principal r)
    (r_ProfileID r) (r_RevokedAt r).
Definition set_r_AcceptedAt (v : string) (r : Receipt) : Receipt :=
  mkReceipt (r_InviteID r) (r_ClientID r) (r_GrantID r) (r_RouteID r) v (r_AuthorizationNotAfter r)
    (r_AuthorizationDurationSeconds r) (r_Generation r) (r_ManagementToken r) (r_Published r) (r_PublicKey r)
    (r_HostPublicKey r) (r_EnrollmentTLSSPKISHA256 r) (r_Target r) (r_ListenEndpoint r) (r_Principal r)
    (r_ProfileID r) (r_RevokedAt r).
Definition set_r_AuthorizationNotAfter (v : string) (r : Receipt) : Receipt :=
  mkReceipt (r_InviteID r) (r_ClientID r) (r_GrantID r) (r_RouteID r) (r_AcceptedAt r) v
    (r_AuthorizationDurationSeconds r) (r_Generation r) (r_ManagementToken r) (r_Published r) (r_PublicKey r)
    (r_HostPublicKey r) (r_EnrollmentTLSSPKISHA256 r) (r_Target r) (r_ListenEndpoint r) (r_Principal r)
    (r_ProfileID r) (r_RevokedAt r).
Definition set_r_AuthorizationDurationSeconds (v : Z) (r : Receipt) : Receipt :=
  mkReceipt (r_InviteID r) (r_ClientID r) (r_GrantID r) (r_RouteID r) (r_AcceptedAt r)
    (r_AuthorizationNotAfter r) v (r_Generation r) (r_ManagementToken r) (r_Published r) (r_PublicKey r)
    (r_HostPublicKey r) (r_EnrollmentTLSSPKISHA256 r) (r_Target r) (r_ListenEndpoint r) (r_Principal r)
    (r_ProfileID r) (r_RevokedAt r).
Definition set_r_Generation (v : string) (r : Receipt) : Receipt :=
  mkReceipt (r_InviteID r) (r_ClientID r) (r_GrantID r) (r_RouteID r) (r_AcceptedAt r)
    (r_AuthorizationNotAfter r) (r_AuthorizationDurationSeconds r) v (r_ManagementToken r) (r_Published r)
    (r_PublicKey r) (r_HostPublicKey r) (r_EnrollmentTLSSPKISHA256 r) (r_Target r) (r_ListenEndpoint r)
    (r_Principal r) (r_ProfileID r) (r_RevokedAt r).
Definition set_r_ManagementToken (v : string) (r : Receipt) : Receipt :=
  mkReceipt (r_InviteID r) (r_ClientID r) (r_GrantID r) (r_RouteID r) (r_AcceptedAt r)
    (r_AuthorizationNotAfter r) (r_AuthorizationDurationSeconds r) (r_Generation r) v (r_Published r)
    (r_PublicKey r) (r_HostPublicKey r) (r_EnrollmentTLSSPKISHA256 r) (r_Target r) (r_ListenEndpoint r)
    (r_Principal r) (r_ProfileID r) (r_RevokedAt r).
Definition set_r_Published (v : PublishedEndpointSet) (r : Receipt) : Receipt :=
  mkReceipt (r_InviteID r) (r_ClientID r) (r_GrantID r) (r_RouteID r) (r_AcceptedAt r)
    (r_AuthorizationNotAfter r) (r_AuthorizationDurationSeconds r) (r_Generation r) (r_ManagementToken r) v
    (r_PublicKey r) (r_HostPublicKey r) (r_EnrollmentTLSSPKISHA256 r) (r_Target r) (r_ListenEndpoint r)
    (r_Principal r) (r_ProfileID r) (r_RevokedAt r).
Definition set_r_PublicKey (v : string) (r : Receipt) : Receipt :=
  mkReceipt (r_InviteID r) (r_ClientID r) (r_GrantID r) (r_RouteID r) (r_AcceptedAt r)
    (r_AuthorizationNotAfter r) (r_AuthorizationDurationSeconds r) (r_Generation r) (r_ManagementToken r)
    (r_Published r) v (r_HostPublicKey r) (r_EnrollmentTLSSPKISHA256 r) (r_Target r) (r_ListenEndpoint r)
    (r_Principal r) (r_ProfileID r) (r_RevokedAt r).
Definition set_r_HostPublicKey (v : string) (r : Receipt) : Receipt :=
  mkReceipt (r_InviteID r) (r_ClientID r) (r_GrantID r) (r_RouteID r) (r_AcceptedAt r)
    (r_AuthorizationNotAfter r) (r_AuthorizationDurationSeconds r) (r_Generation r) (r_ManagementToken r)
    (r_Published r) (r_PublicKey r) v (r_EnrollmentTLSSPKISHA256 r) (r_Target r) (r_ListenEndpoint r)
    (r_Principal r) (r_ProfileID r) (r_RevokedAt r).
Definition set_r_EnrollmentTLSSPKISHA256 (v : string) (r : Receipt) : Receipt :=
  mkReceipt (r_InviteID r) (r_ClientID r) (r_GrantID r) (r_RouteID r) (r_AcceptedAt r)
    (r_AuthorizationNotAfter r) (r_AuthorizationDurationSeconds r) (r_Generation r) (r_ManagementToken r)
    (r_Published r) (r_PublicKey r) (r_HostPublicKey r) v (r_Target r) (r_ListenEndpoint r) (r_Principal r)
    (r_ProfileID r) (r_RevokedAt r).
Definition set_r_Target (v : string) (r : Receipt) : Receipt :=
  mkReceipt (r_InviteID r) (r_ClientID r) (r_GrantID r) (r_RouteID r) (r_AcceptedAt r)
    (r_AuthorizationNotAfter r) (r_AuthorizationDurationSeconds r) (r_Generation r) (r_ManagementToken r)
    (r_Published r) (r_PublicKey r) (r_HostPublicKey r) (r_EnrollmentTLSSPKISHA256 r) v (r_ListenEndpoint r)
    (r_Principal r) (r_ProfileID r) (r_RevokedAt r).
Definition set_r_ListenEndpoint (v : string) (r : Receipt) : Receipt :=
  mkReceipt (r_InviteID r) (r_ClientID r) (r_GrantID r) (r_RouteID r) (r_AcceptedAt r)
    (r_AuthorizationNotAfter r) (r_AuthorizationDurationSeconds r) (r_Generation r) (r_ManagementToken r)
    (r_Published r) (r_PublicKey r) (r_HostPublicKey r) (r_EnrollmentTLSSPKISHA256 r) (r_Target r) v
    (r_Principal r) (r_ProfileID r) (r_RevokedAt r).
Definition set_r_Principal (v : string) (r : Receipt) : Receipt :=
  mkReceipt (r_InviteID r) (r_ClientID r) (r_GrantID r) (r_RouteID r) (r_AcceptedAt r)
    (r_AuthorizationNotAfter r) (r_AuthorizationDurationSeconds r) (r_Generation r) (r_ManagementToken r)
    (r_Published r) (r_PublicKey r) (r_HostPublicKey r) (r_EnrollmentTLSSPKISHA256 r) (r_Target r)
    (r_ListenEndpoint r) v (r_ProfileID r) (r_RevokedAt r).
Definition set_r_ProfileID (v : string) (r : Receipt) : Receipt :=
  mkReceipt (r_InviteID r) (r_ClientID r) (r_GrantID r) (r_RouteID r) (r_AcceptedAt r)
    (r_AuthorizationNotAfter r) (r_AuthorizationDurationSeconds r) (r_Generation r) (r_ManagementToken r)
    (r_Published r) (r_PublicKey r) (r_HostPublicKey r) (r_EnrollmentTLSSPKISHA256 r) (r_Target r)
    (r_ListenEndpoint r) (r_Principal r) v (r_RevokedAt r).
Definition set_r_RevokedAt (v : string) (r : Receipt) : Receipt :=
  mkReceipt (r_InviteID r) (r_ClientID r) (r_GrantID r) (r_RouteID r) (r_AcceptedAt r)
    (r_AuthorizationNotAfter r) (r_AuthorizationDurationSeconds r) (r_Generation r) (r_ManagementToken r)
    (r_Published r) (r_PublicKey r) (r_HostPublicKey r) (r_EnrollmentTLSSPKISHA256 r) (r_Target r)
    (r_ListenEndpoint r) (r_Principal r) (r_ProfileID r) v.

(** The generation that is selected for a route. *)
Record Active := mkActive {
  a_Kind : string;
  a_SchemaVersion : Z;
  a_RouteID : string;
  a_Generation : string;
}.
Definition zeroActive : Active := mkActive "" 0 "" "".
Definition set_a_Kind (v : string) (r : Active) : Active :=
  mkActive v (a_SchemaVersion r) (a_RouteID r) (a_Generation r).
Definition set_a_SchemaVersion (v : Z) (r : Active) : Active :=
  mkActive (a_Kind r) v (a_RouteID r) (a_Generation r).
Definition set_a_RouteID (v : string) (r : Active) : Active :=
  mkActive (a_Kind r) (a_SchemaVersion r) v (a_Generation r).
Definition set_a_Generation (v : string) (r : Active) : Active :=
  mkActive (a_Kind r) (a_SchemaVersion r) (a_RouteID r) v.

(** The claim of a listen port. *)
Record Reservation := mkReservation {
  v_Kind : string;
  v_SchemaVersion : Z;
  v_RouteID : string;
  v_ListenPort : Z;
}.
Definition zeroReservation : Reservation := mkReservation "" 0 "" 0.
Definition set_v_Kind (v : string) (r : Reservation) : Reservation :=
  mkReservation v (v_SchemaVersion r) (v_RouteID r) (v_ListenPort r).
Definition set_v_SchemaVersion (v : Z) (r : Reservation) : Reservation :=
  mkReservation (v_Kind r) v (v_RouteID r) (v_ListenPort r).
Definition set_v_RouteID (v : string) (r : Reservation) : Reservation :=
  mkReservation (v_Kind r) (v_SchemaVersion r) v (v_ListenPort r).
Definition set_v_ListenPort (v : Z) (r : Reservation) : Reservation :=
  mkReservation (v_Kind r) (v_SchemaVersion r) (v_RouteID r) v.

(** The state of a connect. *)
Record Transaction := mkTransaction {
  t_Kind : string;
  t_SchemaVersion : Z;
  t_RouteID : string;
  t_Phase : string;
  t_ListenPort : Z;
  t_Generation : string;
  t_InviteID : string;
  t_Error : string;
  t_UpdatedAt : string;
}.
Definition zeroTransaction : Transaction := mkTransaction "" 0 "" "" 0 "" "" "" "".
Definition set_t_Kind (v : string) (r : Transaction) : Transaction :=
  mkTransaction v (t_SchemaVersion r) (t_RouteID r) (t_Phase r) (t_ListenPort r) (t_Generation r) (t_InviteID
    r) (t_Error r) (t_UpdatedAt r).
Definition set_t_SchemaVersion (v : Z) (r : Transaction) : Transaction :=
  mkTransaction (t_Kind r) v (t_RouteID r) (t_Phase r) (t_ListenPort r) (t_Generation r) (t_InviteID r)
    (t_Error r) (t_UpdatedAt r).
Definition set_t_RouteID (v : string) (r : Transaction) : Transaction :=
  mkTransaction (t_Kind r) (t_SchemaVersion r) v (t_Phase r) (t_ListenPort r) (t_Generation r) (t_InviteID r)
    (t_Error r) (t_UpdatedAt r).
Definition set_t_Phase (v : string) (r : Transaction) : Transaction :=
  mkTransaction (t_Kind r) (t_SchemaVersion r) (t_RouteID r) v (t_ListenPort r) (t_Generation r) (t_InviteID
    r) (t_Error r) (t_UpdatedAt r).
Definition set_t_ListenPort (v : Z) (r : Transaction) : Transaction :=
  mkTransaction (t_Kind r) (t_SchemaVersion r) (t_RouteID r) (t_Phase r) v (t_Generation r) (t_InviteID r)
    (t_Error r) (t_UpdatedAt r).
Definition set_t_Generation (v : string) (r : Transaction) : Transaction :=
  mkTransaction (t_Kind r) (t_SchemaVersion r) (t_RouteID r) (t_Phase r) (t_ListenPort r) v (t_InviteID r)
    (t_Error r) (t_UpdatedAt r).
Definition set_t_InviteID (v : string) (r : Transaction) : Transaction :=
  mkTransaction (t_Kind r) (t_SchemaVersion r) (t_RouteID r) (t_Phase r) (t_ListenPort r) (t_Generation r) v
    (t_Error r) (t_UpdatedAt r).
Definition set_t_Error (v : string) (r : Transaction) : Transaction :=
  mkTransaction (t_Kind r) (t_SchemaVersion r) (t_RouteID r) (t_Phase r) (t_ListenPort r) (t_Generation r)
    (t_InviteID r) v (t_UpdatedAt r).
Definition set_t_UpdatedAt (v : string) (r : Transaction) : Transaction :=
  mkTransaction (t_Kind r) (t_SchemaVersion r) (t_RouteID r) (t_Phase r) (t_ListenPort r) (t_Generation r)
    (t_InviteID r) (t_Error r) v.

(** ** JSON *)

Definition intentFields : list (field Intent) :=
  [("kind", string_field set_i_Kind); ("schema_version", int_field set_i_SchemaVersion);
   ("route_id", string_field set_i_RouteID); ("desired_state", string_field set_DesiredState);
   ("restart_policy", string_field set_RestartPolicy); ("boot_id", string_field set_BootID);
   ("updated_at", string_field set_i_UpdatedAt)]%string.
Definition intentJSON (i : Intent) : result json :=
  Ok (JObj ([("kind", JStr (i_Kind i)); ("schema_version", JInt (i_SchemaVersion i));
             ("route_id", JStr (i_RouteID i)); ("desired_state", JStr (DesiredState i));
             ("restart_policy", JStr (RestartPolicy i))]%string
            ++ ClientStore.omitempty "boot_id" (BootID i)
            ++ [("updated_at", JStr (i_UpdatedAt i))]%string)).

Definition activeFields : list (field Active) :=
  [("kind", string_field set_a_Kind); ("schema_version", int_field set_a_SchemaVersion);
   ("route_id", string_field set_a_RouteID); ("generation", string_field set_a_Generation)]%string.
Definition activeJSON (a : Active) : result json :=
  Ok (JObj [("kind", JStr (a_Kind a)); ("schema_version", JInt (a_SchemaVersion a));
            ("route_id", JStr (a_RouteID a)); ("generation", JStr (a_Generation a))]%string).

Definition reservationFields : list (field Reservation) :=
  [("kind", string_field set_v_Kind); ("schema_version", int_field set_v_SchemaVersion);
   ("route_id", string_field set_v_RouteID); ("listen_port", ClientStore.uint_field 16 set_v_ListenPort)]%string.
Definition reservationJSON (r : Reservation) : result json :=
  Ok (JObj [("kind", JStr (v_Kind r)); ("schema_version", JInt (v_SchemaVersion r));
            ("route_id", JStr (v_RouteID r)); ("listen_port", JInt (v_ListenPort r))]%string).

Definition transactionFields : list (field Transaction) :=
  [("kind", string_field set_t_Kind); ("schema_version", int_field set_t_SchemaVersion);
   ("route_id", string_field set_t_RouteID); ("phase", string_field set_t_Phase);
   ("listen_port", ClientStore.uint_field 16 set_t_ListenPort); ("generation", string_field set_t_Generation);
   ("invite_id", string_field set_t_InviteID); ("error", string_field set_t_Error);
   ("updated_at", string_field set_t_UpdatedAt)]%string.
Definition omitzero (name : string) (n : Z) : list (string * json) := if n =? 0 then [] else [(name, JInt n)].
Definition transactionJSON (t : Transaction) : result json :=
  Ok (JObj ([("kind", JStr (t_Kind t)); ("schema_version", JInt (t_SchemaVersion t));
             ("route_id", JStr (t_RouteID t)); ("phase", JStr (t_Phase t))]%string
            ++ omitzero "listen_port" (t_ListenPort t)
            ++ ClientStore.omitempty "generation" (t_Generation t)
            ++ ClientStore.omitempty "invite_id" (t_InviteID t)
            ++ ClientStore.omitempty "error" (t_Error t)
            ++ [("updated_at", JStr (t_UpdatedAt t))]%string)).

(** The fields of the embedded [PublishedEndpointSet]. *)
Definition data_field (v : json) (r : Receipt) : result Receipt :=
  d ← decode true ClientStore.endpointFields v (Data (r_Published r));
  Ok (set_r_Published (mkEndpointSet (ps_Generation (r_Published r)) d (Enrollment (r_Published r))) r).
Definition enrollment_field (v : json) (r : Receipt) : result Receipt :=
  d ← decode true ClientStore.endpointFields v (Enrollment (r_Published r));
  Ok (set_r_Published (mkEndpointSet (ps_Generation (r_Published r)) (Data (r_Published r)) d) r).

Definition receiptFields : list (field Receipt) :=
  [("invite_id", string_field set_r_InviteID);
   ("client_id", string_field set_r_ClientID);
   ("grant_id", string_field set_r_GrantID);
   ("route_id", string_field set_r_RouteID);
   ("accepted_at", string_field set_r_AcceptedAt);
   ("authorization_not_after", string_field set_r_AuthorizationNotAfter);
   ("authorization_duration_seconds", int_field set_r_AuthorizationDurationSeconds);
   ("generation", string_field set_r_Generation);
   ("management_token", string_field set_r_ManagementToken);
   ("published_endpoint_generation", ClientStore.uint_field 64 (λ g r,
      set_r_Published (mkEndpointSet g (Data (r_Published r)) (Enrollment (r_Published r))) r));
   ("data", data_field);
   ("enrollment", enrollment_field);
   ("public_key", string_field set_r_PublicKey);
   ("host_public_key", string_field set_r_HostPublicKey);
   ("enrollment_tls_spki_sha256", string_field set_r_EnrollmentTLSSPKISHA256);
   ("target", string_field set_r_Target);
   ("listen_endpoint", string_field set_r_ListenEndpoint);
   ("principal", string_field set_r_Principal);
   ("profile_id", string_field set_r_ProfileID);
   ("revoked_at", string_field set_r_RevokedAt)]%string.
Definition receiptJSON (r : Receipt) : result json :=
  data ← ClientStore.endpointJSON (Data (r_Published r));
  enrollment ← ClientStore.endpointJSON (Enrollment (r_Published r));
  Ok (JObj ([("invite_id", JStr (r_InviteID r)); ("client_id", JStr (r_ClientID r))]%string
    ++ ClientStore.omitempty "grant_id" (r_GrantID r)
    ++ [("route_id", JStr (r_RouteID r)); ("accepted_at", JStr (r_AcceptedAt r));
        ("authorization_not_after", JStr (r_AuthorizationNotAfter r));
        ("authorization_duration_seconds", JInt (r_AuthorizationDurationSeconds r));
        ("generation", JStr (r_Generation r))]%string
    ++ ClientStore.omitempty "management_token" (r_ManagementToken r)
    ++ [("published_endpoint_generation", JInt (ps_Generation (r_Published r)));
        ("data", data); ("enrollment", enrollment)]%string
    ++ ClientStore.omitempty "public_key" (r_PublicKey r)
    ++ ClientStore.omitempty "host_public_key" (r_HostPublicKey r)
    ++ [("enrollment_tls_spki_sha256", JStr (r_EnrollmentTLSSPKISHA256 r))]%string
    ++ ClientStore.omitempty "target" (r_Target r)
    ++ ClientStore.omitempty "listen_endpoint" (r_ListenEndpoint r)
    ++ ClientStore.omitempty "principal" (r_Principal r)
    ++ ClientStore.omitempty "profile_id" (r_ProfileID r)
    ++ ClientStore.omitempty "revoked_at" (r_RevokedAt r))).

(** ** Checks *)

Definition isAlnum (r : Z) : bool := Clients.in_range 97 122 r || Clients.in_range 65 90 r || Clients.in_range 48 57 r.

(** The loops of [ValidateRouteID] and [ValidateGenerationID]: [mark] is a
    character that is allowed but not first. *)
Fixpoint checkRunes (what : string) (mark : Z → bool) (first : bool) (rs : list Z) : result () :=
  match rs with
  | [] => Ok ()
  | r :: rs =>
      if isAlnum r then checkRunes what mark false rs
      else if mark r then
        if first then bad (what ++ " id must start with an alphanumeric character")
        else checkRunes what mark false rs
      else bad (what ++ " id contains forbidden character")
  end.

Definition pathCharacters (s : string) : bool :=
  Strings.contains s ".." || existsb (λ c, bool_decide (c ∈ [bz 47; bz 92; bz 58])) (to_bytes s).

Definition ValidateRouteID (routeID : string) : result () :=
  if eqs routeID "" || (64 <? String.length routeID)%nat then bad "route id must be 1-64 characters"
  else if pathCharacters routeID then bad "route id must not contain path characters"
  else checkRunes "route" (λ r, (r =? 45) || (r =? 95)) true (Utf8.range routeID).

Definition ValidateGenerationID (generation : string) : result () :=
  if eqs generation "" || (64 <? String.length generation)%nat then bad "generation id must be 1-64 characters"
  else if pathCharacters generation then bad "generation id must not contain path characters"
  else checkRunes "generation" (λ r, (r =? 45) || (r =? 95) || (r =? 46)) true (Utf8.range generation).

Definition ParseRestartPolicy (value : string) : result string :=
  let v := Strings.trim_space value in
  if eqs v "" || eqs v RestartUnlessStopped then Ok RestartUnlessStopped
  else if eqs v RestartManual then Ok RestartManual
  else bad "restart policy must be unless-stopped or manual".

Definition ShouldStartAtBoot (intent : Intent) (currentBootID : string) : bool :=
  if negb (eqs (DesiredState intent) DesiredRunning) then false
  else if eqs (RestartPolicy intent) RestartUnlessStopped then true
  else if eqs (RestartPolicy intent) RestartManual
  then negb (eqs (BootID intent) "") && eqs (BootID intent) currentBootID
  else false.

Definition ValidateIntent (intent : Intent) : result () :=
  if negb (eqs (i_Kind intent) KindDesiredState) || negb (i_SchemaVersion intent =? CurrentSchemaVersion)
  then bad "unsupported desired-state schema"
  else
    ValidateRouteID (i_RouteID intent);;
    if negb (eqs (DesiredState intent) DesiredRunning) && negb (eqs (DesiredState intent) DesiredStopped)
    then bad "desired_state must be running or stopped"
    else
      ParseRestartPolicy (RestartPolicy intent);;
      if eqs (RestartPolicy intent) RestartManual && eqs (DesiredState intent) DesiredRunning
         && eqs (BootID intent) ""
      then bad "manual running routes require a boot identity" else Ok ().

Definition ValidateReceipt (receipt : Receipt) : result () :=
  ValidateRouteID (r_RouteID receipt);;
  if eqs (r_ClientID receipt) "" || eqs (r_AuthorizationNotAfter receipt) ""
     || (r_AuthorizationDurationSeconds receipt <=? 0) || eqs (r_Generation receipt) ""
  then bad "receipt is missing required authorization fields"
  else match CanonicalSet (r_Published receipt) with
       | Err e => bad ("receipt published endpoint set: " ++ errText e)
       | Ok _ => Ok ()
       end.

Definition validateTransactionPhase (phase : string) : result () :=
  if bool_decide (phase ∈ [PhaseReserved; PhaseStaged; PhaseEnrolled; PhaseActivating; PhaseConnected;
                           PhaseEnrolledNotReady; PhaseFailed])
  then Ok () else bad ("unsupported transaction phase " ++ phase).

(** The text after the last colon. *)
Fixpoint afterColon (b : bytes) : option bytes :=
  match b with
  | [] => None
  | x :: r => match afterColon r with
              | Some s => Some s
              | None => if zb x =? 58 then Some r else None
              end
  end.
Definition listenEndpointPort (endpoint : string) : string :=
  match afterColon (to_bytes endpoint) with Some s => to_string s | None => "" end.

(** ** Files *)

Record ListedRoute := mkListed {
  l_RouteID : string;
  l_Intent : Intent;
  l_Receipt : Receipt;
  l_Invalid : bool;
  l_Error : string;
  l_Root : string;
  l_Listen : string;
}.

Section store.
Context (H : hostEnv) (Root : string).

Definition routeDirOf (routeID : string) : string := Filepath.Join Root routeID.
Definition routeDir (routeID : string) : result string := ValidateRouteID routeID;; Ok (routeDirOf routeID).
Definition fileOf (routeID name : string) : string := Filepath.Join (routeDirOf routeID) name.
Definition intentPath (routeID : string) : result string :=
  directory ← routeDir routeID; Ok (Filepath.Join directory "desired.json").
Definition receiptPath (routeID : string) : result string :=
  directory ← routeDir routeID; Ok (Filepath.Join directory "receipt.json").
Definition transactionPath (routeID : string) : result string :=
  ValidateRouteID routeID;; Ok (fileOf routeID "transaction.json").

(** The part of [readStrictJSON] after the file is read. *)
Definition strictJSON {A} (fields : list (field A)) (zero : A) (contents : bytes) : result A :=
  if (blen contents =? 0) || (maxRouteDocumentBytes <? blen contents)
  then bad "route document is empty or oversized"
  else match ClientStore.decodeStrictJSON fields zero contents with
       | Err e => bad (errText e)
       | Ok a => Ok a
       end.
Definition readStrictJSON {A} (fields : list (field A)) (zero : A) (dir path : string) : HM A :=
  contents ← ReadIn H dir path; hlift (strictJSON fields zero contents).

Definition writeJSONAtomic (path : string) (value : result json) : HM () :=
  v ← hlift value;
  replaceFile H false path ".wt-route-" (print v ++ [bz 10])
    (sys H;; sys H;; sys H).                     (* open, sync and close the directory *)

Definition stamp (updatedAt : string) : HM string :=
  if eqs updatedAt "" then t ← now H; mret (Clients.formatTime t) else mret updatedAt.

Definition Exists (routeID : string) : HM bool :=
  directory ← hlift (routeDir routeID);
  sys H;; fs ← get_files;
  if isFile directory fs then hlift (bad "route path is not a directory")
  else mret (occupied directory fs).

Definition isExist (e : error) : bool := bool_decide (e = EOS EEXIST).

Definition Reserve (routeID : string) : HM () :=
  directory ← hlift (routeDir routeID);
  sys H;;                                        (* MkdirAll(Root) *)
  r ← htry (Mkdir H directory);
  match r with
  | Err e => if isExist e then hlift (bad ("route " ++ routeID ++ " already exists")) else hfail e
  | Ok _ => sys H                                (* Chmod *)
  end.

Definition WriteIntent (intent : Intent) : HM () :=
  updatedAt ← stamp (i_UpdatedAt intent);
  let intent := set_i_UpdatedAt updatedAt intent in
  hlift (ValidateIntent intent);;
  path ← hlift (intentPath (i_RouteID intent));
  MkdirAll H (Filepath.Dir path);;
  sys H;;                                        (* Chmod *)
  writeJSONAtomic path (intentJSON intent).

Definition LoadIntent (routeID : string) : HM Intent :=
  path ← hlift (intentPath routeID);
  intent ← readStrictJSON intentFields zeroIntent (routeDirOf routeID) path;
  let intent := if eqs (i_RouteID intent) "" then set_i_RouteID routeID intent else intent in
  hlift (ValidateIntent intent);; mret intent.

Definition WriteReceipt (receipt : Receipt) : HM () :=
  hlift (ValidateReceipt receipt);;
  path ← hlift (receiptPath (r_RouteID receipt));
  MkdirAll H (Filepath.Dir path);;
  sys H;;                                        (* Chmod *)
  writeJSONAtomic path (receiptJSON receipt).

Definition LoadReceipt (routeID : string) : HM Receipt :=
  path ← hlift (receiptPath routeID);
  receipt ← readStrictJSON receiptFields zeroReceipt (routeDirOf routeID) path;
  mret (if eqs (r_RouteID receipt) "" then set_r_RouteID routeID receipt else receipt).

(** One entry of [List]. *)
Definition invalidRoute (name root text : string) (intent : Intent) : ListedRoute :=
  mkListed name intent zeroReceipt true text root "".
Definition listRoute (name : string) (isDir : bool) : HM ListedRoute :=
  let root := routeDirOf name in
  if negb isDir then mret (invalidRoute name root "route path is not a directory" zeroIntent)
  else match ValidateRouteID name with
  | Err e => mret (invalidRoute name root (errText e) zeroIntent)
  | Ok _ =>
      loaded ← htry (LoadIntent name);
      match loaded with
      | Err e => mret (invalidRoute name root (errText e) zeroIntent)
      | Ok intent =>
          loaded ← htry (LoadReceipt name);
          match loaded with
          | Err e => mret (if IsNotExist e then mkListed name intent zeroReceipt false "" root ""
                           else invalidRoute name root (errText e) intent)
          | Ok receipt =>
              match ValidateReceipt receipt with
              | Err e => mret (invalidRoute name root (errText e) intent)
              | Ok _ => mret (mkListed name intent receipt false "" root (r_ListenEndpoint receipt))
              end
          end
      end
  end.

Fixpoint listRoutes (entries : list (string * bool)) : HM (list ListedRoute) :=
  match entries with
  | [] => mret []
  | (name, isDir) :: rest =>
      if eqs name ".lock" then listRoutes rest
      else listed ← listRoute name isDir; others ← listRoutes rest; mret (listed :: others)
  end.

Definition List : HM (list ListedRoute) :=
  r ← htry (ReadEntries H Root);
  match r with
  | Err e => if IsNotExist e then mret [] else hfail e
  | Ok entries => listRoutes entries
  end.

(** ** Generations *)

Definition generationDir (routeID generation : string) : result string :=
  ValidateRouteID routeID;; ValidateGenerationID generation;;
  Ok (Filepath.Join (fileOf routeID "generations") generation).
Definition GenerationDir := generationDir.

Definition activePath (routeID : string) : string := fileOf routeID "active.json".

Definition LoadActive (routeID : string) : HM Active :=
  hlift (ValidateRouteID routeID);;
  active ← readStrictJSON activeFields zeroActive (routeDirOf routeID) (activePath routeID);
  if negb (eqs (a_Kind active) KindActive) || negb (a_SchemaVersion active =? CurrentSchemaVersion)
  then hlift (bad "unsupported active-generation schema")
  else if negb (eqs (a_RouteID active) routeID) then hlift (bad "active route id mismatch")
  else hlift (ValidateGenerationID (a_Generation active));; mret active.

Definition activeFile (name routeID : string) : HM string :=
  active ← LoadActive routeID;
  directory ← hlift (generationDir routeID (a_Generation active));
  mret (Filepath.Join directory name).
Definition ManifestPath := activeFile "client.wt".
Definition IdentityPath := activeFile "identity".

Definition Activate (routeID generation : string) : HM () :=
  hlift (ValidateRouteID routeID);;
  hlift (ValidateGenerationID generation);;
  directory ← hlift (generationDir routeID generation);
  r ← htry (LstatDir H (Filepath.Join directory "client.wt"));
  match r with
  | Err _ => hlift (bad ("generation " ++ generation ++ " is incomplete"))
  | Ok _ => writeJSONAtomic (activePath routeID)
              (activeJSON (mkActive KindActive CurrentSchemaVersion routeID generation))
  end.

(** ** Claims of listen ports *)

Definition reservationPath (routeID : string) : string := fileOf routeID "reservation.json".

(** The part of [loadReservation] after the file is read. *)
Definition reservationOf (contents : bytes) : result Reservation :=
  reservation ← strictJSON reservationFields zeroReservation contents;
  if negb (eqs (v_Kind reservation) KindReservation) || negb (v_SchemaVersion reservation =? CurrentSchemaVersion)
  then bad "unsupported reservation schema" else Ok reservation.
Definition loadReservation (routeID : string) : HM Reservation :=
  contents ← ReadIn H (routeDirOf routeID) (reservationPath routeID); hlift (reservationOf contents).

Fixpoint portOwner (listenPort : Z) (routes : list ListedRoute) : HM (option string) :=
  match routes with
  | [] => mret None
  | route :: rest =>
      loaded ← htry (loadReservation (l_RouteID route));
      match loaded with
      | Err e =>
          if IsNotExist e then
            if negb (eqs (l_Listen route) "") && eqs (listenEndpointPort (l_Listen route)) (Strings.itoa listenPort)
            then mret (Some (l_RouteID route)) else portOwner listenPort rest
          else hfail e
      | Ok reservation =>
          if v_ListenPort reservation =? listenPort then mret (Some (l_RouteID route))
          else portOwner listenPort rest
      end
  end.

(** The owner, if the port is taken. *)
Definition PortOwner (listenPort : Z) : HM (option string) := routes ← List; portOwner listenPort routes.

Definition releaseReservationLocked (routeID : string) : HM () := RemoveTree H (routeDirOf routeID).

(** The claim that is already there. *)
Definition alreadyReserved (routeID : string) (listenPort : Z) : HM bool :=
  loaded ← htry (loadReservation routeID);
  mret match loaded with
       | Ok existing => eqs (v_RouteID existing) routeID && (v_ListenPort existing =? listenPort)
       | Err _ => false
       end.

(** Whether the claim was made by this call. *)
Definition reservePortLocked (routeID : string) (listenPort : Z) : HM bool :=
  if listenPort =? 0 then hlift (bad "listen port must be a nonzero TCP port")
  else
    present ← alreadyReserved routeID listenPort;
    if (present : bool) then mret false
    else
      r ← htry (Reserve routeID);
      match r with
      | Err e =>
          present ← alreadyReserved routeID listenPort;
          if (present : bool) then mret false else hfail e
      | Ok _ =>
          taken ← PortOwner listenPort;
          match taken with
          | Some owner =>
              if negb (eqs owner routeID) then
                htry (RemoveTree H (routeDirOf routeID));;
                hlift (bad ("listen port is already reserved by " ++ owner))
              else
                writeJSONAtomic (reservationPath routeID)
                  (reservationJSON (mkReservation KindReservation CurrentSchemaVersion routeID listenPort));;
                mret true
          | None =>
              writeJSONAtomic (reservationPath routeID)
                (reservationJSON (mkReservation KindReservation CurrentSchemaVersion routeID listenPort));;
              mret true
          end
      end.

(** [lockRoot], with the body run under the lock. *)
Definition lockRoot {A} (body : HM A) : HM A :=
  sys H;;                                        (* MkdirAll *)
  OpenCreate H (Filepath.Join Root ".lock");;
  r ← htry (sys H);                              (* flock *)
  match r with
  | Err e => htry (sys H);; hfail e
  | Ok _ => deferred (htry (sys H);; sys H) body (* unlock and close *)
  end.

Definition ReservePort (routeID : string) (listenPort : Z) : HM () :=
  lockRoot (reservePortLocked routeID listenPort;; mret ()).

Definition Remove (routeID : string) : HM () :=
  hlift (ValidateRouteID routeID);; lockRoot (releaseReservationLocked routeID).

(** ** Transactions *)

Definition WriteTransaction (transaction : Transaction) : HM () :=
  hlift (ValidateRouteID (t_RouteID transaction));;
  hlift (validateTransactionPhase (t_Phase transaction));;
  updatedAt ← stamp (t_UpdatedAt transaction);
  let transaction := set_t_UpdatedAt updatedAt (set_t_SchemaVersion CurrentSchemaVersion
                       (set_t_Kind KindTransaction transaction)) in
  path ← hlift (transactionPath (t_RouteID transaction));
  MkdirAll H (Filepath.Dir path);;
  writeJSONAtomic path (transactionJSON transaction).

Definition LoadTransaction (routeID : string) : HM Transaction :=
  path ← hlift (transactionPath routeID);
  transaction ← readStrictJSON transactionFields zeroTransaction (routeDirOf routeID) path;
  if negb (eqs (t_Kind transaction) KindTransaction) || negb (t_SchemaVersion transaction =? CurrentSchemaVersion)
  then hlift (bad "unsupported transaction schema")
  else if negb (eqs (t_RouteID transaction) routeID) then hlift (bad "transaction route id mismatch")
  else hlift (validateTransactionPhase (t_Phase transaction));; mret transaction.

(** A route that is reserved for another invite or generation is refused. *)
Definition checkReserved (transaction : Transaction) (loaded : result Transaction) : HM () :=
  match loaded with
  | Ok existing =>
      if negb (eqs (t_InviteID existing) "") && negb (eqs (t_InviteID existing) (t_InviteID transaction))
      then hlift (bad "route is reserved for a different invite")
      else if negb (eqs (t_Generation existing) "") && negb (eqs (t_Generation existing) (t_Generation transaction))
      then hlift (bad "route is reserved for a different generation") else mret ()
  | Err e => if IsNotExist e then mret () else hfail e
  end.

Definition ReserveAndWriteTransaction (transaction : Transaction) : HM () :=
  if negb (eqs (t_Phase transaction) PhaseReserved) then hlift (bad "reserve-and-write requires phase reserved")
  else
    hlift (ValidateRouteID (t_RouteID transaction));;
    hlift (validateTransactionPhase (t_Phase transaction));;
    lockRoot
      (loaded ← htry (LoadTransaction (t_RouteID transaction));
       checkReserved transaction loaded;;
       created ← reservePortLocked (t_RouteID transaction) (t_ListenPort transaction);
       r ← htry (WriteTransaction transaction);
       match r with
       | Err e =>
           if (created : bool) then htry (releaseReservationLocked (t_RouteID transaction));; hfail e else hfail e
       | Ok _ => mret ()
       end).

End store.

End Routes.
