(* ===== verification/RouteProps.v ===== *)
(** * Routes do not share listen ports

    The files of a route, what the store reads from them, and the claim of a
    port under the store's lock: whatever sequence of operations runs and
    whatever fails, no two routes hold the same port. *)

From stdpp Require Import sorting.
From S2P Require Import Prelude GoStd Json StrictJson Time Text Host Locator Grant GrantProps SshWire Crypto Packet.
From S2P Require Import Kex Listen ClientStore ClientCodec Server Clients ClientProps AuthorizedKeys GrantSession.
From S2P Require Import ServerProps SessionProps Reconcile Frame Layout Invite Accept InviteClient InviteProps Enroll.
From S2P Require Import EnrollProps Routes.
Import Time Json Locator.
Import Routes.

(** ** Identifiers *)

Definition route_char (c : byte) : Prop :=
  97 ≤ zb c ≤ 122 ∨ 65 ≤ zb c ≤ 90 ∨ 48 ≤ zb c ≤ 57 ∨ zb c = 45 ∨ zb c = 95.
Definition alnum_char (c : byte) : Prop := 97 ≤ zb c ≤ 122 ∨ 65 ≤ zb c ≤ 90 ∨ 48 ≤ zb c ≤ 57.

Lemma isAlnum_iff r : isAlnum r = true ↔ 97 ≤ r ≤ 122 ∨ 65 ≤ r ≤ 90 ∨ 48 ≤ r ≤ 57.
Proof. unfold isAlnum, Clients.in_range. rewrite !orb_true_iff, !andb_true_iff, !Z.leb_le. lia. Qed.

Lemma checkRunes_rest what mark rs :
  checkRunes what mark false rs = Ok () ↔ Forall (λ r, isAlnum r = true ∨ mark r = true) rs.
Proof.
  induction rs as [|r rs IH]; [done|]. cbn [checkRunes]. rewrite List.Forall_cons_iff, <- IH.
  destruct (isAlnum r), (mark r); intuition done.
Qed.
Lemma checkRunes_first what mark r rs :
  (∀ r, isAlnum r = true → mark r = false) →
  checkRunes what mark true (r :: rs) = Ok () ↔
  isAlnum r = true ∧ Forall (λ r, isAlnum r = true ∨ mark r = true) rs.
Proof.
  intros Hm. rewrite <- (checkRunes_rest what). cbn [checkRunes]. specialize (Hm r).
  destruct (isAlnum r), (mark r); intuition done.
Qed.

(** Runes below 128 are bytes. *)
Lemma range_small s : Forall (λ r, r < 128) (Utf8.range s) → Utf8.range s = zb <$> to_bytes s.
Proof.
  unfold Utf8.range, Utf8.runes. intros Hf. apply runes_fuel_ascii; [|lia].
  apply List.Forall_map in Hf. exact Hf.
Qed.

Lemma range_ascii s : Forall (λ c, zb c < 128) (to_bytes s) → Utf8.range s = zb <$> to_bytes s.
Proof. intros Hb. unfold Utf8.range. by rewrite Json.runes_ascii, <- list_fmap_compose. Qed.

Lemma route_char_iff c : route_char c ↔ isAlnum (zb c) = true ∨ ((zb c =? 45) || (zb c =? 95)) = true.
Proof. rewrite isAlnum_iff, orb_true_iff, !Z.eqb_eq. unfold route_char. lia. Qed.

(** A valid route identifier: one to 64 letters, digits, hyphens and
    underscores, the first of them a letter or digit. *)
Definition route_id (routeID : string) : Prop :=
  ∃ c b, to_bytes routeID = c :: b ∧ (length b ≤ 63)%nat ∧ alnum_char c ∧ Forall route_char b.

Lemma route_id_chars routeID : route_id routeID → Forall route_char (to_bytes routeID).
Proof. intros (c & b & -> & _ & Hc & Hb). constructor; [|done]. unfold alnum_char, route_char in *. lia. Qed.

Lemma no_path_characters s : Forall route_char (to_bytes s) → pathCharacters s = false.
Proof.
  intros Hs. unfold pathCharacters. apply orb_false_iff. split.
  - apply not_true_iff_false. intros (b1 & b2 & E)%contains_bytes_iff. rewrite E in Hs.
    apply Forall_app in Hs as [_ Hs]. apply List.Forall_cons_iff in Hs as [Hc _]. by vm_compute in Hc; intuition lia.
  - apply not_true_iff_false. intros (c & Hin & Hc%bool_decide_eq_true)%existsb_exists.
    rewrite List.Forall_forall in Hs. specialize (Hs c Hin).
    repeat (apply elem_of_cons in Hc as [-> |Hc]; [vm_compute in Hs; intuition lia|]). by apply elem_of_nil in Hc.
Qed.

Lemma route_runes_iff s :
  s ≠ ""%string → (String.length s ≤ 64)%nat →
  checkRunes "route" (λ r, (r =? 45) || (r =? 95)) true (Utf8.range s) = Ok () ↔ route_id s.
Proof.
  intros He Hl. rewrite <- length_to_bytes in Hl.
  assert (∀ r, isAlnum r = true → ((r =? 45) || (r =? 95)) = false) as Hmark
    by (intros r [?|[?|?]]%isAlnum_iff; apply orb_false_iff; rewrite !Z.eqb_neq; lia).
  split.
  - intros Hc. assert (Forall (λ r, r < 128) (Utf8.range s)) as Hsmall.
    { destruct (Utf8.range s) as [|r rs]; [constructor|]. apply checkRunes_first in Hc as [Hr Hrs]; [|done].
      constructor; [apply isAlnum_iff in Hr; lia|]. eapply List.Forall_impl; [|exact Hrs].
      intros x [Hx%isAlnum_iff|Hx%orb_true_iff]; [lia|]. rewrite !Z.eqb_eq in Hx. lia. }
    rewrite range_small in Hc by done.
    destruct (to_bytes s) as [|c b] eqn:Hb; [destruct He; by apply to_bytes_inj|].
    cbn [fmap list_fmap] in Hc. apply checkRunes_first in Hc as [Hc Hrs]; [|done].
    exists c, b. split_and!; [done|cbn in Hl; lia|by apply isAlnum_iff in Hc|].
    apply List.Forall_map in Hrs. eapply List.Forall_impl; [|exact Hrs]. intros x Hx. by apply route_char_iff.
  - intros Hid. pose proof (route_id_chars _ Hid) as Hall. destruct Hid as (c & b & Hb & _ & Hc & Hrs).
    rewrite range_ascii; [|eapply List.Forall_impl; [|exact Hall]; unfold route_char; intros; lia].
    rewrite Hb. cbn [fmap list_fmap]. apply checkRunes_first; [done|]. split; [by apply isAlnum_iff|].
    apply List.Forall_map. eapply List.Forall_impl; [|exact Hrs]. intros x Hx. by apply route_char_iff.
Qed.

Lemma route_id_length s : route_id s → eqs s "" = false ∧ (64 <? String.length s)%nat = false.
Proof.
  intros (c & b & Hb & Hl & _). split; [apply bool_decide_eq_false; by intros ->|].
  apply Nat.ltb_ge. rewrite <- length_to_bytes, Hb. cbn. lia.
Qed.

Lemma ValidateRouteID_iff routeID : ValidateRouteID routeID = Ok () ↔ route_id routeID.
Proof.
  unfold ValidateRouteID. split.
  - unfold eqs. case_bool_decide as He; [done|]. cbn [orb]. destruct (_ <? _)%nat eqn:Hl; [done|].
    destruct (pathCharacters routeID); [done|]. apply Nat.ltb_ge in Hl. by apply route_runes_iff.
  - intros Hid. destruct (route_id_length _ Hid) as [He Hl]. rewrite He, Hl. cbn [orb].
    rewrite no_path_characters by (by apply route_id_chars). apply Nat.ltb_ge in Hl. apply bool_decide_eq_false in He.
    by apply route_runes_iff.
Qed.

Lemma route_id_no_slash routeID : route_id routeID → bz 47 ∉ to_bytes routeID.
Proof.
  intros Hid%route_id_chars Hin%list_elem_of_In. rewrite List.Forall_forall in Hid. specialize (Hid _ Hin).
  vm_compute in Hid. intuition lia.
Qed.
Lemma route_id_not name routeID : route_id routeID → to_bytes name `prefix_of` [] ∨ head (to_bytes name) = Some (bz 46) → routeID ≠ name.
Proof.
  intros (c & b & Hb & _ & Hc & _) Hn ->. rewrite Hb in Hn. destruct Hn as [Hn|Hn].
  - by apply prefix_nil_inv in Hn.
  - injection Hn as ->. vm_compute in Hc. intuition lia.
Qed.
Lemma route_id_plain routeID : route_id routeID → plain_name routeID ∧ routeID ≠ ".lock"%string.
Proof.
  intros Hid. unfold plain_name.
  split_and!; [|by apply route_id_no_slash|..]; apply (route_id_not _ _ Hid); first [by left|by right].
Qed.

(** The first element of a path determines it. *)
Lemma slash_split a b x y :
  bz 47 ∉ to_bytes a → bz 47 ∉ to_bytes b → (a ++ "/" ++ x = b ++ "/" ++ y)%string → a = b ∧ x = y.
Proof.
  intros Ha Hb E%(f_equal to_bytes). rewrite !to_bytes_append in E.
  change (to_bytes "/") with [bz 47] in E. cbn [app] in E.
  assert (∀ u v p q : bytes, bz 47 ∉ u → bz 47 ∉ v → u ++ bz 47 :: p = v ++ bz 47 :: q → u = v ∧ p = q) as Hsplit.
  { clear. induction u as [|c u IH]; intros [|d v] p q Hu Hv E; cbn in E; simplify_eq; try done.
    - destruct Hv. by left.
    - destruct Hu. by left.
    - destruct (IH v p q) as [-> ->]; [set_solver..|done|done]. }
  apply Hsplit in E as [E1%to_bytes_inj E2%to_bytes_inj]; done.
Qed.

Section paths.
Context (Root : string).
Hypothesis Hroot : clean_root Root.

Lemma routeDirOf_eq name : plain_name name → routeDirOf Root name = (Root ++ "/" ++ name)%string.
Proof using Hroot. intros Hn. by apply Join_plain. Qed.
Lemma fileOf_eq name file :
  plain_name name → plain_name file → fileOf Root name file = (Root ++ "/" ++ name ++ "/" ++ file)%string.
Proof using Hroot.
  intros Hn Hf. unfold fileOf. rewrite routeDirOf_eq by done.
  rewrite Join_plain by (try done; by apply clean_child).
  apply to_bytes_inj. by rewrite !to_bytes_append, <- !app_assoc.
Qed.
Lemma Dir_fileOf name file :
  plain_name name → plain_name file → Filepath.Dir (fileOf Root name file) = (Root ++ "/" ++ name)%string.
Proof using Hroot.
  intros Hn Hf. rewrite fileOf_eq by done.
  replace (Root ++ "/" ++ name ++ "/" ++ file)%string with ((Root ++ "/" ++ name) ++ "/" ++ file)%string
    by (apply to_bytes_inj; by rewrite !to_bytes_append, <- !app_assoc).
  apply Dir_file; [by apply clean_child|apply Hf].
Qed.

(** A file of a route is what it is below the route's directory. *)
Lemma below_route name name' rest rest' :
  bz 47 ∉ to_bytes name → bz 47 ∉ to_bytes name' →
  (Root ++ "/" ++ name ++ "/" ++ rest = Root ++ "/" ++ name' ++ "/" ++ rest')%string → name = name' ∧ rest = rest'.
Proof using. intros Hn Hn' E%app_string_inv%(app_string_inv "/"). by apply slash_split. Qed.

End paths.

Ltac plain := split_and!; [done|by apply (bool_decide_unpack _)|done|done].
Lemma reservation_plain : plain_name "reservation.json".
Proof. plain. Qed.

(** ** Claims *)

(** The route [name] holds the port [p]: its reservation can be read and says so. *)
Definition claims (Root : string) (fs : gmap string bytes) (name : string) (p : Z) : Prop :=
  plain_name name ∧ name ≠ ".lock"%string ∧
  ∃ c r, fs !! reservationPath Root name = Some c ∧ reservationOf c = Ok r ∧ v_ListenPort r = p.

Definition exclusive (Root : string) (fs : gmap string bytes) : Prop :=
  ∀ a b p, claims Root fs a p → claims Root fs b p → a = b.

(** Reservations stay or go. *)
Definition fewer (Root : string) : relation (gmap string bytes) :=
  λ fs fs', ∀ name, plain_name name →
    fs' !! reservationPath Root name = fs !! reservationPath Root name ∨ fs' !! reservationPath Root name = None.
#[export] Instance fewer_preorder Root : PreOrder (fewer Root).
Proof.
  split; [by left|]. intros a b c Hab Hbc name Hn.
  destruct (Hbc name Hn) as [E|E]; [rewrite E; by apply Hab|by right].
Qed.
Lemma claims_fewer Root fs fs' name p : fewer Root fs fs' → claims Root fs' name p → claims Root fs name p.
Proof.
  intros Hf (Hn & Hl & c & r & Hc & Hr). split_and!; [done|done|]. exists c, r.
  destruct (Hf name Hn) as [E|E]; rewrite E in Hc; [done|discriminate].
Qed.
Lemma exclusive_fewer Root fs fs' : fewer Root fs fs' → exclusive Root fs → exclusive Root fs'.
Proof. intros Hf He a b p Ha Hb. apply (He a b p); by eapply claims_fewer. Qed.

(** A path that is no reservation. *)
Definition harmless (Root p : string) : Prop := ∀ name, plain_name name → p ≠ reservationPath Root name.

Section harmless.
Context (H : hostEnv) (Root : string).
Hypothesis Hroot : clean_root Root.

Lemma reservationPath_eq name :
  plain_name name → reservationPath Root name = (Root ++ "/" ++ name ++ "/" ++ "reservation.json")%string.
Proof using Hroot. intros Hn. apply fileOf_eq; [done..|apply reservation_plain]. Qed.

Lemma within_fewer {A} (m : HM A) : within (harmless Root) m → moves (fewer Root) m.
Proof using. intros Hm. eapply within_moves; [exact Hm|]. intros fs fs' Ho name Hn. left. apply Ho. intros Hh. by apply (Hh name Hn). Qed.

Lemma harmless_below name rest :
  bz 47 ∉ to_bytes name → rest ≠ "reservation.json"%string → harmless Root (Root ++ "/" ++ name ++ "/" ++ rest).
Proof using Hroot.
  intros Hn Hr other Ho. rewrite reservationPath_eq by done. intros E.
  apply below_route in E as [_ E]; [done|done|apply Ho].
Qed.
Lemma harmless_file name file :
  plain_name name → plain_name file → file ≠ "reservation.json"%string → harmless Root (fileOf Root name file).
Proof using Hroot. intros Hn Hf Hne. rewrite fileOf_eq by done. apply harmless_below; [apply Hn|done]. Qed.
Lemma harmless_temp name file n :
  plain_name name → plain_name file → harmless Root (tempName H (fileOf Root name file) ".wt-route-" n).
Proof using Hroot.
  intros Hn Hf. unfold tempName. rewrite Dir_fileOf by done.
  replace ((Root ++ "/" ++ name) ++ "/" ++ ".wt-route-" ++ h_temp H n)%string
    with (Root ++ "/" ++ name ++ "/" ++ (".wt-route-" ++ h_temp H n))%string
    by (apply to_bytes_inj; by rewrite !to_bytes_append, <- !app_assoc).
  apply harmless_below; [apply Hn|]. done.
Qed.
Lemma harmless_mark name : plain_name name → harmless Root (dirMark (Root ++ "/" ++ name)).
Proof using Hroot.
  intros Hn. unfold dirMark. replace ((Root ++ "/" ++ name) ++ "/")%string with (Root ++ "/" ++ name ++ "/" ++ "")%string
    by (apply to_bytes_inj; by rewrite !to_bytes_append, <- !app_assoc, app_nil_r).
  apply harmless_below; [apply Hn|done].
Qed.
Lemma lock_plain : plain_name ".lock".
Proof using. plain. Qed.
Lemma harmless_lock : harmless Root (Filepath.Join Root ".lock").
Proof using Hroot.
  intros name Hn. rewrite Join_plain, reservationPath_eq by (done || apply lock_plain).
  intros E%app_string_inv%(app_string_inv "/").
  assert (bz 47 ∈ to_bytes ".lock") as Hin.
  { rewrite E, !to_bytes_append. apply elem_of_app. right. apply elem_of_app. left. by apply (bool_decide_unpack _). }
  by apply lock_plain in Hin.
Qed.

(** ** Operations that make no claim *)

Lemma within_Mkdir name : plain_name name → within (harmless Root) (Mkdir H (Root ++ "/" ++ name)).
Proof using Hroot. intros Hn. unfold Mkdir. frame. apply moves_set. intros fs. by apply outside_insert, harmless_mark. Qed.
Lemma within_MkdirAll name : plain_name name → within (harmless Root) (MkdirAll H (Root ++ "/" ++ name)).
Proof using Hroot. intros Hn. unfold MkdirAll. frame. apply moves_set. intros fs. by apply outside_insert, harmless_mark. Qed.
Lemma within_writeJSON name file v :
  plain_name name → plain_name file → file ≠ "reservation.json"%string →
  within (harmless Root) (writeJSONAtomic H (fileOf Root name file) v).
Proof using Hroot.
  intros Hn Hf Hne. unfold writeJSONAtomic. frame. apply within_replaceFile; [by apply harmless_file| |frame].
  intros n. by apply harmless_temp.
Qed.

Lemma foldr_delete_lookup (fs : gmap string bytes) l p :
  foldr (delete (M := gmap string bytes)) fs l !! p = fs !! p ∨ foldr (delete (M := gmap string bytes)) fs l !! p = None.
Proof using.
  induction l as [|q l IH]; [by left|]. cbn [foldr]. destruct (decide (q = p)) as [-> |Hq].
  - right. by rewrite lookup_delete_eq.
  - by rewrite lookup_delete_ne.
Qed.
Lemma fewer_RemoveTree dir : moves (fewer Root) (RemoveTree H dir).
Proof using.
  unfold RemoveTree. apply moves_bind; [apply _|apply moves_call; apply _|intros n]. destruct (h_fault H n).
  - apply moves_bind; [apply _| |intros; apply moves_fail; apply _]. apply moves_set. intros fs name _. apply foldr_delete_lookup.
  - apply moves_set. intros fs name _. rewrite map_lookup_filter. destruct (fs !! _); [|by left].
    cbn. case_guard; [by left|by right].
Qed.

End harmless.

Lemma moves_checked {A B} (R : relation (gmap string bytes)) `{!PreOrder R} (r : result A) (f : A → HM B) :
  (∀ a, r = Ok a → moves R (f a)) → moves R (hlift r ≫= f).
Proof. intros Hf. destruct r as [a|e]; [by apply Hf|by intros w]. Qed.

Section writers.
Context (H : hostEnv) (Root : string).
Hypothesis Hroot : clean_root Root.

Lemma moves_lockRoot {A} (body : HM A) : moves (fewer Root) body → moves (fewer Root) (lockRoot H Root body).
Proof using Hroot.
  intros Hb. unfold lockRoot. frame. apply within_fewer, moves_OpenCreate; [apply _|].
  intros fs _. by apply outside_insert, harmless_lock.
Qed.

Lemma routeDir_Ok routeID d : routeDir Root routeID = Ok d → route_id routeID ∧ d = (Root ++ "/" ++ routeID)%string.
Proof using Hroot.
  unfold routeDir. intros ([] & Hv & E)%bind_Ok. apply ValidateRouteID_iff in Hv. split; [done|].
  injection E as <-. apply routeDirOf_eq; [done|]. by apply route_id_plain.
Qed.
Lemma intentPath_Ok routeID p : intentPath Root routeID = Ok p → route_id routeID ∧ p = fileOf Root routeID "desired.json".
Proof using Hroot.
  unfold intentPath. intros (d & Hd & E)%bind_Ok. injection E as <-. unfold routeDir in Hd.
  apply bind_Ok in Hd as ([] & Hv%ValidateRouteID_iff & E). by injection E as <-.
Qed.
Lemma receiptPath_Ok routeID p : receiptPath Root routeID = Ok p → route_id routeID ∧ p = fileOf Root routeID "receipt.json".
Proof using Hroot.
  unfold receiptPath. intros (d & Hd & E)%bind_Ok. injection E as <-. unfold routeDir in Hd.
  apply bind_Ok in Hd as ([] & Hv%ValidateRouteID_iff & E). by injection E as <-.
Qed.
Lemma transactionPath_Ok routeID p :
  transactionPath Root routeID = Ok p → route_id routeID ∧ p = fileOf Root routeID "transaction.json".
Proof using Hroot. unfold transactionPath. intros ([] & Hv%ValidateRouteID_iff & E)%bind_Ok. by injection E as <-. Qed.

(** The end of a write: the directory is there, then the document. *)
Lemma within_document routeID file v (chmod : HM ()) :
  route_id routeID → plain_name file → file ≠ "reservation.json"%string → within (harmless Root) chmod →
  within (harmless Root) (MkdirAll H (Filepath.Dir (fileOf Root routeID file));; chmod;;
                          writeJSONAtomic H (fileOf Root routeID file) v).
Proof using Hroot.
  intros [Hid _]%route_id_plain Hf Hne Hc. rewrite Dir_fileOf by done.
  frame; [by apply within_MkdirAll|by apply within_writeJSON].
Qed.

Lemma within_stamp t : within (harmless Root) (stamp H t).
Proof using. unfold stamp. frame. Qed.

Lemma within_WriteIntent intent : within (harmless Root) (WriteIntent H Root intent).
Proof using Hroot.
  unfold WriteIntent. apply moves_bind; [apply _|apply within_stamp|intros t].
  apply moves_checked; [apply _|]. intros _ _. apply moves_checked; [apply _|]. intros p (Hid & ->)%intentPath_Ok.
  apply within_document; [done|plain|done|frame].
Qed.
Lemma within_WriteReceipt receipt : within (harmless Root) (WriteReceipt H Root receipt).
Proof using Hroot.
  unfold WriteReceipt. apply moves_checked; [apply _|]. intros _ _.
  apply moves_checked; [apply _|]. intros p (Hid & ->)%receiptPath_Ok.
  apply within_document; [done|plain|done|frame].
Qed.
Lemma within_WriteTransaction t : within (harmless Root) (WriteTransaction H Root t).
Proof using Hroot.
  unfold WriteTransaction. do 2 (apply moves_checked; [apply _|]; intros _ _).
  apply moves_bind; [apply _|apply within_stamp|intros u].
  apply moves_checked; [apply _|]. intros p (Hid & ->)%transactionPath_Ok.
  rewrite Dir_fileOf by first [done|plain|by apply route_id_plain]. frame.
  - apply within_MkdirAll; [done|by apply route_id_plain].
  - apply within_writeJSON; [done|by apply route_id_plain|plain|done].
Qed.
Lemma within_Activate routeID generation : within (harmless Root) (Activate H Root routeID generation).
Proof using Hroot.
  unfold Activate, LstatDir. apply moves_checked; [apply _|]. intros [] Hid%ValidateRouteID_iff. frame.
  apply within_writeJSON; [done|by apply route_id_plain|plain|done].
Qed.
Lemma fewer_Reserve routeID : moves (fewer Root) (Reserve H Root routeID).
Proof using Hroot.
  unfold Reserve. apply moves_checked; [apply _|]. intros d (Hid & ->)%routeDir_Ok. frame.
  apply within_fewer, within_Mkdir; [done|by apply route_id_plain].
Qed.
Lemma fewer_Remove routeID : moves (fewer Root) (Routes.Remove H Root routeID).
Proof using Hroot. unfold Routes.Remove. frame. apply moves_lockRoot, fewer_RemoveTree. Qed.

End writers.

(** ** What the store reads *)

(** [m] changes nothing in [fs] and its outcome satisfies [Q]. *)
Definition reads {A} (fs : gmap string bytes) (m : HM A) (Q : result A → Prop) : Prop :=
  htriple (λ f, f = fs) m (λ r f, f = fs ∧ Q r).

Section reads.
Context (H : hostEnv) (fs : gmap string bytes).

Lemma reads_bind {A B} (m : HM A) (f : A → HM B) R (Q : result B → Prop) :
  reads fs m (λ r, match r with Ok a => R a | Err e => Q (Err e) end) →
  (∀ a, R a → reads fs (f a) Q) → reads fs (m ≫= f) Q.
Proof.
  intros Hm Hf. eapply (htriple_bind _ _ (λ a f, f = fs ∧ R a)).
  - eapply htriple_weaken; [exact Hm|done|]. by intros [] fs'.
  - intros a w [Hw HR]. by apply Hf.
Qed.
Lemma reads_try {A B} (m : HM A) (f : result A → HM B) R (Q : result B → Prop) :
  reads fs m R → (∀ r, R r → reads fs (f r) Q) → reads fs (htry m ≫= f) Q.
Proof. intros Hm Hf. eapply reads_bind; [by apply htriple_try|done]. Qed.
Lemma reads_pure {A} (r : result A) (Q : result A → Prop) : Q r → reads fs (hlift r) Q.
Proof. intros HQ w Hw. by split. Qed.
Lemma reads_ret {A} (a : A) (Q : result A → Prop) : Q (Ok a) → reads fs (mret a) Q.
Proof. intros HQ w Hw. by split. Qed.
Lemma reads_fail {A} e (Q : result A → Prop) : Q (Err e) → reads fs (hfail e) Q.
Proof. intros HQ w Hw. by split. Qed.
Lemma reads_moves {A} (m : HM A) : (∀ R, PreOrder R → moves R m) → reads fs m (λ _, True).
Proof. intros Hm w Hw. split; [|done]. specialize (Hm eq _ w). congruence. Qed.

Lemma reads_weaken {A} (m : HM A) (Q Q' : result A → Prop) : reads fs m Q → (∀ r, Q r → Q' r) → reads fs m Q'.
Proof. intros Hm HQ w Hw. destruct (Hm w Hw). auto. Qed.

Lemma reads_sys_any {Q : result () → Prop} : (∀ r, Q r) → reads fs (sys H) Q.
Proof.
  intros HQ w <-. unfold sys, call, mbind, HM_bind. cbn [files calls]. by destruct (h_fault H (calls w)).
Qed.

Hypothesis Hh : honest H.

Lemma reads_sys : reads fs (sys H) (λ r, match r with Ok _ => True | Err e => IsNotExist e = false end).
Proof using Hh.
  intros w <-. unfold sys, call, mbind, HM_bind. cbn [files calls]. destruct (h_fault H (calls w)) as [e|] eqn:He; [|done].
  split; [done|]. apply bool_decide_eq_false. intros ->. by apply (Hh (calls w)).
Qed.

Lemma reads_ReadIn dir path :
  reads fs (ReadIn H dir path) (λ r, match r with
    | Ok c => fs !! path = Some c
    | Err e => IsNotExist e = true → fs !! path = None
    end).
Proof using Hh.
  unfold ReadIn. eapply (reads_bind _ _ (λ f, f = fs)); [by intros w <-|]. intros ? ->. destruct (isFile dir fs).
  - eapply reads_bind; [eapply reads_weaken; [apply reads_sys|]|intros; by apply reads_fail].
    intros [?|e] He; [exact I|]. by rewrite He.
  - apply (ReadFile_honest _ _ _ Hh).
Qed.

End reads.

Lemma bad_Err {A} text e : (bad text : result A) = Err e → IsNotExist e = false.
Proof. unfold bad, wrapErr. intros [= <-]. by apply bool_decide_eq_false. Qed.
Lemma strictJSON_Err {A} (fields : list (field A)) zero c e : strictJSON fields zero c = Err e → IsNotExist e = false.
Proof. unfold strictJSON. repeat case_match; try done; apply bad_Err. Qed.
Lemma reservationOf_Err c e : reservationOf c = Err e → IsNotExist e = false.
Proof.
  unfold reservationOf. destruct (strictJSON _ _ c) as [v|e'] eqn:Hs; cbn [mbind result_bind].
  - case_match; [apply bad_Err|done].
  - intros [= <-]. by eapply strictJSON_Err.
Qed.

Section listing.
Context (H : hostEnv) (Root : string) (fs : gmap string bytes).
Hypothesis Hh : honest H.

Lemma reads_loadReservation name :
  reads fs (loadReservation H Root name) (λ r, match r with
    | Ok v => ∃ c, fs !! reservationPath Root name = Some c ∧ reservationOf c = Ok v
    | Err e => IsNotExist e = true → fs !! reservationPath Root name = None
    end).
Proof using Hh.
  unfold loadReservation. eapply (reads_bind _ _ _ (λ c, fs !! reservationPath Root name = Some c)).
  - eapply reads_weaken; [by apply reads_ReadIn|]. by intros [c|e].
  - intros c Hc. apply reads_pure. destruct (reservationOf c) as [v|e] eqn:Hv; [eauto|].
    by rewrite (reservationOf_Err _ _ Hv).
Qed.

(** A listed route has a listen endpoint only with a receipt. *)
Definition listed_as (name : string) (l : ListedRoute) : Prop :=
  l_RouteID l = name ∧ (l_Listen l ≠ ""%string → is_Some (fs !! fileOf Root name "receipt.json")).

Lemma reads_LoadReceipt name :
  reads fs (LoadReceipt H Root name) (λ r, match r with Ok _ => is_Some (fs !! fileOf Root name "receipt.json") | _ => True end).
Proof using Hh.
  unfold LoadReceipt, readStrictJSON. eapply (reads_bind _ _ _ (λ p, p = fileOf Root name "receipt.json")).
  { apply reads_pure. destruct (receiptPath Root name) as [p|e] eqn:Hp; [|done]. unfold receiptPath, routeDir in Hp.
    apply bind_Ok in Hp as (d & (_ & _ & Ed)%bind_Ok & E). injection Ed as <-. by injection E as <-. }
  intros ? ->. eapply (reads_bind _ _ _ (λ _, is_Some (fs !! fileOf Root name "receipt.json"))).
  - eapply (reads_bind _ _ _ (λ c, fs !! fileOf Root name "receipt.json" = Some c)).
    + eapply reads_weaken; [by apply reads_ReadIn|]. by intros [c|e].
    + intros c Hc. apply reads_pure. by destruct (strictJSON _ _ _); [eexists|].
  - intros r Hr. by apply reads_ret.
Qed.

Lemma reads_listRoute name isDir :
  reads fs (listRoute H Root name isDir) (λ r, match r with Ok l => listed_as name l | Err _ => True end).
Proof using Hh.
  unfold listRoute. destruct (negb isDir); [by apply reads_ret|].
  destruct (ValidateRouteID name); [|by apply reads_ret].
  eapply reads_try; [apply reads_moves|].
  { intros R HR. unfold LoadIntent, readStrictJSON, ReadIn. frame. }
  intros [intent|e] _; [|by apply reads_ret].
  eapply reads_try; [apply reads_LoadReceipt|]. intros [receipt|e] Hr; [|by destruct (IsNotExist e); apply reads_ret].
  destruct (ValidateReceipt receipt); by apply reads_ret.
Qed.

Lemma reads_listRoutes entries :
  reads fs (listRoutes H Root entries) (λ r, match r with
    | Ok ls => (∀ l, l ∈ ls → listed_as (l_RouteID l) l) ∧
               ∀ name, name ∈ entries.*1 → name ≠ ".lock"%string → name ∈ l_RouteID <$> ls
    | Err _ => True
    end).
Proof using Hh.
  induction entries as [|[name isDir] rest IH]; cbn [listRoutes].
  { apply reads_ret. split; [by intros l Hl%elem_of_nil|by intros n Hn%elem_of_nil]. }
  unfold eqs. case_bool_decide as Hlock.
  { eapply reads_weaken; [exact IH|]. intros [ls|e] HQ; [|done]. destruct HQ as [H1 H2]. split; [done|]. intros n [-> |Hn]%elem_of_cons Hne; [done|auto]. }
  eapply (reads_bind _ _ _ (listed_as name)).
  { eapply reads_weaken; [apply reads_listRoute|]. by intros [l|e]. }
  intros l Hl. eapply (reads_bind _ _ _ (λ ls, (∀ l, l ∈ ls → listed_as (l_RouteID l) l) ∧
    ∀ name, name ∈ rest.*1 → name ≠ ".lock"%string → name ∈ l_RouteID <$> ls)).
  { eapply reads_weaken; [exact IH|by intros [ls|e]]. }
  intros ls [H1 H2]. apply reads_ret. split.
  - intros l' [-> |Hl']%elem_of_cons; [|by apply H1]; destruct Hl as [E Hl]; split; [done|by rewrite E].
  - intros n [-> |Hn]%elem_of_cons Hne; cbn [fmap list_fmap]; [destruct Hl as [-> _]; by left|right; auto].
Qed.

End listing.

(** ** Directories that are listed *)

Lemma childDir_below dir name rest :
  bz 47 ∉ to_bytes name → childDir dir (dir ++ "/" ++ name ++ "/" ++ rest) = Some name.
Proof.
  intros Hn. unfold childDir, inDir, Strings.has_prefix.
  assert (to_bytes (dir ++ "/" ++ name ++ "/" ++ rest) = to_bytes (dir ++ "/") ++ to_bytes name ++ bz 47 :: to_bytes rest)
    as E by (by rewrite !to_bytes_append, <- !app_assoc).
  rewrite E. rewrite <- length_to_bytes, take_app_length, bool_decide_eq_true_2 by done.
  replace (String.length dir + 1)%nat with (length (to_bytes (dir ++ "/")))
    by (rewrite to_bytes_append, length_app, length_to_bytes; done).
  rewrite drop_app_length, split_bytes_cut by done.
  destruct (Strings.split_bytes (bz 47) (to_bytes rest)) as [|f fs] eqn:Hs; [|by rewrite to_string_bytes].
  destruct (to_bytes rest); cbn in Hs; repeat case_match; done.
Qed.

Lemma dirNames_below dir name rest fs :
  bz 47 ∉ to_bytes name → is_Some (fs !! (dir ++ "/" ++ name ++ "/" ++ rest)%string) → name ∈ dirNames dir fs.
Proof.
  intros Hn [c Hc]. unfold dirNames. rewrite merge_sort_Permutation. apply elem_of_remove_dups, list_elem_of_omap.
  exists ((dir ++ "/" ++ name ++ "/" ++ rest)%string, c). rewrite elem_of_map_to_list. split; [done|].
  by apply childDir_below.
Qed.

Lemma occupied_false path fs :
  occupied path fs = false → ∀ q, q = path ∨ inDir path q = true → fs !! q = None.
Proof.
  intros Ho q Hq. destruct (fs !! q) as [c|] eqn:Hc; [|done]. exfalso. apply not_true_iff_false in Ho. apply Ho.
  apply existsb_exists. exists (q, c). split; [by apply list_elem_of_In, elem_of_map_to_list|]. cbn.
  destruct Hq as [-> | ->]; [by rewrite bool_decide_eq_true_2|apply orb_true_r].
Qed.

Lemma inDir_app dir rest : inDir dir (dir ++ "/" ++ rest) = true.
Proof.
  unfold inDir, Strings.has_prefix. apply bool_decide_eq_true. rewrite <- length_to_bytes.
  replace (dir ++ "/" ++ rest)%string with ((dir ++ "/") ++ rest)%string
    by (apply to_bytes_inj; by rewrite !to_bytes_append, <- !app_assoc).
  by rewrite (to_bytes_append (dir ++ "/")), take_app_length.
Qed.

Section owners.
Context (H : hostEnv) (Root : string) (fs : gmap string bytes).
Hypothesis Hh : honest H.
Hypothesis Hroot : clean_root Root.

Lemma claims_listed name p : claims Root fs name p → name ∈ entryNames Root fs.
Proof using Hroot.
  intros (Hn & _ & c & r & Hc & _). unfold entryNames. rewrite merge_sort_Permutation. apply elem_of_app. left.
  rewrite reservationPath_eq in Hc by done. eapply dirNames_below; [apply Hn|]. by eexists.
Qed.

(** The routes that are listed, and what they hold. *)
Definition routes_read (ls : list ListedRoute) : Prop :=
  (∀ l, l ∈ ls → listed_as Root fs (l_RouteID l) l) ∧
  ∀ name p, claims Root fs name p → name ∈ l_RouteID <$> ls.

Lemma reads_List : reads fs (Routes.List H Root) (λ r, match r with Ok ls => routes_read ls | Err _ => True end).
Proof using Hh Hroot.
  unfold Routes.List.
  eapply (reads_try _ _ _ (λ r, match r with Ok es => es.*1 = entryNames Root fs | Err e => IsNotExist e = false end)).
  { unfold ReadEntries. eapply (reads_bind _ _ _ (λ _, True)).
    { eapply reads_weaken; [by apply reads_sys|]. by intros []. }
    intros _ _. eapply (reads_bind _ _ _ (λ f, f = fs)); [by intros w <-|]. intros ? ->.
    apply reads_ret. rewrite <- list_fmap_compose. apply list_fmap_id. }
  intros [es|e] He; [|by rewrite He; apply reads_fail].
  eapply reads_weaken; [by apply reads_listRoutes|]. intros [ls|e] HQ; [|done]. destruct HQ as [H1 H2]. split; [done|].
  intros name p Hc. apply H2; [rewrite He; by eapply claims_listed|]. by destruct Hc as (_ & ? & _).
Qed.

Lemma reads_portOwner p ls :
  reads fs (portOwner H Root p ls) (λ r, match r with
    | Ok None => ∀ name, name ∈ l_RouteID <$> ls → ¬ claims Root fs name p
    | Ok (Some o) => ∃ l, l ∈ ls ∧ l_RouteID l = o ∧
                     (is_Some (fs !! reservationPath Root o) ∨ l_Listen l ≠ ""%string)
    | Err _ => True
    end).
Proof using Hh.
  induction ls as [|l ls IH]; cbn [portOwner].
  { apply reads_ret. by intros name Hn%elem_of_nil. }
  assert (reads fs (portOwner H Root p ls) (λ r, match r with
    | Ok None => ¬ claims Root fs (l_RouteID l) p → ∀ name, name ∈ l_RouteID <$> l :: ls → ¬ claims Root fs name p
    | Ok (Some o) => ∃ l', l' ∈ l :: ls ∧ l_RouteID l' = o ∧
                     (is_Some (fs !! reservationPath Root o) ∨ l_Listen l' ≠ ""%string)
    | Err _ => True
    end)) as IH'.
  { eapply reads_weaken; [exact IH|]. intros [[o|]|e]; [|intros HQ Hl name [-> |Hn]%elem_of_cons; auto|done].
    intros (l' & Hl' & Ho). exists l'. split; [by right|done]. }
  eapply reads_try; [by apply reads_loadReservation|]. intros [v|e] Hv.
  - destruct Hv as (c & Hc & Hv). destruct (Z.eqb_spec (v_ListenPort v) p) as [Hp|Hp].
    + apply reads_ret. exists l. split_and!; [by left|done|left; by eexists].
    + eapply reads_weaken; [exact IH'|]. intros [[o|]|e] HQ; [done| |done]. apply HQ.
      intros (_ & _ & c' & v' & Hc' & Hv' & Hp'). congruence.
  - destruct (IsNotExist e) eqn:He; [|by apply reads_fail]. specialize (Hv eq_refl). destruct (_ && _) eqn:Hand.
    + apply reads_ret. exists l. split_and!; [by left|done|]. right.
      apply andb_true_iff in Hand as [Hne _]. by apply negb_true_iff, bool_decide_eq_false in Hne.
    + eapply reads_weaken; [exact IH'|]. intros [[o|]|e'] HQ; [done| |done]. apply HQ.
      intros (_ & _ & c' & v' & Hc' & _). congruence.
Qed.

(** The answer of [PortOwner]: no claim of the port, or a route that has a
    reservation or a receipt. *)
Lemma reads_PortOwner p :
  reads fs (PortOwner H Root p) (λ r, match r with
    | Ok None => ∀ name, ¬ claims Root fs name p
    | Ok (Some o) => is_Some (fs !! reservationPath Root o) ∨ is_Some (fs !! fileOf Root o "receipt.json")
    | Err _ => True
    end).
Proof using Hh Hroot.
  unfold PortOwner. eapply (reads_bind _ _ _ routes_read).
  { eapply reads_weaken; [apply reads_List|]. by intros []. }
  intros ls [H1 H2]. eapply reads_weaken; [apply reads_portOwner|]. intros [[o|]|e]; [| |done].
  - intros (l & Hl & <- & [Hr|Hr]); [by left|]. right. by apply (H1 l Hl).
  - intros HQ name Hc. by apply (HQ name); [eapply H2|].
Qed.

End owners.

(** ** The reservation document *)

Lemma strictJSON_printed {A} (fields : list (field A)) zero m a :
  wf 0 (JObj m) → StrictJson.names_ok false 1 (JObj m) = true → decode_members true fields m zero = Ok a →
  (length (print (JObj m)) < Z.to_nat maxRouteDocumentBytes)%nat →
  strictJSON fields zero (print (JObj m) ++ [bz 10]) = Ok a.
Proof.
  intros Hw Hn Hd Hl. unfold strictJSON. rewrite (decode_printed fields zero m [bz 10] a) by auto.
  assert (1 ≤ blen (print (JObj m) ++ [bz 10]) ≤ maxRouteDocumentBytes) as Hb.
  { unfold blen. rewrite length_app. cbn [length]. revert Hl. generalize (length (print (JObj m))).
    change maxRouteDocumentBytes with 16384. lia. }
  destruct (Z.eqb_spec (blen (print (JObj m) ++ [bz 10])) 0); [lia|].
  by destruct (Z.ltb_spec maxRouteDocumentBytes (blen (print (JObj m) ++ [bz 10]))); [lia|].
Qed.

Lemma route_id_ascii routeID : route_id routeID → ascii routeID ∧ (String.length routeID ≤ 64)%nat.
Proof.
  intros Hid. pose proof (route_id_chars _ Hid) as Hc. destruct Hid as (c & b & Hb & Hl & _). split.
  - eapply List.Forall_impl; [|exact Hc]. unfold route_char. intros; lia.
  - rewrite <- length_to_bytes, Hb. cbn. lia.
Qed.

Definition newReservation (routeID : string) (p : Z) : Reservation :=
  mkReservation KindReservation CurrentSchemaVersion routeID p.
Definition reservationText (r : Reservation) : bytes :=
  match reservationJSON r with Ok v => print v ++ [bz 10] | Err _ => [] end.

Lemma reservation_codec routeID p :
  route_id routeID → 0 ≤ p < 2 ^ 16 →
  reservationOf (reservationText (newReservation routeID p)) = Ok (newReservation routeID p).
Proof.
  intros [Ha Hl]%route_id_ascii Hp. unfold reservationOf, reservationText, reservationJSON, newReservation.
  cbn [v_Kind v_SchemaVersion v_RouteID v_ListenPort].
  set (m := [("kind", JStr KindReservation); ("schema_version", JInt CurrentSchemaVersion);
             ("route_id", JStr routeID); ("listen_port", JInt p)]%string).
  rewrite (strictJSON_printed reservationFields zeroReservation m (mkReservation KindReservation CurrentSchemaVersion routeID p)).
  - done.
  - apply wf_obj; [done|]. unfold m.
    repeat (constructor; [split; [by apply ascii_forallb|]|]); [by apply ascii_forallb|by apply wf_JInt|done|apply wf_JInt; lia|constructor].
  - done.
  - unfold m. erewrite (decode_member reservationFields (string_field set_v_Kind)) by reflexivity.
    erewrite (decode_member reservationFields (int_field set_v_SchemaVersion)); [|reflexivity|by apply int_field_JInt].
    erewrite (decode_member reservationFields (string_field set_v_RouteID)) by reflexivity.
    erewrite (decode_member reservationFields (ClientStore.uint_field 16 set_v_ListenPort));
      [|reflexivity|apply uint_field_JInt; lia].
    done.
  - pose proof (length_print_obj m) as Hm. unfold m in Hm. cbn [foldr fst snd] in Hm.
    pose proof (length_JInt CurrentSchemaVersion). pose proof (length_JInt p).
    pose proof (length_print_string routeID Ha) as Hs.
    change (print (JStr routeID)) with (print_string routeID) in Hm.
    change (length (print_string "kind")) with 6%nat in Hm.
    change (length (print_string "schema_version")) with 16%nat in Hm.
    change (length (print_string "route_id")) with 10%nat in Hm.
    change (length (print_string "listen_port")) with 13%nat in Hm.
    change (length (print (JStr KindReservation))) with 29%nat in Hm. fold m in Hm.
    change (Z.to_nat maxRouteDocumentBytes) with (Z.to_nat 16384). lia.
Qed.

(** ** Claiming a port *)

Section claim.
Context (H : hostEnv) (Root : string).
Hypothesis Hh : honest H.
Hypothesis Hroot : clean_root Root.

(** A route that was just reserved is empty. *)
Lemma Reserve_fresh routeID fs0 :
  htriple (λ fs, fs = fs0) (Reserve H Root routeID) (λ r fs,
    r = Ok () → route_id routeID ∧ fs !! reservationPath Root routeID = None ∧
                fs !! fileOf Root routeID "receipt.json" = None).
Proof using Hroot.
  unfold Reserve.
  destruct (routeDir Root routeID) as [d|e] eqn:Hd; [|by intros w Hw].
  apply routeDir_Ok in Hd as [Hid ->]; [|done]. destruct (route_id_plain _ Hid) as [Hn _].
  change (hlift (Ok (Root ++ "/" ++ routeID)%string) ≫= ?f) with (f (Root ++ "/" ++ routeID)%string). cbv beta.
  eapply (htriple_bind _ _ (λ _ fs, fs = fs0)); [apply htriple_sys; by intros [] fs|]. intros _.
  eapply (htriple_bind _ _ (λ r fs, r = Ok () → fs !! reservationPath Root routeID = None ∧
                                     fs !! fileOf Root routeID "receipt.json" = None)).
  - apply htriple_try. unfold Mkdir. eapply (htriple_bind _ _ (λ _ fs, fs = fs0)); [apply htriple_sys; by intros [] fs|].
    intros _ w Hw. unfold get_files, mbind, HM_bind. cbn [files]. rewrite Hw. destruct (isFile _ _ || _) eqn:Ho; [done|].
    intros _. apply orb_false_iff in Ho as [_ Ho]. pose proof (occupied_false _ _ Ho) as Hnone. cbn [files].
    assert (∀ file, plain_name file → <[dirMark (Root ++ "/" ++ routeID) := []]> fs0 !! fileOf Root routeID file = None) as Hf.
    { intros file Hfile. rewrite fileOf_eq by done.
      assert (Root ++ "/" ++ routeID ++ "/" ++ file = (Root ++ "/" ++ routeID) ++ "/" ++ file)%string as ->
        by (apply to_bytes_inj; by rewrite !to_bytes_append, <- !app_assoc).
      rewrite lookup_insert_ne; [apply Hnone; right; apply inDir_app|]. unfold dirMark.
      intros E%app_string_inv%(app_string_inv "/" "" _). by destruct Hfile as [? _]. }
    cbn [set_files snd files]. rewrite Hw. split; apply Hf; plain.
  - intros [[]|e].
    + apply htriple_sys. intros r fs HR Hr. split; [done|]. by apply HR.
    + destruct (isExist e); [by apply htriple_lift|by apply htriple_fail].
Qed.

Lemma alreadyReserved_spec routeID p fs :
  reads fs (alreadyReserved H Root routeID p) (λ r, r = Ok true → route_id routeID → claims Root fs routeID p).
Proof using Hh.
  unfold alreadyReserved. eapply reads_try; [by apply reads_loadReservation|]. intros [v|e] Hv; apply reads_ret; [|done].
  intros [= Hb] Hid. apply andb_true_iff in Hb as [_ Hp%Z.eqb_eq]. destruct (route_id_plain _ Hid).
  split_and!; [done|done|]. destruct Hv as (c & Hc & Hv). eauto.
Qed.

(** Writing the reservation of a port nobody holds. *)
Lemma write_claim routeID p fs0 :
  route_id routeID → 0 ≤ p < 2 ^ 16 → exclusive Root fs0 → (∀ name, ¬ claims Root fs0 name p) →
  htriple (λ fs, fs = fs0)
    (writeJSONAtomic H (reservationPath Root routeID) (reservationJSON (newReservation routeID p)))
    (λ r fs, exclusive Root fs ∧ (r = Ok () → claims Root fs routeID p)).
Proof using Hroot.
  intros Hid Hp Hex Hfree. destruct (route_id_plain _ Hid) as [Hn Hlock].
  assert (∀ n, harmless Root (tempName H (reservationPath Root routeID) ".wt-route-" n)) as Ht
    by (intros n; apply harmless_temp; [done..|apply reservation_plain]).
  unfold writeJSONAtomic. eapply htriple_weaken; [apply (replaceFile_replaced H _ _
    (reservationText (newReservation routeID p)) fs0)| |].
  { intros n _. intros E. by apply (Ht n routeID Hn). }
  { intros fs. repeat (apply bind_keeps; [apply sys_keeps|intros _]). apply sys_keeps. }
  { done. }
  pose proof (reservation_codec routeID p Hid Hp) as Hcodec.
  intros r fs (Hold & Hok & Hother).
  assert (∀ name q, claims Root fs name q → claims Root fs0 name q ∨ name = routeID ∧ q = p) as Hnew.
  { intros name q (Hm & Hl & c & v & Hc & Hv & Hq). destruct (decide (name = routeID)) as [-> |Hne].
    - destruct Hold as [E|E]; rewrite E in Hc; [left; split_and!; [done|done|by exists c, v]|].
      injection Hc as <-. rewrite Hcodec in Hv. right. by injection Hv as <-.
    - left. split_and!; [done|done|]. exists c, v. split; [|done].
      destruct (Hother (reservationPath Root name)) as [E|[_ [n E]]]; [|by rewrite <- E|].
      + rewrite !reservationPath_eq by done. intros [E _]%below_route; [done|apply Hm|apply Hn].
      + exfalso. by apply (Ht n name Hm). }
  split.
  - intros a b q Ha Hb. apply Hnew in Ha, Hb.
    destruct Ha as [Ha|[-> ->]], Hb as [Hb|[-> Eq]]; [by eapply Hex|subst; by destruct (Hfree a)|by destruct (Hfree b)|done].
  - intros ->. split_and!; [done|done|]. exists (reservationText (newReservation routeID p)), (newReservation routeID p).
    by rewrite (Hok eq_refl).
Qed.

(** [reservePortLocked] keeps the ports exclusive, and on success the route
    holds the port. *)
Lemma reservePortLocked_spec routeID p :
  0 ≤ p < 2 ^ 16 →
  htriple (exclusive Root) (reservePortLocked H Root routeID p)
    (λ r fs, exclusive Root fs ∧ (is_ok r = true → route_id routeID → claims Root fs routeID p)).
Proof using Hh Hroot.
  intros Hp. unfold reservePortLocked. set (Q := λ (r : result bool) fs, exclusive Root fs ∧ _).
  assert (∀ e fs, exclusive Root fs → Q (Err e) fs) as Herr by (intros e fs Hf; by split).
  destruct (p =? 0); [by apply htriple_lift; auto|].
  assert (∀ f, (htriple (exclusive Root) f Q) →
    htriple (exclusive Root) (present ← alreadyReserved H Root routeID p; if present : bool then mret false else f) Q) as Hpresent.
  { intros f Hf w Hw. refine (htriple_bind (λ fs, fs = files w) _ (λ b fs, fs = files w ∧
      (b = true → route_id routeID → claims Root (files w) routeID p)) _ _ _ _ w eq_refl).
    - eapply htriple_weaken; [apply (alreadyReserved_spec routeID p (files w))|done|].
      intros [[]|e] fs [-> Hc]; [by split; [|intros _; apply Hc]|done|by apply Herr].
    - intros [] w' [Hw' Hc]; [|apply Hf; by rewrite Hw']. split; cbn [mret HM_ret snd]; rewrite Hw'; [done|auto]. }
  apply Hpresent. intros w Hw. refine (htriple_bind (λ fs, fs = files w) _ (λ r fs, exclusive Root fs ∧ (r = Ok () →
     route_id routeID ∧ fs !! reservationPath Root routeID = None ∧ fs !! fileOf Root routeID "receipt.json" = None))
     _ _ _ _ w eq_refl).
  { apply htriple_try. intros w' Hw'. split; [|by apply (Reserve_fresh routeID (files w))].
    eapply exclusive_fewer; [apply (fewer_Reserve H Root Hroot routeID)|]. by rewrite Hw'. }
  clear w Hw. intros [[]|e].
  2:{ eapply htriple_weaken; [apply (Hpresent (hfail e)); by apply htriple_fail, Herr|by intros fs [? _]|done]. }
  intros w [Hw Hfresh]. destruct (Hfresh eq_refl) as (Hid & Hres & Hrec).
  refine (htriple_bind (λ fs, fs = files w) _ (λ o fs, fs = files w ∧ match o with
    | None => ∀ name, ¬ claims Root (files w) name p
    | Some o => is_Some (files w !! reservationPath Root o) ∨ is_Some (files w !! fileOf Root o "receipt.json")
    end) _ _ _ _ w eq_refl).
  { eapply htriple_weaken; [apply (reads_PortOwner H Root (files w) Hh Hroot p)|done|].
    intros [[o|]|e] fs [-> Ho]; [done|done|by apply Herr]. }
  intros [o|].
  - unfold eqs. case_bool_decide as Ho; cbn [negb].
    + subst o. intros w' [_ Ho]. exfalso. rewrite Hres, Hrec in Ho. by destruct Ho as [[? ?]|[? ?]].
    + eapply (htriple_bind _ _ (λ _, exclusive Root)); [|intros _; apply htriple_lift, Herr].
      apply htriple_try. intros w' [Hw' _]. eapply exclusive_fewer; [apply fewer_RemoveTree|]. by rewrite Hw'.
  - intros w' [Hw' Hfree].
    refine (htriple_bind (λ fs, fs = files w) _ (λ _ fs, exclusive Root fs ∧ claims Root fs routeID p) _ _ _ _ w' Hw').
    + eapply htriple_weaken; [apply (write_claim routeID p (files w) Hid Hp Hw Hfree)|done|].
      intros [[]|e] fs [Hf Hc]; [by split; [|apply Hc]|by apply Herr].
    + intros _. apply htriple_ret. intros fs [Hf Hc]. by split.
Qed.

End claim.
