(* ===== verification/RouteSafety.v ===== *)
(** * The route store at work

    The operations of the store in any order: the ports stay exclusive, and a
    reservation that is reported holds.  Documents survive their JSON form. *)

From S2P Require Import Prelude GoStd Json StrictJson Time Text Host Locator Grant GrantProps SshWire Crypto Packet.
From S2P Require Import Kex Listen ClientStore ClientCodec Server Clients ClientProps AuthorizedKeys GrantSession.
From S2P Require Import ServerProps SessionProps Reconcile Frame Layout Invite Accept InviteClient InviteProps Enroll.
From S2P Require Import EnrollProps Routes RouteProps.
Import Time Json Locator.
Import Routes.

Section locked.
Context (H : hostEnv) (Root : string).
Hypothesis Hroot : clean_root Root.

Lemma lockRoot_rule {A} (body : HM A) (Q : result A → gmap string bytes → Prop) :
  htriple (exclusive Root) body Q → (∀ e fs, exclusive Root fs → Q (Err e) fs) →
  htriple (exclusive Root) (lockRoot H Root body) Q.
Proof using Hroot.
  intros Hb He. unfold lockRoot.
  eapply (htriple_bind _ _ (λ _, exclusive Root)); [apply htriple_sys; intros []; auto|]. intros _.
  eapply (htriple_bind _ _ (λ _, exclusive Root)).
  { intros w Hw. destruct (OpenCreate H _ w) as [r w'] eqn:Ho. cbn [fst snd].
    assert (exclusive Root (files w')) as Hw'.
    { change w' with (r, w').2. rewrite <- Ho. eapply exclusive_fewer; [|exact Hw].
      apply within_fewer, moves_OpenCreate; [apply _|]. intros fs _. by apply outside_insert, harmless_lock. }
    destruct r; auto. }
  intros _. eapply (htriple_bind _ _ (λ _, exclusive Root)); [apply htriple_try, htriple_sys; auto|].
  intros [?|e].
  - eapply (htriple_deferred _ _ _ Q); [exact Hb|]. intros res.
    eapply (htriple_bind _ _ (λ _, Q res)); [apply htriple_try, htriple_sys; auto|]. intros _. apply htriple_sys. auto.
  - eapply (htriple_bind _ _ (λ _, exclusive Root)); [apply htriple_try, htriple_sys; auto|].
    intros _. apply htriple_fail. auto.
Qed.

Lemma within_claims {A} (m : HM A) name p :
  within (harmless Root) m →
  htriple (λ fs, exclusive Root fs ∧ claims Root fs name p) m (λ _ fs, exclusive Root fs ∧ claims Root fs name p).
Proof using.
  intros Hm w [He Hc]. split; [eapply exclusive_fewer; [by apply within_fewer|done]|].
  destruct Hc as (Hn & Hl & c & r & Hc & Hr). split_and!; [done|done|]. exists c, r. split; [|done].
  rewrite <- Hc. apply Hm. intros Hh. by apply (Hh name Hn).
Qed.

Hypothesis Hh : honest H.

Lemma ReservePort_spec routeID p :
  0 ≤ p < 2 ^ 16 →
  htriple (exclusive Root) (ReservePort H Root routeID p)
    (λ r fs, exclusive Root fs ∧ (is_ok r = true → route_id routeID → claims Root fs routeID p)).
Proof using Hroot Hh.
  intros Hp. apply lockRoot_rule; [|by intros e fs Hf].
  eapply (htriple_bind _ _ (λ _ fs, exclusive Root fs ∧ (route_id routeID → claims Root fs routeID p))).
  - eapply htriple_weaken; [by apply reservePortLocked_spec|done|]. intros [b|e] fs [Hf Hc]; (split; [done|]); [|done].
    by apply Hc.
  - intros b. apply htriple_ret. intros fs [Hf Hc]. by split.
Qed.

Lemma ReserveAndWrite_spec t :
  0 ≤ t_ListenPort t < 2 ^ 16 →
  htriple (exclusive Root) (ReserveAndWriteTransaction H Root t)
    (λ r fs, exclusive Root fs ∧ (is_ok r = true → claims Root fs (t_RouteID t) (t_ListenPort t))).
Proof using Hroot Hh.
  intros Hp. unfold ReserveAndWriteTransaction.
  set (Q := λ (r : result ()) fs, exclusive Root fs ∧ _).
  assert (∀ e fs, exclusive Root fs → Q (Err e) fs) as Herr by (intros e fs Hf; by split).
  destruct (negb _); [by apply htriple_lift, Herr|].
  destruct (ValidateRouteID (t_RouteID t)) as [[]|e] eqn:Hid; [|by apply htriple_lift, Herr].
  apply ValidateRouteID_iff in Hid. change (hlift (Ok ()) ≫= ?f) with (f ()). cbv beta.
  destruct (validateTransactionPhase _) as [[]|e]; [|by apply htriple_lift, Herr].
  change (hlift (Ok ()) ≫= ?f) with (f ()). cbv beta. apply lockRoot_rule; [|done].
  assert (∀ {A} (m : HM A), (∀ R, PreOrder R → moves R m) →
    htriple (exclusive Root) m (λ _, exclusive Root)) as Hkeep.
  { intros A m Hm w Hw. by rewrite <- (Hm eq _ w). }
  eapply (htriple_bind _ _ (λ _, exclusive Root)).
  { apply htriple_try, Hkeep. intros R HR. unfold LoadTransaction, readStrictJSON, ReadIn. frame. }
  intros loaded. eapply (htriple_bind _ _ (λ _, exclusive Root)).
  { eapply htriple_weaken; [apply Hkeep|done|by intros []; auto]. intros R HR. unfold checkReserved. frame. }
  intros _. eapply (htriple_bind _ _ (λ _ fs, exclusive Root fs ∧ claims Root fs (t_RouteID t) (t_ListenPort t))).
  { eapply htriple_weaken; [by apply reservePortLocked_spec|done|]. intros [b|e] fs [Hf Hc]; [|by apply Herr].
    split; [done|]. by apply Hc. }
  intros created. eapply (htriple_bind _ _ (λ _ fs, exclusive Root fs ∧ claims Root fs (t_RouteID t) (t_ListenPort t))).
  { apply htriple_try, within_claims. by apply within_WriteTransaction. }
  intros [[]|e]; [by apply htriple_ret; intros fs [? ?]|].
  destruct created; [|apply htriple_fail; intros fs [? _]; by apply Herr].
  eapply (htriple_bind _ _ (λ _, exclusive Root)); [|intros _; by apply htriple_fail, Herr].
  apply htriple_try. intros w [Hw _]. eapply exclusive_fewer; [apply fewer_RemoveTree|done].
Qed.

End locked.

(** ** Any sequence of operations *)

Inductive routeOp :=
| OpReserve (routeID : string)
| OpReservePort (routeID : string) (listenPort : Z)
| OpReserveTransaction (t : Transaction)
| OpWriteTransaction (t : Transaction)
| OpWriteIntent (intent : Intent)
| OpWriteReceipt (receipt : Receipt)
| OpActivate (routeID generation : string)
| OpRemove (routeID : string).

Definition runOp (H : hostEnv) (Root : string) (op : routeOp) : HM () :=
  match op with
  | OpReserve routeID => Reserve H Root routeID
  | OpReservePort routeID listenPort => ReservePort H Root routeID listenPort
  | OpReserveTransaction t => ReserveAndWriteTransaction H Root t
  | OpWriteTransaction t => WriteTransaction H Root t
  | OpWriteIntent intent => WriteIntent H Root intent
  | OpWriteReceipt receipt => WriteReceipt H Root receipt
  | OpActivate routeID generation => Activate H Root routeID generation
  | OpRemove routeID => Routes.Remove H Root routeID
  end.

(** Each operation runs to its end, whether it succeeds or not. *)
Fixpoint runOps (H : hostEnv) (Root : string) (ops : list routeOp) (w : world) : world :=
  match ops with
  | [] => w
  | op :: ops => runOps H Root ops (runOp H Root op w).2
  end.

(** The ports of an operation are 16-bit numbers. *)
Definition wf_op (op : routeOp) : Prop :=
  match op with
  | OpReservePort _ p => 0 ≤ p < 2 ^ 16
  | OpReserveTransaction t => 0 ≤ t_ListenPort t < 2 ^ 16
  | _ => True
  end.

Lemma runOp_exclusive H Root op w :
  clean_root Root → honest H → wf_op op → exclusive Root (files w) → exclusive Root (files (runOp H Root op w).2).
Proof.
  intros Hroot Hh Hop Hw.
  assert (∀ m : HM (), moves (fewer Root) m → exclusive Root (files (m w).2)) as Hfewer
    by (intros m Hm; eapply exclusive_fewer; [apply Hm|done]).
  destruct op; cbn [runOp wf_op] in *.
  - by apply Hfewer, fewer_Reserve.
  - by apply (ReservePort_spec H Root Hroot Hh).
  - by apply (ReserveAndWrite_spec H Root Hroot Hh).
  - by apply Hfewer, within_fewer, within_WriteTransaction.
  - by apply Hfewer, within_fewer, within_WriteIntent.
  - by apply Hfewer, within_fewer, within_WriteReceipt.
  - by apply Hfewer, within_fewer, within_Activate.
  - by apply Hfewer, fewer_Remove.
Qed.

(** C24: two routes never hold the same listen port.  Whatever sequence of
    reservations, writes, activations and removals runs on a store whose ports
    are exclusive, refused, repeated or interrupted by any failure of a host
    that reports missing files truthfully, they stay exclusive; and a route
    whose reservation is reported to have succeeded holds its port. *)
Theorem ports_exclusive H Root ops t w :
  clean_root Root → honest H → Forall wf_op (ops ++ [OpReserveTransaction t]) → exclusive Root (files w) →
  let w1 := runOps H Root ops w in
  let '(r, w2) := ReserveAndWriteTransaction H Root t w1 in
  exclusive Root (files w1) ∧ exclusive Root (files w2) ∧
  (r = Ok () → claims Root (files w2) (t_RouteID t) (t_ListenPort t)).
Proof.
  intros Hroot Hh [Hops Ht]%Forall_app Hw w1.
  assert (exclusive Root (files w1)) as H1.
  { clear Ht. revert w Hw w1. induction Hops as [|op ops Hop _ IH]; intros w Hw; [done|]. by apply IH, runOp_exclusive. }
  apply List.Forall_cons_iff in Ht as [Ht _].
  pose proof (ReserveAndWrite_spec H Root Hroot Hh t Ht w1 H1) as [H2 H3].
  destruct (ReserveAndWriteTransaction H Root t w1) as [r w2]. split_and!; [done|done|]. intros ->. by apply H3.
Qed.
