(* ===== verification/RouteCodec.v ===== *)
(** * Route documents survive their JSON form

    What the store writes is what it reads: desired states, receipts and
    transactions are read back as they were written, or refused when their text
    is larger than the reader allows. *)

From S2P Require Import Prelude GoStd Json StrictJson Time Text Host Locator Grant GrantProps SshWire Crypto Packet.
From S2P Require Import Kex Listen ClientStore ClientCodec Server Clients ClientProps AuthorizedKeys GrantSession.
From S2P Require Import ServerProps SessionProps Reconcile Frame Layout Invite Accept InviteClient InviteProps Enroll.
From S2P Require Import EnrollProps Routes RouteProps.
Import Time Json Locator ClientStore.
Import Routes.

(** ** Decoding *)

(** What the strict decoder accepts the lenient one reads alike. *)
Lemma decode_lenient {A} (fs : list (field A)) v a a' : decode true fs v a = Ok a' → decode false fs v a = Ok a'.
Proof.
  destruct v as [| | | | |m]; try done. cbn [decode]. revert a. induction m as [|[k v] m IH]; intros a; [done|].
  cbn [decode_members]. destruct (select fs k) as [store|]; [|done]. destruct (store v a) as [a1|e]; [|done]. apply IH.
Qed.

(** Whether the reader takes a text of this size. *)
Definition fits (text : bytes) : bool := (0 <? blen text) && (blen text <=? maxRouteDocumentBytes).

Lemma strictJSON_text {A} (fields : list (field A)) zero m a :
  wf 0 (JObj m) → StrictJson.names_ok false 1 (JObj m) = true → decode_members true fields m zero = Ok a →
  strictJSON fields zero (print (JObj m) ++ [bz 10])
    = if fits (print (JObj m) ++ [bz 10]) then Ok a else bad "route document is empty or oversized".
Proof.
  intros Hw Hn Hd. unfold strictJSON, fits. rewrite (decode_printed fields zero m [bz 10] a) by auto.
  set (n := blen _). assert (0 ≤ n) by apply blen_nonneg.
  destruct (Z.eqb_spec n 0), (Z.ltb_spec 0 n), (Z.ltb_spec maxRouteDocumentBytes n), (Z.leb_spec n maxRouteDocumentBytes);
    try lia; reflexivity.
Qed.

(** Compute the record that is being decoded into. *)
Ltac settle :=
  match goal with |- decode_members _ _ _ ?a = _ =>
    let a1 := eval hnf in a in let a2 := eval cbn in a1 in change a with a2 end.
(** Members of an object, one by one. *)
Ltac members :=
  repeat first
    [ rewrite decode_members_app; erewrite decode_omit by reflexivity; cbn [mbind result_bind]; settle
    | erewrite decode_member; [|reflexivity|
        first [reflexivity | apply int_field_JInt; lia | apply uint_field_JInt; lia]]; settle
    | reflexivity ].

Lemma decode_omitzero {A} (fs : list (field A)) name bits n set a :
  select fs name = Some (uint_field bits set) → set 0 a = a → 0 ≤ n < 2 ^ bits → n < 2 ^ 63 →
  decode_members true fs (omitzero name n) a = Ok (set n a).
Proof.
  intros Hs H0 Hn Hb. unfold omitzero. destruct (Z.eqb_spec n 0) as [-> |]; [by rewrite H0|].
  cbn [decode_members]. rewrite Hs. by rewrite uint_field_JInt.
Qed.

Lemma omitempty_names name v : (omitempty name v).*1 `sublist_of` [name].
Proof. destruct (omit_names name v) as [-> | ->]; [apply sublist_nil_l|done]. Qed.
Lemma omitzero_names name n : (omitzero name n).*1 `sublist_of` [name].
Proof. unfold omitzero. case_match; [apply sublist_nil_l|done]. Qed.

(** Names of an object with optional members are distinct when all are. *)
Ltac distinct :=
  apply bool_decide_eq_true; rewrite !fmap_app; eapply sublist_NoDup; cycle 1;
  [ repeat (apply sublist_app; [first [apply omitempty_names | apply omitzero_names | reflexivity]|]);
    first [apply omitempty_names | apply omitzero_names | reflexivity]
  | apply (bool_decide_eq_true_1 _); vm_compute; reflexivity ].

Lemma names_omitzero d name n : d ≤ StrictJson.maxJSONDepth →
  forallb (λ '(k, x), (negb false || StrictJson.isCanonicalManifestName k) && StrictJson.names_ok false d x)
    (omitzero name n) = true.
Proof. intros Hd. unfold omitzero. case_match; [done|]. cbn. by rewrite (proj2 (Z.leb_le _ _)). Qed.

Lemma wf_omitzero d name n : ascii name → 0 ≤ n < 2 ^ 63 → wf_members d (omitzero name n).
Proof.
  intros Ha Hn. unfold omitzero. case_match; [constructor|]. constructor; [|constructor].
  split; [done|]. apply wf_JInt. lia.
Qed.

Ltac plain_members :=
  repeat (constructor; [split; [by apply ascii_forallb|first [done|by apply wf_JInt; lia|idtac]]|]); try constructor.

Definition transactionTexts (t : Transaction) : list string :=
  [t_Kind t; t_RouteID t; t_Phase t; t_Generation t; t_InviteID t; t_Error t; t_UpdatedAt t].
Definition wf_transaction (t : Transaction) : Prop :=
  Forall ascii (transactionTexts t) ∧ Z.abs (t_SchemaVersion t) < 2 ^ 63 ∧ 0 ≤ t_ListenPort t < 2 ^ 16.

Lemma transaction_codec t :
  wf_transaction t → ∃ v, transactionJSON t = Ok v ∧
    strictJSON transactionFields zeroTransaction (print v ++ [bz 10])
      = if fits (print v ++ [bz 10]) then Ok t else bad "route document is empty or oversized".
Proof.
  intros (Ht & Hv & Hp). unfold transactionTexts in Ht. repeat apply List.Forall_cons_iff in Ht as [? Ht].
  eexists. split; [reflexivity|]. apply strictJSON_text.
  - apply wf_obj; [done|]. repeat (apply Forall_app; split);
      first [apply wf_omit; [by apply ascii_forallb|done]|apply wf_omitzero; [by apply ascii_forallb|lia]|plain_members].
  - cbn [StrictJson.names_ok]. rewrite !andb_true_iff. split_and!; [done|distinct|].
    by rewrite !forallb_app, !names_omit, names_omitzero.
  - destruct t. cbn [t_Kind t_SchemaVersion t_RouteID t_Phase t_ListenPort t_Generation t_InviteID t_Error t_UpdatedAt app] in *.
    members.
    rewrite decode_members_app. erewrite (decode_omitzero transactionFields _ 16); [|reflexivity..|lia|lia].
    cbn [mbind result_bind]. members.
Qed.

Definition intentTexts (i : Intent) : list string :=
  [i_Kind i; i_RouteID i; DesiredState i; RestartPolicy i; BootID i; i_UpdatedAt i].
Definition wf_intent (i : Intent) : Prop := Forall ascii (intentTexts i) ∧ Z.abs (i_SchemaVersion i) < 2 ^ 63.

Lemma intent_codec i :
  wf_intent i → ∃ v, intentJSON i = Ok v ∧
    strictJSON intentFields zeroIntent (print v ++ [bz 10])
      = if fits (print v ++ [bz 10]) then Ok i else bad "route document is empty or oversized".
Proof.
  intros (Ht & Hv). unfold intentTexts in Ht. repeat apply List.Forall_cons_iff in Ht as [? Ht].
  eexists. split; [reflexivity|]. apply strictJSON_text.
  - apply wf_obj; [done|]. repeat (apply Forall_app; split);
      first [apply wf_omit; [by apply ascii_forallb|done]|plain_members].
  - cbn [StrictJson.names_ok]. rewrite !andb_true_iff. split_and!; [done|distinct|].
    by rewrite !forallb_app, !names_omit.
  - destruct i. cbn [i_Kind i_SchemaVersion i_RouteID DesiredState RestartPolicy BootID i_UpdatedAt app] in *. members.
Qed.

Definition receiptTexts (r : Receipt) : list string :=
  [r_InviteID r; r_ClientID r; r_GrantID r; r_RouteID r; r_AcceptedAt r; r_AuthorizationNotAfter r; r_Generation r;
   r_ManagementToken r; r_PublicKey r; r_HostPublicKey r; r_EnrollmentTLSSPKISHA256 r; r_Target r; r_ListenEndpoint r;
   r_Principal r; r_ProfileID r; r_RevokedAt r].
Definition wf_receipt (r : Receipt) : Prop :=
  Forall ascii (receiptTexts r) ∧ wf_endpoint (Data (r_Published r)) ∧ wf_endpoint (Enrollment (r_Published r)) ∧
  0 ≤ ps_Generation (r_Published r) < 2 ^ 63 ∧ Z.abs (r_AuthorizationDurationSeconds r) < 2 ^ 63.

Lemma receipt_codec r :
  wf_receipt r → ∃ v, receiptJSON r = Ok v ∧
    strictJSON receiptFields zeroReceipt (print v ++ [bz 10])
      = if fits (print v ++ [bz 10]) then Ok r else bad "route document is empty or oversized".
Proof.
  intros (Ht & Hd & He & Hg & Hs). unfold receiptTexts in Ht. repeat apply List.Forall_cons_iff in Ht as [? Ht].
  destruct (endpoint_codec _ Hd) as (data & Hdj & Hdw & Hdn & Hdd).
  destruct (endpoint_codec _ He) as (enr & Hej & Hew & Hen & Hed).
  unfold receiptJSON. rewrite Hdj. cbn [mbind result_bind]. rewrite Hej. cbn [mbind result_bind].
  eexists. split; [reflexivity|]. apply strictJSON_text.
  - apply wf_obj; [done|]. repeat (apply Forall_app; split);
      first [apply wf_omit; [by apply ascii_forallb|done]|plain_members]; [by apply Hdw|by apply Hew].
  - cbn [StrictJson.names_ok]. rewrite !andb_true_iff. split_and!; [done|distinct|].
    rewrite !forallb_app, !names_omit by done. cbn [forallb]. by rewrite Hdn, Hen.
  - destruct r as [? ? ? ? ? ? ? ? ? [g d e] ? ? ? ? ? ? ? ?].
    cbn [r_InviteID r_ClientID r_GrantID r_RouteID r_AcceptedAt r_AuthorizationNotAfter r_AuthorizationDurationSeconds
      r_Generation r_ManagementToken r_Published r_PublicKey r_HostPublicKey r_EnrollmentTLSSPKISHA256 r_Target
      r_ListenEndpoint r_Principal r_ProfileID r_RevokedAt ps_Generation Data Enrollment app] in *.
    members.
    erewrite (decode_member receiptFields Routes.data_field); [|reflexivity|unfold Routes.data_field; rewrite Hdd; reflexivity].
    settle. erewrite (decode_member receiptFields Routes.enrollment_field);
      [|reflexivity|unfold Routes.enrollment_field; rewrite Hed; reflexivity].
    settle. cbn [app]. members. by erewrite decode_omit by reflexivity.
Qed.

(** ** Writing and reading back *)

Definition faultless (H : hostEnv) : Prop := ∀ n, h_fault H n = None.

Section documents.
Context (H : hostEnv) (Root : string).
Hypothesis Hroot : clean_root Root.

(** A document of a route that has been written, next to no file with the name
    of the route's directory. *)
Definition written (routeID file : string) (text : bytes) (fs : gmap string bytes) : Prop :=
  fs !! fileOf Root routeID file = Some text ∧ fs !! routeDirOf Root routeID = None.

Lemma dir_not_below name rest : plain_name name → (Root ++ "/" ++ name)%string ≠ ((Root ++ "/" ++ name) ++ "/" ++ rest)%string.
Proof using.
  intros _ E%(f_equal (λ s, length (to_bytes s))). cbv beta in E. rewrite !to_bytes_append, !length_app in E.
  change (length (to_bytes "/")) with 1%nat in E. lia.
Qed.

(** After [MkdirAll] no file has the directory's name. *)
Lemma MkdirAll_dir name :
  plain_name name →
  htriple (λ _, True) (MkdirAll H (Root ++ "/" ++ name)) (λ r fs, r = Ok () → fs !! (Root ++ "/" ++ name)%string = None).
Proof using.
  intros Hn. unfold MkdirAll. eapply (htriple_bind _ _ (λ _ _, True)); [by apply htriple_sys; intros []|]. intros _ w' _.
  unfold get_files, mbind, HM_bind. cbn [files]. unfold isFile. case_bool_decide as Hfile; [done|].
  apply eq_None_not_Some in Hfile. destruct (occupied _ _); [by intros _; exact Hfile|]. intros _.
  cbn [set_files fst snd files]. rewrite lookup_insert_ne; [done|]. unfold dirMark. intros E. symmetry in E. revert E.
  by apply (dir_not_below name "" Hn).
Qed.

(** The replacement of a file in a directory. *)
Lemma replace_in_dir name file prefix text (sync : HM ()) :
  plain_name name → plain_name file → Strings.has_prefix file prefix = false →
  (∀ fs, htriple (λ fs', fs' = fs) sync (λ _ fs', fs' = fs)) →
  htriple (λ fs, fs !! (Root ++ "/" ++ name)%string = None)
    (replaceFile H false (fileOf Root name file) prefix text sync)
    (λ r fs, r = Ok () → fs !! fileOf Root name file = Some text ∧ fs !! (Root ++ "/" ++ name)%string = None).
Proof using Hroot.
  intros Hn Hf Hpre Hsync w Hw.
  assert (∀ n, tempName H (fileOf Root name file) prefix n
             = ((Root ++ "/" ++ name) ++ "/" ++ (prefix ++ h_temp H n))%string) as Htemp
    by (intros n; unfold tempName; by rewrite Dir_fileOf).
  assert (fileOf Root name file = ((Root ++ "/" ++ name) ++ "/" ++ file)%string) as Hpath
    by (rewrite fileOf_eq by done; apply to_bytes_inj; by rewrite !to_bytes_append, <- !app_assoc).
  destruct (replaceFile_replaced H (fileOf Root name file) prefix text (files w)) with false sync w as (_ & Hok & Hother);
    [|done|done|].
  - intros n _. rewrite Htemp, Hpath. intros E%app_string_inv%(app_string_inv "/").
    subst file. unfold Strings.has_prefix in Hpre. apply bool_decide_eq_false in Hpre. apply Hpre.
    by rewrite to_bytes_append, <- length_to_bytes, take_app_length.
  - intros Hr. split; [by apply Hok|].
    destruct (Hother (Root ++ "/" ++ name)%string) as [E|[_ [n E]]].
    + rewrite Hpath. by apply dir_not_below.
    + by rewrite E.
    + exfalso. rewrite Htemp in E. by apply (dir_not_below name _ Hn) in E.
Qed.

Lemma store_document routeID file v (chmod : HM ()) :
  route_id routeID → plain_name file → Strings.has_prefix file ".wt-route-" = false →
  (∀ fs, htriple (λ fs', fs' = fs) chmod (λ _ fs', fs' = fs)) →
  htriple (λ _, True)
    (MkdirAll H (Filepath.Dir (fileOf Root routeID file));; chmod;; writeJSONAtomic H (fileOf Root routeID file) (Ok v))
    (λ r fs, r = Ok () → written routeID file (print v ++ [bz 10]) fs).
Proof using Hroot.
  intros [Hn _]%route_id_plain Hf Hpre Hc. rewrite Dir_fileOf by done. set (dir := (Root ++ "/" ++ routeID)%string).
  eapply (htriple_bind _ _ (λ _ fs, fs !! dir = None)).
  { eapply htriple_weaken; [by apply MkdirAll_dir|done|]. intros [[]|e] fs HQ; [by apply HQ|done]. }
  intros _. eapply (htriple_bind _ _ (λ _ fs, fs !! dir = None)).
  { intros w Hw. rewrite (Hc (files w) w eq_refl). by destruct (chmod w).1. }
  intros _. unfold writeJSONAtomic. change (hlift (Ok v) ≫= ?f) with (f v). cbv beta. unfold written.
  rewrite routeDirOf_eq by done. apply replace_in_dir; [done..|].
  intros fs. repeat (apply bind_keeps; [apply sys_keeps|intros _]). apply sys_keeps.
Qed.

(** Reading it back on a host without faults. *)
Lemma read_document {A} (fields : list (field A)) zero routeID file text H' w :
  faultless H' → written routeID file text (files w) →
  ∃ w', readStrictJSON H' fields zero (routeDirOf Root routeID) (fileOf Root routeID file) w
        = (strictJSON fields zero text, w').
Proof using.
  intros Hfl [Hf Hd]. unfold readStrictJSON, ReadIn, ReadFile, sys, call, get_files, mbind, HM_bind. cbn [files calls].
  unfold isFile. rewrite bool_decide_eq_false_2 by (rewrite Hd; by intros [? ?]). rewrite Hfl. cbn [files calls mret HM_ret].
  rewrite Hf. cbn. eauto.
Qed.

End documents.

Definition documentText (value : result json) : bytes :=
  match value with Ok v => print v ++ [bz 10] | Err _ => [] end.
(** The outcome of reading [a] back from its text. *)
Definition readBack {A} (value : result json) (a : A) : result A :=
  if fits (documentText value) then Ok a else bad "route document is empty or oversized".
(** A transaction as [WriteTransaction] records it at [u]. *)
Definition recorded (u : string) (t : Transaction) : Transaction :=
  set_t_UpdatedAt u (set_t_SchemaVersion CurrentSchemaVersion (set_t_Kind KindTransaction t)).

Section roundtrip.
Context (H H' : hostEnv) (Root : string).
Hypothesis Hroot : clean_root Root.
Hypothesis Hread : faultless H'.

(** The time a document is stamped with. *)
Lemma stamp_spec (old : string) w :
  ascii old → ∃ u w', stamp H old w = (Ok u, w') ∧ ascii u ∧ (old = ""%string ∨ u = old).
Proof using.
  intros Ha. unfold stamp, eqs. case_bool_decide as Ho.
  - unfold now, call, mbind, HM_bind. cbn. eexists _, _. split_and!; [reflexivity|apply formatTime_ascii|by left].
  - exists old, w. by split_and!; [| |right].
Qed.

Lemma desired_plain : plain_name "desired.json".
Proof using. plain. Qed.
Lemma receipt_plain : plain_name "receipt.json".
Proof using. plain. Qed.
Lemma transaction_plain : plain_name "transaction.json".
Proof using. plain. Qed.

(** The directory, possibly a change of its mode, and the document. *)
Lemma stored_document routeID file value (chmod : HM ()) w w' :
  route_id routeID → plain_name file → Strings.has_prefix file ".wt-route-" = false →
  (∀ fs, htriple (λ fs', fs' = fs) chmod (λ _ fs', fs' = fs)) → is_ok value = true →
  (MkdirAll H (Filepath.Dir (fileOf Root routeID file));; chmod;; writeJSONAtomic H (fileOf Root routeID file) value) w
    = (Ok (), w') →
  written Root routeID file (documentText value) (files w').
Proof using Hroot.
  intros Hid Hf Hpre Hc Hv Hrun. destruct value as [v|e]; [|done].
  pose proof (store_document H Root Hroot routeID file v chmod Hid Hf Hpre Hc w I) as Hs. rewrite Hrun in Hs. by apply Hs.
Qed.

Lemma transaction_written t w w' :
  wf_transaction t → WriteTransaction H Root t w = (Ok (), w') →
  ∃ u, (t_UpdatedAt t = ""%string ∨ u = t_UpdatedAt t) ∧ wf_transaction (recorded u t) ∧ route_id (t_RouteID t) ∧
    validateTransactionPhase (t_Phase t) = Ok () ∧
    written Root (t_RouteID t) "transaction.json" (documentText (transactionJSON (recorded u t))) (files w').
Proof using Hroot.
  intros (Ht & _ & Hp) Hrun. unfold transactionTexts in Ht. repeat apply List.Forall_cons_iff in Ht as [? Ht].
  unfold WriteTransaction in Hrun. apply run_checked in Hrun as ([] & Hid & Hrun).
  apply run_checked in Hrun as ([] & Hph & Hrun). apply ValidateRouteID_iff in Hid.
  destruct (stamp_spec (t_UpdatedAt t) w) as (u & w1 & Hs & Hu & Hold); [done|].
  unfold mbind at 1, HM_bind in Hrun. rewrite Hs in Hrun. cbv zeta in Hrun. fold (recorded u t) in Hrun.
  apply run_checked in Hrun as (p & Hpath & Hrun). apply transactionPath_Ok in Hpath as [_ ->]; [|done].
  change (t_RouteID (recorded u t)) with (t_RouteID t) in Hrun. exists u. split; [done|]. split; [|split; [done|split; [done|]]].
  - split; [|done]. unfold transactionTexts. repeat (constructor; [first [done|by apply ascii_forallb]|]). constructor.
  - eapply (stored_document _ _ _ (mret ())); [done|apply transaction_plain|done|by intros fs w0|done|].
    exact Hrun.
Qed.

Lemma intent_written i w w' :
  wf_intent i → WriteIntent H Root i w = (Ok (), w') →
  ∃ u, (i_UpdatedAt i = ""%string ∨ u = i_UpdatedAt i) ∧ wf_intent (set_i_UpdatedAt u i) ∧
    ValidateIntent (set_i_UpdatedAt u i) = Ok () ∧ route_id (i_RouteID i) ∧
    written Root (i_RouteID i) "desired.json" (documentText (intentJSON (set_i_UpdatedAt u i))) (files w').
Proof using Hroot.
  intros (Ht & Hv) Hrun. unfold intentTexts in Ht. repeat apply List.Forall_cons_iff in Ht as [? Ht].
  unfold WriteIntent in Hrun. destruct (stamp_spec (i_UpdatedAt i) w) as (u & w1 & Hs & Hu & Hold); [done|].
  unfold mbind at 1, HM_bind in Hrun. rewrite Hs in Hrun. cbv zeta in Hrun.
  apply run_checked in Hrun as ([] & Hval & Hrun). apply run_checked in Hrun as (p & Hpath & Hrun).
  apply intentPath_Ok in Hpath as [Hid ->]; [|done]. exists u. split; [done|]. split; [|split; [done|split; [done|]]].
  - split; [|done]. unfold intentTexts. repeat (constructor; [done|]). constructor.
  - eapply (stored_document _ _ _ (sys H)); [done|apply desired_plain|done|apply sys_keeps|done|exact Hrun].
Qed.

Lemma receipt_written r w w' :
  wf_receipt r → WriteReceipt H Root r w = (Ok (), w') →
  route_id (r_RouteID r) ∧ written Root (r_RouteID r) "receipt.json" (documentText (receiptJSON r)) (files w').
Proof using Hroot.
  intros Hwf Hrun. unfold WriteReceipt in Hrun. apply run_checked in Hrun as ([] & _ & Hrun).
  apply run_checked in Hrun as (p & Hpath & Hrun). apply receiptPath_Ok in Hpath as [Hid ->]; [|done]. split; [done|].
  destruct (receipt_codec r Hwf) as (v & Hv & _).
  eapply (stored_document _ _ _ (sys H)); [done|apply receipt_plain|done|apply sys_keeps|by rewrite Hv|exact Hrun].
Qed.

Lemma route_id_nonempty routeID : route_id routeID → eqs routeID "" = false.
Proof using. intros (c & b & Hb & _). apply bool_decide_eq_false. intros ->. done. Qed.

Lemma LoadTransaction_written t w :
  wf_transaction t → t_Kind t = KindTransaction → t_SchemaVersion t = CurrentSchemaVersion → route_id (t_RouteID t) →
  validateTransactionPhase (t_Phase t) = Ok () →
  written Root (t_RouteID t) "transaction.json" (documentText (transactionJSON t)) (files w) →
  (LoadTransaction H' Root (t_RouteID t) w).1 = readBack (transactionJSON t) t.
Proof using Hread.
  intros Hwf Hk Hs Hid Hph Hw. destruct (transaction_codec t Hwf) as (v & Hv & Hc). unfold LoadTransaction, transactionPath.
  rewrite (proj2 (ValidateRouteID_iff _) Hid). cbn [mbind result_bind]. change (hlift (Ok ?p) ≫= ?f) with (f p). cbv beta.
  destruct (read_document Root transactionFields zeroTransaction _ _ _ H' w Hread Hw) as [w' Hr].
  unfold mbind at 1, HM_bind. rewrite Hr. unfold readBack, documentText in *. rewrite Hv in *. rewrite Hc.
  destruct (fits _); [|done]. unfold eqs. rewrite Hk, Hs, Hph. cbn [negb orb]. by rewrite !bool_decide_eq_true_2.
Qed.

Lemma LoadIntent_written i w :
  wf_intent i → ValidateIntent i = Ok () → route_id (i_RouteID i) →
  written Root (i_RouteID i) "desired.json" (documentText (intentJSON i)) (files w) →
  (LoadIntent H' Root (i_RouteID i) w).1 = readBack (intentJSON i) i.
Proof using Hread.
  intros Hwf Hval Hid Hw. destruct (intent_codec i Hwf) as (v & Hv & Hc). unfold LoadIntent, intentPath, routeDir.
  rewrite (proj2 (ValidateRouteID_iff _) Hid). cbn [mbind result_bind]. change (hlift (Ok ?p) ≫= ?f) with (f p). cbv beta.
  destruct (read_document Root intentFields zeroIntent _ _ _ H' w Hread Hw) as [w' Hr]. unfold fileOf in Hr.
  unfold mbind at 1, HM_bind. rewrite Hr. unfold readBack, documentText in *. rewrite Hv in *. rewrite Hc.
  destruct (fits _); [|done]. rewrite route_id_nonempty by done. by rewrite Hval.
Qed.

Lemma LoadReceipt_written r w :
  wf_receipt r → route_id (r_RouteID r) →
  written Root (r_RouteID r) "receipt.json" (documentText (receiptJSON r)) (files w) →
  (LoadReceipt H' Root (r_RouteID r) w).1 = readBack (receiptJSON r) r.
Proof using Hread.
  intros Hwf Hid Hw. destruct (receipt_codec r Hwf) as (v & Hv & Hc). unfold LoadReceipt, receiptPath, routeDir.
  rewrite (proj2 (ValidateRouteID_iff _) Hid). cbn [mbind result_bind]. change (hlift (Ok ?p) ≫= ?f) with (f p). cbv beta.
  destruct (read_document Root receiptFields zeroReceipt _ _ _ H' w Hread Hw) as [w' Hr]. unfold fileOf in Hr.
  unfold mbind at 1, HM_bind. rewrite Hr. unfold readBack, documentText in *. rewrite Hv in *. rewrite Hc.
  destruct (fits _); [|done]. by rewrite route_id_nonempty.
Qed.

End roundtrip.

(** C25: what the route store writes is what it reads.  A transaction, desired
    state or receipt with plain ASCII text that is reported written is read
    back, on a host without faults, exactly as it was written (with its kind,
    version and time filled in); only a document larger than 16 KiB, which the
    writer does not refuse, cannot be read. *)
Theorem route_documents_roundtrip H H' Root t i r w w' :
  clean_root Root → faultless H' → wf_transaction t → wf_intent i → wf_receipt r →
  (WriteTransaction H Root t w = (Ok (), w') →
     ∃ u, (t_UpdatedAt t = ""%string ∨ u = t_UpdatedAt t) ∧
       (LoadTransaction H' Root (t_RouteID t) w').1 = readBack (transactionJSON (recorded u t)) (recorded u t)) ∧
  (WriteIntent H Root i w = (Ok (), w') →
     ∃ u, (i_UpdatedAt i = ""%string ∨ u = i_UpdatedAt i) ∧
       (LoadIntent H' Root (i_RouteID i) w').1 = readBack (intentJSON (set_i_UpdatedAt u i)) (set_i_UpdatedAt u i)) ∧
  (WriteReceipt H Root r w = (Ok (), w') →
     (LoadReceipt H' Root (r_RouteID r) w').1 = readBack (receiptJSON r) r).
Proof.
  intros Hroot Hread Ht Hi Hr. split_and!.
  - intros Hrun. destruct (transaction_written H Root Hroot t w w' Ht Hrun) as (u & Hu & Hwf & Hid & Hph & Hw).
    exists u. split; [done|]. by apply (LoadTransaction_written H' Root Hread (recorded u t)).
  - intros Hrun. destruct (intent_written H Root Hroot i w w' Hi Hrun) as (u & Hu & Hwf & Hval & Hid & Hw).
    exists u. split; [done|]. by apply (LoadIntent_written H' Root Hread (set_i_UpdatedAt u i)).
  - intros Hrun. destruct (receipt_written H Root Hroot r w w' Hr Hrun) as [Hid Hw].
    by apply LoadReceipt_written.
Qed.
