(* ===== verification/Lifecycle.v ===== *)
(** * internal/lifecycle: what a tunnel process is doing

    [state.go] and [process_linux.go]: the state document of a tunnel, its
    locks, and the refresh of a state against the process table when it is
    read.  The process table is an argument: /proc as a read finds it and the
    answer to the null signal, at a given call. *)

From S2P Require Import Prelude GoStd Json StrictJson Time Host Locator Grant SshWire Crypto Packet Kex ClientStore.
From S2P Require Import Clients GrantSession Invite Routes.
Import Time Json.

Module Lifecycle.

Definition PhasePreparing : string := "Preparing".
Definition PhaseStarting : string := "Starting".
Definition PhaseAwaitingReadiness : string := "AwaitingReadiness".
Definition PhaseReady : string := "Ready".
Definition PhaseBackoff : string := "Backoff".
Definition PhaseStopping : string := "Stopping".
Definition PhaseStopped : string := "Stopped".
Definition PhaseFailed : string := "Failed".
Definition PhaseCleanupRequired : string := "CleanupRequired".
Definition TargetHealthNotChecked : string := "not_checked".

Definition eqs (a b : string) : bool := bool_decide (a = b).

(** ** The state document *)

Record State := mkState {
  TunnelID : string;
  s_Phase : string;
  PID : Z;
  StartIdentity : Z;
  ListenEndpoint : string;
  TargetHealth : string;
  s_UpdatedAt : string;
  s_Error : string;
  ErrorClass : string;
  s_Generation : string;
}.
Definition zeroState : State := mkState "" "" 0 0 "" "" "" "" "" "".
Definition set_TunnelID (v : string) (r : State) : State :=
  mkState v (s_Phase r) (PID r) (StartIdentity r) (ListenEndpoint r) (TargetHealth r) (s_UpdatedAt r) (s_Error
    r) (ErrorClass r) (s_Generation r).
Definition set_s_Phase (v : string) (r : State) : State :=
  mkState (TunnelID r) v (PID r) (StartIdentity r) (ListenEndpoint r) (TargetHealth r) (s_UpdatedAt r)
    (s_Error r) (ErrorClass r) (s_Generation r).
Definition set_PID (v : Z) (r : State) : State :=
  mkState (TunnelID r) (s_Phase r) v (StartIdentity r) (ListenEndpoint r) (TargetHealth r) (s_UpdatedAt r)
    (s_Error r) (ErrorClass r) (s_Generation r).
Definition set_StartIdentity (v : Z) (r : State) : State :=
  mkState (TunnelID r) (s_Phase r) (PID r) v (ListenEndpoint r) (TargetHealth r) (s_UpdatedAt r) (s_Error r)
    (ErrorClass r) (s_Generation r).
Definition set_ListenEndpoint (v : string) (r : State) : State :=
  mkState (TunnelID r) (s_Phase r) (PID r) (StartIdentity r) v (TargetHealth r) (s_UpdatedAt r) (s_Error r)
    (ErrorClass r) (s_Generation r).
Definition set_TargetHealth (v : string) (r : State) : State :=
  mkState (TunnelID r) (s_Phase r) (PID r) (StartIdentity r) (ListenEndpoint r) v (s_UpdatedAt r) (s_Error r)
    (ErrorClass r) (s_Generation r).
Definition set_s_UpdatedAt (v : string) (r : State) : State :=
  mkState (TunnelID r) (s_Phase r) (PID r) (StartIdentity r) (ListenEndpoint r) (TargetHealth r) v (s_Error r)
    (ErrorClass r) (s_Generation r).
Definition set_s_Error (v : string) (r : State) : State :=
  mkState (TunnelID r) (s_Phase r) (PID r) (StartIdentity r) (ListenEndpoint r) (TargetHealth r) (s_UpdatedAt
    r) v (ErrorClass r) (s_Generation r).
Definition set_ErrorClass (v : string) (r : State) : State :=
  mkState (TunnelID r) (s_Phase r) (PID r) (StartIdentity r) (ListenEndpoint r) (TargetHealth r) (s_UpdatedAt
    r) (s_Error r) v (s_Generation r).
Definition set_s_Generation (v : string) (r : State) : State :=
  mkState (TunnelID r) (s_Phase r) (PID r) (StartIdentity r) (ListenEndpoint r) (TargetHealth r) (s_UpdatedAt
    r) (s_Error r) (ErrorClass r) v.

Definition stateFields : list (field State) :=
  [("tunnel_id", string_field set_TunnelID); ("phase", string_field set_s_Phase);
   ("pid", int_field set_PID); ("start_identity", ClientStore.uint_field 64 set_StartIdentity);
   ("listen_endpoint", string_field set_ListenEndpoint); ("target_health", string_field set_TargetHealth);
   ("updated_at", string_field set_s_UpdatedAt); ("error", string_field set_s_Error);
   ("error_class", string_field set_ErrorClass); ("generation", string_field set_s_Generation)]%string.
Definition stateMembers (s : State) : list (string * json) :=
  [("tunnel_id", JStr (TunnelID s)); ("phase", JStr (s_Phase s))]%string
  ++ Routes.omitzero "pid" (PID s)
  ++ Routes.omitzero "start_identity" (StartIdentity s)
  ++ ClientStore.omitempty "listen_endpoint" (ListenEndpoint s)
  ++ [("target_health", JStr (TargetHealth s)); ("updated_at", JStr (s_UpdatedAt s))]%string
  ++ ClientStore.omitempty "error" (s_Error s)
  ++ ClientStore.omitempty "error_class" (ErrorClass s)
  ++ ClientStore.omitempty "generation" (s_Generation s).
Definition stateText (s : State) : bytes := print (JObj (stateMembers s)) ++ [bz 10].

(** ** Identifiers *)

Fixpoint checkTunnelRunes (first : bool) (rs : list Z) : result () :=
  match rs with
  | [] => Ok ()
  | r :: rs =>
      if Routes.isAlnum r then checkTunnelRunes false rs
      else if (r =? 45) || (r =? 95) then
        if first then Err (EMsg "tunnel id must start with an alphanumeric character")
        else checkTunnelRunes false rs
      else Err (EMsg "tunnel id contains forbidden character")
  end.

Definition validateTunnelID (tunnelID : string) : result () :=
  if eqs tunnelID "" || (64 <? String.length tunnelID)%nat then Err (EMsg "tunnel id must be 1-64 characters")
  else
    checkTunnelRunes true (Utf8.range tunnelID);;
    if Strings.contains tunnelID ".." then Err (EMsg "tunnel id must not contain ..") else Ok ().

Section store.
Context (H : hostEnv) (procRead : nat → string → result bytes) (probe : nat → Z → option error) (Root : string).

Definition tunnelDir (tunnelID : string) : string := Filepath.Join Root tunnelID.
Definition statePath (tunnelID : string) : string := Filepath.Join (tunnelDir tunnelID) "state.json".
Definition lockPath (tunnelID : string) : string := Filepath.Join (tunnelDir tunnelID) "lock".
Definition adminLockPath (tunnelID : string) : string := Filepath.Join (tunnelDir tunnelID) "admin.lock".
Definition pidPath (tunnelID : string) : string := Filepath.Join (tunnelDir tunnelID) "pid".

(** ** Locks *)

(** [lockFile] around [body], with the deferred [Unlock]: the lock is not
    waited for. *)
Definition lockFile {A} (tunnelID path kind : string) (body : HM A) : HM A :=
  hlift (validateTunnelID tunnelID);;
  MkdirAll H (tunnelDir tunnelID);;
  OpenCreate H path;;
  r ← htry (sys H);                              (* flock, non-blocking *)
  match r with
  | Err e => htry (sys H);; hfail (EMsg ("tunnel " ++ tunnelID ++ " " ++ kind ++ " is busy: " ++ errText e))
  | Ok _ => deferred (htry (sys H);; sys H) body (* unlock and close *)
  end.
Definition Lock {A} (tunnelID : string) (body : HM A) : HM A := lockFile tunnelID (lockPath tunnelID) "runtime" body.
Definition AdminLock {A} (tunnelID : string) (body : HM A) : HM A :=
  lockFile tunnelID (adminLockPath tunnelID) "admin" body.

(** ** Processes *)

(** The start time in the text of /proc/pid/stat. *)
Definition statIdentity (raw : bytes) : option Z :=
  match GrantSession.afterParen raw with
  | Some (_ :: ((_ :: _) as rest)) =>
      match Strings.fields (to_string rest) !! 19%nat with
      | Some text => match Strings.parse_uint text 64 with Ok n => Some n | Err _ => None end
      | None => None
      end
  | _ => None
  end.
Definition processStartIdentity (pid : Z) : HM (option Z) :=
  n ← call;
  mret match procRead n ("/proc/" ++ Strings.itoa pid ++ "/stat") with
       | Ok raw => statIdentity raw
       | Err _ => None
       end.

Definition processMatches (pid recorded : Z) : HM bool :=
  if pid <=? 0 then mret false
  else
    n ← call;
    match probe n pid with
    | Some e => mret (bool_decide (e = EOS EPERM))
    | None =>
        if recorded =? 0 then mret true
        else
          got ← processStartIdentity pid;
          mret match got with None => true | Some got => got =? recorded end
    end.

(** ** Writing and reading *)

(** [os.WriteFile]: the file is truncated first; a failed write leaves a prefix. *)
Definition WriteFile (path : string) (contents : bytes) : HM () :=
  sys H;; set_files (<[path := []]>);; Host.Write H path contents;; sys H.

(** What [Write] fills in. *)
Definition complete (state : State) : HM State :=
  let state := if eqs (TargetHealth state) "" then set_TargetHealth TargetHealthNotChecked state else state in
  updatedAt ← Routes.stamp H (s_UpdatedAt state);
  let state := set_s_UpdatedAt updatedAt state in
  if 0 <? PID state then
    id ← processStartIdentity (PID state);
    mret match id with Some id => set_StartIdentity id state | None => state end
  else mret state.

Definition Write (state : State) : HM () :=
  hlift (validateTunnelID (TunnelID state));;
  state ← complete state;
  MkdirAll H (tunnelDir (TunnelID state));;
  replaceFile H false (statePath (TunnelID state)) ".state-" (stateText state) (mret ());;
  if 0 <? PID state
  then WriteFile (pidPath (TunnelID state)) (to_bytes (Strings.itoa (PID state)) ++ [bz 10])
  else htry (Host.Remove H (pidPath (TunnelID state)));; mret ().

(** The phases of a tunnel that has a process. *)
Definition running (phase : string) : bool :=
  eqs phase PhaseReady || eqs phase PhaseStarting || eqs phase PhaseAwaitingReadiness || eqs phase PhaseBackoff.

(** The refresh of a state that was read. *)
Definition refresh (state : State) : HM State :=
  let state := if eqs (TargetHealth state) "" then set_TargetHealth TargetHealthNotChecked state else state in
  if 0 <? PID state then
    matches ← processMatches (PID state) (StartIdentity state);
    mret (if negb matches && running (s_Phase state)
          then set_s_Error "process is not running" (set_s_Phase PhaseFailed state) else state)
  else mret state.

Definition Read (tunnelID : string) : HM State :=
  hlift (validateTunnelID tunnelID);;
  r ← htry (ReadIn H (tunnelDir tunnelID) (statePath tunnelID));
  match r with
  | Err e =>
      if IsNotExist e then
        t ← now H;
        mret (mkState tunnelID PhaseStopped 0 0 "" TargetHealthNotChecked (Clients.formatTime t) "" "" "")
      else hfail e
  | Ok contents => state ← hlift (unmarshal stateFields zeroState contents); refresh state
  end.

Fixpoint readStates (entries : list (string * bool)) : HM (list State) :=
  match entries with
  | [] => mret []
  | (name, isDir) :: rest =>
      if negb isDir then readStates rest
      else state ← Read name; others ← readStates rest; mret (state :: others)
  end.
Definition List : HM (list State) :=
  r ← htry (ReadEntries H Root);
  match r with
  | Err e => if IsNotExist e then mret [] else hfail e
  | Ok entries => readStates entries
  end.

End store.

End Lifecycle.
