(* ===== verification/LifecycleProps.v ===== *)
(** * A tunnel's status is refreshed when it is read

    The state that is written is the one that is read, except that a tunnel
    whose process is gone is never reported as running. *)

From S2P Require Import Prelude GoStd Json StrictJson Time Text Host Locator Grant GrantProps SshWire Crypto Packet.
From S2P Require Import Kex Listen ClientStore ClientCodec Server Clients ClientProps AuthorizedKeys GrantSession.
From S2P Require Import ServerProps SessionProps Reconcile Frame Layout Invite Accept InviteClient InviteProps Enroll.
From S2P Require Import EnrollProps Routes RouteProps RouteCodec Lifecycle.
Import Time Json ClientStore.
Import Lifecycle.

(** ** Identifiers *)

Lemma checkTunnelRunes_iff first rs :
  checkTunnelRunes first rs = Ok () ↔
  Routes.checkRunes "route" (λ r, (r =? 45) || (r =? 95)) first rs = Ok ().
Proof.
  revert first. induction rs as [|r rs IH]; intros first; [done|]. cbn [checkTunnelRunes Routes.checkRunes].
  destruct (Routes.isAlnum r), ((r =? 45) || (r =? 95)), first; (apply IH || done).
Qed.

(** Tunnels and routes have the same identifiers. *)
Lemma validateTunnelID_iff tunnelID : validateTunnelID tunnelID = Ok () ↔ route_id tunnelID.
Proof.
  unfold validateTunnelID. split.
  - unfold Lifecycle.eqs. case_bool_decide as He; [done|]. cbn [orb]. destruct (_ <? _)%nat eqn:Hl; [done|].
    intros ([] & Hc%checkTunnelRunes_iff & _)%bind_Ok. apply Nat.ltb_ge in Hl. by apply route_runes_iff.
  - intros Hid. destruct (route_id_length _ Hid) as [He Hl]. change (Lifecycle.eqs tunnelID "") with (Routes.eqs tunnelID "").
    rewrite He, Hl. cbn [orb]. apply Nat.ltb_ge in Hl. apply bool_decide_eq_false in He.
    rewrite (proj2 (checkTunnelRunes_iff _ _)) by (by apply route_runes_iff). cbn [mbind result_bind].
    pose proof (no_path_characters _ (route_id_chars _ Hid)) as Hp. unfold Routes.pathCharacters in Hp.
    apply orb_false_iff in Hp as [Hp _]. by rewrite Hp.
Qed.

(** ** The document *)

Lemma decode_lax {A} (fs : list (field A)) m : ∀ a r,
  decode_members true fs m a = Ok r → decode_members false fs m a = Ok r.
Proof.
  induction m as [|[k v] m IH]; intros a r; [done|]. cbn [decode_members].
  destruct (select fs k); [|done]. intros (a' & -> & Hr)%bind_Ok. cbn. by apply IH.
Qed.

Lemma unmarshal_text {A} (fs : list (field A)) zero m a :
  wf 0 (JObj m) → decode_members true fs m zero = Ok a →
  unmarshal fs zero (print (JObj m) ++ [bz 10]) = Ok a.
Proof.
  intros Hw Hd. unfold unmarshal, parse_all. rewrite (parse_print _ [bz 10] Hw eq_refl).
  cbn [mbind result_bind skip_ws decode]. by apply decode_lax.
Qed.

Lemma decode_omitzero_int {A} (fs : list (field A)) name n set a :
  select fs name = Some (int_field set) → set 0 a = a → Z.abs n < 2 ^ 63 →
  decode_members true fs (Routes.omitzero name n) a = Ok (set n a).
Proof.
  intros Hs H0 Hn. unfold Routes.omitzero. destruct (Z.eqb_spec n 0) as [-> |]; [by rewrite H0|].
  cbn [decode_members]. rewrite Hs. by rewrite int_field_JInt.
Qed.

Definition stateTexts (s : State) : list string :=
  [TunnelID s; s_Phase s; ListenEndpoint s; TargetHealth s; s_UpdatedAt s; s_Error s; ErrorClass s; s_Generation s].
Definition wf_state (s : State) : Prop :=
  Forall ascii (stateTexts s) ∧ Z.abs (PID s) < 2 ^ 63 ∧ 0 ≤ StartIdentity s < 2 ^ 63.

Lemma state_codec s : wf_state s → unmarshal stateFields zeroState (stateText s) = Ok s.
Proof.
  intros (Ht & Hp & Hi). unfold stateTexts in Ht. repeat apply List.Forall_cons_iff in Ht as [? Ht].
  apply unmarshal_text.
  - apply wf_obj; [done|]. unfold stateMembers. repeat (apply Forall_app; split);
      first [apply wf_omit; [by apply ascii_forallb|done]|apply wf_omitzero; [by apply ascii_forallb|lia]|plain_members|idtac].
    unfold Routes.omitzero. case_match; [constructor|]. plain_members.
  - unfold stateMembers. destruct s.
    cbn [TunnelID s_Phase PID StartIdentity ListenEndpoint TargetHealth s_UpdatedAt s_Error ErrorClass s_Generation app] in *.
    members. rewrite decode_members_app. erewrite decode_omitzero_int; [|reflexivity..|done]. cbn [mbind result_bind]. settle.
    rewrite decode_members_app. erewrite (decode_omitzero stateFields _ 64); [|reflexivity..|lia|lia].
    cbn [mbind result_bind]. settle. cbn [app]. members. by erewrite decode_omit by reflexivity.
Qed.

(** ** Processes *)

Section status.
Context (procRead : nat → string → result bytes) (probe : nat → Z → option error).

Definition identityAt (n : nat) (pid : Z) : option Z :=
  match procRead n ("/proc/" ++ Strings.itoa pid ++ "/stat") with Ok raw => statIdentity raw | Err _ => None end.

(** The process table has shown the process: it may not be signalled, or it
    can be and its start time is the recorded one, if both are known. *)
Definition seen_alive (pid recorded : Z) : Prop :=
  ∃ n, probe n pid = Some (EOS EPERM) ∨
       probe n pid = None ∧ (recorded = 0 ∨ ∃ m, identityAt m pid = None ∨ identityAt m pid = Some recorded).

Lemma processMatches_true pid recorded w w' :
  processMatches procRead probe pid recorded w = (Ok true, w') → 0 < pid ∧ seen_alive pid recorded.
Proof using.
  unfold processMatches. destruct (Z.leb_spec pid 0); [done|]. unfold call, mbind, HM_bind. intros Hr. split; [done|].
  exists (calls w). destruct (probe (calls w) pid) as [e|] eqn:Hp.
  - injection Hr as Hb _. apply bool_decide_eq_true in Hb. subst e. by left.
  - right. split; [done|]. destruct (Z.eqb_spec recorded 0); [by left|]. right. cbn in Hr. exists (S (calls w)).
    injection Hr as Hb _. unfold identityAt. destruct (match procRead _ _ with Ok _ => _ | Err _ => _ end) as [got|]; [|by left].
    right. apply Z.eqb_eq in Hb. by subst.
Qed.

Lemma refresh_live state w s w' :
  refresh procRead probe state w = (Ok s, w') → running (s_Phase s) = true → 0 < PID s →
  seen_alive (PID s) (StartIdentity s).
Proof using.
  unfold refresh. set (state' := if eqs (TargetHealth state) "" then _ else state).
  destruct (Z.ltb_spec 0 (PID state')) as [Hpid|Hpid]; [|intros [= <- <-]; lia].
  unfold mbind, HM_bind.
  destruct (processMatches procRead probe (PID state') (StartIdentity state') w) as [[[]|e] w1] eqn:Hm; [| |done].
  - intros [= <- <-] _ _. by apply (processMatches_true _ _ w w1).
  - change (negb false && running (s_Phase state')) with (running (s_Phase state')).
    destruct (running (s_Phase state')) eqn:Hb; intros [= <- <-] Hrun _; [done|]. by rewrite Hb in Hrun.
Qed.

(** ** Writing *)

Context (H : hostEnv) (Root : string).
Hypothesis Hroot : clean_root Root.

Lemma state_plain : plain_name "state.json".
Proof using. plain. Qed.

Lemma pid_elsewhere name :
  plain_name name →
  pidPath Root name ≠ Routes.fileOf Root name "state.json" ∧ pidPath Root name ≠ (Root ++ "/" ++ name)%string.
Proof using Hroot.
  intros Hn. assert (plain_name "pid") as Hpid by plain. change (pidPath Root name) with (Routes.fileOf Root name "pid").
  rewrite !fileOf_eq by (done || apply state_plain). split.
  - intros [_ E]%below_route; [done|apply Hn..].
  - intros E. symmetry in E. revert E.
    replace (Root ++ "/" ++ name ++ "/" ++ "pid")%string with ((Root ++ "/" ++ name) ++ "/" ++ "pid")%string
      by (apply to_bytes_inj; by rewrite !Locator.to_bytes_append, <- !app_assoc).
    by apply dir_not_below.
Qed.

(** The end of [Write], once the state is complete. *)
Lemma store_state s :
  route_id (TunnelID s) →
  htriple (λ _, True)
    (MkdirAll H (tunnelDir Root (TunnelID s));;
     replaceFile H false (statePath Root (TunnelID s)) ".state-" (stateText s) (mret ());;
     if 0 <? PID s then WriteFile H (pidPath Root (TunnelID s)) (to_bytes (Strings.itoa (PID s)) ++ [bz 10])
     else htry (Host.Remove H (pidPath Root (TunnelID s)));; mret ())
    (λ r fs, r = Ok () → written Root (TunnelID s) "state.json" (stateText s) fs).
Proof using Hroot.
  intros [Hn _]%route_id_plain. destruct (pid_elsewhere _ Hn) as [Hp1 Hp2].
  change (tunnelDir Root (TunnelID s)) with (Routes.routeDirOf Root (TunnelID s)). unfold written.
  rewrite routeDirOf_eq by done.
  change (statePath Root (TunnelID s)) with (Routes.fileOf Root (TunnelID s) "state.json").
  set (P := λ fs : gmap string bytes, fs !! Routes.fileOf Root (TunnelID s) "state.json" = Some (stateText s) ∧
    fs !! (Root ++ "/" ++ TunnelID s)%string = None).
  assert (∀ c fs, P fs → P (<[pidPath Root (TunnelID s) := c]> fs)) as Hins
    by (intros c fs [? ?]; split; by rewrite lookup_insert_ne).
  eapply (htriple_bind _ _ (λ _ fs, fs !! (Root ++ "/" ++ TunnelID s)%string = None)).
  { eapply htriple_weaken; [by apply MkdirAll_dir|done|]. intros [[]|e] fs HQ; [by apply HQ|done]. }
  intros _. eapply (htriple_bind _ _ (λ _, P)).
  { eapply htriple_weaken; [apply (replace_in_dir H Root Hroot (TunnelID s) "state.json"); [done|apply state_plain|done|by intros fs w]|done|].
    intros [[]|e] fs HQ; [by apply HQ|done]. }
  intros _. destruct (0 <? PID s).
  - unfold WriteFile. eapply (htriple_bind _ _ (λ _, P)); [apply htriple_sys; by intros []|]. intros _.
    eapply (htriple_bind _ _ (λ _, P)); [intros w Hw; cbn; by apply Hins|]. intros _.
    eapply (htriple_bind _ _ (λ _, P)); [apply htriple_Write; [done|intros fs Hfs; by apply Hins]|]. intros _.
    apply htriple_sys. by intros r fs Hfs _.
  - eapply (htriple_bind _ _ (λ _, P)); [|intros _; by apply htriple_ret].
    apply htriple_try, htriple_Remove; [done|]. intros fs [? ?]. split; by rewrite lookup_delete_ne.
Qed.

(** ** Reading *)

(** The state that [Write] records: the health and the time are filled in when
    they are missing, the start time when the process table shows it. *)
Definition recorded_as (state s : State) : Prop :=
  ∃ u i, ascii u ∧ (s_UpdatedAt state = ""%string ∨ u = s_UpdatedAt state) ∧ (i = StartIdentity state ∨ 0 < PID state) ∧
    s = set_StartIdentity i (set_s_UpdatedAt u
          (if eqs (TargetHealth state) "" then set_TargetHealth TargetHealthNotChecked state else state)).

(** A start time, in clock ticks since the boot, fits 63 bits. *)
Definition ticks_bounded : Prop := ∀ n pid i, identityAt n pid = Some i → 0 ≤ i < 2 ^ 63.

Lemma complete_spec state w :
  wf_state state → ticks_bounded →
  ∃ s w', complete H procRead state w = (Ok s, w') ∧ recorded_as state s ∧ wf_state s.
Proof using.
  intros (Ht & Hp & Hi) Hticks. unfold complete.
  set (state' := if eqs (TargetHealth state) "" then set_TargetHealth TargetHealthNotChecked state else state).
  assert (Forall ascii (stateTexts state') ∧ PID state' = PID state ∧ StartIdentity state' = StartIdentity state ∧
    s_UpdatedAt state' = s_UpdatedAt state) as (Ht' & Ep & Ei & Eu).
  { subst state'. destruct (eqs (TargetHealth state) ""); [|done]. split; [|done].
    unfold stateTexts in *. repeat apply List.Forall_cons_iff in Ht as [? Ht].
    repeat (constructor; [first [done|by apply ascii_forallb]|]). constructor. }
  unfold stateTexts in Ht'. repeat apply List.Forall_cons_iff in Ht' as [? Ht'].
  destruct (stamp_spec H (s_UpdatedAt state') w) as (u & w1 & Hs & Hu & Hold); [done|].
  unfold mbind at 1, HM_bind. rewrite Hs. cbv zeta. change (PID (set_s_UpdatedAt u state')) with (PID state'). rewrite Ep.
  assert (∀ i, 0 ≤ i < 2 ^ 63 → i = StartIdentity state ∨ 0 < PID state →
    recorded_as state (set_StartIdentity i (set_s_UpdatedAt u state')) ∧
    wf_state (set_StartIdentity i (set_s_UpdatedAt u state'))) as Hrec.
  { intros i Hb Hor. split; [exists u, i; by rewrite <- Eu|]. split; [|split; [cbn; by rewrite Ep|done]].
    unfold stateTexts. repeat (constructor; [done|]). constructor. }
  assert (set_s_UpdatedAt u state' = set_StartIdentity (StartIdentity state) (set_s_UpdatedAt u state')) as Eid
    by (rewrite <- Ei; by destruct state').
  destruct (Z.ltb_spec 0 (PID state)); [|rewrite Eid; eexists _, _; split; [reflexivity|apply Hrec; [done|by left]]].
  unfold processStartIdentity, call, mbind, HM_bind, mret, HM_ret. fold (identityAt (calls w1) (PID state)).
  destruct (identityAt (calls w1) (PID state)) as [i|] eqn:E;
    [|rewrite Eid]; (eexists _, _; split; [reflexivity|apply Hrec; [|auto]]); [by eapply Hticks|done].
Qed.

Lemma Write_written state w w' :
  wf_state state → ticks_bounded → Write H procRead Root state w = (Ok (), w') →
  ∃ s, recorded_as state s ∧ wf_state s ∧ route_id (TunnelID s) ∧
    written Root (TunnelID s) "state.json" (stateText s) (files w').
Proof using Hroot.
  intros Hwf Hticks Hrun. unfold Write in Hrun. apply run_checked in Hrun as ([] & Hid%validateTunnelID_iff & Hrun).
  destruct (complete_spec state w Hwf Hticks) as (s & w1 & Hc & Hrec & Hwf').
  unfold mbind at 1, HM_bind in Hrun. rewrite Hc in Hrun. cbv beta iota in Hrun.
  assert (TunnelID s = TunnelID state) as Et by (destruct Hrec as (u & i & _ & _ & _ & ->); by destruct (eqs _ "")).
  exists s. rewrite Et. split_and!; [done..|]. rewrite <- Et.
  pose proof (store_state s ltac:(by rewrite Et) w1 I) as Hst.
  cbv beta in Hst. match type of Hst with fst ?t = _ → _ => replace t with (Ok (), w') in Hst by (symmetry; exact Hrun) end.
  by apply Hst.
Qed.

Lemma read_file tunnelID text w :
  faultless H → written Root tunnelID "state.json" text (files w) →
  ∃ w', ReadIn H (tunnelDir Root tunnelID) (statePath Root tunnelID) w = (Ok text, w').
Proof using.
  intros Hfl [Hf Hd]. unfold ReadIn, ReadFile, sys, call, get_files, mbind, HM_bind. cbn [files calls].
  change (tunnelDir Root tunnelID) with (Routes.routeDirOf Root tunnelID).
  change (statePath Root tunnelID) with (Routes.fileOf Root tunnelID "state.json").
  unfold isFile. rewrite bool_decide_eq_false_2 by (rewrite Hd; by intros [? ?]). rewrite Hfl. cbn [files calls mret HM_ret].
  rewrite Hf. eauto.
Qed.

Lemma refresh_spec s w :
  TargetHealth s ≠ ""%string →
  ∃ s' w', refresh procRead probe s w = (Ok s', w') ∧
    (s' = s ∨ running (s_Phase s) = true ∧ 0 < PID s ∧
              s' = set_s_Error "process is not running" (set_s_Phase PhaseFailed s)).
Proof using.
  intros Hh. unfold refresh, eqs. rewrite bool_decide_eq_false_2 by done.
  destruct (Z.ltb_spec 0 (PID s)); [|eexists _, _; split; [reflexivity|by left]].
  assert (∃ b w', processMatches procRead probe (PID s) (StartIdentity s) w = (Ok b, w')) as (b & w' & Hm).
  { unfold processMatches. destruct (PID s <=? 0); [by eexists _, _|]. unfold call, mbind, HM_bind.
    destruct (probe _ _); [by eexists _, _|]. destruct (StartIdentity s =? 0); by eexists _, _. }
  unfold mbind, HM_bind. rewrite Hm. eexists _, _. split; [reflexivity|].
  destruct b; [by left|]. cbn [negb andb]. destruct (running (s_Phase s)); [by right|by left].
Qed.

End status.

(** A tunnel that [Read] reports in a phase with a process (Ready, Starting,
    AwaitingReadiness, Backoff) under a process id has been seen in the process
    table during the read: the null signal was refused for lack of permission,
    or it was delivered and the start time of the process is the recorded one,
    unless one of the two is unknown.  Whatever the state file holds, and
    whichever system calls fail. *)
Theorem running_is_alive (H : hostEnv) procRead probe Root tunnelID w s w' :
  Lifecycle.Read H procRead probe Root tunnelID w = (Ok s, w') → running (s_Phase s) = true → 0 < PID s →
  seen_alive procRead probe (PID s) (StartIdentity s).
Proof.
  unfold Read. intros Hrun. apply run_checked in Hrun as ([] & _ & Hrun). unfold mbind, HM_bind in Hrun.
  destruct (htry (ReadIn H _ _) w) as [[[contents|e]|e] w1]; [| |done].
  - destruct (unmarshal stateFields zeroState contents) as [state|e]; [|done].
    exact (refresh_live procRead probe state w1 s w' Hrun).
  - destruct (IsNotExist e); [|done]. unfold now, call, mbind, HM_bind in Hrun. injection Hrun as <- _. done.
Qed.

(** A state that [Write] has stored is the state a later [Read] returns on a
    host without faults, the health, the time and the start time filled in,
    except that a tunnel in a phase with a process comes back as Failed when
    the process is gone. *)
Theorem tunnel_state_roundtrip (H H' : hostEnv) procRead procRead' probe Root state w w' :
  clean_root Root → faultless H' → wf_state state → ticks_bounded procRead →
  Lifecycle.Write H procRead Root state w = (Ok (), w') →
  ∃ s, recorded_as state s ∧ ∃ s' w2,
    Lifecycle.Read H' procRead' probe Root (TunnelID state) w' = (Ok s', w2) ∧
    (s' = s ∨ running (s_Phase s) = true ∧ 0 < PID s ∧
              s' = set_s_Error "process is not running" (set_s_Phase PhaseFailed s)).
Proof.
  intros Hroot Hfl Hwf Hticks Hrun.
  destruct (Write_written procRead H Root Hroot state w w' Hwf Hticks Hrun) as (s & Hrec & Hwf' & Hid & Hfile).
  exists s. split; [done|].
  assert (TunnelID s = TunnelID state ∧ TargetHealth s ≠ ""%string) as [Et Hth].
  { destruct Hrec as (u & i & _ & _ & _ & ->). unfold eqs. by case_bool_decide. }
  rewrite <- Et. destruct (read_file H' Root _ _ _ Hfl Hfile) as [w1 Hread].
  unfold Read. rewrite (proj2 (validateTunnelID_iff _) Hid). change (hlift (Ok ()) ≫= ?f) with (f ()). cbv beta.
  unfold mbind at 1, HM_bind, htry. rewrite Hread. cbv beta iota. rewrite (state_codec s Hwf').
  change (hlift (Ok s) ≫= ?f) with (f s). by apply refresh_spec.
Qed.
