(* ===== verification/Tunnels.v ===== *)
(** * internal/command: the tunnels of a client

    [lifecycle.go] and [connect.go]: the commands up, down, status, forget,
    routes, reconcile, uninstall, repair and connect on Linux, which bring the
    durable state of the routes (Routes.v), the state of the tunnel processes
    (Lifecycle.v) and the service manager together.

    Commands of other programs ([systemctl]) are an argument: what the [n]th
    one does to the files and how it fails.  The [provisioner] of an installed
    client, to which an unprivileged command hands its request, is an argument
    too.  A command returns what it prints. *)

From S2P Require Import Prelude GoStd Json StrictJson Time Host Locator Grant SshWire Crypto Packet Kex ClientStore.
From S2P Require Import Clients AuthorizedKeys GrantSession Invite Resolve Routes Lifecycle.
Import Time Json Locator ClientStore.

Module Tunnels.

(** ** installlayout *)

Definition ClientStateRoot : string := "/etc/warptweet".
Definition DarwinClientStateRoot : string := "/Library/Application Support/WarpTweet/state".
Definition ClientManifestPath : string := ClientStateRoot ++ "/client.wt".
Definition ClientRuntimeRoot : string := "/run/warptweet/tunnels".
Definition ClientRoutesDirectory : string := "/etc/warptweet/routes".

(** The root of the route store. *)
Definition productionRouteStore (manifestPath : string) : string :=
  let dir := Filepath.Dir manifestPath in
  if negb (Routes.eqs dir ClientStateRoot) && negb (Routes.eqs dir DarwinClientStateRoot)
  then Filepath.Join dir "routes" else ClientRoutesDirectory.

Definition eqs (a b : string) : bool := bool_decide (a = b).
Definition ErrPackageBoundary : string := "package_boundary".

(** [net.JoinHostPort]. *)
Definition JoinHostPort (host port : string) : string :=
  if Strings.contains host ":" || Strings.contains host "%" then "[" ++ host ++ "]:" ++ port else host ++ ":" ++ port.

Fixpoint firstNonEmptyString (values : list string) : string :=
  match values with
  | [] => ""
  | value :: rest => if negb (eqs (Strings.trim_space value) "") then value else firstNonEmptyString rest
  end.

(** What a command prints: the answer of the provisioner, a JSON object, or
    lines of text. *)
Inductive output :=
| Relayed (text : string)
| Object (members : list (string * json))
| Plain (lines : list string).

(** The installed provisioner: whether this process uses it, and its answer to
    a request. *)
Record provisioner := mkProvisioner {
  p_used : bool;
  p_Call : nat → string → string → result string;
}.

Section commands.
Context (H : hostEnv) (P : provisioner).
Context (procRead : nat → string → result bytes) (probe : nat → Z → option error).
Context (exec : nat → list string → gmap string bytes → option error * gmap string bytes).

Definition Root : string := productionRouteStore ClientManifestPath.
Definition readState := Lifecycle.Read H procRead probe ClientRuntimeRoot.
Definition writeState := Lifecycle.Write H procRead ClientRuntimeRoot.

Definition callInstalledProvisioner (action tunnelID : string) : HM (option output) :=
  if negb (p_used P) then mret None
  else
    n ← call;
    response ← hlift (p_Call P n action tunnelID);
    if eqs response "" then mret (Some (Plain []))
    else sys H;; mret (Some (Relayed response)).

(** The rest of a command, unless the provisioner has done it. *)
Definition unlessHandled (action tunnelID : string) (rest : HM output) : HM output :=
  handled ← callInstalledProvisioner action tunnelID;
  match handled with Some out => mret out | None => rest end.

Definition writeJSON (members : list (string * json)) : HM output := sys H;; mret (Object members).

(** ** Service manager *)

Definition runCommand (arguments : list string) : HM () :=
  n ← call; fs ← get_files;
  let '(failed, fs') := exec n arguments fs in
  set_files (λ _, fs');;
  match failed with Some e => hfail e | None => mret () end.

Definition unitOf (routeID : string) : string := "warptweet-tunnel@" ++ routeID ++ ".service".
Definition projectLinuxTunnel (routeID : string) (start : bool) : HM () :=
  found ← htry (sys H);                          (* LookPath *)
  match found with
  | Err _ => hfail (wrapErr ErrPackageBoundary ("systemctl is required to project warptweet-tunnel@" ++ routeID))
  | Ok _ =>
      let action := if start then "start"%string else "stop"%string in
      r ← htry (runCommand ["systemctl"%string; action; unitOf routeID]);
      match r with
      | Err e => hfail (EMsg (action ++ " " ++ unitOf routeID ++ ": " ++ errText e))
      | Ok _ => mret ()
      end
  end.
Definition projectManagedTunnel (routeID : string) (start : bool) : HM () :=
  hlift (Routes.ValidateRouteID routeID);; projectLinuxTunnel routeID start.

Definition currentBootID : HM string :=
  n ← call;
  mret match procRead n "/proc/sys/kernel/random/boot_id" with
       | Ok contents => Strings.trim_space (to_string contents)
       | Err _ => ""
       end.

(** ** The durable state of a route *)

Definition persistReservedRoute (routeID : string) (listenPort : Z) (inviteID generation : string) : HM () :=
  Routes.ReserveAndWriteTransaction H Root
    (Routes.mkTransaction "" 0 routeID Routes.PhaseReserved listenPort generation inviteID "" "").
Definition persistEnrolledRoute (routeID : string) (listenPort : Z) (inviteID generation : string) : HM () :=
  Routes.WriteTransaction H Root
    (Routes.mkTransaction "" 0 routeID Routes.PhaseEnrolled listenPort generation inviteID "" "").

Definition freshIntent (routeID restartPolicy : string) : Routes.Intent :=
  Routes.mkIntent Routes.KindDesiredState Routes.CurrentSchemaVersion routeID "" restartPolicy "" "".

Definition persistConnectDesiredState (routeID restartPolicy : string) : HM () :=
  exists_ ← Routes.Exists H Root routeID;
  if negb exists_ then hlift (Routes.bad ("route " ++ routeID ++ " is not reserved; enroll before setting --restart"))
  else
    loaded ← htry (Routes.LoadIntent H Root routeID);
    let intent := match loaded with Ok i => i | Err _ => freshIntent routeID "" end in
    let intent := Routes.set_DesiredState Routes.DesiredRunning (Routes.set_RestartPolicy restartPolicy intent) in
    if eqs restartPolicy Routes.RestartManual then
      boot ← currentBootID; Routes.WriteIntent H Root (Routes.set_BootID boot intent)
    else Routes.WriteIntent H Root intent.

(** The intent that [up] and [down] write over the loaded one. *)
Definition desiredIntent (loaded : result Routes.Intent) (routeID desired restartPolicy : string) : Routes.Intent :=
  let intent := match loaded with Ok i => i | Err _ => freshIntent routeID Routes.RestartUnlessStopped end in
  let intent := Routes.set_DesiredState desired intent in
  if negb (eqs restartPolicy "") then Routes.set_RestartPolicy restartPolicy intent else intent.

Definition writeRouteDesiredState (routeID desired restartPolicy bootID : string) : HM () :=
  exists_ ← Routes.Exists H Root routeID;
  (if negb exists_ then Routes.Reserve H Root routeID else mret ());;
  loaded ← htry (Routes.LoadIntent H Root routeID);
  let intent := desiredIntent loaded routeID desired restartPolicy in
  intent ← (if eqs desired Routes.DesiredRunning && eqs (Routes.RestartPolicy intent) Routes.RestartManual then
              boot ← (if eqs bootID "" then currentBootID else mret bootID);
              mret (Routes.set_BootID boot intent)
            else mret intent);
  let intent := if eqs desired Routes.DesiredStopped then Routes.set_BootID "" intent else intent in
  Routes.WriteIntent H Root intent.

(** ** up, repair, down *)

Definition stateOf (tunnelID phase : string) (pid : Z) (listenEndpoint err generation : string) : Lifecycle.State :=
  Lifecycle.mkState tunnelID phase pid 0 listenEndpoint Lifecycle.TargetHealthNotChecked "" err "" generation.

Definition upMembers (status tunnelID : string) (s : Lifecycle.State) : list (string * json) :=
  [("status", JStr status); ("tunnel_id", JStr tunnelID); ("phase", JStr (Lifecycle.s_Phase s));
   ("pid", JInt (Lifecycle.PID s)); ("listen_endpoint", JStr (Lifecycle.ListenEndpoint s));
   ("target_health", JStr Lifecycle.TargetHealthNotChecked)]%string.

Definition runUp (tunnelID : string) : HM output :=
  unlessHandled "up" tunnelID
    (boot ← currentBootID;
     writeRouteDesiredState tunnelID Routes.DesiredRunning "" boot;;
     Lifecycle.Lock H ClientRuntimeRoot tunnelID
       (current ← readState tunnelID;
        if eqs (Lifecycle.s_Phase current) Lifecycle.PhaseReady && negb (eqs (Lifecycle.s_Generation current) "")
        then writeJSON (upMembers "already_ready" tunnelID current)
        else
          htry (writeState (stateOf tunnelID Lifecycle.PhasePreparing 0 "" "" ""));;
          r ← htry (projectManagedTunnel tunnelID true);
          match r with
          | Err e =>
              htry (writeState (stateOf tunnelID Lifecycle.PhaseFailed 0 "" (errText e) ""));; hfail e
          | Ok _ => state ← readState tunnelID; writeJSON (upMembers "started" tunnelID state)
          end)).

Definition runRepair (tunnelID : string) : HM output := unlessHandled "repair" tunnelID (runUp tunnelID).

Definition runDown (tunnelID : string) : HM output :=
  unlessHandled "down" tunnelID
    (writeRouteDesiredState tunnelID Routes.DesiredStopped "" "";;
     Lifecycle.Lock H ClientRuntimeRoot tunnelID
       (state ← readState tunnelID;
        let endpoint := Lifecycle.ListenEndpoint state in
        let generation := Lifecycle.s_Generation state in
        htry (writeState (stateOf tunnelID Lifecycle.PhaseStopping (Lifecycle.PID state) endpoint "" generation));;
        r ← htry (projectManagedTunnel tunnelID false);
        match r with
        | Err e =>
            htry (writeState (stateOf tunnelID Lifecycle.PhaseFailed 0 endpoint (errText e) generation));; hfail e
        | Ok _ =>
            htry (writeState (stateOf tunnelID Lifecycle.PhaseStopped 0 endpoint "" generation));;
            writeJSON [("status", JStr "stopped"); ("tunnel_id", JStr tunnelID);
                       ("phase", JStr Lifecycle.PhaseStopped);
                       ("target_health", JStr Lifecycle.TargetHealthNotChecked);
                       ("identity", JStr "preserved")]%string
        end)).

(** ** status *)

Definition authorizationState (receipt : Routes.Receipt) (state : Lifecycle.State) : HM string :=
  if negb (eqs (Routes.r_RevokedAt receipt) "") then mret "revoked"%string
  else if eqs (Routes.r_AuthorizationNotAfter receipt) "" then mret "invalid"%string
  else match Grant.ParseUTC (Routes.r_AuthorizationNotAfter receipt) with
  | Err _ => mret "invalid"%string
  | Ok notAfter =>
      t ← now H;
      mret (if Grant.ReadyToExpire notAfter t then
              if eqs (Lifecycle.s_Phase state) Lifecycle.PhaseFailed || eqs (Lifecycle.s_Error state) "blocked-expired"
              then "expired" else "expiry_expected"
            else if eqs (Lifecycle.s_Phase state) Lifecycle.PhaseReady then "active" else "valid")%string
  end.

(** The dial address of an endpoint, when its host has a canonical form. *)
Definition dialMember (name : string) (endpoint : DialEndpoint) : list (string * json) :=
  match Canonical (Host endpoint) with
  | Ok host => [(name, JStr (JoinHostPort host (Strings.itoa (Port endpoint))))]
  | Err _ => []
  end.

Definition errorClassMember (state : Lifecycle.State) : list (string * json) :=
  if negb (eqs (Lifecycle.ErrorClass state) "") then [("error_class"%string, JStr (Lifecycle.ErrorClass state))]
  else if negb (eqs (Lifecycle.s_Error state) "") then
    ClientStore.omitempty "error_class" (Resolve.classifyClientMessage (Lifecycle.s_Error state))
  else [].

Definition routeStatusPayload (routeID : string) (state : Lifecycle.State) : HM (list (string * json)) :=
  let base :=
    ([("version", JInt 1); ("route_id", JStr routeID); ("tunnel_id", JStr routeID);
      ("actual_state", JStr (Lifecycle.s_Phase state)); ("phase", JStr (Lifecycle.s_Phase state));
      ("listen_endpoint", JStr (Lifecycle.ListenEndpoint state));
      ("target_health", JStr (Lifecycle.TargetHealth state)); ("pid", JInt (Lifecycle.PID state));
      ("generation", JStr (Lifecycle.s_Generation state)); ("last_error", JStr (Lifecycle.s_Error state))]%string
     ++ errorClassMember state) in
  intent ← htry (Routes.LoadIntent H Root routeID);
  let desired := match intent with
    | Ok i => [("desired_state", JStr (Routes.DesiredState i)); ("restart_policy", JStr (Routes.RestartPolicy i))]
    | Err _ => [("desired_state", JStr "")]
    end%string in
  receipt ← htry (Routes.LoadReceipt H Root routeID);
  match receipt with
  | Err _ => mret (base ++ desired)
  | Ok r =>
      authorization ← authorizationState r state;
      mret (base ++ desired
        ++ [("client_id", JStr (Routes.r_ClientID r));
            ("authorization_not_after", JStr (Routes.r_AuthorizationNotAfter r));
            ("authorization_duration_seconds", JInt (Routes.r_AuthorizationDurationSeconds r))]%string
        ++ dialMember "data_dial" (Data (Routes.r_Published r))
        ++ dialMember "enrollment_dial" (Enrollment (Routes.r_Published r))
        ++ [("published_endpoint_generation", JInt (ps_Generation (Routes.r_Published r)));
            ("target_endpoint", JStr (Routes.r_Target r));
            ("authorization_state", JStr authorization)]%string)
  end.

Definition textOf (payload : list (string * json)) (name : string) : string :=
  match find (λ m, eqs m.1 name) payload with Some (_, JStr s) => s | _ => "" end.
Definition stateLine (state : Lifecycle.State) : string :=
  Lifecycle.TunnelID state ++ " " ++ Lifecycle.s_Phase state ++ " listen=" ++ Lifecycle.ListenEndpoint state
  ++ " target_health=" ++ Lifecycle.TargetHealth state ++ " pid=" ++ Strings.itoa (Lifecycle.PID state).

(** [status] of one tunnel, or of all. *)
Definition runStatus (tunnelID : option string) (useJSON : bool) : HM output :=
  unlessHandled "status" (default "" tunnelID)
    match tunnelID with
    | Some id =>
        state ← readState id;
        payload ← routeStatusPayload id state;
        if useJSON then writeJSON payload
        else mret (Plain [Lifecycle.TunnelID state ++ " " ++ textOf payload "actual_state" ++ " desired="
                          ++ textOf payload "desired_state" ++ " listen=" ++ Lifecycle.ListenEndpoint state
                          ++ " target_health=" ++ Lifecycle.TargetHealth state ++ " pid="
                          ++ Strings.itoa (Lifecycle.PID state)]%string)
    | None =>
        states ← Lifecycle.List H procRead probe ClientRuntimeRoot;
        if useJSON
        then writeJSON [("tunnels"%string, JArr ((λ s, JObj (Lifecycle.stateMembers s)) <$> states))]
        else mret (Plain (stateLine <$> states))
    end.

(** ** forget, routes *)

Definition runForget (tunnelID : string) : HM output :=
  unlessHandled "forget" tunnelID
    (htry (projectManagedTunnel tunnelID false);;
     r ← htry (Routes.Remove H Root tunnelID);
     match r with
     | Err e => if IsNotExist e
                then writeJSON [("status", JStr "forgotten"); ("tunnel_id", JStr tunnelID)]%string else hfail e
     | Ok _ => writeJSON [("status", JStr "forgotten"); ("tunnel_id", JStr tunnelID)]%string
     end).

Definition routeMembers (route : Routes.ListedRoute) : list (string * json) :=
  [("route_id"%string, JStr (Routes.l_RouteID route))]
  ++ ClientStore.omitempty "desired_state" (Routes.DesiredState (Routes.l_Intent route))
  ++ ClientStore.omitempty "restart_policy" (Routes.RestartPolicy (Routes.l_Intent route))
  ++ ClientStore.omitempty "listen_endpoint" (Routes.l_Listen route)
  ++ ClientStore.omitempty "target_endpoint" (Routes.r_Target (Routes.l_Receipt route))
  ++ ClientStore.omitempty "authorization_not_after" (Routes.r_AuthorizationNotAfter (Routes.l_Receipt route))
  ++ [("invalid"%string, JBool (Routes.l_Invalid route))]
  ++ ClientStore.omitempty "error" (Routes.l_Error route).
Definition routeLine (route : Routes.ListedRoute) : string :=
  if Routes.l_Invalid route then Routes.l_RouteID route ++ " invalid " ++ Routes.l_Error route
  else Routes.l_RouteID route ++ " " ++ Routes.DesiredState (Routes.l_Intent route) ++ " restart="
       ++ Routes.RestartPolicy (Routes.l_Intent route) ++ " listen=" ++ Routes.l_Listen route.
Definition runRoutes (useJSON : bool) : HM output :=
  unlessHandled "routes" ""
    (listed ← Routes.List H Root;
     if useJSON
     then writeJSON [("version", JInt 1); ("routes", JArr ((λ r, JObj (routeMembers r)) <$> listed))]%string
     else mret (Plain (routeLine <$> listed))).

(** ** reconcile *)

Record report := mkReport {
  started : list string;
  skipped : list string;
  failed : gmap string string;
  projectionErrors : gmap string string;
}.
Definition emptyReport : report := mkReport [] [] ∅ ∅.
Definition addStarted (id : string) (p : report) : report :=
  mkReport (started p ++ [id]) (skipped p) (failed p) (projectionErrors p).
Definition addSkipped (id : string) (p : report) : report :=
  mkReport (started p) (skipped p ++ [id]) (failed p) (projectionErrors p).
Definition addFailed (id text : string) (p : report) : report :=
  mkReport (started p) (skipped p) (<[id := text]> (failed p)) (projectionErrors p).
Definition addProjectionError (id text : string) (p : report) : report :=
  mkReport (started p) (skipped p) (failed p) (<[id := text]> (projectionErrors p)).

(** One turn of the loop over the listed routes. *)
Definition reconcileRoute (bootID : string) (route : Routes.ListedRoute) (p : report) : HM report :=
  let id := Routes.l_RouteID route in
  let receipt := Routes.l_Receipt route in
  if Routes.l_Invalid route then mret (addSkipped id p)
  else if eqs (Routes.r_ClientID receipt) "" || eqs (Routes.r_AuthorizationNotAfter receipt) ""
  then mret (addSkipped id p)
  else
    expired ← match Grant.ParseUTC (Routes.r_AuthorizationNotAfter receipt) with
              | Err _ => mret true
              | Ok notAfter => t ← now H; mret (Grant.ReadyToExpire notAfter t)
              end;
    if (expired : bool) then mret (addSkipped id p)
    else if negb (eqs (Routes.r_RevokedAt receipt) "") then mret (addSkipped id p)
    else if negb (Routes.ShouldStartAtBoot (Routes.l_Intent route) bootID) then
      if eqs (Routes.DesiredState (Routes.l_Intent route)) Routes.DesiredStopped then
        r ← htry (projectManagedTunnel id false);
        match r with
        | Err e => mret (addSkipped id (addProjectionError id (errText e) p))
        | Ok _ => mret (addSkipped id p)
        end
      else mret (addSkipped id p)
    else
      r ← htry (projectManagedTunnel id true);
      match r with
      | Err e => mret (addFailed id (errText e) p)
      | Ok _ => mret (addStarted id p)
      end.
Fixpoint reconcileRoutes (bootID : string) (routes : list Routes.ListedRoute) (p : report) : HM report :=
  match routes with
  | [] => mret p
  | route :: rest => p ← reconcileRoute bootID route p; reconcileRoutes bootID rest p
  end.

Definition runReconcile : HM report :=
  listed ← Routes.List H Root;
  bootID ← currentBootID;
  p ← reconcileRoutes bootID listed emptyReport;
  sys H;;                                        (* writeJSON *)
  mret p.

(** ** uninstall *)

Fixpoint stopTunnels (states : list Lifecycle.State) (stopErrors : gmap string string) : HM (gmap string string) :=
  match states with
  | [] => mret stopErrors
  | state :: rest =>
      r ← htry (projectManagedTunnel (Lifecycle.TunnelID state) false);
      match r with
      | Err e => stopTunnels rest (<[Lifecycle.TunnelID state := errText e]> stopErrors)
      | Ok _ =>
          htry (writeState (stateOf (Lifecycle.TunnelID state) Lifecycle.PhaseStopped 0 (Lifecycle.ListenEndpoint state) ""
                              (Lifecycle.s_Generation state)));;
          stopTunnels rest stopErrors
      end
  end.
Definition runUninstall (preserve : bool) : HM output :=
  if negb preserve
  then hfail (EMsg "uninstall requires --preserve-identity (destroying identity is an explicit package uninstall path)")
  else unlessHandled "uninstall" ""
    (listed ← htry (Lifecycle.List H procRead probe ClientRuntimeRoot);
     stopErrors ← stopTunnels (match listed with Ok states => states | Err _ => [] end) ∅;
     out ← writeJSON [("status", JStr "stopped_local_tunnels"); ("identity", JStr "preserved");
                      ("stop_errors", JObj ((λ x : string * string, (x.1, JStr x.2)) <$> map_to_list stopErrors));
                      ("note", JStr "package removal remains a platform package manager concern")]%string;
     if (0 <? size stopErrors)%nat
     then hfail (EMsg ("uninstall: " ++ Strings.itoa (Z.of_nat (size stopErrors)) ++ " tunnels failed to stop"))
     else mret out).

(** ** connect *)

Definition transitionConnectTransaction (tx : Routes.Transaction) (routeID phase journalError : string)
    : Routes.Transaction :=
  Routes.set_t_UpdatedAt "" (Routes.set_t_Error journalError (Routes.set_t_Phase phase (Routes.set_t_RouteID routeID tx))).

Definition buildConnectEnrollArgs (invitePath : string) (yes : bool) (proofPath : string) (listenPort : Z)
    (restartPolicy : string) : list string :=
  (if negb (listenPort =? 0) then ["--listen-port"%string; Strings.itoa listenPort] else [])
  ++ ["--restart"%string; restartPolicy]
  ++ (if yes then ["--yes"%string] else [])
  ++ (if negb (eqs proofPath "") then ["--proof"%string; proofPath] else [])
  ++ [invitePath].

(** A string member of the enroll output; the last of its name counts. *)
Definition stringMember (m : list (string * json)) (name : string) : string :=
  match find (λ x, eqs x.1 name) (reverse m) with Some (_, JStr s) => s | _ => "" end.
Definition parseEnrollConnectFields (enrollJSON : string) : result (string * string * string) :=
  let text := Strings.trim_space enrollJSON in
  if eqs text "" then Err (EMsg "enroll produced no output")
  else match parse_all (to_bytes text) with
  | Err e => Err (EMsg ("parse enroll output: " ++ errText e))
  | Ok (JObj m) =>
      let tunnelID := stringMember m "tunnel_id" in
      let listenEndpoint := stringMember m "listen_endpoint" in
      if eqs tunnelID "" || eqs listenEndpoint ""
      then Err (EMsg "enroll output missing tunnel_id or listen_endpoint")
      else Ok (tunnelID, listenEndpoint, stringMember m "service_endpoint")
  | Ok JNull => Err (EMsg "enroll output missing tunnel_id or listen_endpoint")
  | Ok _ => Err (EMsg "parse enroll output: cannot unmarshal")
  end.

Definition connectedLines (listenEndpoint serviceEndpoint tunnelID : string) (service : bool) : output :=
  Plain (["connected"; "open     " ++ listenEndpoint]%string
         ++ (if service then ["service  " ++ serviceEndpoint]%string else []) ++ ["tunnel   " ++ tunnelID]%string).
Definition enrolledNotReady (tunnelID : string) : error :=
  EMsg ("enrolled as " ++ tunnelID ++ " but not ready").

Definition finishInstalledConnect (tunnelID listenEndpoint serviceEndpoint : string) : HM output :=
  r ← htry (runUp tunnelID);
  match r with
  | Err _ => htry (sys H);; hfail (enrolledNotReady tunnelID)
  | Ok _ => sys H;; mret (connectedLines listenEndpoint serviceEndpoint tunnelID (negb (eqs serviceEndpoint "")))
  end.

(** The end of [connect] when the tunnel is brought up the first time. *)
Definition finishConnect (tx : Routes.Transaction) (tunnelID listenEndpoint serviceEndpoint : string) : HM output :=
  r ← htry (runUp tunnelID);
  match r with
  | Err e =>
      Routes.WriteTransaction H Root
        (transitionConnectTransaction tx tunnelID Routes.PhaseEnrolledNotReady (errText e));;
      htry (sys H);; hfail (enrolledNotReady tunnelID)
  | Ok _ =>
      Routes.WriteTransaction H Root (transitionConnectTransaction tx tunnelID Routes.PhaseConnected "");;
      sys H;; mret (connectedLines listenEndpoint serviceEndpoint tunnelID (negb (eqs serviceEndpoint "")))
  end.

(** [connect] once the route is enrolled. *)
Definition connectEnrolled (tunnelID listenEndpoint serviceEndpoint : string) : HM output :=
  loaded ← htry (Routes.LoadTransaction H Root tunnelID);
  match loaded with
  | Err e =>
      if IsNotExist e then finishConnect Routes.zeroTransaction tunnelID listenEndpoint serviceEndpoint else hfail e
  | Ok tx =>
      if eqs (Routes.t_Phase tx) Routes.PhaseEnrolledNotReady then
        runRepair tunnelID;;
        Routes.WriteTransaction H Root (transitionConnectTransaction tx tunnelID Routes.PhaseConnected "");;
        sys H;; mret (connectedLines listenEndpoint serviceEndpoint tunnelID true)
      else finishConnect tx tunnelID listenEndpoint serviceEndpoint
  end.

(** [--listen-port]: zero when it is not given. *)
Definition parseListenPort (value : string) : result Z :=
  if eqs value "" then Ok 0
  else match Strings.parse_uint value 16 with
  | Ok port => if port =? 0 then Err (EMsg "listen-port must be a nonzero TCP port") else Ok port
  | Err _ => Err (EMsg "listen-port must be a nonzero TCP port")
  end.

(** [connect] after its flags are parsed; [enroll] runs the enrollment with the
    given arguments and returns what it prints. *)
Definition runConnect (enroll : list string → HM string) (invitePath proofPath restart listenPort : string) (yes : bool)
    : HM output :=
  if eqs (Strings.trim_space invitePath) "" then hfail (EMsg "connect requires exactly one invite file path")
  else
    restartPolicy ← hlift (Routes.ParseRestartPolicy restart);
    port ← hlift (parseListenPort listenPort);
    enrollOut ← enroll (buildConnectEnrollArgs invitePath yes proofPath port restartPolicy);
    fields ← hlift (parseEnrollConnectFields enrollOut);
    let '(tunnelID, listenEndpoint, serviceEndpoint) := fields in
    if p_used P then finishInstalledConnect tunnelID listenEndpoint serviceEndpoint
    else connectEnrolled tunnelID listenEndpoint serviceEndpoint.

End commands.

End Tunnels.
