(* ===== verification/TunnelProps.v ===== *)
(** * What a reconciliation starts, and why a stopped tunnel stays stopped *)

From S2P Require Import Prelude GoStd Json StrictJson Time Text Host Locator Grant GrantProps SshWire Crypto Packet.
From S2P Require Import Kex Listen ClientStore ClientCodec Server Clients ClientProps AuthorizedKeys GrantSession.
From S2P Require Import ServerProps SessionProps Reconcile Frame Layout Invite Accept InviteClient InviteProps Enroll.
From S2P Require Import EnrollProps Resolve Routes RouteProps RouteCodec Lifecycle LifecycleProps Tunnels.
Import Time Locator.
Import Tunnels.

(** ** The documents a listed route shows *)

Section listing.
Context (H : hostEnv) (R : string) (fs : gmap string bytes).

(** The document of a route, as the store decodes it. *)
Definition documentOf {A} (fields : list (Json.field A)) (zero : A) (routeID file : string) : result A :=
  match fs !! Routes.fileOf R routeID file with
  | Some c => Routes.strictJSON fields zero c
  | None => Err (EOS ENOENT)
  end.
Definition intentOf (routeID : string) : result Routes.Intent :=
  i ← documentOf Routes.intentFields Routes.zeroIntent routeID "desired.json";
  let i := if Routes.eqs (Routes.i_RouteID i) "" then Routes.set_i_RouteID routeID i else i in
  Routes.ValidateIntent i;; Ok i.
Definition receiptOf (routeID : string) : result Routes.Receipt :=
  r ← documentOf Routes.receiptFields Routes.zeroReceipt routeID "receipt.json";
  Ok (if Routes.eqs (Routes.r_RouteID r) "" then Routes.set_r_RouteID routeID r else r).

(** What is listed as a valid route is what its documents say. *)
Definition shows (l : Routes.ListedRoute) : Prop :=
  Routes.l_Invalid l = false →
  intentOf (Routes.l_RouteID l) = Ok (Routes.l_Intent l) ∧
  (Routes.l_Receipt l = Routes.zeroReceipt ∨ receiptOf (Routes.l_RouteID l) = Ok (Routes.l_Receipt l)).

Lemma reads_contents dir path : reads fs (ReadIn H dir path) (λ r, match r with Ok c => fs !! path = Some c | Err _ => True end).
Proof using.
  unfold ReadIn. eapply (reads_bind _ _ _ (λ f, f = fs)); [by intros w <-|]. intros ? ->. destruct (isFile dir fs).
  - eapply (reads_bind _ _ _ (λ _, True)); [apply reads_sys_any; by intros []|]. intros; by apply reads_fail.
  - unfold ReadFile. eapply (reads_bind _ _ _ (λ _, True)); [apply reads_sys_any; by intros []|]. intros _ _.
    eapply (reads_bind _ _ _ (λ f, f = fs)); [by intros w <-|]. intros ? ->.
    destruct (fs !! path) eqn:E; [by apply reads_ret|by apply reads_fail].
Qed.

Lemma reads_document {A} (fields : list (Json.field A)) zero routeID file :
  reads fs (Routes.readStrictJSON H fields zero (Routes.routeDirOf R routeID) (Routes.fileOf R routeID file))
    (λ r, match r with Ok a => documentOf fields zero routeID file = Ok a | Err _ => True end).
Proof using.
  unfold Routes.readStrictJSON. eapply (reads_bind _ _ _ (λ c, fs !! Routes.fileOf R routeID file = Some c)).
  { eapply reads_weaken; [apply reads_contents|]. by intros []. }
  intros c Hc. apply reads_pure. unfold documentOf. rewrite Hc. by destruct (Routes.strictJSON fields zero c).
Qed.

Lemma reads_LoadIntent routeID :
  reads fs (Routes.LoadIntent H R routeID) (λ r, match r with Ok i => intentOf routeID = Ok i | Err _ => True end).
Proof using.
  unfold Routes.LoadIntent, Routes.intentPath, Routes.routeDir.
  destruct (Routes.ValidateRouteID routeID); [|by apply reads_fail].
  eapply (reads_bind _ _ _ (λ p, p = Routes.fileOf R routeID "desired.json")); [by apply reads_pure|]. intros ? ->.
  eapply (reads_bind _ _ _ (λ i, documentOf Routes.intentFields Routes.zeroIntent routeID "desired.json" = Ok i)).
  { eapply reads_weaken; [apply reads_document|]. by intros []. }
  intros i Hi. unfold intentOf. rewrite Hi. cbn [mbind result_bind]. cbv zeta.
  destruct (Routes.ValidateIntent _); [by apply reads_ret|by apply reads_fail].
Qed.

Lemma reads_receipt routeID :
  reads fs (Routes.LoadReceipt H R routeID) (λ r, match r with Ok r => receiptOf routeID = Ok r | Err _ => True end).
Proof using.
  unfold Routes.LoadReceipt, Routes.receiptPath, Routes.routeDir.
  destruct (Routes.ValidateRouteID routeID); [|by apply reads_fail].
  eapply (reads_bind _ _ _ (λ p, p = Routes.fileOf R routeID "receipt.json")); [by apply reads_pure|]. intros ? ->.
  eapply (reads_bind _ _ _ (λ i, documentOf Routes.receiptFields Routes.zeroReceipt routeID "receipt.json" = Ok i)).
  { eapply reads_weaken; [apply reads_document|]. by intros []. }
  intros r Hr. apply reads_ret. unfold receiptOf. by rewrite Hr.
Qed.

Lemma reads_shown name isDir :
  reads fs (Routes.listRoute H R name isDir) (λ r, match r with Ok l => Routes.l_RouteID l = name ∧ shows l | Err _ => True end).
Proof using.
  unfold Routes.listRoute. destruct (negb isDir); [by apply reads_ret|].
  destruct (Routes.ValidateRouteID name); [|by apply reads_ret].
  eapply reads_try; [apply reads_LoadIntent|]. intros [intent|e] Hi; [|by apply reads_ret].
  eapply reads_try; [apply reads_receipt|]. intros [receipt|e] Hr.
  - destruct (Routes.ValidateReceipt receipt); apply reads_ret; (split; [done|]); intros [=]. split; [done|by right].
  - destruct (IsNotExist e); apply reads_ret; (split; [done|]); intros [=]. split; [done|by left].
Qed.

Lemma reads_routes entries :
  reads fs (Routes.listRoutes H R entries) (λ r, match r with Ok ls => Forall shows ls | Err _ => True end).
Proof using.
  induction entries as [|[name isDir] rest IH]; cbn [Routes.listRoutes]; [by apply reads_ret|].
  destruct (Routes.eqs name ".lock"); [done|].
  eapply (reads_bind _ _ _ shows). { eapply reads_weaken; [apply reads_shown|]. intros [l|]; [by intros []|done]. }
  intros l Hl. eapply (reads_bind _ _ _ (Forall shows)). { eapply reads_weaken; [exact IH|]. by intros []. }
  intros ls Hls. apply reads_ret. by constructor.
Qed.

Lemma reads_list : reads fs (Routes.List H R) (λ r, match r with Ok ls => Forall shows ls | Err _ => True end).
Proof using.
  unfold Routes.List. eapply (reads_try _ _ _ (λ _, True)).
  { apply reads_moves. intros Q HQ. unfold ReadEntries. frame. }
  intros [es|e] _; [apply reads_routes|]. destruct (IsNotExist e); [by apply reads_ret|by apply reads_fail].
Qed.

End listing.

(** ** One turn of a reconciliation *)

(** Whether a listed route is to be running, at a time. *)
Definition eligible (bootID : string) (t : Time) (route : Routes.ListedRoute) : bool :=
  negb (Routes.l_Invalid route) && negb (eqs (Routes.r_ClientID (Routes.l_Receipt route)) "")
  && negb (eqs (Routes.r_AuthorizationNotAfter (Routes.l_Receipt route)) "")
  && match Grant.ParseUTC (Routes.r_AuthorizationNotAfter (Routes.l_Receipt route)) with
     | Ok notAfter => negb (Grant.ReadyToExpire notAfter t)
     | Err _ => false
     end
  && eqs (Routes.r_RevokedAt (Routes.l_Receipt route)) "" && Routes.ShouldStartAtBoot (Routes.l_Intent route) bootID.

(** What a report says of one more route. *)
Definition reported (start : bool) (id : string) (p p' : report) : Prop :=
  if start then
    skipped p' = skipped p ∧
    (started p' = started p ++ [id] ∧ failed p' = failed p ∨
     started p' = started p ∧ ∃ text, failed p' = <[id := text]> (failed p))
  else skipped p' = skipped p ++ [id] ∧ started p' = started p ∧ failed p' = failed p.

Section reconcile.
Context (H : hostEnv).
Context (exec : nat → list string → gmap string bytes → option error * gmap string bytes).

Lemma try_spec {A B} (m : HM A) (f : result A → HM B) w : ∃ r w', (htry m ≫= f) w = f r w'.
Proof using. unfold htry, mbind, HM_bind. destruct (m w) as [r w']. eauto. Qed.

Lemma now_then {A B} (g : Time → A) (k : A → HM B) w :
  ((t ← now H; mret (g t)) ≫= k) w = k (g (h_now H (calls w))) (mkWorld (files w) (S (calls w))).
Proof using. reflexivity. Qed.

Lemma reconcileRoute_spec bootID route p w :
  ∃ n p' w', reconcileRoute H exec bootID route p w = (Ok p', w') ∧
    reported (eligible bootID (h_now H n) route) (Routes.l_RouteID route) p p'.
Proof using.
  unfold reconcileRoute, eligible.
  destruct (Routes.l_Invalid route); [by eexists 0%nat, _, _|].
  destruct (eqs (Routes.r_ClientID _) ""); [by eexists 0%nat, _, _|].
  destruct (eqs (Routes.r_AuthorizationNotAfter _) ""); [by eexists 0%nat, _, _|]. cbn [negb orb andb].
  destruct (Grant.ParseUTC _) as [notAfter|e]; [|by eexists 0%nat, _, _].
  exists (calls w). rewrite now_then.
  destruct (Grant.ReadyToExpire notAfter (h_now H (calls w))); [by eexists _, _|]. cbn [negb andb].
  destruct (eqs (Routes.r_RevokedAt _) ""); [|by eexists _, _]. cbn [negb andb].
  destruct (Routes.ShouldStartAtBoot _ bootID); cbn [negb].
  - destruct (try_spec (projectManagedTunnel H exec (Routes.l_RouteID route) true) (λ r, match r with
      | Ok _ => mret (addStarted (Routes.l_RouteID route) p)
      | Err e => mret (addFailed (Routes.l_RouteID route) (errText e) p) end)
      (mkWorld (files w) (S (calls w)))) as ([[]|e] & w' & ->); eexists _, _; (split; [reflexivity|]); cbn; eauto.
  - destruct (eqs (Routes.DesiredState _) Routes.DesiredStopped); [|by eexists _, _].
    destruct (try_spec (projectManagedTunnel H exec (Routes.l_RouteID route) false) (λ r, match r with
      | Ok _ => mret (addSkipped (Routes.l_RouteID route) p)
      | Err e => mret (addSkipped (Routes.l_RouteID route) (addProjectionError (Routes.l_RouteID route) (errText e) p)) end)
      (mkWorld (files w) (S (calls w)))) as ([[]|e] & w' & ->); by eexists _, _.
Qed.

Lemma boot_then {B} (procRead : nat → string → result bytes) (k : string → HM B) w :
  (currentBootID procRead ≫= k) w =
  k (match procRead (calls w) "/proc/sys/kernel/random/boot_id" with
     | Ok contents => Strings.trim_space (to_string contents) | Err _ => "" end)%string (mkWorld (files w) (S (calls w))).
Proof using. reflexivity. Qed.

(** The routes of a report that are, or are not, eligible at the times [ns]. *)
Definition chosen (b : bool) (bootID : string) (routes : list Routes.ListedRoute) (ns : list nat) : list string :=
  omap (λ x : Routes.ListedRoute * nat,
    if Bool.eqb (eligible bootID (h_now H x.2) x.1) b then Some (Routes.l_RouteID x.1) else None) (zip routes ns).

Definition attempted (p : report) (id : string) : Prop := id ∈ started p ∨ is_Some (failed p !! id).

Lemma reported_attempted start id p p' :
  reported start id p p' → ∀ x, attempted p' x ↔ attempted p x ∨ start = true ∧ x = id.
Proof using.
  intros Hr x. unfold attempted. destruct start; cbn in Hr.
  - destruct Hr as [_ [[-> ->]|[-> [text ->]]]].
    + rewrite elem_of_app, list_elem_of_singleton. tauto.
    + destruct (decide (x = id)) as [-> |]; [rewrite lookup_insert_eq; split; eauto|].
      rewrite lookup_insert_ne by done. split; [auto|by intros [?|[_ ?]]].
  - destruct Hr as (_ & -> & ->). split; [auto|by intros [?|[? _]]].
Qed.

Lemma reconcileRoutes_spec bootID routes : ∀ p w, ∃ ns p' w',
  reconcileRoutes H exec bootID routes p w = (Ok p', w') ∧ length ns = length routes ∧
  skipped p' = skipped p ++ chosen false bootID routes ns ∧
  ∀ x, attempted p' x ↔ attempted p x ∨ x ∈ chosen true bootID routes ns.
Proof using.
  induction routes as [|route routes IH]; intros p w; cbn [reconcileRoutes].
  { exists [], p, w. split_and!; [done..|by rewrite app_nil_r|]. intros x. rewrite elem_of_nil. tauto. }
  destruct (reconcileRoute_spec bootID route p w) as (n & p1 & w1 & Hstep & Hrep).
  destruct (IH p1 w1) as (ns & p' & w' & Hrest & Hlen & Hskip & Hatt).
  exists (n :: ns), p', w'. unfold mbind, HM_bind. rewrite Hstep. split_and!; [done|cbn; by rewrite Hlen| |].
  - rewrite Hskip. unfold chosen. cbn [zip zip_with omap list_omap fst snd].
    destruct (eligible bootID (h_now H n) route); cbn [Bool.eqb]; [by destruct Hrep as [-> _]|].
    destruct Hrep as [-> _]. by rewrite <- app_assoc.
  - intros x. rewrite Hatt, (reported_attempted _ _ _ _ Hrep). unfold chosen. cbn [zip zip_with omap list_omap fst snd].
    destruct (eligible bootID (h_now H n) route); cbn [Bool.eqb]; [rewrite elem_of_cons|]; intuition congruence.
Qed.

End reconcile.

(** The run of a reconciliation that lists the routes [listed]. *)
Lemma runReconcile_spec (H : hostEnv) procRead exec w p w' :
  runReconcile H procRead exec w = (Ok p, w') →
  ∃ listed bootID ns, (Routes.List H Root w).1 = Ok listed ∧ length ns = length listed ∧
    skipped p = chosen H false bootID listed ns ∧ (∀ id, attempted p id ↔ id ∈ chosen H true bootID listed ns).
Proof.
  unfold runReconcile, mbind at 1, HM_bind at 1.
  destruct (Routes.List H Root w) as [[listed|e] w1]; [|done]. cbn [fst]. rewrite boot_then.
  set (bootID := match procRead _ _ with Ok _ => _ | Err _ => _ end).
  destruct (reconcileRoutes_spec H exec bootID listed emptyReport (mkWorld (files w1) (S (calls w1))))
    as (ns & p1 & w2 & Hrun & Hlen & Hskip & Hatt).
  unfold mbind at 1, HM_bind at 1. rewrite Hrun. intros Hrest.
  assert (p = p1) as ->.
  { unfold mbind, HM_bind in Hrest. destruct (sys H w2) as [[]]; [|done]. by injection Hrest as <- _. }
  exists listed, bootID, ns. split_and!; [done..|].
  intros id. rewrite Hatt. unfold attempted. cbn. rewrite elem_of_nil, lookup_empty. split; [|auto].
  by intros [[[]|[? [=]]]|?].
Qed.

