(* ===== verification/TunnelSafety.v ===== *)
(** * A tunnel that was stopped stays stopped

    [down] records the desired state before it stops the process; from then on
    no reconciliation starts the tunnel, on any host and after any boot, until
    the record is changed. *)

From S2P Require Import Prelude GoStd Json StrictJson Time Text Host Locator Grant GrantProps SshWire Crypto Packet.
From S2P Require Import Kex Listen ClientStore ClientCodec Server Clients ClientProps AuthorizedKeys GrantSession.
From S2P Require Import ServerProps SessionProps Reconcile Frame Layout Invite Accept InviteClient InviteProps Enroll.
From S2P Require Import EnrollProps Resolve Routes RouteProps RouteCodec Lifecycle LifecycleProps Tunnels TunnelProps.
Import Time Locator.
Import Tunnels.

Lemma Root_eq : Root = ClientRoutesDirectory.
Proof. vm_compute. reflexivity. Qed.
Lemma Root_clean : clean_root Root.
Proof. rewrite Root_eq. split_and!; [vm_compute; reflexivity|vm_compute; reflexivity|discriminate]. Qed.
Lemma Runtime_clean : clean_root ClientRuntimeRoot.
Proof. split_and!; [vm_compute; reflexivity|vm_compute; reflexivity|discriminate]. Qed.

Definition desiredFile (routeID : string) : string := Routes.fileOf Root routeID "desired.json".

(** ** The state files are elsewhere *)

Definition runtime (p : string) : Prop := ∃ rest, p = (ClientRuntimeRoot ++ rest)%string.

Lemma desired_not_runtime routeID : route_id routeID → ¬ runtime (desiredFile routeID).
Proof.
  intros [Hn _]%route_id_plain [rest E]. unfold desiredFile in E. rewrite fileOf_eq in E by first [apply Root_clean|done|plain].
  rewrite Root_eq in E. discriminate E.
Qed.

Lemma append_assoc (a b c : string) : (a ++ b ++ c = (a ++ b) ++ c)%string.
Proof. apply to_bytes_inj. by rewrite !Locator.to_bytes_append, <- !app_assoc. Qed.

Section states.
Context (H : hostEnv) (procRead : nat → string → result bytes) (probe : nat → Z → option error).

Lemma runtime_dir id : plain_name id → Lifecycle.tunnelDir ClientRuntimeRoot id = (ClientRuntimeRoot ++ "/" ++ id)%string.
Proof using. intros Hn. by apply (routeDirOf_eq ClientRuntimeRoot Runtime_clean). Qed.
Lemma runtime_file id name : plain_name id → plain_name name → runtime (Filepath.Join (Lifecycle.tunnelDir ClientRuntimeRoot id) name).
Proof using.
  intros Hn Hf. change (Filepath.Join _ name) with (Routes.fileOf ClientRuntimeRoot id name).
  rewrite fileOf_eq by first [apply Runtime_clean|done]. by eexists.
Qed.

Lemma within_mkdir id : plain_name id → within runtime (MkdirAll H (Lifecycle.tunnelDir ClientRuntimeRoot id)).
Proof using.
  intros Hn. unfold MkdirAll. frame. apply moves_set. intros fs. apply outside_insert. rewrite runtime_dir by done.
  exists ("/" ++ id ++ "/")%string. unfold dirMark. by rewrite <- !append_assoc.
Qed.

Lemma within_lockFile {A} id name kind (body : HM A) :
  plain_name id → plain_name name → within runtime body →
  within runtime (Lifecycle.lockFile H ClientRuntimeRoot id (Filepath.Join (Lifecycle.tunnelDir ClientRuntimeRoot id) name) kind body).
Proof using.
  intros Hn Hf Hb. unfold Lifecycle.lockFile. frame; [by apply within_mkdir|].
  apply moves_OpenCreate; [apply _|]. intros fs _. apply outside_insert. by apply runtime_file.
Qed.

Lemma moves_readState id R `{!PreOrder R} : moves R (readState H procRead probe id).
Proof using.
  unfold readState, Lifecycle.Read, Lifecycle.refresh, Lifecycle.processMatches, Lifecycle.processStartIdentity, ReadIn. frame.
Qed.

Lemma complete_id s s' : produces (Lifecycle.complete H procRead s) s' → Lifecycle.TunnelID s' = Lifecycle.TunnelID s.
Proof using.
  intros (w & w' & Hc). unfold Lifecycle.complete in Hc.
  set (s1 := if Lifecycle.eqs _ _ then _ else s) in Hc.
  assert (Lifecycle.TunnelID s1 = Lifecycle.TunnelID s) as <- by (subst s1; by destruct (Lifecycle.eqs _ _)).
  unfold mbind at 1, HM_bind in Hc. destruct (Routes.stamp H _ w) as [[u|] w1]; [|done].
  destruct (0 <? _); [|by injection Hc as <- _].
  unfold Lifecycle.processStartIdentity, call, mbind, HM_bind in Hc. cbn [mret HM_ret] in Hc. injection Hc as <- _.
  by destruct (match procRead _ _ with Ok _ => _ | Err _ => _ end).
Qed.

Lemma within_writeState s : within runtime (writeState H procRead s).
Proof using.
  unfold writeState, Lifecycle.Write. apply moves_checked; [apply _|]. intros [] Hid%validateTunnelID_iff.
  apply moves_bind_produced; [apply _|unfold Lifecycle.complete, Routes.stamp, Lifecycle.processStartIdentity; frame|].
  intros s' ->%complete_id. destruct (route_id_plain _ Hid) as [Hn _].
  assert (plain_name "state.json") by plain. assert (plain_name "pid") by plain.
  frame; [by apply within_mkdir| | |].
  - apply within_replaceFile; [by apply runtime_file| |frame]. intros n. unfold tempName, Lifecycle.statePath.
    change (Filepath.Join _ "state.json") with (Routes.fileOf ClientRuntimeRoot (Lifecycle.TunnelID s) "state.json").
    rewrite Dir_fileOf by first [apply Runtime_clean|done]. rewrite <- append_assoc. by eexists.
  - unfold Lifecycle.WriteFile. frame; [apply moves_set; intros fs; apply outside_insert|apply within_Write]; by apply runtime_file.
  - apply within_Remove. by apply runtime_file.
Qed.
End states.

(** ** The desired state that is recorded *)

Definition sameIntent (routeID : string) (fs fs' : gmap string bytes) : Prop :=
  fs' !! desiredFile routeID = fs !! desiredFile routeID.
#[global] Instance sameIntent_preorder routeID : PreOrder (sameIntent routeID).
Proof. split; [by intros fs|]. intros fs1 fs2 fs3 H1 H2. unfold sameIntent in *. by rewrite H2. Qed.

Lemma intentOf_same routeID fs fs' : sameIntent routeID fs fs' → intentOf Root fs' routeID = intentOf Root fs routeID.
Proof. unfold sameIntent, desiredFile, intentOf, documentOf. intros ->. reflexivity. Qed.

Lemma run_moves {A} (R : relation (gmap string bytes)) (m : HM A) w r w' : moves R m → m w = (r, w') → R (files w) (files w').
Proof. intros Hm Hr. specialize (Hm w). by rewrite Hr in Hm. Qed.

Lemma mark_not_desired id : route_id id → dirMark (Root ++ "/" ++ id) ≠ desiredFile id.
Proof.
  intros [Hn _]%route_id_plain. unfold dirMark, desiredFile. rewrite fileOf_eq by first [apply Root_clean|done|plain].
  replace ((Root ++ "/" ++ id) ++ "/")%string with (Root ++ "/" ++ id ++ "/" ++ "")%string
    by (apply to_bytes_inj; by rewrite !Locator.to_bytes_append, <- !app_assoc).
  intros [_ E]%below_route; [done|apply Hn..].
Qed.

Section desired.
Context (H : hostEnv) (procRead : nat → string → result bytes) (probe : nat → Z → option error).
Context (exec : nat → list string → gmap string bytes → option error * gmap string bytes).

Lemma moves_Reserve id : moves (sameIntent id) (Routes.Reserve H Root id).
Proof using.
  unfold Routes.Reserve. apply moves_checked; [apply _|]. intros d (Hid & ->)%(routeDir_Ok Root Root_clean). unfold Mkdir. frame.
  apply moves_set. intros fs. apply lookup_insert_ne. by apply mark_not_desired.
Qed.

Lemma moves_run arguments id :
  (∀ n fs, sameIntent id fs (exec n arguments fs).2) → moves (sameIntent id) (runCommand exec arguments).
Proof using.
  intros He w. unfold runCommand, call, get_files, set_files, mbind, HM_bind. cbn [files calls].
  specialize (He (calls w) (files w)). destruct (exec (calls w) arguments (files w)) as [[e|] fs']; exact He.
Qed.

Lemma moves_project routeID start id :
  (∀ n arguments fs, sameIntent id fs (exec n arguments fs).2) →
  moves (sameIntent id) (projectManagedTunnel H exec routeID start).
Proof using.
  intros He. unfold projectManagedTunnel, projectLinuxTunnel. frame; apply moves_run; intros n fs; apply He.
Qed.

(** An intent that [down] has written. *)
Definition stopped_intent (id : string) (i : Routes.Intent) : Prop :=
  wf_intent i ∧ Routes.i_RouteID i = id ∧ Routes.DesiredState i = Routes.DesiredStopped ∧
  Routes.ValidateIntent i = Ok ().
Definition stopped_in (id : string) (fs : gmap string bytes) : Prop :=
  ∃ i, stopped_intent id i ∧ fs !! desiredFile id = Some (documentText (Routes.intentJSON i)).

(** The record of the route is one of its own. *)
Definition own_intent (id : string) (fs : gmap string bytes) : Prop :=
  ∀ i, intentOf Root fs id = Ok i → wf_intent i ∧ Routes.i_RouteID i = id.

Lemma desiredIntent_stopped id loaded :
  route_id id → (∀ i, loaded = Ok i → wf_intent i ∧ Routes.i_RouteID i = id) →
  let i := Routes.set_BootID "" (desiredIntent loaded id Routes.DesiredStopped "") in
  wf_intent i ∧ Routes.i_RouteID i = id ∧ Routes.DesiredState i = Routes.DesiredStopped.
Proof using.
  intros Hid Hl. cbv zeta. unfold desiredIntent.
  assert (wf_intent (match loaded with Ok i => i | Err _ => freshIntent id Routes.RestartUnlessStopped end) ∧
    Routes.i_RouteID (match loaded with Ok i => i | Err _ => freshIntent id Routes.RestartUnlessStopped end) = id) as [Hwf Hi].
  { destruct loaded as [i|e]; [by apply Hl|]. split; [|done]. split; [|done]. unfold intentTexts.
    repeat (constructor; [first [by apply route_id_ascii|by apply ascii_forallb]|]). constructor. }
  set (i := match loaded with Ok _ => _ | Err _ => _ end) in *. cbn [eqs].
  change (negb (eqs "" "")) with false. cbv iota. split; [|done].
  destruct Hwf as [Ht Hv]. unfold intentTexts in Ht. repeat apply List.Forall_cons_iff in Ht as [? Ht].
  split; [|exact Hv]. unfold intentTexts. repeat (constructor; [first [done|by apply ascii_forallb]|]). constructor.
Qed.

Lemma stopped_written id w w1 :
  own_intent id (files w) →
  writeRouteDesiredState H procRead id Routes.DesiredStopped "" "" w = (Ok (), w1) → route_id id ∧ stopped_in id (files w1).
Proof using.
  intros Hown Hrun. unfold writeRouteDesiredState in Hrun.
  apply run_bind in Hrun as (ex & wa & Hex & Hrun). apply run_bind in Hrun as ([] & wb & Hres & Hrun).
  assert (route_id id) as Hid.
  { unfold Routes.Exists in Hex. apply run_checked in Hex as (d & Hd & _). by apply (routeDir_Ok Root Root_clean) in Hd as [? _]. }
  split; [done|].
  assert (sameIntent id (files w) (files wb)) as Hsame.
  { trans (files wa).
    - eapply run_moves; [|exact Hex]. unfold Routes.Exists. frame.
    - eapply run_moves; [|exact Hres]. destruct ex; [apply moves_ret; apply _|apply moves_Reserve]. }
  apply run_bind in Hrun as (loaded & wc & Hload & Hrun).
  assert (∀ i, loaded = Ok i → wf_intent i ∧ Routes.i_RouteID i = id) as Hloaded.
  { intros i ->. apply Hown. rewrite <- (intentOf_same _ _ _ Hsame).
    pose proof (reads_LoadIntent H Root (files wb) id wb eq_refl) as [_ Hr].
    unfold htry in Hload. destruct (Routes.LoadIntent H Root id wb) as [r wr]. injection Hload as -> _. exact Hr. }
  change (eqs Routes.DesiredStopped Routes.DesiredRunning) with false in Hrun.
  change (eqs Routes.DesiredStopped Routes.DesiredStopped) with true in Hrun. cbn [andb] in Hrun. cbv zeta iota in Hrun.
  apply run_bind in Hrun as (i0 & wd & Hi & Hrun). injection Hi as <- <-.
  destruct (desiredIntent_stopped id loaded Hid Hloaded) as (Hwf & Hi & Hst). cbv zeta in *.
  set (i := Routes.set_BootID _ _) in *.
  destruct (intent_written H Root Root_clean i wc w1 Hwf Hrun) as (u & Hu & Hwf' & Hval & Hid' & [Hfile _]).
  exists (Routes.set_i_UpdatedAt u i). split; [split_and!; done|]. rewrite Hi in Hfile. exact Hfile.
Qed.

Lemma runDown_keeps P id w w1 :
  p_used P = false → (∀ n arguments fs, sameIntent id fs (exec n arguments fs).2) → route_id id →
  writeRouteDesiredState H procRead id Routes.DesiredStopped "" "" w = (Ok (), w1) →
  sameIntent id (files w1) (files (runDown H P procRead probe exec id w).2).
Proof using.
  intros Hp Hexec Hid Hrec. unfold runDown, unlessHandled, callInstalledProvisioner. rewrite Hp. cbn [negb].
  rewrite ret_then. unfold mbind at 1, HM_bind. rewrite Hrec. cbv beta iota.
  match goal with |- sameIntent _ _ (files (?m w1).2) => assert (moves (sameIntent id) m) as Hm; [|apply Hm] end.
  destruct (route_id_plain _ Hid) as [Hn _]. assert (plain_name "lock") by plain.
  assert (∀ s, moves (sameIntent id) (writeState H procRead s)) as Hw.
  { intros s. eapply within_moves; [apply within_writeState|]. intros fs fs' Ho. by apply Ho, desired_not_runtime. }
  unfold Lifecycle.Lock, Lifecycle.lockFile.
  frame; try apply Hw; try (by apply moves_project); try (unfold writeJSON; frame); try (apply moves_readState; apply _).
  - eapply within_moves; [by apply within_mkdir|]. intros fs fs' Ho. by apply Ho, desired_not_runtime.
  - apply moves_OpenCreate; [apply _|]. intros fs _. apply lookup_insert_ne. intros E.
    apply (desired_not_runtime id Hid). rewrite <- E. by apply runtime_file.
Qed.

End desired.

(** ** Reconciliation *)

(** Two service managers that differ at most in what starting [id] does. *)
Definition agree_but (id : string) (exec exec' : nat → list string → gmap string bytes → option error * gmap string bytes)
    : Prop :=
  ∀ n arguments fs, arguments ≠ ["systemctl"; "start"; unitOf id]%string → exec' n arguments fs = exec n arguments fs.

Section independence.
Context (H : hostEnv) (procRead : nat → string → result bytes) (id : string).
Context (exec exec' : nat → list string → gmap string bytes → option error * gmap string bytes).
Hypothesis Hagree : agree_but id exec exec'.

Lemma unitOf_inj a b : unitOf a = unitOf b → a = b.
Proof using.
  unfold unitOf. intros E%app_string_inv. apply to_bytes_inj. apply (f_equal to_bytes) in E.
  rewrite !Locator.to_bytes_append in E. by apply app_inj_2 in E as [-> _].
Qed.

Lemma project_same routeID start w :
  ¬ (routeID = id ∧ start = true) → projectManagedTunnel H exec' routeID start w = projectManagedTunnel H exec routeID start w.
Proof using Hagree.
  intros Hne. unfold projectManagedTunnel, projectLinuxTunnel.
  assert (∀ w, runCommand exec' ["systemctl"; (if start then "start" else "stop"); unitOf routeID]%string w
             = runCommand exec ["systemctl"; (if start then "start" else "stop"); unitOf routeID]%string w) as Hr.
  { intros w0. unfold runCommand, call, get_files, mbind, HM_bind. cbn [files calls]. rewrite Hagree; [done|].
    intros E. apply Hne. split; [|by destruct start].
    apply (f_equal (λ l, default ""%string (l !! 2%nat))) in E. exact (unitOf_inj _ _ E). }
  unfold mbind, HM_bind. destruct (hlift _ w) as [[[]|] w1]; [|done]. unfold htry. destruct (sys H w1) as [[[]|] w2]; [|done].
  by rewrite Hr.
Qed.

Lemma reconcileRoute_same bootID route p w :
  (Routes.l_RouteID route = id → ∀ b t, eligible b t route = false) →
  reconcileRoute H exec' bootID route p w = reconcileRoute H exec bootID route p w.
Proof using Hagree.
  intros Hel. unfold reconcileRoute. unfold eligible in Hel.
  destruct (Routes.l_Invalid route); [done|]. destruct (eqs (Routes.r_ClientID _) ""); [done|].
  destruct (eqs (Routes.r_AuthorizationNotAfter _) ""); [done|]. cbn [negb orb andb] in *.
  destruct (Grant.ParseUTC _) as [notAfter|e]; [|done]. rewrite !now_then.
  destruct (Grant.ReadyToExpire notAfter (h_now H (calls w))) eqn:Hexp; [done|].
  destruct (eqs (Routes.r_RevokedAt _) ""); [|done]. cbn [negb].
  destruct (Routes.ShouldStartAtBoot (Routes.l_Intent route) bootID) eqn:Hs; cbn [negb].
  - unfold mbind, HM_bind, htry. rewrite project_same; [done|]. intros [Hid _].
    specialize (Hel Hid bootID (h_now H (calls w))). by rewrite Hexp, Hs in Hel.
  - destruct (eqs (Routes.DesiredState _) _); [|done]. unfold mbind, HM_bind, htry. rewrite project_same; [done|]. by intros [_ [=]].
Qed.

Lemma reconcileRoutes_same bootID routes : ∀ p w,
  Forall (λ route, Routes.l_RouteID route = id → ∀ b t, eligible b t route = false) routes →
  reconcileRoutes H exec' bootID routes p w = reconcileRoutes H exec bootID routes p w.
Proof using Hagree.
  induction routes as [|route routes IH]; intros p w Hall; [done|]. apply Forall_cons_1 in Hall as [Hel Hall].
  cbn [reconcileRoutes]. unfold mbind, HM_bind. rewrite reconcileRoute_same by done.
  destruct (reconcileRoute H exec bootID route p w) as [[p1|e] w1]; [by apply IH|done].
Qed.

Lemma runReconcile_same w :
  (∀ ls, (Routes.List H Root w).1 = Ok ls → Forall (λ route, Routes.l_RouteID route = id → ∀ b t, eligible b t route = false) ls) →
  runReconcile H procRead exec' w = runReconcile H procRead exec w.
Proof using Hagree.
  intros Hls. unfold runReconcile, mbind at 1 5, HM_bind at 1 5. destruct (Routes.List H Root w) as [[ls|e] w1]; [|done].
  rewrite !boot_then. unfold mbind at 1 3, HM_bind at 1 3. rewrite reconcileRoutes_same; [done|]. by apply Hls.
Qed.

End independence.

(** A route that is recorded as stopped is never eligible. *)
Lemma stopped_not_eligible id fs route b t :
  route_id id → stopped_in id fs → shows Root fs route → Routes.l_RouteID route = id → eligible b t route = false.
Proof.
  intros Hid (i & (Hwf & Hi & Hst & Hval) & Hfile) Hshow Hr. unfold eligible.
  destruct (Routes.l_Invalid route) eqn:Hinv; [done|]. destruct (Hshow Hinv) as [Hintent _]. rewrite Hr in Hintent.
  assert (Routes.l_Intent route = i) as ->.
  { destruct (intent_codec i Hwf) as (v & Hv & Hc). unfold intentOf, documentOf in Hintent. fold (desiredFile id) in Hintent.
    rewrite Hfile in Hintent. unfold documentText in Hintent. rewrite Hv, Hc in Hintent. destruct (fits _); [|done].
    cbn [mbind result_bind] in Hintent. rewrite Hi, route_id_nonempty, Hval in Hintent by done. by injection Hintent. }
  unfold Routes.ShouldStartAtBoot. rewrite Hst. by rewrite !andb_false_r.
Qed.

(** C26: once [down] has recorded that a route is to be stopped, no
    reconciliation starts it, whatever else of [down] failed: on any host,
    after any boot and with any service manager, as long as the record stays
    as it is, the route is reported neither started nor failed to start, and
    the run does not depend on what starting the route would have done, so it
    is never started.  The service manager is taken to leave the record of
    the route alone, and the record [down] found to be one of the route. *)
Theorem down_is_durable (H H' : hostEnv) P procRead procRead' probe exec exec' id w w2 p w3 :
  p_used P = false → own_intent id (files w) → (∀ n arguments fs, sameIntent id fs (exec n arguments fs).2) →
  (writeRouteDesiredState H procRead id Routes.DesiredStopped "" "" w).1 = Ok () →
  sameIntent id (files (runDown H P procRead probe exec id w).2) (files w2) →
  runReconcile H' procRead' exec' w2 = (Ok p, w3) →
  ¬ attempted p id ∧ ∀ exec'', agree_but id exec' exec'' → runReconcile H' procRead' exec'' w2 = (Ok p, w3).
Proof.
  intros Hp Hown Hexec Hrec Hlater Hrun.
  destruct (writeRouteDesiredState _ _ _ _ _ _ w) as [r w1] eqn:Hw. cbn [fst] in Hrec. subst r.
  destruct (stopped_written H procRead id w w1 Hown Hw) as [Hid Hst].
  pose proof (runDown_keeps H procRead probe exec P id w w1 Hp Hexec Hid Hw) as Hkeep.
  assert (stopped_in id (files w2)) as Hst2.
  { destruct Hst as (i & Hi & Hfile). exists i. split; [done|]. unfold sameIntent in *. by rewrite Hlater, Hkeep. }
  assert (∀ ls, (Routes.List H' Root w2).1 = Ok ls →
    Forall (λ route, Routes.l_RouteID route = id → ∀ b t, eligible b t route = false) ls) as Hnever.
  { intros ls Hls. pose proof (reads_list H' Root (files w2) w2 eq_refl) as [_ Hsh]. rewrite Hls in Hsh.
    eapply Forall_impl; [|exact Hsh]. intros route Hroute Hr b t. by eapply stopped_not_eligible. }
  split.
  - destruct (runReconcile_spec H' procRead' exec' w2 p w3 Hrun) as (listed & bootID & ns & Hl & _ & _ & Hatt).
    rewrite Hatt. unfold chosen. intros ([route n] & Hin & Hsome)%list_elem_of_omap. apply elem_of_zip_l in Hin. cbn in Hsome.
    specialize (Hnever _ Hl). rewrite list.Forall_forall in Hnever.
    destruct (eligible bootID (h_now H' n) route) eqn:He; [|done]. injection Hsome as Hr. by rewrite (Hnever route Hin Hr) in He.
  - intros exec'' Hag. by rewrite (runReconcile_same H' procRead' id exec' exec'').
Qed.
