(* ===== verification/ConfigCodec.v ===== *)
(** * Manifests that are written can be loaded, and host keys that are pinned *)

From S2P Require Import Prelude GoStd Json StrictJson Time Text Host Locator Grant GrantProps SshWire Crypto Packet.
From S2P Require Import Kex Listen ClientStore ClientCodec Server Clients ClientProps AuthorizedKeys GrantSession.
From S2P Require Import ServerProps SessionProps Reconcile Frame Layout Invite Accept InviteClient InviteProps Enroll.
From S2P Require Import EnrollProps InviteClientProps HostWitness ReconcileWitness EnrollWitness Config ConfigProps.
Import Time Json Netip Locator ClientStore.
Import Config.

(** ** Printed documents are plain *)

Definition ascii_bytes (b : bytes) : Prop := Forall (λ c, zb c < 128) b.

Lemma hex_digit_small n : 0 ≤ n < 16 → zb (hex_digit n) < 128.
Proof. intros Hn. unfold hex_digit. destruct (Z.ltb_spec n 10); rewrite zb_bz, Z.mod_small; lia. Qed.

Lemma quote_small c : zb c < 128 → ascii_bytes (quote_ascii c).
Proof.
  intros Hc. pose proof (zb_range c) as Hr. unfold quote_ascii, ascii_bytes, u00.
  repeat case_match; repeat constructor; try (by vm_compute); try done; apply hex_digit_small; try apply Z.mod_pos_bound; try lia.
  split; [apply Z.div_pos; lia|apply Z.div_lt_upper_bound; lia].
Qed.

Lemma print_string_small s : ascii s → ascii_bytes (print_string s).
Proof.
  intros Hs. unfold print_string, ascii_bytes, ascii in *. rewrite runes_ascii by done.
  apply Forall_app. split; [by repeat constructor|]. apply Forall_app. split; [|by repeat constructor].
  induction Hs as [|c b Hc _ IH]; [constructor|]. rewrite !fmap_cons. cbn [concat]. apply Forall_app. split; [|done].
  rewrite quote_rune_ascii by done. by apply quote_small.
Qed.

Lemma commas_small l : Forall ascii_bytes l → ascii_bytes (commas l).
Proof.
  induction 1 as [|b l Hb Hl IH]; [constructor|]. destruct l; [done|]. cbn [commas].
  apply Forall_app. split; [done|]. constructor; [by vm_compute|]. exact IH.
Qed.

Lemma print_small v : ∀ d, wf d v → ascii_bytes (print v).
Proof.
  induction v as [|b|l|s|l IH|m IH] using json_ind'; intros d Hw; cbn [print].
  - by repeat constructor.
  - destruct b; by repeat constructor.
  - destruct Hw as (sign & x & r & -> & Hs & Hd & _). apply Forall_app. split.
    + destruct Hs as [-> | ->]; by repeat constructor.
    + eapply List.Forall_impl; [|exact Hd]. intros c Hc. unfold Strings.is_digit in Hc. zbool. lia.
  - by apply print_string_small.
  - destruct Hw as [_ Hw]. apply Forall_app. split; [by repeat constructor|]. apply Forall_app. split; [|by repeat constructor].
    apply commas_small. induction IH as [|v l Hv _ IHl]; [constructor|]. destruct Hw as [Hw Hl]. constructor; [by eapply Hv|by apply IHl].
  - destruct Hw as [_ Hw]. apply Forall_app. split; [by repeat constructor|]. apply Forall_app. split; [|by repeat constructor].
    apply commas_small. induction IH as [|[k v] m Hv _ IHm]; [constructor|]. destruct Hw as (Hk & Hw & Hm).
    constructor; [|by apply IHm]. apply Forall_app. split; [by apply print_string_small|].
    constructor; [by vm_compute|]. by eapply Hv.
Qed.

(** ** The manifest *)

Definition wf_ip (a : Addr) : Prop := ∃ ip, a = Addr4 ip ∧ 0 ≤ ip < 2 ^ 32.
Definition wf_endpoint_ (e : Endpoint) : Prop := wf_ip (Address e) ∧ 0 ≤ Port e < 2 ^ 16.

Lemma v4_string_ascii ip : ascii (v4_string ip).
Proof.
  unfold ascii, v4_string. rewrite !Locator.to_bytes_append. repeat (apply Forall_app; split); try (apply visible_ascii, itoa_visible).
  all: by repeat constructor.
Qed.

Lemma endpoint_text e d :
  wf_endpoint_ e → d + 1 < maxNestingDepth →
  wf d (Config.endpointJSON e) ∧ (d + 1 ≤ StrictJson.maxJSONDepth → StrictJson.names_ok true d (Config.endpointJSON e) = true) ∧
  ∀ e0, decode true Config.endpointFields (Config.endpointJSON e) e0 = Ok e.
Proof.
  intros [(ip & Ha & Hip) Hp] Hd. unfold Config.endpointJSON. rewrite Ha. cbn [addr_string]. split_and!.
  - apply wf_obj; [lia|]. repeat constructor; try (by apply ascii_forallb); [apply v4_string_ascii|by apply wf_JInt; lia].
  - intros Hm. cbn [StrictJson.names_ok]. rewrite !andb_true_iff. split_and!; [apply Z.leb_le; lia|by apply (bool_decide_unpack _)|].
    cbn. rewrite !(proj2 (Z.leb_le _ _)) by lia. done.
  - intros e0. cbn [decode]. erewrite decode_member; [|reflexivity|].
    2:{ cbn [snd]. unfold Server.address_field, Server.eqs. rewrite bool_decide_eq_false_2; [rewrite ParseAddr_v4 by done; reflexivity|].
        intros E. apply (f_equal ParseAddr) in E. by rewrite ParseAddr_v4 in E. }
    erewrite decode_member; [|reflexivity|apply uint_field_JInt; lia]. cbn. destruct e. cbn in *. by subst.
Qed.

Lemma names_obj depth m :
  depth ≤ StrictJson.maxJSONDepth → base.NoDup (m.*1) →
  Forall (λ '(k, x), StrictJson.isCanonicalManifestName k = true ∧ StrictJson.names_ok true (depth + 1) x = true) m →
  StrictJson.names_ok true depth (JObj m) = true.
Proof.
  intros Hd Hn Hm. cbn [StrictJson.names_ok]. rewrite !andb_true_iff. split_and!; [by apply Z.leb_le|by apply bool_decide_eq_true_2|].
  apply forallb_forall. intros [k x] Hin. rewrite List.Forall_forall in Hm. destruct (Hm _ Hin) as [-> ->]. done.
Qed.

Lemma names_leaf depth s : depth ≤ StrictJson.maxJSONDepth → StrictJson.names_ok true depth (JStr s) = true.
Proof. intros Hd. cbn. by rewrite (proj2 (Z.leb_le _ _)). Qed.

Definition wf_tunnel (t : Tunnel) : Prop := ascii (ID t) ∧ wf_endpoint_ (Listen t) ∧ wf_endpoint_ (Target t).

Lemma tunnel_text t d :
  wf_tunnel t → 0 ≤ d ≤ 5 →
  wf d (tunnelJSON t) ∧ StrictJson.names_ok true d (tunnelJSON t) = true ∧
  ∀ t0, decode true tunnelFields (tunnelJSON t) t0 = Ok t.
Proof.
  intros (Hi & Hl & Ht) Hd. unfold tunnelJSON. unfold StrictJson.maxJSONDepth, maxNestingDepth in *.
  destruct (endpoint_text _ (d + 1) Hl) as (Wl & Nl & Dl); [unfold maxNestingDepth; lia|].
  destruct (endpoint_text _ (d + 1) Ht) as (Wt & Nt & Dt); [unfold maxNestingDepth; lia|]. split_and!.
  - apply wf_obj; [unfold maxNestingDepth; lia|]. unfold wf_members.
    apply List.Forall_cons; [split; [by apply ascii_forallb|exact Hi]|].
    apply List.Forall_cons; [split; [by apply ascii_forallb|exact Wl]|].
    apply List.Forall_cons; [split; [by apply ascii_forallb|exact Wt]|]. constructor.
  - apply names_obj; [unfold StrictJson.maxJSONDepth; lia|by apply (bool_decide_unpack _)|].
    assert (d + 1 + 1 ≤ StrictJson.maxJSONDepth) as Hm by (unfold StrictJson.maxJSONDepth; lia).
    apply List.Forall_cons; [split; [by vm_compute|apply names_leaf; lia]|].
    apply List.Forall_cons; [split; [by vm_compute|exact (Nl Hm)]|].
    apply List.Forall_cons; [split; [by vm_compute|exact (Nt Hm)]|]. constructor.
  - intros t0. cbn [decode]. erewrite decode_member; [|reflexivity|reflexivity].
    erewrite decode_member; [|reflexivity|cbn [id prod_map fst snd]; rewrite Dl; reflexivity].
    erewrite decode_member; [|reflexivity|cbn [id prod_map fst snd]; rewrite Dt; reflexivity]. cbn. by destruct t.
Qed.

Lemma elements_text ts : ∀ old,
  Forall wf_tunnel ts → decodeElements tunnelFields zeroTunnel old (tunnelJSON <$> ts) = Ok ts.
Proof.
  induction ts as [|t ts IH]; intros old Hw; [done|]. apply List.Forall_cons_iff in Hw as [Ht Hts]. rewrite fmap_cons.
  cbn [decodeElements]. destruct (tunnel_text t 0 Ht ltac:(lia)) as (_ & _ & ->). cbn [mbind result_bind]. by rewrite IH.
Qed.

Definition plain_duration (d : Duration) : Prop :=
  ascii (DurationText.String d) ∧ DurationText.ParseDuration (DurationText.String d) = Ok d.

(** A manifest whose texts are plain. *)
Record wf_manifest (c : Config) : Prop := mk_wf_manifest {
  wf_host : ascii (Host (c_Server c));
  wf_port : 0 ≤ s_Port (c_Server c) < 2 ^ 16;
  wf_user : ascii (User (c_Server c));
  wf_digest : ascii (SSHBinarySHA256 c);
  wf_tunnels : Forall wf_tunnel (Tunnels c);
  wf_initial : plain_duration (InitialBackoff (c_Supervision c));
  wf_maximum : plain_duration (MaxBackoff (c_Supervision c));
}.

Definition server_members (s : Server) : json :=
  JObj [("host", JStr (Host s)); ("port", JInt (s_Port s)); ("user", JStr (User s))]%string.
Definition supervision_members (s : Supervision) : json :=
  JObj [("initial_backoff", JStr (DurationText.String (InitialBackoff s)));
        ("max_backoff", JStr (DurationText.String (MaxBackoff s)))]%string.

Lemma server_text c s0 : wf_manifest c → decode true serverFields (server_members (c_Server c)) s0 = Ok (c_Server c).
Proof.
  intros W. cbn [decode server_members]. erewrite decode_member; [|reflexivity|reflexivity].
  erewrite decode_member; [|reflexivity|apply uint_field_JInt; pose proof (wf_port _ W); lia].
  erewrite decode_member; [|reflexivity|reflexivity]. cbn. by destruct (c_Server c).
Qed.
Lemma supervision_text c s0 :
  wf_manifest c → decode true supervisionFields (supervision_members (c_Supervision c)) s0 = Ok (c_Supervision c).
Proof.
  intros W. destruct (wf_initial _ W) as [_ Hi], (wf_maximum _ W) as [_ Hm]. cbn [decode supervision_members].
  erewrite decode_member; [|reflexivity|cbn [id prod_map fst snd duration_field]; rewrite Hi; reflexivity].
  erewrite decode_member; [|reflexivity|cbn [id prod_map fst snd duration_field]; rewrite Hm; reflexivity]. cbn. by destruct (c_Supervision c).
Qed.

Lemma manifest_text c :
  wf_manifest c → SchemaVersion c = 2 → decode true configFields (configJSON c) zeroConfig = Ok c.
Proof.
  intros W Hv. unfold configJSON. fold (server_members (c_Server c)) (supervision_members (c_Supervision c)). cbn [decode].
  erewrite decode_member; [|reflexivity|reflexivity].
  erewrite decode_member; [|reflexivity|apply int_field_JInt; rewrite Hv; lia].
  do 2 (erewrite decode_member; [|reflexivity|reflexivity]).
  erewrite decode_member; [|reflexivity|cbn [id prod_map fst snd]; rewrite (server_text _ _ W); reflexivity].
  erewrite decode_member; [|reflexivity|cbn [id prod_map fst snd tunnels_field]; rewrite (elements_text _ _ (wf_tunnels _ W)); reflexivity].
  erewrite decode_member; [|reflexivity|cbn [id prod_map fst snd]; rewrite (supervision_text _ _ W); reflexivity]. cbn. by destruct c.
Qed.

Lemma tunnels_plain ts d :
  Forall wf_tunnel ts → 0 ≤ d ≤ 4 →
  wf d (JArr (tunnelJSON <$> ts)) ∧ StrictJson.names_ok true d (JArr (tunnelJSON <$> ts)) = true.
Proof.
  intros Hts Hd. split.
  - split; [unfold maxNestingDepth; lia|]. induction Hts as [|t ts Ht _ IH]; [done|]. rewrite fmap_cons. cbn [foldr].
    split; [|exact IH]. by apply tunnel_text; [|lia].
  - cbn [StrictJson.names_ok]. rewrite (proj2 (Z.leb_le _ _)) by (unfold StrictJson.maxJSONDepth; lia). cbn [andb].
    apply forallb_forall. intros v Hv. apply in_map_iff in Hv as (t & <- & Hin). rewrite List.Forall_forall in Hts.
    by apply tunnel_text; [apply Hts|lia].
Qed.

(** Conditions on the members of an object, one member at a time. *)
Ltac members := repeat (apply List.Forall_cons; [split; [solve [by apply ascii_forallb|by vm_compute]|]|]); [..|by apply List.Forall_nil].

Lemma manifest_plain c :
  wf_manifest c → Kind c = ClientTunnelsKind → SchemaVersion c = 2 → ProfileID c = Profile.CurrentID →
  wf 0 (configJSON c) ∧ StrictJson.names_ok true 1 (configJSON c) = true.
Proof.
  intros W Hk Hv Hp. destruct (tunnels_plain _ 1 (wf_tunnels _ W) ltac:(lia)) as [Wt _].
  destruct (tunnels_plain _ 2 (wf_tunnels _ W) ltac:(lia)) as [_ Nt]. unfold configJSON. rewrite Hk, Hv, Hp.
  pose proof (wf_port _ W). split.
  - apply wf_obj; [done|]. unfold wf_members. members; cbn [snd].
    + by apply (ascii_forallb ClientTunnelsKind).
    + by apply wf_JInt.
    + by apply (ascii_forallb Profile.CurrentID).
    + apply (wf_digest _ W).
    + apply wf_obj; [done|]. unfold wf_members. members; cbn [snd]; [apply (wf_host _ W)|apply wf_JInt; lia|apply (wf_user _ W)].
    + exact Wt.
    + apply wf_obj; [done|]. unfold wf_members. members; cbn [snd]; [apply (wf_initial _ W)|apply (wf_maximum _ W)].
  - apply names_obj; [done|by apply (bool_decide_unpack _)|]. members; try reflexivity; exact Nt.
Qed.

Lemma manifest_decodes c :
  wf_manifest c → manifest_ok c → blen (print (configJSON c) ++ [bz 10]) ≤ MaxConfigBytes →
  Decode (print (configJSON c) ++ [bz 10]) = Ok c.
Proof.
  intros W Hok Hlen. pose proof Hok as (Hk & Hv & Hp & _ & ((h & Hh & Hc & _) & _) & _).
  destruct (manifest_plain c W Hk Hv Hp) as [Wc Nc]. unfold Decode. rewrite (proj2 (Z.ltb_ge _ _) Hlen).
  rewrite validString_ascii. cbn [negb].
  2:{ unfold ascii. rewrite to_bytes_string. apply Forall_app. split; [by eapply print_small|by repeat constructor]. }
  pose proof (parse_print _ [bz 10] Wc eq_refl) as Hparse. unfold StrictJson.ValidateManifestObjectNames.
  rewrite (proj2 (StrictJson.inspect_iff true _)) by (right; by eexists _, _). rewrite Hparse. cbn [mbind result_bind].
  rewrite (manifest_text c W Hv). cbn [mbind result_bind]. change (skip_ws [bz 10]) with (@nil byte).
  rewrite bool_decide_eq_true_2 by done. cbn [negb]. unfold canonicalizeServerHost. rewrite Hh. cbn [fieldError mbind result_bind].
  rewrite Hc. cbn [fieldError mbind result_bind].
  assert (mkConfig (Kind c) (SchemaVersion c) (ProfileID c) (SSHBinarySHA256 c)
    (mkServer (Host (c_Server c)) (s_Port (c_Server c)) (User (c_Server c))) (Tunnels c) (c_Supervision c) = c) as ->
    by (destruct c as [? ? ? ? [] ? ?]; done).
  by rewrite (proj2 (Validate_exact c) Hok).
Qed.

(** ** What an enrollment writes *)

Lemma id_bytes_ascii c r : (lower_letter c ∨ zb c = 95) → Forall id_byte r → Forall (λ c, zb c < 128) (c :: r).
Proof.
  intros Hc Hr. constructor; [unfold lower_letter in Hc; lia|]. eapply List.Forall_impl; [|exact Hr].
  unfold id_byte, lower_letter. lia.
Qed.
Lemma tunnel_id_ascii s : tunnel_id (to_bytes s) → ascii s.
Proof. intros (c & r & E & Hc & Hr & _). unfold ascii. rewrite E. apply id_bytes_ascii; auto. Qed.
Lemma unix_user_ascii s : unix_user (to_bytes s) → ascii s.
Proof. intros (c & r & E & Hc & Hr & _). unfold ascii. rewrite E. by apply id_bytes_ascii. Qed.
Lemma hex_ascii s : forallb isHexByte (to_bytes s) = true → ascii s.
Proof.
  intros Hs. apply List.Forall_forall. intros c Hc. eapply forallb_forall in Hs; [|exact Hc].
  unfold isHexByte, Clients.in_range in Hs. zbool. lia.
Qed.

Lemma built_manifest invite tunnelID listenPort sshDigest c :
  BuildClientManifest invite tunnelID listenPort sshDigest = Ok c →
  manifest_ok c ∧ Host (c_Server c) = Invite.d_Host (Invite.Data invite) ∧ s_Port (c_Server c) = Invite.d_Port (Invite.Data invite) ∧
  User (c_Server c) = Invite.Principal invite ∧ c_Supervision c = mkSupervision Second (30 * Second) ∧
  ∃ t a, Tunnels c = [t] ∧ ParseAddr (Invite.TargetAddress invite) = Ok a ∧
    Target t = mkEndpoint a (Invite.TargetPort invite) ∧
    Listen t = mkEndpoint requiredListenerAddress (if listenPort =? 0 then 15432 else listenPort).
Proof.
  unfold BuildClientManifest. intros (h & _ & (a & Ha & ([] & Hv%Validate_exact & Hc%Ok_inj)%bind_Ok)%bind_Ok)%bind_Ok.
  subst c. split; [exact Hv|]. cbn [c_Server Host s_Port User c_Supervision Tunnels]. split_and!; try done. by eexists _, a.
Qed.

Lemma built_wf invite tunnelID listenPort sshDigest c ip :
  BuildClientManifest invite tunnelID listenPort sshDigest = Ok c →
  ascii (Invite.d_Host (Invite.Data invite)) → 0 ≤ Invite.d_Port (Invite.Data invite) < 2 ^ 16 →
  ParseAddr (Invite.TargetAddress invite) = Ok (Addr4 ip) → 0 ≤ ip < 2 ^ 32 → 0 ≤ Invite.TargetPort invite < 2 ^ 16 →
  0 ≤ listenPort < 2 ^ 16 → wf_manifest c.
Proof.
  intros (Hok & Hh & Hp & _ & Hs & t & a & Ht & Ha & Htt & Htl)%built_manifest Hhost Hport Hip Hr Htp Hlp.
  rewrite Hip in Ha. apply Ok_inj in Ha as <-. pose proof Hok as (_ & _ & _ & (_ & Hd) & (_ & _ & Hu) & (_ & Hts & _) & _).
  rewrite Ht in Hts. apply List.Forall_cons_iff in Hts as [(Hid & _) _]. split.
  - by rewrite Hh.
  - by rewrite Hp.
  - by apply unix_user_ascii.
  - by apply hex_ascii.
  - rewrite Ht. constructor; [|constructor]. split_and!; [by apply tunnel_id_ascii| |].
    + rewrite Htl. split; [by eexists|]. cbn [Port]. destruct (listenPort =? 0); [done|lia].
    + rewrite Htt. split; [by exists ip|]. done.
  - rewrite Hs. split; [by apply ascii_forallb|vm_compute; reflexivity].
  - rewrite Hs. split; [by apply ascii_forallb|vm_compute; reflexivity].
Qed.

(** The manifest that an enrollment builds and writes is a manifest that
    loads: its text, printed and with a newline, decodes to the very same
    manifest, which names the host, port and user of the invite and forwards a
    loopback port to the target of the invite and to nothing else. *)
Theorem enrolled_manifest_loads invite tunnelID listenPort sshDigest c ip :
  BuildClientManifest invite tunnelID listenPort sshDigest = Ok c →
  ascii (Invite.d_Host (Invite.Data invite)) → 0 ≤ Invite.d_Port (Invite.Data invite) < 2 ^ 16 →
  ParseAddr (Invite.TargetAddress invite) = Ok (Addr4 ip) → 0 ≤ ip < 2 ^ 32 → 0 ≤ Invite.TargetPort invite < 2 ^ 16 →
  0 ≤ listenPort < 2 ^ 16 → blen (print (configJSON c) ++ [bz 10]) ≤ MaxConfigBytes →
  Decode (print (configJSON c) ++ [bz 10]) = Ok c ∧
  c_Server c = mkServer (Invite.d_Host (Invite.Data invite)) (Invite.d_Port (Invite.Data invite)) (Invite.Principal invite) ∧
  ∃ t, Tunnels c = [t] ∧ Target t = mkEndpoint (Addr4 ip) (Invite.TargetPort invite) ∧
    Listen t = mkEndpoint requiredListenerAddress (if listenPort =? 0 then 15432 else listenPort).
Proof.
  intros Hb Hhost Hport Hip Hr Htp Hlp Hlen. pose proof (built_wf _ _ _ _ _ _ Hb Hhost Hport Hip Hr Htp Hlp) as W.
  apply built_manifest in Hb as (Hok & Hh & Hp & Hu & _ & t & a & Ht & Ha & Htt & Htl). rewrite Hip in Ha. apply Ok_inj in Ha as <-.
  split; [by apply manifest_decodes|]. split; [destruct (c_Server c); cbn in *; by subst|]. by exists t.
Qed.

(** ** The pinned host key *)
Import KnownHosts.

Abbreviation keyType := (Profile.AuthenticationKeyType Profile.current).
Abbreviation keyBytes := (Profile.RawPublicKeyBytes Profile.current).
Definition key_text (raw : bytes) : bytes := to_bytes (Base64.encode_to_string (SshWire.key_blob keyType raw)).
(** The one line of a pinned host. *)
Definition pinned_line (tunnelID : string) (raw : bytes) : bytes :=
  to_bytes ("warptweet-" ++ tunnelID) ++ [bz 32] ++ to_bytes keyType ++ [bz 32] ++ key_text raw ++ [bz 32]
  ++ to_bytes ManagedHostComment.

Lemma cutBlank_spec b : ∀ w rest, cutBlank b = (w, rest) →
  b = w ++ match rest with Some r => bz 32 :: r | None => [] end ∧ Forall (λ c, zb c ≠ 32) w.
Proof.
  induction b as [|c b IH]; intros w rest; cbn [cutBlank]; [intros [= <- <-]; by split|].
  destruct (Z.eqb_spec (zb c) 32) as [Hc|Hc].
  - intros [= <- <-]. split; [|constructor]. cbn. f_equal. rewrite <- Hc. by rewrite bz_zb.
  - destruct (cutBlank b) as [w' rest'] eqn:E. intros [= <- <-]. destruct (IH _ _ eq_refl) as [-> Hw]. split; [done|by constructor].
Qed.
Lemma cutBlank_word w : ∀ r, Forall (λ c, zb c ≠ 32) w → cutBlank (w ++ bz 32 :: r) = (w, Some r).
Proof.
  induction w as [|c w IH]; intros r Hw; [done|]. apply List.Forall_cons_iff in Hw as [Hc Hw]. cbn [app cutBlank].
  rewrite (proj2 (Z.eqb_neq _ _) Hc). by rewrite IH.
Qed.
Lemma cutBlank_all w : Forall (λ c, zb c ≠ 32) w → cutBlank w = (w, None).
Proof.
  induction w as [|c w IH]; intros Hw; [done|]. apply List.Forall_cons_iff in Hw as [Hc Hw]. cbn [cutBlank].
  rewrite (proj2 (Z.eqb_neq _ _) Hc). by rewrite IH.
Qed.
Lemma dropBlanks_spec b : ∃ n, b = replicate n (bz 32) ++ dropBlanks b.
Proof.
  induction b as [|c b IH]; [by exists O|]. cbn [dropBlanks]. destruct (Z.eqb_spec (zb c) 32) as [Hc|Hc]; [|by exists O].
  destruct IH as [n Hn]. exists (S n). cbn. f_equal; [rewrite <- Hc; by rewrite bz_zb|done].
Qed.
Lemma dropLast_spec c b : default b (Server.dropLast (zb c) b) ++ [c] = b ∨ default b (Server.dropLast (zb c) b) = b.
Proof.
  unfold Server.dropLast. destruct (reverse b) as [|x r] eqn:E; [by right|]. destruct (Z.eqb_spec (zb x) (zb c)) as [Hx|]; [|by right].
  left. cbn [default]. rewrite <- (reverse_involutive b), E, reverse_cons. do 2 f_equal.
  rewrite <- (bz_zb c), <- Hx. by rewrite bz_zb.
Qed.

Lemma key_line_parts input algorithm encoded :
  parsePublicKeyLine input = Ok (algorithm, encoded) →
  ∃ n rest, input = algorithm ++ replicate (S n) (bz 32) ++ encoded ++ rest ∧
    (rest = [] ∨ rest = [bz 10] ∨ ∃ r, rest = bz 32 :: r).
Proof.
  unfold parsePublicKeyLine. case_bool_decide; [done|]. destruct (_ <? _); [done|]. destruct (negb _); [done|].
  pose proof (dropLast_spec (bz 10) input) as Hl. change (zb (bz 10)) with 10 in Hl. set (line := default _ _) in *. clearbody line.
  destruct line as [|first line']; [done|]. destruct (_ || _); [done|]. destruct (existsb _ _); [done|].
  destruct (cutBlank (first :: line')) as [w [after|]] eqn:Hc; [|by destruct w]. apply cutBlank_spec in Hc as [Hc _].
  destruct w as [|c w]; [done|]. destruct (dropBlanks_spec after) as [n Hn]. destruct (dropBlanks after) as [|d rem] eqn:Hd; [done|].
  destruct (cutBlank (d :: rem)) as [e rest] eqn:Hr. apply cutBlank_spec in Hr as [Hr _]. intros [= <- <-].
  rewrite Hc, Hn, Hr in Hl. exists n, (match rest with Some r => bz 32 :: r | None => [] end ++ (if decide (input = c :: w ++ bz 32 :: replicate n (bz 32) ++ e ++ match rest with Some r => bz 32 :: r | None => [] end) then [] else [bz 10])).
  case_decide as Hi.
  - split; [rewrite Hi, app_nil_r; cbn; by rewrite <- ?app_assoc|]. rewrite app_nil_r. destruct rest; eauto.
  - destruct Hl as [Hl|Hl]; [|exfalso; apply Hi; rewrite <- Hl; done]. split.
    + rewrite <- Hl. cbn. rewrite <- !app_assoc. cbn. by rewrite <- !app_assoc.
    + destruct rest; cbn; eauto.
Qed.

Lemma key_text_visible raw : Forall visible (key_text raw).
Proof. unfold key_text, Base64.encode_to_string. rewrite to_bytes_string. apply base64_visible. Qed.
Lemma not_blank_visible b : Forall visible b → Forall (λ c, zb c ≠ 32) b.
Proof. apply List.Forall_impl. unfold visible. lia. Qed.
Lemma pinned_one_line tunnelID raw : tunnel_id (to_bytes tunnelID) → Forall (λ c, 32 ≤ zb c ≤ 126) (pinned_line tunnelID raw).
Proof.
  intros (c & r & E & Hc & Hr & _). unfold pinned_line. rewrite Locator.to_bytes_append, E.
  assert (∀ b, Forall visible b → Forall (λ c, 32 ≤ zb c ≤ 126) b) as Hv
    by (intros b; apply List.Forall_impl; unfold visible; lia).
  assert (Forall (λ c, 32 ≤ zb c ≤ 126) [bz 32]) as Hb by (constructor; [split; by vm_compute|constructor]).
  apply Forall_app. split; [apply Forall_app; split|].
  - by apply Hv, visible_forallb.
  - constructor; [unfold lower_letter in Hc; lia|]. by apply Hv, id_byte_visible.
  - apply Forall_app. split; [done|]. apply Forall_app. split; [by apply Hv, visible_forallb|].
    apply Forall_app. split; [done|]. apply Forall_app. split; [apply Hv, key_text_visible|].
    apply Forall_app. split; [done|]. by apply Hv, visible_forallb.
Qed.

Lemma rendered_line tunnelID raw :
  to_bytes ("warptweet-" ++ tunnelID ++ " " ++ keyType ++ " " ++ Base64.encode_to_string (SshWire.key_blob keyType raw)
            ++ " " ++ ManagedHostComment) = pinned_line tunnelID raw.
Proof. unfold pinned_line, key_text. rewrite !Locator.to_bytes_append. by rewrite <- !app_assoc. Qed.

Lemma managed_sound tunnelID key line :
  RenderManagedHost tunnelID key = Ok line →
  tunnel_id (to_bytes tunnelID) ∧ ∃ raw n rest, blen raw = keyBytes ∧ line = pinned_line tunnelID raw ++ [bz 10] ∧
    key = to_bytes keyType ++ replicate (S n) (bz 32) ++ key_text raw ++ rest ∧
    (rest = [] ∨ rest = [bz 10] ∨ ∃ r, rest = bz 32 :: r).
Proof.
  unfold RenderManagedHost. intros ([] & Hid%tunnelID_exact & Hr)%bind_Ok. split; [done|].
  change (Profile.Lookup Profile.CurrentID) with (Ok Profile.current) in Hr. cbn [mbind result_bind] in Hr.
  apply bind_Ok in Hr as ([algorithm encoded] & (n & rest & Hin & Hrest)%key_line_parts & Hr).
  destruct (bool_decide (to_string algorithm = keyType)) eqn:Ha; [|done]. cbn [negb] in Hr. apply bool_decide_eq_true in Ha.
  destruct (SshWire.ValidatePublicKeyBlob _ _ _) as [[]|e] eqn:Hv; [|done]. apply Ok_inj in Hr.
  apply SshWire.ValidatePublicKeyBlob_exact in Hv as (_ & raw & Hraw & Henc); [|by vm_compute..].
  exists raw, n, rest. split_and!; [done| | |done].
  - rewrite <- Hr, Henc. by rewrite rendered_line.
  - rewrite Hin. f_equal; [by rewrite <- Ha, to_bytes_string|]. do 2 f_equal. unfold key_text. by rewrite <- Henc, to_bytes_string.
Qed.

Lemma last_in {A} (l : list A) (d : A) : l ≠ [] → List.last l d ∈ l.
Proof.
  induction l as [|x l IH]; [done|]. intros _. destruct l as [|y l]; [apply list_elem_of_singleton; done|].
  change (List.last (x :: y :: l) d) with (List.last (y :: l) d). apply elem_of_cons. right. by apply IH.
Qed.
Lemma last_app_cons {A} (a b : list A) x d : List.last (a ++ x :: b) d = List.last (x :: b) d.
Proof.
  induction a as [|y a IH]; [done|]. cbn [app]. rewrite <- IH. destruct (a ++ x :: b) eqn:E; [by destruct a|done].
Qed.

(** A line of two words. *)
Lemma two_words a b :
  Forall visible a → Forall visible b → a ≠ [] → b ≠ [] → blen a + blen b + 2 ≤ MaxPublicKeyLineBytes →
  parsePublicKeyLine ((a ++ bz 32 :: b) ++ [bz 10]) = Ok (a, b).
Proof.
  intros Ha Hb Hna Hnb Hlen. unfold parsePublicKeyLine.
  assert (Forall (λ c, 32 ≤ zb c ≤ 126) (a ++ bz 32 :: b)) as Hp.
  { apply Forall_app. split; [|constructor; [split; by vm_compute|]]; (eapply List.Forall_impl; [|eassumption]); unfold visible; lia. }
  assert (Forall (λ c, zb c < 128) (a ++ bz 32 :: b)) as Hs by (eapply List.Forall_impl; [|exact Hp]; cbn; lia).
  rewrite bool_decide_eq_false_2 by (intros E; apply app_eq_nil in E; by destruct E).
  rewrite (proj2 (Z.ltb_ge _ _)) by (rewrite !blen_app, !blen_cons; change (blen []) with 0; lia).
  rewrite validString_ascii. cbn [negb].
  2:{ unfold ascii. rewrite to_bytes_string. apply Forall_app. split; [done|by repeat constructor]. }
  unfold Server.dropLast. rewrite reverse_app. change (reverse [bz 10]) with [bz 10]. cbn [app].
  change (zb (bz 10) =? 10) with true. cbn [default from_option id]. rewrite reverse_involutive. cbv zeta.
  destruct a as [|first a]; [done|]. cbn [app].
  assert (zb first ≠ 32 ∧ zb (List.last (first :: a ++ bz 32 :: b) first) ≠ 32) as [Hf Hl].
  { split; [apply List.Forall_cons_iff in Ha as [Ha _]; unfold visible in Ha; lia|].
    rewrite app_comm_cons, last_app_cons. rewrite list.Forall_forall in Hb. assert (List.last b first ∈ b) as Hin by (by apply last_in).
    destruct b as [|y b]; [done|]. change (zb (List.last (y :: b) first) ≠ 32). apply Hb in Hin. unfold visible in Hin. lia. }
  rewrite (proj2 (Z.eqb_neq _ _) Hf), (proj2 (Z.eqb_neq _ _) Hl). cbn [orb]. rewrite app_comm_cons.
  destruct (existsb isControl _) eqn:Hc.
  { exfalso. unfold Utf8.range in Hc. rewrite to_bytes_string, runes_ascii, <- list_fmap_compose in Hc by exact Hs.
    apply existsb_exists in Hc as (r & (x & <- & Hin)%in_map_iff & Hc). rewrite List.Forall_forall in Hp. specialize (Hp x Hin).
    unfold isControl, Clients.in_range in Hc. cbn in Hc. apply orb_prop in Hc as [?%Z.ltb_lt|[?%Z.leb_le ?%Z.leb_le]%andb_prop]; lia. }
  rewrite cutBlank_word by (by apply not_blank_visible).
  assert (dropBlanks b = b) as ->.
  { destruct b as [|y b]; [done|]. cbn [dropBlanks]. apply List.Forall_cons_iff in Hb as [Hy _]. unfold visible in Hy.
    destruct (Z.eqb_spec (zb y) 32); [lia|done]. }
  destruct b as [|y b]; [done|]. rewrite cutBlank_all by (by apply not_blank_visible). done.
Qed.

(** A key as the host publishes it: its type, a blank and its text. *)
Definition plain_key (raw : bytes) : bytes := to_bytes keyType ++ bz 32 :: key_text raw.

Lemma key_text_length raw : blen raw = keyBytes → blen (key_text raw) < 4096.
Proof.
  intros Hr. unfold key_text, Base64.encode_to_string. rewrite to_bytes_string, Base64.length_encode. unfold SshWire.key_blob, SshWire.AppendString.
  rewrite !blen_app, Hr. vm_compute. reflexivity.
Qed.

Lemma key_type_visible : Forall visible (to_bytes keyType).
Proof. by apply visible_forallb. Qed.

Lemma key_text_nonempty raw : key_text raw ≠ [].
Proof.
  intros E. apply (f_equal blen) in E. revert E. unfold key_text, Base64.encode_to_string.
  rewrite to_bytes_string, Base64.length_encode, SshWire.blen_key_blob. change (blen []) with 0. unfold Base64.encoded_len.
  pose proof (blen_nonneg raw). intros E. assert (0 < (4 + slen keyType + 4 + blen raw + 2) / 3) by (apply Z.div_str_pos; unfold slen; lia). lia.
Qed.

Lemma managed_complete tunnelID raw :
  tunnel_id (to_bytes tunnelID) → blen raw = keyBytes →
  RenderManagedHost tunnelID (plain_key raw ++ [bz 10]) = Ok (pinned_line tunnelID raw ++ [bz 10]).
Proof.
  intros Hid Hraw. pose proof (key_text_length raw Hraw) as Hlen. unfold RenderManagedHost, ValidateTunnelID.
  rewrite (proj2 (tunnelID_exact _ _) Hid). cbn [mbind result_bind].
  change (Profile.Lookup Profile.CurrentID) with (Ok Profile.current). cbn [mbind result_bind]. unfold plain_key.
  rewrite two_words; [|apply key_type_visible|apply key_text_visible|done|apply key_text_nonempty|].
  2:{ change (blen (to_bytes keyType)) with (Z.of_nat (length (to_bytes keyType))).
      change MaxPublicKeyLineBytes with 8192. change (Z.of_nat (length (to_bytes keyType))) with (slen keyType + 0). vm_compute (slen _). lia. }
  cbn [mbind result_bind]. rewrite to_string_bytes, bool_decide_eq_true_2 by done. cbn [negb]. unfold key_text. rewrite to_string_bytes.
  assert (SshWire.ValidatePublicKeyBlob (Base64.encode_to_string (SshWire.key_blob keyType raw)) keyType keyBytes = Ok ()) as ->.
  { apply SshWire.ValidatePublicKeyBlob_exact; [by vm_compute..|]. split; [by vm_compute|]. by exists raw. }
  by rewrite rendered_line.
Qed.

(** The entry that pins a host is one printable line that ends in its only
    newline: the alias of the tunnel, the key type of the profile, the text of
    a blob with a raw key of the right size, and the fixed comment.  The key is
    the one of the input, whose own comment is dropped, and every key as a host
    publishes it is accepted. *)
Theorem managed_host_line tunnelID key :
  (∀ line, RenderManagedHost tunnelID key = Ok line →
    ∃ raw n rest, blen raw = keyBytes ∧ line = pinned_line tunnelID raw ++ [bz 10] ∧
      Forall (λ c, 32 ≤ zb c ≤ 126) (pinned_line tunnelID raw) ∧
      key = to_bytes keyType ++ replicate (S n) (bz 32) ++ key_text raw ++ rest ∧
      (rest = [] ∨ rest = [bz 10] ∨ ∃ r, rest = bz 32 :: r)) ∧
  (∀ raw, tunnel_id (to_bytes tunnelID) → blen raw = keyBytes → key = plain_key raw ++ [bz 10] →
    RenderManagedHost tunnelID key = Ok (pinned_line tunnelID raw ++ [bz 10])).
Proof.
  split.
  - intros line (Hid & raw & n & rest & Hraw & Hl & Hk & Hr)%managed_sound. exists raw, n, rest. split_and!; try done.
    by apply pinned_one_line.
  - intros raw Hid Hraw ->. by apply managed_complete.
Qed.

(** ** Witnesses *)

Definition builtManifest : Config :=
  mkConfig ClientTunnelsKind 2 Profile.CurrentID hex64 (mkServer "tunnel.example.com" 443 "warptweet")
    [mkTunnel "laptop" (mkEndpoint requiredListenerAddress 15432) (mkEndpoint (Addr4 167772161) 22)]
    (mkSupervision Second (30 * Second)).

Lemma client_manifest_exact_witness : manifest_ok builtManifest.
Proof. apply (proj1 (client_manifest_exact builtManifest)). vm_compute. reflexivity. Defined.

Lemma enrolled_manifest_loads_witness : Decode (print (configJSON builtManifest) ++ [bz 10]) = Ok builtManifest.
Proof.
  eapply (enrolled_manifest_loads sampleInvite "" 0 hex64 builtManifest 167772161); [vm_compute; reflexivity|by apply ascii_forallb|..];
    try (by split; vm_compute); by vm_compute.
Defined.

Lemma managed_host_line_witness :
  RenderManagedHost "laptop" (plain_key sampleRaw ++ [bz 10]) = Ok (pinned_line "laptop" sampleRaw ++ [bz 10]).
Proof.
  apply (managed_host_line "laptop" (plain_key sampleRaw ++ [bz 10])); [|by vm_compute|reflexivity].
  apply (tunnelID_exact "id"). vm_compute. reflexivity.
Defined.
