(* ===== verification/Submit.v ===== *)
(** * internal/enrollment/submit.go and tls.go: the client of the enrollment endpoint

    The enrollment request goes to one address of the enrollment host, over a
    TLS connection whose peer must own the key that the invite pins; rotation
    and revocation go to the management endpoint inside the tunnel.  The
    network is an argument: what a request to a URL is answered, and the state
    of the TLS connection that carried it.  [EnsureTLSIdentity] keeps the host's
    side of the pin; the encodings of keys and certificates are arguments. *)

From S2P Require Import Prelude GoStd Json StrictJson Time Host Locator Grant SshWire Crypto Packet Kex ClientStore.
From S2P Require Import Clients Server Invite Accept InviteClient Resolve AuthorizedKeys.
Import Time Json Netip Locator ClientStore.
Import Accept.

Module Submit.

Definition eqs (a b : string) : bool := bool_decide (a = b).
Definition EnrollmentALPN : string := "http/1.1".
Definition EnrollmentCertificateLifetime : Duration := 397 * 24 * Hour.
Definition EnrollmentCertificateRenewBefore : Duration := 30 * 24 * Hour.
Definition DefaultManagementPort : Z := 29723.
Definition VersionTLS13 : Z := 772.
Definition StatusOK : Z := 200.
(** installlayout *)
Definition ServerEnrollmentTLSCertPath : string := "/etc/warptweet/enrollment/tls.crt".
Definition ServerEnrollmentTLSKeyPath : string := "/etc/warptweet/enrollment/tls.key".

(** ** Documents *)

Definition zeroProof : EnrollmentProof := mkProof "" "" "" "" "" "" "" "" "" "" 0 zeroPublished.
Definition set_p_InviteID (v : string) (p : EnrollmentProof) : EnrollmentProof :=
  mkProof v (p_ClientID p) (p_HostPublicKey p) (p_PublicKey p) (p_Target p) (p_Principal p) (p_ProfileID p) (p_Nonce p)
    (p_AcceptedAt p) (p_AuthorizationNotAfter p) (p_AuthorizationDurationSeconds p) (p_Published p).
Definition set_p_ClientID (v : string) (p : EnrollmentProof) : EnrollmentProof :=
  mkProof (p_InviteID p) v (p_HostPublicKey p) (p_PublicKey p) (p_Target p) (p_Principal p) (p_ProfileID p) (p_Nonce p)
    (p_AcceptedAt p) (p_AuthorizationNotAfter p) (p_AuthorizationDurationSeconds p) (p_Published p).
Definition set_p_HostPublicKey (v : string) (p : EnrollmentProof) : EnrollmentProof :=
  mkProof (p_InviteID p) (p_ClientID p) v (p_PublicKey p) (p_Target p) (p_Principal p) (p_ProfileID p) (p_Nonce p)
    (p_AcceptedAt p) (p_AuthorizationNotAfter p) (p_AuthorizationDurationSeconds p) (p_Published p).
Definition set_p_PublicKey (v : string) (p : EnrollmentProof) : EnrollmentProof :=
  mkProof (p_InviteID p) (p_ClientID p) (p_HostPublicKey p) v (p_Target p) (p_Principal p) (p_ProfileID p) (p_Nonce p)
    (p_AcceptedAt p) (p_AuthorizationNotAfter p) (p_AuthorizationDurationSeconds p) (p_Published p).
Definition set_p_Target (v : string) (p : EnrollmentProof) : EnrollmentProof :=
  mkProof (p_InviteID p) (p_ClientID p) (p_HostPublicKey p) (p_PublicKey p) v (p_Principal p) (p_ProfileID p) (p_Nonce p)
    (p_AcceptedAt p) (p_AuthorizationNotAfter p) (p_AuthorizationDurationSeconds p) (p_Published p).
Definition set_p_Principal (v : string) (p : EnrollmentProof) : EnrollmentProof :=
  mkProof (p_InviteID p) (p_ClientID p) (p_HostPublicKey p) (p_PublicKey p) (p_Target p) v (p_ProfileID p) (p_Nonce p)
    (p_AcceptedAt p) (p_AuthorizationNotAfter p) (p_AuthorizationDurationSeconds p) (p_Published p).
Definition set_p_ProfileID (v : string) (p : EnrollmentProof) : EnrollmentProof :=
  mkProof (p_InviteID p) (p_ClientID p) (p_HostPublicKey p) (p_PublicKey p) (p_Target p) (p_Principal p) v (p_Nonce p)
    (p_AcceptedAt p) (p_AuthorizationNotAfter p) (p_AuthorizationDurationSeconds p) (p_Published p).
Definition set_p_Nonce (v : string) (p : EnrollmentProof) : EnrollmentProof :=
  mkProof (p_InviteID p) (p_ClientID p) (p_HostPublicKey p) (p_PublicKey p) (p_Target p) (p_Principal p) (p_ProfileID p) v
    (p_AcceptedAt p) (p_AuthorizationNotAfter p) (p_AuthorizationDurationSeconds p) (p_Published p).
Definition set_p_AcceptedAt (v : string) (p : EnrollmentProof) : EnrollmentProof :=
  mkProof (p_InviteID p) (p_ClientID p) (p_HostPublicKey p) (p_PublicKey p) (p_Target p) (p_Principal p) (p_ProfileID p)
    (p_Nonce p) v (p_AuthorizationNotAfter p) (p_AuthorizationDurationSeconds p) (p_Published p).
Definition set_p_AuthorizationNotAfter (v : string) (p : EnrollmentProof) : EnrollmentProof :=
  mkProof (p_InviteID p) (p_ClientID p) (p_HostPublicKey p) (p_PublicKey p) (p_Target p) (p_Principal p) (p_ProfileID p)
    (p_Nonce p) (p_AcceptedAt p) v (p_AuthorizationDurationSeconds p) (p_Published p).
Definition set_p_AuthorizationDurationSeconds (v : Z) (p : EnrollmentProof) : EnrollmentProof :=
  mkProof (p_InviteID p) (p_ClientID p) (p_HostPublicKey p) (p_PublicKey p) (p_Target p) (p_Principal p) (p_ProfileID p)
    (p_Nonce p) (p_AcceptedAt p) (p_AuthorizationNotAfter p) v (p_Published p).
Definition set_p_Published (v : PublishedEndpointSet) (p : EnrollmentProof) : EnrollmentProof :=
  mkProof (p_InviteID p) (p_ClientID p) (p_HostPublicKey p) (p_PublicKey p) (p_Target p) (p_Principal p) (p_ProfileID p)
    (p_Nonce p) (p_AcceptedAt p) (p_AuthorizationNotAfter p) (p_AuthorizationDurationSeconds p) v.

(** [json.Unmarshal] into an [EnrollmentProof], with the embedded endpoints. *)
Definition proofFields : list (field EnrollmentProof) :=
  [("invite_id", string_field set_p_InviteID); ("client_id", string_field set_p_ClientID);
   ("host_public_key", string_field set_p_HostPublicKey); ("public_key", string_field set_p_PublicKey);
   ("target", string_field set_p_Target); ("principal", string_field set_p_Principal);
   ("profile_id", string_field set_p_ProfileID); ("nonce", string_field set_p_Nonce);
   ("accepted_at", string_field set_p_AcceptedAt);
   ("authorization_not_after", string_field set_p_AuthorizationNotAfter);
   ("authorization_duration_seconds", int_field set_p_AuthorizationDurationSeconds);
   ("published_endpoint_generation", uint_field 64 (λ g p,
      set_p_Published (mkEndpointSet g (Data (p_Published p)) (Enrollment (p_Published p))) p));
   ("data", λ v p, d ← decode false endpointFields v (Data (p_Published p));
      Ok (set_p_Published (mkEndpointSet (ps_Generation (p_Published p)) d (Enrollment (p_Published p))) p));
   ("enrollment", λ v p, d ← decode false endpointFields v (Enrollment (p_Published p));
      Ok (set_p_Published (mkEndpointSet (ps_Generation (p_Published p)) (Data (p_Published p)) d) p))]%string.

Definition EncodeEnrollmentRequest (q : EnrollmentRequest) : bytes :=
  print (JObj [("invite_id", JStr (q_InviteID q)); ("nonce", JStr (q_Nonce q)); ("client_name", JStr (q_ClientName q));
               ("public_key", JStr (q_PublicKey q)); ("profile_id", JStr (q_ProfileID q));
               ("tunnel_id", JStr (q_TunnelID q)); ("listen_address", JStr (q_ListenAddress q));
               ("listen_port", JInt (q_ListenPort q)); ("management_token", JStr (q_ManagementToken q))]%string).
Definition managementText (q : Clients.ManagementRequest) : bytes :=
  print (JObj ([("client_id", JStr (Clients.q_ClientID q)); ("management_token", JStr (Clients.ManagementToken q));
                ("tunnel_id", JStr (Clients.q_TunnelID q))]%string
               ++ omitempty "new_public_key" (Clients.NewPublicKey q)
               ++ omitempty "next_management_token" (Clients.NextManagementToken q))).

(** ** The network *)

Record Certificate := mkCertificate {
  isEd25519 : bool;
  CheckSignature : option error;
  NotBefore : Time;
  NotAfter : Time;
  (** DER of the public key *)
  SPKI : result bytes;
}.
Record ConnectionState := mkConnectionState {
  Version : Z;
  NegotiatedProtocol : string;
  PeerCertificates : list Certificate;
}.
(** An error of [client.Do]: a classified one in its chain, whether it is a
    certificate verification error or the failure of a dial, and its text. *)
Record transportError := mkTransportError {
  te_classified : option Resolve.ClassifiedError;
  te_certificate : bool;
  te_dial : bool;
  te_text : string;
}.
Record Response := mkResponse { StatusCode : Z; StatusText : string; Body : result bytes }.

(** The [n]th request: its URL, its body and the address that is dialled in
    place of the host of the URL. *)
Record network := mkNetwork {
  x_lookup : nat → string → result (list Addr);
  x_select : nat → Resolve.network;
  x_exchange : nat → string → bytes → option (Addr * Z) → transportError + (ConnectionState * Response);
}.

Section submit.
Context {CR : Crypto}.
Context (H : hostEnv) (X : network).

(** ** tls.go: the pin *)

Definition SPKISHA256 (spki : result bytes) : result string :=
  match spki with
  | Err e => Err (EMsg ("marshal enrollment TLS SPKI: " ++ errText e))
  | Ok encoded => Ok (Hex.encode (sha256 encoded))
  end.

Definition tlsErr (message : string) : option Resolve.ClassifiedError :=
  Some (Resolve.Classified Resolve.ClassTLSNegotiate "tls_negotiate" (EMsg message)).
Definition VerifyConnection (expectedSPKI : string) (current : Time) (state : ConnectionState)
    : option Resolve.ClassifiedError :=
  if negb (Version state =? VersionTLS13) then tlsErr "enrollment TLS did not negotiate TLS 1.3"
  else if negb (eqs (NegotiatedProtocol state) EnrollmentALPN) then tlsErr "enrollment TLS ALPN mismatch"
  else match PeerCertificates state with
  | [certificate] =>
      if negb (isEd25519 certificate) then tlsErr "enrollment TLS peer certificate must use Ed25519"
      else match CheckSignature certificate with
      | Some e => tlsErr ("enrollment TLS certificate is not self-signed: " ++ errText e)
      | None =>
          if (current <? NotBefore certificate) || (NotAfter certificate <? current)
          then tlsErr "enrollment TLS certificate is outside its validity period"
          else match SPKISHA256 (SPKI certificate) with
          | Err e => tlsErr ("enrollment TLS SPKI: " ++ errText e)
          | Ok actual =>
              if negb (eqs actual expectedSPKI)
              then Some (Resolve.Classified Resolve.ClassTLSSPKI "tls_spki" (EMsg "enrollment TLS SPKI pin mismatch"))
              else None
          end
      end
  | _ => tlsErr "enrollment TLS peer must present exactly one certificate"
  end.

(** ** submit.go *)

Definition classified (c : Resolve.ClassifiedError) : error := EMsg (Resolve.classifiedText c).

Definition classifyEnrollmentTransport (err : transportError) : error :=
  let text := te_text err in
  let lower := Clients.lowerText text in
  let as_ (class : string) := classified (Resolve.Classified class class (EMsg text)) in
  if negb (eqs (match te_classified err with
                | Some c => Resolve.Class c
                | None => Resolve.classifyClientMessage text
                end) "") then EMsg text
  else if te_certificate err then as_ Resolve.ClassTLSNegotiate
  else if te_dial err then as_ Resolve.ClassTCPConnect
  else if Strings.contains text "SPKI pin mismatch" then as_ Resolve.ClassTLSSPKI
  else if Strings.contains text "tls:" || Strings.contains text "TLS" || Strings.contains text "x509:"
          || Strings.contains lower "handshake" then as_ Resolve.ClassTLSNegotiate
  else if Strings.contains lower "connection refused" || Strings.contains lower "i/o timeout"
          || Strings.contains lower "network is unreachable" || Strings.contains lower "connect:"
  then as_ Resolve.ClassTCPConnect
  else EMsg ("enrollment request: " ++ text).

(** [client.Do]: over TLS the connection is verified before anything is sent. *)
Definition clientDo (url : string) (body : bytes) (pin : string) (endpoint : option (Addr * Z)) : HM (transportError + Response) :=
  n ← call;
  match x_exchange X n url body endpoint with
  | inl e => mret (inl e)
  | inr (state, response) =>
      if Strings.has_prefix url "http://" then mret (inr response)
      else
        current ← now H;
        match VerifyConnection pin current state with
        | Some c => mret (inl (mkTransportError (Some c) false false (Resolve.classifiedText c)))
        | None => mret (inr response)
        end
  end.

Definition postJSONTo (url : string) (body : bytes) (pin : string) (selected : Addr) (port : Z) : HM bytes :=
  let endpoint := if IsValid selected && negb (port =? 0) then Some (selected, port) else None in
  (if negb (Strings.has_prefix url "http://") && negb (Clients.isLowerHexDigest pin)
   then hfail (wrapErr Clients.ErrInvalidInvite "enrollment TLS SPKI pin is invalid") else mret ());;
  answer ← clientDo url body pin endpoint;
  match answer with
  | inl e => hfail (classifyEnrollmentTransport e)
  | inr response =>
      match Body response with
      | Err e => hfail (EMsg ("read enrollment response: " ++ errText e))
      | Ok payload =>
          if Clients.MaxEnrollmentRequestBytes <? blen payload
          then hfail (wrapErr Clients.ErrInvalidInvite "enrollment response too large")
          else if negb (StatusCode response =? StatusOK) then
            let message := Strings.trim_space (to_string payload) in
            let message := if eqs message "" then StatusText response else message in
            hfail (classified (Resolve.Classified Resolve.ClassInviteAuthorization "invite_authorization"
                     (wrapErr Clients.ErrInvalidInvite ("enrollment rejected: " ++ message))))
          else mret payload
      end
  end.
Definition postJSON (url : string) (body : bytes) (pin : string) : HM bytes := postJSONTo url body pin AddrInvalid 0.

Definition EnrollmentPort (invite : Invite.Invite) : Z :=
  if Invite.e_Port (Invite.Enrollment invite) =? 0 then Invite.DefaultEnrollmentPort
  else Invite.e_Port (Invite.Enrollment invite).
Definition EnrollmentTLSSPKISHA256 (invite : Invite.Invite) : string := Invite.TLSSPKISHA256 (Invite.Enrollment invite).

Definition SubmitEnrollmentPlan (invite : Invite.Invite) (request : EnrollmentRequest) (allowLoopback : bool)
    : HM (EnrollmentProof * Addr) :=
  match ParseDialHost (Invite.e_Host (Invite.Enrollment invite)) with
  | Err e => hfail (wrapErr Clients.ErrInvalidInvite ("enrollment host: " ++ errText e))
  | Ok host =>
      let allowLoopback := allowLoopback || (IsValid (IP host) && Server.IsLoopback (IP host)) in
      n ← call;
      match Resolve.Resolve (x_lookup X n) host allowLoopback with
      | inr c => hfail (classified c)
      | inl plan =>
          n ← call;
          match (Resolve.Select (x_select X n) plan (EnrollmentPort invite)).2 with
          | inr c => hfail (classified c)
          | inl selected =>
              url ← hlift (EnrollmentURL (addr_string selected) (EnrollmentPort invite));
              payload ← postJSONTo url (EncodeEnrollmentRequest request) (EnrollmentTLSSPKISHA256 invite) selected
                          (EnrollmentPort invite);
              match unmarshal proofFields zeroProof payload with
              | Err e => hfail (wrapErr Clients.ErrInvalidInvite ("decode enrollment proof: " ++ errText e))
              | Ok proof =>
                  match InviteClient.ValidateEnrollmentProof proof invite (q_PublicKey request) with
                  | Err e => hfail (classified (Resolve.Classified Resolve.ClassInviteAuthorization "invite_authorization" e))
                  | Ok _ => mret (proof, selected)
                  end
              end
          end
      end
  end.
Definition SubmitEnrollment (invite : Invite.Invite) (request : EnrollmentRequest) : HM EnrollmentProof :=
  '(proof, _) ← SubmitEnrollmentPlan invite request false; mret proof.

Definition managementURL (serverAddress : string) (enrollPort : Z) (action pin : string) : result string :=
  let enrollPort := if enrollPort =? 0 then DefaultManagementPort else enrollPort in
  addr ← parseHostForURL serverAddress;
  let scheme := if eqs pin "" then "http"%string else "https"%string in
  Ok (scheme ++ "://" ++ joinHostPort addr enrollPort ++ "/v1/" ++ action)%string.

Definition SubmitRevoke (serverAddress : string) (enrollPort : Z) (pin : string) (request : Clients.ManagementRequest) : HM () :=
  url ← hlift (managementURL serverAddress enrollPort "revoke" pin);
  postJSON url (managementText request) pin;; mret ().

Definition SubmitRotate (serverAddress : string) (enrollPort : Z) (pin : string) (request : Clients.ManagementRequest)
    : HM EnrollmentProof :=
  url ← hlift (managementURL serverAddress enrollPort "rotate" pin);
  payload ← postJSON url (managementText request) pin;
  match unmarshal proofFields zeroProof payload with
  | Err e => hfail (wrapErr Clients.ErrInvalidInvite ("decode rotate proof: " ++ errText e))
  | Ok proof =>
      if eqs (p_ClientID proof) "" || eqs (p_PublicKey proof) ""
         || negb (eqs (p_PublicKey proof) (Strings.trim_space (Clients.NewPublicKey request)))
      then hfail (wrapErr Clients.ErrInvalidInvite "rotate proof incomplete")
      else mret proof
  end.

End submit.

(** ** tls.go: the identity of the host *)

(** The fields of [tls.Config] that the host sets. *)
Record serverTLSConfig := mkServerTLSConfig {
  MinVersion : Z;
  MaxVersion : Z;
  CurvePreferences : list Z;
  Certificates : list bytes;
  NextProtos : list string;
}.
Definition X25519MLKEM768 : Z := 4588.

(** What the standard library does with keys and certificates. *)
Record pki (Key : Type) := mkPki {
  pemDecode : bytes → option (string * bytes * bytes);
  pemEncode : string → bytes → bytes;
  ParsePKCS8PrivateKey : bytes → result (option Key);    (* [None]: not an Ed25519 key *)
  MarshalPKCS8PrivateKey : Key → result bytes;
  GenerateKey : nat → result Key;
  MarshalPKIXPublicKey : Key → result bytes;
  CreateCertificate : nat → Key → Time → Time → result bytes;
  X509KeyPair : bytes → bytes → result (list bytes);
  ParseCertificate : bytes → result Certificate;
}.
#[global] Arguments pemDecode {Key}.
#[global] Arguments pemEncode {Key}.
#[global] Arguments ParsePKCS8PrivateKey {Key}.
#[global] Arguments MarshalPKCS8PrivateKey {Key}.
#[global] Arguments GenerateKey {Key}.
#[global] Arguments MarshalPKIXPublicKey {Key}.
#[global] Arguments CreateCertificate {Key}.
#[global] Arguments X509KeyPair {Key}.
#[global] Arguments ParseCertificate {Key}.

Section identity.
Context {CR : Crypto} {Key : Type} (K : pki Key) (H : hostEnv).

Definition decodeKey (raw : bytes) : result Key :=
  match pemDecode K raw with
  | Some (type_, block, []) =>
      if negb (eqs type_ "PRIVATE KEY") then Err (EMsg "enrollment TLS private key is not canonical PKCS#8 PEM")
      else match ParsePKCS8PrivateKey K block with
      | Err e => Err (EMsg ("parse enrollment TLS private key: " ++ errText e))
      | Ok None => Err (EMsg "enrollment TLS private key must use Ed25519")
      | Ok (Some key) => Ok key
      end
  | _ => Err (EMsg "enrollment TLS private key is not canonical PKCS#8 PEM")
  end.

Definition loadOrCreateEnrollmentKey (path : string) : HM (Key * bool) :=
  r ← htry (ReadFile H path);
  match r with
  | Ok raw => key ← hlift (decodeKey raw); mret (key, false)
  | Err e =>
      if negb (IsNotExist e) then hfail e
      else
        sys H;;                                  (* MkdirAll *)
        n ← call;
        match GenerateKey K n with
        | Err e => hfail (EMsg ("generate enrollment TLS key: " ++ errText e))
        | Ok key =>
            encoded ← hlift (MarshalPKCS8PrivateKey K key);
            Clients.writeFileAtomic H path (pemEncode K "PRIVATE KEY" encoded);;
            mret (key, true)
        end
  end.

Definition writeEnrollmentCertificate (path : string) (key : Key) (now : Time) : HM () :=
  r ← htry (sys H);                              (* the serial *)
  match r with
  | Err e => hfail (EMsg ("generate enrollment TLS certificate serial: " ++ errText e))
  | Ok _ =>
      n ← call;
      match CreateCertificate K n key (now - 5 * Minute) (now + EnrollmentCertificateLifetime) with
      | Err e => hfail (EMsg ("create enrollment TLS certificate: " ++ errText e))
      | Ok der => Clients.writeFileAtomic H path (pemEncode K "CERTIFICATE" der)
      end
  end.

Definition loadEnrollmentLeaf (certPath keyPath : string) : HM Certificate :=
  cert ← ReadFile H certPath;
  key ← ReadFile H keyPath;
  pair ← hlift (X509KeyPair K cert key);
  match pair with
  | [der] => hlift (ParseCertificate K der)
  | _ => hfail (EMsg "enrollment TLS identity must contain exactly one certificate")
  end.

(** The profile the host serves with: TLS 1.3 with one hybrid key exchange. *)
Definition LoadServerTLSConfig (certPath keyPath : string) : HM serverTLSConfig :=
  r ← htry (cert ← ReadFile H certPath; key ← ReadFile H keyPath; hlift (X509KeyPair K cert key));
  match r with
  | Err e => hfail (EMsg ("load enrollment TLS identity: " ++ errText e))
  | Ok [der] =>
      match ParseCertificate K der with
      | Err e => hfail (EMsg ("parse enrollment TLS certificate: " ++ errText e))
      | Ok leaf =>
          if negb (isEd25519 leaf) then hfail (EMsg "enrollment TLS certificate must use Ed25519")
          else mret (mkServerTLSConfig VersionTLS13 VersionTLS13 [X25519MLKEM768] [der] [EnrollmentALPN])
      end
  | Ok _ => hfail (EMsg "enrollment TLS identity must contain exactly one certificate")
  end.

(** Whether the certificate must be written, for an existing key. *)
Definition needsRenewal (certPath keyPath pin : string) (now : Time) : HM bool :=
  r ← htry (loadEnrollmentLeaf certPath keyPath);
  match r with
  | Ok certificate =>
      certPin ← hlift (SPKISHA256 (SPKI certificate));
      if negb (eqs certPin pin) then hfail (EMsg "enrollment TLS certificate does not match private key")
      else mret (negb (now <? NotAfter certificate - EnrollmentCertificateRenewBefore))
  | Err e => if IsNotExist e then mret true else hfail e
  end.

Definition ensureTLSIdentityLocked (certPath keyPath : string) (now : Time) : HM (string * bool * bool) :=
  '(key, keyCreated) ← loadOrCreateEnrollmentKey keyPath;
  pin ← hlift (SPKISHA256 (MarshalPKIXPublicKey K key));
  renew ← (if (keyCreated : bool) then mret true else needsRenewal certPath keyPath pin now);
  if negb renew then mret (pin, false, false)
  else writeEnrollmentCertificate certPath key now;; mret (pin, keyCreated, true).

Definition enrollmentTLSIdentityLockName (keyPath certPath : string) : string :=
  "." ++ AuthorizedKeys.base keyPath ++ "." ++ AuthorizedKeys.base certPath ++ ".lock".


Definition EnsureTLSIdentity (certPath keyPath : string) (at_ : Time) : HM (string * bool * bool) :=
  if eqs (Strings.trim_space certPath) "" || eqs (Strings.trim_space keyPath) ""
  then hfail (EMsg "enrollment TLS certificate and key paths are required")
  else
    current ← Clients.orNow H at_;
    Clients.withLock H (Filepath.Dir keyPath) (enrollmentTLSIdentityLockName keyPath certPath) "enrollment TLS identity"
      (ensureTLSIdentityLocked certPath keyPath current).

End identity.

End Submit.
