(* ===== verification/ClientEnroll.v ===== *)
(** * internal/command/lifecycle.go: enroll, rotate and revoke

    How a client joins a host, changes its key and leaves.  What must survive
    an interruption (the key, the management tokens) is written before the host
    is asked, in the pending state of the enrollment or rotation; the receipt of
    the enrollment and the generation of the route follow when the host has
    answered.

    The generator of client keys and [systemctl] are external commands, the
    network and the provisioner are arguments, as in Tunnels.v and Submit.v.
    Owners and modes of files are not kept. *)

From S2P Require Import Prelude GoStd Json StrictJson Time Host Locator Grant SshWire Crypto Packet Kex ClientStore.
From S2P Require Import Clients Server AuthorizedKeys GrantSession Invite Accept InviteClient Config Resolve Routes Lifecycle.
From S2P Require Import Tunnels Submit.
Import Time Json Locator ClientStore.
Import Tunnels.

Module ClientEnroll.

(** ** installlayout *)

Definition ClientIdentityPath : string := ClientStateRoot ++ "/identity/client".
Definition ClientKnownHostsPath : string := ClientStateRoot ++ "/trust/known_hosts".
Definition ClientGlobalKnownHostsPath : string := ClientStateRoot ++ "/trust/known_hosts.empty".
Definition SSHPath : string := "/opt/warptweet/libexec/openssh/bin/ssh".
Definition SSHKeygenPath : string := "/opt/warptweet/libexec/openssh/bin/ssh-keygen".

(** ** Documents *)

(** The receipt of an enrollment. *)
Record enrollmentReceipt := mkEnrollmentReceipt {
  e_InviteID : string;
  e_ClientID : string;
  e_TunnelID : string;
  e_AcceptedAt : string;
  e_AuthorizationNotAfter : string;
  e_AuthorizationDurationSeconds : Z;
  e_Generation : string;
  e_ManagementToken : string;
  e_Published : PublishedEndpointSet;
  e_PublicKey : string;
  e_HostPublicKey : string;
  e_EnrollmentTLSSPKISHA256 : string;
  e_Target : string;
  e_Principal : string;
  e_ProfileID : string;
  e_RevokedAt : string;
}.
Definition zero_enrollmentReceipt : enrollmentReceipt :=
  mkEnrollmentReceipt "" "" "" "" "" 0 "" "" zeroPublished "" "" "" "" "" "" "".
Definition set_e_InviteID (v : string) (r : enrollmentReceipt) : enrollmentReceipt :=
  mkEnrollmentReceipt v (e_ClientID r) (e_TunnelID r) (e_AcceptedAt r) (e_AuthorizationNotAfter r)
    (e_AuthorizationDurationSeconds r) (e_Generation r) (e_ManagementToken r) (e_Published r) (e_PublicKey r)
    (e_HostPublicKey r) (e_EnrollmentTLSSPKISHA256 r) (e_Target r) (e_Principal r) (e_ProfileID r)
    (e_RevokedAt r).
Definition set_e_ClientID (v : string) (r : enrollmentReceipt) : enrollmentReceipt :=
  mkEnrollmentReceipt (e_InviteID r) v (e_TunnelID r) (e_AcceptedAt r) (e_AuthorizationNotAfter r)
    (e_AuthorizationDurationSeconds r) (e_Generation r) (e_ManagementToken r) (e_Published r) (e_PublicKey r)
    (e_HostPublicKey r) (e_EnrollmentTLSSPKISHA256 r) (e_Target r) (e_Principal r) (e_ProfileID r)
    (e_RevokedAt r).
Definition set_e_TunnelID (v : string) (r : enrollmentReceipt) : enrollmentReceipt :=
  mkEnrollmentReceipt (e_InviteID r) (e_ClientID r) v (e_AcceptedAt r) (e_AuthorizationNotAfter r)
    (e_AuthorizationDurationSeconds r) (e_Generation r) (e_ManagementToken r) (e_Published r) (e_PublicKey r)
    (e_HostPublicKey r) (e_EnrollmentTLSSPKISHA256 r) (e_Target r) (e_Principal r) (e_ProfileID r)
    (e_RevokedAt r).
Definition set_e_AcceptedAt (v : string) (r : enrollmentReceipt) : enrollmentReceipt :=
  mkEnrollmentReceipt (e_InviteID r) (e_ClientID r) (e_TunnelID r) v (e_AuthorizationNotAfter r)
    (e_AuthorizationDurationSeconds r) (e_Generation r) (e_ManagementToken r) (e_Published r) (e_PublicKey r)
    (e_HostPublicKey r) (e_EnrollmentTLSSPKISHA256 r) (e_Target r) (e_Principal r) (e_ProfileID r)
    (e_RevokedAt r).
Definition set_e_AuthorizationNotAfter (v : string) (r : enrollmentReceipt) : enrollmentReceipt :=
  mkEnrollmentReceipt (e_InviteID r) (e_ClientID r) (e_TunnelID r) (e_AcceptedAt r) v
    (e_AuthorizationDurationSeconds r) (e_Generation r) (e_ManagementToken r) (e_Published r) (e_PublicKey r)
    (e_HostPublicKey r) (e_EnrollmentTLSSPKISHA256 r) (e_Target r) (e_Principal r) (e_ProfileID r)
    (e_RevokedAt r).
Definition set_e_AuthorizationDurationSeconds (v : Z) (r : enrollmentReceipt) : enrollmentReceipt :=
  mkEnrollmentReceipt (e_InviteID r) (e_ClientID r) (e_TunnelID r) (e_AcceptedAt r) (e_AuthorizationNotAfter r)
    v (e_Generation r) (e_ManagementToken r) (e_Published r) (e_PublicKey r) (e_HostPublicKey r)
    (e_EnrollmentTLSSPKISHA256 r) (e_Target r) (e_Principal r) (e_ProfileID r) (e_RevokedAt r).
Definition set_e_Generation (v : string) (r : enrollmentReceipt) : enrollmentReceipt :=
  mkEnrollmentReceipt (e_InviteID r) (e_ClientID r) (e_TunnelID r) (e_AcceptedAt r) (e_AuthorizationNotAfter r)
    (e_AuthorizationDurationSeconds r) v (e_ManagementToken r) (e_Published r) (e_PublicKey r)
    (e_HostPublicKey r) (e_EnrollmentTLSSPKISHA256 r) (e_Target r) (e_Principal r) (e_ProfileID r)
    (e_RevokedAt r).
Definition set_e_ManagementToken (v : string) (r : enrollmentReceipt) : enrollmentReceipt :=
  mkEnrollmentReceipt (e_InviteID r) (e_ClientID r) (e_TunnelID r) (e_AcceptedAt r) (e_AuthorizationNotAfter r)
    (e_AuthorizationDurationSeconds r) (e_Generation r) v (e_Published r) (e_PublicKey r) (e_HostPublicKey r)
    (e_EnrollmentTLSSPKISHA256 r) (e_Target r) (e_Principal r) (e_ProfileID r) (e_RevokedAt r).
Definition set_e_Published (v : PublishedEndpointSet) (r : enrollmentReceipt) : enrollmentReceipt :=
  mkEnrollmentReceipt (e_InviteID r) (e_ClientID r) (e_TunnelID r) (e_AcceptedAt r) (e_AuthorizationNotAfter r)
    (e_AuthorizationDurationSeconds r) (e_Generation r) (e_ManagementToken r) v (e_PublicKey r)
    (e_HostPublicKey r) (e_EnrollmentTLSSPKISHA256 r) (e_Target r) (e_Principal r) (e_ProfileID r)
    (e_RevokedAt r).
Definition set_e_PublicKey (v : string) (r : enrollmentReceipt) : enrollmentReceipt :=
  mkEnrollmentReceipt (e_InviteID r) (e_ClientID r) (e_TunnelID r) (e_AcceptedAt r) (e_AuthorizationNotAfter r)
    (e_AuthorizationDurationSeconds r) (e_Generation r) (e_ManagementToken r) (e_Published r) v
    (e_HostPublicKey r) (e_EnrollmentTLSSPKISHA256 r) (e_Target r) (e_Principal r) (e_ProfileID r)
    (e_RevokedAt r).
Definition set_e_HostPublicKey (v : string) (r : enrollmentReceipt) : enrollmentReceipt :=
  mkEnrollmentReceipt (e_InviteID r) (e_ClientID r) (e_TunnelID r) (e_AcceptedAt r) (e_AuthorizationNotAfter r)
    (e_AuthorizationDurationSeconds r) (e_Generation r) (e_ManagementToken r) (e_Published r) (e_PublicKey r) v
    (e_EnrollmentTLSSPKISHA256 r) (e_Target r) (e_Principal r) (e_ProfileID r) (e_RevokedAt r).
Definition set_e_EnrollmentTLSSPKISHA256 (v : string) (r : enrollmentReceipt) : enrollmentReceipt :=
  mkEnrollmentReceipt (e_InviteID r) (e_ClientID r) (e_TunnelID r) (e_AcceptedAt r) (e_AuthorizationNotAfter r)
    (e_AuthorizationDurationSeconds r) (e_Generation r) (e_ManagementToken r) (e_Published r) (e_PublicKey r)
    (e_HostPublicKey r) v (e_Target r) (e_Principal r) (e_ProfileID r) (e_RevokedAt r).
Definition set_e_Target (v : string) (r : enrollmentReceipt) : enrollmentReceipt :=
  mkEnrollmentReceipt (e_InviteID r) (e_ClientID r) (e_TunnelID r) (e_AcceptedAt r) (e_AuthorizationNotAfter r)
    (e_AuthorizationDurationSeconds r) (e_Generation r) (e_ManagementToken r) (e_Published r) (e_PublicKey r)
    (e_HostPublicKey r) (e_EnrollmentTLSSPKISHA256 r) v (e_Principal r) (e_ProfileID r) (e_RevokedAt r).
Definition set_e_Principal (v : string) (r : enrollmentReceipt) : enrollmentReceipt :=
  mkEnrollmentReceipt (e_InviteID r) (e_ClientID r) (e_TunnelID r) (e_AcceptedAt r) (e_AuthorizationNotAfter r)
    (e_AuthorizationDurationSeconds r) (e_Generation r) (e_ManagementToken r) (e_Published r) (e_PublicKey r)
    (e_HostPublicKey r) (e_EnrollmentTLSSPKISHA256 r) (e_Target r) v (e_ProfileID r) (e_RevokedAt r).
Definition set_e_ProfileID (v : string) (r : enrollmentReceipt) : enrollmentReceipt :=
  mkEnrollmentReceipt (e_InviteID r) (e_ClientID r) (e_TunnelID r) (e_AcceptedAt r) (e_AuthorizationNotAfter r)
    (e_AuthorizationDurationSeconds r) (e_Generation r) (e_ManagementToken r) (e_Published r) (e_PublicKey r)
    (e_HostPublicKey r) (e_EnrollmentTLSSPKISHA256 r) (e_Target r) (e_Principal r) v (e_RevokedAt r).
Definition set_e_RevokedAt (v : string) (r : enrollmentReceipt) : enrollmentReceipt :=
  mkEnrollmentReceipt (e_InviteID r) (e_ClientID r) (e_TunnelID r) (e_AcceptedAt r) (e_AuthorizationNotAfter r)
    (e_AuthorizationDurationSeconds r) (e_Generation r) (e_ManagementToken r) (e_Published r) (e_PublicKey r)
    (e_HostPublicKey r) (e_EnrollmentTLSSPKISHA256 r) (e_Target r) (e_Principal r) (e_ProfileID r) v.

(** A rotation the host may not have seen yet, and an enrollment. *)
Record pendingRotation := mkPendingRotation {
  pr_ClientID : string;
  pr_TunnelID : string;
  pr_Generation : string;
  pr_PublicKey : string;
  pr_CurrentManagementToken : string;
  pr_NextManagementToken : string;
}.
Definition zero_pendingRotation : pendingRotation :=
  mkPendingRotation "" "" "" "" "" "".
Definition set_pr_ClientID (v : string) (r : pendingRotation) : pendingRotation :=
  mkPendingRotation v (pr_TunnelID r) (pr_Generation r) (pr_PublicKey r) (pr_CurrentManagementToken r)
    (pr_NextManagementToken r).
Definition set_pr_TunnelID (v : string) (r : pendingRotation) : pendingRotation :=
  mkPendingRotation (pr_ClientID r) v (pr_Generation r) (pr_PublicKey r) (pr_CurrentManagementToken r)
    (pr_NextManagementToken r).
Definition set_pr_Generation (v : string) (r : pendingRotation) : pendingRotation :=
  mkPendingRotation (pr_ClientID r) (pr_TunnelID r) v (pr_PublicKey r) (pr_CurrentManagementToken r)
    (pr_NextManagementToken r).
Definition set_pr_PublicKey (v : string) (r : pendingRotation) : pendingRotation :=
  mkPendingRotation (pr_ClientID r) (pr_TunnelID r) (pr_Generation r) v (pr_CurrentManagementToken r)
    (pr_NextManagementToken r).
Definition set_pr_CurrentManagementToken (v : string) (r : pendingRotation) : pendingRotation :=
  mkPendingRotation (pr_ClientID r) (pr_TunnelID r) (pr_Generation r) (pr_PublicKey r) v
    (pr_NextManagementToken r).
Definition set_pr_NextManagementToken (v : string) (r : pendingRotation) : pendingRotation :=
  mkPendingRotation (pr_ClientID r) (pr_TunnelID r) (pr_Generation r) (pr_PublicKey r)
    (pr_CurrentManagementToken r) v.
Record pendingEnrollment := mkPendingEnrollment {
  pe_InviteID : string;
  pe_TunnelID : string;
  pe_Generation : string;
  pe_PublicKey : string;
  pe_ManagementToken : string;
}.
Definition zero_pendingEnrollment : pendingEnrollment :=
  mkPendingEnrollment "" "" "" "" "".
Definition set_pe_InviteID (v : string) (r : pendingEnrollment) : pendingEnrollment :=
  mkPendingEnrollment v (pe_TunnelID r) (pe_Generation r) (pe_PublicKey r) (pe_ManagementToken r).
Definition set_pe_TunnelID (v : string) (r : pendingEnrollment) : pendingEnrollment :=
  mkPendingEnrollment (pe_InviteID r) v (pe_Generation r) (pe_PublicKey r) (pe_ManagementToken r).
Definition set_pe_Generation (v : string) (r : pendingEnrollment) : pendingEnrollment :=
  mkPendingEnrollment (pe_InviteID r) (pe_TunnelID r) v (pe_PublicKey r) (pe_ManagementToken r).
Definition set_pe_PublicKey (v : string) (r : pendingEnrollment) : pendingEnrollment :=
  mkPendingEnrollment (pe_InviteID r) (pe_TunnelID r) (pe_Generation r) v (pe_ManagementToken r).
Definition set_pe_ManagementToken (v : string) (r : pendingEnrollment) : pendingEnrollment :=
  mkPendingEnrollment (pe_InviteID r) (pe_TunnelID r) (pe_Generation r) (pe_PublicKey r) v.

Definition pendingRotationFields : list (field pendingRotation) :=
  [("client_id", string_field set_pr_ClientID);
   ("tunnel_id", string_field set_pr_TunnelID);
   ("generation", string_field set_pr_Generation);
   ("public_key", string_field set_pr_PublicKey);
   ("current_management_token", string_field set_pr_CurrentManagementToken);
   ("next_management_token", string_field set_pr_NextManagementToken)]%string.
Definition pendingRotationJSON (p : pendingRotation) : json :=
  JObj [("client_id", JStr (pr_ClientID p));
        ("tunnel_id", JStr (pr_TunnelID p));
        ("generation", JStr (pr_Generation p));
        ("public_key", JStr (pr_PublicKey p));
        ("current_management_token", JStr (pr_CurrentManagementToken p));
        ("next_management_token", JStr (pr_NextManagementToken p))]%string.
Definition pendingEnrollmentFields : list (field pendingEnrollment) :=
  [("invite_id", string_field set_pe_InviteID);
   ("tunnel_id", string_field set_pe_TunnelID);
   ("generation", string_field set_pe_Generation);
   ("public_key", string_field set_pe_PublicKey);
   ("management_token", string_field set_pe_ManagementToken)]%string.
Definition pendingEnrollmentJSON (p : pendingEnrollment) : json :=
  JObj [("invite_id", JStr (pe_InviteID p));
        ("tunnel_id", JStr (pe_TunnelID p));
        ("generation", JStr (pe_Generation p));
        ("public_key", JStr (pe_PublicKey p));
        ("management_token", JStr (pe_ManagementToken p))]%string.

(** [json.Unmarshal] into a receipt, with the embedded endpoints. *)
Definition dataField (v : json) (r : enrollmentReceipt) : result enrollmentReceipt :=
  d ← decode false endpointFields v (Data (e_Published r));
  Ok (set_e_Published (mkEndpointSet (ps_Generation (e_Published r)) d (Enrollment (e_Published r))) r).
Definition enrollmentField (v : json) (r : enrollmentReceipt) : result enrollmentReceipt :=
  d ← decode false endpointFields v (Enrollment (e_Published r));
  Ok (set_e_Published (mkEndpointSet (ps_Generation (e_Published r)) (Data (e_Published r)) d) r).
Definition receiptFields : list (field enrollmentReceipt) :=
  [("invite_id", string_field set_e_InviteID);
   ("client_id", string_field set_e_ClientID);
   ("tunnel_id", string_field set_e_TunnelID);
   ("accepted_at", string_field set_e_AcceptedAt);
   ("authorization_not_after", string_field set_e_AuthorizationNotAfter);
   ("authorization_duration_seconds", int_field set_e_AuthorizationDurationSeconds);
   ("generation", string_field set_e_Generation);
   ("management_token", string_field set_e_ManagementToken);
   ("published_endpoint_generation", uint_field 64 (λ g r,
      set_e_Published (mkEndpointSet g (Data (e_Published r)) (Enrollment (e_Published r))) r));
   ("data", dataField);
   ("enrollment", enrollmentField);
   ("public_key", string_field set_e_PublicKey);
   ("host_public_key", string_field set_e_HostPublicKey);
   ("enrollment_tls_spki_sha256", string_field set_e_EnrollmentTLSSPKISHA256);
   ("target", string_field set_e_Target);
   ("principal", string_field set_e_Principal);
   ("profile_id", string_field set_e_ProfileID);
   ("revoked_at", string_field set_e_RevokedAt)]%string.
Definition receiptJSON (r : enrollmentReceipt) : result json :=
  data ← ClientStore.endpointJSON (Data (e_Published r));
  enrollment ← ClientStore.endpointJSON (Enrollment (e_Published r));
  Ok (JObj ([("invite_id", JStr (e_InviteID r)); ("client_id", JStr (e_ClientID r)); ("tunnel_id", JStr (e_TunnelID r));
             ("accepted_at", JStr (e_AcceptedAt r))]%string
    ++ omitempty "authorization_not_after" (e_AuthorizationNotAfter r)
    ++ Routes.omitzero "authorization_duration_seconds" (e_AuthorizationDurationSeconds r)
    ++ [("generation"%string, JStr (e_Generation r))]
    ++ omitempty "management_token" (e_ManagementToken r)
    ++ [("published_endpoint_generation", JInt (ps_Generation (e_Published r))); ("data", data);
        ("enrollment", enrollment)]%string
    ++ omitempty "public_key" (e_PublicKey r)
    ++ omitempty "host_public_key" (e_HostPublicKey r)
    ++ [("enrollment_tls_spki_sha256"%string, JStr (e_EnrollmentTLSSPKISHA256 r))]
    ++ omitempty "target" (e_Target r)
    ++ omitempty "principal" (e_Principal r)
    ++ omitempty "profile_id" (e_ProfileID r)
    ++ omitempty "revoked_at" (e_RevokedAt r))).

(** ** net.SplitHostPort *)

(** What follows the last byte [c]. *)
Fixpoint lastIndex (c : Z) (b : bytes) : option nat :=
  match b with
  | [] => None
  | x :: r => match lastIndex c r with
              | Some i => Some (S i)
              | None => if zb x =? c then Some O else None
              end
  end.
Fixpoint firstIndex (c : Z) (b : bytes) : option nat :=
  match b with
  | [] => None
  | x :: r => if zb x =? c then Some O else S <$> firstIndex c r
  end.
Definition hasByte (c : Z) (b : bytes) : bool := bool_decide (is_Some (firstIndex c b)).
Definition SplitHostPort (hostport : string) : result (string * string) :=
  let b := to_bytes hostport in
  let fail {A} (why : string) : result A := Err (EMsg ("address " ++ hostport ++ ": " ++ why)) in
  match lastIndex 58 b with
  | None => fail "missing port in address"
  | Some i =>
      '(host, j, k) ←
        match b with
        | x :: _ =>
            if zb x =? 91 then
              match firstIndex 93 b with
              | None => fail "missing ']' in address"
              | Some end_ =>
                  if bool_decide (S end_ = length b) then fail "missing port in address"
                  else if bool_decide (S end_ = i) then Ok (take (end_ - 1) (drop 1 b), 1%nat, S end_)
                  else if bool_decide ((zb <$> b !! S end_) = Some 58) then fail "too many colons in address"
                  else fail "missing port in address"
              end
            else if hasByte 58 (take i b) then fail "too many colons in address" else Ok (take i b, O, O)
        | [] => fail "missing port in address"
        end;
      if hasByte 91 (drop j b) then fail "unexpected '[' in address"
      else if hasByte 93 (drop k b) then fail "unexpected ']' in address"
      else Ok (to_string host, to_string (drop (S i) b))
  end.

Example split_plain : SplitHostPort "127.0.0.1:15432" = Ok ("127.0.0.1", "15432")%string.
Proof. vm_compute. reflexivity. Qed.
Example split_six : SplitHostPort "[::1]:22" = Ok ("::1", "22")%string.
Proof. vm_compute. reflexivity. Qed.

(** The flags and the operand of [enroll], and what is typed at its prompt. *)
Record enrollArguments := mkEnrollArguments {
  a_yes : bool;
  a_prepareOnly : bool;
  a_listenPort : string;
  a_proofPath : string;
  a_restart : string;
  a_invite : string;
  a_typed : string;
}.

Section commands.
Context {CR : Crypto}.
Context (H : hostEnv) (rnd : nat → nat → bytes) (P : provisioner) (X : Submit.network).
Context (procRead : nat → string → result bytes) (probe : nat → Z → option error).
Context (exec : nat → list string → gmap string bytes → option error * gmap string bytes).
(** Whether the process is the superuser's, and whether the command was
    interrupted. *)
Context (superuser : bool) (cancelled : nat → bool).

(** ** Files *)

Definition writeFileAtomic := AuthorizedKeys.writeFileAtomic H.
Definition WriteFile := Lifecycle.WriteFile H.

Definition copyFile (source destination : string) : HM () :=
  contents ← ReadFile H source; writeFileAtomic destination contents.

Fixpoint chownPaths (paths : list string) : HM () :=
  match paths with
  | [] => mret ()
  | path :: rest =>
      if eqs path "" then chownPaths rest
      else
        r ← htry (sys H;; fs ← get_files;       (* Lstat *)
                  if isFile path fs || occupied path fs then mret () else hfail (EOS ENOENT));
        match r with
        | Err e => if IsNotExist e then chownPaths rest else hfail e
        | Ok _ =>
            r ← htry (sys H);                    (* Chown *)
            match r with
            | Err e => hfail (EMsg ("chown " ++ path ++ ": " ++ errText e))
            | Ok _ => chownPaths rest
            end
        end
  end.
Definition ownClientStateFiles (paths : list string) : HM () :=
  if negb superuser then mret ()
  else
    group ← htry (sys H);                        (* LookupGroup *)
    match group with
    | Err e => hfail (EMsg ("lookup service group warptweet-client: " ++ errText e))
    | Ok _ =>
        serviceUser ← htry (sys H);              (* Lookup *)
        match serviceUser with
        | Err e => hfail (EMsg ("lookup service user warptweet-client: " ++ errText e))
        | Ok _ => chownPaths paths
        end
    end.

Fixpoint makeDirectories (chmod : bool) (dirs : list string) : HM () :=
  match dirs with
  | [] => mret ()
  | dir :: rest => MkdirAll H dir;; (if chmod then sys H else mret ());; makeDirectories chmod rest
  end.

Definition ensureRouteGenerationDirectories (generationDir : string) : HM () :=
  let generationsDir := Filepath.Dir generationDir in
  let routeDir := Filepath.Dir generationsDir in
  makeDirectories true [routeDir; generationsDir; generationDir];;
  ownClientStateFiles [routeDir; generationsDir; generationDir].

Definition activateGeneration (manifestPath identityPath knownHostsPath emptyTrustPath stageIdentity stageManifest
    stageKnownHosts stageEmpty : string) : HM () :=
  makeDirectories false [Filepath.Dir manifestPath; Filepath.Dir identityPath; Filepath.Dir knownHostsPath];;
  copyFile stageIdentity identityPath;;
  copyFile (stageIdentity ++ ".pub") (identityPath ++ ".pub");;
  copyFile stageManifest manifestPath;;
  copyFile stageKnownHosts knownHostsPath;;
  copyFile stageEmpty emptyTrustPath;;
  ownClientStateFiles [Filepath.Dir identityPath; Filepath.Dir knownHostsPath; identityPath; identityPath ++ ".pub";
                       manifestPath; knownHostsPath; emptyTrustPath]%string.

Definition persistActivatedGeneration (routeID generationID identityPath manifestPath knownHostsPath emptyTrustPath : string)
    : HM () :=
  generationDir ← hlift (Routes.GenerationDir Root routeID generationID);
  ensureRouteGenerationDirectories generationDir;;
  activateGeneration (Filepath.Join generationDir "client.wt") (Filepath.Join generationDir "identity")
    (Filepath.Join generationDir "known_hosts") (Filepath.Join generationDir "known_hosts.empty")
    identityPath manifestPath knownHostsPath emptyTrustPath;;
  Routes.Activate H Root routeID generationID.

Definition copyGenerationPolicy (generationDir stageRoot : string) : HM (string * string * string) :=
  MkdirAll H stageRoot;;
  let manifestPath := Filepath.Join stageRoot "client.wt" in
  let knownHostsPath := Filepath.Join stageRoot "known_hosts" in
  let emptyPath := Filepath.Join stageRoot "known_hosts.empty" in
  copyFile (Filepath.Join generationDir "client.wt") manifestPath;;
  copyFile (Filepath.Join generationDir "known_hosts") knownHostsPath;;
  let emptySrc := Filepath.Join generationDir "known_hosts.empty" in
  there ← htry (Lstat H emptySrc);
  (match there with Ok _ => copyFile emptySrc emptyPath | Err _ => WriteFile emptyPath [] end);;
  mret (manifestPath, knownHostsPath, emptyPath).

Definition stageActiveGenerationPolicy (routeID stageRoot : string) : HM (string * string * string) :=
  r ← htry (Routes.ManifestPath H Root routeID);
  match r with
  | Err e => hfail (EMsg ("active generation for " ++ routeID ++ ": " ++ errText e))
  | Ok currentManifest => copyGenerationPolicy (Filepath.Dir currentManifest) stageRoot
  end.

Definition fileSHA256 (path : string) : HM string :=
  contents ← ReadFile H path; mret (Hex.encode (sha256 contents)).

Definition keygenPath : HM string :=
  r ← htry (Lstat H SSHKeygenPath);
  match r with
  | Ok _ => mret SSHKeygenPath
  | Err _ =>
      let candidate := Filepath.Join (Filepath.Dir SSHPath) "ssh-keygen" in
      r ← htry (Lstat H candidate);
      mret match r with Ok _ => candidate | Err _ => SSHKeygenPath end
  end.

Definition readInviteInput (value : string) : HM bytes :=
  if Strings.has_prefix (Strings.trim_space value) "{" then mret (to_bytes value) else ReadFile H value.

(** ** Receipts *)

Definition enrollmentReceiptDir : string := Filepath.Join (Filepath.Dir ClientManifestPath) "enrollment".
Definition receiptFile (tunnelID : string) : string := Filepath.Join enrollmentReceiptDir (tunnelID ++ ".json").

Definition writeEnrollmentReceipt (receipt : enrollmentReceipt) : HM () :=
  MkdirAll H enrollmentReceiptDir;;
  raw ← hlift (receiptJSON receipt);
  writeFileAtomic (receiptFile (e_TunnelID receipt)) (print raw ++ [bz 10]).

Definition loadEnrollmentReceipt (tunnelID : string) : HM enrollmentReceipt :=
  r ← htry (ReadFile H (receiptFile tunnelID));
  match r with
  | Err e => hfail (EMsg ("load enrollment receipt for " ++ tunnelID ++ ": " ++ errText e))
  | Ok raw =>
      match unmarshal receiptFields zero_enrollmentReceipt raw with
      | Err e => hfail (EMsg ("parse enrollment receipt: " ++ errText e))
      | Ok receipt => mret (if eqs (e_TunnelID receipt) "" then set_e_TunnelID tunnelID receipt else receipt)
      end
  end.

(** The receipt of the route that the enrollment's receipt gives. *)
Definition routeReceipt (routeID listenEndpoint : string) (r : enrollmentReceipt) : Routes.Receipt :=
  Routes.mkReceipt (e_InviteID r) (e_ClientID r) "" routeID (e_AcceptedAt r) (e_AuthorizationNotAfter r)
    (e_AuthorizationDurationSeconds r) (e_Generation r) (e_ManagementToken r) (e_Published r) (e_PublicKey r)
    (e_HostPublicKey r) (e_EnrollmentTLSSPKISHA256 r) (e_Target r) listenEndpoint (e_Principal r) (e_ProfileID r)
    (e_RevokedAt r).

Definition persistRouteEnrollment (routeID listenEndpoint : string) (receipt : enrollmentReceipt) (restartPolicy : string)
    : HM () :=
  exists_ ← Routes.Exists H Root routeID;
  if negb exists_ then hlift (Routes.bad ("route " ++ routeID ++ " was not reserved before enrollment"))
  else
    Routes.WriteReceipt H Root (routeReceipt routeID listenEndpoint receipt);;
    boot ← currentBootID procRead;
    Routes.WriteIntent H Root
      (Routes.mkIntent Routes.KindDesiredState Routes.CurrentSchemaVersion routeID Routes.DesiredRunning restartPolicy boot "").

(** The receipt of the route after a rotation or a revocation. *)
Definition syncedReceipt (routeID : string) (receipt : enrollmentReceipt) (current : Routes.Receipt) : Routes.Receipt :=
  Routes.mkReceipt (firstNonEmptyString [e_InviteID receipt; Routes.r_InviteID current])
    (firstNonEmptyString [e_ClientID receipt; Routes.r_ClientID current])
    (Routes.r_GrantID current)
    routeID
    (firstNonEmptyString [e_AcceptedAt receipt; Routes.r_AcceptedAt current])
    (if negb (eqs (e_AuthorizationNotAfter receipt) "") then e_AuthorizationNotAfter receipt
     else Routes.r_AuthorizationNotAfter current)
    (if 0 <? e_AuthorizationDurationSeconds receipt then e_AuthorizationDurationSeconds receipt
     else Routes.r_AuthorizationDurationSeconds current)
    (firstNonEmptyString [e_Generation receipt; Routes.r_Generation current])
    (e_ManagementToken receipt)
    (if negb (ps_Generation (e_Published receipt) =? 0) then e_Published receipt else Routes.r_Published current)
    (firstNonEmptyString [e_PublicKey receipt; Routes.r_PublicKey current])
    (firstNonEmptyString [e_HostPublicKey receipt; Routes.r_HostPublicKey current])
    (firstNonEmptyString [e_EnrollmentTLSSPKISHA256 receipt; Routes.r_EnrollmentTLSSPKISHA256 current])
    (firstNonEmptyString [e_Target receipt; Routes.r_Target current])
    (Routes.r_ListenEndpoint current)
    (firstNonEmptyString [e_Principal receipt; Routes.r_Principal current])
    (firstNonEmptyString [e_ProfileID receipt; Routes.r_ProfileID current])
    (e_RevokedAt receipt).

Definition syncRouteReceipt (routeID : string) (receipt : enrollmentReceipt) : HM () :=
  exists_ ← Routes.Exists H Root routeID;
  if negb exists_ then mret ()
  else
    loaded ← htry (Routes.LoadReceipt H Root routeID);
    let current := match loaded with Ok r => r | Err _ => Routes.set_r_RouteID routeID Routes.zeroReceipt end in
    Routes.WriteReceipt H Root (syncedReceipt routeID receipt current).

(** ** Pending states *)

(** The decoder reads one value; what follows it is not looked at. *)
Definition decodeFirst {A} (fields : list (field A)) (zero : A) (raw : bytes) : result A :=
  '(v, _) ← parse raw; decode true fields v zero.
Definition loadPendingJSONState {A} (fields : list (field A)) (zero : A) (statePath : string) : HM (option A) :=
  r ← htry (ReadFile H statePath);
  match r with
  | Err e => if IsNotExist e then mret None else hfail e
  | Ok raw => a ← hlift (decodeFirst fields zero raw); mret (Some a)
  end.
Definition writePendingJSONState (statePath : string) (value : json) : HM () :=
  writeFileAtomic statePath (print value ++ [bz 10]).

Definition verifyPendingIdentityPublicKey (identityPath wantPublicKey mismatchMessage : string) : HM () :=
  publicKeyBytes ← ReadFile H (identityPath ++ ".pub");
  if negb (eqs (Strings.trim_space (to_string publicKeyBytes)) wantPublicKey) then hfail (EMsg mismatchMessage)
  else mret ().

(** The error of a command carries its output. *)
Definition createPendingClientIdentity (keygen directory identityPath comment failurePrefix : string) : HM string :=
  RemoveTree H directory;;
  Mkdir H directory;;
  r ← htry (runCommand exec [keygen; "-t"; "mldsa44-ed25519"; "-f"; identityPath; "-N"; ""; "-C"; comment]%string);
  match r with
  | Err e => hfail (EMsg (failurePrefix ++ ": " ++ errText e))
  | Ok _ =>
      publicKeyBytes ← ReadFile H (identityPath ++ ".pub");
      let publicKey := Strings.trim_space (to_string publicKeyBytes) in
      if eqs publicKey "" || existsb (λ c, (zb c =? 13) || (zb c =? 10)) (to_bytes publicKey)
      then hfail (EMsg "client public key must be one line") else mret publicKey
  end.

Definition enrollmentDirectory (inviteID : string) : string :=
  Filepath.Join (Filepath.Join enrollmentReceiptDir "pending-enrollment") inviteID.
Definition rotationDirectory (tunnelID : string) : string :=
  Filepath.Join (Filepath.Join enrollmentReceiptDir "pending-rotation") tunnelID.
Definition enrollmentState (inviteID : string) : string := Filepath.Join (enrollmentDirectory inviteID) "enrollment.json".
Definition rotationState (tunnelID : string) : string := Filepath.Join (rotationDirectory tunnelID) "rotation.json".

(** [time.Now().UTC().Format("20060102T150405.000000000Z")]. *)
Definition generationStamp (now : Time) : string :=
  let f := fields_of now in
  to_string (fixed 4 (year f) ++ fixed 2 (month f) ++ fixed 2 (day f) ++ to_bytes "T" ++ fixed 2 (hour f) ++ fixed 2 (minute f)
             ++ fixed 2 (second f) ++ to_bytes "." ++ fixed 9 (nanosecond f) ++ to_bytes "Z").

Definition loadOrCreatePendingEnrollment (keygen : string) (invite : Invite.Invite) (tunnelID : string)
    : HM (pendingEnrollment * string * string) :=
  MkdirAll H (Filepath.Join enrollmentReceiptDir "pending-enrollment");;
  let inviteID := Invite.InviteID invite in
  if negb (Clients.isHexID inviteID) then hfail (EMsg "invite_id is invalid")
  else
    let directory := enrollmentDirectory inviteID in
    let statePath := enrollmentState inviteID in
    let identityPath := Filepath.Join directory "client" in
    r ← htry (loadPendingJSONState pendingEnrollmentFields zero_pendingEnrollment statePath);
    match r with
    | Err e => hfail (EMsg ("parse pending enrollment: " ++ errText e))
    | Ok (Some pending) =>
        if negb (eqs (pe_InviteID pending) inviteID) || negb (eqs (pe_TunnelID pending) tunnelID)
           || negb (is_ok (Clients.ValidateManagementToken (pe_ManagementToken pending)))
        then hfail (EMsg "pending enrollment does not match the invite")
        else
          verifyPendingIdentityPublicKey identityPath (pe_PublicKey pending) "pending enrollment public key changed";;
          mret (pending, directory, identityPath)
    | Ok None =>
        publicKey ← createPendingClientIdentity keygen directory identityPath ("warptweet-client-" ++ tunnelID)
                      "generate client key";
        token ← Clients.GenerateManagementToken H rnd;
        t ← now H;
        let pending := mkPendingEnrollment inviteID tunnelID (generationStamp t) publicKey token in
        writePendingJSONState statePath (pendingEnrollmentJSON pending);;
        mret (pending, directory, identityPath)
    end.

Definition loadOrCreatePendingRotation (keygen : string) (receipt : enrollmentReceipt) (tunnelID : string)
    : HM (pendingRotation * string * string) :=
  MkdirAll H (Filepath.Join enrollmentReceiptDir "pending-rotation");;
  let directory := rotationDirectory tunnelID in
  let statePath := rotationState tunnelID in
  let identityPath := Filepath.Join directory "client" in
  r ← htry (loadPendingJSONState pendingRotationFields zero_pendingRotation statePath);
  match r with
  | Err e => hfail (EMsg ("parse pending rotation: " ++ errText e))
  | Ok (Some pending) =>
      if negb (eqs (pr_ClientID pending) (e_ClientID receipt)) || negb (eqs (pr_TunnelID pending) tunnelID)
         || (negb (eqs (pr_CurrentManagementToken pending) (e_ManagementToken receipt))
             && negb (eqs (pr_NextManagementToken pending) (e_ManagementToken receipt)))
         || negb (is_ok (Clients.ValidateManagementToken (pr_CurrentManagementToken pending)))
         || negb (is_ok (Clients.ValidateManagementToken (pr_NextManagementToken pending)))
      then hfail (EMsg "pending rotation does not match the enrollment receipt")
      else
        verifyPendingIdentityPublicKey identityPath (pr_PublicKey pending) "pending rotation public key changed";;
        mret (pending, directory, identityPath)
  | Ok None =>
      publicKey ← createPendingClientIdentity keygen directory identityPath ("warptweet-client-" ++ tunnelID)
                    "generate rotated client key";
      nextToken ← Clients.GenerateManagementToken H rnd;
      t ← now H;
      let pending := mkPendingRotation (e_ClientID receipt) tunnelID (generationStamp t) publicKey
                       (e_ManagementToken receipt) nextToken in
      writePendingJSONState statePath (pendingRotationJSON pending);;
      mret (pending, directory, identityPath)
  end.

(** ** The tunnel of a route *)

Definition readTunnel := readState H procRead probe.
Definition writeTunnel := writeState H procRead.
Definition project := projectManagedTunnel H exec.

Definition persistCleanupRequired {A} (tunnelID generation operation : string) (cleanupErr : error) : HM A :=
  let message := ("host " ++ operation ++ " completed; tunnel cleanup still required: " ++ errText cleanupErr)%string in
  htry (writeTunnel (stateOf tunnelID Lifecycle.PhaseCleanupRequired 0 "" message generation));;
  hfail (EMsg message).

Definition managementLocalPort (tunnelID : string) : HM Z :=
  state ← readTunnel tunnelID;
  let endpoint := Lifecycle.ListenEndpoint state in
  if eqs endpoint ""
  then hfail (EMsg ("route " ++ tunnelID ++ " has no listen endpoint; start the tunnel before rotate or revoke"))
  else match SplitHostPort endpoint with
  | Err e => hfail (EMsg ("route " ++ tunnelID ++ " listen endpoint " ++ endpoint ++ " is invalid: " ++ errText e))
  | Ok (_, portText) =>
      match Strings.parse_uint portText 16 with
      | Ok port =>
          if (port =? 0) || (port =? 65535)
          then hfail (EMsg ("route " ++ tunnelID ++ " listen port " ++ portText ++ " cannot host a management forward"))
          else mret (port + 1)
      | Err _ => hfail (EMsg ("route " ++ tunnelID ++ " listen port " ++ portText ++ " cannot host a management forward"))
      end
  end.

Definition processAlivePID (pid : Z) : HM bool :=
  if pid <=? 0 then mret false else n ← call; mret (negb (bool_decide (is_Some (probe n pid)))).
Definition managedTunnelRunning (state : Lifecycle.State) : HM bool :=
  if Lifecycle.PID state <=? 0 then mret false
  else
    alive ← processAlivePID (Lifecycle.PID state);
    mret (alive && bool_decide (Lifecycle.s_Phase state ∈
      [Lifecycle.PhaseStarting; Lifecycle.PhaseAwaitingReadiness; Lifecycle.PhaseReady; Lifecycle.PhaseBackoff])).

Definition stopTunnelProcess (tunnelID : string) : HM () := readTunnel tunnelID;; project tunnelID false.

(** ** enroll *)

Definition endpointText (address : string) (port : Z) : string := address ++ ":" ++ Strings.itoa port.

(** What is staged for the new generation: its manifest and its trust. *)
Definition stageGeneration (stageRoot : string) (manifest : Config.Config) (tunnelID hostPublicKey : string) : HM () :=
  WriteFile (Filepath.Join stageRoot "client.wt") (print (Config.configJSON manifest) ++ [bz 10]);;
  let hostPin := match KnownHosts.RenderManagedHost tunnelID (to_bytes hostPublicKey ++ [bz 10]) with
                 | Ok line => line
                 | Err _ => to_bytes ("warptweet-" ++ tunnelID ++ " " ++ hostPublicKey) ++ [bz 10]
                 end in
  WriteFile (Filepath.Join stageRoot "known_hosts") hostPin;;
  WriteFile (Filepath.Join stageRoot "known_hosts.empty") [].

(** The host's proof: from a file, or from its enrollment endpoint. *)
Definition obtainProof (prepareOnly : bool) (offlineProof : option bytes) (invite : Invite.Invite)
    (request : Accept.EnrollmentRequest) : HM Accept.EnrollmentProof :=
  match offlineProof with
  | Some raw =>
      match unmarshal Submit.proofFields Submit.zeroProof raw with
      | Err e => hfail (EMsg ("parse enrollment proof: " ++ errText e))
      | Ok proof =>
          hlift (InviteClient.ValidateEnrollmentProof proof invite (Accept.q_PublicKey request));; mret proof
      end
  | None =>
      if prepareOnly then mret Submit.zeroProof
      else
        r ← htry (Submit.SubmitEnrollment H X invite request);
        match r with
        | Err e => hfail (EMsg ("enrollment endpoint: " ++ errText e ++ " (or pass --proof <server-proof.json>)"))
        | Ok proof => mret proof
        end
  end.

Definition enrolledReceipt (invite : Invite.Invite) (tunnelID generationID publicKey managementToken target : string)
    (proof : Accept.EnrollmentProof) (verifiedSet : PublishedEndpointSet) : enrollmentReceipt :=
  mkEnrollmentReceipt (Invite.InviteID invite) (Accept.p_ClientID proof) tunnelID (Accept.p_AcceptedAt proof)
    (Accept.p_AuthorizationNotAfter proof) (Accept.p_AuthorizationDurationSeconds proof) generationID managementToken
    verifiedSet publicKey (Invite.HostPublicKey invite) (Submit.EnrollmentTLSSPKISHA256 invite) target
    (Invite.Principal invite) (Invite.ProfileID invite) "".

(** From the host's proof on: the generation, the receipts, the route. *)
Definition finishEnroll (invite : Invite.Invite) (tunnelID : string) (listenPort : Z) (restartPolicy : string)
    (pending : pendingEnrollment) (stageRoot identityPath : string) (proof : Accept.EnrollmentProof) : HM output :=
  let generationID := pe_Generation pending in
  let listenEndpoint := endpointText "127.0.0.1" listenPort in
  let serviceEndpoint := endpointText (Invite.TargetAddress invite) (Invite.TargetPort invite) in
  verifiedSet ← hlift (Invite.PublishedSet invite);
  if negb (EqualSet (Accept.p_Published proof) verifiedSet)
  then hfail (wrapErr Clients.ErrInvalidInvite "enrollment proof published set does not match invite")
  else
    persistActivatedGeneration tunnelID generationID identityPath (Filepath.Join stageRoot "client.wt")
      (Filepath.Join stageRoot "known_hosts") (Filepath.Join stageRoot "known_hosts.empty");;
    let receipt := enrolledReceipt invite tunnelID generationID (pe_PublicKey pending) (pe_ManagementToken pending)
                     serviceEndpoint proof verifiedSet in
    writeEnrollmentReceipt receipt;;
    r ← htry (persistRouteEnrollment tunnelID listenEndpoint receipt restartPolicy);
    match r with
    | Err e =>
        htry (Routes.WriteTransaction H Root
          (Routes.mkTransaction "" 0 tunnelID Routes.PhaseFailed listenPort generationID (Invite.InviteID invite) (errText e) ""));;
        hfail e
    | Ok _ =>
        persistEnrolledRoute H tunnelID listenPort (Invite.InviteID invite) generationID;;
        r ← htry (RemoveTree H stageRoot);
        match r with
        | Err e => hfail (EMsg ("remove completed pending enrollment: " ++ errText e))
        | Ok _ =>
            htry (writeTunnel (stateOf tunnelID Lifecycle.PhaseStopped 0 listenEndpoint "" generationID));;
            writeJSON H [("status", JStr "enrolled"); ("tunnel_id", JStr tunnelID); ("route_id", JStr tunnelID);
                         ("client_id", JStr (Accept.p_ClientID proof)); ("listen_endpoint", JStr listenEndpoint);
                         ("service_endpoint", JStr serviceEndpoint); ("generation", JStr generationID);
                         ("authorization_not_after", JStr (Accept.p_AuthorizationNotAfter proof));
                         ("authorization_duration_seconds", JInt (Accept.p_AuthorizationDurationSeconds proof));
                         ("desired_state", JStr Routes.DesiredRunning); ("restart_policy", JStr restartPolicy);
                         ("target_health", JStr Lifecycle.TargetHealthNotChecked);
                         ("next", JStr ("warptweet up " ++ tunnelID))]%string
        end
    end.

(** The command from the pending state on. *)
Definition enrollWith (prepareOnly : bool) (offlineProof : option bytes) (invite : Invite.Invite)
    (tunnelID : string) (listenPort : Z) (restartPolicy : string) : HM output :=
  keygen ← keygenPath;
  '(pending, stageRoot, identityPath) ← loadOrCreatePendingEnrollment keygen invite tunnelID;
  (if prepareOnly then mret ()
   else persistReservedRoute H tunnelID listenPort (Invite.InviteID invite) (pe_Generation pending));;
  let request := Accept.mkRequest (Invite.InviteID invite) (Invite.Nonce invite) (Invite.ClientName invite) (pe_PublicKey pending)
                   (Invite.ProfileID invite) tunnelID "127.0.0.1" listenPort (pe_ManagementToken pending) in
  WriteFile (Filepath.Join stageRoot "enrollment-request.json") (Submit.EncodeEnrollmentRequest request ++ [bz 10]);;
  proof ← obtainProof prepareOnly offlineProof invite request;
  r ← htry (fileSHA256 SSHPath);
  r ← (match r with Ok digest => mret (Ok digest) | Err _ => htry (fileSHA256 SSHPath) end);
  match r with
  | Err e => hfail (EMsg ("hash ssh engine: " ++ errText e))
  | Ok sshDigest =>
      manifest ← hlift (Config.BuildClientManifest invite tunnelID listenPort sshDigest);
      stageGeneration stageRoot manifest tunnelID (Invite.HostPublicKey invite);;
      if prepareOnly then
        writeJSON H [("status", JStr "prepared"); ("tunnel_id", JStr tunnelID);
                     ("listen_endpoint", JStr (endpointText "127.0.0.1" listenPort));
                     ("service_endpoint", JStr (endpointText (Invite.TargetAddress invite) (Invite.TargetPort invite)));
                     ("enrollment_request_path", JStr (Filepath.Join stageRoot "enrollment-request.json"));
                     ("stage_directory", JStr stageRoot); ("identity_public_key", JStr (pe_PublicKey pending));
                     ("profile_id", JStr Profile.CurrentID); ("target_health", JStr Lifecycle.TargetHealthNotChecked)]%string
      else if eqs (Accept.p_AuthorizationNotAfter proof) "" || (Accept.p_AuthorizationDurationSeconds proof <=? 0)
      then hfail (EMsg "enrollment proof missing host authorization expiry")
      else match Grant.ParseUTC (Accept.p_AuthorizationNotAfter proof) with
      | Err e => hfail (EMsg ("enrollment proof authorization_not_after: " ++ errText e))
      | Ok _ => finishEnroll invite tunnelID listenPort restartPolicy pending stageRoot identityPath proof
      end
  end.

Definition enrollPort (text : string) (default_ : Z) : result Z :=
  if eqs text "" then Ok default_
  else match Strings.parse_uint text 16 with
       | Ok port => if port =? 0 then Err (EMsg "listen-port must be a nonzero TCP port") else Ok port
       | Err _ => Err (EMsg "listen-port must be a nonzero TCP port")
       end.

Definition runEnroll (arguments : enrollArguments) : HM output :=
  raw ← readInviteInput (a_invite arguments);
  t ← now H;
  '(invite, view) ← InviteClient.ParseClientInvite H raw t;
  listenPort ← hlift (enrollPort (a_listenPort arguments) (InviteClient.v_ListenPort view));
  restartPolicy ← hlift (Routes.ParseRestartPolicy (a_restart arguments));
  if negb (a_yes arguments) && negb (eqs (Strings.trim_space (a_typed arguments)) "ENROLL")
  then hfail (EMsg "enrollment aborted")
  else
    offlineProof ← (if eqs (a_proofPath arguments) "" then mret None
                    else proof ← ReadFile H (a_proofPath arguments); mret (Some proof));
    unlessHandled H P "enroll" ""
      (enrollWith (a_prepareOnly arguments) offlineProof invite (InviteClient.v_TunnelID view) listenPort restartPolicy).

(** ** rotate *)

(** The request, tried again once unless the command was interrupted. *)
Definition submitRotate (mgmtPort : Z) (request : Clients.ManagementRequest) : HM Accept.EnrollmentProof :=
  r ← htry (Submit.SubmitRotate H X "127.0.0.1" mgmtPort "" request);
  match r with
  | Ok proof => mret proof
  | Err first =>
      n ← call;
      if cancelled n then hfail (EMsg ("host rotate: " ++ errText first))
      else
        r ← htry (Submit.SubmitRotate H X "127.0.0.1" mgmtPort "" request);
        match r with
        | Ok proof => mret proof
        | Err e => hfail (EMsg ("host rotate: " ++ errText e ++ " (first attempt: " ++ errText first ++ ")"))
        end
  end.

(** The tunnel is restarted with its new key when it runs, stopped otherwise. *)
Definition restartRotated (tunnelID generationID clientID : string) : HM (list (string * json)) :=
  let members := [("status", JStr "rotated"); ("tunnel_id", JStr tunnelID); ("client_id", JStr clientID);
                  ("generation", JStr generationID); ("target_health", JStr Lifecycle.TargetHealthNotChecked)]%string in
  read ← htry (readTunnel tunnelID);
  let state := match read with Ok s => s | Err _ => Lifecycle.zeroState end in
  running ← managedTunnelRunning state;
  restarted ← (if (running : bool) then
                 writeTunnel (Lifecycle.set_s_Generation generationID state);;
                 stopped ← htry (project tunnelID false);
                 match stopped with
                 | Err _ => mret false
                 | Ok _ => started ← htry (project tunnelID true); mret (is_ok started)
                 end
               else mret false);
  if (restarted : bool) then mret (members ++ [("running"%string, JBool true)])
  else
    stopTunnelProcess tunnelID;;
    htry (writeTunnel (stateOf tunnelID Lifecycle.PhaseStopped 0 "" "" generationID));;
    mret (members ++ [("next"%string, JStr ("warptweet up " ++ tunnelID))]).

(** What follows the host's answer; every failure leaves the tunnel in need of
    cleanup. *)
Definition finishRotate (tunnelID : string) (receipt : enrollmentReceipt) (pending : pendingRotation)
    (stageRoot identityPath : string) (proof : Accept.EnrollmentProof) : HM (list (string * json)) :=
  let generationID := pr_Generation pending in
  let receipt := set_e_AcceptedAt (Accept.p_AcceptedAt proof)
                   (set_e_PublicKey (pr_PublicKey pending)
                      (set_e_ManagementToken (pr_NextManagementToken pending) receipt)) in
  writeEnrollmentReceipt receipt;;
  htry (syncRouteReceipt tunnelID receipt);;
  '(stagedManifest, stagedKnownHosts, emptyTrust) ← stageActiveGenerationPolicy tunnelID stageRoot;
  persistActivatedGeneration tunnelID generationID identityPath stagedManifest stagedKnownHosts emptyTrust;;
  activateGeneration ClientManifestPath ClientIdentityPath ClientKnownHostsPath ClientGlobalKnownHostsPath identityPath
    (Filepath.Join stageRoot "client.wt") (Filepath.Join stageRoot "known_hosts") emptyTrust;;
  let receipt := set_e_Generation generationID receipt in
  writeEnrollmentReceipt receipt;;
  htry (syncRouteReceipt tunnelID receipt);;
  r ← htry (RemoveTree H stageRoot);
  match r with
  | Err e => hfail (EMsg ("remove completed pending rotation: " ++ errText e))
  | Ok _ => restartRotated tunnelID generationID (e_ClientID receipt)
  end.

Definition withCleanup {A} (tunnelID generation operation : string) (body : HM A) : HM A :=
  r ← htry body;
  match r with Ok a => mret a | Err e => persistCleanupRequired tunnelID generation operation e end.

(** From the pending rotation on. *)
Definition rotateWith (tunnelID : string) (receipt : enrollmentReceipt) (pending : pendingRotation)
    (stageRoot identityPath : string) : HM output :=
  if eqs (e_EnrollmentTLSSPKISHA256 receipt) ""
  then hfail (EMsg "enrollment receipt missing TLS SPKI pin; re-enroll before rotate")
  else
    mgmtPort ← managementLocalPort tunnelID;
    proof ← submitRotate mgmtPort
      (Clients.mkManagementRequest (e_ClientID receipt) (pr_CurrentManagementToken pending) tunnelID
         (pr_PublicKey pending) (pr_NextManagementToken pending));
    result ← withCleanup tunnelID (pr_Generation pending) "rotate"
      (finishRotate tunnelID receipt pending stageRoot identityPath proof);
    writeJSON H result.

Definition runRotate (tunnelID : string) : HM output :=
  unlessHandled H P "rotate" tunnelID
    (Lifecycle.AdminLock H ClientRuntimeRoot tunnelID
       (receipt ← loadEnrollmentReceipt tunnelID;
        if eqs (e_ManagementToken receipt) "" || eqs (e_ClientID receipt) ""
        then hfail (EMsg "enrollment receipt missing management token; re-enroll before rotate")
        else
          keygen ← keygenPath;
          '(pending, stageRoot, identityPath) ← loadOrCreatePendingRotation keygen receipt tunnelID;
          rotateWith tunnelID receipt pending stageRoot identityPath)).

(** ** revoke *)

Definition finishRevoke (tunnelID : string) (receipt : enrollmentReceipt) : HM (list (string * json)) :=
  t ← now H;
  let receipt := set_e_RevokedAt (Clients.formatTime t) (set_e_ManagementToken "" receipt) in
  writeEnrollmentReceipt receipt;;
  htry (syncRouteReceipt tunnelID receipt);;
  stopTunnelProcess tunnelID;;
  htry (writeTunnel (stateOf tunnelID Lifecycle.PhaseStopped 0 "" "" (e_Generation receipt)));;
  mret [("status", JStr "revoked"); ("tunnel_id", JStr tunnelID); ("client_id", JStr (e_ClientID receipt));
        ("host", JStr "acknowledged"); ("identity", JStr "preserved_local");
        ("target_health", JStr Lifecycle.TargetHealthNotChecked)]%string.

Definition runRevokeTunnel (tunnelID : string) : HM output :=
  unlessHandled H P "revoke" tunnelID
    (Lifecycle.AdminLock H ClientRuntimeRoot tunnelID
       (receipt ← loadEnrollmentReceipt tunnelID;
        if eqs (e_ManagementToken receipt) "" || eqs (e_ClientID receipt) ""
        then hfail (EMsg "enrollment receipt missing management token; use server revoke on the host")
        else if eqs (e_EnrollmentTLSSPKISHA256 receipt) ""
        then hfail (EMsg "enrollment receipt missing TLS SPKI pin; use server revoke on the host")
        else
          mgmtPort ← managementLocalPort tunnelID;
          r ← htry (Submit.SubmitRevoke H X "127.0.0.1" mgmtPort ""
                      (Clients.mkManagementRequest (e_ClientID receipt) (e_ManagementToken receipt) tunnelID "" ""));
          match r with
          | Err e => hfail (EMsg ("host revoke: " ++ errText e))
          | Ok _ =>
              result ← withCleanup tunnelID (e_Generation receipt) "revoke" (finishRevoke tunnelID receipt);
              writeJSON H result
          end)).

End commands.

End ClientEnroll.
