(* ===== verification/SubmitProps.v ===== *)
(** * Who answers an enrollment, and how long the host's pin lasts

    An enrollment is answered by the owner of the pinned key over TLS 1.3, at
    an address that the filter lets through, and its answer binds the invite;
    and the pin of a host never changes once its key is on disk. *)

From S2P Require Import Prelude GoStd Json StrictJson Time Host Locator Grant GrantProps SshWire Crypto Packet Kex ClientStore.
From S2P Require Import Clients Server Invite Accept InviteClient Resolve AuthorizedKeys Listen ClientCodec ClientProps GrantSession.
From S2P Require Import SessionProps Frame Submit.
Import Time Json Netip Locator ClientStore.
Import Accept Submit.

Section pinned.
Context {CR : Crypto} (H : hostEnv) (X : network).

(** What the client checks of the peer before it sends anything. *)
Definition pinned_peer (pin : string) (t : Time) (state : ConnectionState) : Prop :=
  Version state = VersionTLS13 ∧ NegotiatedProtocol state = EnrollmentALPN ∧
  ∃ certificate der, PeerCertificates state = [certificate] ∧ isEd25519 certificate = true ∧
    CheckSignature certificate = None ∧ NotBefore certificate ≤ t ≤ NotAfter certificate ∧
    SPKI certificate = Ok der ∧ Hex.encode (sha256 der) = pin.

Lemma VerifyConnection_exact pin t state : VerifyConnection pin t state = None ↔ pinned_peer pin t state.
Proof.
  unfold VerifyConnection, pinned_peer, eqs. destruct (Z.eqb_spec (Version state) VersionTLS13) as [Hv|Hv]; cbn [negb]; [|by split; [|tauto]].
  case_bool_decide as Hp; cbn [negb]; [|by split; [|tauto]].
  destruct (PeerCertificates state) as [|c [|c' l]]; [split; [done|]; by intros (_ & _ & ? & ? & ? & _)| |split; [done|]; by intros (_ & _ & ? & ? & ? & _)].
  destruct (isEd25519 c) eqn:He; cbn [negb]; [|split; [done|]; intros (_ & _ & c' & d & [= <-] & ? & _); congruence].
  destruct (CheckSignature c) as [e|] eqn:Hs; [split; [done|]; intros (_ & _ & c' & d & [= <-] & _ & ? & _); congruence|].
  destruct (_ || _) eqn:Ht.
  { split; [done|]. intros (_ & _ & c' & d & [= <-] & _ & _ & ? & _). zbool. lia. }
  apply orb_false_iff in Ht as [Ht1%Z.ltb_ge Ht2%Z.ltb_ge].
  destruct (SPKI c) as [der|e] eqn:Hd; cbn [SPKISHA256]; [|split; [done|]; intros (_ & _ & c' & d & [= <-] & _ & _ & _ & ? & _); congruence].
  case_bool_decide as Hpin; cbn [negb].
  - split; [intros _|done]. split_and!; [done..|]. by exists c, der.
  - split; [done|]. intros (_ & _ & c' & d & [= <-] & _ & _ & _ & Hd' & ?). rewrite Hd in Hd'. injection Hd' as ->. done.
Qed.

(** The answer to a request that is sent over TLS. *)
Lemma post_pinned url body pin selected port w payload w' :
  Strings.has_prefix url "http://" = false →
  postJSONTo H X url body pin selected port w = (Ok payload, w') →
  files w' = files w ∧ ∃ n t state response,
    x_exchange X n url body (if IsValid selected && negb (port =? 0) then Some (selected, port) else None) = inr (state, response) ∧
    pinned_peer pin t state ∧ StatusCode response = StatusOK ∧ Body response = Ok payload ∧
    blen payload ≤ Clients.MaxEnrollmentRequestBytes.
Proof.
  intros Hurl. unfold postJSONTo. rewrite Hurl. cbn [negb andb]. set (endpoint := if IsValid selected && negb (port =? 0) then Some (selected, port) else None).
  destruct (negb (Clients.isLowerHexDigest pin)); [done|]. rewrite ret_then.
  intros (answer & w1 & Hdo & Hrest)%run_bind. unfold clientDo in Hdo. rewrite call_then, Hurl in Hdo.
  destruct (x_exchange X (calls w) url body endpoint) as [e|[state response]] eqn:Hx.
  { injection Hdo as <- <-. done. }
  rewrite now_is in Hdo. destruct (VerifyConnection _ _ state) as [c|] eqn:Hv; injection Hdo as <- <-; [done|].
  destruct (Body response) as [p|e] eqn:Hb; [|done]. destruct (Z.ltb_spec Clients.MaxEnrollmentRequestBytes (blen p)); [done|].
  destruct (Z.eqb_spec (StatusCode response) StatusOK); [|done]. injection Hrest as <- <-. split; [done|].
  apply VerifyConnection_exact in Hv. by eexists _, _, state, response.
Qed.

(** The addresses of a plan passed the filter. *)
Lemma resolved_valid lookup host allowLoopback plan a :
  Resolve.Resolve lookup host allowLoopback = inl plan → a ∈ Resolve.Candidates plan → Resolve.validateAnswer a allowLoopback = Ok ().
Proof.
  unfold Resolve.Resolve. destruct (Canonical host) as [canonical|e]; [|done]. destruct (IsValid (IP host)).
  - destruct (Resolve.validateAnswer (canonicalAddr (IP host)) allowLoopback) as [[]|e] eqn:Hv; [|done].
    intros [= <-]. cbn [Resolve.Candidates]. by intros ->%list_elem_of_singleton.
  - destruct (lookup _) as [raw|e]; [|done]. case_bool_decide; [done|]. intros [= <-]. cbn [Resolve.Candidates].
    intros Ha. by apply Resolve.FilterAnswers_usable in Ha as [Ha _].
Qed.

Lemma selected_candidate Y plan port a :
  (Resolve.Select Y plan port).2 = inl a → a ∈ Resolve.Candidates plan ∧ port ≠ 0.
Proof.
  unfold Resolve.Select. destruct (Z.eqb_spec port 0); [done|]. case_bool_decide; [done|]. intros Ha. split; [|done].
  pose proof (Resolve.selectFrom_spec Y port (Resolve.x_start Y + Resolve.connectAggregateLimit) (Resolve.Candidates plan) 0 None) as Hs.
  destruct (Resolve.selectFrom _ _ _ _ _ _) as [trace r]. cbn in Ha. subst r. destruct Hs as (Hp & _ & _ & t & Ht & <-).
  apply last_Some_elem_of in Ht. apply (list_elem_of_fmap_2 Resolve.at_addr) in Ht. destruct Hp as [k ->]. apply elem_of_app. by left.
Qed.

Lemma valid_answer a b : Resolve.validateAnswer a b = Ok () → IsValid a = true.
Proof. unfold Resolve.validateAnswer. by destruct (IsValid a). Qed.

Lemma EnrollmentURL_tls address port url : EnrollmentURL address port = Ok url → Strings.has_prefix url "http://" = false.
Proof. unfold EnrollmentURL. intros (addr & _ & [= <-])%bind_Ok. reflexivity. Qed.


End pinned.

(** ** The pin of a host *)

Lemma run_deferred {A} cleanup (m : HM A) w r w' :
  deferred cleanup m w = (r, w') → ∃ w1, m w = (r, w1) ∧ w' = (cleanup w1).2.
Proof. unfold deferred. destruct (m w) as [r1 w1]. intros [= <- <-]. eauto. Qed.

Abbreviation certPath := ServerEnrollmentTLSCertPath.
Abbreviation keyPath := ServerEnrollmentTLSKeyPath.

(** What the standard library promises: what it encodes it reads back. *)
Record pki_laws {Key} (K : pki Key) : Prop := mk_pki_laws {
  pem_inverse type_ block : pemDecode K (pemEncode K type_ block) = Some (type_, block, []);
  key_inverse key block : MarshalPKCS8PrivateKey K key = Ok block → ParsePKCS8PrivateKey K block = Ok (Some key);
}.

Section identity.
Context {CR : Crypto} {Key : Type} (K : pki Key) (L : pki_laws K) (H : hostEnv).

Lemma keyPath_not_temp path n : path = certPath ∨ path = keyPath → keyPath ≠ tempName H path ".wt-invite-" n.
Proof using. intros [-> | ->] E; vm_compute in E; discriminate. Qed.

(** The files under the key path stay. *)
Definition keeps_key : relation (gmap string bytes) := λ fs fs', fs' !! keyPath = fs !! keyPath.
#[local] Instance keeps_key_preorder : PreOrder keeps_key.
Proof using. split; [done|]. intros a b c Hab Hbc. unfold keeps_key in *. congruence. Qed.

Lemma decode_written key encoded :
  MarshalPKCS8PrivateKey K key = Ok encoded → decodeKey K (pemEncode K "PRIVATE KEY" encoded) = Ok key.
Proof using L.
  intros Hm. unfold decodeKey. rewrite (pem_inverse _ L). cbn. by rewrite (key_inverse _ L _ _ Hm).
Qed.

Lemma moves_certificate key t : moves keeps_key (writeEnrollmentCertificate K H certPath key t).
Proof using.
  unfold writeEnrollmentCertificate. frame. eapply within_moves.
  - apply (within_replaceFile H (λ p, p ≠ keyPath)); [done|intros n E; symmetry in E; by apply (keyPath_not_temp certPath n) in E; auto|frame].
  - intros fs fs' Ho. apply Ho. auto.
Qed.
Lemma moves_renewal pin t : moves keeps_key (needsRenewal K H certPath keyPath pin t).
Proof using. unfold needsRenewal, loadEnrollmentLeaf. frame. Qed.

(** The key that is used is the one on disk. *)
Lemma key_on_disk w key created w' :
  loadOrCreateEnrollmentKey K H keyPath w = (Ok (key, created), w') →
  (∃ raw, files w' !! keyPath = Some raw ∧ decodeKey K raw = Ok key) ∧
  (created = false → files w' !! keyPath = files w !! keyPath) ∧
  (honest H → is_Some (files w !! keyPath) → created = false).
Proof using L.
  unfold loadOrCreateEnrollmentKey. intros (r & w1 & Hr & Hrest)%run_bind. unfold htry in Hr.
  destruct (ReadFile H keyPath w) as [read w1'] eqn:Hread. injection Hr as <- <-.
  pose proof (λ Hh, ReadFile_honest H keyPath (files w) Hh w eq_refl) as Hhonest.
  pose proof (htriple_ReadFile H (λ fs, fs = files w) keyPath
    (λ r fs, fs = files w ∧ match r with Ok c => files w !! keyPath = Some c | Err _ => True end)
    ltac:(done) ltac:(by intros c fs ->) w eq_refl) as [Hsame Hraw].
  rewrite Hread in Hsame, Hraw, Hhonest. cbn [fst snd] in *. destruct read as [raw|e].
  - apply run_checked in Hrest as (key' & Hdec & [= <- <- <-]). rewrite Hsame. eauto.
  - destruct (IsNotExist e) eqn:Hne; [|done]. cbn [negb] in Hrest.
    apply run_bind in Hrest as ([] & w2 & Hsys & Hrest). rewrite call_then in Hrest.
    destruct (GenerateKey K (calls w2)) as [key'|e'] eqn:Hg; [|done].
    apply run_checked in Hrest as (encoded & Henc & Hrest). apply run_bind in Hrest as ([] & w3 & Hw & [= <- <- <-]).
    split_and!; [|done|].
    + exists (pemEncode K "PRIVATE KEY" encoded). split; [|by apply decode_written].
      unfold Clients.writeFileAtomic in Hw. set (w2' := mkWorld _ _) in Hw.
      assert (∀ fs, htriple (λ fs', fs' = fs) (sys H;; deferred (sys H) (sys H)) (λ _ fs', fs' = fs)) as Hsync
        by (intros fs; apply bind_keeps; [apply sys_keeps|intros _; apply deferred_keeps; apply sys_keeps]).
      pose proof (replaceFile_replaced H keyPath ".wt-invite-" (pemEncode K "PRIVATE KEY" encoded) (files w2')
        ltac:(intros n _; apply keyPath_not_temp; auto) false _ Hsync w2' eq_refl) as (_ & Hok & _).
      rewrite Hw in Hok. by apply Hok.
    + intros Hh Hs. destruct (Hhonest Hh) as [_ Hnone]. rewrite (Hnone eq_refl) in Hs. by destruct Hs.
Qed.

Lemma ensured w t pin created renewed w' :
  EnsureTLSIdentity K H certPath keyPath t w = (Ok (pin, created, renewed), w') →
  (∃ raw key, files w' !! keyPath = Some raw ∧ decodeKey K raw = Ok key ∧ SPKISHA256 (MarshalPKIXPublicKey K key) = Ok pin) ∧
  (honest H → is_Some (files w !! keyPath) → created = false ∧ files w' !! keyPath = files w !! keyPath).
Proof using L.
  unfold EnsureTLSIdentity. change (eqs (Strings.trim_space certPath) "" || eqs (Strings.trim_space keyPath) "") with false. cbv iota.
  intros (now & w1 & Hnow & Hrun)%run_bind.
  assert (files w1 = files w) as Hf1.
  { unfold Clients.orNow in Hnow. destruct (IsZero t); by injection Hnow as <- <-. }
  unfold Clients.withLock in Hrun. apply run_bind in Hrun as ([] & w2 & Hsys & Hrun).
  apply run_bind in Hrun as ([] & w3 & Hopen & Hrun). apply run_bind in Hrun as (locked & w4 & Hlock & Hrun).
  assert (files w4 !! keyPath = files w !! keyPath) as Hf4.
  { rewrite <- Hf1. pose proof (moves_sys H keeps_key w1) as M1. rewrite Hsys in M1.
    pose proof (moves_OpenCreate H keeps_key (Filepath.Join (Filepath.Dir keyPath) (enrollmentTLSIdentityLockName keyPath certPath))
      ltac:(intros fs _; apply lookup_insert_ne; by vm_compute) w2) as M2. rewrite Hopen in M2.
    pose proof (moves_try keeps_key _ (moves_sys H keeps_key) w3) as M3. rewrite Hlock in M3.
    unfold keeps_key in *. cbn [snd] in *. congruence. }
  destruct locked as [[]|e]; [|apply run_bind in Hrun as (? & ? & _ & [=])].
  apply run_deferred in Hrun as (w5 & Hbody & ->).
  assert (files ((htry (sys H);; sys H) w5).2 !! keyPath = files w5 !! keyPath) as ->.
  { assert (moves keeps_key (htry (sys H);; sys H)) as Hm by frame. apply Hm. }
  unfold ensureTLSIdentityLocked in Hbody. apply run_bind in Hbody as ([key fresh] & w6 & Hkey & Hbody).
  apply key_on_disk in Hkey as ((raw & Hraw & Hdec) & Hold & Hhon). apply run_checked in Hbody as (pin' & Hpin & Hbody).
  apply run_bind in Hbody as (renew & w7 & Hrenew & Hbody).
  assert (files w7 !! keyPath = files w6 !! keyPath) as Hf7.
  { destruct fresh; [by injection Hrenew as <- <-|]. pose proof (moves_renewal pin' now w6) as M. by rewrite Hrenew in M. }
  assert (files w5 !! keyPath = files w6 !! keyPath ∧ pin = pin' ∧ (fresh = false → created = false)) as (Hf5 & -> & Hfresh).
  { destruct renew; cbn [negb] in Hbody; [|injection Hbody as <- <- <- <-; by split_and!].
    apply run_bind in Hbody as ([] & w8 & Hcert & [= <- <- <- <-]).
    pose proof (moves_certificate key now w7) as M. rewrite Hcert in M. unfold keeps_key in M. cbn [snd] in M. split_and!; [congruence|done|done]. }
  split; [exists raw, key; split_and!; [congruence|done|done]|].
  intros Hh Hs. rewrite <- Hf4 in Hs. pose proof (Hhon Hh Hs) as ->. split; [by apply Hfresh|]. rewrite Hf5, Hold by done. exact Hf4.
Qed.

End identity.

(** C32: the pin that invites and receipts carry stays good: once a host has its
    TLS identity, every later start that succeeds, at any time and whatever was
    renewed, answers the same pin, creates no key and leaves the key file as it
    is, as long as the file is left alone and the operating system reports a
    missing file only for one that is missing. *)
Theorem tls_pin_stable {CR : Crypto} {Key} (K : pki Key) H H' w t pin created renewed w1 w2 t' pin' created' renewed' w3 :
  pki_laws K → honest H' →
  EnsureTLSIdentity K H certPath keyPath t w = (Ok (pin, created, renewed), w1) →
  files w2 !! keyPath = files w1 !! keyPath →
  EnsureTLSIdentity K H' certPath keyPath t' w2 = (Ok (pin', created', renewed'), w3) →
  pin' = pin ∧ created' = false ∧ files w3 !! keyPath = files w1 !! keyPath.
Proof.
  intros L Hh ((raw & key & Hraw & Hdec & Hpin) & _)%(ensured _ L) Hkeep Hrun.
  apply (ensured _ L) in Hrun as ((raw' & key' & Hraw' & Hdec' & Hpin') & Hsame).
  destruct (Hsame Hh) as [-> Hf]; [rewrite Hkeep, Hraw; eauto|]. split_and!; [|done|congruence].
  assert (raw' = raw) as -> by congruence. rewrite Hdec in Hdec'. injection Hdec' as <-. congruence.
Qed.
