(* ===== verification/ClientEnrollProps.v ===== *)
(** * What a client cannot lose

    The pending state of an enrollment or a rotation is on disk before the host
    is asked, and a rotation that the host has answered leaves its new token on
    disk whatever fails. *)

From S2P Require Import Prelude GoStd Json StrictJson Time Text Host Locator Grant GrantProps SshWire Crypto Packet.
From S2P Require Import Kex Listen ClientStore ClientCodec Server Clients ClientProps AuthorizedKeys GrantSession.
From S2P Require Import ServerProps SessionProps Reconcile Frame Layout Invite Accept InviteClient InviteProps Enroll.
From S2P Require Import EnrollProps Config Resolve Routes RouteProps RouteCodec Lifecycle LifecycleProps Tunnels TunnelProps.
From S2P Require Import TunnelSafety Submit ClientEnroll.
Import Time Locator.
Import Tunnels ClientEnroll.

(** ** Writes below a directory *)

Section below.
Context (H : hostEnv) (D : string → Prop).

Lemma within_atomic path contents :
  D path → (∀ n, D (tempName H path ".wt-server-" n)) → within D (ClientEnroll.writeFileAtomic H path contents).
Proof using.
  intros Hp Ht. unfold ClientEnroll.writeFileAtomic, AuthorizedKeys.writeFileAtomic. frame. apply within_replaceFile; [done..|frame].
Qed.
Lemma within_mkdirAll_at dir : D (dirMark dir) → within D (MkdirAll H dir).
Proof using. intros Hd. unfold MkdirAll. frame. apply moves_set. intros fs. by apply outside_insert. Qed.
Lemma within_copy source path :
  D path → (∀ n, D (tempName H path ".wt-server-" n)) → within D (copyFile H source path).
Proof using. intros Hp Ht. unfold copyFile. frame. by apply within_atomic. Qed.

(** Everything below [d] may be changed. *)
Definition covers (d : string) : Prop := ∀ p, below d p → D p.

Lemma covers_child d name : covers d → covers (d ++ "/" ++ name).
Proof using. intros Hd p [rest ->]. apply Hd. exists (name ++ "/" ++ rest)%string. by rewrite <- !append_assoc. Qed.
Lemma covers_mark d : covers d → D (dirMark d).
Proof using. intros Hd. apply Hd. exists ""%string. unfold dirMark. apply to_bytes_inj. by rewrite !Locator.to_bytes_append. Qed.
Lemma covers_file d name : clean_root d → covers d → plain_name name → D (Filepath.Join d name).
Proof using. intros Hc Hd Hn. rewrite Join_plain by done. apply Hd. by eexists. Qed.
Lemma covers_temp d name n : clean_root d → covers d → plain_name name → D (tempName H (Filepath.Join d name) ".wt-server-" n).
Proof using.
  intros Hc Hd Hn. unfold tempName. rewrite Join_plain, Dir_file by (done || apply Hn). apply Hd. by eexists.
Qed.
Lemma covers_copy source d name : clean_root d → covers d → plain_name name → within D (copyFile H source (Filepath.Join d name)).
Proof using. intros Hc Hd Hn. apply within_copy; [by apply covers_file|]. intros n. by apply covers_temp. Qed.
Lemma covers_WriteFile d name contents :
  clean_root d → covers d → plain_name name → within D (ClientEnroll.WriteFile H (Filepath.Join d name) contents).
Proof using.
  intros Hc Hd Hn. pose proof (covers_file d name Hc Hd Hn) as Hp. unfold ClientEnroll.WriteFile, Lifecycle.WriteFile. frame.
  - apply moves_set. intros fs. by apply outside_insert.
  - by apply within_Write.
Qed.

Lemma moves_chown R `{!PreOrder R} paths : moves R (chownPaths H paths).
Proof using. induction paths as [|p paths IH]; cbn [chownPaths]; frame; exact IH. Qed.
Lemma moves_own R `{!PreOrder R} superuser paths : moves R (ownClientStateFiles H superuser paths).
Proof using. unfold ownClientStateFiles. frame. by apply moves_chown. Qed.
Lemma within_directories chmod dirs : Forall (λ d, D (dirMark d)) dirs → within D (makeDirectories H chmod dirs).
Proof using.
  induction 1 as [|d dirs Hd _ IH]; cbn [makeDirectories]; [apply moves_ret; apply _|]. frame; by apply within_mkdirAll_at.
Qed.

(** A generation of four files and a public key in one directory. *)
Lemma within_generation superuser d si sm sk se :
  clean_root d → covers d →
  within D (activateGeneration H superuser (Filepath.Join d "client.wt") (Filepath.Join d "identity") (Filepath.Join d "known_hosts")
              (Filepath.Join d "known_hosts.empty") si sm sk se).
Proof using.
  intros Hc Hd. assert (∀ name, plain_name name → Filepath.Dir (Filepath.Join d name) = d) as Hdir
    by (intros name Hn; rewrite Join_plain by done; apply Dir_file; [done|apply Hn]).
  unfold activateGeneration. rewrite !Hdir by plain.
  assert (Filepath.Join d "identity" ++ ".pub" = Filepath.Join d "identity.pub")%string as ->.
  { rewrite !Join_plain by (done || plain). by rewrite <- !append_assoc. }
  frame; try (apply covers_copy; [done|done|plain]); [|by apply moves_own; apply _].
  apply within_directories. repeat constructor; by apply covers_mark.
Qed.

End below.

(** ** Files that are not receipts *)

Lemma receiptDir_eq : enrollmentReceiptDir = "/etc/warptweet/enrollment"%string.
Proof. vm_compute. reflexivity. Qed.
Lemma receiptDir_clean : clean_root enrollmentReceiptDir.
Proof. rewrite receiptDir_eq. split_and!; [vm_compute; reflexivity|vm_compute; reflexivity|discriminate]. Qed.
Lemma rotations_plain : plain_name "pending-rotation".
Proof. plain. Qed.
Lemma rotations_clean : clean_root (enrollmentReceiptDir ++ "/" ++ "pending-rotation").
Proof. apply clean_child; [apply receiptDir_clean|apply rotations_plain]. Qed.
Lemma rotationDirectory_eq id :
  plain_name id → rotationDirectory id = ((enrollmentReceiptDir ++ "/" ++ "pending-rotation") ++ "/" ++ id)%string.
Proof.
  intros Hn. unfold rotationDirectory. rewrite (Join_plain enrollmentReceiptDir) by (apply receiptDir_clean || apply rotations_plain).
  by apply Join_plain; [apply rotations_clean|].
Qed.
Lemma rotationDirectory_clean id : plain_name id → clean_root (rotationDirectory id).
Proof. intros Hn. rewrite rotationDirectory_eq by done. by apply clean_child; [apply rotations_clean|]. Qed.

(** No file directly in the directory of the receipts. *)
Definition elsewhere (p : string) : Prop := ∀ name, bz 47 ∉ to_bytes name → p ≠ (enrollmentReceiptDir ++ "/" ++ name)%string.

Lemma receipt_name_plain id : route_id id → plain_name (id ++ ".json").
Proof.
  intros Hid. destruct (route_id_plain _ Hid) as [(Hne & Hs & _) _]. destruct Hid as (c & b & Hb & _ & Hc & _).
  assert (to_bytes (id ++ ".json") = c :: b ++ to_bytes ".json") as E by (rewrite Locator.to_bytes_append, Hb; done).
  split_and!.
  - intros E'. by rewrite E' in E.
  - rewrite Locator.to_bytes_append. intros [?|Hin]%elem_of_app; [done|]. by vm_compute in Hin; repeat (apply elem_of_cons in Hin as [[=]|Hin]); apply elem_of_nil in Hin.
  - intros E'. rewrite E' in E. injection E as <- _. vm_compute in Hc. intuition lia.
  - intros E'. rewrite E' in E. injection E as <- _. vm_compute in Hc. intuition lia.
Qed.
Lemma receiptFile_eq id : route_id id → receiptFile id = (enrollmentReceiptDir ++ "/" ++ id ++ ".json")%string.
Proof. intros Hid. unfold receiptFile. apply Join_plain; [apply receiptDir_clean|by apply receipt_name_plain]. Qed.
Lemma elsewhere_receipt p id : route_id id → elsewhere p → p ≠ receiptFile id.
Proof. intros Hid He. rewrite receiptFile_eq by done. apply He. by apply receipt_name_plain. Qed.

Lemma elsewhere_below d : Strings.has_prefix (d ++ "/") (enrollmentReceiptDir ++ "/") = false →
  Strings.has_prefix (enrollmentReceiptDir ++ "/") (d ++ "/") = false → covers elsewhere d.
Proof.
  intros H1 H2 p [rest ->] name _ E. assert (¬ below enrollmentReceiptDir (d ++ "/" ++ rest)) as Hn.
  { apply (below_disjoint d); [|by eexists]. unfold Strings.has_prefix in H1, H2. apply bool_decide_eq_false in H1, H2.
    apply bool_decide_eq_false. intros [[k Hk]|[k Hk]]; [apply H2|apply H1]; rewrite Hk, <- length_to_bytes; by rewrite take_app_length. }
  apply Hn. by exists name.
Qed.
Lemma elsewhere_Root : covers elsewhere Root.
Proof. apply elsewhere_below; vm_compute; reflexivity. Qed.
Lemma elsewhere_Runtime p : runtime p → elsewhere p.
Proof. intros [rest ->] name _. rewrite receiptDir_eq. discriminate. Qed.
Lemma elsewhere_stage id : plain_name id → covers elsewhere (rotationDirectory id).
Proof.
  intros Hn p [rest ->] name Hname. rewrite rotationDirectory_eq by done. rewrite <- !append_assoc.
  intros E%app_string_inv%(app_string_inv "/"). apply Hname. rewrite <- E, !Locator.to_bytes_append.
  apply elem_of_app. right. apply elem_of_app. left. by apply (bool_decide_unpack _).
Qed.

Lemma generation_plain g : Routes.ValidateGenerationID g = Ok () → plain_name g.
Proof.
  unfold Routes.ValidateGenerationID, Routes.eqs. case_bool_decide as He; [done|]. cbn [orb]. destruct (_ <? _)%nat; [done|].
  destruct (Routes.pathCharacters g) eqn:Hp; [done|]. intros Hr. unfold Routes.pathCharacters in Hp. apply orb_false_iff in Hp as [Hd Hs].
  split_and!; [done| | |].
  - intros Hin%list_elem_of_In. assert (existsb (λ c, bool_decide (c ∈ [bz 47; bz 92; bz 58])) (to_bytes g) = true) as Ht; [|by rewrite Ht in Hs].
    apply existsb_exists. exists (bz 47). split; [done|]. by apply (bool_decide_unpack _).
  - intros ->. by vm_compute in Hr.
  - intros ->. by vm_compute in Hd.
Qed.

(** ** Documents *)

Lemma decode_omitint {A} (fs : list (Json.field A)) name n set a :
  Json.select fs name = Some (Json.int_field set) → set 0 a = a → Z.abs n < 2 ^ 63 →
  Json.decode_members true fs (Routes.omitzero name n) a = Ok (set n a).
Proof.
  intros Hs H0 Hn. unfold Routes.omitzero. destruct (Z.eqb_spec n 0) as [-> |]; [by rewrite H0|].
  cbn [Json.decode_members]. rewrite Hs. by rewrite int_field_JInt.
Qed.

Definition enrollmentTexts (r : enrollmentReceipt) : list string :=
  [e_InviteID r; e_ClientID r; e_TunnelID r; e_AcceptedAt r; e_AuthorizationNotAfter r; e_Generation r; e_ManagementToken r;
   e_PublicKey r; e_HostPublicKey r; e_EnrollmentTLSSPKISHA256 r; e_Target r; e_Principal r; e_ProfileID r; e_RevokedAt r].
Definition wf_enrolled (r : enrollmentReceipt) : Prop :=
  Forall Json.ascii (enrollmentTexts r) ∧ wf_endpoint (Data (e_Published r)) ∧ wf_endpoint (Enrollment (e_Published r)) ∧
  0 ≤ ps_Generation (e_Published r) < 2 ^ 63 ∧ 0 ≤ e_AuthorizationDurationSeconds r < 2 ^ 63.

(** A receipt is read as it was written. *)
Lemma enrolled_codec r v :
  wf_enrolled r → receiptJSON r = Ok v → Json.unmarshal receiptFields zero_enrollmentReceipt (Json.print v ++ [bz 10]) = Ok r.
Proof.
  intros (Ht & Hd & He & Hg & Hs). unfold enrollmentTexts in Ht. repeat apply List.Forall_cons_iff in Ht as [? Ht].
  destruct (endpoint_codec _ Hd) as (data & Hdj & Hdw & Hdn & Hdd).
  destruct (endpoint_codec _ He) as (enr & Hej & Hew & Hen & Hed).
  unfold receiptJSON. rewrite Hdj. cbn [mbind result_bind]. rewrite Hej. cbn [mbind result_bind]. intros <-%Ok_inj.
  unfold Json.unmarshal, Json.parse_all. rewrite Json.parse_print; [|apply wf_obj; [done|]|reflexivity].
  2: { repeat (apply Forall_app; split); first [apply wf_omit; [by apply ascii_forallb|done]|apply wf_omitzero; [by apply ascii_forallb|lia]|plain_members];
       [by apply Hdw|by apply Hew]. }
  cbn [mbind result_bind]. apply decode_lenient. cbn [Json.decode].
  destruct r as [? ? ? ? ? ? ? ? [g d e] ? ? ? ? ? ? ?].
  cbn [e_InviteID e_ClientID e_TunnelID e_AcceptedAt e_AuthorizationNotAfter e_AuthorizationDurationSeconds e_Generation
    e_ManagementToken e_Published e_PublicKey e_HostPublicKey e_EnrollmentTLSSPKISHA256 e_Target e_Principal e_ProfileID
    e_RevokedAt ps_Generation Data Enrollment app] in *.
  members.
  rewrite decode_members_app. erewrite (decode_omitint receiptFields); [|reflexivity..|lia]. cbn [mbind result_bind]. settle.
  members.
  erewrite (decode_member receiptFields dataField); [|reflexivity|unfold dataField; rewrite (decode_lenient _ _ _ _ (Hdd _)); reflexivity].
  settle. erewrite (decode_member receiptFields enrollmentField);
    [|reflexivity|unfold enrollmentField; rewrite (decode_lenient _ _ _ _ (Hed _)); reflexivity].
  settle. cbn [app]. members. by erewrite decode_omit by reflexivity.
Qed.

Definition rotationTexts (p : pendingRotation) : list string :=
  [pr_ClientID p; pr_TunnelID p; pr_Generation p; pr_PublicKey p; pr_CurrentManagementToken p; pr_NextManagementToken p].
Definition pendingTexts (p : pendingEnrollment) : list string :=
  [pe_InviteID p; pe_TunnelID p; pe_Generation p; pe_PublicKey p; pe_ManagementToken p].
Lemma rotation_codec p :
  Forall Json.ascii (rotationTexts p) →
  decodeFirst pendingRotationFields zero_pendingRotation (Json.print (pendingRotationJSON p) ++ [bz 10]) = Ok p.
Proof.
  intros Ht. unfold rotationTexts in Ht. repeat apply List.Forall_cons_iff in Ht as [? Ht]. unfold decodeFirst, pendingRotationJSON.
  rewrite Json.parse_print; [|apply wf_obj; [done|plain_members]|reflexivity]. cbn [mbind result_bind Json.decode].
  destruct p. cbn [pr_ClientID pr_TunnelID pr_Generation pr_PublicKey pr_CurrentManagementToken pr_NextManagementToken]. members.
Qed.
Lemma pending_codec p :
  Forall Json.ascii (pendingTexts p) →
  decodeFirst pendingEnrollmentFields zero_pendingEnrollment (Json.print (pendingEnrollmentJSON p) ++ [bz 10]) = Ok p.
Proof.
  intros Ht. unfold pendingTexts in Ht. repeat apply List.Forall_cons_iff in Ht as [? Ht]. unfold decodeFirst, pendingEnrollmentJSON.
  rewrite Json.parse_print; [|apply wf_obj; [done|plain_members]|reflexivity]. cbn [mbind result_bind Json.decode].
  destruct p. cbn [pe_InviteID pe_TunnelID pe_Generation pe_PublicKey pe_ManagementToken]. members.
Qed.

Section rotate.
Context {CR : Crypto}.
Context (H : hostEnv) (rnd : nat → nat → bytes) (X : Submit.network).
Context (procRead : nat → string → result bytes) (probe : nat → Z → option error).
Context (exec : nat → list string → gmap string bytes → option error * gmap string bytes).
Context (superuser : bool) (cancelled : nat → bool).
(** Other programs leave the receipts alone. *)
Hypothesis exec_spares : ∀ n arguments fs, outside elsewhere fs (exec n arguments fs).2.

Lemma within_route_document id file v :
  route_id id → plain_name file → within elsewhere (Routes.writeJSONAtomic H (Routes.fileOf Root id file) v).
Proof using.
  intros [Hn _]%route_id_plain Hf. unfold Routes.writeJSONAtomic. frame. apply within_replaceFile; [| |frame].
  - rewrite fileOf_eq by (apply Root_clean || done). apply elsewhere_Root. by eexists.
  - intros n. unfold tempName. rewrite Dir_fileOf by (apply Root_clean || done). rewrite <- append_assoc. apply elsewhere_Root. by eexists.
Qed.
Lemma within_route_dir id : route_id id → within elsewhere (MkdirAll H (Root ++ "/" ++ id)).
Proof using.
  intros [Hn _]%route_id_plain. apply within_mkdirAll_at, covers_mark, covers_child, elsewhere_Root.
Qed.
Lemma within_sync id receipt : within elsewhere (syncRouteReceipt H id receipt).
Proof using.
  unfold syncRouteReceipt. apply moves_bind; [apply _|unfold Routes.Exists; frame|intros there]. destruct (negb there); [by apply moves_ret; apply _|].
  apply moves_bind; [apply _|unfold Routes.LoadReceipt, Routes.readStrictJSON, ReadIn; frame|intros loaded]. cbv zeta.
  unfold Routes.WriteReceipt. apply moves_checked; [apply _|]. intros _ _.
  apply moves_checked; [apply _|]. intros p (Hid & ->)%(receiptPath_Ok Root Root_clean).
  rewrite Dir_fileOf by first [apply Root_clean|plain|by apply route_id_plain].
  frame; [by apply within_route_dir|by apply within_route_document; [|plain]].
Qed.

Lemma generationDir_below id g d :
  Routes.GenerationDir Root id g = Ok d →
  route_id id ∧ d = (((Root ++ "/" ++ id) ++ "/" ++ "generations") ++ "/" ++ g)%string ∧ plain_name g.
Proof using.
  unfold Routes.GenerationDir, Routes.generationDir. intros ([] & Hid%ValidateRouteID_iff & Hd)%bind_Ok.
  apply bind_Ok in Hd as ([] & Hg%generation_plain & Hd%Ok_inj). split_and!; [done| |done]. subst d.
  destruct (route_id_plain _ Hid) as [Hn _]. assert (plain_name "generations") as Hp by plain.
  rewrite fileOf_eq by (apply Root_clean || done).
  replace (Root ++ "/" ++ id ++ "/" ++ "generations")%string with ((Root ++ "/" ++ id) ++ "/" ++ "generations")%string
    by (by rewrite <- !append_assoc).
  apply Join_plain; [|done]. repeat apply clean_child; try done; apply Root_clean.
Qed.
Lemma route_generations_clean id g : plain_name id → plain_name g →
  clean_root ((Root ++ "/" ++ id) ++ "/" ++ "generations") ∧ clean_root (((Root ++ "/" ++ id) ++ "/" ++ "generations") ++ "/" ++ g).
Proof using.
  intros Hn Hg. assert (plain_name "generations") by plain. split; repeat apply clean_child; try done; apply Root_clean.
Qed.

Lemma within_persistGeneration id g a b c d : within elsewhere (persistActivatedGeneration H superuser id g a b c d).
Proof using.
  unfold persistActivatedGeneration. apply moves_checked; [apply _|]. intros dir (Hid & -> & Hg)%generationDir_below.
  destruct (route_id_plain _ Hid) as [Hn _]. destruct (route_generations_clean id g Hn Hg) as [Hc1 Hc2].
  set (dir := (((Root ++ "/" ++ id) ++ "/" ++ "generations") ++ "/" ++ g)%string) in *.
  assert (covers elsewhere dir) as Hcov by (do 3 apply covers_child; apply elsewhere_Root).
  apply moves_bind; [apply _| |intros []]; [|apply moves_bind; [apply _| |intros []]].
  - unfold ensureRouteGenerationDirectories, dir. rewrite Dir_file by (done || apply Hg).
    rewrite (Dir_file (Root ++ "/" ++ id) "generations");
      [|apply clean_child; [apply Root_clean|done]|by apply (bool_decide_unpack _)].
    frame; [|by apply moves_own; apply _]. apply within_directories. repeat constructor; apply covers_mark; repeat apply covers_child; apply elsewhere_Root.
  - by apply within_generation.
  - unfold Routes.Activate, LstatDir. frame. apply within_route_document; [done|plain].
Qed.

Lemma within_stagePolicy id : route_id id → within elsewhere (stageActiveGenerationPolicy H id (rotationDirectory id)).
Proof using.
  intros Hid. destruct (route_id_plain _ Hid) as [Hn _]. pose proof (rotationDirectory_clean id Hn) as Hc.
  pose proof (elsewhere_stage id Hn) as Hcov. unfold stageActiveGenerationPolicy.
  apply moves_bind; [apply _|unfold Routes.ManifestPath, Routes.activeFile, Routes.LoadActive, Routes.readStrictJSON, ReadIn; frame|].
  intros [manifest|e]; [|apply moves_fail; apply _]. unfold copyGenerationPolicy.
  frame; try (apply covers_copy; [done|done|plain]); [by apply within_mkdirAll_at, covers_mark|].
  apply covers_WriteFile; [done|done|plain].
Qed.

Lemma within_activateInstalled a b c d :
  within elsewhere (activateGeneration H superuser ClientManifestPath ClientIdentityPath ClientKnownHostsPath ClientGlobalKnownHostsPath a b c d).
Proof using.
  unfold activateGeneration. frame; [|apply within_copy..|by apply moves_own; apply _];
    try (intros name _ E; vm_compute in E; discriminate); try (intros n name _ E; vm_compute in E; discriminate).
  apply within_directories. repeat constructor; intros name _ E; vm_compute in E; discriminate.
Qed.

Lemma within_RemoveTree dir : covers elsewhere dir → elsewhere dir → within elsewhere (RemoveTree H dir).
Proof using.
  intros Hc Hd. unfold RemoveTree. apply moves_bind; [apply _|apply moves_call; apply _|intros n].
  assert (∀ p, bool_decide (p = dir) || inDir dir p = true → elsewhere p) as Hin.
  { intros p [->%bool_decide_eq_true|Hp]%orb_prop; [done|]. apply Hc. unfold inDir, Strings.has_prefix in Hp.
    apply bool_decide_eq_true in Hp. exists (to_string (drop (String.length (dir ++ "/")) (to_bytes p))). apply to_bytes_inj.
    rewrite append_assoc, Locator.to_bytes_append, to_bytes_string. rewrite <- Hp. by rewrite take_drop. }
  destruct (h_fault H n).
  - apply moves_bind; [apply _| |intros; apply moves_fail; apply _]. apply moves_set. intros fs p Hp.
    set (l := take _ _). assert (Forall (λ q, q ≠ p) l) as Hl.
    { apply Forall_take. apply list.Forall_forall. intros q Hq. apply list_elem_of_filter in Hq as [Hq _]. intros ->. by apply Hp, Hin. }
    clearbody l. induction Hl as [|q l Hq _ IH]; [done|]. cbn [foldr]. by rewrite lookup_delete_ne.
  - apply moves_set. intros fs p Hp. rewrite map_lookup_filter. destruct (fs !! p); [|done]. cbn. case_guard as Hg; [done|].
    exfalso. cbn in Hg. apply Hp, Hin. by apply not_false_is_true.
Qed.
Lemma elsewhere_rotation id : plain_name id → elsewhere (rotationDirectory id).
Proof using.
  intros Hn name Hname. rewrite rotationDirectory_eq by done. rewrite <- !append_assoc.
  intros E%app_string_inv%(app_string_inv "/"). apply Hname. rewrite <- E, !Locator.to_bytes_append.
  apply elem_of_app. right. apply elem_of_app. left. by apply (bool_decide_unpack _).
Qed.

Lemma within_run arguments : within elsewhere (runCommand exec arguments).
Proof using exec_spares.
  intros w. unfold runCommand, call, get_files, set_files, mbind, HM_bind. cbn [files calls].
  pose proof (exec_spares (calls w) arguments (files w)) as He. destruct (exec (calls w) arguments (files w)) as [[e|] fs']; exact He.
Qed.
Lemma within_project id start : within elsewhere (project H exec id start).
Proof using exec_spares. unfold project, projectManagedTunnel, projectLinuxTunnel. frame; apply within_run. Qed.
Lemma within_writeTunnel s : within elsewhere (writeTunnel H procRead s).
Proof using. eapply within_moves; [apply within_writeState|]. intros fs fs' Ho p Hp. apply Ho. intros Hr. by apply Hp, elsewhere_Runtime. Qed.
Lemma moves_readTunnel R `{!PreOrder R} id : moves R (readTunnel H procRead probe id).
Proof using. apply moves_readState. apply _. Qed.

Lemma within_restart id generation client : within elsewhere (restartRotated H procRead probe exec id generation client).
Proof using exec_spares.
  unfold restartRotated, stopTunnelProcess, managedTunnelRunning, processAlivePID.
  frame; first [apply within_project|apply within_writeTunnel|apply moves_readTunnel; apply _].
Qed.
Lemma cleans_runtime {A} id generation operation e : within runtime (persistCleanupRequired H procRead id generation operation e : HM A).
Proof using. unfold persistCleanupRequired. frame. apply within_writeState. Qed.
Lemma within_cleanup {A} id generation operation e : within elsewhere (persistCleanupRequired H procRead id generation operation e : HM A).
Proof using. unfold persistCleanupRequired. frame. apply within_writeTunnel. Qed.

(** ** Receipts on disk *)

Definition receipt_on_disk (id : string) (fs : gmap string bytes) (r : enrollmentReceipt) : Prop :=
  ∃ v, receiptJSON r = Ok v ∧ fs !! receiptFile id = Some (Json.print v ++ [bz 10]).

Lemma receiptFile_not_temp id n : route_id id → receiptFile id ≠ tempName H (receiptFile id) ".wt-server-" n.
Proof.
  intros Hid. unfold tempName. rewrite receiptFile_eq, Dir_file by (done || apply receiptDir_clean || by apply receipt_name_plain).
  intros E%app_string_inv%(app_string_inv "/"). destruct Hid as (c & b & Hb & _ & Hc & _).
  apply (f_equal to_bytes) in E. rewrite !Locator.to_bytes_append, Hb in E. injection E as -> _. vm_compute in Hc.
  by destruct Hc as [[]|[[]|[]]].
Qed.

(** A file is replaced whole or not at all, and the others stay. *)
Lemma atomic_spec path contents w :
  (∀ n, path ≠ tempName H path ".wt-server-" n) →
  let out := ClientEnroll.writeFileAtomic H path contents w in
  (files out.2 !! path = files w !! path ∨ files out.2 !! path = Some contents) ∧
  (out.1 = Ok () → files out.2 !! path = Some contents) ∧
  ∀ q c, q ≠ path → files w !! q = Some c → files out.2 !! q = Some c.
Proof.
  intros Hp. cbv zeta. unfold ClientEnroll.writeFileAtomic, AuthorizedKeys.writeFileAtomic.
  pose proof (moves_sys H (outside (λ _, False)) w) as Hs.
  set (sync := sys H;; deferred (sys H) (sys H)). unfold mbind, HM_bind.
  assert (∀ q, files (sys H w).2 !! q = files w !! q) as Hq by (intros q; apply Hs; auto).
  destruct (sys H w) as [[[]|e] w1]; cbn [fst snd] in *; [|split_and!; [by left|done|intros q c _; by rewrite Hq]].
  destruct (replaceFile_replaced H path ".wt-server-" contents (files w1) (λ n _, Hp n) true sync
    ltac:(intros fs; apply bind_keeps; [apply sys_keeps|intros _; apply deferred_keeps; apply sys_keeps]) w1 eq_refl) as (H1 & H2 & H3).
  set (out := replaceFile H _ _ _ _ _ w1) in *. rewrite Hq in H1. split_and!; [done|done|].
  intros q c Hne Hc. destruct (H3 q Hne) as [E|[E _]]; rewrite Hq in E; congruence.
Qed.

Lemma state_not_runtime id : plain_name id → ¬ runtime (rotationState id).
Proof.
  intros Hn [rest E]. unfold rotationState in E.
  assert (plain_name "rotation.json") as Hp by plain.
  rewrite (Join_plain _ _ (rotationDirectory_clean id Hn) Hp), (rotationDirectory_eq id Hn), receiptDir_eq in E. discriminate.
Qed.
Lemma elsewhere_state id : plain_name id → elsewhere (rotationState id).
Proof.
  intros Hn. unfold rotationState. apply covers_file; [by apply rotationDirectory_clean|by apply elsewhere_stage|plain].
Qed.

(** A receipt is written whole or not at all, and no deeper file is touched. *)
Lemma writeReceipt_spec r w :
  route_id (e_TunnelID r) →
  let out := writeEnrollmentReceipt H r w in let file := receiptFile (e_TunnelID r) in
  (files out.2 !! file = files w !! file ∨ receipt_on_disk (e_TunnelID r) (files out.2) r) ∧
  (out.1 = Ok () → receipt_on_disk (e_TunnelID r) (files out.2) r) ∧
  ∀ q c, elsewhere q → files w !! q = Some c → files out.2 !! q = Some c.
Proof.
  intros Hid. cbv zeta. set (id := e_TunnelID r) in *. unfold writeEnrollmentReceipt.
  pose proof (within_mkdirAll_at H (λ p, p = dirMark enrollmentReceiptDir) enrollmentReceiptDir eq_refl w) as Hm.
  assert (receiptFile id ≠ dirMark enrollmentReceiptDir) as Hmark.
  { rewrite receiptFile_eq by done. unfold dirMark. intros E%app_string_inv%(app_string_inv "/" _ ""). 
    exact (proj1 (receipt_name_plain _ Hid) E). }
  assert (∀ q, elsewhere q → q ≠ dirMark enrollmentReceiptDir) as Hother.
  { intros q Hq ->. apply (Hq ""%string); [apply not_elem_of_nil|]. unfold dirMark. by apply (f_equal (λ s, enrollmentReceiptDir ++ s)%string). }
  unfold mbind, HM_bind. destruct (MkdirAll H enrollmentReceiptDir w) as [[[]|e] w1]; cbn [fst snd] in *;
    [|split_and!; [left; by apply Hm|done|intros q c Hq Hc; rewrite Hm; auto]].
  unfold hlift, receipt_on_disk. destruct (receiptJSON r) as [v|e] eqn:Hj; cbn [fst snd];
    [|split_and!; [left; by apply Hm|done|intros q c Hq Hc; rewrite Hm; auto]].
  destruct (atomic_spec (receiptFile id) (Json.print v ++ [bz 10]) w1) as (H1 & H2 & H3); [intros n; by apply receiptFile_not_temp|].
  split_and!; [destruct H1 as [H1|H1]; [left; rewrite <- (Hm _ Hmark); exact H1|right; eauto]|eauto|].
  intros q c Hq Hc. apply H3; [by apply elsewhere_receipt|]. rewrite Hm; auto.
Qed.

(** ** The token of a rotation *)

Definition next_on_disk (id : string) (pending : pendingRotation) (fs : gmap string bytes) : Prop :=
  ∃ r, receipt_on_disk id fs r ∧ e_ManagementToken r = pr_NextManagementToken pending ∧ e_PublicKey r = pr_PublicKey pending.

Lemma elsewhere_next {A} id pending (m : HM A) :
  route_id id → within elsewhere m → htriple (next_on_disk id pending) m (λ _, next_on_disk id pending).
Proof.
  intros Hid Hm w (r & (v & Hv & Hf) & Hr). exists r. split; [|done]. exists v. split; [done|]. rewrite Hm; [done|].
  intros He. by apply (elsewhere_receipt _ _ Hid He).
Qed.
Lemma elsewhere_then {A B} id pending (m : HM A) (f : A → HM B) :
  route_id id → within elsewhere m → (∀ a, htriple (next_on_disk id pending) (f a) (λ _, next_on_disk id pending)) →
  htriple (next_on_disk id pending) (m ≫= f) (λ _, next_on_disk id pending).
Proof.
  intros Hid Hm Hf. apply htriple_bind with (λ _, next_on_disk id pending); [|done].
  eapply htriple_weaken; [by apply (elsewhere_next id pending m)|done|by intros []].
Qed.
Lemma rewrite_next id pending r :
  route_id id → e_TunnelID r = id → e_ManagementToken r = pr_NextManagementToken pending → e_PublicKey r = pr_PublicKey pending →
  htriple (next_on_disk id pending) (writeEnrollmentReceipt H r) (λ _, next_on_disk id pending).
Proof.
  intros Hid <- Ht Hk w (r0 & (v & Hv & Hf) & Hr). destruct (writeReceipt_spec r w Hid) as (H1 & _ & _).
  destruct H1 as [H1|H1]; [exists r0|by exists r]. split; [|done]. exists v. by rewrite H1.
Qed.

(** Everything after the first receipt. *)
Lemma finish_next id receipt pending identityPath proof raw :
  route_id id → e_TunnelID receipt = id →
  htriple (λ fs, fs !! rotationState id = Some raw)
    (finishRotate H procRead probe exec superuser id receipt pending (rotationDirectory id) identityPath proof)
    (λ _ fs, fs !! rotationState id = Some raw ∨ next_on_disk id pending fs).
Proof.
  intros Hid Hr. destruct (route_id_plain _ Hid) as [Hn _]. unfold finishRotate. cbv zeta.
  set (r1 := set_e_AcceptedAt _ _). assert (e_TunnelID r1 = id) as Hr1 by exact Hr.
  apply htriple_bind with (λ _ fs, next_on_disk id pending fs).
  { intros w Hw. rewrite <- Hr1 in Hid. destruct (writeReceipt_spec r1 w Hid) as (_ & H2 & H3). rewrite Hr1 in *.
    destruct ((writeEnrollmentReceipt H r1 w).1) as [[]|e]; [exists r1; by split; [apply H2|]|].
    left. apply H3; [by apply elsewhere_state|done]. }
  intros _. eapply (htriple_weaken _ (next_on_disk id pending) _ _ (λ _, next_on_disk id pending)); [|done|by right].
  apply (elsewhere_then _ _ _ _ Hid); [apply moves_try, within_sync|intros _].
  apply (elsewhere_then _ _ _ _ Hid); [by apply within_stagePolicy|intros [[m k] e]].
  apply (elsewhere_then _ _ _ _ Hid); [apply within_persistGeneration|intros _].
  apply (elsewhere_then _ _ _ _ Hid); [apply within_activateInstalled|intros _].
  apply htriple_bind with (λ _, next_on_disk id pending).
  { eapply htriple_weaken; [apply (rewrite_next id pending (set_e_Generation (pr_Generation pending) r1)); done|done|].
    by intros []. }
  intros _. apply (elsewhere_then _ _ _ _ Hid); [apply moves_try, within_sync|intros _].
  apply elsewhere_next; [done|]. frame; [|apply within_restart].
  apply within_RemoveTree; [by apply elsewhere_stage|by apply elsewhere_rotation].
Qed.

(** ** The pending state *)

Definition pending_at {A} (fields : list (Json.field A)) (zero : A) (path : string) (pending : A) (fs : gmap string bytes) : Prop :=
  ∃ raw, fs !! path = Some raw ∧ decodeFirst fields zero raw = Ok pending.

Lemma loaded_pending {A} (fields : list (Json.field A)) zero path :
  htriple (λ _, True) (loadPendingJSONState H fields zero path)
    (λ r fs, ∀ pending, r = Ok (Some pending) → pending_at fields zero path pending fs).
Proof.
  unfold loadPendingJSONState. apply htriple_bind with (λ r fs, ∀ raw, r = Ok raw → fs !! path = Some raw).
  { apply htriple_try, htriple_ReadFile; [done|]. by intros c fs _ Hc raw <-%Ok_inj. }
  intros [raw|e] w Hw; [|by destruct (IsNotExist e)]. specialize (Hw raw eq_refl). unfold hlift.
  destruct (decodeFirst fields zero raw) as [a|e] eqn:Hd; [|done]. intros pending [= <-]. by exists raw.
Qed.
Lemma pending_verified {A B} (fields : list (Json.field A)) zero path pending identityPath key message (result : B) :
  htriple (pending_at fields zero path pending) (verifyPendingIdentityPublicKey H identityPath key message;; mret result)
    (λ r fs, ∀ b, r = Ok b → b = result ∧ pending_at fields zero path pending fs).
Proof.
  intros w (raw & Hraw & Hd) b Hb. split.
  { unfold mbind, HM_bind in Hb. destruct (verifyPendingIdentityPublicKey H identityPath key message w) as [[[]|e] w']; [by apply Ok_inj in Hb|done]. }
  exists raw. split; [|done]. rewrite <- Hraw.
  assert (within (λ _, False) (verifyPendingIdentityPublicKey H identityPath key message;; mret result)) as Hm
    by (unfold verifyPendingIdentityPublicKey; frame).
  apply Hm. by intros [].
Qed.
Lemma pending_written path v w :
  (∀ n, path ≠ tempName H path ".wt-server-" n) →
  (writePendingJSONState H path v w).1 = Ok () → files (writePendingJSONState H path v w).2 !! path = Some (Json.print v ++ [bz 10]).
Proof. intros Hp. by destruct (atomic_spec path (Json.print v ++ [bz 10]) w Hp) as (_ & H2 & _). Qed.
Lemma state_not_temp dir name n :
  clean_root dir → plain_name name → Strings.has_prefix name "." = false →
  Filepath.Join dir name ≠ tempName H (Filepath.Join dir name) ".wt-server-" n.
Proof.
  intros Hc Hn Hd. unfold tempName. rewrite Join_plain, Dir_file by (done || apply Hn).
  intros E%app_string_inv%(app_string_inv "/"). by rewrite E in Hd.
Qed.

(** A rotation is on disk before anything is asked of the host. *)
Definition rotation_at (id : string) := pending_at pendingRotationFields zero_pendingRotation (rotationState id).
Lemma rotation_prepared keygen receipt id :
  plain_name id →
  htriple (λ _, True) (loadOrCreatePendingRotation H rnd exec keygen receipt id)
    (λ r fs, ∀ p stage identity, r = Ok (p, stage, identity) →
       stage = rotationDirectory id ∧ (Forall Json.ascii (rotationTexts p) → rotation_at id p fs)).
Proof.
  intros Hn. unfold loadOrCreatePendingRotation.
  apply htriple_bind with (λ _ _, True); [by intros w _; destruct (MkdirAll _ _ _) as [[]]|intros _]. cbv zeta.
  apply htriple_bind with (λ r fs, ∀ p, r = Ok (Some p) → rotation_at id p fs); [apply htriple_try, loaded_pending|].
  intros [[p|]|e]; [| |by intros w _].
  - destruct (_ || _); [by intros w _|]. eapply htriple_weaken; [apply (pending_verified pendingRotationFields zero_pendingRotation)| |].
    + intros fs Hp. by apply Hp.
    + intros r fs Hr p' stage identity E. destruct (Hr _ E) as [[= -> -> ->] Hp]. by split.
  - apply htriple_bind with (λ _ _, True); [intros w _; by destruct (createPendingClientIdentity _ _ _ _ _ _ _ w) as [[]]|intros key].
    apply htriple_bind with (λ _ _, True); [intros w _; by destruct (Clients.GenerateManagementToken _ _ w) as [[]]|intros token].
    apply htriple_bind with (λ _ _, True); [intros w _; by destruct (Host.now _ w) as [[]]|intros t]. cbv zeta.
    set (p := mkPendingRotation _ _ _ _ _ _). apply htriple_bind with (λ _ fs, fs !! rotationState id = Some (Json.print (pendingRotationJSON p) ++ [bz 10])).
    + intros w _. pose proof (pending_written (rotationState id) (pendingRotationJSON p) w) as Hw.
      destruct (writePendingJSONState _ _ _ w) as [[[]|e] w']; [|done]. apply Hw; [|done]. intros n.
      apply state_not_temp; [by apply rotationDirectory_clean|plain|reflexivity].
    + intros _ w Hw p' stage identity [= <- <- <-]. split; [done|]. intros Ha. eexists. split; [exact Hw|]. by apply rotation_codec.
Qed.

(** Asking the host changes no file. *)
Lemma reads_port id : within (λ _, False) (managementLocalPort H procRead probe id).
Proof. unfold managementLocalPort. apply moves_bind; [apply _|apply moves_readTunnel; apply _|]. intros s. frame. Qed.
Lemma reads_rotate port request : within (λ _, False) (submitRotate H X cancelled port request).
Proof. unfold submitRotate, Submit.SubmitRotate, Submit.postJSON, Submit.postJSONTo, Submit.clientDo. frame. Qed.

(** The rest of the command, whatever fails in it. *)
Lemma rotate_next id receipt pending identityPath raw :
  route_id id → e_TunnelID receipt = id →
  htriple (λ fs, fs !! rotationState id = Some raw)
    (rotateWith H X procRead probe exec superuser cancelled id receipt pending (rotationDirectory id) identityPath)
    (λ _ fs, fs !! rotationState id = Some raw ∨ next_on_disk id pending fs).
Proof.
  intros Hid Hr. destruct (route_id_plain _ Hid) as [Hn _]. unfold rotateWith. destruct (eqs _ _); [intros w Hw; by left|].
  assert (∀ B (m : HM B), within (λ _, False) m →
    htriple (λ fs, fs !! rotationState id = Some raw) m
      (λ r fs, match r with Ok _ => fs !! rotationState id = Some raw
                          | Err _ => fs !! rotationState id = Some raw ∨ next_on_disk id pending fs end)) as Hreads.
  { intros B m Hm w Hw. assert (files (m w).2 !! rotationState id = Some raw) by (rewrite Hm; [done|by intros []]).
    destruct ((m w).1); auto. }
  apply htriple_bind with (λ _ fs, fs !! rotationState id = Some raw); [apply Hreads, reads_port|intros port].
  apply htriple_bind with (λ _ fs, fs !! rotationState id = Some raw); [apply Hreads, reads_rotate|intros proof].
  set (S := λ fs, fs !! rotationState id = Some raw ∨ next_on_disk id pending fs).
  assert (∀ B (m : HM B), within (λ p, elsewhere p ∧ p ≠ rotationState id) m → htriple S m (λ _, S)) as Hkeeps.
  { intros B m Hm w [Hw|Hw]; [left; rewrite Hm; [done|by intros []]|right].
    apply elsewhere_next; [done| |done]. intros w' p Hp. apply Hm. by intros []. }
  apply htriple_bind with (λ _, S).
  - unfold withCleanup. apply htriple_bind with (λ _, S).
    { apply htriple_try. eapply htriple_weaken; [by apply (finish_next id receipt pending identityPath proof raw)|done|done]. }
    intros [a|e]; [by apply htriple_ret|]. eapply htriple_weaken; [apply Hkeeps|done|by intros []].
    eapply within_weaken; [apply cleans_runtime|]. intros p Hp. split; [by apply elsewhere_Runtime|]. intros ->. by apply (state_not_runtime id Hn).
  - intros result. apply Hkeeps. unfold writeJSON. frame.
Qed.

End rotate.

(** ** Enrollments that are tried again *)

Lemma hex_token b : length b = Clients.ManagementTokenBytes → Clients.isManagementToken (Hex.encode b) = true.
Proof.
  intros Hl. pose proof (Hex_ascii b) as Ha. unfold Clients.isManagementToken, Clients.isLowerHexDigest, Utf8.range.
  rewrite Json.runes_ascii by exact Ha. unfold Json.ascii in Ha.
  assert (String.length (Hex.encode b) = 64%nat) as ->.
  { rewrite <- length_to_bytes. unfold Hex.encode. rewrite to_bytes_string.
    assert (∀ l : bytes, length (concat ((λ x, [Hex.digit (zb x / 16); Hex.digit (zb x mod 16)]) <$> l)) = (2 * length l)%nat) as ->.
    { induction l as [|x l IH]; [done|]. cbn. rewrite IH. lia. }
    rewrite Hl. reflexivity. }
  change (64 =? Clients.ManagementTokenBytes * 2)%nat with true. change (64 =? 64)%nat with true. cbn [andb].
  clear Hl Ha. unfold Hex.encode. rewrite to_bytes_string.
  assert (∀ n, 0 ≤ n < 16 → Clients.in_range 48 57 (zb (Hex.digit n)) || Clients.in_range 97 102 (zb (Hex.digit n)) = true) as Hd.
  { intros n Hn. unfold Hex.digit, Clients.in_range. destruct (n <? 10) eqn:E; zbool; rewrite zb_bz, Z.mod_small by lia.
    - rewrite orb_true_iff, !andb_true_iff, !Z.leb_le. lia.
    - rewrite orb_true_iff, !andb_true_iff, !Z.leb_le. lia. }
  induction b as [|x b IH]; [done|]. cbn. pose proof (zb_range x). rewrite !Hd by dlia. exact IH.
Qed.

Definition enrollment_at (inviteID : string) := pending_at pendingEnrollmentFields zero_pendingEnrollment (enrollmentState inviteID).
Definition enrollmentIdentity (inviteID : string) : string := Filepath.Join (enrollmentDirectory inviteID) "client".

(** The pending enrollment of an invite and the key it was made for. *)
Definition prepared (inviteID tunnelID : string) (p : pendingEnrollment) (fs : gmap string bytes) : Prop :=
  pe_InviteID p = inviteID ∧ pe_TunnelID p = tunnelID ∧ is_ok (Clients.ValidateManagementToken (pe_ManagementToken p)) = true ∧
  (∃ pub, fs !! (enrollmentIdentity inviteID ++ ".pub")%string = Some pub ∧
          Strings.trim_space (to_string pub) = pe_PublicKey p) ∧
  enrollment_at inviteID p fs.

Section enroll.
Context {CR : Crypto}.
Context (H : hostEnv) (rnd : nat → nat → bytes).
Context (exec : nat → list string → gmap string bytes → option error * gmap string bytes).
(** [crypto/rand.Read] fills the buffer it is given. *)
Hypothesis rnd_fills : ∀ k n, length (rnd k n) = n.

Lemma enrollments_clean : clean_root (Filepath.Join enrollmentReceiptDir "pending-enrollment").
Proof. assert (plain_name "pending-enrollment") by plain. rewrite Join_plain by (done || apply receiptDir_clean). by apply clean_child; [apply receiptDir_clean|]. Qed.
Lemma enrollmentDirectory_clean id : plain_name id → clean_root (enrollmentDirectory id).
Proof. intros Hn. unfold enrollmentDirectory. rewrite Join_plain by (done || apply enrollments_clean). by apply clean_child; [apply enrollments_clean|]. Qed.

Lemma pub_not_state id : plain_name id → (enrollmentIdentity id ++ ".pub")%string ≠ enrollmentState id.
Proof.
  intros Hn. assert (plain_name "client") by plain. assert (plain_name "enrollment.json") by plain.
  unfold enrollmentIdentity, enrollmentState. rewrite !Join_plain by (done || by apply enrollmentDirectory_clean).
  rewrite <- !append_assoc. by intros E%app_string_inv%(app_string_inv "/").
Qed.

Lemma state_not_mark id : plain_name id →
  let mark := dirMark (Filepath.Join enrollmentReceiptDir "pending-enrollment") in
  enrollmentState id ≠ mark ∧ (enrollmentIdentity id ++ ".pub")%string ≠ mark.
Proof.
  intros Hn. cbv zeta. assert (plain_name "client") by plain. assert (plain_name "enrollment.json") by plain.
  unfold enrollmentIdentity, enrollmentState. rewrite (Join_plain _ "client"), (Join_plain _ "enrollment.json") by (done || by apply enrollmentDirectory_clean).
  unfold enrollmentDirectory. rewrite (Join_plain _ id) by (done || apply enrollments_clean). unfold dirMark.
  rewrite <- !append_assoc. split; intros E%app_string_inv%(app_string_inv "/" _ ""); by destruct id.
Qed.
Lemma enrollment_written id p w :
  plain_name id →
  let out := writePendingJSONState H (enrollmentState id) (pendingEnrollmentJSON p) w in
  (out.1 = Ok () → Forall Json.ascii (pendingTexts p) → enrollment_at id p (files out.2)) ∧
  ∀ pub, files w !! (enrollmentIdentity id ++ ".pub")%string = Some pub → files out.2 !! (enrollmentIdentity id ++ ".pub")%string = Some pub.
Proof.
  intros Hn. assert (∀ n, enrollmentState id ≠ tempName H (enrollmentState id) ".wt-server-" n) as Hnt
    by (intros n; apply state_not_temp; [by apply enrollmentDirectory_clean|plain|reflexivity]).
  destruct (atomic_spec H (enrollmentState id) (Json.print (pendingEnrollmentJSON p) ++ [bz 10]) w Hnt) as (_ & H2 & H3).
  split; [intros Hok Ha|intros pub; apply H3; by apply pub_not_state]. eexists. split; [by apply H2|]. by apply pending_codec.
Qed.

Lemma verified_key identityPath key message w :
  (verifyPendingIdentityPublicKey H identityPath key message w).1 = Ok () →
  files (verifyPendingIdentityPublicKey H identityPath key message w).2 = files w ∧
  ∃ pub, files w !! (identityPath ++ ".pub")%string = Some pub ∧ Strings.trim_space (to_string pub) = key.
Proof.
  unfold verifyPendingIdentityPublicKey, ReadFile, sys, call, get_files, mbind, HM_bind. cbn [files calls].
  destruct (h_fault H (calls w)); [done|]. cbn [mret HM_ret files]. destruct (files w !! _) as [pub|]; [|done]. cbn.
  unfold eqs. case_bool_decide as Hk; [|done]. cbn. intros _. eauto.
Qed.

Lemma created_key keygen directory identityPath comment prefix w key :
  (createPendingClientIdentity H exec keygen directory identityPath comment prefix w).1 = Ok key →
  ∃ pub, files (createPendingClientIdentity H exec keygen directory identityPath comment prefix w).2
           !! (identityPath ++ ".pub")%string = Some pub ∧ Strings.trim_space (to_string pub) = key.
Proof.
  unfold createPendingClientIdentity, mbind, HM_bind, htry.
  destruct (RemoveTree H directory w) as [[[]|e] w1]; [|done]. destruct (Mkdir H directory w1) as [[[]|e] w2]; [|done].
  destruct (runCommand exec _ w2) as [[[]|e] w3]; [|done].
  unfold ReadFile, sys, call, get_files, mbind, HM_bind. cbn [files calls]. destruct (h_fault H (calls w3)); [done|].
  cbn [mret HM_ret files]. destruct (files w3 !! _) as [pub|] eqn:Hp; [|done]. cbn -[Strings.trim_space].
  destruct (_ || _); [done|]. intros [= <-]. exists pub. split; [exact Hp|done].
Qed.

Lemma generated_token w token :
  (Clients.GenerateManagementToken H rnd w).1 = Ok token →
  files (Clients.GenerateManagementToken H rnd w).2 = files w ∧ is_ok (Clients.ValidateManagementToken token) = true.
Proof.
  unfold Clients.GenerateManagementToken, RandRead, sys, call, mbind, HM_bind. cbn [files calls].
  destruct (h_fault H (calls w)); [done|]. cbn [mret HM_ret files fst snd]. intros [= <-]. split; [done|].
  unfold Clients.ValidateManagementToken. rewrite hex_token; [done|apply rnd_fills].
Qed.

Lemma enroll_prepared keygen invite tunnelID :
  htriple (λ _, True) (loadOrCreatePendingEnrollment H rnd exec keygen invite tunnelID)
    (λ r fs, ∀ p stage identity, r = Ok (p, stage, identity) →
       Clients.isHexID (Invite.InviteID invite) = true ∧ stage = enrollmentDirectory (Invite.InviteID invite) ∧
       identity = enrollmentIdentity (Invite.InviteID invite) ∧
       (Forall Json.ascii (pendingTexts p) → prepared (Invite.InviteID invite) tunnelID p fs)).
Proof.
  unfold loadOrCreatePendingEnrollment. set (id := Invite.InviteID invite).
  apply htriple_bind with (λ _ _, True); [by intros w _; destruct (MkdirAll _ _ _) as [[]]|intros _]. cbv zeta.
  destruct (Clients.isHexID id) eqn:Hid; [cbn [negb]|by intros w _]. pose proof (hexID_plain _ Hid) as Hn.
  apply htriple_bind with (λ r fs, ∀ p, r = Ok (Some p) → enrollment_at id p fs); [apply htriple_try, loaded_pending|].
  intros [[p|]|e]; [| |by intros w _].
  - destruct (_ || _) eqn:Hc; [by intros w _|]. apply orb_false_iff in Hc as [[Hi Ht]%orb_false_iff Hk].
    apply negb_false_iff in Hi, Ht, Hk. unfold eqs in Hi, Ht. apply bool_decide_eq_true in Hi, Ht.
    intros w Hw p' stage identity. specialize (Hw p eq_refl). unfold mbind, HM_bind.
    pose proof (verified_key (Filepath.Join (enrollmentDirectory id) "client") (pe_PublicKey p) "pending enrollment public key changed" w) as Hv.
    destruct (verifyPendingIdentityPublicKey _ _ _ _ w) as [[[]|e] w']; [|done]. destruct (Hv eq_refl) as [Hf Hpub].
    intros [= <- <- <-]. split_and!; [done..|]. intros _. cbn [snd] in *. change (prepared id tunnelID p (files w')).
    unfold prepared. rewrite Hf. by split_and!.
  - set (ident := Filepath.Join (enrollmentDirectory id) "client").
    apply htriple_bind with (λ key fs, ∃ pub, fs !! (ident ++ ".pub")%string = Some pub ∧ Strings.trim_space (to_string pub) = key).
    { intros w _. pose proof (created_key keygen (enrollmentDirectory id) ident ("warptweet-client-" ++ tunnelID) "generate client key" w) as Hk.
      destruct (createPendingClientIdentity _ _ _ _ _ _ _ w) as [[key|e] w']; [by apply Hk|done]. }
    intros key.
    apply htriple_bind with (λ token fs, (∃ pub, fs !! (ident ++ ".pub")%string = Some pub ∧ Strings.trim_space (to_string pub) = key) ∧
                                          is_ok (Clients.ValidateManagementToken token) = true).
    { intros w Hw. pose proof (generated_token w) as Hg. destruct (Clients.GenerateManagementToken _ _ w) as [[token|e] w']; [|done].
      destruct (Hg token eq_refl) as [Hf Ht]. cbn [snd] in *. by rewrite Hf. }
    intros token w [Hpub Htok]. rewrite now_is. cbv zeta. set (t := h_now H (calls w)).
    set (p := mkPendingEnrollment id tunnelID (generationStamp t) key token). unfold mbind, HM_bind.
    destruct (enrollment_written id p (mkWorld (files w) (S (calls w))) Hn) as [Hat Hkept].
    destruct (writePendingJSONState H (enrollmentState id) (pendingEnrollmentJSON p) _) as [[[]|e] w']; [|done].
    intros p' stage identity [= <- <- <-]. split_and!; [done..|]. intros Ha. cbn [snd] in *. change (prepared id tunnelID p (files w')). split_and!; [done|done|done| |].
    + destruct Hpub as (pub & Hpub & Hk). exists pub. split; [by apply Hkept|done].
    + by apply Hat.
Qed.

Lemma prepared_retry keygen invite tunnelID p w :
  faultless H → Clients.isHexID (Invite.InviteID invite) = true → prepared (Invite.InviteID invite) tunnelID p (files w) →
  files w !! Filepath.Join enrollmentReceiptDir "pending-enrollment" = None →
  (loadOrCreatePendingEnrollment H rnd exec keygen invite tunnelID w).1
    = Ok (p, enrollmentDirectory (Invite.InviteID invite), enrollmentIdentity (Invite.InviteID invite)).
Proof.
  intros Hfl Hid (Hi & Ht & Hk & (pub & Hpub & Hkey) & (raw & Hraw & Hd)) Hdir. unfold loadOrCreatePendingEnrollment.
  set (id := Invite.InviteID invite) in *. set (dir := Filepath.Join enrollmentReceiptDir "pending-enrollment") in *.
  pose proof (within_mkdirAll_at H (λ q, q = dirMark dir) dir eq_refl w) as Hm.
  assert ((MkdirAll H dir w).1 = Ok ()) as Hok.
  { unfold MkdirAll, sys, call, get_files, set_files, mbind, HM_bind. rewrite Hfl. cbn [mret HM_ret files calls].
    unfold isFile. rewrite Hdir, bool_decide_eq_false_2 by (by intros [? ?]). by destruct (occupied _ _). }
  unfold mbind at 1, HM_bind at 1. destruct (MkdirAll H dir w) as [[[]|e] w1]; [|done]. cbn [fst snd] in *. rewrite Hid. cbn [negb].
  pose proof (hexID_plain _ Hid) as Hn. destruct (state_not_mark id Hn) as [Hs1 Hs2].
  rewrite <- (Hm _ Hs1) in Hraw. rewrite <- (Hm _ Hs2) in Hpub.
  unfold loadPendingJSONState, verifyPendingIdentityPublicKey, htry, ReadFile, sys, call, get_files, mbind, HM_bind. rewrite !Hfl.
  cbn [mret HM_ret files calls]. rewrite Hraw. cbn [mret HM_ret files calls]. rewrite Hd. cbn [hlift mret HM_ret].
  unfold eqs. rewrite Hi, Ht, !bool_decide_eq_true_2, Hk by done. cbn [negb orb]. rewrite Hfl. cbn [mret HM_ret files calls].
  change (Filepath.Join (enrollmentDirectory id) "client") with (enrollmentIdentity id). rewrite Hpub. cbn [mret HM_ret files calls].
  rewrite bool_decide_eq_true_2 by done. reflexivity.
Qed.
End enroll.

(** C33: an enrollment that is tried again is the same enrollment.  Once the
    pending state of an invite has been prepared, every later attempt that
    finds its two files offers the host the same key, token and generation,
    whatever the later command would have generated. *)
Theorem pending_enrollment_stable {CR : Crypto} H rnd exec H' rnd' exec' keygen keygen' invite tunnelID pending stage identity w w1 w2 :
  (∀ k n, length (rnd k n) = n) → faultless H' → Forall Json.ascii (pendingTexts pending) →
  loadOrCreatePendingEnrollment H rnd exec keygen invite tunnelID w = (Ok (pending, stage, identity), w1) →
  files w2 !! Filepath.Join enrollmentReceiptDir "pending-enrollment" = None →
  files w2 !! Filepath.Join stage "enrollment.json" = files w1 !! Filepath.Join stage "enrollment.json" →
  files w2 !! (identity ++ ".pub")%string = files w1 !! (identity ++ ".pub")%string →
  (loadOrCreatePendingEnrollment H' rnd' exec' keygen' invite tunnelID w2).1 = Ok (pending, stage, identity).
Proof.
  intros Hr Hfl Ha E Hdir Hs Hp. pose proof (enroll_prepared H rnd exec Hr keygen invite tunnelID w I) as Hpre. rewrite E in Hpre.
  destruct (Hpre _ _ _ eq_refl) as (Hid & -> & -> & Hprep). apply prepared_retry; [done|done| |done].
  specialize (Hprep Ha). destruct Hprep as (Hi & Ht & Hk & Hpub & Hat). unfold prepared, enrollment_at, pending_at.
  change (Filepath.Join (enrollmentDirectory (Invite.InviteID invite)) "enrollment.json") with (enrollmentState (Invite.InviteID invite)) in Hs.
  rewrite Hs, Hp. by split_and!.
Qed.
