(* ===== verification/HostSigner.v ===== *)
(** * internal/opensshkey and internal/hostsign: the key of the host

    The private half of the host key stays in one process: [hostsign.Serve]
    reads it from an OpenSSH private key file and answers requests to sign, one
    per connection to a local socket, and the data plane signs through
    [hostsign.Client].  A connection is what the peer has sent before it stops;
    an answer is what the server writes.  [encoding/pem] and the credentials of
    the peer are arguments.  The accept loop and its table of open connections
    are not modelled. *)

From S2P Require Import Prelude GoStd Json SshWire Crypto Time Host Locator ClientStore.
Import Json BigEndian SshWire Composite ClientStore.

(** ** internal/opensshkey *)
Module OpensshKey.

Definition authMagic : bytes := to_bytes "openssh-key-v1" ++ [bz 0].
Definition pemType : string := "OPENSSH PRIVATE KEY".
Definition Algorithm : string := "ssh-mldsa44-ed25519@openssh.com".

Definition consumeUint32 (input : bytes) : result (bytes * Z) :=
  if blen input <? 4 then Err (EMsg "truncated OpenSSH uint32") else Ok (drop 4 input, u32 input).

(** [pem.Decode] gives the type and the bytes of the first block and what
    follows it; [pem.EncodeToMemory]. *)
Record pemCodec := mkPem {
  pemDecode : bytes → option (string * bytes * bytes);
  pemEncode : string → bytes → bytes;
}.

Section key.
Context {CR : Crypto} (P : pemCodec).

(** The bytes 1, 2, 3, ..., as many as a multiple of eight wants. *)
Definition padding (n : nat) : bytes := (λ i, bz (Z.of_nat (S i))) <$> seq 0 n.
Definition paddedTo8 (priv : bytes) : bytes := priv ++ padding (Z.to_nat (- blen priv mod 8)).
Definition outerBlob (pub : bytes) : bytes := AppendString (AppendString [] (to_bytes Algorithm)) pub.
Definition privateBody (check pub secret comment : bytes) : bytes :=
  AppendString (AppendString (AppendString (AppendString (check ++ check) (to_bytes Algorithm)) pub) secret) comment.

(** With the check bytes from [rand.Read]. *)
Definition MarshalPrivate (key : PrivateKey) (comment : string) (random : result bytes) : result bytes :=
  pub ← Public key;
  check ← random;
  let priv := paddedTo8 (privateBody check pub (Secret key) (to_bytes comment)) in
  let body := AppendString (AppendString (AppendString authMagic (to_bytes "none")) (to_bytes "none")) [] in
  let body := AppendString (AppendString (body ++ put32 1) (outerBlob pub)) priv in
  Ok (pemEncode P pemType body).

Fixpoint checkPadding (i : nat) (b : bytes) : bool :=
  match b with
  | [] => true
  | c :: rest => bool_decide (c = bz (Z.of_nat (S i))) && checkPadding (S i) rest
  end.

(** What follows the check integers of the private section. *)
Definition parseKey (outerPub priv : bytes) : result PrivateKey :=
  '(priv, alg) ← ConsumeString priv;
  if negb (bool_decide (to_string alg = Algorithm)) then Err (EMsg ("host key algorithm " ++ to_string alg))
  else
    '(priv, pub) ← ConsumeString priv;
    '(priv, sk) ← ConsumeString priv;
    '(priv, _) ← ConsumeString priv;
    if negb (checkPadding 0 priv) then Err (EMsg "invalid OpenSSH private key padding")
    else
      key ← NewPrivateKey sk;
      wantPub ← Public key;
      if negb (bool_decide (wantPub = pub)) then Err (EMsg "OpenSSH private key public mismatch")
      else if negb (bool_decide (outerPub = outerBlob wantPub))
      then Err (EMsg "OpenSSH private key outer public blob mismatch")
      else Ok key.

Definition parseBody (body : bytes) : result PrivateKey :=
  if negb (bool_decide (take (length authMagic) body = authMagic)) then Err (EMsg "missing openssh-key-v1 magic")
  else
    let rest := drop (length authMagic) body in
    '(rest, cipher) ← ConsumeString rest;
    '(rest, kdf) ← ConsumeString rest;
    if negb (bool_decide (to_string cipher = "none"%string)) || negb (bool_decide (to_string kdf = "none"%string))
    then Err (EMsg "WarpTweet host keys must be unencrypted")
    else
      '(rest, _) ← ConsumeString rest;
      '(rest, nkeys) ← consumeUint32 rest;
      if negb (nkeys =? 1) then Err (EMsg ("OpenSSH private key has " ++ Strings.itoa nkeys ++ " keys, want 1"))
      else
        '(rest, outerPub) ← ConsumeString rest;
        '(rest, priv) ← ConsumeString rest;
        if negb (blen rest =? 0) then Err (EMsg "trailing data after OpenSSH private key")
        else if blen priv <? 8 then Err (EMsg "truncated private key body")
        else if negb (bool_decide (take 4 priv = take 4 (drop 4 priv)))
        then Err (EMsg "private key check integers mismatch")
        else parseKey outerPub (drop 8 priv).

Definition ParsePrivate (pemBytes : bytes) : result PrivateKey :=
  match pemDecode P pemBytes with
  | Some (type_, body, rest) =>
      if negb (bool_decide (type_ = pemType)) || negb (bool_decide (Strings.trim_space (to_string rest) = ""%string))
      then Err (EMsg "not an OpenSSH private key") else parseBody body
  | None => Err (EMsg "not an OpenSSH private key")
  end.

End key.
End OpensshKey.

(** ** internal/hostsign *)
Module Hostsign.

Definition ProtocolVersion : Z := 1.
Definition maxFrame : Z := 16 * 1024.
Definition OpPublic : string := "public".
Definition OpSign : string := "sign".

Record Request := mkRequest { q_Version : Z; Op : string; Message : bytes }.
Record Response := mkResponse { r_Version : Z; r_Public : bytes; Signature : bytes; Error : string }.
Definition zeroRequest : Request := mkRequest 0 "" [].
Definition zeroResponse : Response := mkResponse 0 [] [] "".
Definition set_q_Version (v : Z) (q : Request) : Request := mkRequest v (Op q) (Message q).
Definition set_Op (v : string) (q : Request) : Request := mkRequest (q_Version q) v (Message q).
Definition set_Message (v : bytes) (q : Request) : Request := mkRequest (q_Version q) (Op q) v.
Definition set_r_Version (v : Z) (r : Response) : Response := mkResponse v (r_Public r) (Signature r) (Error r).
Definition set_r_Public (v : bytes) (r : Response) : Response := mkResponse (r_Version r) v (Signature r) (Error r).
Definition set_Signature (v : bytes) (r : Response) : Response := mkResponse (r_Version r) (r_Public r) v (Error r).
Definition set_Error (v : string) (r : Response) : Response := mkResponse (r_Version r) (r_Public r) (Signature r) v.

(** A [[]byte] field: base64 text, null, or an array of bytes, whose null
    elements keep what was there. *)
Fixpoint byteElements (old : bytes) (l : list json) : result bytes :=
  match l with
  | [] => Ok []
  | v :: rest =>
      x ← uint_field 8 (λ n _, n) v (match old with c :: _ => zb c | [] => 0 end);
      more ← byteElements (tail old) rest;
      Ok (bz x :: more)
  end.
Definition bytes_field {A} (get : A → bytes) (set : bytes → A → A) (v : json) (a : A) : result A :=
  match v with
  | JStr s => b ← Base64.decode false s; Ok (set b a)
  | JNull => Ok (set [] a)
  | JArr l => b ← byteElements (get a) l; Ok (set b a)
  | _ => typeError
  end.
Definition requestFields : list (field Request) :=
  [("v", uint_field 32 set_q_Version); ("op", string_field set_Op); ("msg", bytes_field Message set_Message)]%string.
Definition responseFields : list (field Response) :=
  [("v", uint_field 32 set_r_Version); ("public", bytes_field r_Public set_r_Public);
   ("sig", bytes_field Signature set_Signature); ("error", string_field set_Error)]%string.

Definition omitbytes (name : string) (b : bytes) : list (string * json) :=
  match b with [] => [] | _ => [(name, JStr (Base64.encode_to_string b))] end.
Definition requestJSON (q : Request) : json :=
  JObj ([("v", JInt (q_Version q)); ("op", JStr (Op q))]%string ++ omitbytes "msg" (Message q)).
Definition responseJSON (r : Response) : json :=
  JObj ([("v"%string, JInt (r_Version r))] ++ omitbytes "public" (r_Public r) ++ omitbytes "sig" (Signature r)
        ++ omitempty "error" (Error r)).

(** What is written for a frame; nothing when it is too long. *)
Definition writeFrame (payload : bytes) : result bytes :=
  if maxFrame <? blen payload then Err (EMsg "hostsign frame is too long") else Ok (put32 (wrap32 (blen payload)) ++ payload).
Definition readFrame (input : bytes) : result bytes :=
  if blen input <? 4 then Err (EMsg "unexpected EOF")
  else
    let n := u32 input in
    if (n =? 0) || (maxFrame <? n) then Err (EMsg ("hostsign frame length " ++ Strings.itoa n ++ " is invalid"))
    else if blen input - 4 <? n then Err (EMsg "unexpected EOF")
    else Ok (take (Z.to_nat n) (drop 4 input)).

(** [peer_linux.go]: the user id of the peer, from the socket. *)
Definition authorizePeer (allowUID : Z) (cred : result Z) : result () :=
  if allowUID <? 0 then Ok ()
  else
    uid ← cred;
    if negb (uid =? allowUID) then Err (EMsg ("peer uid " ++ Strings.itoa uid ++ " is not allowed")) else Ok ().

Section server.
Context {CR : Crypto} (key : PrivateKey) (rnd : bytes).

Definition writeResponse (r : Response) : bytes :=
  match writeFrame (print (responseJSON r)) with Ok out => out | Err _ => [] end.
Definition writeError (message : string) : bytes := writeResponse (mkResponse ProtocolVersion [] [] message).

Definition answer (q : Request) : bytes :=
  if negb (q_Version q =? ProtocolVersion) then writeError "unsupported version"
  else if bool_decide (Op q = OpPublic) then
    match Public key with
    | Err e => writeError (errText e)
    | Ok pub => writeResponse (mkResponse ProtocolVersion pub [] "")
    end
  else if bool_decide (Op q = OpSign) then
    if (blen (Message q) =? 0) || (256 <? blen (Message q)) then writeError "invalid message"
    else match Sign key (Message q) rnd with
    | Err e => writeError (errText e)
    | Ok sig => writeResponse (mkResponse ProtocolVersion [] sig "")
    end
  else writeError ("unknown op " ++ Op q).

(** What the server writes to a peer that sends [input]. *)
Definition serveConn (allowUID : Z) (cred : result Z) (input : bytes) : bytes :=
  match authorizePeer allowUID cred with
  | Err e => writeError (errText e)
  | Ok _ =>
      match readFrame input with
      | Err _ => []
      | Ok raw => match unmarshal requestFields zeroRequest raw with
                  | Err _ => writeError "invalid request"
                  | Ok q => answer q
                  end
      end
  end.

End server.

(** The key that [Serve] answers with. *)
Definition loadKey (H : hostEnv) (P : OpensshKey.pemCodec) {CR : Crypto} (keyPath : string) : HM PrivateKey :=
  pem ← ReadFile H keyPath; hlift (OpensshKey.ParsePrivate P pem).

(** ** The client *)
Section client.
(** [net.Dial]: the connection answers what is written, or the write fails. *)
Context (dial : result (bytes → result bytes)).

Definition readResponse (received : bytes) : result Response :=
  reply ← readFrame received;
  resp ← unmarshal responseFields zeroResponse reply;
  if negb (bool_decide (Error resp = ""%string)) then Err (EMsg ("hostsign: " ++ Error resp)) else Ok resp.
Definition roundTrip (conn : bytes → result bytes) (q : Request) : result Response :=
  out ← writeFrame (print (requestJSON q));
  received ← conn out;
  readResponse received.
Definition call (q : Request) : result Response := conn ← dial; roundTrip conn q.

Definition ClientPublic : result bytes :=
  resp ← call (mkRequest ProtocolVersion OpPublic []);
  if blen (r_Public resp) =? 0 then Err (EMsg "hostsign returned an empty public key") else Ok (r_Public resp).
Definition ClientSign (message : bytes) : result bytes :=
  resp ← call (mkRequest ProtocolVersion OpSign message);
  if blen (Signature resp) =? 0 then Err (EMsg "hostsign returned an empty signature") else Ok (Signature resp).

End client.

End Hostsign.

(** ** The host key file and the signer

    Which files are host keys, and that the data plane signs with the host's
    key through the signer. *)

From S2P Require Import Prelude GoStd Json Text SshWire Crypto Time Host Locator Grant GrantProps ClientStore ClientCodec.
From S2P Require Import RouteCodec Packet Kex Sample.
Import Json BigEndian SshWire Composite ClientStore.
Import OpensshKey Hostsign.

(** ** Key files *)

Lemma padding_S n : padding (S n) = padding n ++ [bz (Z.of_nat (S n))].
Proof. unfold padding. by rewrite seq_S, fmap_app. Qed.
Lemma length_padding n : length (padding n) = n.
Proof. unfold padding. by rewrite length_fmap, length_seq. Qed.
Lemma checkPadding_exact b : ∀ i, checkPadding i b = true ↔ b = (λ j, bz (Z.of_nat (S j))) <$> seq i (length b).
Proof.
  induction b as [|c b IH]; intros i; [done|]. cbn [checkPadding length seq fmap list_fmap].
  rewrite andb_true_iff, bool_decide_eq_true, IH. split; [intros [-> ->]|intros [= -> Hb]; by split].
  f_equal. by rewrite length_fmap, length_seq.
Qed.

(** One string after another. *)
Lemma consume_iff input rest value :
  ConsumeString input = Ok (rest, value) ↔ input = AppendString [] value ++ rest ∧ blen value < 2 ^ 32.
Proof. split; [apply ConsumeString_Ok|]. intros [-> Hv]. by apply ConsumeString_AppendString. Qed.

Section keys.
Context {CR : Crypto}.

(** A key of two seeds of 32 bytes, as [NewPrivateKey] makes it. *)
Definition wf_key (key : PrivateKey) : Prop := length (mldsaSeed key) = 32%nat ∧ length (ed25519Seed key) = 32%nat.
Lemma new_key_iff sk key : NewPrivateKey sk = Ok key ↔ wf_key key ∧ sk = Secret key.
Proof.
  split; [|intros [[H1 H2] ->]; by apply NewPrivateKey_Secret].
  unfold NewPrivateKey. destruct (blen sk =? SecretKeySize) eqn:E; [|done]. cbn [negb]. intros <-%Ok_inj. zbool.
  unfold blen, SecretKeySize in E. split; [split; cbn; rewrite ?length_take, ?length_drop; lia|].
  unfold Secret. cbn. by rewrite take_drop.
Qed.

(** The private section after its check integers. *)
Definition key_section (key : PrivateKey) (outerPub priv : bytes) : Prop :=
  ∃ pub comment n, wf_key key ∧ Public key = Ok pub ∧ outerPub = outerBlob pub ∧ blen pub < 2 ^ 32 ∧ blen comment < 2 ^ 32 ∧
    priv = AppendString [] (to_bytes Algorithm) ++ AppendString [] pub ++ AppendString [] (Secret key)
           ++ AppendString [] comment ++ padding n.
Lemma parseKey_iff key outerPub priv : parseKey outerPub priv = Ok key ↔ key_section key outerPub priv.
Proof.
  unfold parseKey. split.
  - intros ([p1 alg] & [-> _]%consume_iff & Hk)%bind_Ok. case_bool_decide as Ha; [|done]. cbn [negb] in Hk.
    apply bind_Ok in Hk as ([p2 pub] & [-> Hpub]%consume_iff & Hk). apply bind_Ok in Hk as ([p3 sk] & [-> Hsk]%consume_iff & Hk).
    apply bind_Ok in Hk as ([p4 comment] & [-> Hc]%consume_iff & Hk). destruct (checkPadding 0 p4) eqn:Hpad; [|done]. cbn [negb] in Hk.
    apply bind_Ok in Hk as (key' & [Hw ->]%new_key_iff & Hk). apply bind_Ok in Hk as (want & Hwant & Hk).
    case_bool_decide as E1; [|done]. case_bool_decide as E2; [|done]. apply Ok_inj in Hk as <-. subst want outerPub.
    apply checkPadding_exact in Hpad. exists pub, comment, (length p4). split_and!; [done..|].
    rewrite <- Ha, to_bytes_string. unfold padding. by rewrite <- Hpad.
  - intros (pub & comment & n & Hw & Hp & -> & Hpub & Hc & ->).
    assert (ConsumeString_eq : ∀ v rest, blen v < 2 ^ 32 → ConsumeString (AppendString [] v ++ rest) = Ok (rest, v))
      by (intros; by apply ConsumeString_AppendString).
    rewrite ConsumeString_eq by done. cbn [mbind result_bind]. rewrite to_string_bytes, bool_decide_eq_true_2 by done. cbn [negb].
    rewrite ConsumeString_eq by done. cbn [mbind result_bind]. rewrite ConsumeString_eq.
    2: { unfold Secret. rewrite blen_app. unfold blen. destruct Hw as [-> ->]. lia. }
    cbn [mbind result_bind]. rewrite ConsumeString_eq by done. cbn [mbind result_bind].
    rewrite (proj2 (checkPadding_exact (padding n) 0)) by (by rewrite length_padding). cbn [negb].
    rewrite (proj2 (new_key_iff (Secret key) key)) by done. cbn [mbind result_bind]. rewrite Hp. cbn [mbind result_bind].
    by rewrite !bool_decide_eq_true_2.
Qed.

(** The bytes of an unencrypted key file with one key. *)
Definition key_file (key : PrivateKey) (body : bytes) : Prop :=
  ∃ options check outerPub section,
    length check = 4%nat ∧ blen options < 2 ^ 32 ∧ blen outerPub < 2 ^ 32 ∧ blen (check ++ check ++ section) < 2 ^ 32 ∧
    key_section key outerPub section ∧
    body = authMagic ++ AppendString [] (to_bytes "none") ++ AppendString [] (to_bytes "none") ++ AppendString [] options
           ++ put32 1 ++ AppendString [] outerPub ++ AppendString [] (check ++ check ++ section).

Lemma uint32_iff input rest n : consumeUint32 input = Ok (rest, n) ↔ input = put32 n ++ rest ∧ 0 ≤ n < 2 ^ 32.
Proof.
  unfold consumeUint32. split.
  - destruct (blen input <? 4) eqn:E; [done|]. zbool. intros [= <- <-]. pose proof (u32_range input) as Hr. split; [|done].
    rewrite <- (take_drop 4 input) at 1. f_equal. symmetry. apply put32_de. rewrite length_take. unfold blen in *. lia.
  - intros [-> Hn]. rewrite blen_app, blen_put32. pose proof (blen_nonneg rest). rewrite (proj2 (Z.ltb_ge _ _)) by lia.
    rewrite u32_put32 by done. by rewrite drop_app_length' by (symmetry; apply length_be).
Qed.

Lemma parseBody_iff key body : parseBody body = Ok key ↔ key_file key body.
Proof.
  unfold parseBody, key_file. split.
  - case_bool_decide as Hm; [|done]. cbn [negb]. cbv zeta.
    intros ([r1 cipher] & [E1 _]%consume_iff & Hk)%bind_Ok. apply bind_Ok in Hk as ([r2 kdf] & [-> _]%consume_iff & Hk).
    case_bool_decide as Hc; [|done]. case_bool_decide as Hd; [|done]. cbn [negb orb] in Hk.
    apply bind_Ok in Hk as ([r3 options] & [-> Ho]%consume_iff & Hk). apply bind_Ok in Hk as ([r4 nkeys] & [-> _]%uint32_iff & Hk).
    destruct (Z.eqb_spec nkeys 1) as [->|]; [|done]. cbn [negb] in Hk.
    apply bind_Ok in Hk as ([r5 outerPub] & [-> Hp]%consume_iff & Hk). apply bind_Ok in Hk as ([r6 priv] & [-> Hpr]%consume_iff & Hk).
    destruct (blen r6 =? 0) eqn:E6; [|done]. assert (r6 = []) as -> by (destruct r6; [done|]; unfold blen in E6; cbn in E6; lia).
    cbn [negb] in Hk. destruct (blen priv <? 8) eqn:E8; [done|]. case_bool_decide as He; [|done]. cbn [negb] in Hk.
    apply parseKey_iff in Hk. exists options, (take 4 priv), outerPub, (drop 8 priv).
    assert (take 4 priv ++ take 4 priv ++ drop 8 priv = priv) as Epriv.
    { rewrite He at 2. change (drop 8 priv) with (drop (4 + 4) priv). rewrite <- drop_drop, !take_drop. done. }
    rewrite Epriv. split_and!; [rewrite length_take; unfold blen in *; lia|done..|].
    assert (∀ b s, to_string b = s → b = to_bytes s) as Htext by (intros b s <-; by rewrite to_bytes_string).
    rewrite (Htext _ _ Hc), (Htext _ _ Hd) in E1. rewrite <- (take_drop (length authMagic) body), Hm, E1. by rewrite app_nil_r.
  - intros (options & check & outerPub & section & Hl & Ho & Hp & Hs & Hk%parseKey_iff & ->).
    rewrite take_app_length, bool_decide_eq_true_2, drop_app_length by done. cbn [negb]. cbv zeta.
    rewrite ConsumeString_AppendString by done. cbn [mbind result_bind]. rewrite ConsumeString_AppendString by done. cbn [mbind result_bind].
    rewrite to_string_bytes, bool_decide_eq_true_2 by done. cbn [negb orb].
    rewrite ConsumeString_AppendString by done. cbn [mbind result_bind].
    rewrite (proj2 (uint32_iff _ _ 1) (conj eq_refl (conj (Z.le_0_1) eq_refl))). cbn [mbind result_bind]. rewrite Z.eqb_refl. cbn [negb].
    rewrite ConsumeString_AppendString by done. cbn [mbind result_bind].
    rewrite <- (app_nil_r (AppendString [] (check ++ check ++ section))), ConsumeString_AppendString by done. cbn [mbind result_bind].
    change (blen [] =? 0) with true. cbn [negb]. rewrite (proj2 (Z.ltb_ge _ _)) by (unfold blen; rewrite !length_app; lia).
    rewrite take_app_length', drop_app_length', take_app_length' by done. rewrite bool_decide_eq_true_2 by done. cbn [negb].
    rewrite app_assoc, drop_app_length' by (rewrite length_app; lia). exact Hk.
Qed.
End keys.

(** C35: exactly the unencrypted OpenSSH files with one composite key are host
    keys.  [ParsePrivate] returns a key if and only if the text is a PEM block
    of the right type with nothing but blanks after it, whose bytes are the
    magic, no cipher, no key derivation, one key, the public blob of that key,
    and a private section with equal check integers, the algorithm, the public
    key that belongs to the two seeds, the seeds, any comment, and the padding
    1, 2, 3, ... *)
Theorem hostkey_exact {CR : Crypto} (P : pemCodec) text key :
  ParsePrivate P text = Ok key ↔
  ∃ body rest, pemDecode P text = Some (pemType, body, rest) ∧ Strings.trim_space (to_string rest) = ""%string ∧ key_file key body.
Proof.
  unfold ParsePrivate. split.
  - destruct (pemDecode P text) as [[[t body] rest]|]; [|done]. case_bool_decide as Ht; [|done]. case_bool_decide as Hr; [|done].
    cbn [negb orb]. intros Hk%parseBody_iff. subst t. by exists body, rest.
  - intros (body & rest & -> & -> & Hk). rewrite !bool_decide_eq_true_2 by done. cbn [negb orb]. by apply parseBody_iff.
Qed.

(** What [MarshalPrivate] writes is read back. *)
Theorem hostkey_roundtrip {CR : Crypto} `{!CryptoLaws} (P : pemCodec) key comment check text :
  (∀ type_ body, pemDecode P (pemEncode P type_ body) = Some (type_, body, [])) →
  wf_key key → length check = 4%nat → slen comment < 2 ^ 31 →
  MarshalPrivate P key comment (Ok check) = Ok text → ParsePrivate P text = Ok key.
Proof.
  intros Hpem Hw Hch Hco (pub & Hpub & Ht)%bind_Ok. apply Ok_inj in Ht as <-. unfold ParsePrivate. rewrite Hpem.
  rewrite !bool_decide_eq_true_2 by done. cbn [negb orb]. apply parseBody_iff.
  assert (blen pub = 1344) as Hl.
  { unfold Public in Hpub. apply bind_Ok in Hpub as (mk & _ & Hpub). apply Ok_inj in Hpub as <-. rewrite blen_app. unfold blen.
    by rewrite mldsa_PublicBytes_len, ed25519_public_len. }
  assert (blen (Secret key) = 64) as Hs by (unfold Secret; rewrite blen_app; unfold blen; destruct Hw as [-> ->]; done).
  set (priv := privateBody check pub (Secret key) (to_bytes comment)). set (n := Z.to_nat (- blen priv mod 8)).
  assert (paddedTo8 priv = check ++ check ++ (AppendString [] (to_bytes Algorithm) ++ AppendString [] pub ++ AppendString [] (Secret key)
            ++ AppendString [] (to_bytes comment) ++ padding n)) as ->.
  { unfold paddedTo8. fold n. unfold priv, privateBody. rewrite !(AppendString_app (_ ++ _)), <- !app_assoc. reflexivity. }
  assert (blen (padding n) < 8) as Hpad.
  { unfold blen. rewrite length_padding. unfold n. pose proof (Z.mod_pos_bound (- blen priv) 8). lia. }
  eexists [], check, (outerBlob pub), _. split_and!; [done|done| | |exists pub, (to_bytes comment), n; split_and!|].
  8: reflexivity.
  8: { unfold authMagic. rewrite !(AppendString_app (_ ++ _)), <- !app_assoc. reflexivity. }
  3-5: done.
  - unfold outerBlob. rewrite AppendString_app, blen_app. unfold blen in *. rewrite !AppendString_length. change (length (to_bytes Algorithm)) with 31%nat. lia.
  - rewrite !blen_app. unfold blen in *. rewrite !AppendString_length, Hch, !length_to_bytes. unfold slen in Hco.
    change (String.length Algorithm) with 31%nat. lia.
  - lia.
  - rewrite blen_to_bytes. lia.
Qed.

(** ** The signer *)

Lemma base64_unquoted b : Forall (λ c, quote_ascii c = [c]) (Base64.encode b).
Proof.
  assert (∀ n, 0 ≤ n < 64 → quote_ascii (Base64.enc6 n) = [Base64.enc6 n]) as He.
  { intros n Hn. assert (forallb (λ k, bool_decide (quote_ascii (Base64.enc6 (Z.of_nat k)) = [Base64.enc6 (Z.of_nat k)])) (seq 0 64) = true)
      as Hall by (vm_compute; reflexivity).
    rewrite forallb_forall in Hall. specialize (Hall (Z.to_nat n)). rewrite Z2Nat.id in Hall by lia.
    apply (bool_decide_eq_true_1 _), Hall, in_seq. lia. }
  assert (quote_ascii Base64.pad = [Base64.pad]) by reflexivity.
  induction b as [|x|x y|x y z r IH] using Base64.three_ind; cbn [Base64.encode]; Base64.quantum;
    repeat match goal with |- Forall _ _ => constructor end; auto; apply He; dlia.
Qed.

Lemma base64_ascii b : ascii (Base64.encode_to_string b).
Proof.
  unfold ascii, Base64.encode_to_string. rewrite to_bytes_string. eapply List.Forall_impl; [|apply base64_visible].
  intros c Hc. unfold visible in Hc. lia.
Qed.
Lemma print_base64 b : blen (print_string (Base64.encode_to_string b)) = Base64.encoded_len (blen b) + 2.
Proof.
  unfold print_string. rewrite runes_ascii by apply base64_ascii. unfold Base64.encode_to_string. rewrite to_bytes_string.
  rewrite <- Base64.length_encode. rewrite !blen_app.
  assert (concat (quote_rune <$> ((λ c, (zb c, [c])) <$> Base64.encode b)) = Base64.encode b) as ->.
  { pose proof (base64_visible b) as Hv. induction (base64_unquoted b) as [|c l Hc _ IH]; [done|].
    apply List.Forall_cons_iff in Hv as [Hv1 Hv]. cbn [fmap list_fmap concat]. rewrite IH by done.
    unfold quote_rune. cbn [snd]. unfold visible in Hv1. by rewrite (proj2 (Z.ltb_lt _ _)), Hc by lia. }
  change (blen [bz 34]) with 1. lia.
Qed.

Lemma frame_roundtrip p out : writeFrame p = Ok out → 0 < blen p → readFrame out = Ok p.
Proof.
  unfold writeFrame, readFrame. destruct (maxFrame <? blen p) eqn:E; [done|]. zbool. intros <-%Ok_inj Hp.
  unfold maxFrame in *. unfold wrap32. rewrite Z.mod_small by lia. rewrite blen_app, blen_put32, u32_put32 by lia.
  rewrite (proj2 (Z.ltb_ge _ _)), (proj2 (Z.eqb_neq _ _)), (proj2 (Z.ltb_ge _ _)), (proj2 (Z.ltb_ge _ _)) by lia. cbn [orb].
  rewrite drop_app_length' by (symmetry; apply length_be). f_equal. apply take_ge. unfold blen. lia.
Qed.

Lemma decode_omitbytes {A} (fs : list (field A)) name b get set a :
  select fs name = Some (bytes_field get set) → set [] a = a → decode_members true fs (omitbytes name b) a = Ok (set b a).
Proof.
  intros Hs H0. destruct b as [|c b]; [by cbn; rewrite H0|]. unfold omitbytes. cbn [decode_members]. rewrite Hs.
  unfold bytes_field. by rewrite Base64.decode_encode.
Qed.

Lemma wf_omitbytes d name b : ascii name → wf_members d (omitbytes name b).
Proof. intros Hn. destruct b; [constructor|]. constructor; [|constructor]. split; [done|]. apply base64_ascii. Qed.
Lemma request_codec q :
  0 ≤ q_Version q < 2 ^ 32 → ascii (Op q) → unmarshal requestFields zeroRequest (print (requestJSON q)) = Ok q.
Proof.
  intros Hv Ho. unfold unmarshal, parse_all, requestJSON. rewrite <- (app_nil_r (print _)).
  rewrite parse_print; [|apply wf_obj; [done|apply Forall_app; split; [plain_members|apply wf_omitbytes; by apply ascii_forallb]]|done].
  cbn [mbind result_bind]. apply decode_lenient. cbn [decode]. destruct q as [v o m]. cbn [q_Version Op Message app] in *. members.
  by erewrite (decode_omitbytes requestFields _ _ Message) by reflexivity.
Qed.
Lemma response_codec r :
  0 ≤ r_Version r < 2 ^ 32 → ascii (Error r) → unmarshal responseFields zeroResponse (print (responseJSON r)) = Ok r.
Proof.
  intros Hv Ho. unfold unmarshal, parse_all, responseJSON. rewrite <- (app_nil_r (print _)).
  rewrite parse_print; [|apply wf_obj; [done|]|done].
  2: { repeat (apply Forall_app; split); [plain_members|apply wf_omitbytes; by apply ascii_forallb..|].
       by apply wf_omit; [apply ascii_forallb|]. }
  cbn [mbind result_bind]. apply decode_lenient. cbn [decode]. destruct r as [v p s e]. cbn [r_Version r_Public Signature Error app] in *.
  members. rewrite decode_members_app. erewrite (decode_omitbytes responseFields _ _ r_Public) by reflexivity. cbn [mbind result_bind]. settle.
  rewrite decode_members_app. erewrite (decode_omitbytes responseFields _ _ Signature) by reflexivity. cbn [mbind result_bind]. settle.
  by erewrite decode_omit by reflexivity.
Qed.

(** The size of a message with one field of bytes. *)
Lemma print_two v1 v2 : blen (print (JObj [v1; v2])) = blen (print_string v1.1) + blen (print v1.2) + blen (print_string v2.1) + blen (print v2.2) + 5.
Proof. destruct v1 as [k1 v1], v2 as [k2 v2]. cbn [print List.map commas fst snd]. rewrite !blen_app. unfold blen. cbn [length]. lia. Qed.
Lemma print_three v1 v2 v3 :
  blen (print (JObj [v1; v2; v3])) = blen (print_string v1.1) + blen (print v1.2) + blen (print_string v2.1) + blen (print v2.2)
    + blen (print_string v3.1) + blen (print v3.2) + 7.
Proof. destruct v1 as [k1 v1], v2 as [k2 v2], v3 as [k3 v3]. cbn [print List.map commas fst snd]. rewrite !blen_app. unfold blen. cbn [length]. lia. Qed.

Lemma encoded_len_le n m : n ≤ m → Base64.encoded_len n ≤ Base64.encoded_len m.
Proof. intros Hn. unfold Base64.encoded_len. pose proof (Z.div_le_mono (n + 2) (m + 2) 3). lia. Qed.

Lemma print_positive m : 0 < blen (print (JObj m)).
Proof. cbn [print]. rewrite !blen_app. change (blen [bz 123]) with 1. pose proof (blen_nonneg (commas (List.map (λ '(k, x), print_string k ++ [bz 58] ++ print x) m))).
  pose proof (blen_nonneg [bz 125]). lia. Qed.

(** What the client makes of an answer. *)
Lemma read_written r :
  0 ≤ r_Version r < 2 ^ 32 → ascii (Error r) →
  readResponse (writeResponse r) =
    if maxFrame <? blen (print (responseJSON r)) then Err (EMsg "unexpected EOF")
    else if bool_decide (Error r = ""%string) then Ok r else Err (EMsg ("hostsign: " ++ Error r)).
Proof.
  intros Hv Ha. unfold writeResponse. destruct (writeFrame _) as [out|e] eqn:E.
  - unfold readResponse. rewrite (frame_roundtrip _ _ E) by apply print_positive. cbn [mbind result_bind]. rewrite response_codec by done.
    unfold writeFrame in E. destruct (maxFrame <? _); [done|]. cbn [mbind result_bind]. by case_bool_decide.
  - unfold writeFrame in E. destruct (maxFrame <? _); [reflexivity|done].
Qed.

Section signer.
Context {CR : Crypto} (key : PrivateKey) (rnd : bytes) (allowUID : Z) (cred : result Z).
Hypothesis peer : authorizePeer allowUID cred = Ok ().
Definition signer : result (bytes → result bytes) := Ok (λ sent, Ok (serveConn key rnd allowUID cred sent)).

Lemma call_signer q :
  q_Version q = ProtocolVersion → ascii (Op q) →
  call signer q = if maxFrame <? blen (print (requestJSON q)) then Err (EMsg "hostsign frame is too long")
                  else readResponse (answer key rnd q).
Proof using peer.
  intros Hv Ha. unfold call, signer, roundTrip. cbn [mbind result_bind]. destruct (writeFrame _) as [out|e] eqn:E.
  - cbn [mbind result_bind]. unfold serveConn. rewrite peer, (frame_roundtrip _ _ E) by apply print_positive.
    rewrite request_codec by (rewrite ?Hv; done). unfold writeFrame in E. by destruct (maxFrame <? _).
  - unfold writeFrame in E. destruct (maxFrame <? _); [by injection E as <-|done].
Qed.

Lemma Sign_length `{!CryptoLaws} message sig : Sign key message rnd = Ok sig → blen sig = SignatureSize.
Proof using.
  unfold Sign. intros (mk & _ & Hs)%bind_Ok. apply bind_Ok in Hs as (ms & _ & Hs).
  destruct (blen ms =? SignatureSize44) eqn:E; [|done]. cbn [negb] in Hs. apply Ok_inj in Hs as <-. zbool.
  rewrite blen_app, E. unfold blen at 1. rewrite ed25519_sign_len. reflexivity.
Qed.
Lemma Public_length `{!CryptoLaws} pub : Public key = Ok pub → blen pub = PublicKeySize.
Proof using.
  unfold Public. intros (mk & _ & Hp)%bind_Ok. apply Ok_inj in Hp as <-. rewrite blen_app. unfold blen.
  by rewrite mldsa_PublicBytes_len, ed25519_public_len.
Qed.

Lemma one_public pub : responseJSON (mkResponse ProtocolVersion pub [] "") = JObj (("v"%string, JInt 1) :: omitbytes "public" pub).
Proof using. unfold responseJSON. cbn [r_Version r_Public Signature Error omitbytes app]. by rewrite app_nil_r. Qed.
Lemma one_signature sig : responseJSON (mkResponse ProtocolVersion [] sig "") = JObj (("v"%string, JInt 1) :: omitbytes "sig" sig).
Proof using. unfold responseJSON. cbn [r_Version r_Public Signature Error omitbytes app]. by rewrite app_nil_r. Qed.

(** A response with one field of bytes arrives. *)
Lemma read_bytes r name b :
  responseJSON r = JObj (("v"%string, JInt 1) :: omitbytes name b) → r_Version r = 1 → Error r = ""%string →
  blen (print_string name) ≤ 16 → 0 < blen b ≤ 4096 → readResponse (writeResponse r) = Ok r.
Proof using.
  intros Hj Hv He Hn Hb. rewrite read_written; [|rewrite Hv; by vm_compute|rewrite He; constructor]. rewrite (bool_decide_eq_true_2 (Error r = _)) by done.
  rewrite (proj2 (Z.ltb_ge _ _)); [done|]. rewrite Hj. destruct b as [|c b]; [done|]. unfold omitbytes. rewrite print_two. cbn [fst snd].
  change (print (JStr (Base64.encode_to_string (c :: b)))) with (print_string (Base64.encode_to_string (c :: b))).
  rewrite print_base64. change (blen (print_string "v")) with 3. change (blen (print (JInt 1))) with 1.
  pose proof (encoded_len_le _ _ (proj2 Hb)). change (Base64.encoded_len 4096) with 5464 in *. unfold maxFrame. lia.
Qed.

Lemma public_signer `{!CryptoLaws} pub : Public key = Ok pub → ClientPublic signer = Ok pub.
Proof using peer.
  intros Hp. pose proof (Public_length _ Hp) as Hl. unfold ClientPublic. rewrite call_signer by (done || by apply ascii_forallb).
  change (maxFrame <? blen (print (requestJSON (mkRequest ProtocolVersion OpPublic [])))) with false. cbv iota.
  unfold answer. cbn [q_Version Op Message]. rewrite Z.eqb_refl, bool_decide_eq_true_2, Hp by done. cbn [negb].
  rewrite (read_bytes _ "public" pub); [|apply one_public|reflexivity|reflexivity|by vm_compute|rewrite Hl; by vm_compute].
  cbn [mbind result_bind r_Public]. rewrite Hl. reflexivity.
Qed.

Lemma sign_request_fits message : 0 < blen message ≤ 256 →
  (maxFrame <? blen (print (requestJSON (mkRequest ProtocolVersion OpSign message)))) = false.
Proof using.
  intros Hm. apply Z.ltb_ge. unfold requestJSON. cbn [q_Version Op Message app]. destruct message as [|c m]; [done|].
  unfold omitbytes. rewrite print_three. cbn [fst snd].
  change (print (JStr (Base64.encode_to_string (c :: m)))) with (print_string (Base64.encode_to_string (c :: m))). rewrite print_base64.
  pose proof (encoded_len_le _ _ (proj2 Hm)). change (Base64.encoded_len 256) with 344 in *.
  change (blen (print_string "v")) with 3. change (blen (print (JInt ProtocolVersion))) with 1. change (blen (print_string "op")) with 4.
  change (blen (print (JStr OpSign))) with 6. change (blen (print_string "msg")) with 5. unfold maxFrame. lia.
Qed.

Lemma sign_signer `{!CryptoLaws} message sig :
  0 < blen message ≤ 256 → Sign key message rnd = Ok sig → ClientSign signer message = Ok sig.
Proof using peer.
  intros Hm Hs. pose proof (Sign_length _ _ Hs) as Hl. unfold ClientSign. rewrite call_signer by (done || by apply ascii_forallb).
  rewrite sign_request_fits by done. unfold answer. cbn [q_Version Op Message]. rewrite Z.eqb_refl. cbn [negb].
  rewrite bool_decide_eq_false_2, bool_decide_eq_true_2 by done.
  rewrite (proj2 (Z.eqb_neq _ _)), (proj2 (Z.ltb_ge _ _)), Hs by lia. cbn [orb].
  rewrite (read_bytes _ "sig" sig); [|apply one_signature|reflexivity|reflexivity|by vm_compute|rewrite Hl; by vm_compute].
  cbn [mbind result_bind Signature]. rewrite Hl. reflexivity.
Qed.

Lemma refused_signer message sig :
  (∀ e, Sign key message rnd = Err e → ascii (errText e)) →
  ClientSign signer message = Ok sig → 0 < blen message ≤ 256 ∧ Sign key message rnd = Ok sig.
Proof using peer.
  intros Herr. unfold ClientSign. rewrite call_signer by (done || by apply ascii_forallb). destruct (maxFrame <? _); [done|].
  unfold answer. cbn [q_Version Op Message]. rewrite Z.eqb_refl. cbn [negb].
  rewrite bool_decide_eq_false_2, bool_decide_eq_true_2 by done.
  assert (∀ text, ascii text → ∀ resp, readResponse (writeError text) = Ok resp → Signature resp = []) as Hno.
  { intros text Ht resp. unfold writeError. rewrite read_written by done. destruct (maxFrame <? _); [done|].
    case_bool_decide; [|done]. by intros <-%Ok_inj. }
  destruct (_ || _) eqn:Hb.
  - intros (resp & Hr & Hs)%bind_Ok. rewrite (Hno _ ltac:(by apply ascii_forallb) _ Hr) in Hs. done.
  - destruct (Sign key message rnd) as [s|e] eqn:Es.
    + rewrite read_written; [|by vm_compute|constructor]. destruct (maxFrame <? _); [done|]. cbn [Error]. rewrite bool_decide_eq_true_2 by done.
      cbn [mbind result_bind Signature]. destruct (blen s =? 0); [done|]. intros <-%Ok_inj. split; [|done].
      pose proof (blen_nonneg message). zbool. lia.
    + intros (resp & Hr & Hs)%bind_Ok. rewrite (Hno _ (Herr e eq_refl) _ Hr) in Hs. done.
Qed.
End signer.

(** C34: through the signer, the data plane has exactly the signatures of the
    host key.  For a peer whose user may ask, the client's [Sign] returns a
    signature if and only if the message has 1 to 256 bytes and the key signs
    it so; the frames of request and response always fit; and a signature that
    is returned verifies under the key that the client's [Public] returns. *)
Theorem host_signer_exact {CR : Crypto} `{!CryptoLaws} key rnd allowUID cred message sig :
  authorizePeer allowUID cred = Ok () → (∀ e, Sign key message rnd = Err e → ascii (errText e)) →
  let dial := signer key rnd allowUID cred in
  (ClientSign dial message = Ok sig ↔ 0 < blen message ≤ 256 ∧ Sign key message rnd = Ok sig) ∧
  (ClientSign dial message = Ok sig → ∃ pub, ClientPublic dial = Ok pub ∧ Verify pub message sig = Ok ()).
Proof.
  intros Hp He. cbv zeta. split; [split; [by apply refused_signer|intros [Hm Hs]; by apply sign_signer]|].
  intros [Hm Hs]%refused_signer; [|done..]. assert (∃ pub, Public key = Ok pub) as [pub Hpub].
  { unfold Sign in Hs. apply bind_Ok in Hs as (mk & Hmk & _). unfold Public. rewrite Hmk. by eexists. }
  exists pub. split; [by apply public_signer|]. by eapply Verify_Sign.
Qed.

(** ** A concrete key *)

Import Toy.

Definition sampleKey : PrivateKey := mkPrivateKey (replicate 32 (bz 5)) (replicate 32 (bz 6)).
(** Blocks as their type, a zero byte and their bytes. *)
Definition plainPem : pemCodec :=
  mkPem (λ text, match Strings.split_bytes (bz 0) text with
                 | type_ :: _ => Some (to_string type_, drop (S (length type_)) text, [])
                 | [] => None
                 end)
    (λ type_ body, to_bytes type_ ++ bz 0 :: body).
Example sampleKey_file : (text ← MarshalPrivate plainPem sampleKey "host" (Ok (to_bytes "abcd")); ParsePrivate plainPem text) = Ok sampleKey.
Proof. vm_compute. reflexivity. Qed.

Definition signed : result bytes := Sign sampleKey (to_bytes "exchange hash") [].
Lemma host_signer_exact_witness :
  ∃ sig pub, ClientSign (signer sampleKey [] 1000 (Ok 1000)) (to_bytes "exchange hash") = Ok sig ∧
    ClientPublic (signer sampleKey [] 1000 (Ok 1000)) = Ok pub ∧ Verify pub (to_bytes "exchange hash") sig = Ok ().
Proof.
  assert (is_ok signed = true) as Hok by (vm_compute; reflexivity). destruct signed as [sig|e] eqn:Es; [|done].
  destruct (host_signer_exact sampleKey [] 1000 (Ok 1000) (to_bytes "exchange hash") sig eq_refl) as [Hiff Hv].
  - intros e He. unfold signed in Es. rewrite Es in He. discriminate.
  - assert (ClientSign (signer sampleKey [] 1000 (Ok 1000)) (to_bytes "exchange hash") = Ok sig) as Hs.
    { apply Hiff. split; [by vm_compute|exact Es]. }
    destruct (Hv Hs) as (pub & Hp & Hver). exists sig, pub. by split_and!.
Defined.
