(* ===== verification/Provisioner.v ===== *)
(** * internal/provisioner: the privileged side of the client commands, on Linux

    The operator's commands are carried out by a server with the rights of the
    superuser.  It takes one JSON request per connection, checks it, and runs
    the controller or [systemctl] with arguments of its own making.  The child
    processes are an argument: given the program and its arguments, what a
    child writes in which pieces, how it ends and what it does to the files.
    The socket, its owner and mode, and the accept loop are not modelled, and
    an answer is the response before it is encoded. *)

From S2P Require Import Prelude GoStd Json StrictJson Time Host Locator Grant SshWire Crypto Packet Kex ClientStore.
From S2P Require Import Clients Server AuthorizedKeys GrantSession Invite Accept InviteClient Config Resolve Routes Lifecycle.
From S2P Require Import Tunnels.
Import Time Json Locator ClientStore.
Import Tunnels.

Module Provisioner.

Definition eqs (a b : string) : bool := bool_decide (a = b).

Definition ProtocolVersion : Z := 1.
Definition MaxRequestBytes : Z := 2 ^ 20.
Definition MaxResponseBytes : Z := 2 ^ 20.
Definition ActionEnroll : string := "enroll".
Definition ActionConnect : string := "connect".
Definition ActionUp : string := "up".
Definition ActionStatus : string := "status".
Definition ActionDown : string := "down".
Definition ActionRotate : string := "rotate".
Definition ActionRevoke : string := "revoke".
Definition ActionRepair : string := "repair".
Definition ActionForget : string := "forget".
Definition ActionRoutes : string := "routes".
Definition ActionUninstall : string := "uninstall".
(** installlayout *)
Definition ControllerPath : string := "/opt/warptweet/bin/warptweet".
Definition LinuxProvisionerRunRoot : string := "/run/warptweet".
Definition ClientRoutesDirectory : string := "/etc/warptweet/routes".

Definition isTunnelStartAction (action : string) : bool := eqs action ActionUp || eqs action ActionRepair.

(** ** Requests *)

Record Request := mkRequest {
  Version : Z;
  Action : string;
  Invite : bytes;          (* the text of the value, as [json.RawMessage] keeps it *)
  Proof : bytes;
  TunnelID : string;
  ListenPort : Z;
  RestartPolicy : string;
  PrepareOnly : bool;
  Once : bool;
}.
Definition zeroRequest : Request := mkRequest 0 "" [] [] "" 0 "" false false.
Definition set_Version (v : Z) (q : Request) : Request :=
  mkRequest v (Action q) (Invite q) (Proof q) (TunnelID q) (ListenPort q) (RestartPolicy q) (PrepareOnly q) (Once q).
Definition set_Action (v : string) (q : Request) : Request :=
  mkRequest (Version q) v (Invite q) (Proof q) (TunnelID q) (ListenPort q) (RestartPolicy q) (PrepareOnly q) (Once q).
Definition set_Invite (v : bytes) (q : Request) : Request :=
  mkRequest (Version q) (Action q) v (Proof q) (TunnelID q) (ListenPort q) (RestartPolicy q) (PrepareOnly q) (Once q).
Definition set_Proof (v : bytes) (q : Request) : Request :=
  mkRequest (Version q) (Action q) (Invite q) v (TunnelID q) (ListenPort q) (RestartPolicy q) (PrepareOnly q) (Once q).
Definition set_TunnelID (v : string) (q : Request) : Request :=
  mkRequest (Version q) (Action q) (Invite q) (Proof q) v (ListenPort q) (RestartPolicy q) (PrepareOnly q) (Once q).
Definition set_ListenPort (v : Z) (q : Request) : Request :=
  mkRequest (Version q) (Action q) (Invite q) (Proof q) (TunnelID q) v (RestartPolicy q) (PrepareOnly q) (Once q).
Definition set_RestartPolicy (v : string) (q : Request) : Request :=
  mkRequest (Version q) (Action q) (Invite q) (Proof q) (TunnelID q) (ListenPort q) v (PrepareOnly q) (Once q).
Definition set_PrepareOnly (v : bool) (q : Request) : Request :=
  mkRequest (Version q) (Action q) (Invite q) (Proof q) (TunnelID q) (ListenPort q) (RestartPolicy q) v (Once q).
Definition set_Once (v : bool) (q : Request) : Request :=
  mkRequest (Version q) (Action q) (Invite q) (Proof q) (TunnelID q) (ListenPort q) (RestartPolicy q) (PrepareOnly q) v.

(** The members of an object with the text of each value, after its opening
    brace. *)
Fixpoint rawMembers (fuel : nat) (b : bytes) : list (string * (bytes * json)) :=
  match fuel with
  | O => []
  | S f =>
      match skip_ws b with
      | q :: r =>
          match parse_string r with
          | Ok (k, rest) =>
              match skip_ws rest with
              | _ :: r =>
                  let text := skip_ws r in
                  match parse_value (S (2 * length text)) 1 text with
                  | Ok (v, rest) =>
                      (k, (take (length text - length rest) text, v)) ::
                        match skip_ws rest with
                        | c :: r => if zb c =? 44 then rawMembers f r else []
                        | [] => []
                        end
                  | Err _ => []
                  end
              | [] => []
              end
          | Err _ => []
          end
      | [] => []
      end
  end.
Definition requestMembers (raw : bytes) : list (string * (bytes * json)) :=
  match skip_ws raw with
  | _ :: r => match skip_ws r with
              | c :: _ => if zb c =? 125 then [] else rawMembers (length r) r
              | [] => []
              end
  | [] => []
  end.

(** Fields see the text of their value beside the request. *)
Definition onRequest (store : json → Request → result Request) (v : json) (a : bytes * Request) : result (bytes * Request) :=
  q ← store v a.2; Ok (a.1, q).
Definition rawField (set : bytes → Request → Request) (v : json) (a : bytes * Request) : result (bytes * Request) :=
  Ok (a.1, set a.1 a.2).
Definition requestFields : list (field (bytes * Request)) :=
  [("version", onRequest (int_field set_Version)); ("action", onRequest (string_field set_Action));
   ("invite", rawField set_Invite); ("proof", rawField set_Proof);
   ("tunnel_id", onRequest (string_field set_TunnelID)); ("listen_port", onRequest (uint_field 16 set_ListenPort));
   ("restart_policy", onRequest (string_field set_RestartPolicy));
   ("prepare_only", onRequest (bool_field set_PrepareOnly)); ("once", onRequest (bool_field set_Once))]%string.
Fixpoint decodeRaw (m : list (string * (bytes * json))) (q : Request) : result Request :=
  match m with
  | [] => Ok q
  | (k, (text, v)) :: rest =>
      match select requestFields k with
      | Some store => '(_, q) ← store v (text, q); decodeRaw rest q
      | None => Err (EMsg ("json: unknown field " ++ k))
      end
  end.

(** [decodeSingleJSON] into a request. *)
Definition decodeSingleJSON (input : bytes) (maximum : Z) : result Request :=
  let raw := take (Z.to_nat (maximum + 1)) input in
  if maximum <? blen raw then Err (EMsg ("JSON document exceeds " ++ Strings.itoa maximum ++ " bytes"))
  else
    '(v, rest) ← parse raw;
    q ← match v with
        | JObj _ => decodeRaw (requestMembers raw) zeroRequest
        | JNull => Ok zeroRequest
        | _ => typeError
        end;
    match skip_ws rest with
    | [] => Ok q
    | _ => match parse rest with
           | Ok _ => Err (EMsg "JSON document contains a trailing value")
           | Err e => Err (EMsg ("decode trailing JSON data: " ++ errText e))
           end
    end.

Definition ValidateRequest (q : Request) : result () :=
  if negb (Version q =? ProtocolVersion)
  then Err (EMsg ("unsupported provisioner protocol version " ++ Strings.itoa (Version q)))
  else if bool_decide (Action q ∈ [ActionEnroll; ActionConnect]) then
    if (blen (Invite q) =? 0) || (MaxRequestBytes <? blen (Invite q))
    then Err (EMsg "enroll and connect require a bounded invite document")
    else if negb (eqs (TunnelID q) "") then Err (EMsg "enroll and connect tunnel_id is derived from the invite")
    else if Once q && negb (eqs (Action q) ActionConnect) then Err (EMsg "once is valid only for up or connect")
    else if MaxRequestBytes <? blen (Proof q) then Err (EMsg "enrollment proof exceeds the request limit")
    else if negb (eqs (RestartPolicy q) "") && negb (is_ok (Routes.ParseRestartPolicy (RestartPolicy q)))
    then Err (EMsg "restart_policy must be unless-stopped or manual")
    else Ok ()
  else if bool_decide (Action q ∈ [ActionStatus; ActionUninstall; ActionRoutes]) then
    if negb (blen (Invite q) =? 0) || negb (blen (Proof q) =? 0) || Once q || negb (ListenPort q =? 0) || PrepareOnly q
    then Err (EMsg (Action q ++ " contains fields for another action"))
    else if eqs (Action q) ActionRoutes && negb (eqs (TunnelID q) "") then Err (EMsg "routes does not take a tunnel_id")
    else if negb (eqs (TunnelID q) "") then Config.ValidateTunnelID (TunnelID q)
    else Ok ()
  else if bool_decide (Action q ∈ [ActionUp; ActionDown; ActionRotate; ActionRevoke; ActionRepair; ActionForget]) then
    if negb (blen (Invite q) =? 0) then Err (EMsg "only enroll may carry an invite document")
    else if negb (blen (Proof q) =? 0) || negb (ListenPort q =? 0) || PrepareOnly q
    then Err (EMsg "request contains fields for another action")
    else
      Config.ValidateTunnelID (TunnelID q);;
      if Once q && negb (eqs (Action q) ActionUp) then Err (EMsg "once is valid only for up") else Ok ()
  else Err (EMsg ("unsupported provisioner action " ++ Action q)).

(** ** Texts from the other side *)

Fixpoint joinSpace (l : list string) : string :=
  match l with
  | [] => ""
  | [x] => x
  | x :: rest => x ++ " " ++ joinSpace rest
  end.
Definition isBlanked (r : Z) : bool := (r <? 32) || (r =? 127).
Definition sanitizeRemoteText (message : string) : string :=
  let message := Strings.trim_space message in
  if eqs message "" then ""%string
  else
    let kept := concat ((λ r : Z * bytes, if isBlanked r.1 then [bz 32] else encode_rune r.1) <$> Utf8.runes (to_bytes message)) in
    joinSpace (Strings.fields (to_string kept)).
Definition safeRemoteError (message : string) : string :=
  let message := sanitizeRemoteText message in
  if eqs message "" then "provisioner request failed"%string else message.

(** ** Child processes *)

(** What a child writes, in pieces, and how it ends. *)
Record child := mkChild { exitError : option error; wroteOut : list bytes; wroteErr : list bytes }.
Definition outputTruncated : error := EMsg "provisioner child output exceeded limit".

(** [limitedBuffer.Write]: the bytes of the buffer, and whether the write
    failed. *)
Definition limitedWrite (limit : Z) (buffer data : bytes) : bytes * bool :=
  let remaining := limit - blen buffer in
  if remaining <=? 0 then (buffer, true)
  else if remaining <? blen data then (buffer ++ take (Z.to_nat remaining) data, true)
  else (buffer ++ data, false).
(** [io.Copy] of the pieces into a limited buffer: it ends with the first write
    that fails. *)
Fixpoint copyPieces (limit : Z) (buffer : bytes) (pieces : list bytes) : bytes * bool :=
  match pieces with
  | [] => (buffer, false)
  | data :: rest =>
      let '(buffer, failed) := limitedWrite limit buffer data in
      if (failed : bool) then (buffer, true) else copyPieces limit buffer rest
  end.

(** [runBoundedCommand]: the output, or an error with a message. *)
Definition boundedOutcome (c : child) : string * option error :=
  let '(stdout, outCut) := copyPieces (MaxResponseBytes / 2) [] (wroteOut c) in
  let '(stderr, errCut) := copyPieces (MaxResponseBytes / 2) [] (wroteErr c) in
  match exitError c with
  | Some e =>
      let message := Strings.trim_space (to_string stderr) in
      let message := if eqs message "" then Strings.trim_space (to_string stdout) else message in
      (message, Some e)
  | None => if outCut || errCut then (""%string, Some outputTruncated) else (to_string stdout, None)
  end.

Section server.
Context (H : hostEnv) (procRead : nat → string → result bytes).
Context (spawn : nat → list string → gmap string bytes → child * gmap string bytes).

Definition runBoundedCommand (command : list string) : HM (string * option error) :=
  n ← call; fs ← get_files;
  let '(c, fs') := spawn n command fs in
  set_files (λ _, fs');; mret (boundedOutcome c).

Definition executeController (arguments : list string) : HM string :=
  '(output, failed) ← runBoundedCommand (ControllerPath :: arguments);
  match failed with
  | None => mret output
  | Some e => if bool_decide (e = outputTruncated) || eqs output "" then hfail e else hfail (EMsg output)
  end.

(** ** intent.go, uninstall.go *)

Definition Root : string := ClientRoutesDirectory.
Definition linuxBootID : HM string := currentBootID procRead.

Definition intentWith (desired bootID : string) (intent : Routes.Intent) : Routes.Intent :=
  let intent := Routes.set_DesiredState desired intent in
  let intent := if eqs desired Routes.DesiredRunning && eqs (Routes.RestartPolicy intent) Routes.RestartManual
                then Routes.set_BootID bootID intent else intent in
  if eqs desired Routes.DesiredStopped then Routes.set_BootID "" intent else intent.

Definition persistRouteIntent (tunnelID desired bootID : string) (createIfMissing : bool) : HM () :=
  exists_ ← Routes.Exists H Root tunnelID;
  if negb exists_ && negb createIfMissing then mret ()
  else
    (if negb exists_ then Routes.Reserve H Root tunnelID else mret ());;
    loaded ← htry (Routes.LoadIntent H Root tunnelID);
    let intent := match loaded with
                  | Ok intent => intent
                  | Err _ => Routes.mkIntent Routes.KindDesiredState Routes.CurrentSchemaVersion tunnelID "" Routes.RestartUnlessStopped "" ""
                  end in
    Routes.WriteIntent H Root (intentWith desired bootID intent).

Definition encodeOutput (members : list (string * json)) : string := to_string (print (JObj members) ++ [bz 10]).

Definition forgetRoute (routeID : string) : HM () :=
  hlift (Config.ValidateTunnelID routeID);;
  hlift (Routes.ValidateRouteID routeID);;
  r ← htry (Routes.Remove H Root routeID);
  match r with Err e => if IsNotExist e then mret () else hfail e | Ok _ => mret () end.

Definition listRoutesJSON : HM string :=
  listed ← Routes.List H Root;
  mret (encodeOutput [("routes", JArr (JObj <$> (routeMembers <$> listed))); ("version", JInt 1)]%string).

Section uninstall.
Context (stop : string → HM ()).
(** The routes that were stopped, and those that were not, with their errors. *)
Fixpoint stopRoutes (listed : list Routes.ListedRoute) (stopped : list string) (failed : list (string * string))
    : HM (list string * list (string * string)) :=
  match listed with
  | [] => mret (stopped, failed)
  | route :: rest =>
      if Routes.l_Invalid route || eqs (Routes.l_RouteID route) "" then stopRoutes rest stopped failed
      else
        r ← htry (persistRouteIntent (Routes.l_RouteID route) Routes.DesiredStopped "" false);
        match r with
        | Err e => stopRoutes rest stopped (failed ++ [(Routes.l_RouteID route, errText e)])
        | Ok _ =>
            r ← htry (stop (Routes.l_RouteID route));
            match r with
            | Err e => stopRoutes rest stopped (failed ++ [(Routes.l_RouteID route, errText e)])
            | Ok _ => stopRoutes rest (stopped ++ [Routes.l_RouteID route]) failed
            end
        end
  end.
Definition uninstallAllRoutes : HM string :=
  listed ← Routes.List H Root;
  '(stopped, failed) ← stopRoutes listed [] [];
  match failed with
  | [] => mret (encodeOutput [("status", JStr "stopped_all"); ("stop_errors", JObj []); ("stopped", JArr (JStr <$> stopped))]%string)
  | _ => hfail (EMsg ("uninstall: " ++ Strings.itoa (Z.of_nat (length failed)) ++ " routes failed to stop"))
  end.
End uninstall.

(** ** server_linux.go *)

Definition projectTunnel (routeID : string) (start : bool) : HM string :=
  hlift (Config.ValidateTunnelID routeID);;
  hlift (Routes.ValidateRouteID routeID);;
  found ← htry (sys H);                          (* LookPath *)
  match found with
  | Err _ => hfail (wrapErr ErrPackageBoundary ("systemctl is required to project warptweet-tunnel@" ++ routeID))
  | Ok _ =>
      let desired := if start then Routes.DesiredRunning else Routes.DesiredStopped in
      bootID ← linuxBootID;
      persistRouteIntent routeID desired bootID true;;
      let action := (if start then "start" else "stop")%string in
      '(output, failed) ← runBoundedCommand ["systemctl"%string; action; unitOf routeID];
      match failed with
      | Some e => hfail (EMsg (action ++ " " ++ unitOf routeID ++ ": " ++ errText e ++ " (" ++ output ++ ")"))
      | None => mret (encodeOutput [("status", JStr (if start then "started" else "stopped")); ("tunnel_id", JStr routeID);
                                    ("unit", JStr (unitOf routeID))]%string)
      end
  end.

(** ** enroll.go *)

Definition writeRequestFile (directory prefix : string) (payload : bytes) : HM string :=
  MkdirAll H directory;;
  path ← CreateTemp H directory prefix;
  let abandon {A} (e : error) : HM A := htry (Host.Remove H path);; hfail e in
  r ← htry (sys H;;                              (* Chmod *)
            Write H path (to_bytes (Strings.trim_space (to_string payload)) ++ [bz 10]);;
            sys H);                              (* Sync *)
  match r with
  | Err e => htry (sys H);; abandon e            (* Close *)
  | Ok _ =>
      r ← htry (sys H);                          (* Close *)
      match r with Err e => abandon e | Ok _ => mret path end
  end.

Definition materializeEnrollInputs (requestRoot : string) (q : Request) : HM (string * string) :=
  invitePath ← writeRequestFile requestRoot ".invite-" (Invite q);
  if blen (Proof q) =? 0 then mret (invitePath, ""%string)
  else
    r ← htry (writeRequestFile requestRoot ".proof-" (Proof q));
    match r with
    | Err e => htry (Host.Remove H invitePath);; hfail e
    | Ok proofPath => mret (invitePath, proofPath)
    end.

Definition enrollControllerArgs (invitePath proofPath : string) (q : Request) : list string :=
  ["enroll"; "--yes"]%string
  ++ (if PrepareOnly q then ["--prepare-only"%string] else [])
  ++ (if negb (ListenPort q =? 0) then ["--listen-port"%string; Strings.itoa (ListenPort q)] else [])
  ++ (if negb (eqs (RestartPolicy q) "") then ["--restart"%string; RestartPolicy q] else [])
  ++ (if negb (eqs proofPath "") then ["--proof"%string; proofPath] else [])
  ++ [invitePath].

Definition requestRoot : string := Filepath.Join LinuxProvisionerRunRoot "requests".

Definition executeEnroll (q : Request) : HM string :=
  t ← now H;
  InviteClient.ParseClientInvite H (Invite q) t;;
  '(invitePath, proofPath) ← materializeEnrollInputs requestRoot q;
  deferred (Host.Remove H invitePath)
    (deferred (if negb (eqs proofPath "") then Host.Remove H proofPath else mret ())
       (executeController (enrollControllerArgs invitePath proofPath q))).

Definition enrollOutputTunnelID (output : string) : string :=
  match parse_all (to_bytes output) with
  | Ok (JObj m) => stringMember m "tunnel_id"
  | _ => ""
  end.

Definition executeRequest (q : Request) : HM string :=
  let action := Action q in
  if eqs action ActionEnroll then executeEnroll q
  else if eqs action ActionConnect then
    output ← executeEnroll q;
    if PrepareOnly q then mret output
    else
      let tunnelID := enrollOutputTunnelID output in
      if eqs tunnelID "" then hfail (EMsg "connect enroll output missing tunnel_id") else projectTunnel tunnelID true
  else if eqs action ActionStatus then
    executeController (["status"; "--json"]%string ++ (if negb (eqs (TunnelID q) "") then [TunnelID q] else []))
  else if eqs action ActionDown then projectTunnel (TunnelID q) false
  else if eqs action ActionRotate || eqs action ActionRevoke then executeController [action; TunnelID q]
  else if eqs action ActionForget then
    htry (projectTunnel (TunnelID q) false);;
    forgetRoute (TunnelID q);;
    mret (encodeOutput [("status", JStr "forgotten"); ("tunnel_id", JStr (TunnelID q))]%string)
  else if eqs action ActionRoutes then listRoutesJSON
  else if eqs action ActionUninstall then uninstallAllRoutes (λ routeID, projectTunnel routeID false;; mret ())
  else if isTunnelStartAction action then projectTunnel (TunnelID q) true
  else hfail (EMsg ("unsupported provisioner action " ++ action)).

Record Response := mkResponse { OK : bool; Output : string; Error : string }.

Definition handleConnection (input : bytes) : HM Response :=
  match decodeSingleJSON input MaxRequestBytes with
  | Err _ => mret (mkResponse false "" "invalid provisioner request")
  | Ok q =>
      match ValidateRequest q with
      | Err e => mret (mkResponse false "" (errText e))
      | Ok _ =>
          r ← htry (executeRequest q);
          mret match r with
               | Err e => mkResponse false "" (errText e)
               | Ok output => mkResponse true output ""
               end
      end
  end.

End server.

End Provisioner.

(** ** What the provisioner runs

    Whatever is sent to its socket, and whatever its children answer, the
    provisioner runs only the controller with one of its commands and
    [systemctl] on the unit of a tunnel; and the output of a child that ends well
    is at most half of what the client reads. *)

From S2P Require Import Prelude GoStd Json StrictJson Time Text Host Locator Grant GrantProps SshWire Crypto Packet.
From S2P Require Import Kex Listen ClientStore ClientCodec Server Clients ClientProps AuthorizedKeys GrantSession.
From S2P Require Import ServerProps SessionProps Reconcile Frame Layout Invite Accept InviteClient Config ConfigProps Resolve.
From S2P Require Import Routes RouteProps Lifecycle Tunnels.
Import Time Json Locator.
Import Tunnels Provisioner.

(** ** Programs that run alike *)

Definition alike {A} (m m' : HM A) : Prop := ∀ w, m w = m' w.
Lemma alike_refl {A} (m : HM A) : alike m m.
Proof. by intros w. Qed.
Lemma alike_bind_produced {A B} (m m' : HM A) (f f' : A → HM B) :
  alike m m' → (∀ a, produces m a → alike (f a) (f' a)) → alike (m ≫= f) (m' ≫= f').
Proof.
  intros Hm Hf w. unfold mbind, HM_bind. rewrite <- Hm. destruct (m w) as [[a|e] w'] eqn:E; [|done]. apply Hf. by exists w, w'.
Qed.
Lemma alike_bind {A B} (m m' : HM A) (f f' : A → HM B) : alike m m' → (∀ a, alike (f a) (f' a)) → alike (m ≫= f) (m' ≫= f').
Proof. intros Hm Hf. apply alike_bind_produced; auto. Qed.
Lemma alike_try {A} (m m' : HM A) : alike m m' → alike (htry m) (htry m').
Proof. intros Hm w. unfold htry. by rewrite Hm. Qed.
Lemma alike_deferred {A} cleanup (m m' : HM A) : alike m m' → alike (deferred cleanup m) (deferred cleanup m').
Proof. intros Hm w. unfold deferred. by rewrite Hm. Qed.
Lemma alike_checked {A B} (r : result A) (f f' : A → HM B) : (∀ a, r = Ok a → alike (f a) (f' a)) → alike (hlift r ≫= f) (hlift r ≫= f').
Proof. intros Hf. destruct r as [a|e]; [by apply Hf|by intros w]. Qed.

Ltac alike_step :=
  match goal with
  | |- alike ?m ?m => apply alike_refl
  | |- alike (hlift _ ≫= _) _ => apply alike_checked; intros ? ?
  | |- alike (mbind _ _) _ => apply alike_bind; [|intros ?]
  | |- alike (if ?b then _ else _) _ => destruct b eqn:?
  | |- alike (match ?x with _ => _ end) _ => destruct x eqn:?
  | |- alike (htry _) _ => apply alike_try
  | |- alike (deferred _ _) _ => apply alike_deferred
  end.
Ltac alike := repeat alike_step.

(** ** Commands *)

(** A file that the provisioner has made for a request. *)
Definition request_file (H : hostEnv) (prefix path : string) : Prop :=
  ∃ n, path = ("/run/warptweet/requests/" ++ prefix ++ h_temp H n)%string.

Inductive allowed (H : hostEnv) : list string → Prop :=
| allowed_enroll prepare port restart proof invite :
    (prepare = [] ∨ prepare = ["--prepare-only"%string]) →
    (port = [] ∨ ∃ p, p ≠ 0 ∧ port = ["--listen-port"%string; Strings.itoa p]) →
    (restart = [] ∨ ∃ p, is_ok (Routes.ParseRestartPolicy p) = true ∧ restart = ["--restart"%string; p]) →
    (proof = [] ∨ ∃ p, request_file H ".proof-" p ∧ proof = ["--proof"%string; p]) →
    request_file H ".invite-" invite →
    allowed H (["/opt/warptweet/bin/warptweet"; "enroll"; "--yes"]%string ++ prepare ++ port ++ restart ++ proof ++ [invite])
| allowed_status : allowed H ["/opt/warptweet/bin/warptweet"; "status"; "--json"]%string
| allowed_status_of id : tunnel_id (to_bytes id) → allowed H ["/opt/warptweet/bin/warptweet"; "status"; "--json"; id]%string
| allowed_rotate id : tunnel_id (to_bytes id) → allowed H ["/opt/warptweet/bin/warptweet"; "rotate"; id]%string
| allowed_revoke id : tunnel_id (to_bytes id) → allowed H ["/opt/warptweet/bin/warptweet"; "revoke"; id]%string
| allowed_systemctl action id :
    action ∈ ["start"; "stop"]%string → tunnel_id (to_bytes id) →
    allowed H ["systemctl"; action; "warptweet-tunnel@" ++ id ++ ".service"]%string.

Section confined.
Context (H : hostEnv) (procRead : nat → string → result bytes).
Context (spawn spawn' : nat → list string → gmap string bytes → child * gmap string bytes).
Hypothesis agree : ∀ n command fs, allowed H command → spawn n command fs = spawn' n command fs.

Lemma alike_run command : allowed H command → alike (runBoundedCommand spawn command) (runBoundedCommand spawn' command).
Proof using agree.
  intros Ha w. unfold runBoundedCommand, call, get_files, mbind, HM_bind. cbn [files calls]. by rewrite (agree _ _ _ Ha).
Qed.
Lemma alike_controller arguments :
  allowed H (ControllerPath :: arguments) → alike (executeController spawn arguments) (executeController spawn' arguments).
Proof using agree. intros Ha. unfold executeController. apply alike_bind; [by apply alike_run|]. intros [output failed]. apply alike_refl. Qed.

Lemma valid_tunnel id : Config.ValidateTunnelID id = Ok () → tunnel_id (to_bytes id).
Proof using. apply tunnelID_exact. Qed.

Lemma alike_project id start : alike (projectTunnel H procRead spawn id start) (projectTunnel H procRead spawn' id start).
Proof using agree.
  unfold projectTunnel. apply alike_checked. intros [] Hid%valid_tunnel. do 2 alike_step; [alike|]. alike_step; [|alike].
  alike_step; [alike|]. alike_step; [alike|]. apply alike_bind; [|intros; apply alike_refl].
  apply alike_run. constructor; [|done]. destruct start; set_solver.
Qed.

(** The files of an enrollment. *)
Lemma produces_file prefix payload path :
  produces (writeRequestFile H requestRoot prefix payload) path → request_file H prefix path.
Proof using.
  intros (w & w' & Hp). unfold writeRequestFile in Hp. apply run_bind in Hp as ([] & w1 & _ & Hp).
  apply run_bind in Hp as (p & w2 & Hc & Hp). assert (produces (CreateTemp H requestRoot prefix) p) as [n ->]%produces_CreateTemp by (by exists w1, w2).
  exists n. cbv zeta in Hp. apply run_bind in Hp as (r & w3 & _ & Hp). destruct r as [[]|e].
  - apply run_bind in Hp as (r & w4 & _ & Hp). destruct r as [[]|e]; [by injection Hp as <- _|].
    apply run_bind in Hp as (? & ? & _ & Hp). done.
  - apply run_bind in Hp as (? & ? & _ & Hp). apply run_bind in Hp as (? & ? & _ & Hp). done.
Qed.
Lemma produces_inputs q invite proof :
  produces (materializeEnrollInputs H requestRoot q) (invite, proof) →
  request_file H ".invite-" invite ∧ (proof = ""%string ∨ request_file H ".proof-" proof).
Proof using.
  intros (w & w' & Hp). unfold materializeEnrollInputs in Hp. apply run_bind in Hp as (i & w1 & Hi & Hp).
  assert (request_file H ".invite-" i) as Hfile by (eapply produces_file; by exists w, w1).
  destruct (_ =? _); [injection Hp as <- <- _; by split; [|left]|]. apply run_bind in Hp as (r & w2 & Hr & Hp).
  destruct r as [p|e].
  - injection Hp as <- <- _. split; [done|right]. unfold htry in Hr.
    destruct (writeRequestFile H requestRoot ".proof-" (Proof q) w1) as [[p'|e] w3] eqn:E; [|done]. injection Hr as <- <-.
    eapply produces_file. by exists w1, w3.
  - apply run_bind in Hp as (? & ? & _ & Hp). done.
Qed.

Lemma alike_enroll q :
  (RestartPolicy q = ""%string ∨ is_ok (Routes.ParseRestartPolicy (RestartPolicy q)) = true) →
  alike (executeEnroll H spawn q) (executeEnroll H spawn' q).
Proof using agree.
  intros Hr. unfold executeEnroll. do 2 (apply alike_bind; [apply alike_refl|intros ?]).
  apply alike_bind_produced; [apply alike_refl|]. intros [invite proof] [Hi Hp]%produces_inputs.
  do 2 apply alike_deferred. apply alike_controller. unfold enrollControllerArgs. apply allowed_enroll; [| | | |done].
  - destruct (PrepareOnly q); auto.
  - destruct (Z.eqb_spec (ListenPort q) 0); cbn [negb]; [by left|right; eauto].
  - unfold eqs. case_bool_decide as E; cbn [negb]; [by left|]. right. destruct Hr; [done|eauto].
  - unfold eqs. case_bool_decide as E; cbn [negb]; [by left|]. right. destruct Hp; [done|eauto].
Qed.

Lemma alike_stop listed : ∀ stopped failed,
  alike (stopRoutes H (λ id, projectTunnel H procRead spawn id false;; mret ()) listed stopped failed)
        (stopRoutes H (λ id, projectTunnel H procRead spawn' id false;; mret ()) listed stopped failed).
Proof using agree.
  induction listed as [|route listed IH]; intros stopped failed; cbn [stopRoutes]; [apply alike_refl|].
  destruct (_ || _); [apply IH|]. apply alike_bind; [apply alike_refl|]. intros [[]|e]; [|apply IH].
  apply alike_bind; [apply alike_try, alike_bind; [apply alike_project|intros; apply alike_refl]|]. intros [[]|e]; apply IH.
Qed.
End confined.

(** ** Bounded output *)

Lemma limited_bound limit buffer data buffer' failed :
  blen buffer ≤ limit → limitedWrite limit buffer data = (buffer', failed) → blen buffer' ≤ limit.
Proof.
  unfold limitedWrite, blen. intros Hb. destruct (_ <=? 0) eqn:E1; [intros [= <- <-]; done|].
  destruct (_ <? _) eqn:E2; intros [= <- <-]; rewrite length_app, ?length_take; lia.
Qed.
Lemma copied_bound limit pieces : ∀ buffer, blen buffer ≤ limit → blen (copyPieces limit buffer pieces).1 ≤ limit.
Proof.
  induction pieces as [|data pieces IH]; intros buffer Hb; cbn [copyPieces]; [done|].
  destruct (limitedWrite limit buffer data) as [buffer' failed] eqn:E. apply limited_bound in E; [|done]. destruct failed; [done|by apply IH].
Qed.
(** A child that ends well and is answered with its output has written no more
    than half of the limit of a response. *)
Lemma answer_bounded c output : boundedOutcome c = (output, None) → blen (to_bytes output) ≤ 2 ^ 19.
Proof.
  unfold boundedOutcome. pose proof (copied_bound (MaxResponseBytes / 2) (wroteOut c) [] ltac:(done)) as Hb.
  destruct (copyPieces _ _ (wroteOut c)) as [stdout outCut]. destruct (copyPieces _ _ (wroteErr c)) as [stderr errCut].
  destruct (exitError c); [done|]. destruct (_ || _); [done|]. intros [= <-]. by rewrite to_bytes_string.
Qed.

(** ** Requests that are let through *)

Ltac refuse := repeat match goal with H : context [if ?b then Err _ else _] |- _ => destruct b eqn:?; [done|] end.
Lemma validated_enroll q :
  ValidateRequest q = Ok () → Action q ∈ [ActionEnroll; ActionConnect] →
  RestartPolicy q = ""%string ∨ is_ok (Routes.ParseRestartPolicy (RestartPolicy q)) = true.
Proof.
  unfold ValidateRequest. intros Hv Ha. destruct (negb (Version q =? _)); [done|]. rewrite bool_decide_eq_true_2 in Hv by done.
  refuse. unfold eqs in *. destruct (bool_decide_reflect (RestartPolicy q = ""%string)) as [?|?]; [by left|right]. cbn [negb andb] in *.
  by destruct (is_ok _).
Qed.
Lemma validated_status q :
  ValidateRequest q = Ok () → Action q = ActionStatus → TunnelID q = ""%string ∨ tunnel_id (to_bytes (TunnelID q)).
Proof.
  unfold ValidateRequest. intros Hv Ha. destruct (negb (Version q =? _)); [done|]. rewrite Ha in Hv.
  rewrite bool_decide_eq_false_2, bool_decide_eq_true_2 in Hv by set_solver. refuse. unfold eqs in Hv.
  destruct (bool_decide_reflect (TunnelID q = ""%string)) as [?|?]; [by left|right]. cbn [negb] in Hv. by apply valid_tunnel.
Qed.
Lemma validated_management q :
  ValidateRequest q = Ok () → Action q = ActionRotate ∨ Action q = ActionRevoke → tunnel_id (to_bytes (TunnelID q)).
Proof.
  unfold ValidateRequest. intros Hv Ha. destruct (negb (Version q =? _)); [done|].
  assert (Action q ∈ [ActionUp; ActionDown; ActionRotate; ActionRevoke; ActionRepair; ActionForget] ∧
          (Action q ∉ [ActionEnroll; ActionConnect]) ∧ (Action q ∉ [ActionStatus; ActionUninstall; ActionRoutes])) as (H1 & H2 & H3)
    by (destruct Ha as [-> | ->]; split_and!; by apply (bool_decide_unpack _)).
  rewrite (bool_decide_eq_false_2 _ H2), (bool_decide_eq_false_2 _ H3), (bool_decide_eq_true_2 _ H1) in Hv. refuse.
  apply bind_Ok in Hv as ([] & Hid & _). by apply valid_tunnel.
Qed.

Lemma alike_request H procRead spawn spawn' q :
  (∀ n command fs, allowed H command → spawn n command fs = spawn' n command fs) → ValidateRequest q = Ok () →
  alike (executeRequest H procRead spawn q) (executeRequest H procRead spawn' q).
Proof.
  intros agree Hv. unfold executeRequest. cbv zeta.
  destruct (eqs (Action q) ActionEnroll) eqn:E1; [apply bool_decide_eq_true in E1|].
  { apply alike_enroll; [done|]. apply validated_enroll; [done|rewrite E1; set_solver]. }
  destruct (eqs (Action q) ActionConnect) eqn:E2; [apply bool_decide_eq_true in E2|].
  { apply alike_bind; [apply alike_enroll; [done|]; apply validated_enroll; [done|rewrite E2; set_solver]|]. intros output.
    destruct (PrepareOnly q); [apply alike_refl|]. destruct (eqs (enrollOutputTunnelID _) _); [apply alike_refl|by apply alike_project]. }
  destruct (eqs (Action q) ActionStatus) eqn:E3; [apply bool_decide_eq_true in E3|].
  { apply (alike_controller H); [done|]. unfold eqs. case_bool_decide as Ht; [constructor|]. cbn [negb].
    destruct (validated_status q Hv E3); [done|by constructor]. }
  destruct (eqs (Action q) ActionDown); [by apply alike_project|].
  destruct (_ || _) eqn:E5.
  { unfold eqs in E5. apply orb_prop in E5. rewrite !bool_decide_eq_true in E5. pose proof (validated_management q Hv E5) as Hid.
    apply (alike_controller H); [done|]. destruct E5 as [-> | ->]; by constructor. }
  destruct (eqs (Action q) ActionForget); [apply alike_bind; [by apply alike_try, alike_project|intros; apply alike_refl]|].
  destruct (eqs (Action q) ActionRoutes); [apply alike_refl|].
  destruct (eqs (Action q) ActionUninstall).
  { unfold uninstallAllRoutes. apply alike_bind; [apply alike_refl|]. intros listed. apply alike_bind; [by apply alike_stop|intros; apply alike_refl]. }
  destruct (isTunnelStartAction _); [by apply alike_project|apply alike_refl].
Qed.

(** C36: the provisioner runs nothing but the commands of its protocol.  For
    every input on its socket, in every state and with every fault, two systems
    whose children agree on the allowed commands behave the same: an allowed
    command is the controller with a fixed command, fixed flags, a tunnel
    identifier of lower-case letters, digits, dashes and underscores or files
    the provisioner has made, or [systemctl] to start or stop the unit of such
    a tunnel.  So no other program runs and no argument is taken over from the
    request or from the output of a child unchecked. *)
Theorem provisioner_confined H procRead spawn spawn' input w :
  (∀ n command fs, allowed H command → spawn n command fs = spawn' n command fs) →
  handleConnection H procRead spawn input w = handleConnection H procRead spawn' input w.
Proof.
  intros agree. unfold handleConnection. destruct (decodeSingleJSON input MaxRequestBytes) as [q|e]; [|done].
  destruct (ValidateRequest q) as [[]|e] eqn:Hv; [|done]. apply alike_bind; [by apply alike_try, alike_request|intros; apply alike_refl].
Qed.

(** ** A status request, on systems that differ in the shell *)

Definition calmHost : hostEnv := mkHostEnv (λ _, None) (λ _, 0%nat) (λ n, Z.of_nat n) (λ n, Strings.itoa (Z.of_nat n)).
Definition shellOf (answer : string) (n : nat) (command : list string) (fs : gmap string bytes) : child * gmap string bytes :=
  if bool_decide (command = ["/bin/sh"%string]) then (mkChild None [to_bytes answer] [], ∅)
  else (mkChild None (to_bytes <$> ["status of "%string; List.last command ""%string]) [], fs).
Definition statusRequest : bytes :=
  print (JObj [("version", JInt 1); ("action", JStr "status"); ("tunnel_id", JStr "build")]%string).

Lemma provisioner_confined_witness :
  handleConnection calmHost (λ _ _, Err (EMsg "")) (shellOf "a") statusRequest (mkWorld ∅ 0)
  = handleConnection calmHost (λ _ _, Err (EMsg "")) (shellOf "b") statusRequest (mkWorld ∅ 0) ∧
  (handleConnection calmHost (λ _ _, Err (EMsg "")) (shellOf "a") statusRequest (mkWorld ∅ 0)).1
  = Ok (mkResponse true "status of build" "") ∧
  shellOf "a" 0 ["/bin/sh"%string] ∅ ≠ shellOf "b" 0 ["/bin/sh"%string] ∅.
Proof.
  split; [|split; [vm_compute; reflexivity|vm_compute; discriminate]]. apply provisioner_confined.
  intros n command fs Ha. unfold shellOf. rewrite bool_decide_eq_false_2; [reflexivity|]. intros ->. inversion Ha.
Defined.
