(* ===== verification/NetInspect.v ===== *)
(** * internal/inspectnet: the address a host binds to when none is given

    One route lookup per family is asked of the kernel over netlink; the source
    address of the default route of the main table, on an interface that is up,
    is the address to bind to.  What the kernel answers and the interfaces are
    arguments. *)

From S2P Require Import Prelude GoStd Json StrictJson Time Host Locator Grant SshWire Crypto Packet Kex Conn Forward Serve Listen.
From S2P Require Import ClientStore Clients Server.
Import Netip.

(** ** encoding/binary, the other byte order *)
Module LittleEndian.
Definition get (b : bytes) : Z := BigEndian.de (reverse b).
Definition put (n : nat) (z : Z) : bytes := reverse (BigEndian.be n z).
Definition u16 (b : bytes) : Z := get (take 2 b).
Definition u32 (b : bytes) : Z := get (take 4 b).
Definition put16 : Z → bytes := put 2.
Definition put32 : Z → bytes := put 4.
End LittleEndian.
Import LittleEndian.

Module Inspectnet.

(** ** const.go *)

Definition nlmsgAlignTo : Z := 4.
Definition nlmsgHdrLen : Z := 16.
Definition rtmsgLen : Z := 12.
Definition rtattrHdrLen : Z := 4.
Definition nlFRequest : Z := 1.
Definition nlFDump : Z := 768.
Definition rtmNewRoute : Z := 24.
Definition rtmGetRoute : Z := 26.
Definition nlmsgError : Z := 2.
Definition nlmsgDone : Z := 3.
Definition FamilyIPv4 : Z := 2.
Definition FamilyIPv6 : Z := 10.
Definition rtaDst : Z := 1.
Definition rtaOif : Z := 4.
Definition rtaPrefSrc : Z := 7.
Definition rtaTable : Z := 15.
Definition rtTableMain : Z := 254.
Definition errnoNetUnreach : Z := 101.
Definition errnoHostUnreach : Z := 113.
Definition errnoNetDown : Z := 100.
Definition ProbeIPv4 : Addr := Addr4 (192 * 2 ^ 24 + 2 * 2 ^ 8 + 1).
Definition ProbeIPv6 : Addr := Addr6 (8193 * 2 ^ 112 + 3512 * 2 ^ 96 + 1) "".

Definition nlmsgAlign (n : Z) : Z := Z.ldiff (n + nlmsgAlignTo - 1) (nlmsgAlignTo - 1).

(** [raw[from:to]] and [raw[from:]] of Go, within bounds. *)
Definition slice (from to : Z) (b : bytes) : bytes := take (Z.to_nat (to - from)) (drop (Z.to_nat from) b).
Definition suffix (from : Z) (b : bytes) : bytes := drop (Z.to_nat from) b.
Definition byteAt (n : nat) (b : bytes) : Z := zb (nth n b (bz 0)).

(** ** request.go *)

Definition Is6 (a : Addr) : bool := match a with Addr6 _ _ => true | _ => false end.

Definition addrFromFamily (family : Z) (raw : bytes) : result Addr :=
  if family =? FamilyIPv4 then
    if blen raw <? 4 then Err (EMsg "short IPv4 attribute") else Ok (Addr4 (BigEndian.de (take 4 raw)))
  else if family =? FamilyIPv6 then
    if blen raw <? 16 then Err (EMsg "short IPv6 attribute") else Ok (Addr6 (BigEndian.de (take 16 raw)) "")
  else Err (EMsg ("unsupported address family " ++ Strings.itoa family)).

(** The length in bits and the bytes of a destination. *)
Definition destination (family : Z) (dst : Addr) : result (Z * bytes) :=
  if family =? FamilyIPv4 then
    match dst with
    | Addr4 ip => Ok (32, BigEndian.be 4 ip)
    | _ => Err (EMsg "IPv4 route lookup requires an IPv4 destination")
    end
  else if family =? FamilyIPv6 then
    match dst with
    | Addr6 ip _ => Ok (128, BigEndian.be 16 ip)
    | _ => Err (EMsg "IPv6 route lookup requires an IPv6 destination")
    end
  else Err (EMsg ("unsupported route lookup family " ++ Strings.itoa family)).

Definition BuildGetRouteLookup (family : Z) (dst : Addr) : result bytes :=
  '(dstLen, dstBytes) ← destination family (Unmap dst);
  let rtaLen := rtattrHdrLen + blen dstBytes in
  let alignedRTA := nlmsgAlign rtaLen in
  let total := nlmsgHdrLen + rtmsgLen + alignedRTA in
  Ok (put32 total ++ put16 rtmGetRoute ++ put16 nlFRequest ++ put32 1 ++ put32 0          (* the header *)
      ++ [bz family; bz dstLen; bz 0; bz 0; bz rtTableMain] ++ replicate 7 (bz 0)          (* rtmsg *)
      ++ put16 rtaLen ++ put16 rtaDst ++ dstBytes ++ replicate (Z.to_nat (alignedRTA - rtaLen)) (bz 0)).

Record LookupRequest := mkLookupRequest {
  q_Family : Z; q_Flags : Z; q_DstLen : Z; q_Table : Z; q_Dst : Addr; q_HasDump : bool;
}.

Fixpoint requestAttrs (fuel : nat) (attrs : bytes) (req : LookupRequest) : result LookupRequest :=
  match fuel with
  | O => Ok req
  | S f =>
      if blen attrs <? rtattrHdrLen then Ok req
      else
        let alen := u16 attrs in
        let atype := u16 (drop 2 attrs) in
        if (alen <? rtattrHdrLen) || (blen attrs <? alen) then Err (EMsg "truncated request rtattr")
        else
          req ← (if atype =? rtaDst then
                   addr ← addrFromFamily (q_Family req) (slice rtattrHdrLen alen attrs);
                   Ok (mkLookupRequest (q_Family req) (q_Flags req) (q_DstLen req) (q_Table req) addr (q_HasDump req))
                 else Ok req);
          let aligned := nlmsgAlign alen in
          if blen attrs <? aligned then Ok req else requestAttrs f (suffix aligned attrs) req
  end.
Definition ParseGetRouteRequest (buf : bytes) : result LookupRequest :=
  if blen buf <? nlmsgHdrLen + rtmsgLen + rtattrHdrLen then Err (EMsg "short RTM_GETROUTE request")
  else
    let nlen := u32 buf in
    if (blen buf <? nlen) || (nlen <? nlmsgHdrLen + rtmsgLen) then Err (EMsg ("invalid netlink length " ++ Strings.itoa nlen))
    else
      let typ := u16 (drop 4 buf) in
      if negb (typ =? rtmGetRoute) then Err (EMsg ("nlmsg_type " ++ Strings.itoa typ ++ ", want RTM_GETROUTE"))
      else
        let flags := u16 (drop 6 buf) in
        let req := mkLookupRequest (byteAt 16 buf) flags (byteAt 17 buf) (byteAt 20 buf) AddrInvalid
                     (negb (Z.land flags nlFDump =? 0)) in
        if Z.land flags nlFRequest =? 0 then Err (EMsg "RTM_GETROUTE missing NLM_F_REQUEST")
        else
          let attrs := slice (nlmsgHdrLen + rtmsgLen) nlen buf in
          requestAttrs (S (length attrs)) attrs req.

(** ** parse.go *)

Record RouteMessage := mkRouteMessage {
  Type_ : Z; Family : Z; Table : Z; PrefSrc : Addr; OutIfIndex : Z; HasPrefSrc : bool; HasOutIf : bool;
}.
Record RouteReply := mkReply { Messages : list RouteMessage; Evidence : string }.
Definition emptyReply : RouteReply := mkReply [] "".

(** [netlinkErrno] beside the other errors. *)
Inductive lookupError :=
| netlinkErrno (errno : Z)
| otherError (e : error).
Definition unreachable (errno : Z) : bool :=
  (errno =? errnoNetUnreach) || (errno =? errnoHostUnreach) || (errno =? errnoNetDown).
Definition errnoText (errno : Z) : string := "netlink RTM_GETROUTE errno " ++ Strings.itoa errno.

Definition set_Table (t : Z) (m : RouteMessage) : RouteMessage :=
  mkRouteMessage (Type_ m) (Family m) t (PrefSrc m) (OutIfIndex m) (HasPrefSrc m) (HasOutIf m).
Definition set_PrefSrc (a : Addr) (m : RouteMessage) : RouteMessage :=
  mkRouteMessage (Type_ m) (Family m) (Table m) a (OutIfIndex m) true (HasOutIf m).
Definition set_OutIf (i : Z) (m : RouteMessage) : RouteMessage :=
  mkRouteMessage (Type_ m) (Family m) (Table m) (PrefSrc m) i (HasPrefSrc m) true.

Definition routeAttr (atype : Z) (val : bytes) (msg : RouteMessage) : result RouteMessage :=
  if atype =? rtaPrefSrc then addr ← addrFromFamily (Family msg) val; Ok (set_PrefSrc (Unmap addr) msg)
  else if atype =? rtaOif then
    if blen val <? 4 then Err (EMsg "short RTA_OIF") else Ok (set_OutIf (u32 val) msg)
  else if atype =? rtaTable then
    if blen val <? 4 then Err (EMsg "short RTA_TABLE") else Ok (set_Table (u32 val) msg)
  else Ok msg.
Fixpoint routeAttrs (fuel : nat) (attrs : bytes) (msg : RouteMessage) : result RouteMessage :=
  match fuel with
  | O => Ok msg
  | S f =>
      if blen attrs <? rtattrHdrLen then Ok msg
      else
        let alen := u16 attrs in
        let atype := u16 (drop 2 attrs) in
        if (alen <? rtattrHdrLen) || (blen attrs <? alen) then Err (EMsg "truncated rtattr")
        else
          msg ← routeAttr atype (slice rtattrHdrLen alen attrs) msg;
          let aligned := nlmsgAlign alen in
          if blen attrs <? aligned then Ok msg else routeAttrs f (suffix aligned attrs) msg
  end.
Definition parseNewRoute (payload : bytes) : result RouteMessage :=
  if blen payload <? rtmsgLen then Err (EMsg "short RTM_NEWROUTE")
  else
    let attrs := suffix rtmsgLen payload in
    routeAttrs (S (length attrs)) attrs (mkRouteMessage 0 (byteAt 0 payload) (byteAt 4 payload) AddrInvalid 0 false false).

Definition set_Type (t : Z) (m : RouteMessage) : RouteMessage :=
  mkRouteMessage t (Family m) (Table m) (PrefSrc m) (OutIfIndex m) (HasPrefSrc m) (HasOutIf m).

(** The loop of [ParseRouteMessages]: the reply and the error. *)
Fixpoint parseMessages (fuel : nat) (size : Z) (remaining : bytes) (messages : list RouteMessage) : RouteReply * option lookupError :=
  let done := (mkReply messages (Strings.itoa (Z.of_nat (length messages)) ++ " RTM_NEWROUTE in " ++ Strings.itoa size ++ " bytes"), None) in
  match fuel with
  | O => done
  | S f =>
      if blen remaining <? nlmsgHdrLen then done
      else
        let nlen := u32 remaining in
        if (nlen <? nlmsgHdrLen) || (blen remaining <? nlen)
        then (emptyReply, Some (otherError (EMsg "truncated netlink message")))
        else
          let typ := u16 (drop 4 remaining) in
          let payload := slice nlmsgHdrLen nlen remaining in
          let next messages :=
            let aligned := nlmsgAlign nlen in
            if blen remaining <? aligned then
              (mkReply messages (Strings.itoa (Z.of_nat (length messages)) ++ " RTM_NEWROUTE in " ++ Strings.itoa size ++ " bytes"), None)
            else parseMessages f size (suffix aligned remaining) messages in
          if typ =? rtmNewRoute then
            match parseNewRoute payload with
            | Err e => (emptyReply, Some (otherError e))
            | Ok msg => next (messages ++ [set_Type rtmNewRoute msg])
            end
          else if typ =? nlmsgError then
            if blen payload <? 4 then (emptyReply, Some (otherError (EMsg "truncated NLMSG_ERROR")))
            else
              let code := u32 payload in
              let errno := - (if code <? 2 ^ 31 then code else code - 2 ^ 32) in
              if negb (errno =? 0) then
                (mkReply [] ("NLMSG_ERROR errno " ++ Strings.itoa errno ++ " (" ++ Strings.itoa size ++ " bytes)"), Some (netlinkErrno errno))
              else next messages
          else if typ =? nlmsgDone then done
          else next messages
  end.
Definition ParseRouteMessages (buf : bytes) : RouteReply * option lookupError :=
  parseMessages (S (length buf)) (blen buf) buf [].

Definition isNewRoute (msg : RouteMessage) : bool := Type_ msg =? rtmNewRoute.
Definition countNewRoute (reply : RouteReply) : nat := length (filter isNewRoute (Messages reply)).
Definition singleNewRoute (reply : RouteReply) : option RouteMessage :=
  match filter isNewRoute (Messages reply) with
  | [msg] => Some msg
  | _ => None
  end.

(** ** netlink_linux.go *)

Section kernel.
(** Opening and binding the socket gives its port; a request is answered with a
    datagram. *)
Context (bindSocket : result Z) (exchange : bytes → result bytes).

Definition KernelRouteLookup (family : Z) (dst : Addr) : RouteReply * option lookupError :=
  match BuildGetRouteLookup family dst with
  | Err e => (emptyReply, Some (otherError e))
  | Ok req =>
      match bindSocket with
      | Err e => (emptyReply, Some (otherError e))
      | Ok pid =>
          let req := take 12 req ++ put32 pid ++ drop 16 req in
          match exchange req with
          | Err e => (emptyReply, Some (otherError e))
          | Ok buf =>
              if blen buf <=? 0 then (mkReply [] "empty netlink datagram", None)
              else
                match ParseRouteMessages buf with
                | (reply, None) => (reply, None)
                | (reply, Some e) =>
                    match e with
                    | netlinkErrno errno =>
                        if unreachable errno
                        then (mkReply (Messages reply) (if bool_decide (Evidence reply = ""%string) then errnoText errno else Evidence reply), None)
                        else (emptyReply, Some e)
                    | otherError _ => (emptyReply, Some e)
                    end
                end
          end
      end
  end.
End kernel.

(** ** interfaces.go *)

Definition FlagUp : Z := 1.
Definition FlagLoopback : Z := 4.

Record Interface := mkInterface { Index : Z; Name : string; Flags : Z; Addrs : list Addr }.

(** An interface as the system lists it: the bytes of the IP of each address,
    where it has one. *)
Record netInterface := mkNetInterface {
  ni_Index : Z; ni_Name : string; ni_Flags : Z; ni_Addrs : result (list (option bytes));
}.
Definition interfaceAddrs (addrs : list (option bytes)) : list Addr :=
  omap (λ ip, ip ← ip;
              match Listen.AddrFromSlice ip with AddrInvalid => None | parsed => Some (Unmap parsed) end) addrs.
Definition interfaceOf (i : netInterface) : Interface :=
  mkInterface (ni_Index i) (ni_Name i) (ni_Flags i) (match ni_Addrs i with Ok addrs => interfaceAddrs addrs | Err _ => [] end).
Definition ListHostInterfaces (raw : result (list netInterface)) : result (list Interface) :=
  match raw with Ok listed => Ok (interfaceOf <$> listed) | Err e => Err e end.

Fixpoint ifaceByIndex (ifaces : list Interface) (index : Z) : option Interface :=
  match ifaces with
  | [] => None
  | iface :: rest => if Index iface =? index then Some iface else ifaceByIndex rest index
  end.

Definition usableFamilyAddr (addr : Addr) (family : Z) : bool :=
  if negb (IsValid addr) || negb (bool_decide (Zone addr = ""%string)) || Server.IsUnspecified addr || Server.IsMulticast addr
     || Server.IsLoopback addr || Server.IsLinkLocalUnicast addr then false
  else if family =? FamilyIPv4 then Is4 addr
  else if family =? FamilyIPv6 then Is6 addr
  else false.
Definition familyUnicast (iface : Interface) (family : Z) : list Addr :=
  filter (λ addr, usableFamilyAddr addr family) (Unmap <$> Addrs iface).

Fixpoint linkLocalScan (addrs : list Addr) (family : Z) (hasFamily : bool) : bool :=
  match addrs with
  | [] => hasFamily
  | addr :: rest =>
      let addr := Unmap addr in
      if (family =? FamilyIPv4) && negb (Is4 addr) then linkLocalScan rest family hasFamily
      else if (family =? FamilyIPv6) && negb (Is6 addr) then linkLocalScan rest family hasFamily
      else if negb (IsValid addr) || Server.IsUnspecified addr || Server.IsMulticast addr then linkLocalScan rest family hasFamily
      else if negb (Server.IsLinkLocalUnicast addr) && negb (Server.IsLoopback addr) then false
      else linkLocalScan rest family true
  end.
Definition linkLocalOnly (iface : Interface) (family : Z) : bool := linkLocalScan (Addrs iface) family false.

(** ** discover.go *)

(** [familyCandidate]: nothing, or an address with its interface. *)
Definition familyCandidate : Type := option (Addr * Interface).
Definition isUp (iface : Interface) : bool := negb (Z.land (Flags iface) FlagUp =? 0).
Definition isLoopback (iface : Interface) : bool := negb (Z.land (Flags iface) FlagLoopback =? 0).

Definition filterCandidate (iface : Interface) (addr : Addr) (family : Z) : familyCandidate :=
  let addr := Unmap addr in
  if negb (isUp iface) then None
  else if isLoopback iface then None
  else if linkLocalOnly iface family then None
  else if negb (usableFamilyAddr addr family) then None
  else Some (addr, iface).

Definition RouteLookup : Type := Z → Addr → RouteReply * option lookupError.

(** The address of a route: its preferred source, or the only address of the
    family on its interface. *)
Definition routeAddress (route : RouteMessage) (iface : option Interface) (family : Z) : result Addr :=
  if HasPrefSrc route then Ok (Unmap (PrefSrc route))
  else match iface with
       | None => Err (EMsg "inspect-network: RTM_NEWROUTE has no RTA_PREFSRC and RTA_OIF is missing; pass --listen")
       | Some iface =>
           match familyUnicast iface family with
           | [addr] => Ok addr
           | _ => Err (EMsg ("inspect-network: interface " ++ Name iface ++ " has not one unicast address of this family; pass --listen"))
           end
       end.

Definition candidateForFamily (lookup : RouteLookup) (ifaces : list Interface) (family : Z) (probe : Addr) : result familyCandidate :=
  match lookup family probe with
  | (_, Some (netlinkErrno errno)) => if unreachable errno then Ok None else Err (EMsg (errnoText errno))
  | (_, Some (otherError e)) => Err e
  | (reply, None) =>
      if (countNewRoute reply =? 0)%nat then Ok None
      else match singleNewRoute reply with
      | None => Err (EMsg "inspect-network: RTM_GETROUTE lookup returned several RTM_NEWROUTE messages, want exactly 1; pass --listen")
      | Some route =>
          if negb (Table route =? rtTableMain)
          then Err (EMsg ("inspect-network: RTM_GETROUTE selected table " ++ Strings.itoa (Table route) ++ ", want RT_TABLE_MAIN; pass --listen"))
          else
            let iface := if HasOutIf route then ifaceByIndex ifaces (OutIfIndex route) else None in
            addr ← routeAddress route iface family;
            match iface with
            | None => Err (EMsg "inspect-network: cannot resolve output interface; pass --listen")
            | Some iface => Ok (filterCandidate iface addr family)
            end
      end
  end.

Definition Discover (lookup : RouteLookup) (ifaces : list Interface) : result Addr :=
  v4 ← candidateForFamily lookup ifaces FamilyIPv4 ProbeIPv4;
  v6 ← candidateForFamily lookup ifaces FamilyIPv6 ProbeIPv6;
  match v4, v6 with
  | Some _, Some _ => Err (EMsg "inspect-network: both IPv4 and IPv6 are unique default-route sources; pass --listen")
  | Some (addr, _), None => Ok addr
  | None, Some (addr, _) => Ok addr
  | None, None => Ok AddrInvalid
  end.

Fixpoint ifaceByName (ifaces : list Interface) (name : string) : option Interface :=
  match ifaces with
  | [] => None
  | iface :: rest => if bool_decide (Name iface = name) then Some iface else ifaceByName rest name
  end.

Definition AddressForInterface (name : string) (ifaces : list Interface) : result Addr :=
  let name := Strings.trim_space name in
  let refuse what := Err (EMsg ("listen-interface " ++ name ++ what ++ "; pass --listen")) in
  if bool_decide (name = ""%string) then Err (EMsg "listen-interface is empty; pass --listen")
  else match ifaceByName ifaces name with
  | None => refuse " was not found"
  | Some found =>
      if negb (isUp found) then refuse " is down"
      else if isLoopback found then refuse " is loopback"
      else
        match familyUnicast found FamilyIPv4, familyUnicast found FamilyIPv6 with
        | [_], [_] => refuse " has unique IPv4 and IPv6"
        | [addr], [] => Ok addr
        | [], [addr] => Ok addr
        | _ :: _ :: _, _ => refuse " has several IPv4 addresses, want 1"
        | _, _ :: _ :: _ => refuse " has several IPv6 addresses, want 1"
        | [], [] => refuse " has no usable unicast address"
        end
  end%string.

End Inspectnet.

(** ** Netlink datagrams, and the address that is found

    A request that is built reads back, a datagram of messages is read message
    by message, and the address to bind to is a usable unicast address of an
    interface that is up. *)

From S2P Require Import Prelude GoStd Json StrictJson Time Host Locator Grant SshWire Crypto Packet Kex Conn Forward Serve Listen.
From S2P Require Import ClientStore Clients Server.
Import Netip LittleEndian Inspectnet.

(** ** Bytes *)

Lemma length_put n z : length (put n z) = n.
Proof. unfold put. by rewrite length_reverse, BigEndian.length_be. Qed.
Lemma get_put n z : 0 ≤ z < 256 ^ Z.of_nat n → get (put n z) = z.
Proof. intros Hz. unfold get, put. by rewrite reverse_involutive, BigEndian.de_be, Z.mod_small. Qed.
Lemma u16_put z rest : 0 ≤ z < 2 ^ 16 → u16 (put16 z ++ rest) = z.
Proof. intros Hz. unfold u16, put16. rewrite take_app_length' by (by rewrite length_put). by apply get_put. Qed.
Lemma u32_put z rest : 0 ≤ z < 2 ^ 32 → u32 (put32 z ++ rest) = z.
Proof. intros Hz. unfold u32, put32. rewrite take_app_length' by (by rewrite length_put). by apply get_put. Qed.
Lemma drop_put n z rest : drop n (put n z ++ rest) = rest.
Proof. apply drop_app_length'. by rewrite length_put. Qed.

Lemma align_floor n : nlmsgAlign n = (n + 3) / 4 * 4.
Proof.
  unfold nlmsgAlign, nlmsgAlignTo. replace (n + 4 - 1) with (n + 3) by lia. change (4 - 1) with (Z.ones 2).
  rewrite Z.ldiff_ones_r by lia. rewrite Z.shiftl_mul_pow2, Z.shiftr_div_pow2 by lia. done.
Qed.
Lemma align_bounds n : n ≤ nlmsgAlign n < n + 4.
Proof. rewrite align_floor. dlia. Qed.

(** ** Attributes and messages as the kernel writes them *)

Definition padding (n : Z) : bytes := replicate (Z.to_nat (nlmsgAlign n - n)) (bz 0).
Definition attrBytes (a : Z * bytes) : bytes :=
  put16 (4 + blen a.2) ++ put16 a.1 ++ a.2 ++ padding (4 + blen a.2).
Definition attr_ok (a : Z * bytes) : Prop := 0 ≤ a.1 < 2 ^ 16 ∧ 4 + blen a.2 < 2 ^ 16.

Lemma blen_attr a : blen (attrBytes a) = nlmsgAlign (4 + blen a.2).
Proof.
  pose proof (align_bounds (4 + blen a.2)). unfold attrBytes, padding, put16, blen in *.
  rewrite !length_app, !length_put, length_replicate. lia.
Qed.

(** The first attribute of a list, as both loops see it. *)
Lemma attr_read a rest :
  attr_ok a →
  u16 (attrBytes a ++ rest) = 4 + blen a.2 ∧ u16 (drop 2 (attrBytes a ++ rest)) = a.1 ∧
  slice 4 (4 + blen a.2) (attrBytes a ++ rest) = a.2 ∧ suffix (nlmsgAlign (4 + blen a.2)) (attrBytes a ++ rest) = rest ∧
  nlmsgAlign (4 + blen a.2) ≤ blen (attrBytes a ++ rest).
Proof.
  intros [Ht Hl]. pose proof (align_bounds (4 + blen a.2)) as Ha. pose proof (blen_attr a) as Hb.
  assert (0 ≤ blen a.2) by (unfold blen; lia). split_and!.
  - unfold attrBytes. rewrite <- app_assoc. apply u16_put. lia.
  - unfold attrBytes. rewrite <- !app_assoc. change (put16 (4 + blen a.2)) with (put 2 (4 + blen a.2)). rewrite (drop_put 2). by apply u16_put.
  - unfold slice, attrBytes. rewrite <- !app_assoc, app_assoc. rewrite drop_app_length'.
    + apply take_app_length'. unfold blen. lia.
    + rewrite length_app. unfold put16. rewrite !length_put. done.
  - unfold suffix. apply drop_app_length'. unfold blen in *. lia.
  - unfold blen in *. rewrite length_app. lia.
Qed.

Fixpoint readAttrs (attrs : list (Z * bytes)) (msg : RouteMessage) : result RouteMessage :=
  match attrs with
  | [] => Ok msg
  | a :: rest => msg ← routeAttr a.1 a.2 msg; readAttrs rest msg
  end.

(** The loop over attributes reads them in order; a later one wins. *)
Lemma attrs_exact attrs : Forall attr_ok attrs → ∀ fuel msg,
  (length (concat (attrBytes <$> attrs)) < fuel)%nat →
  routeAttrs fuel (concat (attrBytes <$> attrs)) msg = readAttrs attrs msg.
Proof.
  induction 1 as [|a attrs Ha Has IH]; intros fuel msg Hf; (destruct fuel as [|fuel]; [cbn in Hf; lia|]); [done|].
  cbn [fmap list_fmap concat readAttrs] in *. set (rest := concat (attrBytes <$> attrs)) in *.
  destruct (attr_read a rest Ha) as (Hlen & Htype & Hval & Hrest & Hle). cbn [routeAttrs]. unfold rtattrHdrLen.
  pose proof (align_bounds (4 + blen a.2)). assert (0 ≤ blen a.2) by (unfold blen; lia).
  rewrite Hlen, Htype, Hval, Hrest. destruct (Z.ltb_spec (blen (attrBytes a ++ rest)) 4); [lia|].
  destruct (Z.ltb_spec (4 + blen a.2) 4); [lia|]. destruct (Z.ltb_spec (blen (attrBytes a ++ rest)) (4 + blen a.2)); [lia|]. cbn [orb].
  destruct (routeAttr _ _ _) as [msg'|e]; [|done]. cbn [mbind result_bind].
  destruct (Z.ltb_spec (blen (attrBytes a ++ rest)) (nlmsgAlign (4 + blen a.2))); [lia|]. apply IH.
  rewrite length_app in Hf. pose proof (blen_attr a). unfold blen in *. lia.
Qed.

(** The body of a message; an error carries the negated number of the error, and
    zero acknowledges. *)
Inductive body :=
| NewRoute (rtm : bytes) (attrs : list (Z * bytes))
| Failed (errno : Z) (request : bytes)
| Done (data : bytes)
| Other (type_ : Z) (data : bytes).
Definition bodyType (b : body) : Z :=
  match b with NewRoute _ _ => 24 | Failed _ _ => 2 | Done _ => 3 | Other t _ => t end.
Definition bodyBytes (b : body) : bytes :=
  match b with
  | NewRoute rtm attrs => rtm ++ concat (attrBytes <$> attrs)
  | Failed errno request => put32 ((- errno) mod 2 ^ 32) ++ request
  | Done data | Other _ data => data
  end.
Definition body_ok (b : body) : Prop :=
  match b with
  | NewRoute rtm attrs => length rtm = 12%nat ∧ Forall attr_ok attrs
  | Failed errno _ => - 2 ^ 31 < errno < 2 ^ 31
  | Done _ => True
  | Other t _ => (0 ≤ t < 2 ^ 16) ∧ t ∉ [24; 2; 3]
  end ∧ 16 + blen (bodyBytes b) < 2 ^ 32.

(** A message: the flags, sequence number and port of its header, and its body. *)
Definition messageBytes (m : bytes * body) : bytes :=
  put32 (16 + blen (bodyBytes m.2)) ++ put16 (bodyType m.2) ++ m.1 ++ bodyBytes m.2 ++ padding (16 + blen (bodyBytes m.2)).
Definition message_ok (m : bytes * body) : Prop := length m.1 = 10%nat ∧ body_ok m.2.

Definition summary (size : Z) (messages : list RouteMessage) : RouteReply * option lookupError :=
  (mkReply messages (Strings.itoa (Z.of_nat (length messages)) ++ " RTM_NEWROUTE in " ++ Strings.itoa size ++ " bytes"), None).
Fixpoint readMessages (size : Z) (msgs : list (bytes * body)) (messages : list RouteMessage) : RouteReply * option lookupError :=
  match msgs with
  | [] => summary size messages
  | (_, NewRoute rtm attrs) :: rest =>
      match readAttrs attrs (mkRouteMessage 0 (byteAt 0 rtm) (byteAt 4 rtm) AddrInvalid 0 false false) with
      | Ok msg => readMessages size rest (messages ++ [set_Type 24 msg])
      | Err e => (emptyReply, Some (otherError e))
      end
  | (_, Failed errno _) :: rest =>
      if bool_decide (errno = 0) then readMessages size rest messages
      else (mkReply [] ("NLMSG_ERROR errno " ++ Strings.itoa errno ++ " (" ++ Strings.itoa size ++ " bytes)"), Some (netlinkErrno errno))
  | (_, Done _) :: _ => summary size messages
  | (_, Other _ _) :: rest => readMessages size rest messages
  end.

Lemma blen_message m : message_ok m → blen (messageBytes m) = nlmsgAlign (16 + blen (bodyBytes m.2)).
Proof.
  intros [Hh _]. pose proof (align_bounds (16 + blen (bodyBytes m.2))). unfold messageBytes, padding, put16, put32, blen in *.
  rewrite !length_app, !length_put, length_replicate, Hh. lia.
Qed.
Lemma message_read m rest :
  message_ok m →
  u32 (messageBytes m ++ rest) = 16 + blen (bodyBytes m.2) ∧ u16 (drop 4 (messageBytes m ++ rest)) = bodyType m.2 ∧
  slice 16 (16 + blen (bodyBytes m.2)) (messageBytes m ++ rest) = bodyBytes m.2 ∧
  suffix (nlmsgAlign (16 + blen (bodyBytes m.2))) (messageBytes m ++ rest) = rest ∧
  nlmsgAlign (16 + blen (bodyBytes m.2)) ≤ blen (messageBytes m ++ rest).
Proof.
  intros Hm. pose proof (blen_message m Hm) as Hb. destruct Hm as [Hh [Ho Hl]]. pose proof (align_bounds (16 + blen (bodyBytes m.2))).
  assert (0 ≤ blen (bodyBytes m.2)) by (unfold blen; lia). split_and!.
  - unfold messageBytes. rewrite <- app_assoc. apply u32_put. lia.
  - unfold messageBytes. rewrite <- !app_assoc. rewrite (drop_put 4). apply u16_put. destruct (m.2); cbn in *; lia.
  - unfold slice, messageBytes. rewrite <- !app_assoc. rewrite (app_assoc (put32 _)), (app_assoc (_ ++ _) m.1). rewrite drop_app_length'.
    + apply take_app_length'. unfold blen. lia.
    + rewrite !length_app. unfold put16, put32. rewrite !length_put, Hh. done.
  - unfold suffix. apply drop_app_length'. unfold blen in *. lia.
  - unfold blen in *. rewrite length_app. lia.
Qed.

Lemma route_exact rtm attrs :
  length rtm = 12%nat → Forall attr_ok attrs →
  parseNewRoute (rtm ++ concat (attrBytes <$> attrs))
  = readAttrs attrs (mkRouteMessage 0 (byteAt 0 rtm) (byteAt 4 rtm) AddrInvalid 0 false false).
Proof.
  intros Hr Ha. unfold parseNewRoute, rtmsgLen, suffix. rewrite (drop_app_length' rtm) by done.
  destruct (Z.ltb_spec (blen (rtm ++ concat (attrBytes <$> attrs))) 12) as [Hl|_]; [unfold blen in Hl; rewrite length_app in Hl; lia|].
  unfold byteAt. rewrite !app_nth1 by lia. apply attrs_exact; [done|lia].
Qed.
Lemma failed_code errno request :
  - 2 ^ 31 < errno < 2 ^ 31 →
  let code := u32 (put32 ((- errno) mod 2 ^ 32) ++ request) in - (if code <? 2 ^ 31 then code else code - 2 ^ 32) = errno.
Proof. intros He. cbv zeta. rewrite u32_put by dlia. destruct (Z.ltb_spec ((- errno) mod 2 ^ 32) (2 ^ 31)); dlia. Qed.

Lemma messages_exact size msgs : Forall message_ok msgs → ∀ fuel messages,
  (length (concat (messageBytes <$> msgs)) < fuel)%nat →
  parseMessages fuel size (concat (messageBytes <$> msgs)) messages = readMessages size msgs messages.
Proof.
  induction 1 as [|m msgs Hm Hms IH]; intros fuel messages Hf; (destruct fuel as [|fuel]; [cbn in Hf; lia|]); [done|].
  cbn [fmap list_fmap concat] in *. set (rest := concat (messageBytes <$> msgs)) in *.
  destruct (message_read m rest Hm) as (Hlen & Htype & Hval & Hrest & Hle). pose proof (blen_message m Hm) as Hb.
  pose proof (align_bounds (16 + blen (bodyBytes m.2))). assert (0 ≤ blen (bodyBytes m.2)) by (unfold blen; lia).
  cbn [parseMessages]. unfold nlmsgHdrLen, rtmNewRoute, nlmsgError, nlmsgDone. rewrite Hlen, Htype, Hval, Hrest.
  rewrite !(proj2 (Z.ltb_ge _ _)) by lia. cbn [orb].
  assert (length rest < fuel)%nat as Hfuel by (rewrite length_app in Hf; unfold blen in *; lia).
  destruct m as [header b], Hm as [_ [Hok _]]. cbn [snd fst] in *. destruct b as [rtm attrs|errno request|data|t data]; cbn [bodyType bodyBytes readMessages Z.eqb] in *.
  - destruct Hok as [Hr Ha]. rewrite (route_exact _ _ Hr Ha). cbn [Pos.eqb]. destruct (readAttrs _ _); [by apply IH|done].
  - cbn [Pos.eqb]. rewrite (failed_code errno request Hok). destruct (Z.ltb_spec (blen (put32 ((- errno) mod 2 ^ 32) ++ request)) 4) as [Hs|_].
    { unfold blen, put32 in Hs. rewrite length_app, length_put in Hs. lia. }
    destruct (Z.eqb_spec errno 0); case_bool_decide; try done. by apply IH.
  - done.
  - destruct Hok as [_ Hn]. rewrite !(proj2 (Z.eqb_neq _ _)) by set_solver. by apply IH.
Qed.

(** ** Requests *)

Definition requestBytes (family dstLen pid : Z) (d : bytes) : bytes :=
  put32 (28 + nlmsgAlign (4 + blen d)) ++ put16 26 ++ put16 1 ++ put32 1 ++ put32 pid
  ++ ([bz family; bz dstLen; bz 0; bz 0; bz 254] ++ replicate 7 (bz 0)) ++ attrBytes (1, d).
Lemma built_request family dst req :
  BuildGetRouteLookup family dst = Ok req →
  ∃ dstLen d, destination family (Unmap dst) = Ok (dstLen, d) ∧
    ∀ pid, take 12 req ++ put32 pid ++ drop 16 req = requestBytes family dstLen pid d.
Proof.
  unfold BuildGetRouteLookup. intros ([dstLen d] & Hd & Hr)%bind_Ok. exists dstLen, d. split; [done|]. intros pid. apply Ok_inj in Hr. subst req.
  unfold nlmsgHdrLen, rtmsgLen, rtattrHdrLen. change (16 + 12) with 28. unfold requestBytes, attrBytes, padding. cbn [fst snd].
  assert (∀ a b c e f g : bytes, length (a ++ b ++ c ++ e) = 12%nat → length f = 4%nat →
            take 12 (a ++ b ++ c ++ e ++ f ++ g) ++ put32 pid ++ drop 16 (a ++ b ++ c ++ e ++ f ++ g)
            = a ++ b ++ c ++ e ++ put32 pid ++ g) as Hsplit.
  { intros a b c e f g H1 H2. replace (a ++ b ++ c ++ e ++ f ++ g) with ((a ++ b ++ c ++ e) ++ f ++ g) by (by rewrite <- !app_assoc).
    rewrite take_app_length' by done. change 16%nat with (12 + 4)%nat. rewrite <- drop_drop, drop_app_length' by done.
    rewrite drop_app_length' by done. by rewrite <- !app_assoc. }
  rewrite Hsplit; [|by rewrite !length_app; unfold put32, put16; rewrite !length_put|by unfold put32; rewrite length_put].
  by rewrite <- !app_assoc.
Qed.

Definition addr_range (a : Addr) : Prop :=
  match a with AddrInvalid => True | Addr4 ip => 0 ≤ ip < 2 ^ 32 | Addr6 ip _ => 0 ≤ ip < 2 ^ 128 end.
Definition withoutZone (a : Addr) : Addr := match a with Addr6 ip _ => Addr6 ip "" | _ => a end.
Lemma unmap_range a : addr_range a → addr_range (Unmap a).
Proof. destruct a as [|ip|ip z]; cbn [Unmap addr_range]; [done..|]. destruct (Is4In6 _); cbn [addr_range]; [dlia|done]. Qed.
Lemma destination_back family dst dstLen d :
  addr_range dst → destination family dst = Ok (dstLen, d) →
  addrFromFamily family d = Ok (withoutZone dst) ∧ (blen d = 4 ∨ blen d = 16) ∧
  ((family = 2 ∧ dstLen = 32) ∨ (family = 10 ∧ dstLen = 128)).
Proof.
  unfold destination, addrFromFamily, FamilyIPv4, FamilyIPv6. intros Hr. destruct (Z.eqb_spec family 2) as [->|].
  - destruct dst as [|ip|]; try done. intros [= <- <-]. cbn [addr_range] in Hr. split_and!; [|left; done|by left].
    change (BigEndian.be 4 ip) with (BigEndian.put32 ip). change (blen (BigEndian.put32 ip) <? 4) with false. cbv iota.
    rewrite (firstn_all2 (BigEndian.put32 ip)) by done. unfold BigEndian.put32. by rewrite BigEndian.de_be, Z.mod_small.
  - destruct (Z.eqb_spec family 10) as [->|]; [|done]. destruct dst as [| |ip z]; try done. intros [= <- <-]. cbn [addr_range] in Hr.
    split_and!; [|right; done|by right]. change (blen (BigEndian.be 16 ip) <? 16) with false. cbv iota.
    rewrite (firstn_all2 (BigEndian.be 16 ip)) by done. by rewrite BigEndian.de_be, Z.mod_small.
Qed.

Lemma attr_alone fuel a req :
  attr_ok a → (2 ≤ fuel)%nat → a.1 = 1 →
  requestAttrs fuel (attrBytes a) req =
    addr ← addrFromFamily (q_Family req) a.2;
    Ok (mkLookupRequest (q_Family req) (q_Flags req) (q_DstLen req) (q_Table req) addr (q_HasDump req)).
Proof.
  intros Ha Hf Ht. destruct fuel as [|[|fuel]]; try lia. destruct (attr_read a [] Ha) as (Hlen & Htype & Hval & Hrest & Hle).
  rewrite app_nil_r in *. cbn [requestAttrs]. unfold rtattrHdrLen, rtaDst. pose proof (align_bounds (4 + blen a.2)).
  assert (0 ≤ blen a.2) by (unfold blen; lia). rewrite Hlen, Htype, Hval, Hrest, Ht.
  rewrite (proj2 (Z.ltb_ge (blen (attrBytes a)) 4)), (proj2 (Z.ltb_ge (4 + blen a.2) 4)), (proj2 (Z.ltb_ge (blen (attrBytes a)) (4 + blen a.2))) by lia.
  cbn [orb Z.eqb Pos.eqb]. destruct (addrFromFamily _ _); [|done]. cbn [mbind result_bind]. by destruct (blen (attrBytes a) <? _).
Qed.

Lemma request_read family dstLen pid d addr :
  0 ≤ family < 256 → 0 ≤ dstLen < 256 → blen d = 4 ∨ blen d = 16 → addrFromFamily family d = Ok addr →
  ParseGetRouteRequest (requestBytes family dstLen pid d) = Ok (mkLookupRequest family 1 dstLen 254 addr false).
Proof.
  intros Hf Hl Hd Ha. pose proof (align_bounds (4 + blen d)) as Hal. pose proof (blen_attr (1, d)) as Hb. cbn [snd] in Hb.
  assert (blen (requestBytes family dstLen pid d) = 28 + nlmsgAlign (4 + blen d)) as Hlen.
  { unfold requestBytes, blen in *. rewrite !length_app. unfold put32, put16. rewrite !length_put. cbn [length replicate]. lia. }
  unfold ParseGetRouteRequest, nlmsgHdrLen, rtmsgLen, rtattrHdrLen. rewrite Hlen. rewrite (proj2 (Z.ltb_ge _ _)) by lia.
  assert (u32 (requestBytes family dstLen pid d) = 28 + nlmsgAlign (4 + blen d)) as -> by (unfold requestBytes; apply u32_put; lia).
  rewrite !(proj2 (Z.ltb_ge _ _)) by lia. cbn [orb].
  assert (u16 (drop 4 (requestBytes family dstLen pid d)) = 26) as ->.
  { unfold requestBytes. rewrite (drop_put 4). by apply u16_put. }
  assert (u16 (drop 6 (requestBytes family dstLen pid d)) = 1) as ->.
  { unfold requestBytes. change 6%nat with (4 + 2)%nat. rewrite <- drop_drop, (drop_put 4), (drop_put 2). by apply u16_put. }
  change (negb (26 =? rtmGetRoute)) with false. change (Z.land 1 nlFRequest =? 0) with false. change (negb (Z.land 1 nlFDump =? 0)) with false. cbv iota.
  set (header := put32 (28 + nlmsgAlign (4 + blen d)) ++ put16 26 ++ put16 1 ++ put32 1 ++ put32 pid).
  assert (length header = 16%nat) as Hh by (unfold header; rewrite !length_app; unfold put32, put16; by rewrite !length_put).
  set (rtm := [bz family; bz dstLen; bz 0; bz 0; bz 254] ++ replicate 7 (bz 0)).
  assert (requestBytes family dstLen pid d = header ++ rtm ++ attrBytes (1, d)) as -> by (unfold requestBytes, header; by rewrite <- !app_assoc).
  assert (∀ n, nth (16 + n) (header ++ rtm ++ attrBytes (1, d)) (bz 0) = nth n (rtm ++ attrBytes (1, d)) (bz 0)) as Hnth
    by (intros n; rewrite app_nth2 by lia; f_equal; lia).
  pose proof (Hnth 0%nat) as H0. pose proof (Hnth 1%nat) as H1. pose proof (Hnth 4%nat) as H4. cbn [Nat.add] in H0, H1, H4.
  unfold byteAt. rewrite H0, H1, H4. change (nth 0 (rtm ++ _) _) with (bz family).
  change (nth 1 (rtm ++ _) _) with (bz dstLen). change (nth 4 (rtm ++ _) _) with (bz 254). rewrite !zb_bz, !Z.mod_small by lia.
  assert (slice (16 + 12) (28 + nlmsgAlign (4 + blen d)) (header ++ rtm ++ attrBytes (1, d)) = attrBytes (1, d)) as ->.
  { unfold slice. rewrite app_assoc, drop_app_length' by (rewrite length_app, Hh; done). apply firstn_all2. unfold blen in *. lia. }
  rewrite attr_alone; [|split; cbn [fst snd]; lia|unfold blen in *; lia|done]. cbn [q_Family q_Flags q_DstLen q_Table q_HasDump snd]. by rewrite Ha.
Qed.


(** ** The address *)

(** An address that a host can be reached at. *)
Definition usable (a : Addr) : bool := usableFamilyAddr a FamilyIPv4 || usableFamilyAddr a FamilyIPv6.

Lemma families_apart a : usableFamilyAddr a FamilyIPv4 = true → usableFamilyAddr a FamilyIPv6 = false.
Proof. unfold usableFamilyAddr. destruct (_ || _); [done|]. by destruct a. Qed.
Lemma filter_split (p q : Addr → bool) l :
  (∀ a, p a = true → q a = false) → filter (λ a, p a || q a) l ≡ₚ filter p l ++ filter q l.
Proof.
  intros Hpq. induction l as [|a l IH]; [done|]. rewrite !filter_cons. destruct (p a) eqn:Hp; cbn [orb].
  - rewrite (Hpq a Hp). destruct (decide (Is_true true)); [|by case_decide]. destruct (decide (Is_true false)); [done|]. cbn [app]. by f_equiv.
  - destruct (decide (Is_true false)); [done|]. destruct (decide (q a)); [|done]. rewrite IH. by rewrite <- Permutation_middle.
Qed.
Lemma usable_single iface a :
  filter usable (Unmap <$> Addrs iface) = [a] ↔
  (familyUnicast iface FamilyIPv4 = [a] ∧ familyUnicast iface FamilyIPv6 = []) ∨
  (familyUnicast iface FamilyIPv4 = [] ∧ familyUnicast iface FamilyIPv6 = [a]).
Proof.
  assert (filter usable (Unmap <$> Addrs iface) ≡ₚ familyUnicast iface FamilyIPv4 ++ familyUnicast iface FamilyIPv6) as Hp
    by (apply filter_split; apply families_apart).
  split; intros Hs.
  - rewrite Hs in Hp. symmetry in Hp. apply Permutation_singleton_r in Hp.
    apply app_eq_unit in Hp as [[? ?]|[? ?]]; auto.
  - apply Permutation_singleton_r. destruct Hs as [[Hs4 Hs6]|[Hs4 Hs6]]; by rewrite Hp, Hs4, Hs6.
Qed.
Lemma interface_exact name ifaces a :
  AddressForInterface name ifaces = Ok a ↔
  Strings.trim_space name ≠ ""%string ∧
  ∃ iface, ifaceByName ifaces (Strings.trim_space name) = Some iface ∧ isUp iface = true ∧ isLoopback iface = false ∧
    filter usable (Unmap <$> Addrs iface) = [a].
Proof.
  setoid_rewrite usable_single. unfold AddressForInterface. case_bool_decide as Hn; [by split; [|intros [? _]]|].
  destruct (ifaceByName _ _) as [iface|]; [|by split; [|intros (_ & ? & ? & _)]].
  destruct (isUp iface) eqn:Hup; cbn [negb]; [|by split; [|intros (_ & ? & [= <-] & Hup' & _); rewrite Hup in Hup']].
  destruct (isLoopback iface) eqn:Hlo; [by split; [|intros (_ & ? & [= <-] & _ & Hlo' & _); rewrite Hlo in Hlo']|].
  split.
  - intros Ha. split; [done|]. exists iface. split_and!; try done.
    destruct (familyUnicast iface FamilyIPv4) as [|? [|? ?]], (familyUnicast iface FamilyIPv6) as [|? [|? ?]]; try done;
      apply Ok_inj in Ha; subst; auto.
  - intros (_ & ? & [= <-] & _ & _ & [[-> ->]|[-> ->]]); done.
Qed.

(** The address that the kernel's answer for a family gives. *)
Definition routed (lookup : RouteLookup) (ifaces : list Interface) (family : Z) (probe a : Addr) : Prop :=
  ∃ reply route iface, lookup family probe = (reply, None) ∧ filter isNewRoute (Messages reply) = [route] ∧ Table route = 254 ∧
    HasOutIf route = true ∧ ifaceByIndex ifaces (OutIfIndex route) = Some iface ∧
    (if HasPrefSrc route then a = Unmap (PrefSrc route) else familyUnicast iface family = [a]) ∧
    isUp iface = true ∧ isLoopback iface = false ∧ linkLocalOnly iface family = false ∧ usableFamilyAddr a family = true.

Lemma unmap_twice a : Unmap (Unmap a) = Unmap a.
Proof. destruct a as [|ip|ip z]; [done..|]. cbn [Unmap]. destruct (Is4In6 (Addr6 ip z)) eqn:E; [done|]. cbn [Unmap]. by rewrite E. Qed.
Lemma unicast_unmapped iface family a : a ∈ familyUnicast iface family → Unmap a = a.
Proof. unfold familyUnicast. intros [_ Ha]%list_elem_of_filter. apply list_elem_of_fmap in Ha as (b & -> & _). apply unmap_twice. Qed.

Lemma candidate_exact lookup ifaces family probe a iface :
  candidateForFamily lookup ifaces family probe = Ok (Some (a, iface)) → routed lookup ifaces family probe a.
Proof.
  unfold candidateForFamily. destruct (lookup family probe) as [reply [[errno|e]|]] eqn:El; [by destruct (unreachable errno)|done|].
  destruct (_ =? 0)%nat; [done|]. unfold singleNewRoute. destruct (filter _ (Messages reply)) as [|route [|]] eqn:Er; try done.
  destruct (Z.eqb_spec (Table route) rtTableMain) as [Ht|]; cbn [negb]; [|done]. cbv zeta. destruct (HasOutIf route) eqn:Ho.
  2: { unfold routeAddress. by destruct (HasPrefSrc route). }
  destruct (ifaceByIndex ifaces (OutIfIndex route)) as [i|] eqn:Ei; [|intros (? & _ & ?)%bind_Ok; done].
  intros (addr & Ha & Hf)%bind_Ok. apply Ok_inj in Hf. unfold filterCandidate in Hf.
  destruct (isUp i) eqn:?; cbn [negb] in Hf; [|done]. destruct (isLoopback i) eqn:?; [done|]. destruct (linkLocalOnly i family) eqn:?; [done|].
  destruct (usableFamilyAddr (Unmap addr) family) eqn:?; cbn [negb] in Hf; [|done]. injection Hf as <- <-.
  exists reply, route, i. split_and!; try done. unfold routeAddress in Ha. destruct (HasPrefSrc route).
  - apply Ok_inj in Ha. subst addr. by rewrite unmap_twice.
  - destruct (familyUnicast i family) as [|b [|]] eqn:Eu; try done. apply Ok_inj in Ha. subst b.
    rewrite (unicast_unmapped i family addr); [done|]. rewrite Eu. set_solver.
Qed.

(** C39: the address a host binds to.  A named interface gives an address exactly
    when it is the first of that name, is up and no loopback interface, and that
    address is its only usable one of both families; without a name, the
    discovery gives nothing or a usable unicast address that the kernel's single
    main-table route for one family selects, on an interface that is up and no
    loopback, while the other family gives none. *)
Theorem bind_address_exact name ifaces lookup :
  (∀ a, AddressForInterface name ifaces = Ok a ↔
        Strings.trim_space name ≠ ""%string ∧
        ∃ iface, ifaceByName ifaces (Strings.trim_space name) = Some iface ∧ isUp iface = true ∧ isLoopback iface = false ∧
          filter usable (Unmap <$> Addrs iface) = [a]) ∧
  match Discover lookup ifaces with
  | Ok AddrInvalid | Err _ => True
  | Ok a => usable a = true ∧
            ((routed lookup ifaces FamilyIPv4 ProbeIPv4 a ∧ candidateForFamily lookup ifaces FamilyIPv6 ProbeIPv6 = Ok None) ∨
             (routed lookup ifaces FamilyIPv6 ProbeIPv6 a ∧ candidateForFamily lookup ifaces FamilyIPv4 ProbeIPv4 = Ok None))
  end.
Proof.
  split; [intros a; apply interface_exact|]. unfold Discover.
  destruct (candidateForFamily lookup ifaces FamilyIPv4 ProbeIPv4) as [v4|e] eqn:E4; [|done]. cbn [mbind result_bind].
  destruct (candidateForFamily lookup ifaces FamilyIPv6 ProbeIPv6) as [v6|e] eqn:E6; [|done]. cbn [mbind result_bind].
  destruct v4 as [[a i]|], v6 as [[b j]|]; try done.
  - pose proof (candidate_exact _ _ _ _ _ _ E4) as Hr. assert (usable a = true) as Hu.
    { destruct Hr as (?&?&?&_&_&_&_&_&_&_&_&_&Hu). unfold usable. by rewrite Hu. }
    destruct a; auto.
  - pose proof (candidate_exact _ _ _ _ _ _ E6) as Hr. assert (usable b = true) as Hu.
    { destruct Hr as (?&?&?&_&_&_&_&_&_&_&_&_&Hu). unfold usable. rewrite Hu. by rewrite orb_true_r. }
    destruct b; auto.
Qed.

(** ** A kernel with one route *)

Definition sampleMessages : list (bytes * body) :=
  [(replicate 10 (bz 0), NewRoute (bz 2 :: replicate 3 (bz 0) ++ bz 254 :: replicate 7 (bz 0))
                           [(7, BigEndian.be 4 3405803786); (4, put32 2); (99, [bz 1])]);
   (replicate 10 (bz 0), Done [])].
