(* ===== verification/HostApply.v ===== *)
(** * internal/command: the host command

    host_network.go chooses the addresses a host binds to and publishes;
    host_revision.go records which configuration is wanted and which has been
    applied; host_apply.go puts a configuration in place step by step: identity,
    manifest, wanted revision, services, probes, applied receipt, invite.  The
    helpers that start services and probe them are arguments, as they are in the
    source ([hostApplyEnv]); so are the interfaces of the machine and the
    kernel's answers. *)

From S2P Require Import Prelude GoStd Json StrictJson Time Host Locator Grant SshWire Crypto Packet Kex Conn Forward Serve Listen.
From S2P Require Import ClientStore Clients Server AuthorizedKeys GrantSession Reconcile Invite Accept InviteClient Enroll Config Resolve.
From S2P Require Import Routes Lifecycle Tunnels Submit ClientEnroll NetInspect.
Import Time Json Netip Locator.
Import Server.

Module HostApply.

Definition eqs (a b : string) : bool := bool_decide (a = b).

Definition defaultHostListenPort : Z := 2222.
(** installlayout *)
Definition SSHDPath : string := "/opt/warptweet/libexec/openssh/sbin/sshd".
Definition OpenSSHBundleManifestPath : string := "/opt/warptweet/share/openssh-bundle.sha256".
Definition ServerConfigPath : string := "/etc/warptweet/sshd_config".
Definition HostAuthorizationPolicyPath : string := "/etc/warptweet/host-authorization.json".

(** ** net/netip: [ParseAddrPort] *)

Definition splitAddrPort (s : string) : result (string * string * bool) :=
  let b := to_bytes s in
  match ClientEnroll.lastIndex 58 b with
  | None => Err (EMsg "not an ip:port")
  | Some i =>
      let ip := take i b in
      let port := drop (S i) b in
      match ip with
      | [] => Err (EMsg "no IP")
      | c :: r =>
          if bool_decide (port = []) then Err (EMsg "no port")
          else if zb c =? 91 then
            match reverse r with
            | last :: inner => if zb last =? 93 then Ok (to_string (reverse inner), to_string port, true) else Err (EMsg "missing ]")
            | [] => Err (EMsg "missing ]")
            end
          else Ok (to_string ip, to_string port, false)
      end
  end.
Definition ParseAddrPort (s : string) : result AddrPort :=
  '(ip, port, v6) ← splitAddrPort s;
  port16 ← Strings.parse_uint port 16;
  addr ← ParseAddr ip;
  if v6 && Is4 addr then Err (EMsg "square brackets can only be used with IPv6 addresses")
  else if negb v6 && Inspectnet.Is6 addr then Err (EMsg "IPv6 addresses must be surrounded by square brackets")
  else Ok (AddrPortFrom addr port16).

(** ** server_admin.go, host.go: endpoints of the command line *)

(** [strings.Cut(s, sep)] at the first [c]. *)
Definition cut (c : Z) (s : string) : option (string * string) :=
  let b := to_bytes s in
  match ClientEnroll.firstIndex c b with
  | Some i => Some (to_string (take i b), to_string (drop (S i) b))
  | None => None
  end.

Definition parseEndpoint (value : string) : result AddrPort :=
  match ParseAddrPort value with
  | Err err =>
      match cut 58 value with
      | None => Err err
      | Some (host, portText) =>
          match ParseAddr host with
          | Err _ => Err err
          | Ok address =>
              match Strings.parse_uint portText 16 with
              | Err _ => Err err
              | Ok port => if port =? 0 then Err err else Ok (AddrPortFrom address port)
              end
          end
      end
  | Ok endpoint =>
      if IsUnspecified (ap_addr endpoint) || negb (eqs (Zone (ap_addr endpoint)) "") || (ap_port endpoint =? 0)
      then Err (EMsg "endpoint must be a concrete unzoned IP and nonzero port")
      else Ok endpoint
  end.

Definition loopback : Addr := Addr4 2130706433.
Definition parseHostTarget (value : string) : result AddrPort :=
  let value := Strings.trim_space value in
  if eqs value "" then Err (EMsg "target is required")
  else if negb (Strings.contains value ":") then
    match Strings.parse_uint value 16 with
    | Ok port => if port =? 0 then Err (EMsg "port must be a nonzero TCP port") else Ok (AddrPortFrom loopback port)
    | Err _ => Err (EMsg "port must be a nonzero TCP port")
    end
  else parseEndpoint value.

(** ** host_network.go *)

Record onceStringFlag := mkFlag { isSet : bool; value : string }.
Record hostPublicationFlags := mkFlags {
  f_Listen : onceStringFlag;
  f_ListenInterface : onceStringFlag;
  f_Advertise : onceStringFlag;
  f_EnrollListen : onceStringFlag;
  f_EnrollAdvertise : onceStringFlag;
}.
Record hostPublication := mkPublication {
  DataListen : BindEndpoint;
  EnrollListen : BindEndpoint;
  DataDial : DialEndpoint;
  EnrollDial : DialEndpoint;
}.

Definition sameDialEndpointValue (l r : DialEndpoint) : bool := (Port l =? Port r) && Equal (Host l) (Host r).

Definition parsePublishedEndpoint (text : string) : result DialEndpoint :=
  '(host, portText) ← ClientEnroll.SplitHostPort text;
  match Strings.parse_uint portText 16 with
  | Err _ => Err (EMsg "port must be a nonzero TCP port")
  | Ok port =>
      if port =? 0 then Err (EMsg "port must be a nonzero TCP port")
      else dialHost ← ParseDialHost host; Ok (mkEndpoint dialHost port)
  end.

Definition resolveDataDial (advertise : onceStringFlag) (dataListen : BindEndpoint) (stored : option Config) : result DialEndpoint :=
  let listenDial := DialFromBind dataListen in
  if negb (isSet advertise) then
    match stored with
    | Some stored => if sameDialEndpointValue (Dial (n_Data (Net stored))) listenDial then Ok listenDial else Ok (Dial (n_Data (Net stored)))
    | None => Ok listenDial
    end
  else if eqs (value advertise) "" then Ok listenDial
  else match parsePublishedEndpoint (value advertise) with
       | Err e => Err (EMsg ("advertise: " ++ errText e))
       | Ok parsed => if sameDialEndpointValue parsed listenDial then Ok listenDial else Ok parsed
       end.

Definition resolveEnrollListenFlag (flag : onceStringFlag) (dataListen : BindEndpoint) (stored : option Config) (dataChanged : bool)
    : result BindEndpoint :=
  if isSet flag && negb (eqs (value flag) "") then
    match parseEndpoint (value flag) with
    | Err e => Err (EMsg ("enroll-listen: " ++ errText e))
    | Ok endpoint => Ok (mkBind (ap_addr endpoint) (ap_port endpoint))
    end
  else
    let default_ := mkBind (b_Address dataListen) Invite.DefaultEnrollmentPort in
    match stored with
    | Some stored => if negb dataChanged && negb (isSet flag) then Ok (Listen (n_Enrollment (Net stored))) else Ok default_
    | None => Ok default_
    end.

Definition resolveEnrollDial (flag : onceStringFlag) (dataDial : DialEndpoint) (stored : option Config) (dataChanged : bool)
    : result DialEndpoint :=
  if isSet flag && negb (eqs (value flag) "") then
    match parsePublishedEndpoint (value flag) with
    | Err e => Err (EMsg ("enroll-advertise: " ++ errText e))
    | Ok parsed => Ok parsed
    end
  else
    let default_ := mkEndpoint (Host dataDial) Invite.DefaultEnrollmentPort in
    match stored with
    | Some stored => if negb dataChanged && negb (isSet flag) then Ok (Dial (n_Enrollment (Net stored))) else Ok default_
    | None => Ok default_
    end.

Definition resolveListen (flagValue : string) (stored : option Config) (discover : HM Addr) : HM AddrPort :=
  if negb (eqs flagValue "") then hlift (parseEndpoint flagValue)
  else match stored with
       | Some stored => mret (AddrPort_ (Listen (n_Data (Net stored))))
       | None =>
           addr ← discover;
           mret (AddrPortFrom (if IsValid addr then addr else loopback) defaultHostListenPort)
       end.
Definition resolveDataListen (flags : hostPublicationFlags) (stored : option Config) (discover : HM Addr)
    (ifaces : list Inspectnet.Interface) : HM BindEndpoint :=
  if isSet (f_ListenInterface flags) then
    addr ← hlift (Inspectnet.AddressForInterface (value (f_ListenInterface flags)) ifaces);
    mret (mkBind addr defaultHostListenPort)
  else
    listen ← resolveListen (value (f_Listen flags)) stored discover;
    mret (mkBind (ap_addr listen) (ap_port listen)).
Definition resolveHostPublication (flags : hostPublicationFlags) (stored : option Config) (discover : HM Addr)
    (ifaces : list Inspectnet.Interface) : HM hostPublication :=
  if isSet (f_Listen flags) && isSet (f_ListenInterface flags)
  then hfail (EMsg "host --listen cannot be combined with --listen-interface")
  else
    dataListen ← resolveDataListen flags stored discover ifaces;
    dataDial ← hlift (resolveDataDial (f_Advertise flags) dataListen stored);
    let dataChanged := isSet (f_Listen flags) || isSet (f_ListenInterface flags) || isSet (f_Advertise flags) in
    enrollListen ← hlift (resolveEnrollListenFlag (f_EnrollListen flags) dataListen stored dataChanged);
    enrollDial ← hlift (resolveEnrollDial (f_EnrollAdvertise flags) dataDial stored dataChanged);
    mret (mkPublication dataListen enrollListen dataDial enrollDial).

(** ** Changes that are refused *)

Definition ended (record : ClientStore.ClientRecord) : bool :=
  eqs (ClientStore.Status record) Clients.ClientStatusExpired || eqs (ClientStore.Status record) Clients.ClientStatusRevoked.
Definition unissued (record : Invite.InviteRecord) : bool := negb (eqs (Invite.Status record) Invite.StatusIssued).
(** The first grant that has not ended or invite that is out refuses. *)
Definition changeBlocked (what : string) (clients : list ClientStore.ClientRecord) (invites : list Invite.InviteRecord) : result () :=
  match find (λ r, negb (ended r)) clients with
  | Some record => Err (EMsg (what ++ " while grant " ++ ClientStore.ClientID record ++ " is " ++ ClientStore.Status record))
  | None =>
      match find (λ r, negb (unissued r)) invites with
      | Some record => Err (EMsg (what ++ " while invite " ++ Invite.InviteID (Invite.r_Invite record) ++ " is issued"))
      | None => Ok ()
      end
  end.
Definition publicationChangeBlocked := changeBlocked "published endpoints cannot change".

(** ** host_revision.go *)

Definition hostDesiredKind : string := "warptweet.host-desired-revision".
Definition hostAppliedKind : string := "warptweet.host-applied-receipt".
Definition hostRevisionVer : Z := 1.

Record hostRevision := mkRevision { v_Kind : string; v_SchemaVersion : Z; v_NetworkSHA256 : string; v_CertLeafSHA256 : string }.
Definition zeroRevision : hostRevision := mkRevision "" 0 "" "".
Definition revisionEqual (rev other : hostRevision) : bool :=
  (v_SchemaVersion rev =? v_SchemaVersion other) && eqs (v_NetworkSHA256 rev) (v_NetworkSHA256 other)
  && eqs (v_CertLeafSHA256 rev) (v_CertLeafSHA256 other).
Definition revisionFields : list (field hostRevision) :=
  [("kind", string_field (λ v r, mkRevision v (v_SchemaVersion r) (v_NetworkSHA256 r) (v_CertLeafSHA256 r)));
   ("schema_version", int_field (λ v r, mkRevision (v_Kind r) v (v_NetworkSHA256 r) (v_CertLeafSHA256 r)));
   ("network_sha256", string_field (λ v r, mkRevision (v_Kind r) (v_SchemaVersion r) v (v_CertLeafSHA256 r)));
   ("cert_leaf_sha256", string_field (λ v r, mkRevision (v_Kind r) (v_SchemaVersion r) (v_NetworkSHA256 r) v))]%string.
Definition revisionJSON (r : hostRevision) : json :=
  JObj [("kind", JStr (v_Kind r)); ("schema_version", JInt (v_SchemaVersion r)); ("network_sha256", JStr (v_NetworkSHA256 r));
        ("cert_leaf_sha256", JStr (v_CertLeafSHA256 r))]%string.
Definition revisionText (r : hostRevision) : bytes := print (revisionJSON r) ++ [bz 10].

Definition desiredRevisionPath (stateDir : string) : string := Filepath.Join stateDir "desired-revision.json".
Definition appliedReceiptPath (stateDir : string) : string := Filepath.Join stateDir "applied-receipt.json".

(** The JSON forms of a server manifest. *)
Definition addrText (a : Addr) : string := match a with AddrInvalid => "" | _ => addr_string a end.
Definition bindJSON (e : BindEndpoint) : json := JObj [("address", JStr (addrText (b_Address e))); ("port", JInt (b_Port e))]%string.
Definition serviceJSON (s : ServiceEndpoints) : result json :=
  dial ← ClientStore.endpointJSON (Dial s); Ok (JObj [("listen", bindJSON (Listen s)); ("dial", dial)]%string).
Definition networkJSON (n : Network) : result json :=
  data ← serviceJSON (n_Data n); enrollment ← serviceJSON (n_Enrollment n);
  Ok (JObj [("published_endpoint_generation", JInt (PublishedEndpointGeneration n)); ("data", data); ("enrollment", enrollment)]%string).
Definition manifestJSON (c : Config) : result json :=
  network ← networkJSON (Net c);
  Ok (JObj [("kind", JStr (Kind c)); ("schema_version", JInt (SchemaVersion c)); ("profile_id", JStr (ProfileID c));
            ("sshd_binary_sha256", JStr (SSHDBinarySHA256 c));
            ("openssh_bundle_manifest_sha256", JStr (OpenSSHBundleManifestSHA256 c)); ("network", network);
            ("target", JObj [("address", JStr (addrText (e_Address (Target c)))); ("port", JInt (e_Port (Target c)))]);
            ("dedicated_user", JStr (DedicatedUser c)); ("host_key_path", JStr (HostKeyPath c));
            ("authorized_keys_path", JStr (AuthorizedKeysPath c))]%string).

(** ** host_apply.go *)

Definition hostStepCertWrite : string := "cert-write".
Definition hostStepManifestWrite : string := "manifest-write".
Definition hostStepDataPlaneRestart : string := "data-plane-restart".
Definition hostStepEnrollmentRestart : string := "enrollment-restart".
Definition hostStepReadinessVerify : string := "readiness-verify".
Definition hostStepInviteRecord : string := "invite-record-create".
Definition errHostInterrupted : string := "host apply interrupted".

Record hostApplyEnv := mkApplyEnv {
  ManifestPath : string;
  StateDir : string;
  InviteDir : string;
  ClientsDir : string;
  CertPath : string;
  KeyPath : string;
  InterruptAfter : string;
  Now : Time;
  Discover : option (HM Addr);
  Interfaces : option (HM (list Inspectnet.Interface));
  ApplyDataPlane : option (bool → AddrPort → HM string);
  ApplyEnrollment : option (bool → AddrPort → string → HM string);
  ProbeTCP : option (AddrPort → HM bool);
  EnsureIdentity : option (HM (string * bool));
  EnsureTLS : option (Time → HM (string * bool * bool));
  WriteSSHD : option (Config → HM ());
  AllowTestDigests : bool;
}.
Record hostApplyInput := mkInput {
  i_Target : AddrPort;
  i_Flags : hostPublicationFlags;
  i_NoInvite : bool;
  i_Label : string;
  i_AuthorizationSeconds : Z;
}.
Record hostApplyResult := mkApplyResult {
  Manifest : Config;
  Publication : hostPublication;
  HostPublicKey : string;
  CreatedHostKey : bool;
  EnrollmentPin : string;
  CreatedEnrollmentIdentity : bool;
  RenewedEnrollmentCertificate : bool;
  DataPlaneStatus : string;
  EnrollStatus : string;
  Desired : hostRevision;
  (** the invite, its text and whether it was resumed, unless none was wanted *)
  InviteOf : option (Invite.Invite * bytes * bool);
}.

(** A helper that must be there. *)
Definition required {A} (helper : option A) (what : string) : HM A :=
  match helper with Some f => mret f | None => hfail (EMsg (what ++ " is required")) end.

Definition checkpoint (env : hostApplyEnv) (step : string) : HM () :=
  if negb (eqs (InterruptAfter env) "") && eqs (InterruptAfter env) step
  then hfail (wrapErr errHostInterrupted ("after " ++ step)) else mret ().

Section apply.
Context {CR : Crypto} {Key : Type} (K : Submit.pki Key) (H : hostEnv) (rnd : nat → nat → bytes).
(** [ssh-keygen -y], the interfaces of the machine, the kernel's answers to route
    lookups, whether a port accepts, and the artifact profile of the build. *)
Context (keygen : nat → list string → gmap string bytes → result bytes * gmap string bytes).
Context (netInterfaces : nat → result (list Inspectnet.netInterface)) (bindSocket : nat → result Z) (exchange : nat → bytes → result bytes).
Context (accepts : nat → AddrPort → bool) (artifactProfile : result string).

Definition discoverHostBind : HM Addr :=
  n ← call;
  match Inspectnet.ListHostInterfaces (netInterfaces n) with
  | Err e => hfail (EMsg ("inspect-network: list interfaces: " ++ errText e ++ "; pass --listen"))
  | Ok ifaces => hlift (Inspectnet.Discover (Inspectnet.KernelRouteLookup (bindSocket n) (exchange n)) ifaces)
  end.
Definition probeTCPListener (endpoint : AddrPort) : HM bool := n ← call; mret (accepts n endpoint).

Definition loadManifestAt (path : string) : HM (option Config) :=
  r ← htry (Lstat H path);
  match r with
  | Err e => if IsNotExist e then mret None else hfail e
  | Ok _ => manifest ← Server.Load H path; mret (Some manifest)
  end.

Definition writeServerManifestAtomic (path : string) (manifest : Config) : HM () :=
  encoded ← hlift (manifestJSON manifest); AuthorizedKeys.writeFileAtomic H path (print encoded ++ [bz 10]).
Definition writeHostRevision (path : string) (rev : hostRevision) : HM () := AuthorizedKeys.writeFileAtomic H path (revisionText rev).

Definition loadHostRevision (path kind : string) : HM (option hostRevision) :=
  r ← htry (ReadFile H path);
  match r with
  | Err e => if IsNotExist e then mret None else hfail e
  | Ok contents =>
      v ← hlift (parse_all contents);
      rev ← hlift (decode false revisionFields v zeroRevision);
      if negb (eqs (v_Kind rev) kind) || negb (v_SchemaVersion rev =? hostRevisionVer) then mret None else mret (Some rev)
  end.

Definition canonicalNetworkSHA256 (network : Network) : result string :=
  encoded ← networkJSON network; Ok (Hex.encode (sha256 (print encoded))).
Definition certLeafSHA256 (path : string) : HM string :=
  contents ← ReadFile H path;
  match Submit.pemDecode K contents with
  | Some (type_, block, _) =>
      if negb (eqs type_ "CERTIFICATE") then hfail (EMsg ("enrollment certificate " ++ path ++ " is not a PEM CERTIFICATE"))
      else match Submit.ParseCertificate K block with
           | Err e => hfail (EMsg ("parse enrollment certificate: " ++ errText e))
           | Ok _ => mret (Hex.encode (sha256 block))
           end
  | None => hfail (EMsg ("enrollment certificate " ++ path ++ " is not a PEM CERTIFICATE"))
  end.
Definition computeHostRevision (kind : string) (network : Network) (certPath : string) : HM hostRevision :=
  networkHash ← hlift (canonicalNetworkSHA256 network);
  leaf ← certLeafSHA256 certPath;
  mret (mkRevision kind hostRevisionVer networkHash leaf).

Definition refuseHostTargetChangeAt (manifestPath clientsDir inviteDir : string) (target : AddrPort) : HM () :=
  existing ← loadManifestAt manifestPath;
  match existing with
  | None => mret ()
  | Some existing =>
      let current := AddrPortFrom (e_Address (Target existing)) (e_Port (Target existing) mod 2 ^ 16) in
      if bool_decide (current = target) then mret ()
      else
        clients ← htry (Clients.ListClients H clientsDir);
        match clients with
        | Err e => hfail (EMsg ("list grants before target change: " ++ errText e))
        | Ok clients =>
            invites ← htry (Invite.List H inviteDir);
            match invites with
            | Err e => hfail (EMsg ("list invites before target change: " ++ errText e))
            | Ok invites => hlift (changeBlocked "host target cannot change" clients invites)
            end
        end
  end.
Definition refusePublishedLocatorChangeAt (clientsDir inviteDir : string) : HM () :=
  clients ← htry (Clients.ListClients H clientsDir);
  match clients with
  | Err e => hfail (EMsg ("list grants before published endpoint change: " ++ errText e))
  | Ok clients =>
      invites ← htry (Invite.List H inviteDir);
      match invites with
      | Err e => hfail (EMsg ("list invites before published endpoint change: " ++ errText e))
      | Ok invites => hlift (publicationChangeBlocked clients invites)
      end
  end.

Definition stringsRepeatZero : string := "0000000000000000000000000000000000000000000000000000000000000000".
Definition sha256OfString (s : string) : string := Hex.encode (sha256 (to_bytes s)).
(** The digest of an installed file, or the one the manifest had, or a stand-in. *)
Definition digestOf (env : hostApplyEnv) (path stored suffix_ what : string) : HM string :=
  r ← htry (ClientEnroll.fileSHA256 H path);
  match r with
  | Ok digest => mret digest
  | Err e =>
      if negb (eqs stored "") && negb (eqs stored stringsRepeatZero) then mret stored
      else if AllowTestDigests env then mret (sha256OfString (ManifestPath env ++ suffix_))
      else hfail (EMsg ("hash " ++ what ++ ": " ++ errText e))
  end.
Definition orElse (s default_ : string) : string := if negb (eqs s "") then s else default_.
Definition newManifest (stored : option Config) (sshdDigest bundleDigest : string) (target : AddrPort) (network : Network) : Config :=
  let from (f : Config → string) (default_ : string) := match stored with Some c => orElse (f c) default_ | None => default_ end in
  mkConfig ManifestKind CurrentSchemaVersion (from ProfileID Profile.CurrentID) sshdDigest bundleDigest network
    (mkEndpoint_ (ap_addr target) (ap_port target)) (from DedicatedUser DefaultDedicatedUser)
    (from HostKeyPath ServerHostKeyPath) (from AuthorizedKeysPath (AuthorizedKeysDirectory ++ "/" ++ DefaultDedicatedUser)%string).
Definition writeHostManifestNetwork (env : hostApplyEnv) (stored : option Config) (target : AddrPort) (network : Network) : HM Config :=
  let storedDigest (f : Config → string) := match stored with Some c => f c | None => ""%string end in
  sshdDigest ← digestOf env SSHDPath (storedDigest SSHDBinarySHA256) ":sshd" "sshd binary";
  bundleDigest ← digestOf env OpenSSHBundleManifestPath (storedDigest OpenSSHBundleManifestSHA256) ":bundle" "OpenSSH bundle manifest";
  let manifest := newManifest stored sshdDigest bundleDigest target network in
  hlift (Server.Validate manifest);;
  writeServerManifestAtomic (ManifestPath env) manifest;;
  (match WriteSSHD env with Some write => write manifest | None => mret () end);;
  mret manifest.

(** host.go *)
Definition deriveHostPublicKey (privateKeyPath : string) : HM string :=
  n ← call; fs ← get_files;
  let '(r, fs') := keygen n [ClientEnroll.SSHKeygenPath; "-y"; "-f"; privateKeyPath]%string fs in
  set_files (λ _, fs');;
  match r with
  | Err e => hfail (EMsg ("derive host public key: " ++ errText e))
  | Ok output =>
      let line := Strings.trim_space (to_string output) in
      if eqs line "" || Strings.contains_any line (to_string [bz 13; bz 10])
      then hfail (EMsg "host public key output must be exactly one line") else mret line
  end.
Definition mintServerInvite (clientName : string) (target : AddrPort) (manifest : Config) (hostPublicKey pin : string)
    (authorizationSeconds : Z) (now : Time) : HM (Invite.Invite * Invite.InviteRecord) :=
  if negb (bool_decide (ap_addr target = e_Address (Target manifest))) || negb (e_Port (Target manifest) mod 2 ^ 16 =? ap_port target)
  then hfail (EMsg "invite target does not match server manifest target")
  else
    hostPublicKey ← (if eqs hostPublicKey "" then deriveHostPublicKey (HostKeyPath manifest) else mret hostPublicKey);
    artifactID ← hlift artifactProfile;
    dataHost ← hlift (Canonical (Host (Dial (n_Data (Net manifest)))));
    enrollHost ← hlift (Canonical (Host (Dial (n_Enrollment (Net manifest)))));
    let enrollPort := Port (Dial (n_Enrollment (Net manifest))) in
    let enrollPort := if enrollPort =? 0 then Invite.DefaultEnrollmentPort else enrollPort in
    Invite.Create H rnd
      (Invite.mkCreateInput clientName dataHost (Port (Dial (n_Data (Net manifest)))) enrollHost enrollPort pin
         (PublishedEndpointGeneration (Net manifest)) (e_Address (Target manifest)) (e_Port (Target manifest) mod 2 ^ 16)
         (DedicatedUser manifest) (ProfileID manifest) artifactID hostPublicKey Invite.DefaultTTL authorizationSeconds 0 now).

Definition resumeOrMintInvite (env : hostApplyEnv) (input : hostApplyInput) (manifest : Config) (hostPublicKey pin : string)
    : HM (Invite.Invite * bytes * bool) :=
  issued ← Invite.UnusedIssuedForGeneration H (InviteDir env) (PublishedEndpointGeneration (Net manifest)) (Now env);
  match issued with
  | _ :: _ :: _ => hfail (EMsg "multiple unused issued invites exist for published_endpoint_generation")
  | [record] =>
      blob ← Invite.LoadIssuedBlob H (InviteDir env) (Invite.InviteID (Invite.r_Invite record));
      mret (Invite.r_Invite record, blob ++ [bz 10], true)
  | [] =>
      '(invite, record) ← mintServerInvite (i_Label input) (i_Target input) manifest hostPublicKey pin (i_AuthorizationSeconds input) (Now env);
      Invite.Store H (InviteDir env) record;;
      blob ← Invite.LoadIssuedBlob H (InviteDir env) (Invite.InviteID invite);
      mret (invite, blob ++ [bz 10], false)
  end.

Definition withNow (env : hostApplyEnv) (t : Time) : hostApplyEnv :=
  mkApplyEnv (ManifestPath env) (StateDir env) (InviteDir env) (ClientsDir env) (CertPath env) (KeyPath env) (InterruptAfter env) t
    (Discover env) (Interfaces env) (ApplyDataPlane env) (ApplyEnrollment env) (ProbeTCP env) (EnsureIdentity env) (EnsureTLS env)
    (WriteSSHD env) (AllowTestDigests env).

(** The services are brought to the manifest and probed, and the receipt says
    so. *)
Definition applyServices (env : hostApplyEnv) (publication : hostPublication) (restartData restartEnroll : bool) (pin : string)
    (desired : hostRevision) : HM (string * string) :=
  let probe := default probeTCPListener (ProbeTCP env) in
  applyDataPlane ← required (ApplyDataPlane env) "data-plane apply helper";
  data ← htry (applyDataPlane restartData (AddrPort_ (DataListen publication)));
  match data with
  | Err e => hfail (EMsg ("start WarpTweet data plane: " ++ errText e))
  | Ok dataStatus =>
      checkpoint env hostStepDataPlaneRestart;;
      applyEnrollment ← required (ApplyEnrollment env) "enrollment apply helper";
      enroll ← htry (applyEnrollment restartEnroll (AddrPort_ (EnrollListen publication)) pin);
      match enroll with
      | Err e => hfail (EMsg ("start enrollment listener: " ++ errText e))
      | Ok enrollStatus =>
          checkpoint env hostStepEnrollmentRestart;;
          dataUp ← probe (AddrPort_ (DataListen publication));
          if negb dataUp then hfail (EMsg ("data listen " ++ addrport_string (AddrPort_ (DataListen publication)) ++ " did not accept"))
          else
            enrollUp ← probe (AddrPort_ (EnrollListen publication));
            if negb enrollUp then hfail (EMsg ("enrollment listen " ++ addrport_string (AddrPort_ (EnrollListen publication)) ++ " did not accept"))
            else
              writeHostRevision (appliedReceiptPath (StateDir env))
                (mkRevision hostAppliedKind hostRevisionVer (v_NetworkSHA256 desired) (v_CertLeafSHA256 desired));;
              checkpoint env hostStepReadinessVerify;;
              mret (dataStatus, enrollStatus)
      end
  end.

Definition applyHostConfiguration (env : hostApplyEnv) (input : hostApplyInput) : HM hostApplyResult :=
  t ← (if IsZero (Now env) then Host.now H else mret (Now env));
  let env := withNow env t in
  stored ← loadManifestAt (ManifestPath env);
  ifaces ← (if isSet (f_ListenInterface (i_Flags input)) then
              list_ ← required (Interfaces env) "listen-interface resolver"; list_
            else mret []);
  publication ← resolveHostPublication (i_Flags input) stored (default discoverHostBind (Discover env)) ifaces;
  ensureIdentity ← required (EnsureIdentity env) "host identity helper";
  '(hostPublicKey, createdHostKey) ← ensureIdentity;
  ensureTLS ← required (EnsureTLS env) "enrollment TLS helper";
  tls ← htry (ensureTLS (Now env));
  match tls with
  | Err e => hfail (EMsg ("ensure enrollment TLS identity: " ++ errText e))
  | Ok (pin, createdTLS, renewedTLS) =>
      checkpoint env hostStepCertWrite;;
      refuseHostTargetChangeAt (ManifestPath env) (ClientsDir env) (InviteDir env) (i_Target input);;
      '(network, publishedChanged) ← hlift (ProposeNetwork (DataListen publication) (EnrollListen publication)
          (DataDial publication) (EnrollDial publication) (Net <$> stored));
      (if (publishedChanged : bool) then refusePublishedLocatorChangeAt (ClientsDir env) (InviteDir env) else mret ());;
      manifest ← writeHostManifestNetwork env stored (i_Target input) network;
      desired ← computeHostRevision hostDesiredKind (Net manifest) (CertPath env);
      writeHostRevision (desiredRevisionPath (StateDir env)) desired;;
      checkpoint env hostStepManifestWrite;;
      applied ← loadHostRevision (appliedReceiptPath (StateDir env)) hostAppliedKind;
      let appliedMismatch := match applied with Some applied => negb (revisionEqual desired applied) | None => true end in
      let listenChanged (service : Network → ServiceEndpoints) (listen : BindEndpoint) :=
        match stored with
        | None => true
        | Some c => negb (bool_decide (AddrPort_ (Listen (service (Net c))) = AddrPort_ listen))
        end in
      let certChanged := match applied with Some applied => negb (eqs (v_CertLeafSHA256 applied) (v_CertLeafSHA256 desired)) | None => true end in
      let targetChanged := match stored with
                           | Some c => negb (bool_decide (AddrPortFrom (e_Address (Target c)) (e_Port (Target c) mod 2 ^ 16) = i_Target input))
                           | None => false
                           end in
      let restartData := listenChanged n_Data (DataListen publication) || appliedMismatch || targetChanged in
      let restartEnroll := publishedChanged || listenChanged n_Enrollment (EnrollListen publication) || certChanged || appliedMismatch in
      '(dataStatus, enrollStatus) ← applyServices env publication restartData restartEnroll pin desired;
      let result := mkApplyResult manifest publication hostPublicKey createdHostKey pin createdTLS renewedTLS dataStatus enrollStatus desired in
      if i_NoInvite input then mret (result None)
      else
        invited ← resumeOrMintInvite env input manifest hostPublicKey pin;
        checkpoint env hostStepInviteRecord;;
        mret (result (Some invited))
  end.

End apply.

End HostApply.
