(* ===== verification/HostApplyProps.v ===== *)
(** * Changing the configuration of a host

    The manifest of a host changes its target or its published endpoints only
    when no grant and no invite depends on them; running the command again
    without flags changes nothing. *)

From S2P Require Import Prelude GoStd Json StrictJson Time Text Host Locator Grant GrantProps SshWire Crypto Packet Kex Conn Forward Serve Listen.
From S2P Require Import ClientStore ClientCodec Server Clients ClientProps AuthorizedKeys GrantSession ServerProps SessionProps Reconcile Frame Layout.
From S2P Require Import ReconcileProps ReconcileLoop Invite Accept InviteClient EnrollProps Enroll Config ConfigProps Resolve Routes RouteProps Lifecycle.
From S2P Require Import Tunnels TunnelSafety Submit ClientEnroll ClientEnrollProps NetInspect HostApply.
Import Time Json Netip Locator Server Clients Reconcile.
Import HostApply.

(** ** Paths that are not the manifest *)

Lemma no_dot_entry a b : (a ++ "/." ++ b)%string ≠ ServerManifestPath.
Proof.
  intros E. apply (f_equal to_bytes) in E. rewrite !to_bytes_append in E.
  change (to_bytes "/." ++ to_bytes b) with (bz 47 :: bz 46 :: to_bytes b) in E.
  assert (to_bytes ServerManifestPath !! length (to_bytes a) = Some (bz 47) ∧
          to_bytes ServerManifestPath !! S (length (to_bytes a)) = Some (bz 46)) as [H1 H2].
  { rewrite <- E. split; [by rewrite list_lookup_middle|]. rewrite (cons_middle (bz 47)), app_assoc, list_lookup_middle; [done|].
    rewrite length_app. cbn. lia. }
  clear E. set (n := length (to_bytes a)) in *. clearbody n. do 24 (destruct n as [|n]; [vm_compute in H1, H2; congruence|]). done.
Qed.
Lemma Join_ends a name : plain_name name → ∃ pre, Filepath.Join a name = (pre ++ name)%string.
Proof.
  intros (Hn & Hs & Hd & Hdd).
  assert (∀ s, name ≠ s → bool_decide (to_bytes name = to_bytes s) = false) as Hneq.
  { intros s Hs'. apply bool_decide_eq_false_2. intros He%to_bytes_inj. done. }
  assert (bool_decide (to_bytes name = []) = false) as Hnil.
  { apply bool_decide_eq_false_2. intros E. apply Hn, to_bytes_inj. by rewrite E. }
  assert (∀ rooted out, ∃ pre, Filepath.join_segs (reverse (Filepath.clean_step rooted out (to_bytes name))) = pre ++ to_bytes name) as Hstep.
  { intros rooted out. unfold Filepath.clean_step. rewrite Hnil, !Hneq by done. cbn [orb]. rewrite reverse_cons.
    destruct (reverse out) as [|x l] eqn:E; [by exists []|]. rewrite join_segs_snoc by done. eexists. by rewrite app_assoc. }
  assert (∀ segs path, Strings.split_bytes (bz 47) (to_bytes path) = segs ++ [to_bytes name] → ∃ pre, Filepath.Clean path = (pre ++ name)%string) as Hclean.
  { intros segs path Hp. unfold Filepath.Clean. rewrite Hp, foldl_app. cbn [foldl].
    destruct (Hstep (Strings.has_prefix path "/") (foldl (Filepath.clean_step (Strings.has_prefix path "/")) [] segs)) as [pre ->].
    assert (to_string (pre ++ to_bytes name) = (to_string pre ++ name)%string) as ->
      by (apply to_bytes_inj; by rewrite to_bytes_append, !to_bytes_string).
    destruct (Strings.has_prefix path "/"); [by exists ("/" ++ to_string pre)%string|]. destruct (bool_decide_reflect (to_string pre ++ name = "")%string) as [Hb|_]; [|by exists (to_string pre)].
    apply (f_equal to_bytes) in Hb. rewrite to_bytes_append in Hb. apply app_eq_nil in Hb as [_ Hb]. exfalso. apply Hn, to_bytes_inj. by rewrite Hb. }
  unfold Filepath.Join. rewrite (bool_decide_eq_false_2 (name = ""%string)), andb_false_r by done. destruct (bool_decide (a = ""%string)).
  - apply (Hclean []). by apply split_bytes_plain.
  - apply (Hclean (Strings.split_bytes (bz 47) (to_bytes a))). rewrite !to_bytes_append. change (to_bytes "/" ++ to_bytes name) with (bz 47 :: to_bytes name).
    by rewrite split_bytes_app, (split_bytes_plain (to_bytes name)).
Qed.
Lemma not_manifest a name :
  plain_name name → reverse (to_bytes name) !! 0%nat ≠ Some (bz 116) → Filepath.Join a name ≠ ServerManifestPath.
Proof.
  intros Hn Hl E. destruct (Join_ends a name Hn) as [pre Hp]. rewrite Hp in E. apply (f_equal (λ s, reverse (to_bytes s) !! 0%nat)) in E.
  rewrite to_bytes_append, reverse_app in E. destruct (reverse (to_bytes name)) as [|c r] eqn:Er.
  - apply (f_equal reverse) in Er. rewrite reverse_involutive in Er. destruct Hn as [Hn _]. apply Hn, to_bytes_inj. by rewrite Er.
  - cbn in E, Hl. by rewrite E in Hl.
Qed.

(** ** Programs that leave the manifest alone *)

Abbreviation spares_manifest := (within (λ p, p ≠ ServerManifestPath)).

Lemma temp_apart H path prefix n : tempName H path ("." ++ prefix) n ≠ ServerManifestPath.
Proof. unfold tempName. apply (no_dot_entry (Filepath.Dir path) (prefix ++ h_temp H n)). Qed.
Lemma spares_atomic H path contents : path ≠ ServerManifestPath → spares_manifest (AuthorizedKeys.writeFileAtomic H path contents).
Proof.
  intros Hp. unfold AuthorizedKeys.writeFileAtomic. frame. apply within_replaceFile; [done|intros n; apply (temp_apart H path "wt-server-")|frame].
Qed.
Lemma spares_invite_file H path contents : path ≠ ServerManifestPath → spares_manifest (Clients.writeFileAtomic H path contents).
Proof.
  intros Hp. unfold Clients.writeFileAtomic. apply within_replaceFile; [done|intros n; apply (temp_apart H path "wt-invite-")|frame].
Qed.

Lemma moved_elsewhere old new p fs : inDir old p = false → inDir new p = false → moveDir old new fs !! p = fs !! p.
Proof.
  intros Ho Hn. unfold moveDir. rewrite <- (list_to_map_to_list fs) at 2. induction (map_to_list fs) as [|[q c] l IH]; [done|].
  cbn [fmap list_fmap list_to_map foldr uncurry fst snd]. unfold movePath at 1. destruct (inDir old q) eqn:Hq.
  - rewrite !lookup_insert_ne; [exact IH|by intros ->; rewrite Ho in Hq|]. intros E. rewrite <- E in Hn.
    revert Hn. unfold inDir, Strings.has_prefix in Hq |- *. apply bool_decide_eq_true in Hq.
    assert (drop (String.length old) (to_bytes q) = bz 47 :: drop (S (String.length old)) (to_bytes q)) as Hd.
    { rewrite <- length_to_bytes in *. rewrite <- (take_drop (length (to_bytes (old ++ "/"))) (to_bytes q)), Hq.
      rewrite to_bytes_append, <- app_assoc, drop_app_length. cbn [app]. f_equal.
      change (S (length (to_bytes old))) with (1 + length (to_bytes old))%nat. rewrite Nat.add_comm, <- drop_drop.
      rewrite drop_app_length. done. }
    rewrite Hd. replace (new ++ to_string (bz 47 :: drop (S (String.length old)) (to_bytes q)))%string
      with ((new ++ "/") ++ to_string (drop (S (String.length old)) (to_bytes q)))%string
      by (apply to_bytes_inj; by rewrite !to_bytes_append, !to_bytes_string, <- app_assoc).
    rewrite to_bytes_append, <- length_to_bytes, take_app_length. by rewrite bool_decide_eq_true_2.
  - destruct (decide (q = p)) as [->|]; [by rewrite !lookup_insert_eq|by rewrite !lookup_insert_ne].
Qed.

Lemma inDir_split dir p : inDir dir p = true → ∃ rest, p = ((dir ++ "/") ++ rest)%string.
Proof.
  unfold inDir, Strings.has_prefix. intros Hd%bool_decide_eq_true. exists (to_string (drop (String.length (dir ++ "/")) (to_bytes p))).
  apply to_bytes_inj. rewrite to_bytes_append, to_bytes_string. rewrite <- Hd at 1. by rewrite take_drop.
Qed.
Lemma manifest_not_hidden a b : inDir (a ++ "/." ++ b) ServerManifestPath = false.
Proof.
  apply not_true_iff_false. intros [rest E]%inDir_split. symmetry in E. revert E. rewrite <- !append_assoc. apply no_dot_entry.
Qed.
Lemma manifest_not_invite id : isHexID id = true → inDir (Invite.inviteDir Enroll.inviteDirectory id) ServerManifestPath = false.
Proof.
  intros Hid. apply not_true_iff_false. intros [rest E]%inDir_split. rewrite inviteDir_eq in E by done.
  apply (f_equal (λ s, take 2 (to_bytes s))) in E. vm_compute in E. discriminate.
Qed.

Section invites.
Context (H : hostEnv) (rnd : nat → nat → bytes).
Implicit Types (R : relation (gmap string bytes)).

Lemma moves_LoadInvite R `{!PreOrder R} dir id : moves R (Invite.Load H dir id).
Proof. unfold Invite.Load. frame. Qed.
Lemma moves_ListInvites R `{!PreOrder R} dir : moves R (Invite.List H dir).
Proof.
  unfold Invite.List. frame; [unfold ReadDirs; frame|]. match goal with l : list string |- _ => induction l as [|name names IH] end;
    cbn [Invite.loadInvites]; frame; first [exact IH|apply moves_LoadInvite; apply _].
Qed.
Lemma moves_LoadBlob R `{!PreOrder R} dir id : moves R (Invite.LoadIssuedBlob H dir id).
Proof. unfold Invite.LoadIssuedBlob. frame. apply moves_LoadInvite; apply _. Qed.
Lemma record_apart dir id : Invite.recordPath dir id ≠ ServerManifestPath.
Proof. unfold Invite.recordPath. apply not_manifest; [plain|done]. Qed.
Lemma spares_unused generation t records : spares_manifest (Invite.unusedIssued H Enroll.inviteDirectory generation t records).
Proof.
  induction records as [|r records IH]; cbn [Invite.unusedIssued]; [apply moves_ret; apply _|].
  unfold Invite.InviteExpired, orNow, Invite.markExpired, Invite.writeRecord. frame; try exact IH. apply spares_invite_file, record_apart.
Qed.
Lemma spares_remove a b : spares_manifest (RemoveAll H (a ++ "/." ++ b)).
Proof.
  unfold RemoveAll. apply moves_bind; [apply _|apply moves_call; apply _|]. intros n. pose proof (manifest_not_hidden a b) as Hd.
  destruct (h_fault H n) as [e|].
  - frame. apply moves_set. intros fs p ->%dec_stable. rewrite lookup_foldr_delete_not_elem_of; [done|].
    intros Hin%elem_of_take. destruct Hin as (i & Hin & _). apply list_elem_of_lookup_2 in Hin.
    apply list_elem_of_filter in Hin as [Hin _]. by rewrite Hd in Hin.
  - apply moves_set. intros fs p ->%dec_stable. destruct (fs !! ServerManifestPath) as [c|] eqn:E.
    + by apply map_lookup_filter_Some.
    + apply map_lookup_filter_None. by left.
Qed.
Lemma spares_Store record : spares_manifest (Invite.Store H Enroll.inviteDirectory record).
Proof.
  unfold Invite.Store. destruct (isHexID _) eqn:Hid; cbn [negb]; [|apply moves_invalid; apply _]. unfold LstatDir. frame.
  unfold Invite.storeIssuedAtomic. frame_step; [frame|]. apply moves_bind_produced; [apply _|unfold MkdirTemp; frame|].
  intros temp (w & w' & Ht). unfold MkdirTemp in Ht. apply run_bind in Ht as (? & ? & _ & Ht). apply run_bind in Ht as (n & ? & _ & Ht).
  apply run_bind in Ht as (? & ? & _ & Ht). destruct (occupied _ _); [done|]. injection Ht as <- _.
  pose proof (manifest_not_hidden Enroll.inviteDirectory ("wt-invite-tx-" ++ h_temp H n)) as Hd.
  frame; try (apply spares_invite_file, not_manifest; [plain|done]); [|apply (spares_remove Enroll.inviteDirectory ("wt-invite-tx-" ++ h_temp H n))].
  unfold RenameDir. frame. apply moves_set. intros fs p ->%dec_stable. apply moved_elsewhere; [exact Hd|by apply manifest_not_invite].
Qed.
Lemma spares_resume keygen artifactProfile env input manifest hostPublicKey pin :
  InviteDir env = Enroll.inviteDirectory → (∀ n c fs, (keygen n c fs).2 !! ServerManifestPath = fs !! ServerManifestPath) →
  spares_manifest (resumeOrMintInvite H rnd keygen artifactProfile env input manifest hostPublicKey pin).
Proof.
  intros Hi Hk. unfold resumeOrMintInvite, Invite.UnusedIssuedForGeneration, orNow. rewrite Hi.
  frame; try first [apply moves_ListInvites; apply _|apply spares_unused|apply moves_LoadBlob; apply _|apply spares_Store].
  unfold mintServerInvite. frame.
  - unfold deriveHostPublicKey. intros w. unfold call, get_files, mbind, HM_bind. cbn [files calls].
    pose proof (Hk (calls w) [ClientEnroll.SSHKeygenPath; "-y"; "-f"; HostKeyPath manifest]%string (files w)) as E.
    destruct (keygen _ _ _) as [r fs']. cbn [snd] in E. intros p ->%dec_stable. unfold set_files. cbn [files].
    destruct r; [|exact E]. destruct (_ || _); exact E.
  - unfold Invite.Create, orNow. frame.
Qed.
End invites.

(** ** What depends on the configuration *)

(** No grant that has not ended and no invite that is out is on disk. *)
Definition invite_at (fs : gmap string bytes) (id : string) (r : Invite.InviteRecord) : Prop :=
  ∃ raw, fs !! Invite.recordPath Enroll.inviteDirectory id = Some raw ∧ Invite.readRecord raw = Ok r.
Definition quiescent (fs : gmap string bytes) : Prop :=
  (∀ id r, isHexID id = true → read_at fs id r → ended r = true) ∧
  (∀ id r, isHexID id = true → invite_at fs id r → unissued r = true).

(** The files that the checks read. *)
Definition guarded (p : string) : Prop := p = ServerManifestPath ∨ below ClientsDirectory p ∨ below Enroll.inviteDirectory p.
Abbreviation spares_guarded := (within (λ p, ¬ guarded p)).
Abbreviation same := (outside (λ p, ¬ guarded p)).

Lemma same_at fs fs' p : same fs fs' → guarded p → fs' !! p = fs !! p.
Proof. intros Hs Hp. apply Hs. auto. Qed.
Lemma quiescent_same fs fs' : same fs fs' → quiescent fs' → quiescent fs.
Proof.
  intros Hs [Hc Hi]. split; intros id r Hid (raw & Hf & Hr).
  - apply (Hc id r Hid). exists raw. split; [|done]. rewrite (same_at fs fs'); [done..|]. right; left. rewrite clientPath_eq by done. by eexists.
  - apply (Hi id r Hid). exists raw. split; [|done]. rewrite (same_at fs fs'); [done..|]. right; right. by apply recordPath_below.
Qed.

Section lists.
Context (H : hostEnv).
Hypothesis Hh : honest H.

Lemma loadInvites_spec names fs0 :
  htriple (λ fs, fs = fs0) (Invite.loadInvites H Enroll.inviteDirectory names)
    (λ res fs, fs = fs0 ∧ ∀ records, res = Ok records → ∀ id, id ∈ names → isHexID id = true → ∃ r, r ∈ records ∧ invite_at fs0 id r).
Proof using.
  induction names as [|name names IH]; cbn [Invite.loadInvites].
  { apply htriple_ret. intros fs ->. split; [done|]. intros records _ id Hin. by apply not_elem_of_nil in Hin. }
  destruct (Strings.has_prefix name "." || negb (isHexID name)) eqn:Hskip.
  { eapply htriple_weaken; [exact IH|done|]. intros r fs [-> Hl]. split; [done|]. intros records Hr id [->|Hin]%elem_of_cons Hid; [|eauto].
    rewrite Hid, orb_false_r in Hskip. exfalso. unfold Strings.has_prefix in Hskip. apply bool_decide_eq_true in Hskip.
    apply (hexID_lacks name (bz 46) Hid); [unfold hex_char; change (zb (bz 46)) with 46; lia|].
    rewrite <- (take_drop (String.length ".") (to_bytes name)), Hskip. cbn. left. }
  eapply (htriple_bind _ _ (λ r fs, fs = fs0 ∧ invite_at fs0 name r)).
  { unfold Invite.Load. destruct (isHexID name); [|by rewrite orb_true_r in Hskip]. cbn [negb].
    eapply (htriple_bind _ _ (λ c fs, fs = fs0 ∧ fs0 !! Invite.recordPath Enroll.inviteDirectory name = Some c)).
    - apply htriple_ReadFile; [by intros e fs ->|by intros c fs -> Hc].
    - intros c. apply htriple_lift. intros fs [-> Hc]. destruct (Invite.readRecord c) as [r|e] eqn:Hr; [|done]. split; [done|]. by exists c. }
  intros r. eapply (htriple_bind _ _ (λ l fs, fs = fs0 ∧ invite_at fs0 name r ∧ ∀ id, id ∈ names → isHexID id = true → ∃ r, r ∈ l ∧ invite_at fs0 id r)).
  { intros w [Hw Hr]. destruct (IH w Hw) as [Hf Hl]. destruct (Invite.loadInvites H Enroll.inviteDirectory names w) as [[l|e] w']; [|by split].
    split_and!; [exact Hf|done|by apply Hl]. }
  intros l. apply htriple_ret. intros fs (-> & Hr & Hl). split; [done|]. intros records [= <-] id [->|Hin]%elem_of_cons Hid.
  - exists r. split; [left|done].
  - destruct (Hl id Hin Hid) as (r' & Hr' & ?). exists r'. split; [by right|done].
Qed.
Lemma ListInvites_spec fs0 :
  htriple (λ fs, fs = fs0) (Invite.List H Enroll.inviteDirectory)
    (λ res fs, fs = fs0 ∧ ∀ records, res = Ok records → ∀ id, isHexID id = true →
       is_Some (fs0 !! Invite.recordPath Enroll.inviteDirectory id) → ∃ r, r ∈ records ∧ invite_at fs0 id r).
Proof using Hh.
  intros w Hw. unfold Invite.List, htry, ReadDirs, sys, call, get_files, mbind, HM_bind. cbn [files calls].
  destruct (h_fault H (calls w)) as [e|] eqn:He; cbn [fst snd].
  - unfold hfail, IsNotExist. cbv beta iota. rewrite bool_decide_eq_false_2; [done|]. intros ->. by destruct (Hh (calls w)).
  - cbn [mret HM_ret files]. rewrite Hw.
    destruct (loadInvites_spec (dirNames Enroll.inviteDirectory fs0) fs0 (mkWorld fs0 (S (calls w))) eq_refl) as [Hf Hl].
    split; [exact Hf|]. intros records Hr id Hid [c Hc]. apply (Hl records Hr id); [|done]. rewrite recordPath_eq in Hc by done.
    apply (dirNames_below _ _ "record.json"); [by apply hexID_no_slash|]. by exists c.
Qed.

(** The check that both refusals make. *)
Lemma unblocked what clients invites fs :
  changeBlocked what clients invites = Ok () → Forall2 (read_at fs) (clientIDs fs) clients →
  (∀ id, isHexID id = true → is_Some (fs !! Invite.recordPath Enroll.inviteDirectory id) → ∃ r, r ∈ invites ∧ invite_at fs id r) → quiescent fs.
Proof using.
  unfold changeBlocked. destruct (find _ clients) as [|] eqn:Hc; [done|]. destruct (find _ invites) as [|] eqn:Hi; [done|]. intros _ Hcs His. split.
  - intros id r Hid (raw & Hf & Hr). assert (id ∈ clientIDs fs) as Hin by (apply clientIDs_iff; split; [done|by eexists]).
    apply list_elem_of_lookup_1 in Hin as [i Hin].
    destruct (Forall2_lookup_l _ _ _ _ _ Hcs Hin) as (r' & Hin'%list_elem_of_lookup_2 & raw' & Hf' & Hr'). assert (r' = r) as -> by congruence.
    pose proof (find_none _ _ Hc r ltac:(by apply list_elem_of_In)) as Hn. by apply negb_false_iff in Hn.
  - intros id r Hid (raw & Hf & Hr). destruct (His id Hid ltac:(by eexists)) as (r' & Hin' & raw' & Hf' & Hr'). assert (r' = r) as -> by congruence.
    pose proof (find_none _ _ Hi r ltac:(by apply list_elem_of_In)) as Hn. by apply negb_false_iff in Hn.
Qed.
Lemma both_lists what (wrap : error → HM ()) (wrap' : error → HM ()) fs0 :
  (∀ e, ∃ e', wrap e = hfail e') → (∀ e, ∃ e', wrap' e = hfail e') →
  htriple (λ fs, fs = fs0)
    (clients ← htry (ListClients H ClientsDirectory);
     match clients with
     | Err e => wrap e
     | Ok clients =>
         invites ← htry (Invite.List H Enroll.inviteDirectory);
         match invites with
         | Err e => wrap' e
         | Ok invites => hlift (changeBlocked what clients invites)
         end
     end) (λ r fs, fs = fs0 ∧ (r = Ok () → quiescent fs0)).
Proof using Hh.
  intros Hw Hw'. eapply (htriple_bind _ _ (λ r fs, fs = fs0 ∧ ∀ l, r = Ok l → Forall2 (read_at fs0) (clientIDs fs0) l)).
  { apply htriple_try. eapply htriple_weaken; [by apply (ListClients_spec H fs0)|done|]. done. }
  intros [clients|e]; [|destruct (Hw e) as [e' ->]; apply htriple_fail; intros fs [-> _]; done].
  eapply (htriple_bind _ _ (λ r fs, fs = fs0 ∧ Forall2 (read_at fs0) (clientIDs fs0) clients ∧ ∀ l, r = Ok l → ∀ id, isHexID id = true →
       is_Some (fs0 !! Invite.recordPath Enroll.inviteDirectory id) → ∃ r, r ∈ l ∧ invite_at fs0 id r)).
  { apply htriple_try. intros w [Hw0 Hl]. destruct (ListInvites_spec fs0 w Hw0) as [Hf Hi]. split; [exact Hf|]. split; [by apply Hl|exact Hi]. }
  intros [invites|e]; [|destruct (Hw' e) as [e' ->]; apply htriple_fail; intros fs [-> _]; done].
  apply htriple_lift. intros fs (-> & Hc & Hi). split; [done|]. intros Hok. by apply (unblocked what clients invites fs0 Hok Hc), Hi.
Qed.
End lists.

(** ** The helpers of a host *)

(** What the command relies on: before the manifest is written, the helpers
    leave the manifest, the client records and the invites alone; none of them
    ever writes the manifest. *)
Class HostHelpers (keygen : nat → list string → gmap string bytes → result bytes * gmap string bytes) (env : hostApplyEnv) : Prop := {
  hh_discover m : Discover env = Some m → spares_guarded m;
  hh_interfaces m : Interfaces env = Some m → spares_guarded m;
  hh_identity m : EnsureIdentity env = Some m → spares_guarded m;
  hh_tls m t : EnsureTLS env = Some m → spares_guarded (m t);
  hh_sshd m c : WriteSSHD env = Some m → Server.Validate c = Ok () → spares_manifest (m c);
  hh_data m b e : ApplyDataPlane env = Some m → spares_manifest (m b e);
  hh_enroll m b e p : ApplyEnrollment env = Some m → spares_manifest (m b e p);
  hh_probe m e : ProbeTCP env = Some m → spares_manifest (m e);
  hh_keygen n c fs : (keygen n c fs).2 !! ServerManifestPath = fs !! ServerManifestPath;
}.

Definition storedTarget (c : Config) : AddrPort := AddrPortFrom (e_Address (Target c)) (e_Port (Target c) mod 2 ^ 16).

Section guard.
Context {CR : Crypto} {Key : Type} (K : Submit.pki Key) (H : hostEnv) (rnd : nat → nat → bytes).
Context (keygen : nat → list string → gmap string bytes → result bytes * gmap string bytes).
Context (netInterfaces : nat → result (list Inspectnet.netInterface)) (bindSocket : nat → result Z) (exchange : nat → bytes → result bytes).
Context (accepts : nat → AddrPort → bool) (artifactProfile : result string).
Context (env : hostApplyEnv) (input : hostApplyInput) (fs0 : gmap string bytes) (raw : bytes) (old : Config).
Context {helpers : HostHelpers keygen env}.
Hypothesis Hh : honest H.
Hypothesis Hm : ManifestPath env = ServerManifestPath.
Hypothesis Hc : ClientsDir env = ClientsDirectory.
Hypothesis Hi : InviteDir env = Enroll.inviteDirectory.
Hypothesis Hraw : fs0 !! ServerManifestPath = Some raw.
Hypothesis Hold : Server.Decode raw = Ok old.

(** The manifest is as it was, or a new one for which the checks have passed. *)
Definition guardedChange (fs : gmap string bytes) : Prop :=
  fs !! ServerManifestPath = Some raw ∨
  ∃ m j, manifestJSON m = Ok j ∧ fs !! ServerManifestPath = Some (print j ++ [bz 10]) ∧
    Target m = mkEndpoint_ (ap_addr (i_Target input)) (ap_port (i_Target input)) ∧
    (storedTarget old = i_Target input ∨ quiescent fs0) ∧
    (SamePublishedLocators (PublishedSet (Net old)) (PublishedSet (Net m)) = true ∨ quiescent fs0).

Lemma manifest_same fs : same fs0 fs → fs !! ServerManifestPath = Some raw.
Proof using Hraw. intros Hs. rewrite (same_at fs0 fs); [done..|by left]. Qed.
Lemma change_same fs : same fs0 fs → guardedChange fs.
Proof using Hraw. intros Hs. left. by apply manifest_same. Qed.
Lemma change_kept {A} (m : HM A) : spares_manifest m → htriple guardedChange m (λ _ fs, guardedChange fs).
Proof using. intros Hw w Hg. unfold guardedChange in *. by rewrite (Hw w ServerManifestPath) by auto. Qed.
Lemma same_then {A B} (m : HM A) (f : A → HM B) :
  spares_guarded m → (∀ a, htriple (same fs0) (f a) (λ _ fs, guardedChange fs)) → htriple (same fs0) (m ≫= f) (λ _ fs, guardedChange fs).
Proof using Hraw.
  intros Hw Hf. eapply (htriple_bind _ _ (λ _ fs, same fs0 fs)); [|done]. intros w Hs. assert (same fs0 (files (m w).2)) as Hs' by (etrans; [exact Hs|apply Hw]).
  destruct (m w).1; [done|by apply change_same].
Qed.

Lemma loads_old : htriple (same fs0) (loadManifestAt H ServerManifestPath)
  (λ r fs, match r with Ok stored => same fs0 fs ∧ stored = Some old | Err _ => same fs0 fs end).
Proof using Hraw Hold Hh.
  intros w Hs. pose proof (manifest_same _ Hs) as Hf.
  assert (moves eq (loadManifestAt H ServerManifestPath)) as Hk by (unfold loadManifestAt, Server.Load; frame).
  rewrite <- (Hk w). clear Hk.
  unfold loadManifestAt, Lstat, htry, sys, call, get_files, mbind, HM_bind. cbn [files calls]. destruct (h_fault H (calls w)) as [e|] eqn:He; cbn [fst snd].
  { unfold hfail. cbv beta iota. unfold IsNotExist. rewrite bool_decide_eq_false_2; [done|]. intros ->. by apply (Hh (calls w)). }
  cbn [mret HM_ret files]. rewrite Hf. cbn [mret HM_ret]. cbv beta iota. unfold Server.Load. change (negb (Strings.has_suffix ServerManifestPath ".wt")) with false. cbv iota.
  unfold ReadFile, sys, call, get_files, mbind, HM_bind. cbn [files calls]. destruct (h_fault H (S (calls w))); [done|]. cbn [mret HM_ret files]. rewrite Hf.
  cbn [mret HM_ret]. cbv beta iota. unfold hlift. by rewrite Hold.
Qed.

Lemma refused_target target : htriple (same fs0) (refuseHostTargetChangeAt H ServerManifestPath ClientsDirectory Enroll.inviteDirectory target)
  (λ r fs, same fs0 fs ∧ (r = Ok () → storedTarget old = target ∨ quiescent fs0)).
Proof using Hraw Hold Hh.
  unfold refuseHostTargetChangeAt. eapply (htriple_bind _ _ (λ stored fs, same fs0 fs ∧ stored = Some old)).
  { eapply htriple_weaken; [apply loads_old|done|]. by intros [s|e] fs. }
  intros stored w [Hs ->]. cbv beta iota zeta. case_bool_decide as Ht; [by split; [|left]|].
  edestruct (both_lists H Hh "host target cannot change") as [Hf Hq]; [..|exact (eq_refl (files w))|].
  1,2: intros e; by eexists.
  split; [by rewrite Hf|]. intros Hr. right. apply (quiescent_same fs0 (files w)); [done|]. apply Hq. exact Hr.
Qed.
Lemma refused_locators : htriple (same fs0) (refusePublishedLocatorChangeAt H ClientsDirectory Enroll.inviteDirectory)
  (λ r fs, same fs0 fs ∧ (r = Ok () → quiescent fs0)).
Proof using Hh.
  intros w Hs. unfold refusePublishedLocatorChangeAt.
  edestruct (both_lists H Hh "published endpoints cannot change") as [Hf Hq]; [..|exact (eq_refl (files w))|].
  1,2: intros e; by eexists.
  split; [by rewrite Hf|]. intros Hr. apply (quiescent_same fs0 (files w)); [done|]. apply Hq. exact Hr.
Qed.

Lemma change_then {A B} P (m : HM A) (f : A → HM B) :
  htriple P m (λ _ fs, guardedChange fs) → (∀ a, spares_manifest (f a)) → htriple P (m ≫= f) (λ _ fs, guardedChange fs).
Proof using.
  intros Hp Hf. eapply (htriple_bind _ _ (λ _ fs, guardedChange fs)); [|intros a; by apply change_kept].
  eapply htriple_weaken; [exact Hp|done|]. by intros [a|e].
Qed.
Lemma proposed_same dl el dd ed network :
  ProposeNetwork dl el dd ed (Some (Net old)) = Ok (network, false) →
  SamePublishedLocators (PublishedSet (Net old)) (PublishedSet network) = true.
Proof using.
  unfold ProposeNetwork. destruct (_ =? 0); [done|]. destruct (SamePublishedLocators _ _) eqn:E; [|by intros (? & _ & ?)%bind_Ok].
  intros [= <-]. exact E.
Qed.

Lemma writes_manifest t network :
  (storedTarget old = i_Target input ∨ quiescent fs0) →
  (SamePublishedLocators (PublishedSet (Net old)) (PublishedSet network) = true ∨ quiescent fs0) →
  htriple (same fs0) (writeHostManifestNetwork H (withNow env t) (Some old) (i_Target input) network) (λ _ fs, guardedChange fs).
Proof using Hraw Hm helpers.
  intros Ht Hp. unfold writeHostManifestNetwork, digestOf, ClientEnroll.fileSHA256. cbv zeta.
  apply same_then; [frame|]. intros sshd. apply same_then; [frame|]. intros bundle.
  destruct (Server.Validate _) as [[]|e] eqn:Hv; [|intros w Hs; by apply change_same]. apply same_then; [frame|]. intros _.
  apply change_then.
  - unfold writeServerManifestAtomic. destruct (manifestJSON _) as [j|e] eqn:Ej; [|intros w Hs; by apply change_same].
    change (ManifestPath (withNow env t)) with (ManifestPath env). rewrite Hm.
    unfold AuthorizedKeys.writeFileAtomic. apply (same_then (sys H)); [frame|]. intros _ w Hs.
    assert (∀ fs, htriple (λ fs', fs' = fs) (sys H;; deferred (sys H) (sys H)) (λ _ fs', fs' = fs)) as Hsync
      by (intros fs; apply bind_keeps; [apply sys_keeps|intros _; apply deferred_keeps; apply sys_keeps]).
    assert (∀ n, files w !! tempName H ServerManifestPath ".wt-server-" n = None → ServerManifestPath ≠ tempName H ServerManifestPath ".wt-server-" n) as Hapart
      by (intros n _ E; symmetry in E; by apply (temp_apart H ServerManifestPath "wt-server-") in E).
    destruct (replaceFile_replaced H ServerManifestPath ".wt-server-" (print j ++ [bz 10]) (files w) Hapart true _ Hsync w eq_refl) as (Hr & _ & _).
    destruct Hr as [Hr|Hr]; [left; rewrite Hr; by apply manifest_same|]. right. eexists _, j. split_and!; [exact Ej|exact Hr|done|done|exact Hp].
  - intros _. change (WriteSSHD (withNow env t)) with (WriteSSHD env). destruct (WriteSSHD env) as [write|] eqn:E; frame. by eapply hh_sshd.
Qed.

(** The services and the invite come after the manifest. *)
Lemma moves_required {A B} R `{!PreOrder R} (helper : option A) what (f : A → HM B) :
  (∀ a, helper = Some a → moves R (f a)) → moves R (required helper what ≫= f).
Proof using. intros Hf w. destruct helper as [a|]; [by apply (Hf a)|]. done. Qed.
Lemma spares_revision stateDir name rev : plain_name name → reverse (to_bytes name) !! 0%nat ≠ Some (bz 116) →
  spares_manifest (writeHostRevision H (Filepath.Join stateDir name) rev).
Proof using. intros Hn Hl. by apply spares_atomic, not_manifest. Qed.
Lemma spares_services t publication restartData restartEnroll pin desired :
  spares_manifest (applyServices H accepts (withNow env t) publication restartData restartEnroll pin desired).
Proof using helpers.
  assert (∀ e, spares_manifest (default (probeTCPListener accepts) (ProbeTCP (withNow env t)) e)) as Hprobe.
  { intros e. change (ProbeTCP (withNow env t)) with (ProbeTCP env). destruct (ProbeTCP env) eqn:E; cbn [default]; [by eapply hh_probe|].
    unfold probeTCPListener. frame. }
  unfold applyServices, checkpoint. cbv zeta. apply moves_required; [apply _|]. intros data Ed.
  apply moves_bind; [apply _|apply moves_try; by eapply hh_data|]. intros [status|e]; [|frame]. frame_step; [frame|].
  apply moves_required; [apply _|]. intros enroll Ee. apply moves_bind; [apply _|apply moves_try; by eapply hh_enroll|]. intros [status'|e]; [|frame].
  frame; try apply Hprobe. apply spares_revision; [plain|done].
Qed.

Lemma htriple_fact {A} P (φ : Prop) (m : HM A) Q : (φ → htriple P m Q) → htriple (λ fs, P fs ∧ φ) m Q.
Proof using. intros Hm0 w [Hw Hφ]. by apply Hm0. Qed.
Lemma guarded_apply : htriple (same fs0)
  (applyHostConfiguration K H rnd keygen netInterfaces bindSocket exchange accepts artifactProfile env input) (λ _ fs, guardedChange fs).
Proof using Hraw Hold Hh Hm Hc Hi helpers.
  unfold applyHostConfiguration. apply same_then; [frame|]. intros t. cbv zeta.
  change (ManifestPath (withNow env t)) with (ManifestPath env). change (ClientsDir (withNow env t)) with (ClientsDir env).
  change (InviteDir (withNow env t)) with (InviteDir env). rewrite Hm, Hc, Hi.
  eapply (htriple_bind _ _ (λ stored fs, same fs0 fs ∧ stored = Some old)).
  { eapply htriple_weaken; [apply loads_old|done|]. intros [s|e] fs; [done|by apply change_same]. }
  intros stored. apply htriple_fact. intros ->.
  apply same_then.
  { destruct (isSet _); [|frame]. apply moves_required; [apply _|]. intros m Em. by eapply hh_interfaces. }
  intros ifaces. apply same_then.
  { assert (spares_guarded (default (discoverHostBind netInterfaces bindSocket exchange) (Discover (withNow env t)))) as Hd.
    { change (Discover (withNow env t)) with (Discover env). destruct (Discover env) eqn:E; cbn [default]; [by eapply hh_discover|].
      unfold discoverHostBind. frame. }
    unfold resolveHostPublication, resolveDataListen, resolveListen. cbv zeta. frame; exact Hd. }
  intros publication. eapply (htriple_bind _ _ (λ m fs, same fs0 fs ∧ EnsureIdentity env = Some m)).
  { change (EnsureIdentity (withNow env t)) with (EnsureIdentity env). intros w Hs. destruct (EnsureIdentity env); [done|by apply change_same]. }
  intros identity. apply htriple_fact. intros Hid. apply same_then; [by eapply hh_identity|]. intros [hostPublicKey created].
  eapply (htriple_bind _ _ (λ m fs, same fs0 fs ∧ EnsureTLS env = Some m)).
  { change (EnsureTLS (withNow env t)) with (EnsureTLS env). intros w Hs. destruct (EnsureTLS env); [done|by apply change_same]. }
  intros tls. apply htriple_fact. intros Htls. apply same_then; [apply moves_try; by eapply hh_tls|].
  intros [[[pin createdTLS] renewed]|e]; [|intros w Hs; by apply change_same].
  apply same_then; [unfold checkpoint; frame|]. intros _.
  eapply (htriple_bind _ _ (λ _ fs, same fs0 fs ∧ (storedTarget old = i_Target input ∨ quiescent fs0))).
  { eapply htriple_weaken; [apply refused_target|done|]. intros [[]|e] fs [Hs Ht]; [by split; [|apply Ht]|by apply change_same]. }
  intros _. apply htriple_fact. intros Ht. cbn [fmap option_fmap option_map].
  destruct (ProposeNetwork _ _ _ _ _) as [[network changed]|e] eqn:En; [|intros w Hs; by apply change_same].
  change (hlift (Ok (network, changed)) ≫= ?f) with (f (network, changed)). cbv beta iota.
  eapply (htriple_bind _ _ (λ _ fs, same fs0 fs ∧ (SamePublishedLocators (PublishedSet (Net old)) (PublishedSet network) = true ∨ quiescent fs0))).
  { destruct changed.
    - eapply htriple_weaken; [apply refused_locators|done|]. intros [[]|e] fs [Hs Hq]; [by split; [|right; apply Hq]|by apply change_same].
    - apply htriple_ret. intros fs Hs. split; [done|left]. by apply proposed_same in En. }
  intros _. apply htriple_fact. intros Hp. apply change_then; [by apply writes_manifest|]. intros manifest.
  unfold computeHostRevision, certLeafSHA256, loadHostRevision, checkpoint. cbv zeta.
  frame; first [apply spares_services|apply spares_revision; [plain|done]|apply spares_resume; [exact Hi|apply (hh_keygen (env := env))]].
Qed.
End guard.

(** C37: the target and the published endpoints of a host change only when
    nobody depends on them.  On the installed paths, with helpers that leave the
    manifest, the client records and the invites alone, whatever the flags and
    whatever fails on the way: after [applyHostConfiguration] the manifest is as
    it was, or is the new one, and then the target is the old one or, when the
    command started, every client record on disk had ended and no invite was
    out; and likewise for the published endpoints. *)
Theorem host_change_guarded {CR : Crypto} {Key} (K : Submit.pki Key) H rnd keygen netInterfaces bindSocket exchange accepts artifactProfile
    env input w raw old {helpers : HostHelpers keygen env} :
  honest H → ManifestPath env = ServerManifestPath → ClientsDir env = ClientsDirectory → InviteDir env = Enroll.inviteDirectory →
  files w !! ServerManifestPath = Some raw → Server.Decode raw = Ok old →
  let fs := files (applyHostConfiguration K H rnd keygen netInterfaces bindSocket exchange accepts artifactProfile env input w).2 in
  fs !! ServerManifestPath = Some raw ∨
  ∃ m j, manifestJSON m = Ok j ∧ fs !! ServerManifestPath = Some (print j ++ [bz 10]) ∧
    Target m = mkEndpoint_ (ap_addr (i_Target input)) (ap_port (i_Target input)) ∧
    (storedTarget old = i_Target input ∨ quiescent (files w)) ∧
    (SamePublishedLocators (PublishedSet (Net old)) (PublishedSet (Net m)) = true ∨ quiescent (files w)).
Proof.
  intros Hh Hm Hc Hi Hraw Hold fs. eapply (guarded_apply K H); [done..|by intros p]. 
Qed.

(** ** Running the command again *)

Definition noFlags : hostPublicationFlags := mkFlags (mkFlag false "") (mkFlag false "") (mkFlag false "") (mkFlag false "") (mkFlag false "").

Lemma Equal_refl h s : Canonical h = Ok s → Equal h h = true.
Proof. intros Hs. unfold Equal. rewrite Hs. by rewrite bool_decide_eq_true_2. Qed.
Lemma dial_key dial k field : locatorKey field dial = Ok k → ∃ s, Canonical (Host dial) = Ok s.
Proof. unfold locatorKey, dialLocatorKey. destruct (Canonical (Host dial)) as [s|e]; [by exists s|done]. Qed.
Lemma stored_network network :
  validateNetwork network = Ok () →
  PublishedEndpointGeneration network ≠ 0 ∧ EndpointEqual (Dial (n_Data network)) (Dial (n_Data network)) = true ∧
  EndpointEqual (Dial (n_Enrollment network)) (Dial (n_Enrollment network)) = true.
Proof.
  unfold validateNetwork. destruct (Z.eqb_spec (PublishedEndpointGeneration network) 0); [done|]. intros Hv.
  apply bind_Ok in Hv as ([] & _ & Hv). apply bind_Ok in Hv as ([] & _ & Hv). destruct (Server.eqs _ _); [done|].
  apply bind_Ok in Hv as ([] & _ & Hv). apply bind_Ok in Hv as ([] & _ & Hv).
  apply bind_Ok in Hv as (k & [s Hs]%dial_key & Hv). apply bind_Ok in Hv as (k' & [s' Hs']%dial_key & _).
  unfold EndpointEqual. by rewrite !Z.eqb_refl, (Equal_refl _ _ Hs), (Equal_refl _ _ Hs').
Qed.
Lemma rebind e : AddrPort_ (mkBind (ap_addr (AddrPort_ e)) (ap_port (AddrPort_ e))) = AddrPort_ e.
Proof.
  unfold AddrPort_, canonicalAddress. cbn [ap_addr ap_port b_Address b_Port]. f_equal. generalize (b_Address e). intros a.
  destruct a as [|ip|ip z]; [done..|]. cbn [Unmap]. destruct (Is4In6 (Addr6 ip z)) eqn:E; [done|]. cbn [Unmap]. by rewrite E.
Qed.

(** C38: a host that is configured stays as it is.  For a manifest that
    validates, the command without network flags, whatever would be discovered,
    takes the addresses of the manifest: it binds to the same addresses and
    ports, the proposed network has the generation of the manifest, and its
    published endpoints are not changed. *)
Theorem host_rerun_keeps_network c discover ifaces w :
  Server.Validate c = Ok () →
  ∃ p network, resolveHostPublication noFlags (Some c) discover ifaces w = (Ok p, w) ∧
    ProposeNetwork (DataListen p) (EnrollListen p) (DataDial p) (EnrollDial p) (Some (Net c)) = Ok (network, false) ∧
    PublishedEndpointGeneration network = PublishedEndpointGeneration (Net c) ∧
    SamePublishedLocators (PublishedSet (Net c)) (PublishedSet network) = true ∧
    AddrPort_ (Listen (n_Data network)) = AddrPort_ (Listen (n_Data (Net c))) ∧
    AddrPort_ (Listen (n_Enrollment network)) = AddrPort_ (Listen (n_Enrollment (Net c))).
Proof.
  intros (selected & Hv & _)%bind_Ok. apply validate_Ok in Hv as (_ & (Hg & Hd & He)%stored_network & _).
  set (listen := AddrPort_ (Listen (n_Data (Net c)))). set (bind := mkBind (ap_addr listen) (ap_port listen)).
  set (dial := if sameDialEndpointValue (Dial (n_Data (Net c))) (DialFromBind bind) then DialFromBind bind else Dial (n_Data (Net c))).
  assert (EndpointEqual (Dial (n_Data (Net c))) dial = true) as Hdial.
  { unfold dial. destruct (sameDialEndpointValue _ _) eqn:E; [exact E|exact Hd]. }
  exists (mkPublication bind (Listen (n_Enrollment (Net c))) dial (Dial (n_Enrollment (Net c)))),
    (mkNetwork (PublishedEndpointGeneration (Net c)) (mkService bind dial) (n_Enrollment (Net c))).
  assert (SamePublishedLocators (PublishedSet (Net c)) (mkEndpointSet (PublishedEndpointGeneration (Net c)) dial (Dial (n_Enrollment (Net c)))) = true) as Hsame
    by (unfold SamePublishedLocators; cbn [Locator.Data Locator.Enrollment PublishedSet]; by rewrite Hdial, He).
  split_and!; [|..|done|exact Hsame|apply rebind|done].
  - unfold resolveHostPublication, resolveDataDial, mbind, HM_bind. cbn [noFlags f_Listen f_ListenInterface f_Advertise isSet negb andb orb].
    change (resolveDataListen noFlags (Some c) discover ifaces w) with (Ok bind : result BindEndpoint, w). cbv beta iota zeta. fold bind.
    unfold dial. by destruct (sameDialEndpointValue _ _).
  - unfold ProposeNetwork. cbn [DataListen EnrollListen DataDial EnrollDial]. rewrite (proj2 (Z.eqb_neq _ _) Hg).
    change (PublishedSet (mkNetwork _ (mkService bind dial) _)) with (mkEndpointSet (PublishedEndpointGeneration (Net c)) dial (Dial (n_Enrollment (Net c)))).
    rewrite Hsame. by destruct (n_Enrollment (Net c)).
Qed.
