(* ===== verification/HostCommand.v ===== *)
(** * internal/command/host.go: [warptweet host]

    The command after its flags are parsed: the policy and the duration of the
    grants, the directories, and under the host's lock the clock, the
    configuration (HostApply.v), the reconciliation of the grants and the invite
    file.  The helpers of the installed host are the production ones, except
    that the services are started by arguments. *)

From S2P Require Import Prelude GoStd Json StrictJson Time Host Locator Grant SshWire Crypto Packet Kex Conn Forward Serve Listen.
From S2P Require Import ClientStore Clients Server AuthorizedKeys GrantSession Reconcile Invite Accept InviteClient Enroll Config Resolve.
From S2P Require Import Routes Lifecycle Tunnels Submit ClientEnroll NetInspect HostApply.
Import Time Json Netip Locator.
Import HostApply.

Module HostCommand.

Definition mgmtListenLockName : string := ".mgmt-listen.lock".

Record hostArguments := mkHostArguments {
  a_to : string;
  a_name : string;
  a_out : string;
  a_flags : hostPublicationFlags;
  a_stdout : bool;
  a_noInvite : bool;
  a_json : bool;
  a_accessFor : string;
}.

Definition checkArguments (a : hostArguments) : result () :=
  if eqs (a_to a) "" then Err (EMsg "host requires --to <port|ip:port>")
  else if a_stdout a && a_noInvite a then Err (EMsg "host --stdout cannot be combined with --no-invite")
  else if a_stdout a && negb (eqs (a_out a) "") then Err (EMsg "host --stdout cannot be combined with --out")
  else if a_stdout a && a_json a then Err (EMsg "host --stdout cannot be combined with --json")
  else if a_noInvite a && (negb (eqs (a_out a) "") || negb (eqs (a_name a) ""))
  then Err (EMsg "host --no-invite cannot be combined with invite naming flags")
  else Ok ().

Definition accessSeconds (accessFor : string) : result Z :=
  if eqs accessFor "" then Ok 0
  else match (parsed ← Grant.ParseAccessDuration accessFor; Grant.Seconds parsed) with
       | Ok seconds => Ok seconds
       | Err e => Err (EMsg ("access-for: " ++ errText e))
       end.

Section host.
Context {CR : Crypto} {Key : Type} (K : Submit.pki Key) (H : hostEnv) (rnd : nat → nat → bytes).
Context (keygen : nat → list string → gmap string bytes → result bytes * gmap string bytes).
Context (netInterfaces : nat → result (list Inspectnet.netInterface)) (bindSocket : nat → result Z) (exchange : nat → bytes → result bytes).
Context (accepts : nat → AddrPort → bool) (artifactProfile : result string).
Context (procRead : nat → string → result bytes) (procLink : nat → string → result string) (selfPid : Z).
Context (control : nat → bytes → result bytes) (groupAccess : nat → bool).
(** Starting the services: [ensureSSHDStarted], [ensureEnrollListenStarted] and
    [startMgmtListenLocked]. *)
Context (startDataPlane : bool → AddrPort → HM string) (startEnrollment : bool → AddrPort → string → HM string) (startManagement : HM ()).
Context (superuser : bool) (hostname cwd : result string) (isDir : nat → bool).

Definition runKeygen (command : list string) : HM bytes :=
  n ← call; fs ← get_files;
  let '(r, fs') := keygen n command fs in
  set_files (λ _, fs');; hlift r.

Definition ensureHostIdentity : HM (string * bool) :=
  let path := Server.ServerHostKeyPath in
  r ← htry (Lstat H path);
  match r with
  | Ok _ => key ← deriveHostPublicKey keygen path; mret (key, false)
  | Err e =>
      if negb (IsNotExist e) then hfail e
      else
        there ← htry (Lstat H ClientEnroll.SSHKeygenPath);      (* Stat *)
        match there with
        | Err e => hfail (EMsg ("bundled ssh-keygen is required at " ++ ClientEnroll.SSHKeygenPath ++ ": " ++ errText e))
        | Ok _ =>
            made ← htry (runKeygen [ClientEnroll.SSHKeygenPath; "-t"; "mldsa44-ed25519"; "-f"; path; "-N"; ""; "-C"; "warptweet-host"]%string);
            match made with
            | Err e => hfail (EMsg ("generate host key: " ++ errText e))
            | Ok _ =>
                sys H;;                                          (* Chmod *)
                owned ← htry (sys H);                            (* Chown *)
                match owned with
                | Err e => if superuser then hfail e else mret ()
                | Ok _ => mret ()
                end;;
                publicKey ← deriveHostPublicKey keygen path;
                ClientEnroll.WriteFile H (path ++ ".pub") (to_bytes publicKey ++ [bz 10]);;
                mret (publicKey, true)
            end
        end
  end.

Definition writeHostSSHDFiles (manifest : Server.Config) : HM () :=
  r ← htry (Lstat H (Server.AuthorizedKeysPath manifest));
  match r with
  | Err e => if IsNotExist e then ClientEnroll.WriteFile H (Server.AuthorizedKeysPath manifest) [] else mret ()
  | Ok _ => mret ()
  end;;
  rendered ← hlift (Server.Render manifest);
  AuthorizedKeys.writeFileAtomic H ServerConfigPath rendered.

Definition productionHostApplyEnv : hostApplyEnv :=
  mkApplyEnv Reconcile.ServerManifestPath Enroll.serverStateDirectory Enroll.inviteDirectory Reconcile.ClientsDirectory
    Submit.ServerEnrollmentTLSCertPath Submit.ServerEnrollmentTLSKeyPath "" 0
    (Some (discoverHostBind netInterfaces bindSocket exchange))
    (Some (n ← call; hlift (Inspectnet.ListHostInterfaces (netInterfaces n))))
    (Some startDataPlane) (Some startEnrollment) (Some (probeTCPListener accepts)) (Some ensureHostIdentity)
    (Some (Submit.EnsureTLSIdentity K H Submit.ServerEnrollmentTLSCertPath Submit.ServerEnrollmentTLSKeyPath))
    (Some writeHostSSHDFiles) false.

Definition ensureDirectoryMode : HM () := sys H;; sys H.        (* MkdirAll, Chmod *)
Definition ensureHostDirectories : HM () :=
  ensureDirectoryMode;; ensureDirectoryMode;; ensureDirectoryMode;; ensureDirectoryMode;; ensureDirectoryMode;; ensureDirectoryMode;;
  (if superuser then sys H;; sys H else mret ());;              (* Chown *)
  ensureDirectoryMode;; ensureDirectoryMode.

Definition defaultHostLabel : string :=
  match hostname with
  | Ok host => if eqs (Strings.trim_space host) "" then "host" else host
  | Err _ => "host"
  end.

Definition withHostOperationLock {A} (body : HM A) : HM A :=
  Clients.withLock H Enroll.serverStateDirectory Enroll.hostStateLockName "resource" body.
Definition ensureMgmtListenStarted : HM () :=
  Clients.withLock H Enroll.serverStateDirectory mgmtListenLockName "resource" startManagement.

(** The check of the clock that every command of the host makes. *)
Definition observeHostClock : HM () :=
  blocked ← Grant.ClockIsBlocked H Reconcile.HostClockBlockedPath;
  if (blocked : bool) then hfail (EMsg "host clock: blocked until warptweet server clock-recover")
  else
    t ← Host.now H;
    observed ← htry (Grant.ObserveClock H Reconcile.HostClockObservationPath t);
    match observed with
    | Ok _ => mret ()
    | Err e =>
        existing ← htry (Server.Load H Reconcile.ServerManifestPath);
        match existing with
        | Ok manifest => Reconcile.enterBlockedClock H procRead procLink selfPid control groupAccess manifest e
        | Err _ => mret ()
        end;;
        hfail (EMsg ("host clock: " ++ errText e))
    end.

Definition hostLocked (a : hostArguments) (target : AddrPort) (label : string) (authorizationSeconds : Z)
    : HM (hostApplyResult * string) :=
  observeHostClock;;
  result ← applyHostConfiguration K H rnd keygen netInterfaces bindSocket exchange accepts artifactProfile productionHostApplyEnv
             (mkInput target (a_flags a) (a_noInvite a) label authorizationSeconds);
  t ← Host.now H;
  reconciled ← htry (Reconcile.reconcileExpiredGrants H rnd procRead procLink selfPid control groupAccess (Manifest result) t);
  match reconciled with
  | Err e => hfail (EMsg ("reconcile expired grants: " ++ errText e))
  | Ok _ =>
      reconciled ← htry (Reconcile.reconcileManagedAuthorizations H (Manifest result));
      match reconciled with
      | Err e => hfail (EMsg ("reconcile managed authorizations: " ++ errText e))
      | Ok _ =>
          ensureMgmtListenStarted;;
          match InviteOf result with
          | None => mret (result, ""%string)
          | Some (invite, raw, _) =>
              if a_stdout a then mret (result, ""%string)
              else if negb (eqs (a_out a) "") then path ← InviteClient.WriteInviteFileExact H cwd isDir (a_out a) raw; mret (result, path)
              else
                directory ← hlift cwd;
                path ← InviteClient.WriteInviteFile H cwd directory label (Invite.InviteID invite) raw;
                mret (result, path)
          end
      end
  end.

(** The result and the path of the invite file, which the command prints. *)
Definition runHost (a : hostArguments) : HM (hostApplyResult * string) :=
  hlift (checkArguments a);;
  target ← hlift (match parseHostTarget (a_to a) with Ok t => Ok t | Err e => Err (EMsg ("to: " ++ errText e)) end);
  policy ← htry (Grant.LoadPolicy H HostAuthorizationPolicyPath);
  match policy with
  | Err e => hfail (EMsg ("host authorization policy: " ++ errText e))
  | Ok policy =>
      requested ← hlift (accessSeconds (a_accessFor a));
      match Grant.ResolveDuration policy requested with
      | Err e => hfail (EMsg ((if negb (eqs (a_accessFor a) "") then "access-for: " else "host authorization policy: ") ++ errText e))
      | Ok authorizationSeconds =>
          ensureHostDirectories;;
          let label := InviteClient.SanitizeInviteLabel (if eqs (a_name a) "" then defaultHostLabel else a_name a) in
          withHostOperationLock (hostLocked a target label authorizationSeconds)
      end
  end.
End host.

End HostCommand.

(** ** The helpers of the installed host

    The production helpers of [warptweet host] keep what HostApplyProps.v asks
    of them, for a generator of keys and services that leave the manifest, the
    client records and the invites alone. *)

From S2P Require Import Prelude GoStd Json StrictJson Time Text Host Locator Grant GrantProps SshWire Crypto Packet Kex Conn Forward Serve Listen.
From S2P Require Import ClientStore ClientCodec Server Clients ClientProps AuthorizedKeys GrantSession ServerProps SessionProps Reconcile Frame Layout.
From S2P Require Import ReconcileProps ReconcileLoop Invite Accept InviteClient EnrollProps Enroll Config ConfigProps Resolve Routes RouteProps Lifecycle.
From S2P Require Import Tunnels TunnelSafety Submit ClientEnroll ClientEnrollProps NetInspect HostApply HostApplyProps.
Import Time Json Netip Locator Server Clients Reconcile.
Import HostApply HostCommand.

(** A path that starts otherwise than the guarded ones. *)
Lemma unguarded p : p ≠ ServerManifestPath → take 14 (to_bytes p) ≠ take 14 (to_bytes ClientsDirectory) ∨ take 20 (to_bytes p) = take 20 (to_bytes ServerHostKeyPath) → ¬ guarded p.
Proof.
  intros Hne Hp [->|[[rest ->]|[rest ->]]]; [done|..]; rewrite !to_bytes_append in Hp.
  - destruct Hp as [Hp|Hp]; [by apply Hp; rewrite take_app_le by (vm_compute; lia)|]. rewrite take_app_le in Hp by (vm_compute; lia). by vm_compute in Hp.
  - destruct Hp as [Hp|Hp]; [apply Hp; by rewrite take_app_le by (vm_compute; lia)|]. rewrite take_app_le in Hp by (vm_compute; lia). by vm_compute in Hp.
Qed.

Lemma etc_unguarded rest : ("/etc/warptweet/enrollment/" ++ rest)%string ≠ ServerManifestPath ∧ ¬ guarded ("/etc/warptweet/enrollment/" ++ rest).
Proof.
  assert (("/etc/warptweet/enrollment/" ++ rest)%string ≠ ServerManifestPath) as Hne.
  { intros E. apply (f_equal (λ s, take 16 (to_bytes s))) in E. by vm_compute in E. }
  split; [done|]. apply unguarded; [done|]. left. intros E. by vm_compute in E.
Qed.

Section production.
Context {CR : Crypto} {Key : Type} (K : Submit.pki Key) (H : hostEnv).
Context (keygen : nat → list string → gmap string bytes → result bytes * gmap string bytes).
Context (netInterfaces : nat → result (list Inspectnet.netInterface)) (bindSocket : nat → result Z) (exchange : nat → bytes → result bytes).
Context (accepts : nat → AddrPort → bool) (superuser : bool).
Context (startDataPlane : bool → AddrPort → HM string) (startEnrollment : bool → AddrPort → string → HM string).
Hypothesis keygen_ok : ∀ n c fs p, guarded p → (keygen n c fs).2 !! p = fs !! p.
Hypothesis data_ok : ∀ b e, spares_manifest (startDataPlane b e).
Hypothesis enroll_ok : ∀ b e p, spares_manifest (startEnrollment b e p).

Lemma spares_tls t : spares_guarded (Submit.EnsureTLSIdentity K H Submit.ServerEnrollmentTLSCertPath Submit.ServerEnrollmentTLSKeyPath t).
Proof using.
  unfold Submit.EnsureTLSIdentity. change (_ || _) with false. cbv iota. frame; [unfold orNow; frame|].
  apply within_withLock.
  { change (Filepath.Join _ _) with ("/etc/warptweet/enrollment/" ++ ".tls.key.tls.crt.lock")%string. apply etc_unguarded. }
  assert (∀ path contents, path = Submit.ServerEnrollmentTLSCertPath ∨ path = Submit.ServerEnrollmentTLSKeyPath →
            spares_guarded (Clients.writeFileAtomic H path contents)) as Hwrite.
  { intros path contents Hp. unfold Clients.writeFileAtomic. apply within_replaceFile; [|intros n|frame].
    - destruct Hp as [-> | ->]; [apply (etc_unguarded "tls.crt")|apply (etc_unguarded "tls.key")].
    - assert (tempName H path ".wt-invite-" n = "/etc/warptweet/enrollment/" ++ (".wt-invite-" ++ h_temp H n))%string as -> by (by destruct Hp as [-> | ->]).
      apply etc_unguarded. }
  unfold Submit.ensureTLSIdentityLocked, Submit.loadOrCreateEnrollmentKey, Submit.needsRenewal, Submit.loadEnrollmentLeaf, Submit.writeEnrollmentCertificate.
  frame; apply Hwrite; auto.
Qed.

Lemma spares_keygen {A} (command : list string) (f : result bytes → HM A) :
  (∀ r, spares_guarded (f r)) →
  spares_guarded (n ← call; fs ← get_files; let '(r, fs') := keygen n command fs in set_files (λ _, fs');; f r).
Proof using keygen_ok.
  intros Hf w. unfold call, get_files, mbind, HM_bind. cbn [files calls]. pose proof (λ p, keygen_ok (calls w) command (files w) p) as Hk.
  destruct (keygen _ _ _) as [r fs']. cbn [snd] in Hk. etrans; [|apply Hf]. intros p Hp. cbn [files]. apply dec_stable. intros Hne.
  apply Hp. intros Hg. by apply Hne, Hk.
Qed.
Lemma spares_derive path : spares_guarded (deriveHostPublicKey keygen path).
Proof using keygen_ok. unfold deriveHostPublicKey. apply spares_keygen. intros r. frame. Qed.
Lemma spares_identity : spares_guarded (ensureHostIdentity H keygen superuser).
Proof using keygen_ok.
  unfold ensureHostIdentity. cbv zeta.
  frame; try apply spares_derive; [unfold runKeygen; apply spares_keygen; intros r; frame|].
  assert (¬ guarded (ServerHostKeyPath ++ ".pub")) as Hg by (apply unguarded; [done|right; reflexivity]).
  unfold ClientEnroll.WriteFile, Lifecycle.WriteFile. frame; [apply moves_set; intros fs; by apply outside_insert|by apply within_Write].
Qed.
Lemma spares_sshd c : Server.Validate c = Ok () → spares_manifest (writeHostSSHDFiles H c).
Proof using.
  intros (selected & Hv & _)%bind_Ok. pose proof (keysPath_below c selected Hv) as [rest Hp].
  assert (Server.AuthorizedKeysPath c ≠ ServerManifestPath) as Hne.
  { rewrite Hp. intros E. apply (f_equal (λ s, take 2 (to_bytes s))) in E. by vm_compute in E. }
  unfold writeHostSSHDFiles. frame; [|by apply spares_atomic].
  unfold ClientEnroll.WriteFile, Lifecycle.WriteFile. frame; [apply moves_set; intros fs; by apply outside_insert|by apply within_Write].
Qed.

#[export] Instance production_helpers :
  HostHelpers keygen (productionHostApplyEnv K H keygen netInterfaces bindSocket exchange accepts startDataPlane startEnrollment superuser).
Proof using keygen_ok data_ok enroll_ok.
  split; cbn [productionHostApplyEnv Discover Interfaces EnsureIdentity EnsureTLS WriteSSHD ApplyDataPlane ApplyEnrollment ProbeTCP].
  - intros m [= <-]. unfold discoverHostBind. frame.
  - intros m [= <-]. frame.
  - intros m [= <-]. apply spares_identity.
  - intros m t [= <-]. apply spares_tls.
  - intros m c [= <-]. apply spares_sshd.
  - intros m b e [= <-]. apply data_ok.
  - intros m b e p [= <-]. apply enroll_ok.
  - intros m e [= <-]. unfold probeTCPListener. frame.
  - intros n c fs. apply keygen_ok. by left.
Qed.
End production.
