(* ===== verification/CommandWitness.v ===== *)
(** * Concrete machines for the theorems about clients and the host command

    A module per component: the routes, the run-time
    states, the commands on tunnels, the network and the key store of an
    enrollment, the enrollment commands, and the host command. *)

From S2P Require Import Prelude GoStd Json StrictJson Time Text Host Locator Grant GrantProps SshWire Crypto Packet.
From S2P Require Import Kex Listen ClientStore ClientCodec Server Clients ClientProps AuthorizedKeys GrantSession.
From S2P Require Import ServerProps SessionProps Reconcile Frame Layout Invite Accept InviteClient InviteProps Enroll.
From S2P Require Import EnrollProps Routes RouteProps RouteSafety RouteCodec HostWitness.

(** ** The route store on concrete inputs *)
Module RouteWitness.
Import Time Json Locator.
Import Routes.

Definition routesRoot : string := "/var/lib/warptweet/routes".
Definition calmHost : hostEnv := mkHostEnv (λ _, None) (λ _, 0%nat) (λ n, Z.of_nat n) (λ n, Strings.itoa (Z.of_nat n)).
Definition emptyStore : world := mkWorld ∅ 0.
Definition reserving (routeID : string) (port : Z) : Transaction :=
  mkTransaction "" 0 routeID PhaseReserved port "g1" "i1" "" "".

(** A port that is taken is refused, and the refused route leaves nothing
    behind: it can be reserved with another port. *)
Example taken_port_refused :
  let w1 := runOps calmHost routesRoot [OpReservePort "alpha" 15432; OpReservePort "beta" 15432] emptyStore in
  let '(r, w2) := ReservePort calmHost routesRoot "beta" 15433 w1 in
  (ReservePort calmHost routesRoot "beta" 15432
     (runOps calmHost routesRoot [OpReservePort "alpha" 15432] emptyStore)).1
    = bad "listen port is already reserved by alpha" ∧
  r = Ok () ∧ (PortOwner calmHost routesRoot 15433 w2).1 = Ok (Some "beta"%string).
Proof. vm_compute. done. Qed.

(** A reservation that is interrupted after the directory was made (here the
    listing of the other routes fails) blocks the route: a later attempt finds
    the directory and no reservation. *)
Definition interruptedHost : hostEnv :=
  mkHostEnv (λ n, if (n =? 7)%nat then Some (EOS EIO) else None) (λ _, 0%nat) (λ n, Z.of_nat n) (λ n, Strings.itoa (Z.of_nat n)).
Example interrupted_reservation_blocks :
  let '(r, w) := ReservePort interruptedHost routesRoot "alpha" 15432 emptyStore in
  r = Err (EOS EIO) ∧ (ReservePort calmHost routesRoot "alpha" 15432 w).1 = bad "route alpha already exists".
Proof. vm_compute. done. Qed.

Lemma routesRoot_clean : clean_root routesRoot.
Proof. split_and!; [vm_compute; reflexivity|vm_compute; reflexivity|discriminate]. Qed.
Lemma emptyStore_exclusive : exclusive routesRoot (files emptyStore).
Proof. intros a b p (_ & _ & c & r & Hc & _). cbn [files emptyStore] in Hc. by rewrite lookup_empty in Hc. Qed.

Lemma ports_exclusive_witness :
  let w1 := runOps calmHost routesRoot [OpReservePort "alpha" 15432; OpRemove "alpha"] emptyStore in
  let '(r, w2) := ReserveAndWriteTransaction calmHost routesRoot (reserving "beta" 15432) w1 in
  exclusive routesRoot (files w2) ∧ r = Ok () ∧ claims routesRoot (files w2) "beta" 15432.
Proof.
  pose proof (ports_exclusive calmHost routesRoot [OpReservePort "alpha" 15432; OpRemove "alpha"]
    (reserving "beta" 15432) emptyStore routesRoot_clean) as Hp.
  assert (is_ok (ReserveAndWriteTransaction calmHost routesRoot (reserving "beta" 15432)
    (runOps calmHost routesRoot [OpReservePort "alpha" 15432; OpRemove "alpha"] emptyStore)).1 = true) as Hok
    by (vm_compute; reflexivity).
  cbv zeta in *.
  destruct (ReserveAndWriteTransaction _ _ _ _) as [[[]|e] w2]; [|discriminate].
  destruct Hp as (_ & H2 & H3); [by intros n|repeat constructor; done|apply emptyStore_exclusive|].
  split; [exact H2|]. split; [reflexivity|]. by apply H3.
Defined.

Definition sampleTransaction : Transaction := reserving "alpha" 15432.
Definition sampleIntent : Intent :=
  mkIntent KindDesiredState 1 "alpha" DesiredRunning RestartUnlessStopped "" "2026-01-01T00:00:00Z".
Definition sampleReceipt : Receipt :=
  mkReceipt "i1" "c1" "c1" "alpha" "2026-01-01T00:00:00Z" "2026-02-01T00:00:00Z" 2678400 "g1" ""
    (ClientStore.Published sampleClient) "" "" "00" "" "127.0.0.1:15432" "" "" "".

Lemma route_documents_roundtrip_witness :
  (LoadIntent calmHost routesRoot "alpha" (WriteIntent calmHost routesRoot sampleIntent emptyStore).2).1 = Ok sampleIntent ∧
  (LoadReceipt calmHost routesRoot "alpha" (WriteReceipt calmHost routesRoot sampleReceipt emptyStore).2).1 = Ok sampleReceipt.
Proof.
  pose proof (route_documents_roundtrip calmHost calmHost routesRoot sampleTransaction sampleIntent sampleReceipt emptyStore)
    as Hround.
  assert (wf_transaction sampleTransaction) as Ht
    by (split; [repeat (constructor; [by apply ascii_forallb|]); constructor|by vm_compute]).
  assert (wf_intent sampleIntent) as Hi
    by (split; [repeat (constructor; [by apply ascii_forallb|]); constructor|by vm_compute]).
  assert (wf_receipt sampleReceipt) as Hr.
  { split; [repeat (constructor; [by apply ascii_forallb|]); constructor|].
    destruct sampleClient_wf as (_ & Hd & He & Hg & _). split; [exact Hd|]. split; [exact He|]. split; [exact Hg|]. by vm_compute. }
  split.
  - assert (is_ok (WriteIntent calmHost routesRoot sampleIntent emptyStore).1 = true) as Hok by (vm_compute; reflexivity).
    destruct (WriteIntent calmHost routesRoot sampleIntent emptyStore) as [[[]|e] w'] eqn:Hw; [|discriminate].
    destruct (Hround w' routesRoot_clean) as (_ & Hint & _); [by intros n|done|done|done|].
    destruct (Hint eq_refl) as (u & [Hu|Hu] & Hl); [discriminate|]. subst u. exact Hl.
  - assert (is_ok (WriteReceipt calmHost routesRoot sampleReceipt emptyStore).1 = true) as Hok by (vm_compute; reflexivity).
    destruct (WriteReceipt calmHost routesRoot sampleReceipt emptyStore) as [[[]|e] w'] eqn:Hw; [|discriminate].
    destruct (Hround w' routesRoot_clean) as (_ & _ & Hrec); [by intros n|done|done|done|]. exact (Hrec eq_refl).
Defined.

End RouteWitness.

From S2P Require Import Prelude GoStd Json StrictJson Time Text Host Locator Grant GrantProps SshWire Crypto Packet.
From S2P Require Import Kex Listen ClientStore ClientCodec Server Clients ClientProps AuthorizedKeys GrantSession.
From S2P Require Import ServerProps SessionProps Reconcile Frame Layout Invite Accept InviteClient InviteProps Enroll.
From S2P Require Import EnrollProps Routes RouteProps RouteCodec Lifecycle LifecycleProps.

(** ** Tunnel states on concrete inputs *)
Module LifecycleWitness.
Import RouteWitness.
Import Time Json ClientStore.
Import Lifecycle.

Definition tunnelsRoot : string := "/run/warptweet/tunnels".
Lemma tunnelsRoot_clean : clean_root tunnelsRoot.
Proof. split_and!; [vm_compute; reflexivity|vm_compute; reflexivity|discriminate]. Qed.

(** Process 4711 started at tick 9000. *)
Definition sampleStat : string := "4711 (warp tweet) S 1 1 1 0 -1 4194560 1 0 0 0 1 1 0 0 20 0 1 0 9000 1".
Definition sampleProc (n : nat) (path : string) : result bytes :=
  if eqs path "/proc/4711/stat" then Ok (to_bytes sampleStat) else Err (EOS ENOENT).
Definition sampleProbe (alive : bool) (n : nat) (pid : Z) : option error :=
  if alive && (pid =? 4711) then None else Some (EOS ESRCH).
Definition readyState : State := mkState "alpha" PhaseReady 4711 0 "127.0.0.1:15432" "" "2026-01-01T00:00:00Z" "" "" "g1".
Definition readyStored : world := (Write calmHost sampleProc tunnelsRoot readyState emptyStore).2.

(** The stored state carries the start time; a reader that finds the process
    sees it Ready, one that finds another start time or none sees it Failed. *)
Example ready_then_gone :
  match (Read calmHost sampleProc (sampleProbe true) tunnelsRoot "alpha" readyStored).1,
        (Read calmHost sampleProc (sampleProbe false) tunnelsRoot "alpha" readyStored).1 with
  | Ok s, Ok s' => s_Phase s = PhaseReady ∧ StartIdentity s = 9000 ∧ s_Phase s' = PhaseFailed
  | _, _ => False
  end.
Proof. vm_compute. done. Qed.

Lemma sampleProc_bounded : ticks_bounded sampleProc.
Proof.
  intros n pid i. unfold identityAt, sampleProc. destruct (eqs _ _); [|done].
  intros Hi. assert (Some i = Some 9000) as [= ->] by (rewrite <- Hi; vm_compute; reflexivity). lia.
Qed.

Lemma running_is_alive_witness :
  ∃ s w, Read calmHost sampleProc (sampleProbe true) tunnelsRoot "alpha" readyStored = (Ok s, w) ∧
    s_Phase s = PhaseReady ∧ seen_alive sampleProc (sampleProbe true) (PID s) (StartIdentity s).
Proof.
  pose proof (running_is_alive calmHost sampleProc (sampleProbe true) tunnelsRoot "alpha" readyStored) as Hlive.
  assert (match (Read calmHost sampleProc (sampleProbe true) tunnelsRoot "alpha" readyStored).1 with
    | Ok s => bool_decide (s_Phase s = PhaseReady) && (0 <? PID s) | Err _ => false end = true) as Hok
    by (vm_compute; reflexivity).
  destruct (Read _ _ _ _ _ _) as [[s|e] w]; [|discriminate].
  apply andb_prop in Hok as [Hp%bool_decide_eq_true Hpid%Z.ltb_lt].
  exists s, w. split; [reflexivity|]. split; [exact Hp|]. apply (Hlive s w); [reflexivity|by rewrite Hp|exact Hpid].
Defined.

Lemma tunnel_state_roundtrip_witness :
  ∃ s s' w, recorded_as readyState s ∧
    Read calmHost sampleProc (sampleProbe false) tunnelsRoot "alpha" readyStored = (Ok s', w) ∧
    s' = set_s_Error "process is not running" (set_s_Phase PhaseFailed s).
Proof.
  pose proof (tunnel_state_roundtrip calmHost calmHost sampleProc sampleProc (sampleProbe false) tunnelsRoot readyState
    emptyStore readyStored tunnelsRoot_clean) as Hround.
  destruct Hround as (s & Hrec & s' & w & Hread & Hs').
  - by intros n.
  - split; [repeat (constructor; [by apply ascii_forallb|]); constructor|]. cbn. lia.
  - apply sampleProc_bounded.
  - assert (is_ok (Write calmHost sampleProc tunnelsRoot readyState emptyStore).1 = true) as Hok by (vm_compute; reflexivity).
    unfold readyStored. destruct (Write _ _ _ _ _) as [[[]|e] w']; [reflexivity|discriminate].
  - exists s, s', w. split; [exact Hrec|]. split; [exact Hread|]. destruct Hs' as [-> |(_ & _ & ->)]; [|reflexivity].
    exfalso. assert (s_Phase s = PhaseReady) as Hp
      by (destruct Hrec as (u & i & _ & _ & _ & ->); by destruct (eqs _ _)).
    assert (match (Read calmHost sampleProc (sampleProbe false) tunnelsRoot "alpha" readyStored).1 with
      | Ok s => bool_decide (s_Phase s = PhaseFailed) | Err _ => false end = true) as Hf by (vm_compute; reflexivity).
    change (TunnelID readyState) with "alpha"%string in Hread. rewrite Hread in Hf. cbn [fst] in Hf.
    apply bool_decide_eq_true in Hf. by rewrite Hp in Hf.
Defined.

End LifecycleWitness.

From S2P Require Import Prelude GoStd Json StrictJson Time Text Host Locator Grant GrantProps SshWire Crypto Packet.
From S2P Require Import Kex Listen ClientStore ClientCodec Server Clients ClientProps AuthorizedKeys GrantSession.
From S2P Require Import ServerProps SessionProps Reconcile Frame Layout Invite Accept InviteClient InviteProps Enroll.
From S2P Require Import EnrollProps Resolve Routes RouteProps RouteCodec Lifecycle LifecycleProps.
From S2P Require Import Tunnels TunnelProps TunnelSafety.

(** ** The tunnel commands on concrete inputs *)
Module TunnelWitness.
Import RouteWitness LifecycleWitness.
Import Time Locator.
Import Tunnels.

Definition rootProcess : provisioner := mkProvisioner false (λ _ _ _, Err (EMsg "not used")).
(** A service manager that succeeds and changes no file. *)
Definition calmExec (n : nat) (arguments : list string) (fs : gmap string bytes) : option error * gmap string bytes :=
  (None, fs).
(** One that fails. *)
Definition failingExec (n : nat) (arguments : list string) (fs : gmap string bytes) : option error * gmap string bytes :=
  (Some (EMsg "exit status 1"), fs).

(** Route alpha, enrolled and to be running; route beta only reserved. *)
Definition enrolledStore : world :=
  let w := (Routes.WriteIntent calmHost Root sampleIntent emptyStore).2 in
  let w := (Routes.WriteReceipt calmHost Root sampleReceipt w).2 in
  (Routes.Reserve calmHost Root "beta" w).2.
Definition reconciled (exec : nat → list string → gmap string bytes → option error * gmap string bytes) (w : world)
    : option (list string * list string * list string) :=
  match (runReconcile calmHost sampleProc exec w).1 with
  | Ok p => Some (started p, skipped p, (map_to_list (failed p)).*1)
  | Err _ => None
  end.

Example reconcile_starts : reconciled calmExec enrolledStore = Some (["alpha"], ["beta"], [])%string.
Proof. vm_compute. reflexivity. Qed.
Example reconcile_reports_failure : reconciled failingExec enrolledStore = Some ([], ["beta"], ["alpha"])%string.
Proof. vm_compute. reflexivity. Qed.
(** After [down], even one whose service manager fails, alpha is skipped. *)
Example reconcile_after_down :
  let w := (runDown calmHost rootProcess sampleProc (sampleProbe true) failingExec "alpha" enrolledStore).2 in
  reconciled calmExec w = Some ([], ["alpha"; "beta"], [])%string.
Proof. vm_compute. reflexivity. Qed.

(** [down] of a route that does not exist makes a route of it, and the id can
    not be reserved by an enrollment any more. *)
Example down_reserves :
  let w := (runDown calmHost rootProcess sampleProc (sampleProbe true) calmExec "gamma" enrolledStore).2 in
  (persistReservedRoute calmHost "gamma" 15433 "i2" "g2" w).1 = Routes.bad "route gamma already exists" ∧
  is_ok (persistReservedRoute calmHost "gamma" 15433 "i2" "g2" enrolledStore).1 = true.
Proof. vm_compute. done. Qed.

Lemma ok_result {A} (x : result A * world) (f : A → bool) :
  match x.1 with Ok a => f a | Err _ => false end = true → ∃ a w, x = (Ok a, w) ∧ f a = true.
Proof. destruct x as [[a|e] w]; [eauto|discriminate]. Qed.


Definition downStore : world := (runDown calmHost rootProcess sampleProc (sampleProbe true) failingExec "alpha" enrolledStore).2.

Lemma enrolled_own : own_intent "alpha" (files enrolledStore).
Proof.
  intros i Hi. assert (intentOf Root (files enrolledStore) "alpha" = Ok sampleIntent) as Hs by (vm_compute; reflexivity).
  rewrite Hs in Hi. apply Ok_inj in Hi as <-.
  split; [|reflexivity]. split; [repeat (constructor; [by apply ascii_forallb|]); constructor|by vm_compute].
Qed.

Lemma down_is_durable_witness :
  ∃ p w, runReconcile calmHost sampleProc calmExec downStore = (Ok p, w) ∧ ¬ attempted p "alpha" ∧
    runReconcile calmHost sampleProc
      (λ n arguments fs, if bool_decide (arguments = ["systemctl"; "start"; unitOf "alpha"]%string)
                         then failingExec n arguments fs else calmExec n arguments fs) downStore = (Ok p, w).
Proof.
  destruct (ok_result (runReconcile calmHost sampleProc calmExec downStore) (λ _, true)) as (p & w & Hrun & _);
    [vm_compute; reflexivity|].
  assert ((writeRouteDesiredState calmHost sampleProc "alpha" Routes.DesiredStopped "" "" enrolledStore).1 = Ok ()) as Hrec
    by (vm_compute; reflexivity).
  assert (∀ n arguments fs, sameIntent "alpha" fs (failingExec n arguments fs).2) as Hexec by (intros; reflexivity).
  destruct (down_is_durable calmHost calmHost rootProcess sampleProc sampleProc (sampleProbe true) failingExec calmExec
    "alpha" enrolledStore downStore p w eq_refl enrolled_own Hexec Hrec eq_refl Hrun) as [Hnot Hsame].
  exists p, w. split; [exact Hrun|]. split; [exact Hnot|]. apply Hsame. intros n arguments fs Hne.
  by rewrite bool_decide_eq_false_2.
Defined.

End TunnelWitness.

From S2P Require Import Prelude GoStd Json StrictJson Time Host Locator Grant GrantProps SshWire Crypto Packet Kex ClientStore.
From S2P Require Import Clients Server Invite Accept InviteClient Resolve AuthorizedKeys Sample Submit SubmitProps.

(** ** A network and a key store on which the claims of SubmitProps.v apply *)
Module SubmitWitness.
Import Time Json Netip Locator ClientStore Toy.
Import Accept Submit.

Definition hostSPKI : bytes := replicate 44 (bz 7).
Definition pinnedInvite : Invite.Invite :=
  Invite.mkInvite Invite.KindInvite 3 "00112233445566778899aabbccddeeff" "laptop" (Invite.mkDial "tunnel.example.com" 443)
    (Invite.mkInviteEnrollment "enroll.example.com" 8443 (Hex.encode (sha256 hostSPKI))) 1 "10.0.0.1" 22 "warptweet"
    Profile.CurrentID "artifact" "ssh-mldsa44-ed25519@openssh.com AAAAhost" "2026-01-01T00:00:00Z" "2026-01-01T00:15:00Z"
    2592000 "0123456789abcdef".
Definition sampleRequest : EnrollmentRequest :=
  mkRequest (Invite.InviteID pinnedInvite) (Invite.Nonce pinnedInvite) "laptop" "key" Profile.CurrentID "laptop" "127.0.0.1"
    15432 "token".
Definition sampleProofText : bytes :=
  print (JObj [("invite_id", JStr (Invite.InviteID pinnedInvite)); ("client_id", JStr "c1");
               ("host_public_key", JStr (Invite.HostPublicKey pinnedInvite)); ("public_key", JStr "key");
               ("target", JStr "10.0.0.1:22"); ("principal", JStr "warptweet"); ("profile_id", JStr Profile.CurrentID);
               ("nonce", JStr (Invite.Nonce pinnedInvite)); ("accepted_at", JStr "2026-01-01T00:05:00Z");
               ("authorization_not_after", JStr "2026-01-31T00:05:00Z");
               ("authorization_duration_seconds", JInt 2592000); ("published_endpoint_generation", JInt 1);
               ("data", JObj [("host", JStr "tunnel.example.com"); ("port", JInt 443)]);
               ("enrollment", JObj [("host", JStr "enroll.example.com"); ("port", JInt 8443)])]%string).

Definition sampleCertificate : Certificate := mkCertificate true None 0 100 (Ok hostSPKI).
Definition sampleNetwork : network :=
  mkNetwork (λ _ _, Ok [Addr4 (Z.shiftl 127 24 + 1); Addr4 (Z.shiftl 203 24 + 9)])
    (λ _, Resolve.mkNetwork 0 (λ _, 0) (λ _, None) (λ _, None) (λ _ _ _ _, None))
    (λ _ _ _ _, inr (mkConnectionState VersionTLS13 EnrollmentALPN [sampleCertificate],
                     mkResponse 200 "200 OK" (Ok sampleProofText))).
Definition quietHost : hostEnv := mkHostEnv (λ _, None) (λ _, O) (λ _, 1) (λ n, Strings.itoa (Z.of_nat n)).

Definition answered : HM EnrollmentProof := SubmitEnrollment quietHost sampleNetwork pinnedInvite sampleRequest.
Lemma answered_ok : is_ok (answered (mkWorld ∅ 0)).1 = true.
Proof. vm_compute. reflexivity. Qed.


(** ** Keys as bytes, framed with the length of their type *)

Fixpoint ones (b : bytes) : nat * bytes :=
  match b with
  | c :: r => if zb c =? 1 then let '(n, rest) := ones r in (S n, rest) else (O, r)
  | [] => (O, [])
  end.
Definition framed (type_ : string) (block : bytes) : bytes :=
  replicate (String.length type_) (bz 1) ++ bz 0 :: to_bytes type_ ++ block.
Definition unframed (b : bytes) : option (string * bytes * bytes) :=
  let '(n, rest) := ones b in Some (to_string (take n rest), drop n rest, []).
Definition plainKeys : pki bytes :=
  mkPki bytes unframed framed (λ b, Ok (Some b)) Ok (λ n, Ok (replicate 32 (bz (Z.of_nat n)))) Ok
    (λ n key from until, Ok (bz (Z.of_nat n) :: key))
    (λ cert key, match unframed cert with Some (_, der, _) => Ok [der] | None => Err (EMsg "no certificate") end)
    (λ der, Ok (mkCertificate true None 0 100 (Ok (tail der)))).

Lemma plainKeys_laws : pki_laws plainKeys.
Proof.
  split; [|by intros key block [= ->]]. intros type_ block. cbn [pemDecode pemEncode plainKeys]. unfold unframed, framed.
  assert (∀ n rest, ones (replicate n (bz 1) ++ bz 0 :: rest) = (n, rest)) as Hones.
  { induction n as [|n IH]; intros rest; [reflexivity|]. cbn [replicate app ones]. change (zb (bz 1) =? 1) with true.
    by rewrite IH. }
  rewrite Hones. rewrite <- length_to_bytes, take_app_length, drop_app_length. by rewrite to_string_bytes.
Qed.

Definition firstStart := EnsureTLSIdentity plainKeys quietHost certPath keyPath 0 (mkWorld ∅ 0).
Definition secondStart := EnsureTLSIdentity plainKeys quietHost certPath keyPath (10 * Hour) firstStart.2.
Lemma starts_ok : is_ok firstStart.1 && is_ok secondStart.1 = true.
Proof. vm_compute. reflexivity. Qed.

Lemma tls_pin_stable_witness : ∃ pin created renewed renewed',
  firstStart.1 = Ok (pin, created, renewed) ∧ secondStart.1 = Ok (pin, false, renewed').
Proof.
  destruct firstStart as [[[[pin created] renewed]|e] w1] eqn:E1; [|pose proof starts_ok as Hok; by rewrite E1 in Hok].
  destruct secondStart as [[[[pin' created'] renewed']|e] w3] eqn:E2;
    [|pose proof starts_ok as Hok; apply andb_prop in Hok as [_ Hok]; by rewrite E2 in Hok].
  exists pin, created, renewed, renewed'. split; [reflexivity|].
  destruct (tls_pin_stable plainKeys quietHost quietHost (mkWorld ∅ 0) 0 pin created renewed w1 w1 (10 * Hour) pin' created'
    renewed' w3 plainKeys_laws) as (-> & -> & _); [done|exact E1|reflexivity| |reflexivity].
  unfold secondStart in E2. rewrite E1 in E2. exact E2.
Defined.

End SubmitWitness.

From S2P Require Import Prelude GoStd Json StrictJson Time Host Locator Grant GrantProps SshWire Crypto Packet Kex ClientStore.
From S2P Require Import Clients Server Invite Accept InviteClient Resolve AuthorizedKeys Sample SessionProps Frame RouteProps.
From S2P Require Import RouteCodec Tunnels Submit Routes Lifecycle ClientEnroll ClientEnrollProps.

(** ** A client on which the claims of ClientEnrollProps.v apply *)
Module ClientEnrollWitness.
Import SubmitWitness LifecycleWitness TunnelWitness.
Import Time Locator Toy.
Import Tunnels ClientEnroll.

Definition clientKeyLine : string := "ssh-mldsa44-ed25519@openssh.com AAAAclient warptweet-client-laptop".
(** A generator of keys that leaves a key in [directory]. *)
Definition keygenIn (directory : string) (_ : nat) (_ : list string) (fs : gmap string bytes) : option error * gmap string bytes :=
  (None, <[(directory ++ "/client.pub")%string := to_bytes clientKeyLine ++ [bz 10]]>
           (<[(directory ++ "/client")%string := to_bytes "private"]> fs)).
Definition someBytes (k n : nat) : bytes := replicate n (bz (Z.of_nat k)).

Lemma keygenIn_spares directory :
  covers elsewhere directory → ∀ n arguments fs, outside elsewhere fs (keygenIn directory n arguments fs).2.
Proof.
  intros Hc n arguments fs p Hp. unfold keygenIn. cbn [snd].
  rewrite !lookup_insert_ne; [done| |]; intros <-; apply Hp, Hc; by eexists.
Qed.

(** Route alpha, enrolled, running and active with one generation. *)
Definition enrolled : enrollmentReceipt :=
  mkEnrollmentReceipt "00112233445566778899aabbccddeeff" "c1" "alpha" "2026-01-01T00:05:00Z" "2026-01-31T00:05:00Z" 2592000
    "g1" (Hex.encode (replicate 32 (bz 17)))
    (mkEndpointSet 1 (mkEndpoint (mkDialHost Netip.AddrInvalid "tunnel.example.com") 443)
       (mkEndpoint (mkDialHost Netip.AddrInvalid "enroll.example.com") 8443))
    "old" "host" "pin" "10.0.0.1:22" "warptweet" Profile.CurrentID "".
Definition generationFile (name : string) : string := Root ++ "/alpha/generations/g1/" ++ name.
Definition enrolledClient : world :=
  let w := enrolledStore in
  let w := mkWorld (<[generationFile "client.wt" := to_bytes "manifest"]> (<[generationFile "known_hosts" := to_bytes "trust"]> (files w)))
                   (calls w) in
  let w := (Routes.Activate calmHost Root "alpha" "g1" w).2 in
  let w := (writeState calmHost sampleProc (stateOf "alpha" Lifecycle.PhaseReady 7 "127.0.0.1:15432" "" "g1") w).2 in
  (writeEnrollmentReceipt calmHost enrolled w).2.

Definition rotateProof : bytes :=
  Json.print (Json.JObj [("client_id", Json.JStr "c1"); ("public_key", Json.JStr clientKeyLine);
                         ("accepted_at", Json.JStr "2026-01-02T00:00:00Z")]%string).
(** A host that answers, and one that does not. *)
Definition managementHost (answers : bool) : Submit.network :=
  Submit.mkNetwork (λ _ _, Ok []) (λ _, Resolve.mkNetwork 0 (λ _, 0) (λ _, None) (λ _, None) (λ _ _ _ _, None))
    (λ _ _ _ _, if answers then inr (Submit.mkConnectionState 0 "" [], Submit.mkResponse 200 "200 OK" (Ok rotateProof))
                 else inl (Submit.mkTransportError None false false "connection refused")).
Definition rotationKeygen := keygenIn (rotationDirectory "alpha").
Definition rotating : HM (pendingRotation * string * string) :=
  loadOrCreatePendingRotation calmHost someBytes rotationKeygen SSHKeygenPath enrolled "alpha".
Definition rotateRun (answers : bool) : HM output :=
  runRotate calmHost someBytes rootProcess (managementHost answers) sampleProc (sampleProbe true) rotationKeygen false (λ _, false) "alpha".

(** The token on disk, in the receipt and in the pending rotation. *)
Definition tokens (fs : gmap string bytes) : option string * option string :=
  (r ← fs !! receiptFile "alpha"; match Json.unmarshal receiptFields zero_enrollmentReceipt r with Ok r => Some (e_ManagementToken r) | Err _ => None end,
   p ← fs !! rotationState "alpha"; match decodeFirst pendingRotationFields zero_pendingRotation p with Ok p => Some (pr_NextManagementToken p) | Err _ => None end).

Example rotated : tokens (files (rotateRun true enrolledClient).2) =
  (Some "5151515151515151515151515151515151515151515151515151515151515151", None)%string.
Proof. vm_compute. reflexivity. Qed.
Example unanswered : tokens (files (rotateRun false enrolledClient).2) =
  (Some "1111111111111111111111111111111111111111111111111111111111111111",
   Some "5151515151515151515151515151515151515151515151515151515151515151")%string.
Proof. vm_compute. reflexivity. Qed.

Definition asciiText (s : string) : bool := forallb (λ c, zb c <? 128) (to_bytes s).
Lemma asciiText_spec l : forallb asciiText l = true → Forall Json.ascii l.
Proof.
  intros Hl. apply List.Forall_forall. intros s Hs. rewrite forallb_forall in Hl. specialize (Hl s Hs).
  apply List.Forall_forall. intros c Hc. unfold asciiText in Hl. rewrite forallb_forall in Hl. specialize (Hl c Hc). lia.
Qed.

Lemma alpha_route : route_id "alpha".
Proof. apply ValidateRouteID_iff. reflexivity. Qed.


(** Two attempts to enroll with one invite, the second on a host that would
    generate another key and another token. *)
Definition enrollmentKeygen := keygenIn (enrollmentDirectory (Invite.InviteID pinnedInvite)).
Definition enrolling (rnd : nat → nat → bytes) (exec : nat → list string → gmap string bytes → option error * gmap string bytes)
    : HM (pendingEnrollment * string * string) :=
  loadOrCreatePendingEnrollment quietHost rnd exec SSHKeygenPath pinnedInvite "laptop".

Lemma pending_enrollment_stable_witness :
  ∃ pending stage identity w1, enrolling someBytes enrollmentKeygen (mkWorld ∅ 0) = (Ok (pending, stage, identity), w1) ∧
    (enrolling (λ k n, replicate n (bz 9)) failingExec w1).1 = Ok (pending, stage, identity).
Proof.
  destruct (ok_result (enrolling someBytes enrollmentKeygen (mkWorld ∅ 0)) (λ x, forallb asciiText (pendingTexts x.1.1)))
    as ([[p stage] identity] & w1 & E & Ha); [vm_compute; reflexivity|].
  exists p, stage, identity, w1. split; [exact E|].
  assert (files w1 !! Filepath.Join enrollmentReceiptDir "pending-enrollment" = None) as Hdir.
  { change w1 with ((Ok (p, stage, identity) : result (pendingEnrollment * string * string), w1).2). rewrite <- E. vm_compute. reflexivity. }
  exact (pending_enrollment_stable quietHost someBytes enrollmentKeygen quietHost (λ k n, replicate n (bz 9)) failingExec SSHKeygenPath
    SSHKeygenPath pinnedInvite "laptop" p stage identity (mkWorld ∅ 0) w1 w1 (λ k n, length_replicate n _) (λ _, eq_refl)
    (asciiText_spec _ Ha) E Hdir eq_refl eq_refl).
Defined.

End ClientEnrollWitness.

From S2P Require Import Prelude GoStd Json StrictJson Time Text Host Locator Grant GrantProps SshWire Crypto Packet Kex Conn Forward Serve Listen.
From S2P Require Import ClientStore ClientCodec Server Clients ClientProps AuthorizedKeys GrantSession ServerProps SessionProps Reconcile Frame Layout.
From S2P Require Import ReconcileProps ReconcileLoop Invite Accept InviteClient EnrollProps Enroll Config ConfigProps Resolve Routes RouteProps Lifecycle.
From S2P Require Import Tunnels TunnelSafety Submit ClientEnroll ClientEnrollProps NetInspect HostApply HostApplyProps Sample.
From S2P Require Import ReconcileKeys ReconcileWitness.

(** ** A host on which the claims of HostApplyProps.v apply

    The data plane of this host keeps the manifest it was started with in a file
    of its own, so that what is running can be compared with what is
    configured. *)
Module HostApplyWitness.
Import SubmitWitness.
Import Time Json Netip Locator Server Clients Reconcile Toy.
Import HostApply.

Definition runningPath : string := "/run/data-plane".
Definition startData (restart : bool) (endpoint : AddrPort) : HM string :=
  fs ← get_files;
  match fs !! ServerManifestPath with
  | Some manifest =>
      set_files (λ fs, if restart || negb (bool_decide (is_Some (fs !! runningPath))) then <[runningPath := manifest]> fs else fs);;
      fs ← get_files;
      match Server.Decode (default [] (fs !! runningPath)) with
      | Ok c => if bool_decide (AddrPort_ (Listen (n_Data (Net c))) = endpoint) then mret "ready"%string else hfail (EMsg "did not become active and listening")
      | Err e => hfail e
      end
  | None => hfail (EMsg "no manifest")
  end.
Definition sampleEnv (interrupt : string) : hostApplyEnv :=
  mkApplyEnv ServerManifestPath Enroll.serverStateDirectory Enroll.inviteDirectory ClientsDirectory "/etc/warptweet/enrollment/tls.crt"
    "/etc/warptweet/enrollment/tls.key" interrupt 1 None None (Some startData) (Some (λ _ _ _, mret "ready"%string)) (Some (λ _, mret true))
    (Some (mret ("host key"%string, false))) (Some (λ _, mret ("pin"%string, false, false))) None false.
Definition noKeygen (n : nat) (command : list string) (fs : gmap string bytes) : result bytes * gmap string bytes := (Err (EMsg "none"), fs).
Definition sampleApply (interrupt : string) (flags : hostPublicationFlags) (target : AddrPort) : HM hostApplyResult :=
  applyHostConfiguration plainKeys quietHost (λ _ n, replicate n (bz 0)) noKeygen (λ _, Ok []) (λ _, Ok 0) (λ _ _, Ok []) (λ _ _, true)
    (Ok "linux-amd64"%string) (sampleEnv interrupt) (mkInput target flags true "host" 3600).

Definition manifestText : bytes := print (get_ok JNull (manifestJSON sampleConfig)) ++ [bz 10].
Definition configuredWorld : world :=
  mkWorld (<[ServerManifestPath := manifestText]> (<["/etc/warptweet/enrollment/tls.crt"%string := framed "CERTIFICATE" [bz 9]]> ∅)) 0.
Definition oldTarget : AddrPort := AddrPortFrom (Addr4 167772161) 22.
Definition newTarget : AddrPort := AddrPortFrom (Addr4 167772162) 22.
Definition targetAt (path : string) (w : world) : option AddrPort :=
  raw ← files w !! path; match Server.Decode raw with Ok c => Some (storedTarget c) | Err _ => None end.

#[export] Instance sampleHelpers interrupt : HostHelpers noKeygen (sampleEnv interrupt).
Proof.
  split; try (intros; discriminate); cbn [sampleEnv Discover Interfaces EnsureIdentity EnsureTLS WriteSSHD ApplyDataPlane ApplyEnrollment ProbeTCP].
  - intros m [= <-]. frame.
  - intros m t [= <-]. frame.
  - intros m b e [= <-]. unfold startData. frame. apply moves_set. intros fs p ->%dec_stable. destruct (_ || _); [|done]. by rewrite lookup_insert_ne.
  - intros m b e p [= <-]. frame.
  - intros m e [= <-]. frame.
  - done.
Qed.

Lemma host_change_guarded_witness :
  let w' := (sampleApply "" noFlags newTarget configuredWorld).2 in
  files configuredWorld !! ServerManifestPath = Some manifestText ∧ files w' !! ServerManifestPath ≠ Some manifestText ∧
  quiescent (files configuredWorld).
Proof.
  assert (files (sampleApply "" noFlags newTarget configuredWorld).2 !! ServerManifestPath ≠ Some manifestText) as Hne
    by (apply (bool_decide_unpack _); vm_compute; exact I).
  split; [reflexivity|]. split; [exact Hne|].
  assert (Server.Decode manifestText = Ok sampleConfig) as Hd by (vm_compute; reflexivity).
  assert (files configuredWorld !! ServerManifestPath = Some manifestText) as Hf by reflexivity.
  assert (honest quietHost) as Hh by (intros n; discriminate).
  destruct (host_change_guarded plainKeys quietHost (λ _ n, replicate n (bz 0)) noKeygen (λ _, Ok []) (λ _, Ok 0) (λ _ _, Ok []) (λ _ _, true)
    (Ok "linux-amd64"%string) (sampleEnv "") (mkInput newTarget noFlags true "host" 3600) configuredWorld manifestText sampleConfig
    Hh eq_refl eq_refl eq_refl Hf Hd) as [Hkept|(m & j & _ & _ & _ & Ht & _)]; [exact (False_rect _ (Hne Hkept))|].
  destruct Ht as [Ht|Hq]; [discriminate|exact Hq].
Defined.

Lemma host_rerun_keeps_network_witness :
  ∃ p network, resolveHostPublication noFlags (Some sampleConfig) (mret AddrInvalid) [] configuredWorld = (Ok p, configuredWorld) ∧
    ProposeNetwork (DataListen p) (EnrollListen p) (DataDial p) (EnrollDial p) (Some (Net sampleConfig)) = Ok (network, false) ∧
    PublishedEndpointGeneration network = 1.
Proof.
  destruct (host_rerun_keeps_network sampleConfig (mret AddrInvalid) [] configuredWorld) as (p & network & Hp & Hn & Hg & _); [vm_compute; reflexivity|].
  exists p, network. split; [exact Hp|]. split; [exact Hn|]. rewrite Hg. reflexivity.
Defined.

(** ** A change of the target that is lost *)

(** The target is changed and the command is interrupted once the manifest is
    written.  Run again, it reports success, but the data plane still serves the
    old target: the manifest now has the new target and the receipt covers only
    the network and the certificate, so nothing asks for a restart. *)
Lemma target_change_lost :
  let w1 := (sampleApply "" noFlags oldTarget configuredWorld).2 in
  let w2 := (sampleApply "manifest-write" noFlags newTarget w1).2 in
  let '(r, w3) := sampleApply "" noFlags newTarget w2 in
  is_ok r = true ∧ targetAt ServerManifestPath w3 = Some newTarget ∧ targetAt runningPath w3 = Some oldTarget.
Proof. vm_compute. done. Qed.

(** ** Two interruptions that leave a host stuck *)

Definition listenOn (address : string) : hostPublicationFlags :=
  mkFlags (mkFlag true address) (mkFlag false "") (mkFlag false "") (mkFlag false "") (mkFlag false "").
(** The first change is interrupted after the restart, so the receipt is still
    the old one; the change back is interrupted before it.  From then on the
    receipt agrees with the manifest, no restart is asked for, and the command
    fails however often it is run. *)
Lemma interrupted_twice_stuck :
  let w1 := (sampleApply "" (listenOn "192.168.1.1:443") oldTarget configuredWorld).2 in
  let w2 := (sampleApply "data-plane-restart" (listenOn "192.168.1.2:443") oldTarget w1).2 in
  let w3 := (sampleApply "manifest-write" (listenOn "192.168.1.1:443") oldTarget w2).2 in
  let '(r4, w4) := sampleApply "" (listenOn "192.168.1.1:443") oldTarget w3 in
  let '(r5, w5) := sampleApply "" noFlags oldTarget w4 in
  is_ok (sampleApply "" (listenOn "192.168.1.1:443") oldTarget configuredWorld).1 = true ∧ is_ok r4 = false ∧ is_ok r5 = false ∧
  files w5 !! runningPath = files w3 !! runningPath.
Proof. vm_compute. done. Qed.

End HostApplyWitness.
